(* ===== verification/_CoqProject ===== *)
-Q . S2P
Prelude.v
StateMonad.v
Collections.v
JsNumber.v
JsValue.v
Guards.v
WritesEffect.v
Ir.v
Builders.v
TaskImpl.v
PlanCtx.v
Capabilities.v
ArtifactValidation.v
TsAst.v
ExprCompiler.v
PredCompiler.v
AstExtractor.v
AstRewriting.v
StableStringify.v
Json.v
Alike.v
RedisSeed.v
ShareLink.v
DevServer.v
Executor.v
Sandbox.v
CompilerCli.v
Registry.v
Endpoints.v
TaskRegistry.v
Bundler.v
CodegenUtils.v
PlanBuild.v
GenTs.v
RepositoryTasks.v
GenCpp.v
GenMonaco.v
Codegen.v
SyncManifest.v
Lint.v
PlanImports.v
Preferences.v
VisGraph.v
VisTypes.v
TaskTypes.v
VisStore.v
Jsx.v
Widgets.v
Hover.v
EditorPanel.v
EditorView.v
EditorSetup.v
RegistryViewer.v
RegistryTyping.v
RegistryFiles.v
DetailsPanel.v
Canvas.v
DockLayout.v
App.v
AppPage.v
CanvasLife.v
Pipeline.v
BuildRun.v
