(* ===== verification/Prelude.v ===== *)
(** * A verification of the ranking DSL's TypeScript: from plan sources to artifacts

    A plan is a TypeScript program that builds a DAG of ranking tasks.  The compiler [dslc]
    extracts natural expressions from its source, bundles it, runs it in a sandbox on the
    plan API, merges the extracted tables into the artifact, validates it and writes it as
    JSON for the engine.  Generators make the API's typed half and the engine's headers from
    registries in TOML; tools build all plans and keep their manifest; a visualizer shows
    artifacts in the browser, edits plans and compiles them on its development server.
    This library models that TypeScript and proves it correct.

    ** How the parts interact, and where they are

    The language.  Prelude.v: results that may throw ([result]), strings, the tactics shared
    by all files.  StateMonad.v: methods that change an object and may throw, with a Hoare
    logic.  Collections.v: [sort] with a comparison (class [Consistent] for comparisons that
    order), [Map]s and [Set]s in insertion order.  JsNumber.v: binary64 numbers, their text
    and parsing.  JsValue.v: dynamic values with prototypes' names, property order,
    [undefined].  Json.v: [JSON.parse], and the JSON copy of a value ([json_value]).  Alike.v: values that differ in the order of their
    members only, with what respects that.

    The plan runtime (dsl/packages/runtime, dsl/packages/generated).  Guards.v (guards.ts),
    Builders.v (expr.ts, pred.ts) and Ir.v (the node types of tasks.ts), WritesEffect.v
    (writes-effect.ts), TaskImpl.v (task-impl.ts), PlanCtx.v (plan.ts), Capabilities.v
    (capabilities.ts), ArtifactValidation.v (artifact-validation.ts).  TaskImpl's
    implementations are proved against the class [TaskContext] with its laws; PlanCtx.v is
    the instance.  TaskTypes.v has the option interfaces of tasks.ts, against which a plan is
    type-checked, as shapes of values.

    The compiler (dsl/packages/compiler).  TsAst.v: the syntax tree that TypeScript's parser
    gives; ExprCompiler.v, PredCompiler.v, AstExtractor.v with its theory in AstRewriting.v,
    StableStringify.v, Executor.v and Sandbox.v (executor.ts: what a run of the plan's code
    leads to, and the host's calls to QuickJS around it), Bundler.v, CompilerCli.v (cli.ts,
    the composition of the others).  PlanBuild.v (tools/build_all_plans.ts) runs the compiler on a manifest that
    SyncManifest.v (tools/sync_manifest.ts) writes; RedisSeed.v (tools/redis_seed.ts) has the
    engine's test data, against a class of the Redis commands it uses; Lint.v has the
    editor's rules (packages/eslint-plugin, packages/ts-plugin), and PlanImports.v compares
    what compiler, bundler and linter say of a plan's imports.

    The generators (dsl/src/codegen).  Registry.v, Endpoints.v and TaskRegistry.v (types.ts,
    parsers.ts), CodegenUtils.v (utils.ts), GenTs.v, GenCpp.v, GenMonaco.v (gen-*.ts) and
    Codegen.v (codegen.ts).  RepositoryTasks.v instantiates them at registry/tasks.toml.  On
    the repository's own registries these definitions compute, byte for byte, the
    TypeScript files under dsl/packages/generated, plan-globals.d.ts and the JSON and digest
    files under artifacts, and up to clang-format's layout the headers under engine/include.

    The visualizer (tools/visualizer).  VisGraph.v (src/parser/plan-parser.ts,
    src/layout/dagre-layout.ts), VisStore.v (src/state/store.ts) and Preferences.v
    (src/state/preferences.ts).  Around the store, which every component reads and changes,
    are the React components of src/App.tsx and src/components: App.v (App, PlanSelector,
    SourcePanel, Toolbar), EditorPanel.v (EditorPanel and its dialogs, with the storage) and
    ShareLink.v (the links it copies), RegistryViewer.v, DetailsPanel.v, Canvas.v and
    DockLayout.v (DockLayout and MenuBar, against a class of dockview's operations).  Their
    controls are in Widgets.v (Dropdown, the dialogs of Modal, the menus of MenuBar, ui/Button)
    and Hover.v (what hovering and focus write to styles, and what React puts back).
    EditorView.v puts the panel, its selector and its dialogs together to the page that the
    user sees; EditorSetup.v has Monaco's options and key commands; CanvasLife.v follows the
    canvas in its panel from PixiJS's start to its end; AppPage.v has the pages and where their controls lead.  VisTypes.v has the
    interfaces of types.ts as shapes of values.  A
    component is a record of its state with the store's machine; [handle] has its handlers,
    [commit] the effects after a render and [step] both; what it draws is text, by the
    rules of Jsx.v.  DevServer.v (vite.config.ts) serves sources and compiles.

    The compositions.  Pipeline.v follows a plan from its calls through the compiler into a
    file that is dropped on the visualizer.  BuildRun.v runs the build of a manifest with the
    compiler as its child process, over a directory, up to the home page that lists the
    result.  RegistryTyping.v and RegistryFiles.v follow the registries from their tables
    through the generator into the viewer's screens.

    State and operations keep the code's names: a class is a record with the monad's
    operations, a handler one definition, a loop a fold whose state is what the loop carries.

    ** What is proved

    - From end to end: a plan that is compiled and dropped on the visualizer is shown as it
      was built (Pipeline.v); a build's index lists the plans that compiled, with their
      digests, and so does the home page that gets it (BuildRun.v); the registries that the
      generator writes can be browsed, whatever the user does (RegistryFiles.v).  What goes
      through JSON is its copy there: members that are undefined are gone, and its numbers
      have to be ones that JSON keeps (finite, not -0, with a text that denotes them).
    - Plans: in every reachable [PlanCtx], whatever calls were made and whichever threw, the
      nodes form a DAG in topological order whose references resolve, in the tables or by a
      placeholder that the compiler has extracted; handles stay valid;
      the validator accepts what finalize makes (PlanCtx.v, ArtifactValidation.v).
    - The compiler: expressions and predicates compile exactly when the grammar derives them
      and to what it denotes; extraction rewrites the source in disjoint places and takes
      exactly the natural values of a [vm]'s [expr] and a [filter]'s [pred]; merging keeps every reference's meaning; what is written is named after its
      file, validates and reads back (ExprCompiler.v, PredCompiler.v, AstRewriting.v,
      CompilerCli.v, StableStringify.v, Json.v).  The sandbox's check of an artifact terminates
      on cyclic heaps and decides which values are trees of data (Executor.v); its host releases everything it
      makes, and runs the plan only without the means to evaluate text (Sandbox.v).
    - Implementations: the generated task implementations are the meaning of their
      specifications, and those, with the compiler's extraction table, are what parser and
      generator derive from registry/tasks.toml (TaskImpl.v, RepositoryTasks.v).  Calls that
      have their declared types run (TaskTypes.v).
    - Effects: the abstract evaluation of write effects is sound, exact when the parameters
      are known, and canonical (WritesEffect.v).
    - Registries and generation: each parser accepts exactly the well-formed tables;
      endpoint names are usable or refused; [--check] succeeds exactly on what a run writes;
      digests depend neither on property order nor on the environment (Registry.v,
      Endpoints.v, TaskRegistry.v, GenTs.v, Codegen.v, CodegenUtils.v, PlanBuild.v).
    - Tools: the build's exit code and index, the manifest's content and idempotence, the
      agreement of linter and bundler, for every plan that compiles (PlanBuild.v,
      SyncManifest.v, Lint.v, Bundler.v, PlanImports.v).
    - Visualizer: the graph is the plan's; the store, under any interleaving of calls,
      responses and history events, shows the plan it says it shows, stops loading and does
      not push history while going back; preferences round-trip (VisGraph.v, VisStore.v,
      Preferences.v).  From the calls of the authoring API to the screen: canvas and details
      panel show the plan that was built, and formulas determine expressions (Canvas.v,
      DetailsPanel.v).  The editor keeps what was saved, also when it is left and opened
      again, changes only the plan being edited and shows what the server compiled; links open with the text they were made from
      (EditorPanel.v, ShareLink.v).  Files are opened or refused, going home ends at home,
      a registry's row opens its entry (App.v, RegistryViewer.v).  Panels stay where they
      were put, and a closed one comes back to its group if that has kept others
      (DockLayout.v).  What holds of the editor's events holds
      of the page with its buttons, keys and dialogs, a drop-down list reports options that
      were shown, and elements look as drawn once the pointer has left (EditorView.v,
      AppPage.v, Widgets.v, Hover.v).  The canvas shows the store's graph at its view and
      gives everything back (CanvasLife.v); a key command runs what its button does
      (EditorSetup.v).
    - Development server: an answer is the compiler's for the source that was posted, as long
      as no two plans under way have one name, and as if alone if the source imports nothing
      from the temporary directory; no file outside that directory is touched (DevServer.v).
    - Test data: seeding succeeds on every database and leaves the same contents
      (RedisSeed.v).

    The lemmas named [*_witness] apply the theorems to concrete data.  Examples such as
    [VisStore.stale_response] or [DevServer.fragment_crossed] show behaviours of the code that
    its authors may not expect, and where the theorems' conditions end.

    ** Bounds and fuel

    Recursion is structural where the code's is.  [JSON_parse] has the length of the text as
    fuel, which its round-trip theorem shows to be enough for every text [stringify] makes.
    [ShareLink.append_chunks] has a turn for each byte, proved enough.
    [Executor.visit] has fuel that is proved enough on every heap
    ([Executor.validateArtifact_decides]); [VisStore.loading_ends] bounds the length of runs.
    Numbers are binary64, so ids, ports and indices have JavaScript's equality and order.

    ** Not modelled

    - Third-party code is a parameter: TypeScript's parser, esbuild, QuickJS, the TOML
      parser, SHA-256, clang-format, dagre, PixiJS, the browser's history and storage,
      [localeCompare] and the texts of the host's [TypeError] and [SyntaxError].  What a
      theorem needs of one is a hypothesis of it.
    - Characters above code unit 255, in strings and in [\u] escapes; ShareLink.v has all
      UTF-16 code units, and DevServer.v the bytes of UTF-8.
    - Aliasing of stored objects: a plan that changes an object after passing it to the API
      changes the artifact; here a stored object is a value.  The sandbox's heap in
      Executor.v has sharing and cycles.
    - An index entry or JSON object has no class instances, getters or functions called
      [toJSON].
    - The visualizer's styles, beyond those that handlers write (Hover.v), and its pixels,
      beyond the scene of Canvas.v; what PixiJS and Monaco do with their options, times of day
      as text.  React is what Jsx.v, Hover.v, the [commit]s and CanvasLife.v's [effects] say of
      it, dockview what the laws of DockLayout.v do.
    - The operating system: starting a process, resolving relative paths beyond their last
      segment, creating directories (but DevServer.v has them), and failures of writing a
      file for want of space or rights.  The editor's theorems take a storage that works.
    - Re-exports, generated constants, the compiled twin of task-impl.ts, tests, plans and
      the C++ engine.

    ** This file

    The development's scope of notations, the monad of JavaScript results
    ([Ok]/[Throw]), JavaScript's string operations on Latin-1 strings and the tactics. *)

From Stdlib Require Export ZArith Lia Ascii String.
From stdpp Require Export prelude strings gmap pretty sorting.

#[export] Set Default Goal Selector "!".
#[export] Set Warnings "-clear-no-such-hyp,-register-all".

(** ** Results of JavaScript code

    A call returns a value or throws.  [Error] is [new Error(message)];
    [TypeError] is one the language throws by itself (a property of [undefined]
    or [null], a call of a non-function), whose message is the host's. *)

Inductive exn :=
| Error (message : string)
| TypeError.

Inductive result (A : Type) :=
| Ok (a : A)
| Throw (e : exn).
Arguments Ok {A} a.
Arguments Throw {A} e.

#[export] Instance result_ret : MRet result := @Ok.
#[export] Instance result_bind : MBind result := λ A B f m,
  match m with Ok a => f a | Throw e => Throw e end.
#[export] Instance result_fmap : FMap result := λ A B f m,
  match m with Ok a => Ok (f a) | Throw e => Throw e end.

#[export] Instance exn_eq_dec : EqDecision exn.
Proof. solve_decision. Defined.
#[export] Instance result_eq_dec `{EqDecision A} : EqDecision (result A).
Proof. solve_decision. Defined.

(** [if (b) throw new Error(msg)] *)
Definition throw_if (b : bool) (msg : string) : result unit :=
  if b then Throw (Error msg) else Ok tt.

(** [for (const x of l) { f(x) }] where the body may throw. *)
Fixpoint for_each {A} (f : A → result unit) (l : list A) : result unit :=
  match l with
  | [] => Ok tt
  | x :: l' => f x ;; for_each f l'
  end.

(** The same loop with the index, [for (let i = 0; i < l.length; i++)]. *)
Fixpoint for_each_from {A} (i : nat) (f : nat → A → result unit) (l : list A)
    : result unit :=
  match l with
  | [] => Ok tt
  | x :: l' => f i x ;; for_each_from (S i) f l'
  end.
Definition for_each_i {A} (f : nat → A → result unit) (l : list A) : result unit :=
  for_each_from 0 f l.

(** A loop that carries variables. *)
Fixpoint fold_result {A S} (f : S → A → result S) (s : S) (l : list A) : result S :=
  match l with
  | [] => Ok s
  | x :: l' => s' ← f s x; fold_result f s' l'
  end.

Create HintDb js.
Create Rewrite HintDb js.

Lemma bind_Ok {A B} (m : result A) (f : A → result B) b :
  (m ≫= f) = Ok b ↔ ∃ a, m = Ok a ∧ f a = Ok b.
Proof. destruct m; cbn; naive_solver. Qed.

Lemma bind_Ok_unit {B} (m : result unit) (f : unit → result B) b :
  (m ≫= f) = Ok b ↔ m = Ok tt ∧ f tt = Ok b.
Proof. destruct m as [[]|]; cbn; naive_solver. Qed.

Lemma bind_Throw {A B} (m : result A) (f : A → result B) e :
  (m ≫= f) = Throw e ↔ m = Throw e ∨ ∃ a, m = Ok a ∧ f a = Throw e.
Proof. destruct m; cbn; naive_solver. Qed.

Lemma throw_if_Ok b msg u : throw_if b msg = Ok u ↔ b = false.
Proof. destruct b, u; cbn; naive_solver. Qed.

Lemma throw_if_Throw b msg e : throw_if b msg = Throw e ↔ b = true ∧ e = Error msg.
Proof. destruct b; cbn; naive_solver. Qed.

Lemma for_each_Ok {A} (f : A → result unit) l :
  for_each f l = Ok tt ↔ Forall (λ x, f x = Ok tt) l.
Proof.
  induction l as [|x l IH]; cbn.
  - split; auto.
  - rewrite Forall_cons, <-IH. destruct (f x) as [[]|]; cbn; naive_solver.
Qed.

Lemma for_each_from_Ok {A} (f : nat → A → result unit) l : ∀ i,
  for_each_from i f l = Ok tt ↔ ∀ j x, l !! j = Some x → f (i + j) x = Ok tt.
Proof.
  induction l as [|x l IH]; intros i; cbn.
  - split; [intros _ j y Hj; by rewrite lookup_nil in Hj | done].
  - split.
    + intros [E Hl]%bind_Ok_unit j y Hj. rewrite IH in Hl.
      destruct j as [|j]; cbn in Hj.
      * simplify_eq. by rewrite Nat.add_0_r.
      * rewrite <-Nat.add_succ_comm. eauto.
    + intros H. pose proof (H 0 x eq_refl) as H0. rewrite Nat.add_0_r in H0.
      rewrite H0. cbn. apply IH. intros j y Hj.
      specialize (H (S j) y Hj). by rewrite <-Nat.add_succ_comm in H.
Qed.

Lemma for_each_i_Ok {A} (f : nat → A → result unit) l :
  for_each_i f l = Ok tt ↔ ∀ j x, l !! j = Some x → f j x = Ok tt.
Proof. apply for_each_from_Ok. Qed.

(** The loop that reads every element into an array. *)
Lemma fold_result_push {A B} (f : A → result B) l es :
  fold_result (λ es x, e ← f x; Ok (es ++ [e])) [] l = Ok es ↔
  Forall2 (λ x e, f x = Ok e) l es.
Proof.
  enough (∀ acc es, fold_result (λ es x, e ← f x; Ok (es ++ [e])) acc l = Ok es ↔
    ∃ es', Forall2 (λ x e, f x = Ok e) l es' ∧ es = acc ++ es') as H.
  { rewrite H. naive_solver. }
  clear es. induction l as [|x l IH]; intros acc es; cbn.
  - split; [intros [= <-]; exists []; by rewrite app_nil_r|].
    by intros (es' & ->%Forall2_nil_inv_l & ->); rewrite app_nil_r.
  - rewrite bind_Ok. setoid_rewrite bind_Ok. split.
    + intros (acc' & (e & He & [= <-]) & (es' & Hes & ->)%IH).
      exists (e :: es'). rewrite <-app_assoc. auto.
    + intros (es0 & (e & es' & He & Hes & ->)%Forall2_cons_inv_l & ->).
      exists (acc ++ [e]). split; [by exists e|]. apply IH. exists es'. by rewrite <-app_assoc.
Qed.

(** An invariant of the loop variables, over the elements already seen. *)
Lemma fold_result_inv {A S} (f : S → A → result S) (I : list A → S → Prop) l s s' :
  I [] s →
  (∀ pre x s s', I pre s → f s x = Ok s' → I (pre ++ [x]) s') →
  fold_result f s l = Ok s' → I l s'.
Proof.
  intros H0 Hstep. assert (∀ pre s, I pre s →
    fold_result f s l = Ok s' → I (pre ++ l) s') as H.
  { induction l as [|x l IH]; intros pre t Hpre; cbn.
    - intros [= ->]. by rewrite app_nil_r.
    - intros (t' & Ht & Hl)%bind_Ok.
      rewrite cons_middle, assoc by apply _. eauto. }
  intros Hl. apply (H [] s); auto.
Qed.

(** ** Filtered lists *)

Lemma filter_weaker {A} (f g : A → bool) l :
  (∀ x, f x = true → g x = true) → List.filter f l `sublist_of` List.filter g l.
Proof.
  intros H. induction l as [|x l IH]; [done|]. cbn. destruct (f x) eqn:Hf.
  - rewrite (H x Hf). by constructor.
  - destruct (g x); [by constructor|done].
Qed.

Lemma filter_sublist {A} (f : A → bool) l : List.filter f l `sublist_of` l.
Proof. rewrite <-(List.filter_true l) at 2. by apply filter_weaker. Qed.

(** ** Tactics *)

(** Takes a chain of [←] apart. *)
Ltac inv_ok :=
  repeat match goal with
  | H : Ok _ = Ok _ |- _ => injection H as H; try subst
  | H : Ok _ = Throw _ |- _ => discriminate H
  | H : Throw _ = Ok _ |- _ => discriminate H
  | H : Throw _ = Throw _ |- _ => injection H as H; try subst
  | H : mbind _ _ = Ok _ |- _ => apply bind_Ok in H as (? & ? & ?)
  | H : result_bind _ _ _ _ = Ok _ |- _ => apply bind_Ok in H as (? & ? & ?)
  | H : throw_if _ _ = Ok _ |- _ => apply throw_if_Ok in H
  | H : mret _ = Ok _ |- _ => injection H as H; try subst
  | u : unit |- _ => destruct u
  end.

(** Case analysis on the innermost scrutinee of a hypothesis or the goal. *)
Ltac case_in H :=
  match type of H with
  | context [match ?x with _ => _ end] =>
      lazymatch x with
      | context [match _ with _ => _ end] => fail
      | _ => let E := fresh "E" in destruct x eqn:E
      end
  end.
Ltac case_goal :=
  match goal with
  | |- context [match ?x with _ => _ end] =>
      lazymatch x with
      | context [match _ with _ => _ end] => fail
      | _ => let E := fresh "E" in destruct x eqn:E
      end
  end.

(** ** Strings

    A JavaScript string is a sequence of UTF-16 code units; the model's strings
    are the sequences of code units below 256. *)

(** The double quote. *)
Definition dq : string := String (ascii_of_nat 34) EmptyString.
Definition quoted (s : string) : string := dq +:+ s +:+ dq.

Definition startsWith (s p : string) : bool := String.prefix p s.

Definition slice (s : string) (i j : nat) : string := String.substring i (j - i) s.

Definition endsWith (s p : string) : bool :=
  (String.length p <=? String.length s) &&
  bool_decide (slice s (String.length s - String.length p) (String.length s) = p).

Fixpoint includes (s p : string) : bool :=
  startsWith s p ||
  match s with EmptyString => false | String _ s' => includes s' p end.

Definition string_elem (l : list string) (s : string) : bool := bool_decide (s ∈ l).

Fixpoint string_forallb (f : ascii → bool) (s : string) : bool :=
  match s with EmptyString => true | String c s' => f c && string_forallb f s' end.

Definition is_digit (c : ascii) : bool := (48 <=? nat_of_ascii c) && (nat_of_ascii c <=? 57).
Definition is_lower (c : ascii) : bool := (97 <=? nat_of_ascii c) && (nat_of_ascii c <=? 122).
Definition is_upper (c : ascii) : bool := (65 <=? nat_of_ascii c) && (nat_of_ascii c <=? 90).
Definition to_upper (c : ascii) : ascii :=
  if is_lower c then ascii_of_nat (nat_of_ascii c - 32) else c.
Definition to_lower (c : ascii) : ascii :=
  if is_upper c then ascii_of_nat (nat_of_ascii c + 32) else c.

(** [l.join(sep)] *)
Fixpoint join (sep : string) (l : list string) : string :=
  match l with
  | [] => EmptyString
  | [s] => s
  | s :: l' => s +:+ sep +:+ join sep l'
  end.

#[global] Arguments String.append : simpl nomatch.

Lemma string_app_nil_r s : s +:+ EmptyString = s.
Proof. induction s; cbn; congruence. Qed.

Lemma string_app_assoc s t u : (s +:+ t) +:+ u = s +:+ (t +:+ u).
Proof. induction s; cbn; congruence. Qed.

Lemma string_app_length s t :
  String.length (s +:+ t) = String.length s + String.length t.
Proof. induction s; cbn; congruence. Qed.

Lemma startsWith_app p s : startsWith (p +:+ s) p = true.
Proof.
  unfold startsWith. induction p as [|c p IH]; [by destruct s|].
  cbn. by destruct (ascii_dec c c).
Qed.

Lemma startsWith_iff s p : startsWith s p = true ↔ ∃ r, s = p +:+ r.
Proof.
  split; [|intros [r ->]; apply startsWith_app].
  unfold startsWith. revert s. induction p as [|c p IH]; intros s H; [by exists s|].
  destruct s as [|d s]; cbn in H; [done|]. destruct (ascii_dec c d) as [->|]; [|done].
  destruct (IH _ H) as [r ->]. by exists r.
Qed.

#[export] Instance string_app_inj p : Inj (=) (=) (String.append p).
Proof. intros s t. induction p; cbn; naive_solver. Qed.
Lemma string_app_inj_r a b s : a +:+ s = b +:+ s → a = b.
Proof.
  revert b. induction a as [|c a IH]; intros [|d b] H; [done|..|].
  - apply (f_equal String.length) in H. rewrite !string_app_length in H. cbn in H. lia.
  - apply (f_equal String.length) in H. rewrite !string_app_length in H. cbn in H. lia.
  - injection H as -> H. by rewrite (IH _ H).
Qed.

#[export] Hint Rewrite string_app_nil_r string_app_assoc string_app_length : js.

(** ** Slices *)

Lemma substring_0 s m : String.length s ≤ m → String.substring 0 m s = s.
Proof.
  revert m. induction s as [|c s IH]; intros [|m] H; cbn in *; try done; [lia|].
  rewrite IH by lia. done.
Qed.

Lemma substring_app_l a b n m :
  n + m ≤ String.length a → String.substring n m (a +:+ b) = String.substring n m a.
Proof.
  revert n m. induction a as [|c a IH]; intros n m H.
  - cbn in H. assert (n = 0) as -> by lia. assert (m = 0) as -> by lia. by destruct b.
  - destruct n as [|n], m as [|m]; cbn in *; try done.
    + f_equal. apply IH. lia.
    + apply (IH n 0). lia.
    + apply IH. lia.
Qed.

Lemma substring_app_r a b n m :
  n ≤ String.length a → String.length a - n + String.length b ≤ m →
  String.substring n m (a +:+ b) = String.substring n (String.length a - n) a +:+ b.
Proof.
  revert n m. induction a as [|c a IH]; intros n m Hn Hm.
  - cbn in *. assert (n = 0) as -> by lia. cbn. apply substring_0. lia.
  - destruct n as [|n]; cbn in *.
    + destruct m as [|m]; [lia|]. f_equal. rewrite IH by lia. by rewrite Nat.sub_0_r.
    + apply IH; lia.
Qed.

Lemma substring_substring s p n m :
  n + m ≤ p → String.substring n m (String.substring 0 p s) = String.substring n m s.
Proof.
  revert p n m. induction s as [|c s IH]; intros p n m H.
  - by destruct p, n, m.
  - destruct p as [|p].
    { assert (n = 0) as -> by lia. by assert (m = 0) as -> by lia. }
    destruct n as [|n], m as [|m]; cbn; try done.
    + f_equal. apply IH. lia.
    + apply (IH p n 0). lia.
    + apply IH. lia.
Qed.

Lemma substring_length s n m :
  n + m ≤ String.length s → String.length (String.substring n m s) = m.
Proof.
  revert n m. induction s as [|c s IH]; intros n m H.
  - cbn in H. assert (n = 0) as -> by lia. by assert (m = 0) as -> by lia.
  - destruct n as [|n], m as [|m]; cbn in *; try done.
    + f_equal. apply IH. lia.
    + apply (IH n 0). lia.
    + apply IH. lia.
Qed.

Lemma slice_full s : slice s 0 (String.length s) = s.
Proof. unfold slice. apply substring_0. lia. Qed.

(** Slices of a text whose first [p] characters are those of [s]. *)
Lemma slice_prefix_text s t p i j :
  i ≤ j ≤ p → p ≤ String.length s → slice (slice s 0 p +:+ t) i j = slice s i j.
Proof.
  intros Hij Hp. unfold slice. rewrite substring_app_l by (rewrite substring_length; lia).
  rewrite substring_substring by lia. done.
Qed.

Lemma slice_suffix_text s t p j :
  j ≤ p ≤ String.length s →
  slice (slice s 0 p +:+ t) j (String.length (slice s 0 p +:+ t)) = slice s j p +:+ t.
Proof.
  intros Hp. assert (String.length (slice s 0 p) = p) as Hl.
  { unfold slice. rewrite substring_length; lia. }
  rewrite string_app_length, Hl. unfold slice at 1.
  rewrite substring_app_r by (rewrite ?Hl; lia). rewrite Hl.
  unfold slice. by rewrite substring_substring by lia.
Qed.

Lemma substring_split s k :
  k ≤ String.length s →
  String.substring 0 k s +:+ String.substring k (String.length s - k) s = s.
Proof.
  revert k. induction s as [|c s IH]; intros [|k] H; cbn in *; try (done || lia).
  - by rewrite substring_0.
  - by rewrite IH by lia.
Qed.

Lemma endsWith_iff s p : endsWith s p = true ↔ ∃ b, s = b +:+ p.
Proof.
  unfold endsWith, slice. rewrite andb_true_iff, Nat.leb_le, bool_decide_eq_true. split.
  - intros [Hl Hs]. exists (String.substring 0 (String.length s - String.length p) s).
    pose proof (substring_split s (String.length s - String.length p)) as H. rewrite Hs in H.
    symmetry. apply H. lia.
  - intros [b ->]. rewrite string_app_length. split; [lia|].
    replace (String.length b + String.length p - String.length p) with (String.length b) by lia.
    rewrite substring_app_r by lia. rewrite Nat.sub_diag.
    assert (String.substring (String.length b) 0 b = EmptyString) as ->; [|done].
    induction b as [|c b IH]; [done|]. by destruct b.
Qed.
