(* ===== verification/StateMonad.v ===== *)
(** * StateMonad: computations on an object that survive exceptions

    A method of a JavaScript object runs on the object's state and returns or throws;
    what it changed before throwing stays changed. *)

From S2P Require Import Prelude.

Definition M (S A : Type) : Type := S → result A * S.

#[export] Instance M_ret S : MRet (M S) := λ A a s, (Ok a, s).
#[export] Instance M_bind S : MBind (M S) := λ A B f m s,
  match m s with
  | (Ok a, s') => f a s'
  | (Throw e, s') => (Throw e, s')
  end.
#[export] Instance M_fmap S : FMap (M S) := λ A B f m s,
  match m s with
  | (Ok a, s') => (Ok (f a), s')
  | (Throw e, s') => (Throw e, s')
  end.

(** Code that does not touch the object. *)
Definition lift {S A} (r : result A) : M S A := λ s, (r, s).

Definition get {S} : M S S := λ s, (Ok s, s).
Definition modify {S} (f : S → S) : M S unit := λ s, (Ok tt, f s).

(** [try { m } catch (e) { h(e) }] and [try { m } finally { c }] *)
Definition try_catch {S A} (m : M S A) (h : exn → M S A) : M S A := λ s,
  match m s with (Throw e, s') => h e s' | r => r end.
Definition finally {S A} (m : M S A) (c : M S unit) : M S A := λ s,
  match m s with
  | (Ok a, s') => match c s' with (Ok _, s'') => (Ok a, s'') | (Throw e, s'') => (Throw e, s'') end
  | (Throw e, s') => match c s' with (Ok _, s'') => (Throw e, s'') | (Throw e', s'') => (Throw e', s'') end
  end.

Lemma bind_run {S A B} (c : M S A) (f : A → M S B) s a s' :
  c s = (Ok a, s') → (c ≫= f) s = f a s'.
Proof. intros E. unfold mbind, M_bind. by rewrite E. Qed.

(** [{P} m {Q} {E}]: from a state in [P], [m] returns in [Q] or throws in [E]. *)
Definition hoare {S A} (P : S → Prop) (m : M S A) (Q : A → S → Prop) (E : S → Prop) : Prop :=
  ∀ s, P s → match m s with (Ok a, s') => Q a s' | (Throw _, s') => E s' end.

Section hoare.
Context {S : Type}.
Implicit Types P E : S → Prop.

Lemma hoare_ret {A} (a : A) P Q E : (∀ s, P s → Q a s) → hoare P (mret a) Q E.
Proof. intros H s Hs. by apply H. Qed.

Lemma hoare_lift {A} (r : result A) P Q E :
  (∀ a s, r = Ok a → P s → Q a s) → (∀ s, P s → E s) → hoare P (lift r) Q E.
Proof. intros H HE s Hs. unfold lift. destruct r; auto. Qed.

Lemma hoare_bind {A B} (m : M S A) (f : A → M S B) P R Q E :
  hoare P m R E → (∀ a, hoare (R a) (f a) Q E) → hoare P (m ≫= f) Q E.
Proof.
  intros Hm Hf s Hs. specialize (Hm s Hs). unfold mbind, M_bind.
  destruct (m s) as [[a|e] s']; [|done]. by apply Hf.
Qed.

(** Code that does not touch the object, in front of code that does. *)
Lemma hoare_lift_bind {A B} (r : result A) (f : A → M S B) P Q E :
  (∀ s, P s → E s) → (∀ a, r = Ok a → hoare P (f a) Q E) → hoare P (lift r ≫= f) Q E.
Proof.
  intros HE Hf s Hs. unfold mbind, M_bind, lift. destruct r; auto. by apply Hf.
Qed.

Lemma hoare_weaken {A} (m : M S A) P P' (Q Q' : A → S → Prop) E E' :
  hoare P' m Q' E' → (∀ s, P s → P' s) → (∀ a s, Q' a s → Q a s) → (∀ s, E' s → E s) →
  hoare P m Q E.
Proof.
  intros Hm HP HQ HE s Hs. specialize (Hm s (HP s Hs)).
  destruct (m s) as [[a|e] s']; auto.
Qed.
End hoare.

(** Code that keeps [P], returning or throwing. *)
Definition keeps {S} (P : S → Prop) {A} (c : M S A) : Prop := ∀ s, P s → P (c s).2.

Section keeps.
Context {S : Type}.
Implicit Types P : S → Prop.

Lemma keeps_ret P {A} (a : A) : keeps P (mret a).
Proof. by intros m. Qed.
Lemma keeps_bind P {A B} (c : M S A) (f : A → M S B) :
  keeps P c → (∀ a, keeps P (f a)) → keeps P (c ≫= f).
Proof.
  intros Hc Hf m Hm. specialize (Hc m Hm). unfold mbind, M_bind. destruct (c m) as [[a|e] m'].
  - by apply Hf.
  - done.
Qed.
Lemma keeps_lift P {A B} (r : result A) (f : A → M S B) :
  (∀ a, r = Ok a → keeps P (f a)) → keeps P (lift r ≫= f).
Proof. intros Hf m Hm. unfold mbind, M_bind, lift. destruct r; [by apply Hf|done]. Qed.
Lemma keeps_get P {B} (f : S → M S B) :
  (∀ m, P m → P (f m m).2) → keeps P (get ≫= f).
Proof. intros Hf m Hm. unfold mbind, M_bind, get. by apply Hf. Qed.
Lemma keeps_modify P f : (∀ m, P m → P (f m)) → keeps P (modify f).
Proof. intros Hf m Hm. by apply Hf. Qed.
Lemma keeps_try P {A} (c : M S A) h :
  keeps P c → (∀ e, keeps P (h e)) → keeps P (try_catch c h).
Proof.
  intros Hc Hh m Hm. specialize (Hc m Hm). unfold try_catch. destruct (c m) as [[a|e] m']; [done|].
  by apply Hh.
Qed.
Lemma keeps_finally P {A} (c : M S A) d : keeps P c → keeps P d → keeps P (finally c d).
Proof.
  intros Hc Hd m Hm. specialize (Hc m Hm). unfold finally. destruct (c m) as [[a|e] m'];
    specialize (Hd m' Hc); by destruct (d m') as [[]].
Qed.

Lemma keeps_get_all P {B} (f : S → M S B) :
  (∀ m, keeps P (f m)) → keeps P (get ≫= f).
Proof. intros Hf. apply keeps_get. intros m. apply Hf. Qed.
End keeps.

(** Code made of updates that leave what [P] is about alone. *)
Ltac keeps_step :=
  lazymatch goal with
  | |- keeps _ (mret _) => apply keeps_ret
  | |- keeps _ (mbind _ (lift _)) => apply keeps_lift; intros ? ?
  | |- keeps _ (mbind _ get) => apply keeps_get_all; intros ?
  | |- keeps _ (mbind _ _) => apply keeps_bind; [|intros ?]
  | |- keeps _ (try_catch _ _) => apply keeps_try; [|intros ?]
  | |- keeps _ (finally _ _) => apply keeps_finally
  | |- keeps _ (modify _) => apply keeps_modify; let H := fresh in intros ? H; exact H
  | |- keeps _ (match ?x with _ => _ end) => destruct x
  | |- keeps _ (if ?x then _ else _) => destruct x
  end.
Ltac keeps_all := repeat keeps_step; try done.
