(* ===== verification/Collections.v ===== *)
(** * Collections: sorting with a comparison function, Sets and Maps

    [Array.prototype.sort] is specified as a stable sort (ES2019), so for a
    comparison function that is a total preorder on the elements its result is
    determined; the model computes it by stable insertion.  [Set] and [Map] keep
    insertion order: a set is the list of its members, a map an association list,
    and updating an existing key leaves it in its place. *)

From S2P Require Import Prelude.

(** ** Array.prototype.sort *)

Section sort.
Context {A : Type} (cmp : A → A → comparison).

(** [cmp x y <= 0] *)
Definition cmp_le (x y : A) : bool := match cmp x y with Gt => false | _ => true end.

Fixpoint insert_sorted (x : A) (l : list A) : list A :=
  match l with
  | [] => [x]
  | y :: l' => if cmp_le x y then x :: y :: l' else y :: insert_sorted x l'
  end.

Definition js_sort (l : list A) : list A := foldr insert_sorted [] l.

(** A comparison function that orders the elements satisfying [P]. *)
Class Consistent (P : A → Prop) := {
  cmp_total : ∀ x y, P x → P y → cmp_le x y ∨ cmp_le y x;
  cmp_trans : ∀ x y z, P x → P y → P z → cmp_le x y → cmp_le y z → cmp_le x z }.

Lemma insert_sorted_Permutation x l : insert_sorted x l ≡ₚ x :: l.
Proof.
  induction l as [|y l IH]; cbn; [done|]. case_match; [done|].
  rewrite IH. apply Permutation_swap.
Qed.

Lemma js_sort_Permutation l : js_sort l ≡ₚ l.
Proof.
  induction l as [|x l IH]; cbn; [done|]. by rewrite insert_sorted_Permutation, IH.
Qed.

Lemma js_sort_elem_of x l : x ∈ js_sort l ↔ x ∈ l.
Proof. by rewrite js_sort_Permutation. Qed.

Lemma js_sort_length l : length (js_sort l) = length l.
Proof. apply Permutation_length, js_sort_Permutation. Qed.

Lemma insert_sorted_sorted P `{!Consistent P} x l :
  P x → Forall P l → StronglySorted cmp_le l → StronglySorted cmp_le (insert_sorted x l).
Proof.
  intros Px Pl. induction l as [|y l IH]; cbn; intros Hs.
  - repeat constructor.
  - inversion_clear Pl as [|? ? Py Pl']. inversion_clear Hs as [|? ? Hs' Hy].
    case_match eqn:E.
    + constructor; [by constructor|]. constructor; [by rewrite E|].
      rewrite Forall_forall in *. intros z Hz.
      apply (cmp_trans x y z); rewrite ?E; auto.
    + constructor; [auto|]. rewrite insert_sorted_Permutation. constructor; [|done].
      destruct (cmp_total x y Px Py) as [H|H]; [by rewrite E in H|done].
Qed.

Lemma js_sort_sorted P `{!Consistent P} l :
  Forall P l → StronglySorted cmp_le (js_sort l).
Proof.
  induction 1 as [|x l Px Pl IH]; cbn; [constructor|].
  apply (insert_sorted_sorted P); auto. by rewrite js_sort_Permutation.
Qed.

Lemma insert_sorted_head x l : Forall (λ y, cmp_le x y) l → insert_sorted x l = x :: l.
Proof. destruct 1 as [|y l H]; cbn; [done|]. by destruct (cmp_le x y). Qed.

Lemma js_sort_id l : StronglySorted cmp_le l → js_sort l = l.
Proof.
  unfold js_sort. induction 1 as [|x l Hs IH Hx]; cbn; [done|].
  by rewrite IH, insert_sorted_head.
Qed.

Lemma js_sort_idemp P `{!Consistent P} l :
  Forall P l → js_sort (js_sort l) = js_sort l.
Proof. intros Pl. apply js_sort_id. by apply (js_sort_sorted P). Qed.

(** Sorting forgets the input's order, when equal elements are identical. *)
Lemma js_sort_perm_eq P `{!Consistent P} l1 l2 :
  (∀ x y, P x → P y → cmp_le x y → cmp_le y x → x = y) →
  Forall P l1 → l1 ≡ₚ l2 → js_sort l1 = js_sort l2.
Proof.
  intros Hanti P1 Hp. assert (P2 : Forall P l2) by by rewrite <-Hp.
  assert (Hs : ∀ l l', Forall P l → StronglySorted cmp_le l →
    StronglySorted cmp_le l' → l ≡ₚ l' → l = l').
  { clear -Hanti. intros l l' Pl Hl. revert l' Pl.
    induction Hl as [|x l Hl IH Hx]; intros l' Pl Hl' Hp.
    { by apply Permutation_nil_l in Hp. }
    destruct Hl' as [|y l' Hl' Hy]; [by apply symmetry, Permutation_nil_l in Hp|].
    assert (Pl' : Forall P (y :: l')) by by rewrite <-Hp.
    assert (x = y) as ->.
    { assert (x ∈ y :: l') as Hxy by (rewrite <-Hp; left).
      assert (y ∈ x :: l) as Hyx by (rewrite Hp; left).
      rewrite Forall_forall in *.
      apply elem_of_cons in Hxy as [->|Hxy]; [done|].
      apply elem_of_cons in Hyx as [->|Hyx]; [done|].
      apply Hanti; [apply Pl; left | apply Pl'; left | auto | auto]. }
    f_equal. apply IH; [by inversion Pl | done | by apply Permutation_cons_inv in Hp]. }
  apply Hs.
  - by rewrite js_sort_Permutation.
  - by apply (js_sort_sorted P).
  - by apply (js_sort_sorted P).
  - by rewrite !js_sort_Permutation.
Qed.
End sort.

Arguments Consistent {A} cmp P.
Arguments cmp_total {A} cmp P {_} x y.
Arguments cmp_trans {A} cmp P {_} x y z.

Lemma js_sort_NoDup {A} (cmp : A → A → comparison) l : NoDup (js_sort cmp l) ↔ NoDup l.
Proof. by rewrite js_sort_Permutation. Qed.

(** Sorting with the comparison of a field, [(a, b) => cmp(f(a), f(b))]. *)
Definition cmp_on {A B} (cmp : B → B → comparison) (f : A → B) (x y : A) : comparison :=
  cmp (f x) (f y).

Lemma js_sort_fmap {A B} (f : A → B) (cmp : A → A → comparison) (cmp' : B → B → comparison) l :
  (∀ x y, cmp x y = cmp' (f x) (f y)) → f <$> js_sort cmp l = js_sort cmp' (f <$> l).
Proof.
  intros H. induction l as [|x l IH]; [done|].
  change (f <$> insert_sorted cmp x (js_sort cmp l)
    = insert_sorted cmp' (f x) (js_sort cmp' (f <$> l))). rewrite <-IH. clear IH.
  induction (js_sort cmp l) as [|y k IHk]; [done|]. rewrite fmap_cons. cbn [insert_sorted].
  assert (cmp_le cmp x y = cmp_le cmp' (f x) (f y)) as -> by (unfold cmp_le; by rewrite H).
  destruct (cmp_le cmp' (f x) (f y)); [done|]. by rewrite fmap_cons, <-IHk.
Qed.

#[export] Instance cmp_on_consistent {A B} (cmp : B → B → comparison) (f : A → B) P
  `{!Consistent cmp P} : Consistent (cmp_on cmp f) (λ x, P (f x)).
Proof.
  split; unfold cmp_le, cmp_on; intros.
  - by apply (cmp_total cmp P).
  - by eapply (cmp_trans cmp P (f x) (f y) (f z)).
Qed.

(** ** The default order of strings: by code units *)

Definition string_cmp : string → string → comparison := String.compare.

Lemma ascii_compare_lt a b : Ascii.compare a b = Lt ↔ (nat_of_ascii a < nat_of_ascii b)%nat.
Proof.
  unfold Ascii.compare, nat_of_ascii. rewrite N.compare_lt_iff. lia.
Qed.

Lemma string_cmp_antisym s t : string_cmp t s = CompOpp (string_cmp s t).
Proof. apply String.compare_antisym. Qed.

Lemma string_cmp_eq s t : string_cmp s t = Eq ↔ s = t.
Proof.
  split; [apply String.compare_eq_iff|]. intros ->.
  pose proof (string_cmp_antisym t t) as H. by destruct (string_cmp t t).
Qed.

Lemma string_cmp_lt_trans s t u :
  string_cmp s t = Lt → string_cmp t u = Lt → string_cmp s u = Lt.
Proof.
  unfold string_cmp. revert t u. induction s as [|a s IH]; intros [|b t] [|c u]; cbn;
    try done.
  destruct (Ascii.compare a b) eqn:Eab; try done.
  - apply Ascii.compare_eq_iff in Eab as ->. destruct (Ascii.compare b c); eauto.
  - intros _. destruct (Ascii.compare b c) eqn:Ebc; try done.
    + apply Ascii.compare_eq_iff in Ebc as ->. by rewrite Eab.
    + intros _. apply ascii_compare_lt in Eab, Ebc.
      assert (Ascii.compare a c = Lt) as -> by (apply ascii_compare_lt; lia). done.
Qed.

#[export] Instance string_cmp_consistent : Consistent string_cmp (λ _, True).
Proof.
  split; unfold cmp_le.
  - intros x y _ _. rewrite (string_cmp_antisym x y).
    destruct (string_cmp x y); cbn; auto.
  - intros x y z _ _ _. destruct (string_cmp x y) eqn:Exy; [| |done].
    + apply string_cmp_eq in Exy as ->. done.
    + intros _. destruct (string_cmp y z) eqn:Eyz; [| |done].
      * apply string_cmp_eq in Eyz as ->. by rewrite Exy.
      * by rewrite (string_cmp_lt_trans x y z).
Qed.

Lemma string_cmp_le_antisym s t :
  cmp_le string_cmp s t → cmp_le string_cmp t s → s = t.
Proof.
  unfold cmp_le. rewrite (string_cmp_antisym s t).
  destruct (string_cmp s t) eqn:E; cbn; try done. by apply string_cmp_eq in E.
Qed.

(** [l.sort()] on strings *)
Definition sort_strings (l : list string) : list string := js_sort string_cmp l.

Lemma sort_strings_sorted l : StronglySorted (cmp_le string_cmp) (sort_strings l).
Proof. apply (js_sort_sorted _ (λ _, True)). by apply Forall_true. Qed.

Lemma sort_strings_perm_eq l1 l2 : l1 ≡ₚ l2 → sort_strings l1 = sort_strings l2.
Proof.
  intros Hp. apply (js_sort_perm_eq _ (λ _, True)); [|by apply Forall_true|done].
  intros ????. apply string_cmp_le_antisym.
Qed.

(** ** Set *)

Section js_set.
Context {A : Type} (eqb : A → A → bool).

Definition set_has (s : list A) (x : A) : bool := existsb (eqb x) s.
Definition set_add (s : list A) (x : A) : list A := if set_has s x then s else s ++ [x].
(** [[...new Set(l)]] *)
Definition set_of (l : list A) : list A := foldl set_add [] l.
End js_set.

Section js_set_facts.
Context {A : Type} (eqb : A → A → bool).
Context (eqb_spec : ∀ x y, eqb x y = true ↔ x = y).

Lemma set_has_elem_of s x : set_has eqb s x = true ↔ x ∈ s.
Proof.
  unfold set_has. rewrite existsb_exists. setoid_rewrite eqb_spec.
  setoid_rewrite <-list_elem_of_In. naive_solver.
Qed.

Lemma set_add_elem_of s x y : y ∈ set_add eqb s x ↔ y ∈ s ∨ y = x.
Proof.
  unfold set_add. destruct (set_has eqb s x) eqn:E.
  - apply set_has_elem_of in E. naive_solver.
  - by rewrite elem_of_app, list_elem_of_singleton.
Qed.

Lemma set_add_NoDup s x : NoDup s → NoDup (set_add eqb s x).
Proof.
  intros Hs. unfold set_add. destruct (set_has eqb s x) eqn:E; [done|].
  apply NoDup_app. split; [done|]. split; [|apply NoDup_singleton].
  intros y Hy ->%list_elem_of_singleton. apply set_has_elem_of in Hy. congruence.
Qed.

Lemma foldl_set_add_elem_of s l y : y ∈ foldl (set_add eqb) s l ↔ y ∈ s ∨ y ∈ l.
Proof.
  revert s. induction l as [|x l IH]; intros s; cbn; [set_solver|].
  rewrite IH, set_add_elem_of. set_solver.
Qed.

Lemma set_of_elem_of l y : y ∈ set_of eqb l ↔ y ∈ l.
Proof. unfold set_of. rewrite foldl_set_add_elem_of. set_solver. Qed.

Lemma set_of_NoDup l : NoDup (set_of eqb l).
Proof.
  unfold set_of. assert (NoDup (@nil A)) as H by constructor. revert H.
  generalize (@nil A). induction l as [|x l IH]; intros s Hs; cbn; [done|].
  by apply IH, set_add_NoDup.
Qed.

(** A list without duplicates is the set of itself. *)
Lemma set_of_id l : NoDup l → set_of eqb l = l.
Proof.
  unfold set_of. intros Hl.
  enough (∀ s, NoDup (s ++ l) → foldl (set_add eqb) s l = s ++ l) as H by by apply (H []).
  clear Hl. induction l as [|x l IH]; intros s Hs; cbn; [by rewrite app_nil_r|].
  assert (set_add eqb s x = s ++ [x]) as ->.
  { unfold set_add. destruct (set_has eqb s x) eqn:E; [|done].
    apply set_has_elem_of in E. apply NoDup_app in Hs as (_ & Hs & _).
    destruct (Hs x E). left. }
  rewrite IH; by rewrite <-app_assoc.
Qed.
End js_set_facts.

Definition string_set_add := set_add String.eqb.
Definition string_set_has := set_has String.eqb.
Definition string_set_of := set_of String.eqb.

Lemma string_set_has_elem_of s x : string_set_has s x = true ↔ x ∈ s.
Proof. apply set_has_elem_of, String.eqb_eq. Qed.
Lemma string_set_has_false s x : string_set_has s x = false ↔ x ∉ s.
Proof. rewrite <-string_set_has_elem_of. by destruct (string_set_has s x). Qed.
Lemma string_set_add_elem_of s x y : y ∈ string_set_add s x ↔ y ∈ s ∨ y = x.
Proof. apply set_add_elem_of, String.eqb_eq. Qed.
Lemma string_set_add_NoDup s x : NoDup s → NoDup (string_set_add s x).
Proof. apply set_add_NoDup, String.eqb_eq. Qed.
Lemma string_set_of_elem_of l y : y ∈ string_set_of l ↔ y ∈ l.
Proof. apply set_of_elem_of, String.eqb_eq. Qed.
Lemma string_set_of_NoDup l : NoDup (string_set_of l).
Proof. apply set_of_NoDup, String.eqb_eq. Qed.

(** ** Map with string keys *)

Section js_map.
Context {V : Type}.
Implicit Types m : list (string * V).

Fixpoint map_get m (k : string) : option V :=
  match m with
  | [] => None
  | (k', v) :: m' => if String.eqb k k' then Some v else map_get m' k
  end.

Definition map_has m (k : string) : bool := bool_decide (is_Some (map_get m k)).

(** [m.set(k, v)]: in place for a key already there, at the end otherwise. *)
Fixpoint map_set m (k : string) (v : V) : list (string * V) :=
  match m with
  | [] => [(k, v)]
  | (k', v') :: m' => if String.eqb k k' then (k', v) :: m' else (k', v') :: map_set m' k v
  end.

Lemma map_get_set_eq m k v : map_get (map_set m k v) k = Some v.
Proof.
  induction m as [|[k' v'] m IH]; cbn; [by rewrite String.eqb_refl|].
  destruct (String.eqb k k') eqn:E; cbn; by rewrite E.
Qed.

Lemma map_get_set_ne m k k' v : k ≠ k' → map_get (map_set m k v) k' = map_get m k'.
Proof.
  intros Hne. induction m as [|[j w] m IH]; cbn.
  - destruct (String.eqb_spec k' k); congruence.
  - destruct (String.eqb_spec k j), (String.eqb_spec k' j); subst; cbn;
      rewrite ?String.eqb_refl; try done;
      (destruct (String.eqb_spec k' j); try done; congruence).
Qed.

Lemma map_get_Some_elem_of m k v : map_get m k = Some v → (k, v) ∈ m.
Proof.
  induction m as [|[j w] m IH]; cbn; [done|].
  destruct (String.eqb_spec k j); intros; simplify_eq; [left|right]; auto.
Qed.

Lemma map_get_None m k : map_get m k = None ↔ k ∉ m.*1.
Proof.
  induction m as [|[j w] m IH]; cbn; [set_solver|].
  destruct (String.eqb_spec k j); [set_solver|]. rewrite IH. set_solver.
Qed.

Lemma elem_of_map_get m k v : NoDup (m.*1) → (k, v) ∈ m → map_get m k = Some v.
Proof.
  induction m as [|[j w] m IH]; cbn; [set_solver|].
  rewrite NoDup_cons, elem_of_cons. intros [Hj Hm] [|Hin]; simplify_eq.
  - by rewrite String.eqb_refl.
  - destruct (String.eqb_spec k j) as [->|]; [|auto].
    destruct Hj. apply list_elem_of_fmap. by exists (j, v).
Qed.

Lemma map_set_fresh m k v : k ∉ m.*1 → map_set m k v = m ++ [(k, v)].
Proof.
  induction m as [|[j w] m IH]; cbn; [done|]. intros Hk.
  destruct (String.eqb_spec k j); [set_solver|]. rewrite IH by set_solver. done.
Qed.

Lemma map_set_keys m k v : ∀ j, j ∈ (map_set m k v).*1 ↔ j ∈ m.*1 ∨ j = k.
Proof.
  induction m as [|[j w] m IH]; cbn; intros i; [set_solver|].
  destruct (String.eqb_spec k j) as [->|]; cbn; [set_solver|].
  rewrite !elem_of_cons, IH. tauto.
Qed.

Lemma map_set_NoDup m k v : NoDup (m.*1) → NoDup ((map_set m k v).*1).
Proof.
  induction m as [|[j w] m IH]; cbn; intros Hm; [apply NoDup_singleton|].
  destruct (String.eqb_spec k j) as [->|]; cbn; [done|].
  apply NoDup_cons in Hm as [Hj Hm]. apply NoDup_cons. split; [|auto].
  rewrite map_set_keys. naive_solver.
Qed.
End js_map.
