(* ===== verification/JsNumber.v ===== *)
(** * JsNumber: the Number type of JavaScript

    A Number is an IEEE 754 binary64 datum: the specification floats of the
    Standard Library at precision 53 and maximal exponent 1024.  The file gives
    the operations the repository uses on numbers ([Number.isInteger],
    [Number.isFinite], [===], the SameValueZero comparison of [Set] and [Map], the
    comparison functions [(a, b) => a - b], [Number(text)] and the conversion of a
    number to a string) and shows that [a - b] orders the numbers other than
    NaN. *)

From Stdlib Require Import Floats.SpecFloat.
From S2P Require Import Prelude Collections.
Local Open Scope Z_scope.

Abbreviation number := spec_float.

Definition prec : Z := 53.
Definition emax : Z := 1024.

#[export] Instance number_eq_dec : EqDecision number.
Proof. solve_decision. Defined.

(** The number nearest to an integer. *)
Definition num (z : Z) : number := binary_normalize prec emax z 0 false.

Definition NaN : number := S754_nan.
Definition Infinity (neg : bool) : number := S754_infinity neg.
Definition isNaN (x : number) : bool := match x with S754_nan => true | _ => false end.
Definition is_zero (x : number) : bool := match x with S754_zero _ => true | _ => false end.

(** [Number.isFinite] *)
Definition isFinite (x : number) : bool :=
  match x with S754_zero _ | S754_finite _ _ _ => true | _ => false end.

(** [Number.isInteger] *)
Definition isInteger (x : number) : bool :=
  match x with
  | S754_zero _ => true
  | S754_finite _ m e => (0 <=? e) || (Z.pos m mod 2 ^ (- e) =? 0)
  | _ => false
  end.

(** [x === y], [x < y] *)
Definition num_eqb (x y : number) : bool := SFeqb x y.
Definition num_ltb (x y : number) : bool := SFltb x y.

(** The equality of [Set] and [Map] members: NaN equals itself, 0 equals -0. *)
Definition same_value_zero (x y : number) : bool := SFeqb x y || (isNaN x && isNaN y).

(** The comparison function [(a, b) => a - b]: the sign of the difference, and a
    difference that is NaN counts as 0. *)
Definition num_cmp (x y : number) : comparison :=
  match SFcompare x y with Some c => c | None => Eq end.

(** [x + y], [x - y], [x * y], [x / y] *)
Definition num_add (x y : number) : number := SFadd prec emax x y.
Definition num_sub (x y : number) : number := SFsub prec emax x y.
Definition num_mul (x y : number) : number := SFmul prec emax x y.
Definition num_div (x y : number) : number := SFdiv prec emax x y.

(** [Math.min(x, y)], [Math.max(x, y)]: NaN wins, and -0 is below 0. *)
Definition num_min (x y : number) : number :=
  if isNaN x || isNaN y then NaN
  else if num_ltb y x then y
  else match x, y with S754_zero _, S754_zero true => y | _, _ => x end.
Definition num_max (x y : number) : number :=
  if isNaN x || isNaN y then NaN
  else if num_ltb x y then y
  else match x, y with S754_zero _, S754_zero false => y | _, _ => x end.

Definition num_valid (x : number) : bool := valid_binary prec emax x.

(** ** [a - b] is a consistent comparison *)

(** Every finite number is an integer multiple of 2^-1074: that integer. *)
Definition scaled (x : number) : Z :=
  match x with
  | S754_zero _ | S754_nan => 0
  | S754_infinity s => if s then - 2 ^ 2200 else 2 ^ 2200
  | S754_finite s m e => (if s then - Z.pos m else Z.pos m) * 2 ^ (e + 1074)
  end.

Lemma digits2_pos_bounds m :
  2 ^ (Z.pos (digits2_pos m) - 1) <= Z.pos m < 2 ^ Z.pos (digits2_pos m).
Proof.
  induction m as [m IH|m IH|]; cbn [digits2_pos]; [| |done].
  all: rewrite Pos2Z.inj_succ;
    replace (Z.succ (Z.pos (digits2_pos m)) - 1) with (Z.pos (digits2_pos m)) by lia;
    replace (Z.pos (digits2_pos m)) with (Z.succ (Z.pos (digits2_pos m) - 1)) at 1 by lia;
    rewrite !Z.pow_succ_r by lia; lia.
Qed.

Lemma valid_finite s m e :
  num_valid (S754_finite s m e) = true →
  -1074 <= e <= 971 ∧ Z.pos m < 2 ^ 53 ∧ (-1074 < e → 2 ^ 52 <= Z.pos m).
Proof.
  unfold num_valid, valid_binary, bounded, canonical_mantissa, fexp, emin, prec, emax.
  rewrite andb_true_iff, Z.eqb_eq, Z.leb_le. intros [Hc He].
  pose proof (digits2_pos_bounds m) as [Hl Hu].
  assert (Z.pos (digits2_pos m) <= 53) as Hd by lia.
  split; [lia|]. split.
  - eapply Z.lt_le_trans; [exact Hu|]. apply Z.pow_le_mono_r; lia.
  - intros. assert (Z.pos (digits2_pos m) = 53) as Hd' by lia. by rewrite Hd' in Hl.
Qed.

Lemma scaled_exponent_lt s1 m1 e1 s2 m2 e2 :
  num_valid (S754_finite s1 m1 e1) = true → num_valid (S754_finite s2 m2 e2) = true →
  e1 < e2 → Z.pos m1 * 2 ^ (e1 + 1074) < Z.pos m2 * 2 ^ (e2 + 1074).
Proof.
  intros (? & ? & _)%valid_finite (? & ? & H2)%valid_finite He.
  apply Z.lt_le_trans with (2 ^ 53 * 2 ^ (e1 + 1074)).
  - apply Z.mul_lt_mono_pos_r; lia.
  - apply Z.le_trans with (2 ^ 52 * 2 ^ (e2 + 1074)).
    + rewrite <-!Z.pow_add_r by lia. apply Z.pow_le_mono_r; lia.
    + apply Z.mul_le_mono_nonneg_r; lia.
Qed.

Lemma scaled_finite_bound s m e :
  num_valid (S754_finite s m e) = true → 0 < Z.pos m * 2 ^ (e + 1074) < 2 ^ 2200.
Proof.
  intros (? & ? & _)%valid_finite. split; [lia|].
  apply Z.lt_le_trans with (2 ^ 53 * 2 ^ (e + 1074)).
  - apply Z.mul_lt_mono_pos_r; lia.
  - rewrite <-Z.pow_add_r by lia. apply Z.pow_le_mono_r; lia.
Qed.

Lemma compare_same_exponent m1 m2 e :
  -1074 <= e → (Z.pos m1 * 2 ^ (e + 1074) ?= Z.pos m2 * 2 ^ (e + 1074)) = (m1 ?= m2)%positive.
Proof.
  intros. symmetry. apply (Zmult_compare_compat_r (Z.pos m1) (Z.pos m2)). lia.
Qed.

Lemma compare_finite_pos s1 m1 e1 s2 m2 e2 :
  num_valid (S754_finite s1 m1 e1) = true → num_valid (S754_finite s2 m2 e2) = true →
  (Z.pos m1 * 2 ^ (e1 + 1074) ?= Z.pos m2 * 2 ^ (e2 + 1074)) =
  match e1 ?= e2 with Eq => (m1 ?= m2)%positive | c => c end.
Proof.
  intros V1 V2. destruct (Z.compare_spec e1 e2) as [->|H|H].
  - apply compare_same_exponent. by apply valid_finite in V2 as [[??] _].
  - apply Z.compare_lt_iff. by eapply scaled_exponent_lt.
  - apply Z.compare_gt_iff. by eapply scaled_exponent_lt.
Qed.

Lemma num_cmp_scaled x y :
  num_valid x = true → num_valid y = true → isNaN x = false → isNaN y = false →
  num_cmp x y = (scaled x ?= scaled y).
Proof.
  intros Vx Vy Nx Ny. unfold num_cmp.
  destruct x as [sx|sx| |sx mx ex], y as [sy|sy| |sy my ey]; try done;
    try pose proof (scaled_finite_bound _ _ _ Vx) as Bx;
    try pose proof (scaled_finite_bound _ _ _ Vy) as By; cbn [SFcompare scaled].
  all: try (destruct sx); try (destruct sy); symmetry;
    rewrite ?Z.compare_lt_iff, ?Z.compare_gt_iff, ?Z.compare_eq_iff; try lia.
  - rewrite !Z.mul_opp_l, Z.compare_opp, Z.compare_antisym,
      (compare_finite_pos true _ _ true) by done.
    by destruct (ex ?= ey).
  - rewrite (compare_finite_pos false _ _ false) by done. by destruct (ex ?= ey).
Qed.

(** The numbers a comparison [a - b] orders. *)
Definition ordinary (x : number) : Prop := num_valid x = true ∧ isNaN x = false.

#[export] Instance ordinary_dec x : Decision (ordinary x).
Proof. unfold ordinary. apply _. Defined.

(** A stronger condition keeps a comparison consistent. *)
Lemma consistent_weaken {A} (cmp : A → A → comparison) (P Q : A → Prop) :
  (∀ x, Q x → P x) → Consistent cmp P → Consistent cmp Q.
Proof.
  intros H HP. split; intros.
  - apply (cmp_total cmp P); auto.
  - apply (cmp_trans cmp P x y z); auto.
Qed.

#[export] Instance num_cmp_consistent : Consistent num_cmp ordinary.
Proof.
  split; unfold cmp_le.
  - intros x y [??] [??]. rewrite !num_cmp_scaled by done.
    destruct (Z.compare_spec (scaled x) (scaled y)), (Z.compare_spec (scaled y) (scaled x));
      auto; lia.
  - intros x y z [??] [??] [??]. rewrite !num_cmp_scaled by done.
    destruct (Z.compare_spec (scaled x) (scaled y)), (Z.compare_spec (scaled y) (scaled z)),
      (Z.compare_spec (scaled x) (scaled z)); auto; lia.
Qed.

Lemma num_cmp_le_scaled x y :
  ordinary x → ordinary y → cmp_le num_cmp x y ↔ scaled x <= scaled y.
Proof.
  intros [??] [??]. unfold cmp_le. rewrite num_cmp_scaled by done.
  destruct (Z.compare_spec (scaled x) (scaled y)); cbn; split; auto; lia || done.
Qed.

(** ** SameValueZero identifies only the two zeros *)

Lemma SFcompare_eq x y :
  SFcompare x y = Some Eq → x = y ∨ (is_zero x = true ∧ is_zero y = true).
Proof.
  destruct x as [sx|sx| |sx mx ex], y as [sy|sy| |sy my ey]; cbn; auto;
    try (by destruct sx); try (by destruct sy).
  - destruct sx, sy; auto; done.
  - destruct sx, sy; try done; destruct (Z.compare_spec ex ey) as [->| |]; try done;
      change (PosDef.Pos.compare_cont Eq mx my) with (mx ?= my)%positive;
      destruct (Pos.compare_spec mx my) as [->| |]; try done; auto.
Qed.

Lemma SFcompare_refl x : isNaN x = false → SFcompare x x = Some Eq.
Proof.
  destruct x as [s|s| |s m e]; try done; cbn; intros _; [by destruct s|].
  rewrite Z.compare_refl. change (PosDef.Pos.compare_cont Eq m m) with (m ?= m)%positive.
  rewrite Pos.compare_refl. by destruct s.
Qed.

Lemma same_value_zero_iff x y :
  same_value_zero x y = true ↔ x = y ∨ (is_zero x = true ∧ is_zero y = true).
Proof.
  unfold same_value_zero, SFeqb. split.
  - destruct (SFcompare x y) as [[]|] eqn:E; cbn; [intros _; by apply SFcompare_eq|..];
      destruct x, y; cbn; auto; done.
  - intros [->|[Hx Hy]].
    + destruct (isNaN y) eqn:N; [by rewrite orb_true_r|]. by rewrite SFcompare_refl.
    + by destruct x, y.
Qed.

Lemma same_value_zero_trans x y z :
  same_value_zero x y = true → same_value_zero y z = true → same_value_zero x z = true.
Proof. rewrite !same_value_zero_iff. naive_solver. Qed.

Lemma same_value_zero_sym x y : same_value_zero x y = same_value_zero y x.
Proof. apply eq_true_iff_eq. rewrite !same_value_zero_iff. naive_solver. Qed.

(** ** A set of numbers, [Set<number>]

    [add] stores 0 for -0, so the members of a set are the same only when they are
    identical. *)

Definition norm_zero (x : number) : number := if is_zero x then S754_zero false else x.

Definition num_set_has : list number → number → bool := set_has same_value_zero.
Definition num_set_add (s : list number) (x : number) : list number :=
  if num_set_has s x then s else s ++ [norm_zero x].
Definition num_set_of (l : list number) : list number := foldl num_set_add [] l.

Lemma same_value_zero_norm x y : same_value_zero x y = true ↔ norm_zero x = norm_zero y.
Proof.
  rewrite same_value_zero_iff. unfold norm_zero. split.
  - intros [->|[-> ->]]; done.
  - destruct (is_zero x) eqn:Hx, (is_zero y) eqn:Hy; auto; intros; subst; done.
Qed.

Lemma norm_zero_idemp x : norm_zero (norm_zero x) = norm_zero x.
Proof. by destruct x. Qed.

Lemma num_set_has_elem_of l x : num_set_has l x = true ↔ norm_zero x ∈ norm_zero <$> l.
Proof.
  unfold num_set_has, set_has. rewrite existsb_exists, list_elem_of_fmap.
  setoid_rewrite same_value_zero_norm. setoid_rewrite <-list_elem_of_In. naive_solver.
Qed.

Lemma num_set_has_app s t x : num_set_has (s ++ t) x = num_set_has s x || num_set_has t x.
Proof. apply existsb_app. Qed.

Lemma num_set_has_same s x y :
  same_value_zero x y = true → num_set_has s x = num_set_has s y.
Proof.
  intros Hxy%same_value_zero_norm. apply eq_true_iff_eq. by rewrite !num_set_has_elem_of, Hxy.
Qed.

Lemma num_set_has_add s x y :
  num_set_has (num_set_add s x) y = num_set_has s y || same_value_zero y x.
Proof.
  unfold num_set_add. destruct (num_set_has s x) eqn:E.
  - destruct (same_value_zero y x) eqn:Exy; [|by rewrite orb_false_r].
    by rewrite (num_set_has_same s y x), E.
  - rewrite num_set_has_app. cbn. rewrite orb_false_r. f_equal.
    apply eq_true_iff_eq. by rewrite !same_value_zero_norm, norm_zero_idemp.
Qed.

Lemma num_set_has_foldl s l y :
  num_set_has (foldl num_set_add s l) y = num_set_has s y || num_set_has l y.
Proof.
  revert s. induction l as [|x l IH]; intros s; [cbn; by rewrite orb_false_r|].
  change (num_set_has (foldl num_set_add (num_set_add s x) l) y =
    num_set_has s y || (same_value_zero y x || num_set_has l y)).
  by rewrite IH, num_set_has_add, <-orb_assoc.
Qed.

Lemma num_set_has_of l y : num_set_has (num_set_of l) y = num_set_has l y.
Proof. apply num_set_has_foldl. Qed.

Lemma num_set_has_perm s t x : s ≡ₚ t → num_set_has s x = num_set_has t x.
Proof.
  intros Hp. apply eq_true_iff_eq. rewrite !num_set_has_elem_of. by rewrite Hp.
Qed.

(** The representation of a set: distinct members, none of them -0. *)
Definition num_set (l : list number) : Prop :=
  NoDup l ∧ Forall (λ x, norm_zero x = x) l.

Lemma num_set_nil : num_set [].
Proof. split; constructor. Qed.

Lemma num_set_elem_of l x : num_set l → num_set_has l x = true ↔ norm_zero x ∈ l.
Proof.
  intros [_ Hn]. rewrite num_set_has_elem_of.
  assert (norm_zero <$> l = l) as ->; [|done].
  induction Hn as [|y l Hy _ IH]; cbn; congruence.
Qed.

Lemma num_set_add_num_set s x : num_set s → num_set (num_set_add s x).
Proof.
  intros Hs. unfold num_set_add. destruct (num_set_has s x) eqn:E; [done|].
  assert (norm_zero x ∉ s) as Hx by (rewrite <-num_set_elem_of, E by done; done).
  destruct Hs as [Hd Hn]. split.
  - apply NoDup_app. split; [done|]. split; [|apply NoDup_singleton].
    by intros y Hy ->%list_elem_of_singleton.
  - apply Forall_app. split; [done|]. repeat constructor. apply norm_zero_idemp.
Qed.

Lemma num_set_foldl s l : num_set s → num_set (foldl num_set_add s l).
Proof.
  revert s. induction l as [|x l IH]; intros s Hs; [done|].
  by apply (IH (num_set_add s x)), num_set_add_num_set.
Qed.

Lemma num_set_of_num_set l : num_set (num_set_of l).
Proof. apply num_set_foldl, num_set_nil. Qed.

Lemma num_set_foldl_Forall (P : number → Prop) s l :
  (∀ x, P x → P (norm_zero x)) → Forall P s → Forall P l → Forall P (foldl num_set_add s l).
Proof.
  intros HP. revert s. induction l as [|x l IH]; intros s Hs Hl; [done|].
  inversion_clear Hl. apply (IH (num_set_add s x)); [|done].
  unfold num_set_add. case_match; [done|]. apply Forall_app; auto.
Qed.

Lemma norm_zero_ordinary x : ordinary x → ordinary (norm_zero x).
Proof. by destruct x. Qed.

(** [l.sort((a, b) => a - b)] *)
Definition sort_numbers (l : list number) : list number := js_sort num_cmp l.

Lemma num_set_has_sort l x : num_set_has (sort_numbers l) x = num_set_has l x.
Proof. apply num_set_has_perm, js_sort_Permutation. Qed.

Lemma num_set_sort l : num_set l → num_set (sort_numbers l).
Proof.
  intros [??]. unfold sort_numbers. split; [by apply js_sort_NoDup|].
  by rewrite js_sort_Permutation.
Qed.

Lemma num_cmp_lt x y :
  ordinary x → ordinary y → cmp_le num_cmp x y → norm_zero x ≠ norm_zero y → num_ltb x y = true.
Proof.
  intros [_ Hx] [_ Hy] Hle Hne. unfold cmp_le, num_cmp in Hle. unfold num_ltb, SFltb.
  destruct (SFcompare x y) as [[]|] eqn:E; try done.
  - destruct Hne. apply same_value_zero_norm, same_value_zero_iff. by apply SFcompare_eq.
  - exfalso. by destruct x as [[]|[]| |[]], y as [[]|[]| |[]].
Qed.

(** Strictly increasing lists: the sorted sets. *)
Definition increasing (l : list number) : Prop :=
  StronglySorted (λ x y, num_ltb x y = true) l.

Lemma num_cmp_le_antisym x y :
  ordinary x → ordinary y → norm_zero x = x → norm_zero y = y →
  cmp_le num_cmp x y → cmp_le num_cmp y x → x = y.
Proof.
  intros Hox Hoy Hx Hy H1 H2. rewrite num_cmp_le_scaled in H1, H2 by done.
  assert (num_cmp x y = Eq) as E.
  { destruct Hox, Hoy. rewrite num_cmp_scaled by done. apply Z.compare_eq_iff. lia. }
  unfold num_cmp in E. destruct (SFcompare x y) as [c|] eqn:Ec.
  - subst c. apply SFcompare_eq in Ec as [->|[Zx Zy]]; [done|].
    unfold norm_zero in *. rewrite Zx in Hx. rewrite Zy in Hy. congruence.
  - destruct Hox, Hoy. by destruct x, y.
Qed.

Lemma sort_numbers_increasing l :
  Forall ordinary l → num_set l → increasing (sort_numbers l).
Proof.
  intros Ho Hd%num_set_sort. assert (Ho' : Forall ordinary (sort_numbers l)).
  { unfold sort_numbers. by rewrite js_sort_Permutation. }
  pose proof (js_sort_sorted num_cmp ordinary l Ho) as Hs. fold (sort_numbers l) in Hs.
  induction Hs as [|x s Hs IH Hx]; [constructor|].
  apply Forall_cons in Ho' as [Hox Hos]. destruct Hd as [Hnd Hn].
  apply NoDup_cons in Hnd as [Hxs Hnd]. apply Forall_cons in Hn as [Hxn Hn].
  constructor; [by apply IH|]. rewrite Forall_forall in *. intros y Hy.
  specialize (Hx y Hy) as Hle. unfold cmp_le, num_cmp, num_ltb, SFltb in *.
  destruct (SFcompare x y) as [[]|] eqn:E; try done.
  - apply SFcompare_eq in E as [->|[Zx Zy]]; [done|].
    specialize (Hn y Hy). unfold norm_zero in *. rewrite Zx in Hxn. rewrite Zy in Hn. congruence.
  - destruct Hox, (Hos y Hy). by destruct x, y.
Qed.

(** Sorted sets of ordinary numbers with the same members are equal. *)
Lemma sort_numbers_ext l1 l2 :
  Forall ordinary l1 → num_set l1 → num_set l2 →
  (∀ x, num_set_has l1 x = num_set_has l2 x) → sort_numbers l1 = sort_numbers l2.
Proof.
  intros Ho H1 H2 Hx. assert (l1 ≡ₚ l2) as Hp.
  { apply NoDup_Permutation; [by destruct H1|by destruct H2|].
    intros x. pose proof (Hx x) as E. pose proof H1 as [_ N1]. pose proof H2 as [_ N2].
    rewrite Forall_forall in N1, N2.
    split; intros Hin.
    - rewrite <-(N1 x Hin). apply num_set_elem_of; [done|]. rewrite <-E.
      apply num_set_elem_of; [done|]. by rewrite (N1 x Hin).
    - rewrite <-(N2 x Hin). apply num_set_elem_of; [done|]. rewrite E.
      apply num_set_elem_of; [done|]. by rewrite (N2 x Hin). }
  assert (Consistent num_cmp (λ x, ordinary x ∧ norm_zero x = x)).
  { apply (consistent_weaken _ ordinary); [naive_solver|apply _]. }
  unfold sort_numbers. apply (js_sort_perm_eq num_cmp (λ x, ordinary x ∧ norm_zero x = x)).
  - intros x y [??] [??]. by apply num_cmp_le_antisym.
  - apply Forall_and. split; [done|]. by destruct H1.
  - done.
Qed.

(** ** [Number(text)] *)

Definition is_hex (c : ascii) : bool :=
  is_digit c || ((97 <=? nat_of_ascii c)%nat && (nat_of_ascii c <=? 102)%nat)
             || ((65 <=? nat_of_ascii c)%nat && (nat_of_ascii c <=? 70)%nat).
Definition digit_value (c : ascii) : Z :=
  if is_digit c then Z.of_nat (nat_of_ascii c - 48)
  else if is_lower c then Z.of_nat (nat_of_ascii c - 87)
  else Z.of_nat (nat_of_ascii c - 55).

(** A run of decimal digits: its value after [acc], its length after [n], the rest. *)
Fixpoint read_digits (s : string) (acc : Z) (n : nat) : Z * nat * string :=
  match s with
  | String c s' =>
      if is_digit c then read_digits s' (acc * 10 + digit_value c) (S n) else (acc, n, s)
  | EmptyString => (acc, n, s)
  end.

(** The value of a string of digits below [base], none of them missing. *)
Fixpoint read_radix (base : Z) (s : string) (acc : Z) : option Z :=
  match s with
  | EmptyString => Some acc
  | String c s' =>
      if is_hex c && (digit_value c <? base) then read_radix base s' (acc * base + digit_value c)
      else None
  end.

(** The number nearest to [m * 10^e], with the sign [neg]. *)
Definition num_of_decimal (neg : bool) (m e : Z) : number :=
  match m with
  | Z.pos p =>
      match e with
      | Z.neg k =>
          let '(q, e', l) := SFdiv_core_binary prec emax m 0 (10 ^ Z.pos k) 0 in
          binary_round_aux prec emax neg q e' l
      | _ =>
          match m * 10 ^ e with
          | Z.pos q => binary_round prec emax neg q 0
          | _ => S754_zero neg
          end
      end
  | _ => S754_zero neg
  end.

(** The exponent of a decimal literal, with everything after it read. *)
Definition read_exponent (s : string) : option Z :=
  match s with
  | EmptyString => Some 0
  | String c s' =>
      if Ascii.eqb c "e" || Ascii.eqb c "E" then
        let '(neg, s'') := match s' with
          | String "-" r => (true, r) | String "+" r => (false, r) | _ => (false, s') end in
        match read_digits s'' 0 0 with
        | (v, S _, EmptyString) => Some (if neg then - v else v)
        | _ => None
        end
      else None
  end.

(** StrUnsignedDecimalLiteral *)
Definition read_decimal (neg : bool) (s : string) : number :=
  if String.eqb s "Infinity" then S754_infinity neg
  else
    let '(i, ni, r) := read_digits s 0 0 in
    let '(m, nf, r') := match r with
      | String "." r1 => read_digits r1 i 0 | _ => (i, 0%nat, r) end in
    match (ni + nf)%nat with
    | O => S754_nan
    | S _ =>
        match read_exponent r' with
        | Some e => num_of_decimal neg m (e - Z.of_nat nf)
        | None => S754_nan
        end
    end.

Definition read_radix_literal (base : Z) (s : string) : number :=
  match s with
  | EmptyString => S754_nan
  | _ => match read_radix base s 0 with Some v => num v | None => S754_nan end
  end.

Definition is_space (c : ascii) : bool :=
  bool_decide (nat_of_ascii c ∈ [9; 10; 11; 12; 13; 32; 160]%nat).
Fixpoint trim_left (s : string) : string :=
  match s with
  | String c s' => if is_space c then trim_left s' else s
  | EmptyString => s
  end.
Fixpoint trim_right (s : string) : string :=
  match s with
  | String c s' =>
      match trim_right s' with
      | EmptyString => if is_space c then EmptyString else String c EmptyString
      | t => String c t
      end
  | EmptyString => s
  end.

(** [text.trim()] *)
Definition trim (text : string) : string := trim_right (trim_left text).

(** [Number(text)] *)
Definition Number (text : string) : number :=
  match trim text with
  | EmptyString => S754_zero false
  | String "0" (String c r) as s =>
      if Ascii.eqb c "x" || Ascii.eqb c "X" then read_radix_literal 16 r
      else if Ascii.eqb c "b" || Ascii.eqb c "B" then read_radix_literal 2 r
      else if Ascii.eqb c "o" || Ascii.eqb c "O" then read_radix_literal 8 r
      else read_decimal false s
  | String "-" r => read_decimal true r
  | String "+" r => read_decimal false r
  | s => read_decimal false s
  end.

Example Number_decimal : Number "0.1" = S754_finite false 7205759403792794 (-56).
Proof. vm_compute. reflexivity. Qed.
Example Number_exponent : Number " 1.5e3 " = num 1500.
Proof. vm_compute. reflexivity. Qed.
Example Number_hex : Number "0x10" = num 16.
Proof. vm_compute. reflexivity. Qed.
Example Number_overflow : Number "1e400" = S754_infinity false.
Proof. vm_compute. reflexivity. Qed.
Example Number_separator : Number "1_000" = S754_nan.
Proof. vm_compute. reflexivity. Qed.

(** ** Number to string

    The shortest decimal that denotes the number: among the decimals with [k]
    significant digits the two neighbours of the value are tried, for [k] from 1 to
    17 (17 digits always suffice for binary64). *)

(** [10^k <= a/b] *)
Definition pow10_le (k a b : Z) : bool :=
  if 0 <=? k then 10 ^ k * b <=? a else b <=? a * 10 ^ (- k).

(** The [n] with [10^(n-1) <= a/b < 10^n], searched from an estimate. *)
Fixpoint find_exponent (fuel : nat) (n a b : Z) : Z :=
  match fuel with
  | O => n
  | S fuel' =>
      if negb (pow10_le (n - 1) a b) then find_exponent fuel' (n - 1) a b
      else if pow10_le n a b then find_exponent fuel' (n + 1) a b
      else n
  end.

(** The [k]-digit neighbours of [a/b], scaled by [10^(n-k)], that read back as [x]. *)
Definition shortest_at (x : number) (a b n k : Z) : option Z :=
  let '(p, q) := if 0 <=? k - n then (a * 10 ^ (k - n), b) else (a, b * 10 ^ (n - k)) in
  let s := p / q in
  let reads t := bool_decide (num_of_decimal false t (n - k) = x) in
  if reads s && (negb (reads (s + 1)) || (2 * (p mod q) <=? q)) then Some s
  else if reads (s + 1) then Some (s + 1)
  else None.

Fixpoint shortest_from (fuel : nat) (x : number) (a b n k : Z) : option (Z * Z) :=
  match fuel with
  | O => None
  | S fuel' =>
      match shortest_at x a b n k with
      | Some s => Some (s, k)
      | None => shortest_from fuel' x a b n (k + 1)
      end
  end.

Fixpoint zeros (n : nat) : string :=
  match n with O => EmptyString | S n' => String "0" (zeros n') end.

Definition digits_of (s : Z) : string := pretty (Z.to_N s).

Definition format_decimal (digits : string) (n : Z) : string :=
  let k := Z.of_nat (String.length digits) in
  let tail from := slice digits from (String.length digits) in
  if (k <=? n) && (n <=? 21) then digits +:+ zeros (Z.to_nat (n - k))
  else if (0 <? n) && (n <=? 21) then
    slice digits 0 (Z.to_nat n) +:+ "." +:+ tail (Z.to_nat n)
  else if (-6 <? n) && (n <=? 0) then "0." +:+ zeros (Z.to_nat (- n)) +:+ digits
  else
    let e := n - 1 in
    let exponent := (if 0 <=? e then "e+" else "e-") +:+ digits_of (Z.abs e) in
    if k =? 1 then digits +:+ exponent
    else slice digits 0 1 +:+ "." +:+ tail 1%nat +:+ exponent.

Definition finite_to_string (x : number) (m e : Z) : string :=
  let '(a, b) := if 0 <=? e then (m * 2 ^ e, 1) else (m, 2 ^ (- e)) in
  let estimate := (Z.log2 a - Z.log2 b) * 30103 / 100000 in
  let n := find_exponent 10 estimate a b in
  match shortest_from 17 x a b n 1 with
  | Some (s, k) =>
      if s =? 10 ^ k then format_decimal "1" (n + 1) else format_decimal (digits_of s) n
  | None => EmptyString
  end.

(** [String(x)], [`${x}`], and the text [JSON.stringify] gives a finite number. *)
Definition num_to_string (x : number) : string :=
  match x with
  | S754_nan => "NaN"
  | S754_zero _ => "0"
  | S754_infinity s => if s then "-Infinity" else "Infinity"
  | S754_finite s m e =>
      (if s then "-" else EmptyString) +:+ finite_to_string (S754_finite false m e) (Z.pos m) e
  end.

Example num_to_string_tests :
  map num_to_string [num 0; num 65535; num (-12); Number "0.1"; Number "1e21"; Number "123e18";
                     Number "1.5e-7"; Number "0.00001"; Number "5e-324"; Number "9007199254740993"]
  = ["0"; "65535"; "-12"; "0.1"; "1e+21"; "123000000000000000000"; "1.5e-7"; "0.00001"; "5e-324";
     "9007199254740992"].
Proof. vm_compute. reflexivity. Qed.
Example num_to_string_ulp : num_to_string (S754_finite false 5404319552844596 (-54)) = "0.30000000000000004".
Proof. vm_compute. reflexivity. Qed.
