(* ===== verification/JsValue.v ===== *)
(** * JsValue: the values of JavaScript that cross the repository's interfaces

    Plans, artifacts, TOML tables and options are dynamic values: the sandbox
    strips types before a plan runs, so the runtime checks face arbitrary ones.
    Objects list their own enumerable properties in property order (array indices
    first, ascending, then the other names in order of creation); reading a name
    an object does not own falls through to [Object.prototype], and assigning
    [__proto__] creates no property.

    Two classes of the plan API appear as values of their own: a [CandidateSet]
    (its context and node id) and a [PlanCtx] (its identity; its fields hold no
    undefined value, so nothing the model asks of it depends on them).  A function
    is known by what it returns when called without arguments; its source text and
    its own properties are not modelled. *)

From S2P Require Import Prelude Collections JsNumber.

Inductive value :=
| VUndefined
| VNull
| VBool (b : bool)
| VNumber (n : number)
| VString (s : string)
| VSymbol
| VFunction (returns : value)
| VArray (l : list value)
| VObject (o : list (string * value))
| VPlanCtx (id : nat)
| VCandidateSet (ctx : nat) (nodeId : string).

Abbreviation object := (list (string * value)).

(** Induction through the nested lists. *)
Section value_ind.
Context (P : value → Prop).
Context (Hundef : P VUndefined) (Hnull : P VNull) (Hbool : ∀ b, P (VBool b))
  (Hnum : ∀ n, P (VNumber n)) (Hstr : ∀ s, P (VString s)) (Hsym : P VSymbol)
  (Hfun : ∀ r, P r → P (VFunction r))
  (Harr : ∀ l, Forall P l → P (VArray l))
  (Hobj : ∀ o, Forall (λ kv, P kv.2) o → P (VObject o))
  (Hctx : ∀ i, P (VPlanCtx i)) (Hcs : ∀ c n, P (VCandidateSet c n)).

Fixpoint value_ind_nested (v : value) : P v :=
  match v with
  | VUndefined => Hundef
  | VNull => Hnull
  | VBool b => Hbool b
  | VNumber n => Hnum n
  | VString s => Hstr s
  | VSymbol => Hsym
  | VFunction r => Hfun r (value_ind_nested r)
  | VArray l =>
      Harr l ((fix go l : Forall P l :=
        match l with
        | [] => Forall_nil_2 P
        | v :: l' => Forall_cons_2 P v l' (value_ind_nested v) (go l')
        end) l)
  | VObject o =>
      Hobj o ((fix go o : Forall (λ kv, P kv.2) o :=
        match o with
        | [] => Forall_nil_2 _
        | kv :: o' => Forall_cons_2 _ kv o' (value_ind_nested kv.2) (go o')
        end) o)
  | VPlanCtx i => Hctx i
  | VCandidateSet c n => Hcs c n
  end.
End value_ind.

Definition typeof (v : value) : string :=
  match v with
  | VUndefined => "undefined"
  | VNull | VArray _ | VObject _ | VPlanCtx _ | VCandidateSet _ _ => "object"
  | VBool _ => "boolean"
  | VNumber _ => "number"
  | VString _ => "string"
  | VSymbol => "symbol"
  | VFunction _ => "function"
  end.

Definition is_undefined (v : value) : bool := match v with VUndefined => true | _ => false end.
Definition is_null (v : value) : bool := match v with VNull => true | _ => false end.
Definition isArray (v : value) : bool := match v with VArray _ => true | _ => false end.
(** [typeof v === "object" && v !== null] *)
Definition is_object (v : value) : bool := String.eqb (typeof v) "object" && negb (is_null v).
(** ... and not an array *)
Definition is_plain (v : value) : bool := is_object v && negb (isArray v).

(** [if (v)] *)
Definition truthy (v : value) : bool :=
  match v with
  | VUndefined | VNull => false
  | VBool b => b
  | VNumber n => negb (is_zero n || isNaN n)
  | VString s => negb (String.eqb s EmptyString)
  | _ => true
  end.

(** [v ?? w] *)
Definition nullish (v w : value) : value :=
  match v with VUndefined | VNull => w | _ => v end.

(** ** Properties *)

(** The names every object inherits. *)
Definition object_prototype : list string :=
  ["constructor"; "__defineGetter__"; "__defineSetter__"; "hasOwnProperty";
   "__lookupGetter__"; "__lookupSetter__"; "isPrototypeOf"; "propertyIsEnumerable";
   "toString"; "valueOf"; "__proto__"; "toLocaleString"].

(** What an object answers for a name it does not own: a function of
    [Object.prototype], or that object itself for [__proto__]. *)
Definition inherited (k : string) : value :=
  if String.eqb k "__proto__" then VObject []
  else if string_elem object_prototype k then VFunction VUndefined
  else VUndefined.

Definition index_key (i : nat) : string := pretty i.

Definition string_chars (s : string) : list string :=
  (λ c, String c EmptyString) <$> list_ascii_of_string s.

(** [Object.entries(v)]; [Object.keys(v)] are its names. *)
Definition entries (v : value) : result object :=
  match v with
  | VUndefined | VNull => Throw TypeError
  | VArray l => Ok (imap (λ i x, (index_key i, x)) l)
  | VString s => Ok (imap (λ i c, (index_key i, VString c)) (string_chars s))
  | VObject o => Ok o
  | VCandidateSet c n => Ok [("ctx", VPlanCtx c); ("nodeId", VString n)]
  | _ => Ok []
  end.
Definition keys (v : value) : result (list string) := map fst <$> entries v.

Definition own_get (o : object) (k : string) : value :=
  match map_get o k with Some v => v | None => inherited k end.

(** [v[k]], [v.k] *)
Definition get_prop (v : value) (k : string) : result value :=
  match v with
  | VUndefined | VNull => Throw TypeError
  | VObject o => Ok (own_get o k)
  | VArray l =>
      if String.eqb k "length" then Ok (VNumber (num (Z.of_nat (length l))))
      else Ok (own_get (imap (λ i x, (index_key i, x)) l) k)
  | VString s =>
      if String.eqb k "length" then Ok (VNumber (num (Z.of_nat (String.length s))))
      else Ok (own_get (imap (λ i c, (index_key i, VString c)) (string_chars s)) k)
  | VCandidateSet c n =>
      if String.eqb k "ctx" then Ok (VPlanCtx c)
      else if String.eqb k "nodeId" then Ok (VString n)
      else if String.eqb k "getNodeId" then Ok (VFunction (VString n))
      else Ok (inherited k)
  | _ => Ok (inherited k)
  end.

(** [k in v], for an object [v] *)
Definition has_prop (o : object) (k : string) : bool :=
  map_has o k || string_elem object_prototype k.

(** A canonical array index: a decimal below 2^32 - 1 without leading zeros. *)
Definition array_index (k : string) : option Z :=
  match k with
  | EmptyString => None
  | String c r =>
      match read_digits k 0 0 with
      | (v, _, EmptyString) =>
          if (Ascii.eqb c "0" && negb (String.eqb r EmptyString)) || (4294967295 <=? v)%Z
          then None else Some v
      | _ => None
      end
  end.

Fixpoint insert_index (i : Z) (k : string) (v : value) (o : object) : object :=
  match o with
  | [] => [(k, v)]
  | (k', v') :: o' =>
      match array_index k' with
      | Some j => if (j <? i)%Z then (k', v') :: insert_index i k v o' else (k, v) :: o
      | None => (k, v) :: o
      end
  end.

(** Defining an own property: object literals, spreads, [Object.fromEntries],
    [JSON.parse]. *)
Definition obj_define (o : object) (k : string) (v : value) : object :=
  if map_has o k then map_set o k v
  else match array_index k with
       | Some i => insert_index i k v o
       | None => o ++ [(k, v)]
       end.

(** [o[k] = v]: the setter of [__proto__] creates no property. *)
Definition obj_assign (o : object) (k : string) (v : value) : object :=
  if negb (map_has o k) && String.eqb k "__proto__" then o else obj_define o k v.

Definition from_entries (l : object) : object :=
  foldl (λ o kv, obj_define o kv.1 kv.2) [] l.

(** [{...o, ...l}] *)
Definition obj_spread (o l : object) : object :=
  foldl (λ o kv, obj_define o kv.1 kv.2) o l.

(** [const { k, ...rest } = o] *)
Definition obj_without (o : object) (k : string) : object :=
  filter (λ kv, kv.1 ≠ k) o.

(** [`${v}`]; a symbol throws, and so does an object with a property [toString] that is
    data, not a function. *)
Fixpoint template (v : value) : result string :=
  match v with
  | VUndefined => Ok "undefined"
  | VNull => Ok "null"
  | VBool b => Ok (if b then "true" else "false")
  | VNumber n => Ok (num_to_string n)
  | VString s => Ok s
  | VSymbol => Throw TypeError
  | VFunction _ => Ok "function"
  | VArray l =>
      join "," <$> (fix go l : result (list string) :=
        match l with
        | [] => Ok []
        | x :: l' =>
            t ← match x with VUndefined | VNull => Ok EmptyString | _ => template x end;
            ts ← go l'; Ok (t :: ts)
        end) l
  | VObject o => if map_has o "toString" then Throw TypeError else Ok "[object Object]"
  | _ => Ok "[object Object]"
  end.

(** [Number(v)] *)
Definition ToNumber (v : value) : result number :=
  match v with
  | VUndefined => Ok NaN
  | VNull => Ok (num 0)
  | VBool b => Ok (num (if b then 1 else 0))
  | VNumber n => Ok n
  | VString s => Ok (Number s)
  | _ => Number <$> template v
  end.

(** The values [for (const x of v)] and [new Set(v)] go through. *)
Definition iterate (v : value) : result (list value) :=
  match v with
  | VArray l => Ok l
  | VString s => Ok (map VString (string_chars s))
  | _ => Throw TypeError
  end.

(** ** Facts *)

Lemma map_has_elem_of {V} (m : list (string * V)) k : map_has m k = true ↔ k ∈ m.*1.
Proof.
  unfold map_has. rewrite bool_decide_eq_true. destruct (map_get m k) as [v|] eqn:E.
  - split; [|eauto]. intros _. apply list_elem_of_fmap. exists (k, v).
    split; [done|]. by apply map_get_Some_elem_of.
  - apply map_get_None in E. split; [by intros []|by intros ?%E].
Qed.

Lemma map_has_false {V} (m : list (string * V)) k : map_has m k = false ↔ k ∉ m.*1.
Proof. rewrite <-map_has_elem_of. by destruct (map_has m k). Qed.

Lemma insert_index_Permutation i k v o : insert_index i k v o ≡ₚ (k, v) :: o.
Proof.
  induction o as [|[k' v'] o IH]; cbn; [done|].
  destruct (array_index k'); [|done]. case_match; [|done]. rewrite IH. apply Permutation_swap.
Qed.

Lemma obj_define_fresh o k v : k ∉ o.*1 → obj_define o k v ≡ₚ (k, v) :: o.
Proof.
  intros Hk. unfold obj_define. apply map_has_false in Hk as ->.
  destruct (array_index k); [apply insert_index_Permutation|].
  symmetry. apply Permutation_cons_append.
Qed.

Lemma obj_define_name o k v : k ∉ o.*1 → array_index k = None → obj_define o k v = o ++ [(k, v)].
Proof. intros Hk Hi. unfold obj_define. by apply map_has_false in Hk as ->; rewrite Hi. Qed.

(** Names that are not array indices keep their order. *)
Lemma from_entries_names l :
  NoDup l.*1 → Forall (λ kv, array_index kv.1 = None) l → from_entries l = l.
Proof.
  unfold from_entries. intros Hnd Hn.
  enough (∀ acc, NoDup (acc ++ l).*1 →
    foldl (λ o kv, obj_define o kv.1 kv.2) acc l = acc ++ l) as H by by apply (H []).
  clear Hnd. induction l as [|[k v] l IH]; intros acc Hacc; cbn; [by rewrite app_nil_r|].
  inversion_clear Hn as [|? ? Hk Hl].
  assert (k ∉ acc.*1) as Hka.
  { rewrite fmap_app in Hacc. apply NoDup_app in Hacc as (_ & H & _).
    intros Hin. apply (H k Hin). cbn. left. }
  rewrite obj_define_name by done. rewrite IH; [|done|].
  - by rewrite <-app_assoc.
  - by rewrite <-app_assoc.
Qed.

(** In any case the properties are the entries, up to order. *)
Lemma map_fst_map {A B} (f : A → B) (l : list (string * A)) : (map (λ c, (c.1, f c.2)) l).*1 = l.*1.
Proof. induction l; cbn; congruence. Qed.

Lemma from_entries_perm l : NoDup l.*1 → from_entries l ≡ₚ l.
Proof.
  unfold from_entries. intros Hnd.
  enough (∀ acc, NoDup (acc ++ l).*1 →
    foldl (λ o kv, obj_define o kv.1 kv.2) acc l ≡ₚ acc ++ l) as H by by apply (H []).
  clear Hnd. induction l as [|[k v] l IH]; intros acc Hacc; cbn; [by rewrite app_nil_r|].
  assert (k ∉ acc.*1) as Hka.
  { rewrite fmap_app in Hacc. apply NoDup_app in Hacc as (_ & H & _).
    intros Hin. apply (H k Hin). cbn. left. }
  assert (obj_define acc k v ++ l ≡ₚ acc ++ (k, v) :: l) as Hp.
  { rewrite obj_define_fresh by done. by rewrite <-Permutation_middle. }
  rewrite IH; [done|]. by rewrite Hp.
Qed.

Lemma map_get_perm {V} (m1 m2 : list (string * V)) k :
  NoDup m1.*1 → m1 ≡ₚ m2 → map_get m1 k = map_get m2 k.
Proof.
  intros Hnd Hp. assert (NoDup m2.*1) by by rewrite <-Hp.
  destruct (map_get m1 k) as [v|] eqn:E.
  - symmetry. apply elem_of_map_get; [done|]. rewrite <-Hp. by apply map_get_Some_elem_of.
  - symmetry. apply map_get_None. rewrite <-Hp. by apply map_get_None.
Qed.

Lemma map_get_snoc {V} (m : list (string * V)) k v j :
  k ∉ m.*1 → map_get (m ++ [(k, v)]) j = if String.eqb j k then Some v else map_get m j.
Proof.
  intros Hk. rewrite <-map_set_fresh by done. destruct (String.eqb_spec j k) as [->|].
  - apply map_get_set_eq.
  - by apply map_get_set_ne.
Qed.

(** Looking a defined name up. *)
Lemma map_get_define (o : object) k v j :
  array_index k = None →
  map_get (obj_define o k v) j = if String.eqb j k then Some v else map_get o j.
Proof.
  intros Hk. unfold obj_define. destruct (map_has o k) eqn:Hh.
  - destruct (String.eqb_spec j k) as [->|]; [apply map_get_set_eq|by apply map_get_set_ne].
  - rewrite Hk. apply map_get_snoc. by apply map_has_false.
Qed.
