(* ===== verification/Guards.v ===== *)
(** * Guards: the runtime's input checks (dsl/packages/runtime/src/guards.ts)

    [checkNoUndefined] accepts exactly the objects from which no undefined value is
    reachable through properties of (non-array) objects; the capability checks
    accept exactly sorted, duplicate-free capability lists and extensions whose
    names the plan requires. *)

From S2P Require Import Prelude Collections JsNumber JsValue.

Definition assertNotUndefined (v : value) (path : string) : result unit :=
  throw_if (is_undefined v) ("Undefined is not allowed in DSL inputs: " +:+ path).

Definition assertObject (v : value) (path : string) : result unit :=
  throw_if (negb (is_plain v)) ("Expected object at " +:+ path +:+ ", got " +:+ typeof v).

(** [checkNoUndefined(obj, path)], with [Object.entries] of each kind of value. *)
Fixpoint checkNoUndefined (obj : value) (path : string) : result unit :=
  match obj with
  | VUndefined | VNull => Throw TypeError
  | VObject o =>
      (fix go (o : object) : result unit :=
        match o with
        | [] => Ok tt
        | (key, v) :: o' =>
            assertNotUndefined v (path +:+ "." +:+ key) ;;
            (if is_plain v then checkNoUndefined v (path +:+ "." +:+ key) else Ok tt) ;;
            go o'
        end) o
  | VArray l =>
      (fix go (i : nat) (l : list value) : result unit :=
        match l with
        | [] => Ok tt
        | v :: l' =>
            assertNotUndefined v (path +:+ "." +:+ index_key i) ;;
            (if is_plain v then checkNoUndefined v (path +:+ "." +:+ index_key i) else Ok tt) ;;
            go (S i) l'
        end) 0 l
  | _ => Ok tt
  end.

Definition number_or_type (v : value) : string :=
  match v with VNumber n => num_to_string n | _ => typeof v end.

Definition is_integer_value (v : value) : bool :=
  match v with VNumber n => isInteger n | _ => false end.

Definition assertInteger (v : value) (path : string) : result unit :=
  throw_if (negb (is_integer_value v))
    (path +:+ " must be an integer, got " +:+ number_or_type v).

Definition is_string (v : value) : bool := match v with VString _ => true | _ => false end.

Definition assertStringOrNull (v : value) (path : string) : result unit :=
  throw_if (negb (is_null v) && negb (is_string v))
    (path +:+ " must be a string or null, got " +:+ typeof v).

Definition assertEndpointId (v : value) (path : string) : result unit :=
  match v with
  | VString s =>
      throw_if (negb (startsWith s "ep_"))
        (path +:+ " must start with " +:+ quoted "ep_" +:+ ", got " +:+ quoted s) ;;
      throw_if (64 <? String.length s)
        (path +:+ " too long (max 64 chars), got " +:+ pretty (String.length s))
  | _ => Throw (Error (path +:+ " must be a string (EndpointId), got " +:+ typeof v))
  end.

(** ** Capabilities and extensions (RFC0001) *)

Definition normalizeCapabilitiesRequired (ids : list string) : list string :=
  sort_strings (string_set_of ids).

(** [arr[i] <= arr[i - 1]] at no [i] *)
Fixpoint isSortedUnique (arr : list string) : bool :=
  match arr with
  | x :: ((y :: _) as arr') => if cmp_le string_cmp y x then false else isSortedUnique arr'
  | _ => true
  end.

(** The strings of an array, as [value as string[]] reads them. *)
Definition strings_of (l : list value) : list string :=
  omap (λ v, match v with VString s => Some s | _ => None end) l.

(** [v ?? []] for a list of capabilities already checked *)
Definition capability_list (v : value) : list string :=
  match v with VArray l => strings_of l | _ => [] end.

Definition validateCapabilitiesAndExtensions
    (capabilitiesRequired extensions : value) (where_ : string) : result unit :=
  (if is_undefined capabilitiesRequired then Ok tt
   else match capabilitiesRequired with
        | VArray l =>
            for_each_i (λ i v, throw_if (negb (is_string v))
              (where_ +:+ ": capabilities_required[" +:+ pretty i +:+ "] must be a string")) l ;;
            throw_if (negb (isSortedUnique (strings_of l)))
              (where_ +:+ ": capabilities_required must be sorted and unique")
        | _ => Throw (Error (where_ +:+ ": capabilities_required must be an array"))
        end) ;;
  if is_undefined extensions then Ok tt
  else
    throw_if (negb (is_plain extensions))
      (where_ +:+ ": extensions must be a plain object (not null or array)") ;;
    let caps := capability_list capabilitiesRequired in
    ks ← keys extensions;
    for_each (λ key, throw_if (negb (string_set_has (string_set_of caps) key))
      (where_ +:+ ": extensions key " +:+ quoted key +:+ " must appear in capabilities_required")) ks.

Definition validateNodeExtensions
    (nodeExtensions : value) (planCapabilities : list string) (nodeId : string) : result unit :=
  if is_undefined nodeExtensions then Ok tt
  else
    throw_if (negb (is_plain nodeExtensions))
      ("node[" +:+ nodeId +:+ "]: extensions must be a plain object (not null or array)") ;;
    ks ← keys nodeExtensions;
    for_each (λ key, throw_if (negb (string_set_has (string_set_of planCapabilities) key))
      ("node[" +:+ nodeId +:+ "]: extension key " +:+ quoted key +:+
       " requires plan capability " +:+ quoted key)) ks.

(** ** [checkNoUndefined] finds every undefined value *)

(** [v] is the value of a property of [obj], or of a plain object below it. *)
Inductive reaches : value → value → Prop :=
| reaches_here obj e k v :
    entries obj = Ok e → (k, v) ∈ e → reaches obj v
| reaches_below obj e k w v :
    entries obj = Ok e → (k, w) ∈ e → is_plain w = true → reaches w v → reaches obj v.

Lemma assertNotUndefined_Ok v path u : assertNotUndefined v path = Ok u ↔ v ≠ VUndefined.
Proof. unfold assertNotUndefined. rewrite throw_if_Ok. destruct v; cbn; naive_solver. Qed.

Lemma is_plain_entries v : is_plain v = true → ∃ e, entries v = Ok e.
Proof. destruct v; try done; cbn; eauto. Qed.

(** What the loop body of [checkNoUndefined] accepts. *)
Definition accepts (v : value) : Prop :=
  v ≠ VUndefined ∧ (is_plain v = true → ∀ path, checkNoUndefined v path = Ok tt).

Lemma checkNoUndefined_step v k path (r : result unit) :
  (is_plain v = true → ∀ p q, checkNoUndefined v p = Ok tt → checkNoUndefined v q = Ok tt) →
  (assertNotUndefined v (path +:+ "." +:+ k) ;;
   (if is_plain v then checkNoUndefined v (path +:+ "." +:+ k) else Ok tt) ;; r) = Ok tt ↔
  accepts v ∧ r = Ok tt.
Proof.
  intros Hp. rewrite !bind_Ok_unit, assertNotUndefined_Ok. unfold accepts.
  destruct (is_plain v); naive_solver.
Qed.

Lemma checkNoUndefined_path v :
  (∀ path, checkNoUndefined v path = Ok tt ↔
     ∃ e, entries v = Ok e ∧ Forall (λ kv, accepts kv.2) e) →
  is_plain v = true → ∀ p q, checkNoUndefined v p = Ok tt → checkNoUndefined v q = Ok tt.
Proof. intros H _ p q Hc. apply H. by apply H in Hc. Qed.

Lemma checkNoUndefined_entries obj :
  (∀ path, checkNoUndefined obj path = Ok tt ↔
     ∃ e, entries obj = Ok e ∧ Forall (λ kv, accepts kv.2) e).
Proof.
  induction obj as [| | | |s| | |l IH|o IH| |c n] using value_ind_nested; intros path; cbn.
  all: try by (split; [intros _; eexists; split; [done|]; repeat constructor | done]).
  - split; [done|naive_solver].
  - split; [done|naive_solver].
  - split; [|done]. intros _. eexists; split; [done|].
    apply Forall_forall. intros kv (i & c & -> & _)%elem_of_lookup_imap. done.
  - assert (∀ i, ((fix go (i : nat) (l : list value) : result unit :=
        match l with
        | [] => Ok tt
        | v :: l' =>
            assertNotUndefined v (path +:+ "." +:+ index_key i) ;;
            (if is_plain v then checkNoUndefined v (path +:+ "." +:+ index_key i) else Ok tt) ;;
            go (S i) l'
        end) i l) = Ok tt ↔ Forall accepts l) as H.
    { induction IH as [|v l Hv _ IHl]; intros i; [split; auto|].
      rewrite checkNoUndefined_step by (by apply checkNoUndefined_path). by rewrite IHl, Forall_cons. }
    rewrite H. clear. split.
    + intros Hl. eexists; split; [done|]. apply Forall_forall.
      intros kv (i & v & -> & Hv)%elem_of_lookup_imap. cbn.
      rewrite Forall_forall in Hl. apply Hl. by eapply list_elem_of_lookup_2.
    + intros (e & [= <-] & He). rewrite Forall_forall in He. apply Forall_forall. intros v [i Hv]%list_elem_of_lookup.
      apply (He (index_key i, v)). apply elem_of_lookup_imap. eauto.
  - transitivity (Forall (λ kv, accepts kv.2) o); [|naive_solver].
    change (((fix go (o : object) : result unit :=
        match o with
        | [] => Ok tt
        | (key, v) :: o' =>
            assertNotUndefined v (path +:+ "." +:+ key) ;;
            (if is_plain v then checkNoUndefined v (path +:+ "." +:+ key) else Ok tt) ;;
            go o'
        end) o) = Ok tt ↔ Forall (λ kv, accepts kv.2) o).
    induction IH as [|[k v] o Hv _ IHo]; [split; auto|].
    rewrite checkNoUndefined_step by (by apply checkNoUndefined_path). by rewrite IHo, Forall_cons.
Qed.

(** [checkNoUndefined(obj, path)] passes exactly when no undefined value is
    reachable from [obj] through the properties of non-array objects, whatever the
    nesting. *)
Theorem checkNoUndefined_correct obj path e :
  entries obj = Ok e →
  checkNoUndefined obj path = Ok tt ↔ ¬ reaches obj VUndefined.
Proof.
  intros He. split.
  - intros Hc Hr. remember VUndefined as u. revert path e He Hc.
    induction Hr as [obj e0 k v He0 Hin|obj e0 k w v He0 Hin Hp _ IH]; intros path e He Hc;
      subst; apply checkNoUndefined_entries in Hc as (e' & He' & Hall);
      assert (e0 = e') by congruence; subst;
      rewrite Forall_forall in Hall; destruct (Hall _ Hin) as [Hu Hc]; cbn in *; [done|].
    specialize (Hc Hp path) as Hw.
    pose proof Hw as (e'' & He'' & _)%checkNoUndefined_entries. eauto.
  - revert path e He.
    induction obj as [| | | |s| | |l IH|o IH| |c n] using value_ind_nested;
      intros path e He Hr; try done; apply checkNoUndefined_entries;
      (exists e; split; [done|]); apply Forall_forall; intros [k v] Hin; cbn in *;
      (split; [intros ->; apply Hr; by eapply reaches_here|]); intros Hp p.
    all: try (injection He as <-; by apply not_elem_of_nil in Hin).
    + injection He as <-.
      pose proof Hin as (i & x & [= -> ->] & Hx)%elem_of_lookup_imap.
      apply list_elem_of_lookup_2 in Hx. rewrite Forall_forall in IH.
      destruct (is_plain_entries x Hp) as [e He]. apply (IH x Hx p e He).
      intros Hr'. apply Hr. by eapply reaches_below.
    + injection He as <-. rewrite Forall_forall in IH.
      destruct (is_plain_entries v Hp) as [e He]. apply (IH _ Hin p e He).
      intros Hr'. apply Hr. by eapply reaches_below.
Qed.

Lemma checkNoUndefined_correct_witness :
  let o := VObject [("fanout", VNumber (num 5));
                    ("meta", VObject [("tags", VArray [VUndefined]); ("x", VNull)])] in
  entries o = Ok [("fanout", VNumber (num 5));
                  ("meta", VObject [("tags", VArray [VUndefined]); ("x", VNull)])] ∧
  ¬ reaches o VUndefined.
Proof.
  intros o. split; [reflexivity|].
  refine (proj1 (checkNoUndefined_correct o "opts" _ eq_refl) _). vm_compute. reflexivity.
Defined.

(** ** Sorted, duplicate-free lists *)

Definition string_lt (s t : string) : Prop := string_cmp s t = Lt.

#[export] Instance string_lt_trans : Transitive string_lt.
Proof. intros s t u. apply string_cmp_lt_trans. Qed.

Lemma string_lt_irrefl s : ¬ string_lt s s.
Proof. unfold string_lt. by rewrite (proj2 (string_cmp_eq s s) eq_refl). Qed.

Lemma cmp_le_false_lt s t : cmp_le string_cmp t s = false ↔ string_lt s t.
Proof.
  unfold cmp_le, string_lt. rewrite (string_cmp_antisym t s).
  by destruct (string_cmp t s).
Qed.

Lemma isSortedUnique_sorted arr : isSortedUnique arr = true ↔ Sorted string_lt arr.
Proof.
  induction arr as [|x [|y arr] IH]; cbn; [split; auto|split; auto|].
  destruct (cmp_le string_cmp y x) eqn:E.
  - split; [done|]. inversion_clear 1 as [|? ? _ Hd]. inversion_clear Hd as [|? ? Hlt].
    apply cmp_le_false_lt in Hlt. congruence.
  - cbn in IH. rewrite IH. apply cmp_le_false_lt in E. split.
    + intros Hs. constructor; [done|]. by constructor.
    + by inversion 1.
Qed.

(** [isSortedUnique] decides being strictly increasing in code-unit order. *)
Lemma isSortedUnique_strongly arr :
  isSortedUnique arr = true ↔ StronglySorted string_lt arr.
Proof.
  rewrite isSortedUnique_sorted. split; [apply Sorted_StronglySorted, _|].
  apply StronglySorted_Sorted.
Qed.

Lemma sorted_distinct_increasing l :
  NoDup l → StronglySorted (cmp_le string_cmp) l → StronglySorted string_lt l.
Proof.
  intros Hnd. induction 1 as [|x l Hs IH Hx]; [constructor|].
  apply NoDup_cons in Hnd as [Hxl Hnd]. constructor; [auto|].
  rewrite Forall_forall in *. intros y Hy. unfold string_lt.
  specialize (Hx y Hy). unfold cmp_le in Hx.
  destruct (string_cmp x y) eqn:E; [|done|done].
  apply string_cmp_eq in E as ->. done.
Qed.

Lemma sort_strings_NoDup l : NoDup l → StronglySorted string_lt (sort_strings l).
Proof.
  intros Hl. apply sorted_distinct_increasing; [by apply js_sort_NoDup|].
  apply sort_strings_sorted.
Qed.

Lemma increasing_NoDup l : StronglySorted string_lt l → NoDup l.
Proof.
  induction 1 as [|x l Hs IH Hx]; constructor; [|done].
  intros Hin. rewrite Forall_forall in Hx. by apply (string_lt_irrefl x), Hx.
Qed.

(** [normalizeCapabilitiesRequired] keeps the identifiers, and its result is what
    [isSortedUnique] accepts; a list that is accepted is its own normal form. *)
Theorem normalizeCapabilitiesRequired_correct ids :
  isSortedUnique (normalizeCapabilitiesRequired ids) = true ∧
  (∀ x, x ∈ normalizeCapabilitiesRequired ids ↔ x ∈ ids) ∧
  (isSortedUnique ids = true ↔ normalizeCapabilitiesRequired ids = ids).
Proof.
  assert (isSortedUnique (normalizeCapabilitiesRequired ids) = true) as Hs.
  { apply isSortedUnique_strongly, sort_strings_NoDup, set_of_NoDup, String.eqb_eq. }
  split; [done|]. split.
  - intros x. unfold normalizeCapabilitiesRequired, sort_strings.
    rewrite js_sort_elem_of. apply set_of_elem_of, String.eqb_eq.
  - split; [|by intros <-]. intros Hi%isSortedUnique_strongly.
    unfold normalizeCapabilitiesRequired, string_set_of.
    rewrite set_of_id by (apply String.eqb_eq || by apply increasing_NoDup).
    apply js_sort_id. clear Hs. induction Hi as [|x l Hi IH Hx]; constructor; [done|].
    rewrite Forall_forall in *. intros y Hy. unfold cmp_le. by rewrite (Hx y Hy).
Qed.

(** ** Capabilities and extensions *)

Lemma strings_of_strings l : strings_of (VString <$> l) = l.
Proof. unfold strings_of. induction l as [|s l IH]; cbn; [done|]. f_equal. apply IH. Qed.

Lemma all_strings l :
  (∀ i v, l !! i = Some v → is_string v = true) → l = VString <$> strings_of l.
Proof.
  induction l as [|v l IH]; intros H; [done|].
  pose proof (H 0 v eq_refl) as Hv. destruct v; try done. cbn. f_equal.
  apply IH. intros i w Hi. by apply (H (S i)).
Qed.

(** The capability lists a plan may carry: absent, or strings in increasing order. *)
Definition capabilities_ok (caps : value) : Prop :=
  caps = VUndefined ∨ ∃ l, caps = VArray (VString <$> l) ∧ StronglySorted string_lt l.

(** The extensions that [caps] allows: absent, or an object naming only these. *)
Definition extensions_ok (caps : list string) (exts : value) : Prop :=
  exts = VUndefined ∨
  is_plain exts = true ∧ ∀ e k v, entries exts = Ok e → (k, v) ∈ e → k ∈ caps.

Lemma extension_keys_ok exts caps (msg : string → string) :
  is_plain exts = true →
  (ks ← keys exts;
   for_each (λ key, throw_if (negb (string_set_has (string_set_of caps) key)) (msg key)) ks) = Ok tt
  ↔ ∀ e k v, entries exts = Ok e → (k, v) ∈ e → k ∈ caps.
Proof.
  intros (e & He)%is_plain_entries. unfold keys. rewrite He. cbn.
  rewrite for_each_Ok, Forall_forall. unfold string_set_of.
  assert (∀ k, throw_if (negb (string_set_has (set_of String.eqb caps) k)) (msg k) = Ok tt
    ↔ k ∈ caps) as H.
  { intros k. rewrite throw_if_Ok, negb_false_iff, string_set_has_elem_of.
    apply set_of_elem_of, String.eqb_eq. }
  split.
  - intros Hk e' k v [= <-] Hin. apply H, Hk. apply list_elem_of_fmap. by exists (k, v).
  - intros Hk k ([k' v] & -> & Hin)%list_elem_of_fmap. apply H. eauto.
Qed.

Lemma validateCapabilitiesAndExtensions_Ok caps exts where_ :
  validateCapabilitiesAndExtensions caps exts where_ = Ok tt ↔
  capabilities_ok caps ∧ extensions_ok (capability_list caps) exts.
Proof.
  unfold validateCapabilitiesAndExtensions. rewrite bind_Ok_unit.
  assert ((if is_undefined exts then Ok tt else
    throw_if (negb (is_plain exts))
      (where_ +:+ ": extensions must be a plain object (not null or array)") ;;
    ks ← keys exts;
    for_each (λ key, throw_if (negb (string_set_has (string_set_of (capability_list caps)) key))
      (where_ +:+ ": extensions key " +:+ quoted key +:+ " must appear in capabilities_required"))
      ks) = Ok tt ↔ extensions_ok (capability_list caps) exts) as He.
  { unfold extensions_ok. destruct (is_undefined exts) eqn:Eu.
    - destruct exts; naive_solver.
    - assert (exts ≠ VUndefined) by by intros ->. rewrite bind_Ok_unit, throw_if_Ok.
      rewrite negb_false_iff. destruct (is_plain exts) eqn:Ep; [|naive_solver].
      rewrite extension_keys_ok by done. naive_solver. }
  rewrite <-He. apply and_iff_compat_r. clear He. unfold capabilities_ok.
  destruct caps as [| | | | | | |l| | |]; cbn; try naive_solver.
  rewrite bind_Ok_unit, for_each_i_Ok, throw_if_Ok, negb_false_iff, isSortedUnique_strongly.
  setoid_rewrite throw_if_Ok. setoid_rewrite negb_false_iff. split.
  - intros [Hl%all_strings Hs]. right. exists (strings_of l). by rewrite <-Hl.
  - intros [?|(l' & [= ->] & Hs)]; [done|]. rewrite strings_of_strings. split; [|done].
    intros i v Hv. apply list_lookup_fmap_Some in Hv as (s & -> & _). done.
Qed.

Lemma validateNodeExtensions_Ok exts caps id :
  validateNodeExtensions exts caps id = Ok tt ↔ extensions_ok caps exts.
Proof.
  unfold validateNodeExtensions, extensions_ok. destruct (is_undefined exts) eqn:Eu.
  - destruct exts; naive_solver.
  - assert (exts ≠ VUndefined) by by intros ->. rewrite bind_Ok_unit, throw_if_Ok.
    rewrite negb_false_iff. destruct (is_plain exts) eqn:Ep; [|naive_solver].
    rewrite extension_keys_ok by done. naive_solver.
Qed.

(** [validateCapabilitiesAndExtensions] passes exactly when
    [capabilities_required] is absent or an array of strings in strictly increasing
    order, and [extensions] is absent or a plain object every name of which is a
    required capability; [validateNodeExtensions] exactly when the node's extensions
    are absent or such an object. *)
Theorem validateCapabilitiesAndExtensions_correct :
  (∀ caps exts where_,
    validateCapabilitiesAndExtensions caps exts where_ = Ok tt ↔
    capabilities_ok caps ∧ extensions_ok (capability_list caps) exts) ∧
  (∀ exts caps id, validateNodeExtensions exts caps id = Ok tt ↔ extensions_ok caps exts).
Proof. auto using validateCapabilitiesAndExtensions_Ok, validateNodeExtensions_Ok. Qed.
