(* ===== verification/WritesEffect.v ===== *)
(** * WritesEffect: the write-effect language (dsl/packages/runtime/src/writes-effect.ts)

    [evalWrites] abstracts what keys a task writes under the parameters known at
    link time.  The file gives the concrete meaning of an effect expression under
    complete parameters, and shows that the evaluation is a sound abstraction of it,
    exact when the parameters are known, that its key lists are sorted sets, and
    that the serialized form determines the evaluation. *)

From S2P Require Import Prelude Collections JsNumber JsValue.

Inductive WritesEffectExpr :=
| EffectKeys (keyIds : list number)
| EffectFromParam (param : string)
| EffectSwitchEnum (param : string) (cases : list (string * WritesEffectExpr))
| EffectUnion (items : list WritesEffectExpr).

Inductive WritesEffect :=
| ExactEffect (keys : list number)
| MayEffect (keys : list number)
| UnknownEffect.

(** Values of [EffectGamma]: a key id or an enum constant. *)
Inductive gamma_value :=
| GNumber (n : number)
| GString (s : string).
Abbreviation EffectGamma := (gmap string gamma_value).

#[export] Instance gamma_value_eq_dec : EqDecision gamma_value.
Proof. solve_decision. Defined.

Section expr_ind.
Context (P : WritesEffectExpr → Prop).
Context (Hkeys : ∀ ks, P (EffectKeys ks)) (Hparam : ∀ p, P (EffectFromParam p))
  (Hswitch : ∀ p cs, Forall (λ c, P c.2) cs → P (EffectSwitchEnum p cs))
  (Hunion : ∀ l, Forall P l → P (EffectUnion l)).

Fixpoint expr_ind_nested (e : WritesEffectExpr) : P e :=
  match e with
  | EffectKeys ks => Hkeys ks
  | EffectFromParam p => Hparam p
  | EffectSwitchEnum p cs =>
      Hswitch p cs ((fix go cs : Forall (λ c, P c.2) cs :=
        match cs with
        | [] => Forall_nil_2 _
        | c :: cs' => Forall_cons_2 _ c cs' (expr_ind_nested c.2) (go cs')
        end) cs)
  | EffectUnion l =>
      Hunion l ((fix go l : Forall P l :=
        match l with
        | [] => Forall_nil_2 _
        | e :: l' => Forall_cons_2 P e l' (expr_ind_nested e) (go l')
        end) l)
  end.
End expr_ind.

(** ** Evaluation *)

Definition mergeKeys (a b : list number) : list number :=
  sort_numbers (num_set_of (a ++ b)).

Definition combineEffects (a b : WritesEffect) : WritesEffect :=
  match a, b with
  | UnknownEffect, _ | _, UnknownEffect => UnknownEffect
  | ExactEffect ka, ExactEffect kb => ExactEffect (mergeKeys ka kb)
  | ExactEffect ka, MayEffect kb | MayEffect ka, ExactEffect kb | MayEffect ka, MayEffect kb =>
      MayEffect (mergeKeys ka kb)
  end.

(** [effect.keys], absent from Unknown *)
Definition keys_of (w : WritesEffect) : option (list number) :=
  match w with ExactEffect ks | MayEffect ks => Some ks | UnknownEffect => None end.

(** What [evalWrites] gives back: an effect, [undefined] ([None], when the value it
    is given has no [kind] it knows), or an exception. *)
Abbreviation outcome := (result (option WritesEffect)).

(** The loop over the cases of an unresolved switch; it stops at the first unknown
    case, and reading [kind] of an undefined outcome throws. *)
Fixpoint switch_loop (allKeys : list number) (rs : list outcome) : outcome :=
  match rs with
  | [] => Ok (Some (MayEffect (sort_numbers allKeys)))
  | r :: rs' =>
      w ← r;
      match w with
      | None => Throw TypeError
      | Some w =>
          match keys_of w with
          | None => Ok (Some UnknownEffect)
          | Some ks => switch_loop (foldl num_set_add allKeys ks) rs'
          end
      end
  end.

(** The loop over the items of a union, with its exit on Unknown. *)
Fixpoint union_loop (acc : WritesEffect) (rs : list outcome) : outcome :=
  match rs with
  | [] => Ok (Some acc)
  | r :: rs' =>
      w ← r;
      match w with
      | None => Throw TypeError
      | Some w =>
          match combineEffects acc w with
          | UnknownEffect => Ok (Some UnknownEffect)
          | acc' => union_loop acc' rs'
          end
      end
  end.

(** [expr.cases[val]]: an own case, or what [Object.prototype] has under that name
    (a truthy value without a [kind]), or nothing. *)
Fixpoint evalWrites (e : WritesEffectExpr) (gamma : EffectGamma) : outcome :=
  match e with
  | EffectKeys keyIds => Ok (Some (ExactEffect (sort_numbers (num_set_of keyIds))))
  | EffectFromParam param =>
      match gamma !! param with
      | Some (GNumber val) => Ok (Some (ExactEffect [val]))
      | _ => Ok (Some UnknownEffect)
      end
  | EffectSwitchEnum param cases =>
      let rs := map (λ c, (c.1, evalWrites c.2 gamma)) cases in
      match gamma !! param with
      | Some (GString val) =>
          match map_get rs val with
          | Some r => r
          | None => if truthy (inherited val) then Ok None else Ok (Some UnknownEffect)
          end
      | _ =>
          match rs with
          | [] => Ok (Some (ExactEffect []))
          | _ => switch_loop [] (rs.*2)
          end
      end
  | EffectUnion items =>
      match items with
      | [] => Ok (Some (ExactEffect []))
      | _ => union_loop (ExactEffect []) (map (λ i, evalWrites i gamma) items)
      end
  end.

(** ** Serialization *)

Fixpoint serializeWritesEffect (e : WritesEffectExpr) : value :=
  match e with
  | EffectKeys keyIds =>
      VObject [("kind", VString "Keys");
               ("key_ids", VArray (VNumber <$> sort_numbers (num_set_of keyIds)))]
  | EffectFromParam param =>
      VObject [("kind", VString "FromParam"); ("param", VString param)]
  | EffectSwitchEnum param cases =>
      let ss := map (λ c, (c.1, serializeWritesEffect c.2)) cases in
      let put o k := match map_get ss k with Some v => obj_assign o k v | None => o end in
      VObject [("kind", VString "SwitchEnum"); ("param", VString param);
               ("cases", VObject (foldl put [] (sort_strings (ss.*1))))]
  | EffectUnion items =>
      VObject [("kind", VString "Union"); ("items", VArray (map serializeWritesEffect items))]
  end.

(** ** Builders *)

Definition effectKeys (keyIds : list number) : WritesEffectExpr := EffectKeys keyIds.
Definition effectFromParam (param : string) : WritesEffectExpr := EffectFromParam param.
Definition effectSwitchEnum (param : string) (cases : list (string * WritesEffectExpr))
  : WritesEffectExpr := EffectSwitchEnum param cases.
Definition effectUnion (items : list WritesEffectExpr) : WritesEffectExpr := EffectUnion items.

(** ** The concrete meaning *)

(** The keys a task writes when its parameters are [rho]: nothing is said when a
    parameter the expression consults is missing, of the wrong type, or an enum
    constant without a case. *)
Fixpoint writes (e : WritesEffectExpr) (rho : EffectGamma) : option (list number) :=
  match e with
  | EffectKeys keyIds => Some keyIds
  | EffectFromParam param =>
      match rho !! param with Some (GNumber val) => Some [val] | _ => None end
  | EffectSwitchEnum param cases =>
      match rho !! param with
      | Some (GString val) =>
          default None (map_get (map (λ c, (c.1, writes c.2 rho)) cases) val)
      | _ => None
      end
  | EffectUnion items =>
      foldr (λ r acc, ks ← r; ks' ← acc; Some (ks ++ ks')) (Some [])
        (map (λ i, writes i rho) items)
  end.

(** [w] describes the set of keys [ks]. *)
Definition describes (w : WritesEffect) (ks : list number) : Prop :=
  match w with
  | ExactEffect k => ∀ x, num_set_has k x = num_set_has ks x
  | MayEffect k => ∀ x, num_set_has ks x = true → num_set_has k x = true
  | UnknownEffect => True
  end.

(** ** Facts on the parts *)

Lemma mergeKeys_has a b x :
  num_set_has (mergeKeys a b) x = num_set_has a x || num_set_has b x.
Proof. unfold mergeKeys. by rewrite num_set_has_sort, num_set_has_of, num_set_has_app. Qed.

#[export] Hint Rewrite num_set_has_sort num_set_has_of num_set_has_app mergeKeys_has
  num_set_has_foldl : js.

Lemma combineEffects_describes a b ka kb :
  describes a ka → describes b kb → describes (combineEffects a b) (ka ++ kb).
Proof.
  destruct a, b; cbn; auto; intros Ha Hb x; autorewrite with js.
  - by rewrite Ha, Hb.
  - rewrite Ha. intros [|]%orb_true_iff; apply orb_true_iff; auto.
  - rewrite Hb. intros [|]%orb_true_iff; apply orb_true_iff; auto.
  - intros [|]%orb_true_iff; apply orb_true_iff; auto.
Qed.

Lemma map_get_map {A B} (f : A → B) (m : list (string * A)) k :
  map_get (map (λ c, (c.1, f c.2)) m) k = f <$> map_get m k.
Proof. induction m as [|[j w] m IH]; cbn; [done|]. by case_match. Qed.

(** What a finished loop over the cases has seen. *)
Lemma switch_loop_Some acc rs w :
  switch_loop acc rs = Ok (Some w) →
  w = UnknownEffect ∨ ∃ keys, w = MayEffect keys ∧
    (∀ x, num_set_has acc x = true → num_set_has keys x = true) ∧
    Forall (λ r, ∃ v k, r = Ok (Some v) ∧ keys_of v = Some k ∧
      ∀ x, num_set_has k x = true → num_set_has keys x = true) rs.
Proof.
  revert acc. induction rs as [|r rs IH]; intros acc; cbn.
  - intros [= <-]. right. eexists. split; [done|]. split; [|constructor].
    intros x. by rewrite num_set_has_sort.
  - intros ([v|] & -> & H)%bind_Ok; [|done].
    destruct (keys_of v) as [k|] eqn:Hk; [|left; by injection H as <-].
    destruct (IH _ H) as [|(keys & -> & Ha & Hrs)]; [by left|right]. exists keys.
    split; [done|]. split.
    + intros x Hx. apply Ha. rewrite num_set_has_foldl. by rewrite Hx.
    + constructor; [|done]. exists v, k. split; [done|]. split; [done|].
      intros x Hx. apply Ha. rewrite num_set_has_foldl, Hx. apply orb_true_r.
Qed.

Lemma keys_of_describes w k ks x :
  keys_of w = Some k → describes w ks → num_set_has ks x = true → num_set_has k x = true.
Proof. destruct w; cbn; intros; simplify_eq; auto. by rewrite H0. Qed.

(** A finished union describes the concatenation of what its items describe. *)
Lemma union_loop_describes items gamma rho :
  Forall (λ e, ∀ w ks, evalWrites e gamma = Ok (Some w) → writes e rho = Some ks →
    describes w ks) items →
  ∀ acc w ka ks,
    union_loop acc (map (λ i, evalWrites i gamma) items) = Ok (Some w) →
    describes acc ka →
    foldr (λ r acc, ks ← r; ks' ← acc; Some (ks ++ ks')) (Some [])
      (map (λ i, writes i rho) items) = Some ks →
    describes w (ka ++ ks).
Proof.
  induction 1 as [|e items He _ IH]; cbn; intros acc w ka ks Hw Ha Hks.
  - simplify_eq. by rewrite app_nil_r.
  - apply bind_Some in Hks as (ke & Hke & (kr & Hkr & [= <-])%bind_Some).
    apply bind_Ok in Hw as ([we|] & Hwe & Hw); [|done].
    pose proof (combineEffects_describes _ _ _ _ Ha (He _ _ Hwe Hke)) as Hc.
    rewrite app_assoc. destruct (combineEffects acc we) eqn:Ec;
      [| |by injection Hw as <-]; by eapply IH.
Qed.

(** C11: the evaluation under the parameters known at link time is sound for every
    completion of them: an Exact result is the set of keys written, a May result
    contains it. *)
Theorem evalWrites_sound e gamma rho w ks :
  gamma ⊆ rho →
  evalWrites e gamma = Ok (Some w) → writes e rho = Some ks → describes w ks.
Proof.
  intros Hsub. revert w ks.
  induction e as [keyIds|p|p cs IH|l IH] using expr_ind_nested; intros w ks; cbn.
  - intros [= <-] [= <-] x. by autorewrite with js.
  - destruct (gamma !! p) as [[v|v]|] eqn:Hp; intros [= <-]; try done.
    rewrite (lookup_weaken _ _ _ _ Hp Hsub). by intros [= <-] x.
  - assert (∀ v c, map_get cs v = Some c → ∀ w ks, evalWrites c gamma = Ok (Some w) →
      writes c rho = Some ks → describes w ks) as IHc.
    { intros v c Hc. rewrite Forall_forall in IH. by apply (IH (v, c)), map_get_Some_elem_of. }
    intros Hw Hks. destruct (rho !! p) as [[n|v]|] eqn:Hr; try done.
    rewrite (map_get_map (λ e, writes e rho)) in Hks.
    destruct (map_get cs v) as [c|] eqn:Hc; [cbn in Hks|done].
    destruct (gamma !! p) as [[n|v']|] eqn:Hp.
    + apply (lookup_weaken _ rho) in Hp; [|done]. congruence.
    + apply (lookup_weaken _ rho) in Hp; [|done]. simplify_eq.
      rewrite (map_get_map (λ e, evalWrites e gamma)), Hc in Hw. cbn in Hw. eauto.
    + apply map_get_Some_elem_of in Hc as Hin.
      destruct (map _ cs) as [|r0 rs] eqn:Hm; [by destruct cs|]. rewrite <-Hm in Hw.
      apply switch_loop_Some in Hw as [->|(keys & -> & _ & Hall)]; [done|].
      rewrite Forall_forall in Hall.
      destruct (Hall (evalWrites c gamma)) as (wc & k & Hwc & Hk & Hin').
      { apply list_elem_of_fmap. exists (v, evalWrites c gamma). split; [done|].
        apply list_elem_of_fmap. by exists (v, c). }
      intros x Hx. apply Hin'. by eapply keys_of_describes, Hx; eauto.
  - destruct l as [|e l]; [intros [= <-] [= <-]; done|]. intros Hw Hks.
    by apply (union_loop_describes (e :: l) gamma rho IH (ExactEffect []) w [] ks).
Qed.

Definition param_key : string := "key".

(** A switch the link leaves open, over a parameter it knows. *)
Definition sample_expr : WritesEffectExpr :=
  effectUnion
    [effectKeys [num 30; num 10; num 30];
     effectSwitchEnum "mode"
       [("a", effectFromParam param_key); ("b", effectKeys [num 7])]].
Definition sample_gamma : EffectGamma := {[ param_key := GNumber (num 4) ]}.
Definition sample_rho : EffectGamma := <["mode" := GString "a"]> sample_gamma.

Lemma evalWrites_sound_witness :
  sample_gamma ⊆ sample_rho ∧
  evalWrites sample_expr sample_gamma
    = Ok (Some (MayEffect [num 4; num 7; num 10; num 30])) ∧
  describes (MayEffect [num 4; num 7; num 10; num 30]) [num 30; num 10; num 30; num 4].
Proof.
  assert (sample_gamma ⊆ sample_rho) as Hs.
  { apply insert_subseteq. by vm_compute. }
  split; [exact Hs|]. split; [by vm_compute|].
  apply (evalWrites_sound sample_expr sample_gamma sample_rho _ _ Hs); by vm_compute.
Defined.

(** when the known parameters determine what is written, the evaluation is
    Exact: it gives just that set, and never [undefined], Unknown or an exception. *)
Theorem evalWrites_exact e gamma ks :
  writes e gamma = Some ks →
  ∃ K, evalWrites e gamma = Ok (Some (ExactEffect K)) ∧
    ∀ x, num_set_has K x = num_set_has ks x.
Proof.
  revert ks. induction e as [keyIds|p|p cs IH|l IH] using expr_ind_nested; intros ks; cbn.
  - intros [= <-]. eexists. split; [done|]. intros x. by autorewrite with js.
  - destruct (gamma !! p) as [[v|v]|]; intros [= <-]. by eexists.
  - destruct (gamma !! p) as [[v|v]|]; try done.
    rewrite (map_get_map (λ e, writes e gamma)), (map_get_map (λ e, evalWrites e gamma)).
    destruct (map_get cs v) as [c|] eqn:Hc; [cbn|done]. intros Hw.
    rewrite Forall_forall in IH. apply (IH (v, c)); [|done]. by apply map_get_Some_elem_of.
  - intros Hw. assert (∀ acc, ∃ K,
      union_loop (ExactEffect acc) (map (λ i, evalWrites i gamma) l) = Ok (Some (ExactEffect K))
      ∧ ∀ x, num_set_has K x = num_set_has acc x || num_set_has ks x) as H.
    { revert ks Hw. induction IH as [|e l He _ IH]; cbn; intros ks Hw acc.
      - injection Hw as <-. exists acc. split; [done|]. intros x. by rewrite orb_false_r.
      - apply bind_Some in Hw as (ke & Hke & (kr & Hkr & [= <-])%bind_Some).
        destruct (He _ Hke) as (K1 & -> & H1). cbn.
        destruct (IH _ Hkr (mergeKeys acc K1)) as (K & -> & HK). exists K. split; [done|].
        intros x. rewrite HK. autorewrite with js. rewrite H1. by rewrite orb_assoc. }
    destruct l as [|e l]; [injection Hw as <-; by eexists|]. apply (H []).
Qed.

Lemma evalWrites_exact_witness :
  ∃ K, evalWrites sample_expr sample_rho = Ok (Some (ExactEffect K)) ∧
    ∀ x, num_set_has K x = num_set_has [num 30; num 10; num 30; num 4] x.
Proof. apply (evalWrites_exact sample_expr sample_rho). by vm_compute. Defined.

(** ** Canonical key lists *)

(** Every key id an expression mentions is a number [a - b] orders. *)
Fixpoint ordinary_keys (e : WritesEffectExpr) : Prop :=
  match e with
  | EffectKeys ks => Forall ordinary ks
  | EffectFromParam _ => True
  | EffectSwitchEnum _ cs =>
      (fix go cs := match cs with [] => True | c :: cs' => ordinary_keys c.2 ∧ go cs' end) cs
  | EffectUnion l =>
      (fix go l := match l with [] => True | e :: l' => ordinary_keys e ∧ go l' end) l
  end.

Definition canonical (ks : list number) : Prop := Forall ordinary ks ∧ increasing ks.
Definition canonical_effect (w : WritesEffect) : Prop :=
  match keys_of w with Some ks => canonical ks | None => True end.

Lemma canonical_sort_foldl s l :
  num_set s → Forall ordinary s → Forall ordinary l →
  canonical (sort_numbers (foldl num_set_add s l)).
Proof.
  intros Hs Hos Hol. assert (Forall ordinary (foldl num_set_add s l)).
  { apply num_set_foldl_Forall; auto using norm_zero_ordinary. }
  split.
  - unfold sort_numbers. by rewrite js_sort_Permutation.
  - by apply sort_numbers_increasing, num_set_foldl.
Qed.

Lemma mergeKeys_canonical a b : canonical a → canonical b → canonical (mergeKeys a b).
Proof.
  intros [??] [??]. apply canonical_sort_foldl; [apply num_set_nil|constructor|].
  by apply Forall_app.
Qed.

Lemma combineEffects_canonical a b :
  canonical_effect a → canonical_effect b → canonical_effect (combineEffects a b).
Proof. destruct a, b; cbn; auto using mergeKeys_canonical. Qed.

Lemma union_loop_canonical rs : ∀ acc w,
  Forall (λ r, ∀ w, r = Ok (Some w) → canonical_effect w) rs →
  canonical_effect acc → union_loop acc rs = Ok (Some w) → canonical_effect w.
Proof.
  induction rs as [|r rs IH]; cbn; intros acc w Hrs Ha; [by intros [= <-]|].
  apply Forall_cons in Hrs as [Hr Hrs]. intros ([v|] & -> & Hw)%bind_Ok; [|done].
  pose proof (combineEffects_canonical acc v Ha (Hr v eq_refl)) as Hc.
  destruct (combineEffects acc v) eqn:E; eauto. by injection Hw as <-.
Qed.

Lemma switch_loop_canonical rs : ∀ acc w,
  Forall (λ r, ∀ w, r = Ok (Some w) → canonical_effect w) rs →
  num_set acc → Forall ordinary acc →
  switch_loop acc rs = Ok (Some w) → canonical_effect w.
Proof.
  induction rs as [|r rs IH]; cbn; intros acc w Hrs Ha Ho.
  - intros [= <-]. by apply (canonical_sort_foldl acc []).
  - apply Forall_cons in Hrs as [Hr Hrs]. intros ([v|] & -> & Hw)%bind_Ok; [|done].
    specialize (Hr v eq_refl). unfold canonical_effect in Hr.
    destruct (keys_of v) as [ks|] eqn:Hks; [|by injection Hw as <-].
    destruct Hr as [Hk _]. apply (IH _ _ Hrs) in Hw; [done|by apply num_set_foldl|].
    apply num_set_foldl_Forall; auto using norm_zero_ordinary.
Qed.

(** The key list of every Exact and May result is strictly increasing, so a set
    has one representation, if the key ids are numbers that compare. *)
Theorem evalWrites_canonical e gamma w ks :
  ordinary_keys e →
  (∀ p n, gamma !! p = Some (GNumber n) → ordinary n) →
  evalWrites e gamma = Ok (Some w) → keys_of w = Some ks → increasing ks.
Proof.
  intros He Hg Hw Hks. assert (canonical_effect w) as Hc; [|].
  2: { unfold canonical_effect in Hc. rewrite Hks in Hc. apply Hc. }
  clear Hks ks. revert w He Hw.
  induction e as [ks|p|p cs IH|l IH] using expr_ind_nested; intros w; cbn [ordinary_keys evalWrites].
  - intros Ho [= <-]. by apply canonical_sort_foldl; [apply num_set_nil|constructor|].
  - intros _. destruct (gamma !! p) as [[n|v]|] eqn:Hp; intros [= <-]; [|done|done].
    pose proof (Hg _ _ Hp). by split; [apply Forall_singleton|repeat constructor].
  - intros Ho. assert (Forall (λ c, ∀ w,
      evalWrites c.2 gamma = Ok (Some w) → canonical_effect w) cs) as Hcs.
    { induction IH; constructor; destruct Ho; auto. }
    assert (Forall (λ r, ∀ w, r = Ok (Some w) → canonical_effect w)
      ((map (λ c, (c.1, evalWrites c.2 gamma)) cs).*2)) as Hrs.
    { clear -Hcs. induction Hcs; cbn; constructor; auto. }
    destruct (gamma !! p) as [[n|v]|].
    1,3: destruct cs as [|c cs]; [intros [= <-]; repeat constructor|];
      intros Hw; by eapply (switch_loop_canonical _ []); eauto using num_set_nil.
    rewrite (map_get_map (λ e, evalWrites e gamma)).
    destruct (map_get cs v) as [c|] eqn:Hc; cbn.
    + rewrite Forall_forall in Hcs. apply (Hcs (v, c)). by apply map_get_Some_elem_of.
    + case_match; [done|]. by intros [= <-].
  - intros Ho. assert (Forall (λ r, ∀ w, r = Ok (Some w) → canonical_effect w)
      (map (λ i, evalWrites i gamma) l)) as Hrs.
    { induction IH; cbn; constructor; destruct Ho; auto. }
    destruct l as [|e l]; [intros [= <-]; repeat constructor|].
    intros Hw. eapply union_loop_canonical, Hw; [done|]. by repeat constructor.
Qed.

Lemma evalWrites_canonical_witness : increasing [num 4; num 7; num 10; num 30].
Proof.
  apply (evalWrites_canonical sample_expr sample_gamma
    (MayEffect [num 4; num 7; num 10; num 30])).
  - vm_compute. repeat constructor.
  - intros p n H. unfold sample_gamma in H. apply lookup_singleton_Some in H as [_ H].
    injection H as <-. by vm_compute.
  - by vm_compute.
  - done.
Defined.

(** The outcome of a switch on a constant without a case: Unknown, unless the
    constant names a member every object inherits, in which case the result is
    [undefined], and a union around the switch throws. *)
Theorem evalWrites_unmatched p cases gamma c items :
  gamma !! p = Some (GString c) → map_get cases c = None →
  let sw := effectSwitchEnum p cases in
  if string_elem object_prototype c then
    evalWrites sw gamma = Ok None ∧
    evalWrites (effectUnion (sw :: items)) gamma = Throw TypeError
  else
    evalWrites sw gamma = Ok (Some UnknownEffect) ∧
    evalWrites (effectUnion (sw :: items)) gamma = Ok (Some UnknownEffect).
Proof.
  intros Hp Hc. cbn.
  rewrite Hp, (map_get_map (λ e, evalWrites e gamma)), Hc. cbn.
  unfold inherited, string_elem. case_bool_decide as Hin; case_goal; try done.
  exfalso. apply Hin. apply String.eqb_eq in E as ->. by apply (bool_decide_unpack _).
Qed.

Lemma evalWrites_unmatched_witness :
  evalWrites (effectSwitchEnum "mode" [("a", effectKeys [])])
    {[ "mode" := GString "constructor" ]} = Ok None ∧
  evalWrites (effectUnion [effectSwitchEnum "mode" [("a", effectKeys [])]])
    {[ "mode" := GString "constructor" ]} = Throw TypeError.
Proof.
  apply (evalWrites_unmatched "mode" [("a", effectKeys [])] {[ "mode" := GString "constructor" ]}
    "constructor" []); reflexivity.
Defined.
