(* ===== verification/Ir.v ===== *)
(** * Ir: the expression and predicate nodes plans carry
    (dsl/packages/generated/tasks.ts)

    The typed nodes, the JavaScript objects that represent them in [expr_table] and
    [pred_table], and the reader of those objects; the representation is injective. *)

From S2P Require Import Prelude Collections JsNumber JsValue.

Inductive ExprNode :=
| const_number (value : number)
| const_null
| key_ref (key_id : number)
| param_ref (param_id : number)
| add (a b : ExprNode)
| sub (a b : ExprNode)
| mul (a b : ExprNode)
| neg (x : ExprNode)
| coalesce (a b : ExprNode).

Inductive RegexPattern :=
| pattern_literal (value : string)
| pattern_param (param_id : number).

(** The members of an [in] list: numbers and strings. *)
Inductive literal :=
| LNumber (n : number)
| LString (s : string).

Inductive PredNode :=
| const_bool (value : bool)
| and_ (a b : PredNode)
| or_ (a b : PredNode)
| not_ (x : PredNode)
| cmp (op : string) (a b : ExprNode)
| in_ (lhs : ExprNode) (list : list literal)
| is_null_ (x : ExprNode)
| not_null (x : ExprNode)
| regex (key_id : number) (pattern : RegexPattern) (flags : string).

#[export] Instance number_eq_dec : EqDecision number.
Proof. solve_decision. Defined.
#[export] Instance ExprNode_eq_dec : EqDecision ExprNode.
Proof. solve_decision. Defined.
#[export] Instance RegexPattern_eq_dec : EqDecision RegexPattern.
Proof. solve_decision. Defined.
#[export] Instance literal_eq_dec : EqDecision literal.
Proof. solve_decision. Defined.
#[export] Instance PredNode_eq_dec : EqDecision PredNode.
Proof. solve_decision. Defined.

(** ** The objects *)

Definition node_object (op : string) (fields : object) : value :=
  VObject (("op", VString op) :: fields).

Fixpoint expr_value (e : ExprNode) : value :=
  match e with
  | const_number n => node_object "const_number" [("value", VNumber n)]
  | const_null => node_object "const_null" []
  | key_ref i => node_object "key_ref" [("key_id", VNumber i)]
  | param_ref i => node_object "param_ref" [("param_id", VNumber i)]
  | add a b => node_object "add" [("a", expr_value a); ("b", expr_value b)]
  | sub a b => node_object "sub" [("a", expr_value a); ("b", expr_value b)]
  | mul a b => node_object "mul" [("a", expr_value a); ("b", expr_value b)]
  | neg x => node_object "neg" [("x", expr_value x)]
  | coalesce a b => node_object "coalesce" [("a", expr_value a); ("b", expr_value b)]
  end.

Definition pattern_value (p : RegexPattern) : value :=
  match p with
  | pattern_literal s => VObject [("kind", VString "literal"); ("value", VString s)]
  | pattern_param i => VObject [("kind", VString "param"); ("param_id", VNumber i)]
  end.

Definition literal_value (l : literal) : value :=
  match l with LNumber n => VNumber n | LString s => VString s end.

Fixpoint pred_value (p : PredNode) : value :=
  match p with
  | const_bool b => node_object "const_bool" [("value", VBool b)]
  | and_ a b => node_object "and" [("a", pred_value a); ("b", pred_value b)]
  | or_ a b => node_object "or" [("a", pred_value a); ("b", pred_value b)]
  | not_ x => node_object "not" [("x", pred_value x)]
  | cmp op a b =>
      node_object "cmp" [("cmp", VString op); ("a", expr_value a); ("b", expr_value b)]
  | in_ lhs l =>
      node_object "in" [("lhs", expr_value lhs); ("list", VArray (map literal_value l))]
  | is_null_ x => node_object "is_null" [("x", expr_value x)]
  | not_null x => node_object "not_null" [("x", expr_value x)]
  | regex i p fl =>
      node_object "regex"
        [("key_id", VNumber i); ("pattern", pattern_value p); ("flags", VString fl)]
  end.

(** ** Reading them back *)

Fixpoint expr_of (v : value) : option ExprNode :=
  match v with
  | VObject [("op", VString op)] => if String.eqb op "const_null" then Some const_null else None
  | VObject [("op", VString op); (k, w)] =>
      if String.eqb op "const_number" && String.eqb k "value" then
        match w with VNumber n => Some (const_number n) | _ => None end
      else if String.eqb op "key_ref" && String.eqb k "key_id" then
        match w with VNumber n => Some (key_ref n) | _ => None end
      else if String.eqb op "param_ref" && String.eqb k "param_id" then
        match w with VNumber n => Some (param_ref n) | _ => None end
      else if String.eqb op "neg" && String.eqb k "x" then x ← expr_of w; Some (neg x)
      else None
  | VObject [("op", VString op); ("a", v); ("b", w)] =>
      a ← expr_of v; b ← expr_of w;
      if String.eqb op "add" then Some (add a b)
      else if String.eqb op "sub" then Some (sub a b)
      else if String.eqb op "mul" then Some (mul a b)
      else if String.eqb op "coalesce" then Some (coalesce a b)
      else None
  | _ => None
  end.

Definition literal_of (v : value) : option literal :=
  match v with
  | VNumber n => Some (LNumber n)
  | VString s => Some (LString s)
  | _ => None
  end.

Definition pattern_of (v : value) : option RegexPattern :=
  match v with
  | VObject [("kind", VString "literal"); ("value", VString s)] => Some (pattern_literal s)
  | VObject [("kind", VString "param"); ("param_id", VNumber i)] => Some (pattern_param i)
  | _ => None
  end.

Fixpoint pred_of (v : value) : option PredNode :=
  match v with
  | VObject [("op", VString "const_bool"); ("value", VBool b)] => Some (const_bool b)
  | VObject [("op", VString "not"); ("x", w)] => x ← pred_of w; Some (not_ x)
  | VObject [("op", VString "is_null"); ("x", w)] => x ← expr_of w; Some (is_null_ x)
  | VObject [("op", VString "not_null"); ("x", w)] => x ← expr_of w; Some (not_null x)
  | VObject [("op", VString "and"); ("a", v); ("b", w)] =>
      a ← pred_of v; b ← pred_of w; Some (and_ a b)
  | VObject [("op", VString "or"); ("a", v); ("b", w)] =>
      a ← pred_of v; b ← pred_of w; Some (or_ a b)
  | VObject [("op", VString "in"); ("lhs", v); ("list", VArray l)] =>
      a ← expr_of v; ls ← mapM literal_of l; Some (in_ a ls)
  | VObject [("op", VString "cmp"); ("cmp", VString op); ("a", v); ("b", w)] =>
      a ← expr_of v; b ← expr_of w; Some (cmp op a b)
  | VObject [("op", VString "regex"); ("key_id", VNumber i); ("pattern", p); ("flags", VString fl)] =>
      p ← pattern_of p; Some (regex i p fl)
  | _ => None
  end.

Lemma expr_of_value e : expr_of (expr_value e) = Some e.
Proof. induction e; cbn; rewrite ?IHe, ?IHe1; cbn; rewrite ?IHe2; done. Qed.

Lemma literals_of_value l : mapM literal_of (map literal_value l) = Some l.
Proof. induction l as [|[] l IH]; cbn; rewrite ?IH; done. Qed.

Lemma pred_of_value p : pred_of (pred_value p) = Some p.
Proof.
  induction p; cbn.
  all: rewrite ?IHp, ?IHp1; cbn; rewrite ?IHp2, ?expr_of_value; cbn; try done.
  - by rewrite literals_of_value.
  - by destruct pattern.
Qed.

#[export] Instance expr_value_inj : Inj (=) (=) expr_value.
Proof. intros a b H. apply (f_equal expr_of) in H. rewrite !expr_of_value in H. by injection H. Qed.
#[export] Instance pred_value_inj : Inj (=) (=) pred_value.
Proof. intros a b H. apply (f_equal pred_of) in H. rewrite !pred_of_value in H. by injection H. Qed.
