(* ===== verification/Builders.v ===== *)
(** * Builders: the [E] and [Pred] APIs (dsl/packages/runtime/src/expr.ts, pred.ts)

    The builders take and return JavaScript values: a plan runs without its types.
    The theorems say which nodes they can build, that what they build is the object
    of that node, and which lists [Pred.in] accepts. *)

From S2P Require Import Prelude Collections JsNumber JsValue Guards Ir.

Definition is_finite_value (v : value) : bool :=
  match v with VNumber n => isFinite n | _ => false end.

(** ** E *)

Module E.
Definition const (v : value) : result value :=
  assertNotUndefined v "E.const(value)" ;;
  if is_finite_value v then Ok (node_object "const_number" [("value", v)])
  else t ← template v; Throw (Error ("E.const requires finite number, got " +:+ t)).

Definition constNull : result value := Ok (node_object "const_null" []).

Definition key (token : value) : result value :=
  assertNotUndefined token "E.key(token)" ;;
  id ← get_prop token "id";
  Ok (node_object "key_ref" [("key_id", id)]).

Definition param (token : value) : result value :=
  assertNotUndefined token "E.param(token)" ;;
  id ← get_prop token "id";
  Ok (node_object "param_ref" [("param_id", id)]).

Definition add (a b : value) : result value :=
  assertNotUndefined a "E.add(a, ...)" ;;
  assertNotUndefined b "E.add(..., b)" ;;
  Ok (node_object "add" [("a", a); ("b", b)]).

Definition sub (a b : value) : result value :=
  assertNotUndefined a "E.sub(a, ...)" ;;
  assertNotUndefined b "E.sub(..., b)" ;;
  Ok (node_object "sub" [("a", a); ("b", b)]).

Definition mul (a b : value) : result value :=
  assertNotUndefined a "E.mul(a, ...)" ;;
  assertNotUndefined b "E.mul(..., b)" ;;
  Ok (node_object "mul" [("a", a); ("b", b)]).

Definition neg (a : value) : result value :=
  assertNotUndefined a "E.neg(a)" ;;
  Ok (node_object "neg" [("x", a)]).

Definition coalesce (a b : value) : result value :=
  assertNotUndefined a "E.coalesce(a, ...)" ;;
  assertNotUndefined b "E.coalesce(..., b)" ;;
  Ok (node_object "coalesce" [("a", a); ("b", b)]).
End E.

(** The function of the natural syntax, which only the compiler may consume. *)
Definition coalesce_function (_a _b : value) : result value :=
  Throw (Error ("coalesce() should only be used in vm() natural expressions. " +:+
    "The compiler extracts these at compile time. " +:+
    "For builder-style expressions, use E.coalesce() instead.")).

(** ** Pred *)

Module Pred.
Definition constBool (v : value) : result value :=
  assertNotUndefined v "Pred.constBool(value)" ;;
  Ok (node_object "const_bool" [("value", v)]).

Definition conj (a b : value) : result value :=
  assertNotUndefined a "Pred.and(a, ...)" ;;
  assertNotUndefined b "Pred.and(..., b)" ;;
  Ok (node_object "and" [("a", a); ("b", b)]).

Definition disj (a b : value) : result value :=
  assertNotUndefined a "Pred.or(a, ...)" ;;
  assertNotUndefined b "Pred.or(..., b)" ;;
  Ok (node_object "or" [("a", a); ("b", b)]).

Definition negate (a : value) : result value :=
  assertNotUndefined a "Pred.not(a)" ;;
  Ok (node_object "not" [("x", a)]).

Definition cmp (cmp a b : value) : result value :=
  assertNotUndefined cmp "Pred.cmp(cmp, ...)" ;;
  assertNotUndefined a "Pred.cmp(..., a, ...)" ;;
  assertNotUndefined b "Pred.cmp(..., b)" ;;
  Ok (node_object "cmp" [("cmp", cmp); ("a", a); ("b", b)]).

(** The loop over the list, each member against the type of the first. *)
Definition check_member (firstType : string) (i : nat) (val : value) : result unit :=
  assertNotUndefined val ("Pred.in(..., list[" +:+ pretty i +:+ "])") ;;
  throw_if (negb (String.eqb (typeof val) firstType))
    ("Pred.in list must be homogeneous: list[0] is " +:+ firstType +:+
     ", list[" +:+ pretty i +:+ "] is " +:+ typeof val).

Definition member (lhs list : value) : result value :=
  assertNotUndefined lhs "Pred.in(lhs, ...)" ;;
  assertNotUndefined list "Pred.in(..., list)" ;;
  match list with
  | VArray l =>
      match l with
      | [] => Ok tt
      | v0 :: _ =>
          let firstType := typeof v0 in
          throw_if (negb (String.eqb firstType "number") && negb (String.eqb firstType "string"))
            ("Pred.in list[0] must be number or string, got " +:+ firstType) ;;
          for_each_i (check_member firstType) l
      end ;;
      Ok (node_object "in" [("lhs", lhs); ("list", list)])
  | _ => Throw (Error "Pred.in requires array of literal values")
  end.

Definition isNull (a : value) : result value :=
  assertNotUndefined a "Pred.isNull(a)" ;;
  Ok (node_object "is_null" [("x", a)]).

Definition notNull (a : value) : result value :=
  assertNotUndefined a "Pred.notNull(a)" ;;
  Ok (node_object "not_null" [("x", a)]).

(** [flags] has the default value [""] when it is omitted or undefined. *)
Definition regex (key pattern flags : value) : result value :=
  let flags := match flags with VUndefined => VString EmptyString | _ => flags end in
  assertNotUndefined key "Pred.regex(key, ...)" ;;
  assertNotUndefined pattern "Pred.regex(..., pattern, ...)" ;;
  assertNotUndefined flags "Pred.regex(..., flags)" ;;
  (if match flags with VString f => string_elem [EmptyString; "i"] f | _ => false end
   then Ok tt
   else t ← template flags;
     Throw (Error ("Pred.regex flags must be " +:+ quoted EmptyString +:+ " or " +:+
       quoted "i" +:+ ", got " +:+ quoted t))) ;;
  regexPattern ←
    match pattern with
    | VString _ => Ok (VObject [("kind", VString "literal"); ("value", pattern)])
    | _ => id ← get_prop pattern "id"; Ok (VObject [("kind", VString "param"); ("param_id", id)])
    end;
  id ← get_prop key "id";
  Ok (node_object "regex" [("key_id", id); ("pattern", regexPattern); ("flags", flags)]).
End Pred.

Definition regex_function (_key _pattern _flags : value) : result value :=
  Throw (Error ("regex() should only be used in filter() natural predicates. " +:+
    "The compiler extracts these at compile time. " +:+
    "For builder-style predicates, use Pred.regex() instead.")).

(** ** Building a node with them *)

(** A [KeyToken] or [ParamToken], as far as the builders read it. *)
Definition token (id : number) : value := VObject [("id", VNumber id)].

Fixpoint build_expr (e : ExprNode) : result value :=
  match e with
  | const_number n => E.const (VNumber n)
  | const_null => E.constNull
  | key_ref i => E.key (token i)
  | param_ref i => E.param (token i)
  | add a b => a ← build_expr a; b ← build_expr b; E.add a b
  | sub a b => a ← build_expr a; b ← build_expr b; E.sub a b
  | mul a b => a ← build_expr a; b ← build_expr b; E.mul a b
  | neg x => x ← build_expr x; E.neg x
  | coalesce a b => a ← build_expr a; b ← build_expr b; E.coalesce a b
  end.

Definition build_pattern (p : RegexPattern) : value :=
  match p with pattern_literal s => VString s | pattern_param i => token i end.

Fixpoint build_pred (p : PredNode) : result value :=
  match p with
  | const_bool b => Pred.constBool (VBool b)
  | and_ a b => a ← build_pred a; b ← build_pred b; Pred.conj a b
  | or_ a b => a ← build_pred a; b ← build_pred b; Pred.disj a b
  | not_ x => x ← build_pred x; Pred.negate x
  | cmp op a b => a ← build_expr a; b ← build_expr b; Pred.cmp (VString op) a b
  | in_ lhs l => a ← build_expr lhs; Pred.member a (VArray (map literal_value l))
  | is_null_ x => x ← build_expr x; Pred.isNull x
  | not_null x => x ← build_expr x; Pred.notNull x
  | regex i p fl => Pred.regex (token i) (build_pattern p) (VString fl)
  end.

(** What the builders promise of a node. *)
Fixpoint expr_ok (e : ExprNode) : bool :=
  match e with
  | const_number n => isFinite n
  | const_null | key_ref _ | param_ref _ => true
  | add a b | sub a b | mul a b | coalesce a b => expr_ok a && expr_ok b
  | neg x => expr_ok x
  end.

Definition is_LNumber (l : literal) : bool := match l with LNumber _ => true | _ => false end.
Definition homogeneous (l : list literal) : bool :=
  forallb is_LNumber l || forallb (λ x, negb (is_LNumber x)) l.

Fixpoint pred_ok (p : PredNode) : bool :=
  match p with
  | const_bool _ => true
  | and_ a b | or_ a b => pred_ok a && pred_ok b
  | not_ x => pred_ok x
  | cmp _ a b => expr_ok a && expr_ok b
  | in_ lhs l => expr_ok lhs && homogeneous l
  | is_null_ x | not_null x => expr_ok x
  | regex _ _ fl => string_elem [EmptyString; "i"] fl
  end.

(** ** Theorems *)

Lemma expr_value_defined e : is_undefined (expr_value e) = false.
Proof. by destruct e. Qed.
Lemma pred_value_defined p : is_undefined (pred_value p) = false.
Proof. by destruct p. Qed.

Lemma assert_defined v path : is_undefined v = false → assertNotUndefined v path = Ok tt.
Proof. unfold assertNotUndefined. by intros ->. Qed.

(** [r] returns [v] if [ok] holds, and throws otherwise. *)
Definition yields (r : result value) (ok : bool) (v : value) : Prop :=
  if ok then r = Ok v else ∃ x, r = Throw x.

Lemma yields_bind r ok v (f : value → result value) ok' w :
  yields r ok v → yields (f v) ok' w → yields (r ≫= f) (ok && ok') w.
Proof. destruct ok; cbn; [by intros ->|]. intros [x ->] _. by exists x. Qed.

Lemma yields_bind_last r ok v (f : value → result value) w :
  yields r ok v → f v = Ok w → yields (r ≫= f) ok w.
Proof. intros H E. rewrite <-(andb_true_r ok). by apply (yields_bind _ _ v). Qed.

Lemma yields_iff r ok v : yields r ok v → (r = Ok v ↔ ok = true).
Proof. destruct ok; cbn; [naive_solver|]. intros [x ->]. naive_solver. Qed.

(** Runs the argument checks of a builder on nodes. *)
Ltac builder :=
  cbv [E.add E.sub E.mul E.neg E.coalesce Pred.conj Pred.disj Pred.negate Pred.cmp
       Pred.isNull Pred.notNull];
  by rewrite ?assert_defined by (apply expr_value_defined || apply pred_value_defined || done).

Ltac build_args :=
  repeat (eapply yields_bind_last; [solve [eauto]|builder])
  || (eapply yields_bind; [solve [eauto]|eapply yields_bind_last; [solve [eauto]|builder]]).

Lemma build_expr_yields e : yields (build_expr e) (expr_ok e) (expr_value e).
Proof.
  induction e; cbn [build_expr expr_ok expr_value]; try done; try build_args.
  cbn. unfold E.const. cbn. destruct (isFinite value); cbn; eauto.
Qed.

(** [Pred.in] accepts the empty list, lists of numbers and lists of strings. *)
Definition in_list_ok (l : list value) : bool :=
  forallb (λ v, String.eqb (typeof v) "number") l
  || forallb (λ v, String.eqb (typeof v) "string") l.

Lemma check_member_Ok ty i v :
  ty ≠ "undefined" → Pred.check_member ty i v = Ok tt ↔ typeof v = ty.
Proof.
  intros Hty. unfold Pred.check_member.
  rewrite bind_Ok_unit, assertNotUndefined_Ok, throw_if_Ok, negb_false_iff, String.eqb_eq.
  destruct v; cbn; naive_solver.
Qed.

Lemma check_members_Ok ty l :
  ty ≠ "undefined" →
  for_each_i (Pred.check_member ty) l = Ok tt ↔ forallb (λ v, String.eqb (typeof v) ty) l = true.
Proof.
  intros Hty. rewrite for_each_i_Ok, forallb_forall. split.
  - intros H v [i Hi]%list_elem_of_In%list_elem_of_lookup.
    apply String.eqb_eq. by apply (check_member_Ok ty i), H.
  - intros H i v Hi. apply check_member_Ok; [done|]. apply String.eqb_eq, H.
    apply list_elem_of_In. by eapply list_elem_of_lookup_2.
Qed.

Lemma in_list_ok_head v l :
  in_list_ok (v :: l) =
  (String.eqb (typeof v) "number" || String.eqb (typeof v) "string")
  && forallb (λ w, String.eqb (typeof w) (typeof v)) (v :: l).
Proof.
  unfold in_list_ok. cbn [forallb]. rewrite String.eqb_refl.
  destruct (String.eqb_spec (typeof v) "number") as [->|]; cbn; [by rewrite orb_false_r|].
  by destruct (String.eqb_spec (typeof v) "string") as [->|]; cbn.
Qed.

Lemma member_spec lhs l :
  lhs ≠ VUndefined →
  yields (Pred.member lhs (VArray l)) (in_list_ok l)
    (node_object "in" [("lhs", lhs); ("list", VArray l)]).
Proof.
  intros Hl. unfold Pred.member. rewrite !assert_defined by (done || by destruct lhs). cbn.
  destruct l as [|v l]; [done|]. rewrite in_list_ok_head.
  destruct (_ || _) eqn:Hty; cbn [andb yields].
  - rewrite <-negb_orb, Hty. cbn [negb throw_if mbind result_bind].
    assert (typeof v ≠ "undefined") as Hd.
    { intros E. by rewrite E in Hty. }
    pose proof (check_members_Ok (typeof v) (v :: l) Hd) as Hm.
    destruct (for_each_i _ _) as [[]|x].
    + by rewrite (proj1 Hm eq_refl).
    + destruct (forallb _ _); [naive_solver|]. by exists x.
  - rewrite <-negb_orb, Hty. cbn. eauto.
Qed.

Lemma in_list_ok_literals l : in_list_ok (map literal_value l) = homogeneous l.
Proof.
  unfold in_list_ok, homogeneous. f_equal.
  - induction l as [|[] l IH]; cbn; [done|by rewrite IH|done].
  - induction l as [|[] l IH]; cbn; [done|done|by rewrite IH].
Qed.

Lemma member_yields e l :
  yields (Pred.member (expr_value e) (VArray (map literal_value l))) (homogeneous l)
    (pred_value (in_ e l)).
Proof. rewrite <-in_list_ok_literals. apply member_spec. by destruct e. Qed.

Lemma build_pred_yields p : yields (build_pred p) (pred_ok p) (pred_value p).
Proof.
  pose proof build_expr_yields.
  induction p; cbn [build_pred pred_ok pred_value]; try done; try build_args.
  - eapply yields_bind; [done|]. apply member_yields.
  - unfold yields. destruct pattern; cbn; destruct (string_elem _ flags); cbn; eauto.
Qed.

(** C21: the builders construct each expression and predicate node as the object the
    engine reads, and fail only for a constant that is not finite, an [in] list that
    mixes numbers and strings, and regex flags other than none and [i]. *)
Theorem builders_correct :
  (∀ e, yields (build_expr e) (expr_ok e) (expr_value e)) ∧
  (∀ p, yields (build_pred p) (pred_ok p) (pred_value p)) ∧
  (∀ lhs l, lhs ≠ VUndefined →
    yields (Pred.member lhs (VArray l)) (in_list_ok l)
      (node_object "in" [("lhs", lhs); ("list", VArray l)])) ∧
  (∀ e, expr_of (expr_value e) = Some e) ∧
  (∀ p, pred_of (pred_value p) = Some p).
Proof.
  auto using build_expr_yields, member_spec, build_pred_yields, expr_of_value, pred_of_value.
Qed.

Lemma builders_correct_witness :
  Pred.member (expr_value (key_ref (num 1))) (VArray [VString "a"; VString "b"]) =
    Ok (node_object "in" [("lhs", expr_value (key_ref (num 1)));
                          ("list", VArray [VString "a"; VString "b"])]).
Proof.
  assert (expr_value (key_ref (num 1)) ≠ VUndefined) as Hd by done.
  exact (proj1 (proj2 (proj2 builders_correct)) (expr_value (key_ref (num 1)))
    [VString "a"; VString "b"] Hd).
Defined.
