(* ===== verification/TaskImpl.v ===== *)
(** * TaskImpl: the generated task implementations
    (dsl/packages/generated/task-impl.ts)

    Each implementation checks its options and adds one node to a plan context.  The
    context is an interface, as in the source: the class [TaskContext] has its
    operations and [TaskContextLaws] what it promises; every implementation is proved
    against these laws. *)

From S2P Require Import Prelude StateMonad Collections JsNumber JsValue Guards.

(** [value !== null && typeof value === "object" && k in value
     && typeof value[k] === "number"] *)
Definition has_number (v : value) (k : string) : bool :=
  is_object v &&
  match get_prop v k with Ok (VNumber _) => true | _ => false end.

Definition isExprPlaceholder (v : value) : bool := has_number v "__expr_id".
Definition isPredPlaceholder (v : value) : bool := has_number v "__pred_id".

(** ** Validation helpers *)

Definition assertNotUndefined (v : value) (name : string) : result unit :=
  throw_if (is_undefined v) (name +:+ " is undefined").

Definition assertInteger (v : value) (name : string) : result unit :=
  throw_if (negb (is_integer_value v))
    (name +:+ " must be an integer, got " +:+ number_or_type v).

(** [value === null ? "null" : typeof value] *)
Definition null_or_type (v : value) : string := if is_null v then "null" else typeof v.

Definition assertKeyToken (v : value) (name : string) : result unit :=
  throw_if (negb (is_object v)) (name +:+ " must be a KeyToken, got " +:+ null_or_type v) ;;
  id ← get_prop v "id";
  throw_if (negb (is_integer_value id))
    (name +:+ ".id must be an integer, got " +:+ number_or_type id).

Definition assertStringOrNull (v : value) (name : string) : result unit :=
  throw_if (negb (is_null v) && negb (is_string v))
    (name +:+ " must be a string or null, got " +:+ typeof v).

Definition assertExprInput (v : value) (name : string) : result unit :=
  throw_if (negb (is_object v))
    (name +:+ " must be an ExprNode or ExprPlaceholder, got " +:+ null_or_type v) ;;
  id ← get_prop v "__expr_id";
  op ← get_prop v "op";
  throw_if (negb (String.eqb (typeof id) "number") && negb (String.eqb (typeof op) "string"))
    (name +:+ " must be an ExprNode (with 'op') or ExprPlaceholder (with '__expr_id')").

Definition assertPredInput (v : value) (name : string) : result unit :=
  throw_if (negb (is_object v))
    (name +:+ " must be a PredNode or PredPlaceholder, got " +:+ null_or_type v) ;;
  id ← get_prop v "__pred_id";
  op ← get_prop v "op";
  throw_if (negb (String.eqb (typeof id) "number") && negb (String.eqb (typeof op) "string"))
    (name +:+ " must be a PredNode (with 'op') or PredPlaceholder (with '__pred_id')").

Definition assertCandidateSet (v : value) (name : string) : result unit :=
  throw_if (negb (is_object v))
    (name +:+ " must be a CandidateSet, got " +:+ null_or_type v) ;;
  f ← get_prop v "getNodeId";
  throw_if (negb (String.eqb (typeof f) "function"))
    (name +:+ " must be a CandidateSet with 'getNodeId' method").

Fixpoint checkNoUndefined (obj : value) (context : string) : result unit :=
  match obj with
  | VUndefined | VNull => Throw TypeError
  | VObject o =>
      (fix go (o : object) : result unit :=
        match o with
        | [] => Ok tt
        | (key, v) :: o' =>
            throw_if (is_undefined v) (context +:+ "." +:+ key +:+ " is undefined") ;;
            (if is_plain v then checkNoUndefined v (context +:+ "." +:+ key) else Ok tt) ;;
            go o'
        end) o
  | VArray l =>
      (fix go (i : nat) (l : list value) : result unit :=
        match l with
        | [] => Ok tt
        | v :: l' =>
            throw_if (is_undefined v) (context +:+ "." +:+ index_key i +:+ " is undefined") ;;
            (if is_plain v then checkNoUndefined v (context +:+ "." +:+ index_key i) else Ok tt) ;;
            go (S i) l'
        end) 0 l
  | _ => Ok tt
  end.

Definition assertEndpointId (v : value) (name : string) : result unit :=
  match v with
  | VString s =>
      throw_if (negb (startsWith s "ep_"))
        (name +:+ " must start with " +:+ quoted "ep_" +:+ ", got " +:+ quoted s) ;;
      throw_if (64 <? String.length s)
        (name +:+ " too long (max 64 chars), got " +:+ pretty (String.length s))
  | _ => Throw (Error (name +:+ " must be a string (EndpointId), got " +:+ typeof v))
  end.

(** [f()], for a property [f] that may not be a function *)
Definition call (f : value) : result value :=
  match f with VFunction r => Ok r | _ => Throw TypeError end.

(** [const { extensions, ...rest } = opts] *)
Definition split_extensions (opts : value) : result (value * value) :=
  e ← entries opts;
  x ← get_prop opts "extensions";
  Ok (x, VObject (obj_without e "extensions")).

(** [if (opts.trace !== undefined) assertStringOrNull(opts.trace, name)], then
    [opts.trace ?? null]. *)
Definition check_trace (assertion : value → string → result unit) (opts : value) (name : string)
    : result value :=
  trace ← get_prop opts "trace";
  (if is_undefined trace then Ok tt else assertion trace name) ;;
  Ok (nullish trace VNull).

(** ** The context *)

Class TaskContext (S : Type) := {
  addNode (op : string) (inputs : list string) (params : object) (extensions : value) : M S string;
  addExpr (expr : value) : M S string;
  addPred (pred : value) : M S string;
}.

Section impls.
Context {S : Type} `{!TaskContext S}.

(** ** Source tasks *)

Definition viewerImpl (opts : value) : M S string :=
  lift (assertNotUndefined opts "viewer(opts)") ;;
  endpoint ← lift (get_prop opts "endpoint");
  lift (assertNotUndefined endpoint "viewer({ endpoint })") ;;
  lift (assertEndpointId endpoint "viewer({ endpoint })") ;;
  '(extensions, rest) ← lift (split_extensions opts);
  lift (checkNoUndefined rest "viewer(opts)") ;;
  trace ← lift (check_trace assertStringOrNull opts "viewer({ trace })");
  addNode "core::viewer" [] [("endpoint", endpoint); ("trace", trace)] extensions.

Definition fixedSourceImpl (opts : value) : M S string :=
  lift (assertNotUndefined opts "fixedSource(opts)") ;;
  '(extensions, rest) ← lift (split_extensions opts);
  lift (checkNoUndefined rest "fixedSource(opts)") ;;
  trace ← lift (check_trace assertStringOrNull opts "fixedSource({ trace })");
  rowCount ← lift (get_prop opts "rowCount");
  addNode "test::fixed_source" [] [("row_count", rowCount); ("trace", trace)] extensions.

(** ** Transform tasks *)

Definition concatImpl (inputNodeId : string) (opts : value) : M S string :=
  lift (assertNotUndefined opts "concat(opts)") ;;
  rhs ← lift (get_prop opts "rhs");
  lift (assertNotUndefined rhs "concat({ rhs })") ;;
  lift (assertCandidateSet rhs "concat({ rhs })") ;;
  '(extensions, rest) ← lift (split_extensions opts);
  lift (checkNoUndefined rest "concat(opts)") ;;
  trace ← lift (check_trace assertStringOrNull opts "concat({ trace })");
  getNodeId ← lift (get_prop rhs "getNodeId");
  rhsNodeId ← lift (call getNodeId);
  addNode "core::concat" [inputNodeId] [("rhs", rhsNodeId); ("trace", trace)] extensions.

Definition filterImpl (inputNodeId : string) (opts : value) : M S string :=
  lift (assertNotUndefined opts "filter(opts)") ;;
  pred ← lift (get_prop opts "pred");
  lift (assertNotUndefined pred "filter({ pred })") ;;
  '(extensions, rest) ← lift (split_extensions opts);
  lift (checkNoUndefined rest "filter(opts)") ;;
  trace ← lift (check_trace assertStringOrNull opts "filter({ trace })");
  lift (assertPredInput pred "filter({ pred })") ;;
  predId ←
    (if isPredPlaceholder pred then
      id ← lift (get_prop pred "__pred_id"); t ← lift (template id); mret ("__static_p" +:+ t)
    else addPred pred);
  addNode "core::filter" [inputNodeId] [("pred_id", VString predId); ("trace", trace)] extensions.

Definition followImpl (inputNodeId : string) (opts : value) : M S string :=
  lift (assertNotUndefined opts "follow(opts)") ;;
  endpoint ← lift (get_prop opts "endpoint");
  lift (assertNotUndefined endpoint "follow({ endpoint })") ;;
  lift (assertEndpointId endpoint "follow({ endpoint })") ;;
  fanout ← lift (get_prop opts "fanout");
  lift (assertNotUndefined fanout "follow({ fanout })") ;;
  lift (assertInteger fanout "follow({ fanout })") ;;
  '(extensions, rest) ← lift (split_extensions opts);
  lift (checkNoUndefined rest "follow(opts)") ;;
  trace ← lift (check_trace assertStringOrNull opts "follow({ trace })");
  addNode "core::follow" [inputNodeId]
    [("endpoint", endpoint); ("fanout", fanout); ("trace", trace)] extensions.

Definition mediaImpl (inputNodeId : string) (opts : value) : M S string :=
  lift (assertNotUndefined opts "media(opts)") ;;
  endpoint ← lift (get_prop opts "endpoint");
  lift (assertNotUndefined endpoint "media({ endpoint })") ;;
  lift (assertEndpointId endpoint "media({ endpoint })") ;;
  fanout ← lift (get_prop opts "fanout");
  lift (assertNotUndefined fanout "media({ fanout })") ;;
  lift (assertInteger fanout "media({ fanout })") ;;
  '(extensions, rest) ← lift (split_extensions opts);
  lift (checkNoUndefined rest "media(opts)") ;;
  trace ← lift (check_trace assertStringOrNull opts "media({ trace })");
  addNode "core::media" [inputNodeId]
    [("endpoint", endpoint); ("fanout", fanout); ("trace", trace)] extensions.

Definition recommendationImpl (inputNodeId : string) (opts : value) : M S string :=
  lift (assertNotUndefined opts "recommendation(opts)") ;;
  endpoint ← lift (get_prop opts "endpoint");
  lift (assertNotUndefined endpoint "recommendation({ endpoint })") ;;
  lift (assertEndpointId endpoint "recommendation({ endpoint })") ;;
  fanout ← lift (get_prop opts "fanout");
  lift (assertNotUndefined fanout "recommendation({ fanout })") ;;
  lift (assertInteger fanout "recommendation({ fanout })") ;;
  '(extensions, rest) ← lift (split_extensions opts);
  lift (checkNoUndefined rest "recommendation(opts)") ;;
  trace ← lift (check_trace assertStringOrNull opts "recommendation({ trace })");
  addNode "core::recommendation" [inputNodeId]
    [("endpoint", endpoint); ("fanout", fanout); ("trace", trace)] extensions.

Definition sortImpl (inputNodeId : string) (opts : value) : M S string :=
  lift (assertNotUndefined opts "sort(opts)") ;;
  by_ ← lift (get_prop opts "by");
  lift (assertNotUndefined by_ "sort({ by })") ;;
  lift (assertKeyToken by_ "sort({ by })") ;;
  '(extensions, rest) ← lift (split_extensions opts);
  lift (checkNoUndefined rest "sort(opts)") ;;
  trace ← lift (check_trace assertStringOrNull opts "sort({ trace })");
  id ← lift (get_prop by_ "id");
  order ← lift (get_prop opts "order");
  addNode "core::sort" [inputNodeId]
    [("by", id); ("order", order); ("trace", trace)] extensions.

Definition takeImpl (inputNodeId : string) (opts : value) : M S string :=
  lift (assertNotUndefined opts "take(opts)") ;;
  count ← lift (get_prop opts "count");
  lift (assertNotUndefined count "take({ count })") ;;
  lift (assertInteger count "take({ count })") ;;
  '(extensions, rest) ← lift (split_extensions opts);
  lift (checkNoUndefined rest "take(opts)") ;;
  trace ← lift (check_trace assertStringOrNull opts "take({ trace })");
  addNode "core::take" [inputNodeId] [("count", count); ("trace", trace)] extensions.

Definition vmImpl (inputNodeId : string) (opts : value) : M S string :=
  lift (assertNotUndefined opts "vm(opts)") ;;
  expr ← lift (get_prop opts "expr");
  lift (assertNotUndefined expr "vm({ expr })") ;;
  outKey ← lift (get_prop opts "outKey");
  lift (assertNotUndefined outKey "vm({ outKey })") ;;
  lift (assertKeyToken outKey "vm({ outKey })") ;;
  '(extensions, rest) ← lift (split_extensions opts);
  lift (checkNoUndefined rest "vm(opts)") ;;
  trace ← lift (check_trace assertStringOrNull opts "vm({ trace })");
  lift (assertExprInput expr "vm({ expr })") ;;
  exprId ←
    (if isExprPlaceholder expr then
      id ← lift (get_prop expr "__expr_id"); t ← lift (template id); mret ("__static_e" +:+ t)
    else addExpr expr);
  id ← lift (get_prop outKey "id");
  addNode "core::vm" [inputNodeId]
    [("expr_id", VString exprId); ("out_key", id); ("trace", trace)] extensions.

Definition busyCpuImpl (inputNodeId : string) (opts : value) : M S string :=
  lift (assertNotUndefined opts "busyCpu(opts)") ;;
  busyWaitMs ← lift (get_prop opts "busyWaitMs");
  lift (assertNotUndefined busyWaitMs "busyCpu({ busyWaitMs })") ;;
  lift (assertInteger busyWaitMs "busyCpu({ busyWaitMs })") ;;
  '(extensions, rest) ← lift (split_extensions opts);
  lift (checkNoUndefined rest "busyCpu(opts)") ;;
  trace ← lift (check_trace assertStringOrNull opts "busyCpu({ trace })");
  addNode "test::busy_cpu" [inputNodeId]
    [("busy_wait_ms", busyWaitMs); ("trace", trace)] extensions.

Definition sleepImpl (inputNodeId : string) (opts : value) : M S string :=
  lift (assertNotUndefined opts "sleep(opts)") ;;
  durationMs ← lift (get_prop opts "durationMs");
  lift (assertNotUndefined durationMs "sleep({ durationMs })") ;;
  lift (assertInteger durationMs "sleep({ durationMs })") ;;
  '(extensions, rest) ← lift (split_extensions opts);
  lift (checkNoUndefined rest "sleep(opts)") ;;
  trace ← lift (check_trace assertStringOrNull opts "sleep({ trace })");
  failAfterSleep ← lift (get_prop opts "failAfterSleep");
  addNode "test::sleep" [inputNodeId]
    [("duration_ms", durationMs); ("fail_after_sleep", failAfterSleep); ("trace", trace)]
    extensions.
End impls.

(** ** What a context promises *)

(** What a node refers to besides its extensions. *)
Inductive ref :=
| NodeRef (id : string)
| ExprRef (id : string)
| PredRef (id : string).

(** The references in the parameters of the tasks: a parameter [rhs] with a string is
    one to a node, whatever the operator. *)
Definition param_refs (op : string) (params : object) : list ref :=
  match map_get params "rhs" with Some (VString r) => [NodeRef r] | _ => [] end ++
  (if String.eqb op "core::filter" then
     match map_get params "pred_id" with Some (VString p) => [PredRef p] | _ => [] end
   else if String.eqb op "core::vm" then
     match map_get params "expr_id" with Some (VString e) => [ExprRef e] | _ => [] end
   else []).

Definition node_refs (op : string) (inputs : list string) (params : object) : list ref :=
  map NodeRef inputs ++ param_refs op params.

(** References the AST compiler resolves after the plan has run. *)
Definition static_expr_ref (e : string) : Prop := ∃ n, e = "__static_e" +:+ num_to_string n.
Definition static_pred_ref (p : string) : Prop := ∃ n, p = "__static_p" +:+ num_to_string n.

(** [resolves s r]: the reference [r] means something in [s].  An operation keeps the
    invariant and the meaning of every reference, also when it throws; what it returns
    is a new reference. *)
Class TaskContextLaws (S : Type) `{!TaskContext S} := {
  context_ok : S → Prop;
  resolves : S → ref → Prop;
  grows (s s' : S) : Prop := context_ok s' ∧ ∀ r, resolves s r → resolves s' r;
  resolves_static_expr s e : static_expr_ref e → resolves s (ExprRef e);
  resolves_static_pred s p : static_pred_ref p → resolves s (PredRef p);
  addNode_law s0 op inputs params extensions :
    hoare (λ s, s = s0 ∧ context_ok s ∧ Forall (resolves s) (node_refs op inputs params))
      (addNode op inputs params extensions)
      (λ id s, grows s0 s ∧ resolves s (NodeRef id)) (grows s0);
  addExpr_law s0 expr :
    hoare (λ s, s = s0 ∧ context_ok s) (addExpr expr)
      (λ id s, grows s0 s ∧ resolves s (ExprRef id)) (grows s0);
  addPred_law s0 pred :
    hoare (λ s, s = s0 ∧ context_ok s) (addPred pred)
      (λ id s, grows s0 s ∧ resolves s (PredRef id)) (grows s0);
}.

(** ** The implementations against the laws *)

Section against_laws.
Context {S : Type} `{!TaskContext S} `{!TaskContextLaws S}.
Implicit Types (s : S) (opts : value).

(** [m] adds a node when the references [pre] mean something. *)
Definition adds_node (pre : list ref) (m : M S string) : Prop :=
  ∀ s0, hoare (λ s, s = s0 ∧ context_ok s ∧ Forall (resolves s) pre) m
    (λ id s, grows s0 s ∧ resolves s (NodeRef id)) (grows s0).

Lemma grows_refl s : context_ok s → grows s s.
Proof. by split. Qed.

Lemma grows_trans s1 s2 s3 : grows s1 s2 → grows s2 s3 → grows s1 s3.
Proof. intros [_ H1] [? H2]. split; auto. Qed.

Lemma adds_node_lift {A} pre (r : result A) (f : A → M S string) :
  (∀ a, r = Ok a → adds_node pre (f a)) → adds_node pre (lift r ≫= f).
Proof.
  intros H s0. apply hoare_lift_bind; [|intros a Ha; by apply H].
  intros s (-> & ? & _). by apply grows_refl.
Qed.

Lemma adds_node_addNode pre op inputs params extensions :
  (∀ s, Forall (resolves s) pre → Forall (resolves s) (node_refs op inputs params)) →
  adds_node pre (addNode op inputs params extensions).
Proof.
  intros H s0. eapply hoare_weaken; [apply (addNode_law s0)|..]; cbn; auto.
  intros s (-> & ? & ?). auto.
Qed.

(** The table entry in front of the node: a new reference, or a static one. *)
Lemma adds_node_entry pre (mk : string → ref) (b : bool) (static : M S string)
    (entry : M S string) (f : string → M S string) :
  (b = true → ∀ s0, hoare (λ s, s = s0 ∧ context_ok s) static
    (λ id s, s = s0 ∧ context_ok s ∧ resolves s (mk id)) (grows s0)) →
  (∀ s0, hoare (λ s, s = s0 ∧ context_ok s) entry
    (λ id s, grows s0 s ∧ resolves s (mk id)) (grows s0)) →
  (∀ id, adds_node (mk id :: pre) (f id)) →
  adds_node pre ((if b then static else entry) ≫= f).
Proof.
  intros Hstatic Hentry Hf s0.
  eapply (hoare_bind _ _ _ (λ id s, grows s0 s ∧ Forall (resolves s) (mk id :: pre))).
  - intros s (-> & Hok & Hpre). destruct b.
    + specialize (Hstatic eq_refl s0 s0 (conj eq_refl Hok)).
      destruct (static s0) as [[id|x] s']; [|done].
      destruct Hstatic as (-> & ? & ?). split; [by apply grows_refl|by constructor].
    + specialize (Hentry s0 s0 (conj eq_refl Hok)).
      destruct (entry s0) as [[id|x] s']; [|done]. destruct Hentry as [[? Hg] ?].
      split; [by split|]. constructor; [done|]. eapply Forall_impl; eauto.
  - intros id s [Hg Hpre]. specialize (Hf id s s). unfold hoare in Hf.
    destruct (f id s) as [[n|x] s']; destruct Hg as [Hok Hg].
    + destruct Hf as [Hg' ?]; [auto|]. split; [|done].
      by eapply grows_trans; [split|].
    + eapply grows_trans; [by split|]. by apply Hf.
Qed.

(** What [num_to_string] prints is what the static prefix carries. *)
Lemma static_entry (mk : string → ref) (prefix : string) v k :
  (∀ s n, resolves s (mk (prefix +:+ num_to_string n))) →
  has_number v k = true →
  ∀ s0, hoare (λ s, s = s0 ∧ context_ok s)
    (id ← lift (get_prop v k); t ← lift (template id); mret (prefix +:+ t))
    (λ id s, s = s0 ∧ context_ok s ∧ resolves s (mk id)) (grows s0).
Proof.
  intros Hmk Hv s0 s [-> Hok]. unfold has_number in Hv. apply andb_true_iff in Hv as [_ Hv].
  unfold mbind, M_bind, lift. destruct (get_prop v k) as [[]|]; done.
Qed.

Ltac impl :=
  repeat first
    [ apply adds_node_lift; intros ? ?
    | match goal with |- adds_node _ (match ?p with pair _ _ => _ end) => destruct p end
    | apply adds_node_addNode; cbn; intros ? ?; assumption ].

Lemma source_impls_add :
  (∀ opts, adds_node [] (viewerImpl opts)) ∧
  (∀ opts, adds_node [] (fixedSourceImpl opts)).
Proof. split; intros; unfold viewerImpl, fixedSourceImpl; impl. Qed.

Lemma unary_impls_add i opts :
  adds_node [NodeRef i] (followImpl i opts) ∧
  adds_node [NodeRef i] (mediaImpl i opts) ∧
  adds_node [NodeRef i] (recommendationImpl i opts) ∧
  adds_node [NodeRef i] (sortImpl i opts) ∧
  adds_node [NodeRef i] (takeImpl i opts) ∧
  adds_node [NodeRef i] (busyCpuImpl i opts) ∧
  adds_node [NodeRef i] (sleepImpl i opts).
Proof.
  split_and!; unfold followImpl, mediaImpl, recommendationImpl, sortImpl, takeImpl,
    busyCpuImpl, sleepImpl; impl.
Qed.

Lemma filterImpl_adds i opts : adds_node [NodeRef i] (filterImpl i opts).
Proof.
  unfold filterImpl. impl. apply (adds_node_entry _ PredRef).
  - apply static_entry. intros s n. apply resolves_static_pred. by exists n.
  - intros s0. apply addPred_law.
  - intros id. apply adds_node_addNode. cbn. intros s [??]%Forall_cons.
    repeat (constructor; try done). by eapply Forall_inv.
Qed.

Lemma vmImpl_adds i opts : adds_node [NodeRef i] (vmImpl i opts).
Proof.
  unfold vmImpl. impl. apply (adds_node_entry _ ExprRef).
  - apply static_entry. intros s n. apply resolves_static_expr. by exists n.
  - intros s0. apply addExpr_law.
  - intros id. impl. apply adds_node_addNode. cbn. intros s [??]%Forall_cons.
    repeat (constructor; try done). by eapply Forall_inv.
Qed.

(** The right-hand side is a reference of its own. *)
Lemma concatImpl_adds i c r opts :
  get_prop opts "rhs" = Ok (VCandidateSet c r) →
  adds_node [NodeRef i; NodeRef r] (concatImpl i opts).
Proof.
  intros Hr. unfold concatImpl. rewrite Hr. impl.
  match goal with H : Ok (VCandidateSet _ _) = Ok ?a |- _ => injection H as <- end.
  cbn in *. inv_ok. cbn in *. inv_ok. by apply adds_node_addNode.
Qed.
End against_laws.

(** ** The task specifications behind the implementations

    [registry/tasks.toml] lists each task's parameters; the generator emits the
    implementations from it.  [run_task] is the meaning of its templates. *)

Inductive param_type := int_param | endpoint_ref | key_ref_param | expr_id | pred_id | node_ref | other_param.

Record task_param := {
  tsName : string;      (* the name of the option *)
  cppName : string;     (* the name of the node's parameter *)
  type : param_type;
  required : bool;
}.

Record task_spec := {
  op_name : string;
  methodName : string;
  task_params : list task_param;    (* but [trace], which every task has *)
}.

Definition option_path (t : task_spec) (p : task_param) : string :=
  methodName t +:+ "({ " +:+ tsName p +:+ " })".

(** The check a required parameter gets before the node is built. *)
Definition type_check (t : task_spec) (p : task_param) (v : value) : result unit :=
  match type p with
  | key_ref_param => assertKeyToken v (option_path t p)
  | int_param => assertInteger v (option_path t p)
  | node_ref => assertCandidateSet v (option_path t p)
  | endpoint_ref => assertEndpointId v (option_path t p)
  | _ => Ok tt
  end.

Definition check_param (t : task_spec) (opts : value) (p : task_param) : result unit :=
  if required p then
    v ← get_prop opts (tsName p);
    assertNotUndefined v (option_path t p) ;;
    type_check t p v
  else Ok tt.

Section run_task.
Context {S : Type} `{!TaskContext S}.

(** The value the node gets, with a table entry for expressions and predicates. *)
Definition param_value (t : task_spec) (opts : value) (p : task_param) : M S value :=
  v ← lift (get_prop opts (tsName p));
  match type p with
  | expr_id =>
      lift (assertExprInput v (option_path t p)) ;;
      id ← (if isExprPlaceholder v then
              id ← lift (get_prop v "__expr_id"); t ← lift (template id);
              mret ("__static_e" +:+ t)
            else addExpr v);
      mret (VString id)
  | pred_id =>
      lift (assertPredInput v (option_path t p)) ;;
      id ← (if isPredPlaceholder v then
              id ← lift (get_prop v "__pred_id"); t ← lift (template id);
              mret ("__static_p" +:+ t)
            else addPred v);
      mret (VString id)
  | node_ref => f ← lift (get_prop v "getNodeId"); lift (call f)
  | key_ref_param => lift (get_prop v "id")
  | _ => mret v
  end.

Fixpoint param_values (t : task_spec) (opts : value) (ps : list task_param) : M S object :=
  match ps with
  | [] => mret []
  | p :: ps' => v ← param_value t opts p; vs ← param_values t opts ps'; mret ((cppName p, v) :: vs)
  end.

Definition run_task (t : task_spec) (inputs : list string) (opts : value) : M S string :=
  lift (assertNotUndefined opts (methodName t +:+ "(opts)")) ;;
  lift (for_each (check_param t opts) (task_params t)) ;;
  '(extensions, rest) ← lift (split_extensions opts);
  lift (checkNoUndefined rest (methodName t +:+ "(opts)")) ;;
  trace ← lift (check_trace assertStringOrNull opts (methodName t +:+ "({ trace })"));
  params ← param_values t opts (task_params t);
  addNode (op_name t) inputs (params ++ [("trace", trace)]) extensions.
End run_task.

Definition req (ts cpp : string) (ty : param_type) : task_param :=
  {| tsName := ts; cppName := cpp; type := ty; required := true |}.
Definition opt (ts cpp : string) (ty : param_type) : task_param :=
  {| tsName := ts; cppName := cpp; type := ty; required := false |}.
Definition task (op method : string) (ps : list task_param) : task_spec :=
  {| op_name := op; methodName := method; task_params := ps |}.

(** The parameters in [registry/tasks.toml]. *)
Definition viewer_task := task "core::viewer" "viewer" [req "endpoint" "endpoint" endpoint_ref].
Definition fixed_source_task :=
  task "test::fixed_source" "fixedSource" [opt "rowCount" "row_count" int_param].
Definition concat_task := task "core::concat" "concat" [req "rhs" "rhs" node_ref].
Definition filter_task := task "core::filter" "filter" [req "pred" "pred_id" pred_id].
Definition fanout_params : list task_param :=
  [req "endpoint" "endpoint" endpoint_ref; req "fanout" "fanout" int_param].
Definition follow_task := task "core::follow" "follow" fanout_params.
Definition media_task := task "core::media" "media" fanout_params.
Definition recommendation_task := task "core::recommendation" "recommendation" fanout_params.
Definition sort_task :=
  task "core::sort" "sort" [req "by" "by" key_ref_param; opt "order" "order" other_param].
Definition take_task := task "core::take" "take" [req "count" "count" int_param].
Definition vm_task :=
  task "core::vm" "vm" [req "expr" "expr_id" expr_id; req "outKey" "out_key" key_ref_param].
Definition busy_cpu_task :=
  task "test::busy_cpu" "busyCpu" [req "busyWaitMs" "busy_wait_ms" int_param].
Definition sleep_task :=
  task "test::sleep" "sleep"
    [req "durationMs" "duration_ms" int_param; opt "failAfterSleep" "fail_after_sleep" other_param].

Section refinement.
Context {S : Type} `{!TaskContext S}.

Ltac impl_eq :=
  intros; cbv [run_task task_params for_each check_param type_check required type
    param_values param_value option_path methodName op_name tsName cppName
    viewer_task fixed_source_task concat_task filter_task fanout_params follow_task media_task
    recommendation_task sort_task take_task vm_task busy_cpu_task sleep_task task req opt
    viewerImpl fixedSourceImpl concatImpl filterImpl followImpl mediaImpl recommendationImpl
    sortImpl takeImpl vmImpl busyCpuImpl sleepImpl mbind M_bind lift mret M_ret
    result_bind app String.append];
  repeat (case_goal; try done).

(** C13: every generated implementation is the meaning of its task specification: the
    same checks in the same order with the same messages, the same table entries and
    the same node, in every context. *)
Theorem impls_run_task i opts s :
  viewerImpl opts s = run_task viewer_task [] opts s ∧
  fixedSourceImpl opts s = run_task fixed_source_task [] opts s ∧
  concatImpl i opts s = run_task concat_task [i] opts s ∧
  filterImpl i opts s = run_task filter_task [i] opts s ∧
  followImpl i opts s = run_task follow_task [i] opts s ∧
  mediaImpl i opts s = run_task media_task [i] opts s ∧
  recommendationImpl i opts s = run_task recommendation_task [i] opts s ∧
  sortImpl i opts s = run_task sort_task [i] opts s ∧
  takeImpl i opts s = run_task take_task [i] opts s ∧
  vmImpl i opts s = run_task vm_task [i] opts s ∧
  busyCpuImpl i opts s = run_task busy_cpu_task [i] opts s ∧
  sleepImpl i opts s = run_task sleep_task [i] opts s.
Proof. split_and!; impl_eq. Qed.
End refinement.

(** ** The two undefined checks agree *)

Lemma throw_if_eq b msg msg' : throw_if b msg = Ok tt ↔ throw_if b msg' = Ok tt.
Proof. by rewrite !throw_if_Ok. Qed.

(** The generated copy of [checkNoUndefined] accepts what the runtime's accepts. *)
Lemma checkNoUndefined_agrees v : ∀ ctx p,
  checkNoUndefined v ctx = Ok tt ↔ Guards.checkNoUndefined v p = Ok tt.
Proof.
  induction v as [| | | | | | |l IH|o IH| |] using value_ind_nested; intros ctx p; try done; cbn.
  - generalize 0. induction IH as [|v l Hv _ IHl]; intros i; [done|].
    rewrite !bind_Ok_unit. unfold Guards.assertNotUndefined.
    rewrite (throw_if_eq _ _ ("Undefined is not allowed in DSL inputs: " +:+ p +:+ "." +:+ index_key i)).
    rewrite IHl. destruct (is_plain v); [by rewrite Hv|done].
  - induction IH as [|[k v] o Hv _ IHo]; [done|].
    rewrite !bind_Ok_unit. unfold Guards.assertNotUndefined.
    rewrite (throw_if_eq _ _ ("Undefined is not allowed in DSL inputs: " +:+ p +:+ "." +:+ k)).
    rewrite IHo. destruct (is_plain v); [by rewrite Hv|done].
Qed.
