(* ===== verification/PlanCtx.v ===== *)
(** * PlanCtx: the plan authoring API (dsl/packages/runtime/src/plan.ts)

    A [PlanCtx] accumulates nodes, expression and predicate tables, capabilities and
    extensions; [CandidateSet]s are handles on its nodes.  A call that throws keeps
    what it had changed, and a plan may catch it and go on: the theorems hold for
    every sequence of calls, failed ones included. *)

From S2P Require Import Prelude StateMonad Collections JsNumber JsValue TaskImpl Guards.

Record PlanNode := {
  node_id : string;
  op : string;
  inputs : list string;
  params : object;
  extensions : option value;
}.

Record PlanCtx := {
  ctx_id : nat;                                  (* the object's identity *)
  nodeCounter : nat;
  nodes : list PlanNode;
  exprTable : list (string * value);
  predTable : list (string * value);
  capabilitiesRequired : list string;            (* a Set, in insertion order *)
  planExtensions : list (string * value);
}.

(** [new PlanCtx()] *)
Definition new_ctx (id : nat) : PlanCtx :=
  {| ctx_id := id; nodeCounter := 0; nodes := []; exprTable := []; predTable := [];
     capabilitiesRequired := []; planExtensions := [] |}.

Definition with_nodeCounter n s :=
  {| ctx_id := ctx_id s; nodeCounter := n; nodes := nodes s; exprTable := exprTable s;
     predTable := predTable s; capabilitiesRequired := capabilitiesRequired s;
     planExtensions := planExtensions s |}.
Definition with_nodes ns s :=
  {| ctx_id := ctx_id s; nodeCounter := nodeCounter s; nodes := ns; exprTable := exprTable s;
     predTable := predTable s; capabilitiesRequired := capabilitiesRequired s;
     planExtensions := planExtensions s |}.
Definition with_exprTable t s :=
  {| ctx_id := ctx_id s; nodeCounter := nodeCounter s; nodes := nodes s; exprTable := t;
     predTable := predTable s; capabilitiesRequired := capabilitiesRequired s;
     planExtensions := planExtensions s |}.
Definition with_predTable t s :=
  {| ctx_id := ctx_id s; nodeCounter := nodeCounter s; nodes := nodes s;
     exprTable := exprTable s; predTable := t; capabilitiesRequired := capabilitiesRequired s;
     planExtensions := planExtensions s |}.
Definition with_capabilities cs s :=
  {| ctx_id := ctx_id s; nodeCounter := nodeCounter s; nodes := nodes s;
     exprTable := exprTable s; predTable := predTable s; capabilitiesRequired := cs;
     planExtensions := planExtensions s |}.
Definition with_planExtensions es s :=
  {| ctx_id := ctx_id s; nodeCounter := nodeCounter s; nodes := nodes s;
     exprTable := exprTable s; predTable := predTable s;
     capabilitiesRequired := capabilitiesRequired s; planExtensions := es |}.

(** ** Nodes and tables *)

Definition allocateNodeId : M PlanCtx string :=
  s ← get;
  modify (with_nodeCounter (S (nodeCounter s))) ;;
  mret ("n" +:+ pretty (nodeCounter s)).

Definition push_node (n : PlanNode) : M PlanCtx unit := modify (λ s, with_nodes (nodes s ++ [n]) s).

#[export] Instance PlanCtx_context : TaskContext PlanCtx := {|
  addNode op inputs params extensions :=
    nodeId ← allocateNodeId;
    extensions ←
      (if is_undefined extensions then mret None
       else
         ks ← lift (keys extensions);
         match ks with
         | [] => mret None
         | _ =>
             lift (checkNoUndefined extensions ("node[" +:+ nodeId +:+ "].extensions")) ;;
             mret (Some extensions)
         end);
    push_node {| node_id := nodeId; op := op; inputs := inputs; params := params;
                 extensions := extensions |} ;;
    mret nodeId;
  addExpr expr :=
    s ← get;
    let exprId := "e" +:+ pretty (length (exprTable s)) in
    modify (with_exprTable (map_set (exprTable s) exprId expr)) ;;
    mret exprId;
  addPred pred :=
    s ← get;
    let predId := "p" +:+ pretty (length (predTable s)) in
    modify (with_predTable (map_set (predTable s) predId pred)) ;;
    mret predId;
|}.

(** [new CandidateSet(ctx, nodeId)] *)
Definition new_candidate_set (nodeId : string) : M PlanCtx value :=
  s ← get; mret (VCandidateSet (ctx_id s) nodeId).

(** ** Sources *)

Definition viewer (opts : value) : M PlanCtx value :=
  lift (assertNotUndefined opts "viewer(opts)") ;;
  endpoint ← lift (get_prop opts "endpoint");
  lift (assertNotUndefined endpoint "viewer({ endpoint })") ;;
  lift (assertEndpointId endpoint "viewer({ endpoint })") ;;
  '(extensions, rest) ← lift (split_extensions opts);
  lift (checkNoUndefined rest "viewer(opts)") ;;
  trace ← lift (check_trace assertStringOrNull opts "viewer({ trace })");
  nodeId ← addNode "core::viewer" [] [("endpoint", endpoint); ("trace", trace)] extensions;
  new_candidate_set nodeId.

Definition fixedSource (opts : value) : M PlanCtx value :=
  lift (assertNotUndefined opts "fixedSource(opts)") ;;
  '(extensions, rest) ← lift (split_extensions opts);
  lift (checkNoUndefined rest "fixedSource(opts)") ;;
  trace ← lift (check_trace assertStringOrNull opts "fixedSource({ trace })");
  rowCount ← lift (get_prop opts "rowCount");
  nodeId ← addNode "test::fixed_source" [] [("row_count", rowCount); ("trace", trace)] extensions;
  new_candidate_set nodeId.

(** ** Methods of [CandidateSet] and of its [test] namespace *)

Definition vm (nodeId : string) (opts : value) : M PlanCtx value :=
  newNodeId ← vmImpl nodeId opts; new_candidate_set newNodeId.
Definition filter_ (nodeId : string) (opts : value) : M PlanCtx value :=
  newNodeId ← filterImpl nodeId opts; new_candidate_set newNodeId.
Definition sort (nodeId : string) (opts : value) : M PlanCtx value :=
  newNodeId ← sortImpl nodeId opts; new_candidate_set newNodeId.
Definition media (nodeId : string) (opts : value) : M PlanCtx value :=
  newNodeId ← mediaImpl nodeId opts; new_candidate_set newNodeId.
Definition follow (nodeId : string) (opts : value) : M PlanCtx value :=
  newNodeId ← followImpl nodeId opts; new_candidate_set newNodeId.
Definition recommendation (nodeId : string) (opts : value) : M PlanCtx value :=
  newNodeId ← recommendationImpl nodeId opts; new_candidate_set newNodeId.
Definition take (nodeId : string) (opts : value) : M PlanCtx value :=
  newNodeId ← takeImpl nodeId opts; new_candidate_set newNodeId.
Definition sleep (nodeId : string) (opts : value) : M PlanCtx value :=
  newNodeId ← sleepImpl nodeId opts; new_candidate_set newNodeId.
Definition busyCpu (nodeId : string) (opts : value) : M PlanCtx value :=
  newNodeId ← busyCpuImpl nodeId opts; new_candidate_set newNodeId.

(** [opts.rhs.ctx !== this.ctx] *)
Definition same_ctx (v : value) (id : nat) : bool :=
  match v with VPlanCtx i => Nat.eqb i id | _ => false end.

Definition concat (nodeId : string) (opts : value) : M PlanCtx value :=
  lift (assertNotUndefined opts "concat(opts)") ;;
  rhs ← lift (get_prop opts "rhs");
  lift (assertNotUndefined rhs "concat({ rhs })") ;;
  ctx ← lift (get_prop rhs "ctx");
  s ← get;
  lift (throw_if (negb (same_ctx ctx (ctx_id s)))
    "concat: CandidateSets must belong to the same PlanCtx") ;;
  newNodeId ← concatImpl nodeId opts; new_candidate_set newNodeId.

(** ** Capabilities

    [capId] has the type that plan.ts declares: the set of identifiers is one of strings,
    which [finalize] sorts.  (Plans are not type-checked when they are compiled; an
    identifier that is no string is refused by the artifact's validation,
    ArtifactValidation.v.) *)

Definition requireCapability (capId : string) (payload : value) : M PlanCtx unit :=
  lift (assertNotUndefined (VString capId) "requireCapability(capId)") ;;
  lift (throw_if (String.length capId =? 0) "Capability ID cannot be empty") ;;
  modify (λ s, with_capabilities (string_set_add (capabilitiesRequired s) capId) s) ;;
  if is_undefined payload then mret tt
  else
    lift (assertNotUndefined payload ("requireCapability(" +:+ quoted capId +:+ ", payload)")) ;;
    lift (if is_plain payload
          then checkNoUndefined payload ("extensions[" +:+ quoted capId +:+ "]") else Ok tt) ;;
    modify (λ s, with_planExtensions (map_set (planExtensions s) capId payload) s).

(** ** The artifact *)

Definition node_value (n : PlanNode) : value :=
  VObject
    ([("node_id", VString (node_id n)); ("op", VString (op n));
      ("inputs", VArray (map VString (inputs n))); ("params", VObject (params n))]
     ++ match extensions n with Some e => [("extensions", e)] | None => [] end).

(** A member that is only there when the collection has entries. *)
Definition optional_member {A} (l : list A) (name : string) (v : value) : object :=
  match l with [] => [] | _ => [(name, v)] end.

Definition finalize (s : PlanCtx) (outputNodeId planName : value) : value :=
  VObject
    ([("schema_version", VNumber (num 1)); ("plan_name", planName);
      ("nodes", VArray (map node_value (nodes s))); ("outputs", VArray [outputNodeId])]
     ++ optional_member (exprTable s) "expr_table" (VObject (from_entries (exprTable s)))
     ++ optional_member (predTable s) "pred_table" (VObject (from_entries (predTable s)))
     ++ optional_member (capabilitiesRequired s) "capabilities_required"
          (VArray (map VString (sort_strings (capabilitiesRequired s))))
     ++ optional_member (planExtensions s) "extensions" (VObject (from_entries (planExtensions s)))).

(** ** definePlan

    [build] is the plan's code, which sees the new context; [emitFn] is
    [globalThis.__emitPlan] when the sandbox has set it to a function, acting on the
    sandbox's state [W]; [id] is the identity of the context created. *)

Definition definePlan {W} (emitFn : option (value → M W unit)) (id : nat)
    (spec : value) (build : M PlanCtx value) : M W (value * value) :=
  lift (assertNotUndefined spec "definePlan(spec)") ;;
  name ← lift (get_prop spec "name");
  lift (assertNotUndefined name "definePlan({ name })") ;;
  build_fn ← lift (get_prop spec "build");
  lift (assertNotUndefined build_fn "definePlan({ build })") ;;
  lift (checkNoUndefined spec "definePlan(spec)") ;;
  match emitFn with
  | Some emit =>
      lift (if String.eqb (typeof build_fn) "function" then Ok tt else Throw TypeError) ;;
      let (r, ctx) := build (new_ctx id) in
      result ← lift r;
      getNodeId ← lift (get_prop result "getNodeId");
      output ← lift (call getNodeId);
      emit (finalize ctx output name)
  | None => mret tt
  end ;;
  mret (name, build_fn).

(** ** The invariant *)

Definition node_num (k : nat) : string := "n" +:+ pretty k.
Definition expr_num (k : nat) : string := "e" +:+ pretty k.
Definition pred_num (k : nat) : string := "p" +:+ pretty k.

Definition ref_resolves (s : PlanCtx) (known : list PlanNode) (r : ref) : Prop :=
  match r with
  | NodeRef id => id ∈ map node_id known
  | ExprRef e => e ∈ (exprTable s).*1 ∨ static_expr_ref e
  | PredRef p => p ∈ (predTable s).*1 ∨ static_pred_ref p
  end.

Record plan_ok (s : PlanCtx) : Prop := {
  (* ids are issued in increasing order, possibly with gaps *)
  ok_ids : ∃ ks, map node_id (nodes s) = map node_num ks ∧
    StronglySorted lt ks ∧ Forall (λ k, k < nodeCounter s) ks;
  (* a node refers to earlier nodes and to entries of the tables *)
  ok_refs : ∀ i n, nodes s !! i = Some n →
    Forall (ref_resolves s (firstn i (nodes s))) (node_refs (op n) (inputs n) (params n));
  (* node extensions are objects without undefined values, and not empty *)
  ok_extensions : ∀ n e, n ∈ nodes s → extensions n = Some e →
    keys e ≠ Ok [] ∧ checkNoUndefined e "extensions" = Ok tt;
  ok_exprs : (exprTable s).*1 = map expr_num (seq 0 (length (exprTable s)));
  ok_preds : (predTable s).*1 = map pred_num (seq 0 (length (predTable s)));
  ok_capabilities : NoDup (capabilitiesRequired s) ∧ EmptyString ∉ capabilitiesRequired s;
  ok_plan_extensions : NoDup (planExtensions s).*1 ∧
    ∀ k, k ∈ (planExtensions s).*1 → k ∈ capabilitiesRequired s;
}.

Lemma new_ctx_ok id : plan_ok (new_ctx id).
Proof.
  split; cbn; try done.
  - exists []. repeat constructor.
  - intros n e Hn. by apply elem_of_nil in Hn.
  - split; [constructor|]. by intros H%elem_of_nil.
  - split; [constructor|]. by intros k H%elem_of_nil.
Qed.

(** The part of the state references depend on only grows. *)
Record extends (s s' : PlanCtx) : Prop := {
  ext_ctx : ctx_id s' = ctx_id s;
  ext_nodes : nodes s `prefix_of` nodes s';
  ext_exprs : (exprTable s).*1 ⊆ (exprTable s').*1;
  ext_preds : (predTable s).*1 ⊆ (predTable s').*1;
}.

#[export] Instance extends_preorder : PreOrder extends.
Proof.
  split.
  - by intros s.
  - intros s1 s2 s3 [] []. split; [congruence|by etrans|by etrans|by etrans].
Qed.

Lemma ref_resolves_mono s s' known known' r :
  extends s s' → known `prefix_of` known' → ref_resolves s known r → ref_resolves s' known' r.
Proof.
  intros [] [l ->]. destruct r; cbn; [|naive_solver..].
  rewrite map_app. set_solver.
Qed.

Definition plan_resolves (s : PlanCtx) (r : ref) : Prop := ref_resolves s (nodes s) r.

Lemma plan_resolves_mono s s' r : extends s s' → plan_resolves s r → plan_resolves s' r.
Proof. intros H. apply ref_resolves_mono; [done|]. by destruct H. Qed.

(** Updates that leave the nodes alone. *)
Lemma plan_ok_frame s s' :
  extends s s' → nodes s' = nodes s → nodeCounter s ≤ nodeCounter s' →
  (exprTable s').*1 = map expr_num (seq 0 (length (exprTable s'))) →
  (predTable s').*1 = map pred_num (seq 0 (length (predTable s'))) →
  (NoDup (capabilitiesRequired s') ∧ EmptyString ∉ capabilitiesRequired s') →
  (NoDup (planExtensions s').*1 ∧
    ∀ k, k ∈ (planExtensions s').*1 → k ∈ capabilitiesRequired s') →
  plan_ok s → plan_ok s'.
Proof.
  intros Hext Hn Hc He Hp Hcap Hpe Hok. split; auto; rewrite Hn.
  - destruct (ok_ids _ Hok) as (ks & Hks & Hs & Hb). exists ks.
    split_and!; [done|done|]. eapply Forall_impl; [done|]. cbn. lia.
  - intros i n Hi. eapply Forall_impl; [by apply (ok_refs _ Hok)|]. intros r.
    by apply ref_resolves_mono.
  - apply Hok.
Qed.

Lemma push_node_ok s n :
  plan_ok s → (∃ k, node_id n = node_num k ∧ k < nodeCounter s ∧
    ∀ j, j ∈ map node_id (nodes s) → ∃ i, j = node_num i ∧ i < k) →
  Forall (plan_resolves s) (node_refs (op n) (inputs n) (params n)) →
  (∀ e, extensions n = Some e →
    keys e ≠ Ok [] ∧ checkNoUndefined e "extensions" = Ok tt) →
  plan_ok (with_nodes (nodes s ++ [n]) s).
Proof.
  intros Hok (k & Hid & Hk & Hlt) Hn He. split; cbn; try by apply Hok.
  - destruct (ok_ids _ Hok) as (ks & Hks & Hs & Hb). exists (ks ++ [k]).
    rewrite !map_app, Hks. cbn. rewrite Hid. split_and!; [done| |].
    + apply StronglySorted_app_2; [|done|repeat constructor].
      intros i j Hi ->%list_elem_of_singleton. destruct (Hlt (node_num i)) as (i' & E & ?).
      * rewrite Hks. by apply (list_elem_of_fmap_2 node_num).
      * by apply (inj (String.append "n")), (inj pretty) in E as ->.
    + apply Forall_app. split; [done|]. by repeat constructor.
  - intros i m Hm. assert (extends s (with_nodes (nodes s ++ [n]) s)) as Hx.
    { split; cbn; try done. by apply prefix_app_r. }
    apply lookup_app_Some in Hm as [Hm|[Hi Hm]].
    + rewrite take_app_le by (apply lookup_lt_Some in Hm; lia).
      eapply Forall_impl; [by apply (ok_refs _ Hok)|]. intros r. by apply ref_resolves_mono.
    + apply list_lookup_singleton_Some in Hm as [Hi' ->].
      assert (i = length (nodes s)) as -> by lia. rewrite take_app_length.
      eapply Forall_impl; [done|]. intros r. by apply ref_resolves_mono.
  - intros m e [Hm| ->%list_elem_of_singleton]%elem_of_app; [by apply Hok|auto].
Qed.

(** ** The context keeps its promises *)

Definition plan_grows (s s' : PlanCtx) : Prop :=
  plan_ok s' ∧ ∀ r, plan_resolves s r → plan_resolves s' r.

Lemma plan_grows_extends s s' : plan_ok s' → extends s s' → plan_grows s s'.
Proof. intros ? H. split; [done|]. intros r. by apply plan_resolves_mono. Qed.

Lemma numbered_fresh (f : nat → string) (n : nat) :
  Inj (=) (=) f → f n ∉ map f (seq 0 n).
Proof. intros Hf (m & E%(inj f) & [??]%elem_of_seq)%list_elem_of_fmap. lia. Qed.

Lemma numbered_snoc (f : nat → string) (t : list (string * value)) v :
  Inj (=) (=) f →
  t.*1 = map f (seq 0 (length t)) →
  map_set t (f (length t)) v = t ++ [(f (length t), v)] ∧
  (t ++ [(f (length t), v)]).*1 = map f (seq 0 (length (t ++ [(f (length t), v)]))).
Proof.
  intros Hf Ht. split.
  - apply map_set_fresh. rewrite Ht. by apply numbered_fresh.
  - rewrite fmap_app, length_app, Ht, seq_app, map_app. done.
Qed.

#[export] Instance node_num_inj : Inj (=) (=) node_num.
Proof. by intros i j E%(inj (String.append "n"))%(inj pretty). Qed.
#[export] Instance expr_num_inj : Inj (=) (=) expr_num.
Proof. by intros i j E%(inj (String.append "e"))%(inj pretty). Qed.
#[export] Instance pred_num_inj : Inj (=) (=) pred_num.
Proof. by intros i j E%(inj (String.append "p"))%(inj pretty). Qed.

Lemma checkNoUndefined_any_path v p q :
  checkNoUndefined v p = Ok tt → checkNoUndefined v q = Ok tt.
Proof. by rewrite !checkNoUndefined_entries. Qed.

Lemma count_ok s :
  plan_ok s → let s' := with_nodeCounter (S (nodeCounter s)) s in plan_ok s' ∧ extends s s'.
Proof.
  intros Hok. assert (extends s (with_nodeCounter (S (nodeCounter s)) s)) by by split.
  split; [|done]. eapply plan_ok_frame; eauto; cbn; [lia|apply Hok..].
Qed.

(** The node [addNode] pushes after it has allocated the id. *)
Lemma addNode_push s op inputs params extensions :
  plan_ok s → Forall (plan_resolves s) (node_refs op inputs params) →
  (∀ e, extensions = Some e → keys e ≠ Ok [] ∧ checkNoUndefined e "extensions" = Ok tt) →
  let id := node_num (nodeCounter s) in
  let s1 := with_nodeCounter (S (nodeCounter s)) s in
  let n := {| node_id := id; op := op; inputs := inputs; params := params;
              extensions := extensions |} in
  let s' := with_nodes (nodes s ++ [n]) s1 in
  plan_grows s s' ∧ plan_resolves s' (NodeRef id).
Proof.
  intros Hok Hrefs He id s1 n s'. destruct (count_ok s Hok) as [Hok1 Hx1].
  split.
  - apply plan_grows_extends.
    + apply (push_node_ok s1 n Hok1); [|by eapply Forall_impl|done].
      exists (nodeCounter s). split_and!; [done|cbn; lia|].
      destruct (ok_ids _ Hok) as (ks & Hks & _ & Hb). change (nodes s1) with (nodes s).
      rewrite Hks. intros j (i & -> & Hi)%list_elem_of_fmap. rewrite Forall_forall in Hb. eauto.
    + split; cbn; try done. by apply prefix_app_r.
  - cbn. rewrite map_app. apply elem_of_app. right. by apply list_elem_of_singleton.
Qed.

Lemma PlanCtx_addNode s0 op inputs params extensions :
  hoare (λ s, s = s0 ∧ plan_ok s ∧ Forall (plan_resolves s) (node_refs op inputs params))
    (addNode op inputs params extensions)
    (λ id s, plan_grows s0 s ∧ plan_resolves s (NodeRef id)) (plan_grows s0).
Proof.
  intros s (-> & Hok & Hrefs). destruct (count_ok s0 Hok) as [Hok1 Hx1].
  pose proof (addNode_push s0 op inputs params) as Hpush.
  pose proof (plan_grows_extends s0 _ Hok1 Hx1) as Hthrow.
  cbn. unfold allocateNodeId, push_node, get, modify, lift, mbind, M_bind, mret, M_ret.
  fold (node_num (nodeCounter s0)).
  destruct (is_undefined extensions); [by apply Hpush|].
  destruct (keys extensions) as [[|k ks]|x] eqn:Hkeys; [by apply Hpush| |done].
  destruct (checkNoUndefined _ _) as [[]|x] eqn:Hc; [|done].
  apply Hpush; [done..|]. intros e [= <-]. split; [congruence|].
  by eapply checkNoUndefined_any_path.
Qed.

Lemma PlanCtx_addExpr s0 expr :
  hoare (λ s, s = s0 ∧ plan_ok s) (addExpr expr)
    (λ id s, plan_grows s0 s ∧ plan_resolves s (ExprRef id)) (plan_grows s0).
Proof.
  intros s (-> & Hok). cbv [addExpr PlanCtx_context mbind M_bind get modify mret M_ret].
  destruct (numbered_snoc expr_num (exprTable s0) expr _ (ok_exprs _ Hok)) as [Hset Hdom].
  change ("e" +:+ pretty (length (exprTable s0))) with (expr_num (length (exprTable s0))).
  rewrite Hset. split.
  - assert (extends s0 (with_exprTable
      (exprTable s0 ++ [(expr_num (length (exprTable s0)), expr)]) s0)) as Hx.
    { split; cbn; try done. rewrite fmap_app. set_solver. }
    apply plan_grows_extends; [|done]. eapply plan_ok_frame; eauto; cbn; apply Hok.
  - left. cbn [with_exprTable with_predTable exprTable predTable]. rewrite fmap_app. apply elem_of_app. right. by apply list_elem_of_singleton.
Qed.

Lemma PlanCtx_addPred s0 pred :
  hoare (λ s, s = s0 ∧ plan_ok s) (addPred pred)
    (λ id s, plan_grows s0 s ∧ plan_resolves s (PredRef id)) (plan_grows s0).
Proof.
  intros s (-> & Hok). cbv [addPred PlanCtx_context mbind M_bind get modify mret M_ret].
  destruct (numbered_snoc pred_num (predTable s0) pred _ (ok_preds _ Hok)) as [Hset Hdom].
  change ("p" +:+ pretty (length (predTable s0))) with (pred_num (length (predTable s0))).
  rewrite Hset. split.
  - assert (extends s0 (with_predTable
      (predTable s0 ++ [(pred_num (length (predTable s0)), pred)]) s0)) as Hx.
    { split; cbn; try done. rewrite fmap_app. set_solver. }
    apply plan_grows_extends; [|done]. eapply plan_ok_frame; eauto; cbn; apply Hok.
  - left. cbn [with_exprTable with_predTable exprTable predTable]. rewrite fmap_app. apply elem_of_app. right. by apply list_elem_of_singleton.
Qed.

#[export] Program Instance PlanCtx_laws : TaskContextLaws PlanCtx := {|
  context_ok := plan_ok;
  resolves := plan_resolves;
  addNode_law := PlanCtx_addNode;
  addExpr_law := PlanCtx_addExpr;
  addPred_law := PlanCtx_addPred;
|}.
Next Obligation. by right. Qed.
Next Obligation. by right. Qed.

(** ** Every plan *)

Inductive method :=
| Vm | Filter | Sort | Media | Follow | Recommendation | Take | Concat | Sleep | BusyCpu.

#[export] Instance method_eq_dec : EqDecision method.
Proof. solve_decision. Defined.

Inductive api_call :=
| Viewer (opts : value)
| FixedSource (opts : value)
| Method (m : method) (receiver : string) (opts : value)
| RequireCapability (capId : string) (payload : value)
| AddNode (op : string) (inputs : list string) (params : object) (extensions : value)
| AddExpr (expr : value)
| AddPred (pred : value).

Definition method_of (m : method) : string → value → M PlanCtx value :=
  match m with
  | Vm => vm | Filter => filter_ | Sort => sort | Media => media | Follow => follow
  | Recommendation => recommendation | Take => take | Concat => concat | Sleep => sleep
  | BusyCpu => busyCpu
  end.

Definition run (c : api_call) : M PlanCtx value :=
  match c with
  | Viewer opts => viewer opts
  | FixedSource opts => fixedSource opts
  | Method m receiver opts => method_of m receiver opts
  | RequireCapability capId payload => requireCapability capId payload ;; mret VUndefined
  | AddNode op inputs params extensions =>
      nodeId ← addNode op inputs params extensions; mret (VString nodeId)
  | AddExpr expr => exprId ← addExpr expr; mret (VString exprId)
  | AddPred pred => predId ← addPred pred; mret (VString predId)
  end.

(** What a plan may do.  A method is called on a handle of the context.  Only a [CandidateSet] has a context in [ctx], and one of this context is a handle
    it has issued: [ctx] and [nodeId] are private fields.  [addNode] is public and checks
    nothing: a plan that calls it itself has to refer to what is there. *)
Definition genuine (s : PlanCtx) (v : value) : Prop :=
  ∀ i, get_prop v "ctx" = Ok (VPlanCtx i) →
    ∃ n, v = VCandidateSet i n ∧ (i = ctx_id s → plan_resolves s (NodeRef n)).

Definition call_ok (s : PlanCtx) (c : api_call) : Prop :=
  match c with
  | Method m receiver opts =>
      plan_resolves s (NodeRef receiver) ∧
      ∀ rhs, get_prop opts "rhs" = Ok rhs → genuine s rhs
  | AddNode op inputs params _ => Forall (plan_resolves s) (node_refs op inputs params)
  | _ => True
  end.

(** The states of a context under the calls a plan makes, whether they return or
    throw. *)
Inductive reachable (id : nat) : PlanCtx → Prop :=
| reachable_new : reachable id (new_ctx id)
| reachable_call s c r s' :
    reachable id s → call_ok s c → run c s = (r, s') → reachable id s'.

(** ** Calls keep the invariant and return handles *)

(** A [CandidateSet] of this context, on one of its nodes. *)
Definition handle (s : PlanCtx) (v : value) : Prop :=
  ∃ n, v = VCandidateSet (ctx_id s) n ∧ plan_resolves s (NodeRef n).

Definition makes_set (pre : list ref) (m : M PlanCtx value) : Prop :=
  ∀ s0, hoare (λ s, s = s0 ∧ plan_ok s ∧ Forall (plan_resolves s) pre) m
    (λ v s, plan_grows s0 s ∧ handle s v) (plan_grows s0).

Lemma plan_grows_refl s : plan_ok s → plan_grows s s.
Proof. by split. Qed.

Lemma makes_set_lift {A} pre (r : result A) (f : A → M PlanCtx value) :
  (∀ a, r = Ok a → makes_set pre (f a)) → makes_set pre (lift r ≫= f).
Proof.
  intros H s0. apply hoare_lift_bind; [|intros a Ha; by apply H].
  intros s (-> & ? & _). by apply plan_grows_refl.
Qed.

Lemma makes_set_node pre (m : M PlanCtx string) :
  adds_node pre m → makes_set pre (n ← m; new_candidate_set n).
Proof.
  intros H s0. eapply (hoare_bind _ _ _ (λ n s, plan_grows s0 s ∧ plan_resolves s (NodeRef n))).
  - apply H.
  - intros n s [Hg Hn]. cbn. split; [done|]. by exists n.
Qed.

Ltac sets :=
  repeat first
    [ apply makes_set_lift; intros ? ?
    | match goal with |- makes_set _ (match ?p with pair _ _ => _ end) => destruct p end
    | apply makes_set_node, adds_node_addNode; cbn; intros ? ?; assumption ].

Lemma sources_make : (∀ opts, makes_set [] (viewer opts)) ∧ (∀ opts, makes_set [] (fixedSource opts)).
Proof. split; intros; unfold viewer, fixedSource; sets. Qed.

Lemma methods_make m i opts :
  m ≠ Concat → makes_set [NodeRef i] (method_of m i opts).
Proof.
  intros Hm. pose proof (unary_impls_add i opts) as Hu. destruct_and! Hu.
  destruct m; cbn; try done; apply makes_set_node; try done.
  - apply vmImpl_adds.
  - apply filterImpl_adds.
Qed.

Lemma same_ctx_true v id : same_ctx v id = true → v = VPlanCtx id.
Proof. destruct v; try done. cbn. by intros ->%Nat.eqb_eq. Qed.

(** What [concat] does, given that its operand is genuine. *)
Lemma concat_makes s0 i opts :
  plan_ok s0 → plan_resolves s0 (NodeRef i) →
  (∀ rhs, get_prop opts "rhs" = Ok rhs → genuine s0 rhs) →
  match concat i opts s0 with
  | (Ok v, s) => plan_grows s0 s ∧ handle s v
  | (Throw _, s) => plan_grows s0 s
  end.
Proof.
  intros Hok Hi Hg. pose proof (plan_grows_refl _ Hok) as Hr.
  unfold concat. cbv [mbind M_bind lift get].
  destruct (assertNotUndefined opts _); [|done].
  destruct (get_prop opts "rhs") as [rhs|] eqn:Hrhs; [|done].
  destruct (assertNotUndefined rhs _); [|done].
  destruct (get_prop rhs "ctx") as [c|] eqn:Hc; [|done].
  destruct (same_ctx c (ctx_id s0)) eqn:Hs; [|done]. cbn [negb throw_if].
  apply same_ctx_true in Hs as ->.
  destruct (Hg _ eq_refl _ Hc) as (n & -> & Hn).
  pose proof (makes_set_node _ _ (concatImpl_adds i _ _ _ Hrhs)) as Hm.
  apply (Hm s0 s0). split_and!; [done..|]. repeat constructor; auto.
Qed.

Lemma requireCapability_grows s0 capId payload :
  plan_ok s0 →
  match requireCapability capId payload s0 with (_, s) => plan_grows s0 s end.
Proof.
  intros Hok. unfold requireCapability. cbv [mbind M_bind lift modify mret M_ret].
  cbn [assertNotUndefined is_undefined throw_if].
  destruct (String.length capId =? 0) eqn:Hl; cbn [throw_if]; [by apply plan_grows_refl|].
  set (s1 := with_capabilities _ s0).
  assert (extends s0 s1) as Hx1 by by split.
  assert (plan_ok s1) as Hok1.
  { eapply plan_ok_frame; eauto; cbn; try apply Hok.
    - split; [apply string_set_add_NoDup, Hok|].
      intros [Hin|<-]%string_set_add_elem_of; [by apply Hok in Hin|done].
    - split; [apply Hok|]. intros k Hk. apply string_set_add_elem_of. left. by apply Hok. }
  pose proof (plan_grows_extends _ _ Hok1 Hx1).
  destruct (is_undefined payload); [done|]. destruct (assertNotUndefined payload _); [|done].
  destruct (if is_plain payload then _ else _); [|done].
  apply plan_grows_extends; [|by split].
  apply (plan_ok_frame s1); [by split|done|done|apply Hok1|apply Hok1|apply Hok1| |done].
  split; [apply map_set_NoDup, Hok|].
  intros k [Hk| ->]%map_set_keys; apply string_set_add_elem_of; [left; by apply Hok|by right].
Qed.

(** What a call gives: a handle, or the id of a node or of a table entry. *)
Definition given (s : PlanCtx) (c : api_call) (v : value) : Prop :=
  match c with
  | RequireCapability _ _ => v = VUndefined
  | AddNode _ _ _ _ => ∃ i, v = VString i ∧ plan_resolves s (NodeRef i)
  | AddExpr _ => ∃ i, v = VString i ∧ i ∈ (exprTable s).*1
  | AddPred _ => ∃ i, v = VString i ∧ i ∈ (predTable s).*1
  | _ => handle s v
  end.

Lemma run_grows s c :
  plan_ok s → call_ok s c →
  match run c s with
  | (Ok v, s') => plan_grows s s' ∧ given s' c v
  | (Throw _, s') => plan_grows s s'
  end.
Proof.
  intros Hok Hc. destruct c as [opts|opts|m i opts|capId payload|o ins ps ext|e|p]; cbn [run].
  - by apply (proj1 sources_make opts s s).
  - by apply (proj2 sources_make opts s s).
  - destruct Hc as [Hi Hg]. destruct (decide (m = Concat)) as [->|Hm].
    + by apply concat_makes.
    + apply (methods_make m i opts Hm s s). split_and!; [done..|]. by repeat constructor.
  - pose proof (requireCapability_grows s capId payload Hok).
    unfold mbind, M_bind, mret, M_ret. by destruct (requireCapability _ _ _) as [[]].
  - pose proof (PlanCtx_addNode s o ins ps ext s (conj eq_refl (conj Hok Hc))) as H.
    unfold mbind, M_bind, mret, M_ret. destruct (addNode o ins ps ext s) as [[i|x] s']; [|done].
    destruct H as [Hg Hi]. split; [done|by exists i].
  - pose proof (PlanCtx_addExpr s e s (conj eq_refl Hok)) as H.
    cbv [addExpr PlanCtx_context mbind M_bind get modify mret M_ret] in H |- *. destruct H as [Hg _].
    split; [exact Hg|]. eexists. split; [done|]. apply map_set_keys. by right.
  - pose proof (PlanCtx_addPred s p s (conj eq_refl Hok)) as H.
    cbv [addPred PlanCtx_context mbind M_bind get modify mret M_ret] in H |- *. destruct H as [Hg _].
    split; [exact Hg|]. eexists. split; [done|]. apply map_set_keys. by right.
Qed.

Lemma reachable_ok id s : reachable id s → plan_ok s.
Proof.
  induction 1 as [|s c r s' _ IH Hc Hr]; [apply new_ctx_ok|].
  pose proof (run_grows s c IH Hc) as H. rewrite Hr in H. destruct r; apply H.
Qed.

(** C1: whatever calls a plan makes (the sources, the methods of its handles,
    [requireCapability], and [addNode], [addExpr] and [addPred] by hand), returning or
    throwing, its context is a DAG in topological order with unique ids: every node's inputs
    and [concat] operand are earlier nodes, and its expression and predicate an entry of the
    tables or a placeholder [__static_e<n>], [__static_p<n>] of one that the compiler has
    extracted and will put there.  A method's receiver is a handle of the context, [rhs] one
    that some context has made, and a node added by hand refers to what is there
    ([call_ok]). *)
Theorem reachable_plan_ok id s : reachable id s → plan_ok s.
Proof. apply reachable_ok. Qed.

(** A plan that forks, filters and joins, with a rejected call in between. *)
Definition ep (s : string) : string * value := ("endpoint", VString s).
Definition sample_calls : list api_call :=
  [ Viewer (VObject [ep "ep_0001"]);
    Method Follow "n0" (VObject [ep "ep_0001"; ("fanout", VNumber (num 10))]);
    Method Media "n0" (VObject [ep "ep_0001"; ("fanout", VNumber (num 3));
                                ("extensions", VObject [("x", VUndefined)])]);
    Method Filter "n1" (VObject [("pred", VObject [("op", VString "const_bool"); ("value", VBool true)])]);
    Method Concat "n1" (VObject [("rhs", VCandidateSet 7 "n3")]);
    RequireCapability "cap.a" (VObject []);
    AddExpr (VObject [("op", VString "const_number"); ("value", VNumber (num 1))]);
    AddNode "core::vm" ["n4"] [("out_key", VNumber (num 1)); ("expr_id", VString "e0"); ("trace", VNull)]
      VUndefined ].
Definition run_all (cs : list api_call) (s : PlanCtx) : PlanCtx :=
  foldl (λ s c, (run c s).2) s cs.

Example sample_nodes :
  map (λ n, (node_id n, inputs n)) (nodes (run_all sample_calls (new_ctx 7))) =
  [("n0", []); ("n1", ["n0"]); ("n3", ["n1"]); ("n4", ["n1"]); ("n5", ["n4"])].
Proof. by vm_compute. Qed.

Fixpoint calls_ok (s : PlanCtx) (cs : list api_call) : Prop :=
  match cs with [] => True | c :: cs' => call_ok s c ∧ calls_ok (run c s).2 cs' end.

Lemma run_all_reachable cs : ∀ id s,
  reachable id s → calls_ok s cs → reachable id (run_all cs s).
Proof.
  induction cs as [|c cs IH]; intros id s Hs Hc; [done|]. destruct Hc as [Hc Hcs].
  apply IH; [|done]. destruct (run c s) as [r s'] eqn:E. by apply (reachable_call id s c r).
Qed.

(** Options without a [CandidateSet] need no condition. *)
Lemma genuine_no_ctx s v :
  (match get_prop v "ctx" with Ok (VPlanCtx _) => False | _ => True end) → genuine s v.
Proof. intros H i Hi. by rewrite Hi in H. Qed.

Lemma sample_calls_ok : calls_ok (new_ctx 7) sample_calls.
Proof.
  unfold sample_calls. cbn [calls_ok call_ok]. split_and!; try done.
  all: try (unfold plan_resolves, ref_resolves; apply (bool_decide_unpack _); by vm_compute).
  all: try (intros rhs [= <-]; by apply genuine_no_ctx).
  2: { cbn [node_refs]. apply Forall_cons_2; [|apply Forall_cons_2; [left|apply Forall_nil_2]];
       unfold plan_resolves, ref_resolves; apply (bool_decide_unpack _); by vm_compute. }
  intros rhs [= <-] i [= <-]. eexists. split; [done|]. intros _.
  unfold plan_resolves, ref_resolves; apply (bool_decide_unpack _); by vm_compute.
Qed.

Lemma reachable_plan_ok_witness :
  reachable 7 (run_all sample_calls (new_ctx 7)) ∧ plan_ok (run_all sample_calls (new_ctx 7)).
Proof.
  assert (reachable 7 (run_all sample_calls (new_ctx 7))) as H.
  { apply run_all_reachable; [constructor|apply sample_calls_ok]. }
  split; [exact H|]. by apply (reachable_plan_ok 7).
Defined.

(** a call that returns gives a handle on a node of the context, or the id of one or of an
    entry of a table, and no call, returning or throwing, invalidates a handle or a table
    reference given out before. *)
Theorem run_handles id s c r s' :
  reachable id s → call_ok s c → run c s = (r, s') →
  (∀ v, r = Ok v → given s' c v) ∧
  ∀ x, plan_resolves s x → plan_resolves s' x.
Proof.
  intros Hok%reachable_ok Hc Hr.
  pose proof (run_grows s c Hok Hc) as H. rewrite Hr in H.
  destruct r as [v|x]; [|split; [done|apply H]]. destruct H as [[_ Hg] Hh].
  split; [|done]. by intros ? [= <-].
Qed.

Lemma run_handles_witness :
  let c := Viewer (VObject [ep "ep_0001"]) in
  ∃ v s', run c (new_ctx 7) = (Ok v, s') ∧ handle s' v.
Proof.
  exists (VCandidateSet 7 "n0"), (run (Viewer (VObject [ep "ep_0001"])) (new_ctx 7)).2.
  split; [by vm_compute|].
  eapply (run_handles 7 (new_ctx 7) (Viewer (VObject [ep "ep_0001"])) (Ok (VCandidateSet 7 "n0")));
    [constructor|done|by vm_compute|reflexivity].
Defined.

(** ** Calls that throw *)

Definition quiet {A} (m : M PlanCtx A) : Prop :=
  ∀ ns, hoare (λ s, nodes s = ns) m (λ _ s, nodes s = ns) (λ s, nodes s = ns).
Definition atomic {A} (m : M PlanCtx A) : Prop :=
  ∀ ns, hoare (λ s, nodes s = ns) m (λ _ _, True) (λ s, nodes s = ns).

Lemma quiet_lift {A} (r : result A) : quiet (lift r).
Proof. intros ns s <-. by destruct r. Qed.
Lemma quiet_ret {A} (a : A) : quiet (mret a).
Proof. by intros ns s <-. Qed.
Lemma quiet_get : quiet get.
Proof. by intros ns s <-. Qed.
Lemma quiet_bind {A B} (m : M PlanCtx A) (f : A → M PlanCtx B) :
  quiet m → (∀ a, quiet (f a)) → quiet (m ≫= f).
Proof. intros Hm Hf ns. eapply hoare_bind; [apply Hm|intros a; apply Hf]. Qed.
Lemma quiet_addExpr e : quiet (addExpr e).
Proof. by intros ns s <-. Qed.
Lemma quiet_addPred p : quiet (addPred p).
Proof. by intros ns s <-. Qed.
Lemma atomic_bind {A B} (m : M PlanCtx A) (f : A → M PlanCtx B) :
  quiet m → (∀ a, atomic (f a)) → atomic (m ≫= f).
Proof. intros Hm Hf ns. eapply hoare_bind; [apply Hm|intros a; apply Hf]. Qed.
Lemma atomic_new {A} (m : M PlanCtx A) (f : A → M PlanCtx value) :
  atomic m → (∀ a s, ∃ v, f a s = (Ok v, s)) → atomic (m ≫= f).
Proof.
  intros Hm Hf ns s Hs. specialize (Hm ns s Hs). unfold mbind, M_bind.
  destruct (m s) as [[a|e] s']; [|done]. by destruct (Hf a s') as [v ->].
Qed.
Lemma atomic_quiet {A} (m : M PlanCtx A) : quiet m → atomic m.
Proof. intros Hm ns. eapply hoare_weaken; [apply (Hm ns)|done..]. Qed.
Lemma atomic_addNode op inputs params extensions : atomic (addNode op inputs params extensions).
Proof.
  intros ns s <-. cbn. unfold allocateNodeId, push_node, get, modify, lift, mbind, M_bind, mret, M_ret.
  destruct (is_undefined extensions); [done|].
  destruct (keys extensions) as [[|k ks]|x]; [done| |done].
  by destruct (checkNoUndefined _ _).
Qed.

Lemma atomic_named (m : M PlanCtx string) : atomic m → atomic (i ← m; mret (VString i)).
Proof.
  intros Hm ns s Hs. specialize (Hm ns s Hs). unfold mbind, M_bind, mret, M_ret.
  by destruct (m s) as [[i|e] s'].
Qed.

#[local] Hint Resolve quiet_lift quiet_ret quiet_get quiet_addExpr quiet_addPred atomic_addNode : js.

Ltac atomics :=
  repeat first
    [ solve [eauto with js]
    | apply quiet_bind; [solve [eauto with js]|intros ?]
    | apply atomic_bind; [solve [eauto with js]|intros ?]
    | match goal with
      | |- atomic (match ?p with pair _ _ => _ end) => destruct p
      | |- atomic ((if _ then _ else _) ≫= _) => apply atomic_bind; [case_match|intros ?]
      end ].

Lemma impls_atomic :
  (∀ i o, atomic (vmImpl i o)) ∧ (∀ i o, atomic (filterImpl i o)) ∧ (∀ i o, atomic (sortImpl i o)) ∧
  (∀ i o, atomic (mediaImpl i o)) ∧ (∀ i o, atomic (followImpl i o)) ∧
  (∀ i o, atomic (recommendationImpl i o)) ∧ (∀ i o, atomic (takeImpl i o)) ∧
  (∀ i o, atomic (concatImpl i o)) ∧ (∀ i o, atomic (sleepImpl i o)) ∧
  (∀ i o, atomic (busyCpuImpl i o)).
Proof. 
  split_and!; intros; unfold vmImpl, filterImpl, sortImpl, mediaImpl, followImpl,
    recommendationImpl, takeImpl, concatImpl, sleepImpl, busyCpuImpl; atomics.
Qed.

(** A call that throws leaves the plan's nodes as they were. *)
Theorem failed_call_adds_no_node c s e s' : run c s = (Throw e, s') → nodes s' = nodes s.
Proof.
  assert (∀ a s, ∃ v, new_candidate_set a s = (Ok v, s)) as Hnew by (intros; by eexists).
  pose proof impls_atomic as Hi. destruct_and! Hi.
  assert (atomic (run c)) as Hrun.
  { destruct c as [opts|opts|m i opts|capId payload|o ins ps ext|e'|p]; cbn [run].
    - unfold viewer. atomics. apply atomic_new; auto with js.
    - unfold fixedSource. atomics. apply atomic_new; auto with js.
    - destruct m; cbn; try by apply atomic_new. unfold concat. atomics. apply atomic_new; auto with js.
    - apply atomic_quiet. intros ns s0 <-. unfold requireCapability.
      cbv [mbind M_bind lift modify mret M_ret]. repeat case_goal; done.
    - apply atomic_named; auto with js.
    - apply atomic_quiet, quiet_bind; auto with js.
    - apply atomic_quiet, quiet_bind; auto with js. }
  intros Hr. specialize (Hrun (nodes s) s eq_refl). by rewrite Hr in Hrun.
Qed.

Lemma failed_call_adds_no_node_witness :
  run (Method Media "n0" (VObject [ep "ep_0001"; ("fanout", VNumber (num 3));
         ("extensions", VObject [("x", VUndefined)])])) (new_ctx 7)
    = (Throw (Error "Undefined is not allowed in DSL inputs: node[n0].extensions.x"),
       with_nodeCounter 1 (new_ctx 7)) ∧
  nodes (with_nodeCounter 1 (new_ctx 7)) = nodes (new_ctx 7).
Proof.
  split; [by vm_compute|].
  apply (failed_call_adds_no_node
    (Method Media "n0" (VObject [ep "ep_0001"; ("fanout", VNumber (num 3));
       ("extensions", VObject [("x", VUndefined)])]))
    (new_ctx 7) (Error "Undefined is not allowed in DSL inputs: node[n0].extensions.x")).
  by vm_compute.
Defined.

(** ** The hand-written sources and the generated ones *)

(** Equal results and states, the messages of exceptions aside. *)
Definition same_outcome {A} (x y : result A * PlanCtx) : Prop :=
  match x, y with
  | (Ok a, s), (Ok b, t) => a = b ∧ s = t
  | (Throw _, s), (Throw _, t) => s = t
  | _, _ => False
  end.

Definition agree (r t : result unit) : Prop := r = Ok tt ↔ t = Ok tt.

Definition same {A} (m m' : M PlanCtx A) : Prop := ∀ s, same_outcome (m s) (m' s).

Lemma same_refl {A} (m : M PlanCtx A) : same m m.
Proof. intros s. by destruct (m s) as [[] ?]. Qed.

(** A shared step in front, and a check that may differ in its message. *)
Lemma same_step {A} (r : result A) f (g : A → M PlanCtx string) k :
  (∀ a, same (f a) (g a ≫= k)) → same (lift r ≫= f) ((lift r ≫= g) ≫= k : M PlanCtx value).
Proof.
  intros H s. unfold mbind, M_bind, lift. destruct r as [a|]; [|done]. apply (H a s).
Qed.
Lemma same_check (r t : result unit) f (g : unit → M PlanCtx string) k :
  agree r t → same (f tt) (g tt ≫= k) →
  same (lift r ≫= f) ((lift t ≫= g) ≫= k : M PlanCtx value).
Proof.
  intros [H1 H2] H s. unfold mbind, M_bind, lift.
  destruct r as [[]|], t as [[]|]; naive_solver.
Qed.

Lemma agree_defined v p c : agree (assertNotUndefined v p) (TaskImpl.assertNotUndefined v c).
Proof. apply throw_if_eq. Qed.

Lemma agree_endpoint v p : agree (assertEndpointId v p) (TaskImpl.assertEndpointId v p).
Proof. by destruct v. Qed.

Lemma agree_checkNoUndefined v p c : agree (checkNoUndefined v p) (TaskImpl.checkNoUndefined v c).
Proof. unfold agree. by rewrite (checkNoUndefined_agrees v c p). Qed.

Ltac sames :=
  repeat first
    [ apply same_refl
    | apply same_check;
        [first [apply agree_defined|apply agree_endpoint|apply agree_checkNoUndefined]|]
    | apply same_step; intros ?
    | match goal with |- same (match ?p with pair _ _ => _ end) _ => destruct p end ].

(** [PlanCtx.viewer] and [test.fixedSource], written by hand, do what the generated
    implementations nobody calls would do: same node, same handle, same failures. *)
Theorem sources_agree opts s :
  same_outcome (viewer opts s) ((viewerImpl opts ≫= new_candidate_set) s) ∧
  same_outcome (fixedSource opts s) ((fixedSourceImpl opts ≫= new_candidate_set) s).
Proof.
  split; revert s; [change (same (viewer opts) (viewerImpl opts ≫= new_candidate_set))
    |change (same (fixedSource opts) (fixedSourceImpl opts ≫= new_candidate_set))].
  all: unfold viewer, viewerImpl, fixedSource, fixedSourceImpl; sames.
Qed.
