(* ===== verification/Capabilities.v ===== *)
(** * Capabilities: the capability registry and payload validation
    (dsl/packages/generated/capabilities.ts)

    [validatePayload] is shown to accept exactly the payloads that conform to the
    schema the registry gives the capability. *)

From S2P Require Import Prelude Collections JsNumber JsValue.

(** ** The registry *)

Definition CAP_RFC_0001 : string := "cap.rfc.0001.extensions_capabilities.v1".
Definition CAP_RFC_0005 : string := "cap.rfc.0005.key_effects_writes_exact.v1".

Definition capability_meta (id rfc name status doc : string) (payload_schema : value) : value :=
  VObject [("id", VString id); ("rfc", VString rfc); ("name", VString name);
           ("status", VString status); ("doc", VString doc); ("payload_schema", payload_schema)].

Definition empty_object_schema : value :=
  VObject [("type", VString "object"); ("additionalProperties", VBool false)].

Definition CapabilityRegistry : value :=
  VObject
    [(CAP_RFC_0001,
      capability_meta CAP_RFC_0001 "0001" "extensions_capabilities" "implemented"
        "Base extensions/capabilities mechanism for IR evolution" empty_object_schema);
     (CAP_RFC_0005,
      capability_meta CAP_RFC_0005 "0005" "key_effects_writes_exact" "draft"
        "Strict shape enforcement for branching meta-tasks (RFC0005)" empty_object_schema)].

Definition ALL_CAPABILITY_IDS : list string := [CAP_RFC_0001; CAP_RFC_0005].
Definition SUPPORTED_CAPABILITIES : list string := [CAP_RFC_0001].

(** ** Payloads

    The result is the error message, or [None] for [null]. *)

(** [value === null ? "null" : Array.isArray(value) ? "array" : typeof value] *)
Definition json_type (v : value) : string :=
  if is_null v then "null" else if isArray v then "array" else typeof v.

Definition strict_false (v : value) : bool := match v with VBool false => true | _ => false end.

(** The members of a value [for ... of] ranges over. *)
Definition iterate (v : value) : result (list value) :=
  match v with
  | VArray l => Ok l
  | VString s => Ok (VString <$> string_chars s)
  | _ => Throw TypeError
  end.

(** [key in v], for a plain object [v] *)
Definition in_object (v : value) (key : string) : bool :=
  match entries v with
  | Ok o => has_prop o key
  | Throw _ => false
  end.

(** The loops: the first message any iteration gives. *)
Fixpoint first_error {A} (f : A → result (option string)) (l : list A) : result (option string) :=
  match l with
  | [] => Ok None
  | x :: l' => e ← f x; match e with Some msg => Ok (Some msg) | None => first_error f l' end
  end.

Definition check_additional (capId : string) (schema payload : value) : result (option string) :=
  additional ← get_prop schema "additionalProperties";
  if strict_false additional then
    properties ← get_prop schema "properties";
    allowed ← (if truthy properties then keys properties else Ok []);
    names ← keys payload;
    first_error (λ key, Ok (if string_set_has (string_set_of allowed) key then None
      else Some ("Capability " +:+ capId +:+ " payload has unexpected property: " +:+ key))) names
  else Ok None.

Definition check_required (capId : string) (schema payload : value) : result (option string) :=
  required ← get_prop schema "required";
  if truthy required then
    names ← iterate required;
    first_error (λ key,
      k ← template key;
      Ok (if in_object payload k then None
          else Some ("Capability " +:+ capId +:+ " payload missing required property: " +:+ k))) names
  else Ok None.

Definition check_property (capId : string) (payload : value) (p : string * value)
    : result (option string) :=
  let (key, propSchema) := p in
  if in_object payload key then
    ty ← get_prop propSchema "type";
    if truthy ty then
      v ← get_prop payload key;
      let actualType := json_type v in
      let expectedType := match ty with
        | VString t => VString (if String.eqb t "integer" then "number" else t)
        | _ => ty
        end in
      if match expectedType with VString e => String.eqb e actualType | _ => false end
      then Ok None
      else
        t ← template ty;
        Ok (Some ("Capability " +:+ capId +:+ " payload property " +:+ key +:+ " must be " +:+
          t +:+ ", got " +:+ actualType))
    else Ok None
  else Ok None.

Definition check_properties (capId : string) (schema payload : value) : result (option string) :=
  properties ← get_prop schema "properties";
  if truthy properties then
    ps ← entries properties;
    first_error (check_property capId payload) ps
  else Ok None.

(** [f] then [g], unless [f] has an error to return. *)
Definition or_else (f g : result (option string)) : result (option string) :=
  e ← f; match e with Some msg => Ok (Some msg) | None => g end.

Definition validate_schema (capId : string) (schema payload : value) : result (option string) :=
  if is_null schema then
    Ok (if negb (is_undefined payload) && negb (is_null payload)
        then Some ("Capability " +:+ capId +:+ " does not allow a payload") else None)
  else
    ty ← get_prop schema "type";
    if match ty with VString s => String.eqb s "object" | _ => false end then
      if negb (is_plain payload)
      then Ok (Some ("Capability " +:+ capId +:+ " payload must be an object"))
      else
        or_else (check_additional capId schema payload)
          (or_else (check_required capId schema payload) (check_properties capId schema payload))
    else Ok None.

Definition validatePayload (capId : string) (payload : value) : result (option string) :=
  meta ← get_prop CapabilityRegistry capId;
  if negb (truthy meta) then Ok (Some ("Unknown capability: " +:+ capId))
  else
    schema ← get_prop meta "payload_schema";
    validate_schema capId schema payload.

(** ** Schemas

    The JSON Schema fragment the registry uses, and what it means. *)

Record schema := {
  properties : list (string * string);        (* name and type *)
  required : list string;
  additionalProperties : bool;
}.

Definition schema_value (s : schema) : value :=
  VObject
    [("type", VString "object");
     ("properties", VObject (map (λ p, (p.1, VObject [("type", VString p.2)])) (properties s)));
     ("required", VArray (map VString (required s)));
     ("additionalProperties", VBool (additionalProperties s))].

Definition has_type (v : value) (ty : string) : Prop :=
  json_type v = (if String.eqb ty "integer" then "number" else ty).

(** A payload [o] conforms.  Names are looked up as JavaScript's [in] does: a name of
    [Object.prototype] counts as present. *)
Record conforms (s : schema) (o : object) : Prop := {
  only_known : additionalProperties s = false → ∀ k, k ∈ o.*1 → k ∈ (properties s).*1;
  all_required : ∀ k, k ∈ required s → has_prop o k = true;
  well_typed : ∀ k ty, (k, ty) ∈ properties s → ty ≠ EmptyString → has_prop o k = true →
    has_type (own_get o k) ty;
}.

(** ** Correctness *)

Lemma first_error_None {A} (f : A → result (option string)) l :
  first_error f l = Ok None ↔ Forall (λ x, f x = Ok None) l.
Proof.
  induction l as [|x l IH]; cbn; [naive_solver|]. rewrite Forall_cons, <-IH.
  destruct (f x) as [[msg|]|]; cbn; naive_solver.
Qed.

Lemma or_else_None f g : or_else f g = Ok None ↔ f = Ok None ∧ g = Ok None.
Proof. unfold or_else. destruct f as [[msg|]|]; cbn; naive_solver. Qed.

Lemma map_fst_pairs {A B} (f : A → B) (l : list (string * A)) :
  map fst (map (λ p, (p.1, f p.2)) l) = l.*1.
Proof. induction l; cbn; congruence. Qed.

Lemma check_additional_None capId s o :
  check_additional capId (schema_value s) (VObject o) = Ok None ↔
  (additionalProperties s = false → ∀ k, k ∈ o.*1 → k ∈ (properties s).*1).
Proof.
  unfold check_additional. cbn. destruct (additionalProperties s); cbn; [naive_solver|].
  rewrite first_error_None, Forall_forall, (map_fst_pairs (λ ty, VObject [("type", VString ty)])).
  split.
  - intros H _ k Hk. specialize (H k Hk). destruct (string_set_has _ k) eqn:E; [|done].
    by rewrite string_set_has_elem_of, string_set_of_elem_of in E.
  - intros H k Hk. rewrite (proj2 (string_set_has_elem_of _ _)); [done|].
    by apply string_set_of_elem_of, H.
Qed.

Lemma check_required_None capId s o :
  check_required capId (schema_value s) (VObject o) = Ok None ↔
  ∀ k, k ∈ required s → has_prop o k = true.
Proof.
  unfold check_required. cbn. rewrite first_error_None, Forall_map, Forall_forall.
  split; intros H k Hk; specialize (H k Hk); cbn in *; by destruct (has_prop o k).
Qed.

Lemma check_property_None capId o k ty :
  check_property capId (VObject o) (k, VObject [("type", VString ty)]) = Ok None ↔
  (ty ≠ EmptyString → has_prop o k = true → has_type (own_get o k) ty).
Proof.
  unfold check_property, has_type. cbn.
  destruct (has_prop o k); cbn; [|naive_solver].
  destruct (String.eqb_spec ty EmptyString) as [->|Hty]; cbn; [naive_solver|].
  destruct (String.eqb_spec (if String.eqb ty "integer" then "number" else ty)
    (json_type (own_get o k))); cbn; naive_solver.
Qed.

Lemma check_properties_None capId s o :
  check_properties capId (schema_value s) (VObject o) = Ok None ↔
  ∀ k ty, (k, ty) ∈ properties s → ty ≠ EmptyString → has_prop o k = true →
    has_type (own_get o k) ty.
Proof.
  unfold check_properties. cbn. rewrite first_error_None, Forall_map, Forall_forall. split.
  - intros H k ty Hin. by apply (check_property_None capId), (H (k, ty)).
  - intros H [k ty] Hin. apply check_property_None. intros. by apply (H k ty).
Qed.

Lemma validate_schema_None capId s o :
  validate_schema capId (schema_value s) (VObject o) = Ok None ↔ conforms s o.
Proof.
  unfold validate_schema. cbn -[or_else check_additional check_required check_properties].
  rewrite !or_else_None, check_additional_None,
    check_required_None, check_properties_None.
  split; [intros (? & ? & ?); by split|intros []; auto].
Qed.

Lemma empty_object_schema_None capId o :
  validate_schema capId empty_object_schema (VObject o) = Ok None ↔ o = [].
Proof.
  unfold validate_schema. cbn. destruct o as [|[k v] o]; cbn; naive_solver.
Qed.

Lemma registry_lookup capId :
  string_elem object_prototype capId = false →
  if string_elem ALL_CAPABILITY_IDS capId then
    ∃ meta, get_prop CapabilityRegistry capId = Ok meta ∧ truthy meta = true ∧
      get_prop meta "payload_schema" = Ok empty_object_schema
  else get_prop CapabilityRegistry capId = Ok VUndefined.
Proof.
  intros Hp. unfold string_elem at 1. case_bool_decide as Ha.
  - repeat (apply elem_of_cons in Ha as [->|Ha]; [eexists; split; [by vm_compute|done]|]).
    by apply elem_of_nil in Ha.
  - unfold ALL_CAPABILITY_IDS in Ha. rewrite !not_elem_of_cons in Ha. destruct Ha as (H1 & H2 & _).
    unfold CapabilityRegistry, get_prop, own_get. cbn [map_get].
    rewrite (proj2 (String.eqb_neq _ _) H1), (proj2 (String.eqb_neq _ _) H2).
    unfold inherited. rewrite Hp.
    destruct (String.eqb_spec capId "__proto__") as [->|]; [done|done].
Qed.

(** against a schema of the registry's fragment, validation accepts an object
    exactly when it conforms, and reports every value that is not an object; under the
    registry itself it accepts, for its two capabilities, the empty object only, reports
    every other capability as unknown, and throws instead of reporting when the
    capability is called like a member of [Object.prototype]. *)
Theorem validatePayload_correct capId :
  (∀ s o, validate_schema capId (schema_value s) (VObject o) = Ok None ↔ conforms s o) ∧
  (∀ s v, is_plain v = false →
    validate_schema capId (schema_value s) v
      = Ok (Some ("Capability " +:+ capId +:+ " payload must be an object"))) ∧
  (∀ o,
    if string_elem object_prototype capId then validatePayload capId (VObject o) = Throw TypeError
    else if string_elem ALL_CAPABILITY_IDS capId then
      validatePayload capId (VObject o) = Ok None ↔ o = []
    else validatePayload capId (VObject o) = Ok (Some ("Unknown capability: " +:+ capId))).
Proof.
  split; [intros; apply validate_schema_None|]. split.
  - intros s v Hv. unfold validate_schema. cbn [schema_value is_null get_prop mbind result_bind].
    cbn. by rewrite Hv.
  - intros o. unfold validatePayload.
    destruct (string_elem object_prototype capId) eqn:Hp.
    + unfold string_elem in Hp. apply bool_decide_eq_true in Hp.
      repeat (apply elem_of_cons in Hp as [->|Hp]; [by vm_compute|]). by apply elem_of_nil in Hp.
    + pose proof (registry_lookup capId Hp) as Hl.
      destruct (string_elem ALL_CAPABILITY_IDS capId).
      * destruct Hl as (meta & -> & Ht & Hs). cbn. rewrite Ht. cbn. rewrite Hs. cbn.
        apply empty_object_schema_None.
      * by rewrite Hl.
Qed.

Lemma validatePayload_correct_witness :
  is_plain (VArray []) = false ∧
  validate_schema CAP_RFC_0001 (schema_value (Build_schema [] [] false)) (VArray [])
    = Ok (Some ("Capability " +:+ CAP_RFC_0001 +:+ " payload must be an object")).
Proof.
  split; [done|]. by apply (proj1 (proj2 (validatePayload_correct CAP_RFC_0001))).
Defined.
