(* ===== verification/ArtifactValidation.v ===== *)
(** * ArtifactValidation: the gate every compiled plan passes
    (dsl/packages/runtime/src/artifact-validation.ts)

    [validateArtifact] is shown to accept exactly the artifacts a declarative
    specification describes, and to accept every plan the authoring API can build. *)

From S2P Require Import Prelude StateMonad Collections JsNumber JsValue TaskImpl Guards Capabilities PlanCtx.

Definition invalid (planFileName msg : string) : string :=
  "Invalid artifact from " +:+ planFileName +:+ ": " +:+ msg.

Definition is_number (v : value) : bool := match v with VNumber _ => true | _ => false end.

Definition nonempty_string (v : value) : bool :=
  match v with VString s => negb (String.length s =? 0) | _ => false end.

Definition array_of (v : value) : list value := match v with VArray l => l | _ => [] end.

(** First pass over the nodes: their structure, and the set of ids. *)
Definition check_node (file : string) (i : nat) (node : value) : result string :=
  throw_if (negb (is_object node)) (invalid file ("nodes[" +:+ pretty i +:+ "] is not an object")) ;;
  node_id ← get_prop node "node_id";
  throw_if (negb (is_string node_id))
    (invalid file ("nodes[" +:+ pretty i +:+ "].node_id missing or invalid")) ;;
  op ← get_prop node "op";
  throw_if (negb (is_string op))
    (invalid file ("nodes[" +:+ pretty i +:+ "].op missing or invalid")) ;;
  inputs ← get_prop node "inputs";
  throw_if (negb (isArray inputs))
    (invalid file ("nodes[" +:+ pretty i +:+ "].inputs missing or invalid")) ;;
  template node_id.

Fixpoint collect_ids (file : string) (i : nat) (nodeIds : list string) (nodes : list value)
    : result (list string) :=
  match nodes with
  | [] => Ok nodeIds
  | node :: nodes' =>
      id ← check_node file i node;
      collect_ids file (S i) (string_set_add nodeIds id) nodes'
  end.

(** A reference to a node, in [inputs] or [outputs]. *)
Definition check_ref (file : string) (nodeIds : list string) (where_ : string) (v : value)
    : result unit :=
  throw_if (negb (is_string v)) (invalid file (where_ +:+ " is not a string")) ;;
  t ← template v;
  throw_if (negb (string_set_has nodeIds t))
    (invalid file (where_ +:+ " references unknown node " +:+ quoted t)).

(** Second pass: the inputs of each node. *)
Definition check_inputs (file : string) (nodeIds : list string) (i : nat) (node : value)
    : result unit :=
  inputs ← get_prop node "inputs";
  for_each_i (λ j v,
    check_ref file nodeIds ("nodes[" +:+ pretty i +:+ "].inputs[" +:+ pretty j +:+ "]") v)
    (array_of inputs).

(** [v !== undefined && (v === null || typeof v !== "object")] *)
Definition bad_table (v : value) : bool := negb (is_undefined v) && negb (is_object v).

(** The payload of each extension, against its capability's schema. *)
Definition check_payloads (what : string) (extensions : value) : result unit :=
  if truthy extensions && String.eqb (typeof extensions) "object" then
    es ← entries extensions;
    for_each (λ e : string * value,
      error ← validatePayload e.1 e.2;
      match error with
      | Some msg => Throw (Error (what +:+ " extension validation failed: " +:+ msg))
      | None => Ok tt
      end) es
  else Ok tt.

Definition check_node_extensions (capabilities : list string) (node : value) : result unit :=
  extensions ← get_prop node "extensions";
  node_id ← get_prop node "node_id";
  id ← template node_id;
  validateNodeExtensions extensions capabilities id ;;
  check_payloads ("Node " +:+ id) extensions.

(** The last part, on capabilities and extensions (RFC0001). *)
Definition check_capabilities (artifact : value) (planFileName : string) (nodes : list value)
    : result unit :=
  capabilities_required ← get_prop artifact "capabilities_required";
  extensions ← get_prop artifact "extensions";
  validateCapabilitiesAndExtensions capabilities_required extensions
    ("artifact from " +:+ planFileName) ;;
  check_payloads "Plan" extensions ;;
  for_each (check_node_extensions (capability_list capabilities_required)) nodes.

Definition validateArtifact (artifact : value) (planFileName : string) : result unit :=
  throw_if (negb (is_object artifact)) (invalid planFileName "not an object") ;;
  schema_version ← get_prop artifact "schema_version";
  throw_if (negb (is_number schema_version))
    (invalid planFileName "missing or invalid schema_version (expected number)") ;;
  plan_name ← get_prop artifact "plan_name";
  throw_if (negb (nonempty_string plan_name))
    (invalid planFileName "missing or invalid plan_name (expected non-empty string)") ;;
  nodes ← get_prop artifact "nodes";
  throw_if (negb (isArray nodes))
    (invalid planFileName "missing or invalid nodes (expected array)") ;;
  outputs ← get_prop artifact "outputs";
  throw_if (negb (isArray outputs))
    (invalid planFileName "missing or invalid outputs (expected array)") ;;
  nodeIds ← collect_ids planFileName 0 [] (array_of nodes);
  for_each_i (check_inputs planFileName nodeIds) (array_of nodes) ;;
  for_each_i (λ i, check_ref planFileName nodeIds ("outputs[" +:+ pretty i +:+ "]"))
    (array_of outputs) ;;
  expr_table ← get_prop artifact "expr_table";
  throw_if (bad_table expr_table)
    (invalid planFileName "expr_table must be an object if present") ;;
  pred_table ← get_prop artifact "pred_table";
  throw_if (bad_table pred_table)
    (invalid planFileName "pred_table must be an object if present") ;;
  check_capabilities artifact planFileName (array_of nodes).

(** ** The specification *)

(** The members every node must have. *)
Definition node_shape (node : value) (id : string) : Prop :=
  is_object node = true ∧
  get_prop node "node_id" = Ok (VString id) ∧
  (∃ op, get_prop node "op" = Ok (VString op)) ∧
  (∃ inputs, get_prop node "inputs" = Ok (VArray inputs)).

(** [v] is a list of references to nodes in [ids]. *)
Definition refs_ok (ids : list string) (v : value) : Prop :=
  ∃ refs, v = VArray (map VString refs) ∧ Forall (λ r, r ∈ ids) refs.

Definition payloads_ok (extensions : value) : Prop :=
  ∀ e k v, is_object extensions = true → entries extensions = Ok e → (k, v) ∈ e →
    validatePayload k v = Ok None.

Definition table_ok (v : value) : Prop := v = VUndefined ∨ is_object v = true.

(** [a.name] is a value that satisfies [P]. *)
Definition member (a : value) (name : string) (P : value → Prop) : Prop :=
  ∃ v, get_prop a name = Ok v ∧ P v.

Record artifact_ok (a : value) : Prop := {
  art_object : is_object a = true;
  art_version : member a "schema_version" (λ v, ∃ n, v = VNumber n);
  art_name : member a "plan_name" (λ v, ∃ s, v = VString s ∧ s ≠ EmptyString);
  art_nodes : ∃ nodes ids caps,
    get_prop a "nodes" = Ok (VArray nodes) ∧
    Forall2 node_shape nodes ids ∧
    Forall (λ n, member n "inputs" (refs_ok ids)) nodes ∧
    member a "outputs" (refs_ok ids) ∧
    get_prop a "capabilities_required" = Ok caps ∧ capabilities_ok caps ∧
    member a "extensions" (λ x, extensions_ok (capability_list caps) x ∧ payloads_ok x) ∧
    Forall (λ n, member n "extensions"
      (λ x, extensions_ok (capability_list caps) x ∧ payloads_ok x)) nodes;
  art_exprs : member a "expr_table" table_ok;
  art_preds : member a "pred_table" table_ok;
}.

(** ** The checks decide it *)

Lemma bind_member {B} a k (f : value → result B) b :
  (v ← get_prop a k; f v) = Ok b ↔ ∃ v, get_prop a k = Ok v ∧ f v = Ok b.
Proof. apply bind_Ok. Qed.

Lemma check_node_Ok file i node id : check_node file i node = Ok id ↔ node_shape node id.
Proof.
  unfold check_node, node_shape.
  rewrite bind_Ok_unit, throw_if_Ok, negb_false_iff, bind_member.
  apply and_iff_compat_l. split.
  - intros (v & Hv & H). destruct v; try done. cbn in H.
    apply bind_member in H as (op & Hop & H). apply bind_Ok_unit in H as [Ho%throw_if_Ok H].
    apply bind_member in H as (ins & Hins & H). apply bind_Ok_unit in H as [Hi%throw_if_Ok H].
    destruct op, ins; try done. naive_solver.
  - intros (Hid & (op & Hop) & (ins & Hins)). exists (VString id). split; [done|]. cbn.
    rewrite Hop. cbn. rewrite Hins. done.
Qed.

Lemma collect_ids_Ok file nodes : ∀ i acc ids,
  collect_ids file i acc nodes = Ok ids ↔
  ∃ l, Forall2 node_shape nodes l ∧ ids = foldl string_set_add acc l.
Proof.
  induction nodes as [|n nodes IH]; intros i acc ids; cbn.
  - split; [intros [= <-]; by exists []|]. by intros (l & ->%Forall2_nil_inv_l & ->).
  - rewrite bind_Ok. setoid_rewrite check_node_Ok. setoid_rewrite IH. split.
    + intros (id & Hid & l & Hl & ->). exists (id :: l). split; [by constructor|done].
    + intros (l & (id & l' & Hid & Hl & ->)%Forall2_cons_inv_l & ->). naive_solver.
Qed.

Lemma check_ref_Ok file ids where_ v :
  check_ref file ids where_ v = Ok tt ↔ ∃ r, v = VString r ∧ r ∈ ids.
Proof.
  unfold check_ref. rewrite bind_Ok_unit, throw_if_Ok, negb_false_iff.
  destruct v; try (split; [by intros [? _]|naive_solver]).
  cbn. rewrite throw_if_Ok, negb_false_iff, string_set_has_elem_of. naive_solver.
Qed.

Lemma check_refs_Ok file ids (where_ : nat → string) l :
  for_each_i (λ j, check_ref file ids (where_ j)) l = Ok tt ↔ refs_ok ids (VArray l).
Proof.
  rewrite for_each_i_Ok. setoid_rewrite check_ref_Ok. split.
  - intros H. assert (∀ v, v ∈ l → ∃ r, v = VString r ∧ r ∈ ids) as Hl.
    { intros v [i Hi]%list_elem_of_lookup. eauto. }
    clear H. induction l as [|v l IH]; [by exists []|].
    destruct (Hl v) as (r & -> & Hr); [by left|].
    destruct IH as (refs & [= ->] & Hrefs); [intros w Hw; apply Hl; by right|].
    exists (r :: refs). split; [done|]. by constructor.
  - intros (refs & [= ->] & Hrefs) j v Hj.
    apply list_lookup_fmap_Some in Hj as (r & -> & Hr). exists r. split; [done|].
    rewrite Forall_forall in Hrefs. apply Hrefs. by eapply list_elem_of_lookup_2.
Qed.

Lemma check_payloads_Ok what x : check_payloads what x = Ok tt ↔ payloads_ok x.
Proof.
  unfold check_payloads, payloads_ok.
  assert (truthy x && String.eqb (typeof x) "object" = is_object x) as ->.
  { destruct x; try done; cbn; by rewrite ?andb_false_r. }
  destruct (is_object x) eqn:Ho; [|naive_solver].
  rewrite bind_Ok. setoid_rewrite for_each_Ok. setoid_rewrite Forall_forall.
  assert (∀ (e : string * value),
    (error ← validatePayload e.1 e.2;
     match error with
     | Some msg => Throw (Error (what +:+ " extension validation failed: " +:+ msg))
     | None => Ok tt
     end) = Ok tt ↔ validatePayload e.1 e.2 = Ok None) as He.
  { intros e. destruct (validatePayload e.1 e.2) as [[|]|]; naive_solver. }
  setoid_rewrite He. assert (is_Some (match entries x with Ok e => Some e | _ => None end)) as [e Hx].
  { destruct x; try done; cbn; eauto. }
  destruct (entries x) as [e'|]; [|done]. simplify_eq. split.
  - intros (e1 & [= <-] & H) e2 k v _ [= <-] Hin. by apply (H (k, v)).
  - intros H. exists e. split; [done|]. intros [k v] Hin. eauto.
Qed.

Lemma check_node_extensions_Ok caps n id :
  node_shape n id →
  check_node_extensions caps n = Ok tt ↔
  member n "extensions" (λ x, extensions_ok caps x ∧ payloads_ok x).
Proof.
  intros (_ & Hid & _). unfold check_node_extensions, member. rewrite bind_member.
  apply exist_proper. intros x. apply and_iff_compat_l. rewrite Hid.
  cbn [mbind result_bind template].
  by rewrite bind_Ok_unit, validateNodeExtensions_Ok, check_payloads_Ok.
Qed.

Lemma check_inputs_Ok file ids i n id :
  node_shape n id → check_inputs file ids i n = Ok tt ↔ member n "inputs" (refs_ok ids).
Proof.
  intros (_ & _ & _ & ins & Hins). unfold check_inputs, member. rewrite Hins.
  cbn [mbind result_bind array_of]. rewrite check_refs_Ok. naive_solver.
Qed.

(** Checking all nodes, given their shape. *)
Lemma nodes_Forall (f : nat → value → result unit) (P : value → Prop) nodes ids :
  Forall2 node_shape nodes ids →
  (∀ i n id, node_shape n id → f i n = Ok tt ↔ P n) →
  for_each_i f nodes = Ok tt ↔ Forall P nodes.
Proof.
  intros Hs Hf. rewrite for_each_i_Ok, Forall_lookup. split.
  - intros H i n Hi. destruct (Forall2_lookup_l _ _ _ _ _ Hs Hi) as (id & _ & Hid).
    by apply (Hf i n id), H.
  - intros H i n Hi. destruct (Forall2_lookup_l _ _ _ _ _ Hs Hi) as (id & _ & Hid).
    by apply (Hf i n id), (H i).
Qed.

Lemma for_each_index {A} (f : A → result unit) l :
  for_each f l = Ok tt ↔ for_each_i (λ _, f) l = Ok tt.
Proof. rewrite for_each_Ok, for_each_i_Ok, Forall_lookup. done. Qed.

Lemma bad_table_false v : bad_table v = false ↔ table_ok v.
Proof.
  unfold bad_table, table_ok. destruct v; cbn; naive_solver.
Qed.

Lemma member_check a k (bad : value → bool) msg (P : value → Prop) (r : value → result unit) :
  (∀ v, bad v = false ↔ P v) →
  (v ← get_prop a k; throw_if (bad v) msg ;; r v) = Ok tt ↔
  ∃ v, get_prop a k = Ok v ∧ P v ∧ r v = Ok tt.
Proof.
  intros HP. rewrite bind_member. apply exist_proper. intros v.
  by rewrite bind_Ok_unit, throw_if_Ok, HP.
Qed.

Lemma nonempty_string_iff v :
  negb (nonempty_string v) = false ↔ ∃ s, v = VString s ∧ s ≠ EmptyString.
Proof. destruct v as [| | | |[]| | | | | |]; cbn; naive_solver. Qed.

Lemma isArray_iff v : negb (isArray v) = false ↔ ∃ l, v = VArray l.
Proof. destruct v; cbn; naive_solver. Qed.

Lemma is_number_iff v : negb (is_number v) = false ↔ ∃ n, v = VNumber n.
Proof. destruct v; cbn; naive_solver. Qed.

(** The string set of the ids holds the ids. *)
Lemma refs_ok_ids ids v : refs_ok (foldl string_set_add [] ids) v ↔ refs_ok ids v.
Proof.
  unfold refs_ok. apply exist_proper. intros refs. apply and_iff_compat_l.
  rewrite !Forall_forall. by setoid_rewrite string_set_of_elem_of.
Qed.

Lemma check_capabilities_Ok a file nodes ids :
  Forall2 node_shape nodes ids →
  check_capabilities a file nodes = Ok tt ↔
  ∃ caps, get_prop a "capabilities_required" = Ok caps ∧ capabilities_ok caps ∧
    member a "extensions" (λ x, extensions_ok (capability_list caps) x ∧ payloads_ok x) ∧
    Forall (λ n, member n "extensions"
      (λ x, extensions_ok (capability_list caps) x ∧ payloads_ok x)) nodes.
Proof.
  intros Hs. unfold check_capabilities. rewrite bind_member. apply exist_proper. intros caps.
  apply and_iff_compat_l. rewrite bind_member.
  assert (for_each (check_node_extensions (capability_list caps)) nodes = Ok tt ↔
    Forall (λ n, member n "extensions"
      (λ x, extensions_ok (capability_list caps) x ∧ payloads_ok x)) nodes) as Hn.
  { rewrite for_each_index. apply (nodes_Forall _ _ _ ids Hs).
    intros i n id Hid. by apply (check_node_extensions_Ok _ _ id). }
  rewrite <-Hn. clear Hn. split.
  - intros (x & Hx & [Hc Hr]%bind_Ok_unit). apply bind_Ok_unit in Hr as [Hp Hr].
    apply validateCapabilitiesAndExtensions_Ok in Hc as [??]. apply check_payloads_Ok in Hp.
    split; [done|]. split; [by exists x|done].
  - intros (Hc & (x & Hx & He & Hp) & Hr). exists x. split; [done|].
    rewrite bind_Ok_unit, validateCapabilitiesAndExtensions_Ok, bind_Ok_unit, check_payloads_Ok.
    auto.
Qed.

Lemma check_tables_Ok a (r : result unit) m1 m2 :
  (v ← get_prop a "expr_table"; throw_if (bad_table v) m1 ;;
   w ← get_prop a "pred_table"; throw_if (bad_table w) m2 ;; r) = Ok tt ↔
  member a "expr_table" table_ok ∧ member a "pred_table" table_ok ∧ r = Ok tt.
Proof.
  rewrite (member_check _ _ _ _ _ _ bad_table_false).
  setoid_rewrite (member_check _ _ _ _ _ _ bad_table_false). unfold member. naive_solver.
Qed.

Lemma outputs_Ok file ids (outputs : list value) :
  for_each_i (λ i, check_ref file (foldl string_set_add [] ids)
    ("outputs[" +:+ pretty i +:+ "]")) outputs = Ok tt ↔ refs_ok ids (VArray outputs).
Proof.
  by rewrite (check_refs_Ok _ _ (λ i, "outputs[" +:+ pretty i +:+ "]")), refs_ok_ids.
Qed.

Lemma all_inputs_Ok file ids nodes :
  Forall2 node_shape nodes ids →
  for_each_i (check_inputs file (foldl string_set_add [] ids)) nodes = Ok tt ↔
  Forall (λ n, member n "inputs" (refs_ok ids)) nodes.
Proof.
  intros Hs. apply (nodes_Forall _ _ _ ids Hs). intros i n id Hid.
  rewrite (check_inputs_Ok _ _ _ _ id Hid). unfold member.
  apply exist_proper. intros v. by rewrite refs_ok_ids.
Qed.

Lemma validateArtifact_iff a file : validateArtifact a file = Ok tt ↔ artifact_ok a.
Proof.
  unfold validateArtifact. rewrite bind_Ok_unit, throw_if_Ok, negb_false_iff.
  rewrite (member_check _ _ _ _ _ _ is_number_iff). split.
  - intros (Ho & v & Hv & Hn & H).
    apply (member_check _ _ _ _ _ _ nonempty_string_iff) in H as (name & Hname & Hs & H).
    apply (member_check _ _ _ _ _ _ isArray_iff) in H as (? & Hnodes & [nodes ->] & H).
    apply (member_check _ _ _ _ _ _ isArray_iff) in H as (? & Houts & [outs ->] & H).
    apply bind_Ok in H as (? & (ids & Hids & ->)%collect_ids_Ok & H). cbn [array_of] in *.
    apply bind_Ok_unit in H as [Hin%(all_inputs_Ok _ _ _ Hids) H].
    apply bind_Ok_unit in H as [Hout%outputs_Ok H].
    apply check_tables_Ok in H as (He & Hp & H).
    apply (check_capabilities_Ok _ _ _ _ Hids) in H as (caps & ? & ? & ? & ?).
    split; [done|by exists v|by exists name| |done|done].
    exists nodes, ids, caps. split_and!; try done. by exists (VArray outs).
  - intros [Ho (v & Hv & Hn) (name & Hname & Hs) (nodes & ids & caps & Hnodes & Hids & Hin &
      (o & Hout & Ho') & Hcaps) He Hp].
    split; [done|]. exists v. split_and!; [done..|].
    apply (member_check _ _ _ _ _ _ nonempty_string_iff). exists name. split_and!; [done..|].
    apply (member_check _ _ _ _ _ _ isArray_iff). eexists. split_and!; [done|by eexists|].
    pose proof Ho' as (refs & -> & _).
    apply (member_check _ _ _ _ _ _ isArray_iff). eexists. split_and!; [done|by eexists|].
    apply bind_Ok. exists (foldl string_set_add [] ids). cbn [array_of].
    split; [by apply collect_ids_Ok; exists ids|].
    rewrite bind_Ok_unit, (all_inputs_Ok _ _ _ Hids), bind_Ok_unit, outputs_Ok, check_tables_Ok,
      (check_capabilities_Ok _ _ _ _ Hids). split_and!; try done. by exists caps.
Qed.

(** ** The artifacts of plans *)

Lemma finalize_get s out name :
  let a := finalize s out name in
  is_object a = true ∧
  get_prop a "schema_version" = Ok (VNumber (num 1)) ∧
  get_prop a "plan_name" = Ok name ∧
  get_prop a "nodes" = Ok (VArray (map node_value (nodes s))) ∧
  get_prop a "outputs" = Ok (VArray [out]) ∧
  get_prop a "expr_table" = Ok (match exprTable s with
    [] => VUndefined | _ => VObject (from_entries (exprTable s)) end) ∧
  get_prop a "pred_table" = Ok (match predTable s with
    [] => VUndefined | _ => VObject (from_entries (predTable s)) end) ∧
  get_prop a "capabilities_required" = Ok (match capabilitiesRequired s with
    [] => VUndefined | _ => VArray (map VString (sort_strings (capabilitiesRequired s))) end) ∧
  get_prop a "extensions" = Ok (match planExtensions s with
    [] => VUndefined | _ => VObject (from_entries (planExtensions s)) end).
Proof.
  unfold finalize. destruct (exprTable s), (predTable s), (capabilitiesRequired s), (planExtensions s);
    cbv zeta; split_and!; reflexivity.
Qed.

Lemma node_value_shape n : node_shape (node_value n) (node_id n).
Proof. split_and!; try done; eexists; done. Qed.

Lemma node_values_shape ns ids :
  Forall2 node_shape (map node_value ns) ids ↔ ids = map node_id ns.
Proof.
  split.
  - revert ids. induction ns as [|n ns IH]; intros ids; cbn.
    + by intros ->%Forall2_nil_inv_l.
    + intros (id & ids' & Hid & Hids & ->)%Forall2_cons_inv_l. f_equal; [|by apply IH].
      destruct Hid as (_ & [= <-] & _). done.
  - intros ->. induction ns as [|n ns IH]; cbn; constructor; [apply node_value_shape|done].
Qed.

Lemma node_value_extensions n :
  get_prop (node_value n) "extensions" = Ok (default VUndefined (extensions n)).
Proof. unfold node_value. by destruct (extensions n). Qed.

(** What a plan may still get wrong. *)
Record declared (s : PlanCtx) : Prop := {
  plan_payloads : ∀ k v, (k, v) ∈ planExtensions s → validatePayload k v = Ok None;
  node_extensions : ∀ n e, n ∈ nodes s → extensions n = Some e →
    extensions_ok (capabilitiesRequired s) e ∧ payloads_ok e;
}.

(** The capability list the validator reads back from the artifact. *)
Definition artifact_capabilities (s : PlanCtx) : value :=
  match capabilitiesRequired s with
  | [] => VUndefined
  | _ => VArray (map VString (sort_strings (capabilitiesRequired s)))
  end.
Definition artifact_extensions (s : PlanCtx) : value :=
  match planExtensions s with
  | [] => VUndefined
  | _ => VObject (from_entries (planExtensions s))
  end.

Lemma artifact_capabilities_ok s :
  plan_ok s → capabilities_ok (artifact_capabilities s) ∧
    ∀ k, k ∈ capability_list (artifact_capabilities s) ↔ k ∈ capabilitiesRequired s.
Proof.
  intros Hok. unfold artifact_capabilities.
  destruct (capabilitiesRequired s) as [|c cs] eqn:E; [split; [by left|done]|]. rewrite <-E. split.
  - right. eexists. split; [done|]. apply sort_strings_NoDup, Hok.
  - intros k. cbn [capability_list]. rewrite (strings_of_strings (sort_strings _)).
    unfold sort_strings. apply js_sort_elem_of.
Qed.

Lemma extensions_ok_ext caps caps' x :
  (∀ k, k ∈ caps ↔ k ∈ caps') → extensions_ok caps x ↔ extensions_ok caps' x.
Proof. intros H. unfold extensions_ok. by setoid_rewrite H. Qed.

Lemma artifact_extensions_ok s caps :
  plan_ok s → (∀ k, k ∈ caps ↔ k ∈ capabilitiesRequired s) →
  extensions_ok caps (artifact_extensions s) ∧
  (payloads_ok (artifact_extensions s) ↔
    ∀ k v, (k, v) ∈ planExtensions s → validatePayload k v = Ok None).
Proof.
  intros Hok Hcaps. destruct (ok_plan_extensions _ Hok) as [Hnd Hin].
  pose proof (from_entries_perm _ Hnd) as Hp. unfold artifact_extensions.
  destruct (planExtensions s) as [|x l] eqn:E; [split; [by left|]|].
  - split; [|done]. by intros _ k v Hk%elem_of_nil.
  - rewrite <-E in *. split.
    + right. split; [done|]. intros e k v [= <-] Hkv. rewrite Hp in Hkv.
      apply Hcaps, Hin, list_elem_of_fmap. by exists (k, v).
    + unfold payloads_ok. split.
      * intros H k v Hkv. apply (H _ k v eq_refl eq_refl). by rewrite Hp.
      * intros H e k v _ [= <-] Hkv. rewrite Hp in Hkv. eauto.
Qed.

Lemma plan_refs_ok s n v :
  plan_ok s → n ∈ map node_value (nodes s) → get_prop n "inputs" = Ok v →
  refs_ok (map node_id (nodes s)) v.
Proof.
  intros Hok (m & -> & Hm)%list_elem_of_fmap [= <-].
  apply list_elem_of_lookup in Hm as [i Hi]. pose proof (ok_refs _ Hok _ _ Hi) as Hr.
  exists (inputs m). split; [done|]. rewrite Forall_forall in Hr. apply Forall_forall. intros r Hin.
  assert (ref_resolves s (firstn i (nodes s)) (NodeRef r)) as H.
  { apply Hr. apply elem_of_app. left. by apply (list_elem_of_fmap_2 NodeRef). }
  cbn in H. rewrite <-(firstn_skipn i (nodes s)), map_app. apply elem_of_app. by left.
Qed.

(** C10: the validator accepts the artifact of any sequence of calls, with any handle as
    output, unless the plan's name is empty, an extension is not declared among the
    required capabilities, or a payload does not fit its capability's schema. *)
Theorem plan_artifact_valid id s out name file :
  reachable id s → plan_resolves s (NodeRef out) →
  validateArtifact (finalize s (VString out) (VString name)) file = Ok tt ↔
  name ≠ EmptyString ∧ declared s.
Proof.
  intros Hs Hout. apply reachable_ok in Hs. rename Hs into Hok.
  destruct (artifact_capabilities_ok s Hok) as [Hcaps Hlist].
  destruct (artifact_extensions_ok s _ Hok Hlist) as [Hext Hpay].
  destruct (finalize_get s (VString out) (VString name)) as
    (Ho & Hver & Hname & Hnodes & Hout' & He & Hp & Hc & Hx).
  fold (artifact_capabilities s) in Hc. fold (artifact_extensions s) in Hx.
  rewrite validateArtifact_iff. split.
  - intros [_ _ (n & Hn & name' & -> & Hne) (ns & ids & caps & Hns & _ & _ & _ & Hc' & _ &
      (x & Hx' & _ & Hpx) & Hnx) _ _].
    rewrite Hname in Hn. injection Hn as ->. split; [done|].
    rewrite Hnodes in Hns. injection Hns as <-. rewrite Hc in Hc'. injection Hc' as <-.
    rewrite Hx in Hx'. injection Hx' as <-. split; [by apply Hpay|].
    intros m e Hm Hme. rewrite Forall_forall in Hnx.
    destruct (Hnx (node_value m)) as (v & Hv & Hv1 & Hv2).
    { by apply (list_elem_of_fmap_2 node_value). }
    rewrite node_value_extensions, Hme in Hv. injection Hv as <-.
    split; [|done]. by apply (extensions_ok_ext _ _ _ Hlist).
  - intros [Hne [Hpl Hnx]]. split.
    + done.
    + eexists. split; [done|]. by eexists.
    + eexists. split; [done|]. by eexists.
    + exists (map node_value (nodes s)), (map node_id (nodes s)), (artifact_capabilities s).
      split_and!; try done.
      * by apply node_values_shape.
      * apply Forall_forall. intros n (m & -> & Hm)%list_elem_of_fmap.
        eexists. split; [done|]. apply (plan_refs_ok s (node_value m)); [done| |done].
        by apply (list_elem_of_fmap_2 node_value).
      * eexists. split; [done|]. exists [out]. split; [done|]. by repeat constructor.
      * eexists. split; [done|]. split; [done|]. by apply Hpay.
      * apply Forall_forall. intros n (m & -> & Hm)%list_elem_of_fmap.
        eexists. split; [apply node_value_extensions|].
        destruct (extensions m) as [e|] eqn:Hme; cbn.
        -- destruct (Hnx m e Hm Hme). split; [|done]. by apply (extensions_ok_ext _ _ _ Hlist).
        -- split; [by left|]. by intros ?.
    + eexists. split; [done|]. destruct (exprTable s); [by left|by right].
    + eexists. split; [done|]. destruct (predTable s); [by left|by right].
Qed.

Definition sample_ctx : PlanCtx := run_all sample_calls (new_ctx 7).

(** The sample's capability has no registry entry, so its artifact is refused; without
    it, it is accepted. *)
Example sample_refused :
  validateArtifact (finalize sample_ctx (VString "n4") (VString "p")) "p.plan.ts" =
  Throw (Error "Plan extension validation failed: Unknown capability: cap.a").
Proof. by vm_compute. Qed.

Definition sample_ctx' : PlanCtx := run_all (firstn 5 sample_calls) (new_ctx 7).

Lemma sample_ctx'_reachable : reachable 7 sample_ctx'.
Proof.
  apply run_all_reachable; [constructor|].
  pose proof sample_calls_ok as H. unfold sample_calls in H. cbn [calls_ok] in H.
  unfold sample_calls. cbn [firstn calls_ok]. tauto.
Qed.

Lemma plan_artifact_valid_witness :
  validateArtifact (finalize sample_ctx' (VString "n4") (VString "p")) "p.plan.ts" = Ok tt ↔
  "p" ≠ EmptyString ∧ declared sample_ctx'.
Proof.
  apply (plan_artifact_valid 7).
  - exact sample_ctx'_reachable.
  - unfold plan_resolves, ref_resolves. apply (bool_decide_unpack _). by vm_compute.
Defined.

Example sample_accepted :
  validateArtifact (finalize sample_ctx' (VString "n4") (VString "p")) "p.plan.ts" = Ok tt.
Proof. by vm_compute. Qed.

(** C9: [validateArtifact] passes exactly the values [artifact_ok] describes: ids,
    operators and inputs of the right types, every input and output naming a node of
    the artifact, tables that are objects, capabilities strictly sorted, extensions
    declared and with valid payloads. *)
Theorem validateArtifact_correct a file : validateArtifact a file = Ok tt ↔ artifact_ok a.
Proof. apply validateArtifact_iff. Qed.

(** A cyclic graph with two nodes of one id. *)
Definition loop_node (inputs : list string) : value :=
  VObject [("node_id", VString "a"); ("op", VString "core::take");
           ("inputs", VArray (map VString inputs)); ("params", VObject [])].
Definition cyclic_artifact : value :=
  VObject [("schema_version", VNumber (num 1)); ("plan_name", VString "p");
           ("nodes", VArray [loop_node ["a"]; loop_node []]); ("outputs", VArray [])].

(** What the validator leaves to the engine: it accepts duplicate ids, cycles, and no
    outputs at all. *)
Example cyclic_accepted : validateArtifact cyclic_artifact "p.plan.ts" = Ok tt.
Proof. by vm_compute. Qed.
