(* ===== verification/TsAst.v ===== *)
(** * TsAst: the TypeScript syntax trees the compiler reads

    The parser is the [typescript] package's.  A tree has the node kinds the compiler
    distinguishes, every other kind with its children, and the span [getStart],
    [getEnd] of each node; [wf] is what the compiler relies on the parser for. *)

From S2P Require Import Prelude.

Record span := { getStart : nat; getEnd : nat }.

(** Operators and node kinds go by their [ts.SyntaxKind] names. *)
Inductive node :=
| NumericLiteral (sp : span) (text : string)
| StringLiteral (sp : span) (text : string)
| Identifier (sp : span) (text : string)
| PrefixUnaryExpression (sp : span) (operator : string) (operand : node)
| BinaryExpression (sp : span) (left : node) (operatorToken : string) (right : node)
| PropertyAccessExpression (sp : span) (expression : node) (name : string)
| CallExpression (sp : span) (expression : node) (typeArguments arguments : list node)
| ParenthesizedExpression (sp : span) (expression : node)
| ObjectLiteralExpression (sp : span) (properties : list node)
| PropertyAssignment (sp : span) (name initializer : node)
| OtherNode (sp : span) (kind : string) (nodes : list node).

Definition span_of (n : node) : span :=
  match n with
  | NumericLiteral sp _ | StringLiteral sp _ | Identifier sp _
  | PrefixUnaryExpression sp _ _ | BinaryExpression sp _ _ _
  | PropertyAccessExpression sp _ _ | CallExpression sp _ _ _
  | ParenthesizedExpression sp _ | ObjectLiteralExpression sp _
  | PropertyAssignment sp _ _ | OtherNode sp _ _ => sp
  end.

Definition start (n : node) : nat := getStart (span_of n).
Definition end_ (n : node) : nat := getEnd (span_of n).

Definition kind (n : node) : string :=
  match n with
  | NumericLiteral _ _ => "NumericLiteral"
  | StringLiteral _ _ => "StringLiteral"
  | Identifier _ _ => "Identifier"
  | PrefixUnaryExpression _ _ _ => "PrefixUnaryExpression"
  | BinaryExpression _ _ _ _ => "BinaryExpression"
  | PropertyAccessExpression _ _ _ => "PropertyAccessExpression"
  | CallExpression _ _ _ _ => "CallExpression"
  | ParenthesizedExpression _ _ => "ParenthesizedExpression"
  | ObjectLiteralExpression _ _ => "ObjectLiteralExpression"
  | PropertyAssignment _ _ _ => "PropertyAssignment"
  | OtherNode _ k _ => k
  end.

(** [ts.forEachChild], in source order.  Tokens and the names of property accesses are
    leaves nobody looks at. *)
Definition children (n : node) : list node :=
  match n with
  | NumericLiteral _ _ | StringLiteral _ _ | Identifier _ _ => []
  | PrefixUnaryExpression _ _ x => [x]
  | BinaryExpression _ l _ r => [l; r]
  | PropertyAccessExpression _ e _ => [e]
  | CallExpression _ e ts args => e :: ts ++ args
  | ParenthesizedExpression _ e => [e]
  | ObjectLiteralExpression _ ps => ps
  | PropertyAssignment _ name init => [name; init]
  | OtherNode _ _ l => l
  end.

(** [node.getText(sourceFile)] *)
Definition getText (source : string) (n : node) : string := slice source (start n) (end_ n).

(** Induction over the children. *)
Section node_ind.
Context (P : node → Prop) (H : ∀ n, Forall P (children n) → P n).

Definition forall_nodes (f : ∀ n, P n) : ∀ l, Forall P l :=
  fix go l := match l with [] => Forall_nil_2 P | n :: l' => Forall_cons_2 P n l' (f n) (go l') end.

Fixpoint node_ind_nested (n : node) : P n :=
  H n match n return Forall P (children n) with
    | NumericLiteral _ _ | StringLiteral _ _ | Identifier _ _ => Forall_nil_2 P
    | PrefixUnaryExpression _ _ x => Forall_cons_2 P x [] (node_ind_nested x) (Forall_nil_2 P)
    | BinaryExpression _ l _ r =>
        Forall_cons_2 P l [r] (node_ind_nested l)
          (Forall_cons_2 P r [] (node_ind_nested r) (Forall_nil_2 P))
    | PropertyAccessExpression _ e _ =>
        Forall_cons_2 P e [] (node_ind_nested e) (Forall_nil_2 P)
    | CallExpression _ e ts args =>
        Forall_cons_2 P e (ts ++ args) (node_ind_nested e)
          (Forall_app_2 P ts args (forall_nodes node_ind_nested ts)
            (forall_nodes node_ind_nested args))
    | ParenthesizedExpression _ e => Forall_cons_2 P e [] (node_ind_nested e) (Forall_nil_2 P)
    | ObjectLiteralExpression _ ps => forall_nodes node_ind_nested ps
    | PropertyAssignment _ name init =>
        Forall_cons_2 P name [init] (node_ind_nested name)
          (Forall_cons_2 P init [] (node_ind_nested init) (Forall_nil_2 P))
    | OtherNode _ _ l => forall_nodes node_ind_nested l
    end.
End node_ind.

(** [m] is [n] or lies below it. *)
Inductive subnode (m : node) : node → Prop :=
| subnode_refl : subnode m m
| subnode_child n c : c ∈ children n → subnode m c → subnode m n.

Lemma subnode_trans a b c : subnode a b → subnode b c → subnode a c.
Proof. intros Hab Hbc. induction Hbc; [done|]. by eapply subnode_child. Qed.

Lemma subnode_of_child c n : c ∈ children n → subnode c n.
Proof. intros. eapply subnode_child; [done|constructor]. Qed.

(** ** Spans *)

Definition inside (n m : node) : Prop := start m ≤ start n ∧ end_ n ≤ end_ m.

(** The first ends before the second begins. *)
Definition before (n m : node) : Prop := end_ n ≤ start m.

Definition has_char (source : string) (n : node) (c : ascii) : Prop :=
  ∃ p, start n ≤ p < end_ n ∧ String.get p source = Some c.

Definition keywords : list string := ["NullKeyword"; "TrueKeyword"; "FalseKeyword"].

Definition no_calls (n : node) : Prop :=
  ∀ sp e ts args, ¬ subnode (CallExpression sp e ts args) n.

(** What the compiler expects of a node: its children lie inside, in order; a call has
    its parenthesis and a property access its dot; literals, operators, accesses and
    keywords are not empty.  The parser guarantees all of these but [wf_types]: a type
    argument could hold a call in a computed name of a type literal. *)
Record node_wf (source : string) (n : node) : Prop := {
  wf_span : start n ≤ end_ n ≤ String.length source;
  wf_inside : Forall (λ c, inside c n) (children n);
  wf_order : StronglySorted before (children n);
  wf_call : match n with
    | CallExpression _ _ _ _ => has_char source n "("
    | PropertyAccessExpression _ _ _ => has_char source n "."
    | _ => True
    end;
  wf_nonempty : match n with
    | OtherNode _ k _ => k ∈ keywords → start n < end_ n
    | Identifier _ _ => True
    | _ => start n < end_ n
    end;
  wf_keyword : match n with OtherNode _ k l => k ∈ keywords → l = [] | _ => True end;
  wf_types : match n with CallExpression _ _ ts _ => Forall no_calls ts | _ => True end;
}.

Definition wf (source : string) (n : node) : Prop := ∀ m, subnode m n → node_wf source m.

Lemma wf_child source n c : wf source n → c ∈ children n → wf source c.
Proof. intros H Hc m Hm. apply H. by eapply subnode_child. Qed.

Lemma wf_self source n : wf source n → node_wf source n.
Proof. intros H. apply H. constructor. Qed.

Lemma inside_trans a b c : inside a b → inside b c → inside a c.
Proof. unfold inside. lia. Qed.

Lemma wf_child_inside source n c : wf source n → c ∈ children n → inside c n.
Proof.
  intros H Hc. pose proof (wf_inside _ _ (wf_self _ _ H)) as Hi.
  rewrite Forall_forall in Hi. auto.
Qed.

Lemma wf_subnode source n m : wf source n → subnode m n → wf source m.
Proof. intros H Hm k Hk. apply H. by eapply subnode_trans. Qed.

Lemma wf_subnode_inside source n m : wf source n → subnode m n → inside m n.
Proof.
  intros H Hm. induction Hm as [|n c Hc Hm IH]; [unfold inside; lia|].
  eapply inside_trans; [by apply IH, (wf_child _ n)|by apply (wf_child_inside source)].
Qed.

(** A node whose text has no parenthesis contains no call. *)
Lemma string_get_slice source i j p c :
  i ≤ p < j → String.get p source = Some c → String.get (p - i) (slice source i j) = Some c.
Proof.
  intros Hp Hg. unfold slice. rewrite String.substring_correct1 by lia.
  by replace (p - i + i) with p by lia.
Qed.

Lemma text_has_char source n m c :
  wf source n → subnode m n → has_char source m c →
  ∃ p, String.get p (getText source n) = Some c.
Proof.
  intros H Hm (p & Hp & Hg). pose proof (wf_subnode_inside _ _ _ H Hm) as [Hs He].
  exists (p - start n). apply string_get_slice; [lia|done].
Qed.

(** The names the compiler compares texts with have neither. *)
Definition plain_name (s : string) : Prop :=
  ∀ p, String.get p s ≠ Some "("%char ∧ String.get p s ≠ Some "."%char.

Definition plain_chars (s : string) : bool :=
  string_forallb (λ c, negb (Ascii.eqb c "(") && negb (Ascii.eqb c ".")) s.

Lemma plain_chars_name s : plain_chars s = true → plain_name s.
Proof.
  unfold plain_chars. induction s as [|c s IH]; intros H p; [by destruct p|].
  cbn in H. apply andb_true_iff in H as [Hc Hs]. destruct p as [|p]; cbn; [|by apply IH].
  apply andb_true_iff in Hc as [H1 H2]. split; intros [= ->]; done.
Qed.

Lemma plain_name_no_calls source n : wf source n → plain_name (getText source n) → no_calls n.
Proof.
  intros H Ht sp e ts args Hm.
  destruct (text_has_char _ _ _ _ H Hm (wf_call _ _ (H _ Hm))) as [p Hp]. by destruct (Ht p).
Qed.

Lemma plain_name_not_access source sp e name :
  wf source (PropertyAccessExpression sp e name) →
  ¬ plain_name (getText source (PropertyAccessExpression sp e name)).
Proof.
  intros H Ht.
  destruct (text_has_char _ _ _ _ H (subnode_refl _) (wf_call _ _ (wf_self _ _ H))) as [p Hp].
  by destruct (Ht p).
Qed.
