(* ===== verification/ExprCompiler.v ===== *)
(** * ExprCompiler: natural expressions to ExprIR
    (dsl/packages/compiler/src/expr-compiler.ts)

    [compileExpr] is shown to accept exactly the grammar its header documents, giving
    the expression the grammar denotes, and to blame a node inside the expression
    otherwise. *)

From S2P Require Import Prelude Collections JsNumber Ir TsAst.

Inductive compile_result (A : Type) :=
| Compiled (a : A)
| CompileError (error : string) (at_ : node).
Arguments Compiled {A} a.
Arguments CompileError {A} error at_.

(** [if ("error" in r) return r; ... r.expr ...] *)
#[export] Instance compile_ret : MRet compile_result := @Compiled.
#[export] Instance compile_bind : MBind compile_result := λ A B f m,
  match m with Compiled a => f a | CompileError e n => CompileError e n end.

Lemma compile_bind_Compiled {A B} (m : compile_result A) (f : A → compile_result B) b :
  (m ≫= f) = Compiled b ↔ ∃ a, m = Compiled a ∧ f a = Compiled b.
Proof. destruct m; cbn; naive_solver. Qed.

Lemma compile_bind_error {A B} (m : compile_result A) (f : A → compile_result B) e n :
  (m ≫= f) = CompileError e n ↔
  m = CompileError e n ∨ ∃ a, m = Compiled a ∧ f a = CompileError e n.
Proof. destruct m; cbn; naive_solver. Qed.

(** [text.replace(/_/g, "")] *)
Fixpoint strip_underscores (s : string) : string :=
  match s with
  | EmptyString => EmptyString
  | String c s' =>
      if Ascii.eqb c "_" then strip_underscores s' else String c (strip_underscores s')
  end.

Section compiler.
(** The source text, the registries' name tables, and the enum's reverse map
    [ts.SyntaxKind[k]], which gives some kinds an alias. *)
Context (source : string) (keyLookup paramLookup : list (string * number))
  (SyntaxKind : string → string).

Definition compile_number (node : node) (text : string) : compile_result ExprNode :=
  let value := Number (strip_underscores text) in
  if negb (isFinite value) then CompileError ("Invalid numeric literal: " +:+ text) node
  else Compiled (const_number value).

Definition compile_access (what : string) (node : node) (objName propName : string)
    : compile_result ExprNode :=
  if String.eqb objName "Key" then
    match map_get keyLookup propName with
    | None => CompileError ("Unknown key: Key." +:+ propName) node
    | Some keyId => Compiled (key_ref keyId)
    end
  else if String.eqb objName "P" then
    match map_get paramLookup propName with
    | None => CompileError ("Unknown param: P." +:+ propName) node
    | Some paramId => Compiled (param_ref paramId)
    end
  else
    CompileError ("Unsupported property access" +:+ what +:+ ": " +:+ objName +:+ "." +:+
      propName +:+ ". Only Key.* and P.* are allowed.") node.

Fixpoint compileExpr (node : node) : compile_result ExprNode :=
  match node with
  | NumericLiteral _ text => compile_number node text
  | PrefixUnaryExpression _ operator operand =>
      if String.eqb operator "MinusToken" then x ← compileExpr operand; Compiled (neg x)
      else if String.eqb operator "PlusToken" then compileExpr operand
      else CompileError ("Unsupported unary operator: " +:+ SyntaxKind operator) node
  | BinaryExpression _ left_ operatorToken right_ =>
      a ← compileExpr left_;
      b ← compileExpr right_;
      if String.eqb operatorToken "PlusToken" then Compiled (add a b)
      else if String.eqb operatorToken "MinusToken" then Compiled (sub a b)
      else if String.eqb operatorToken "AsteriskToken" then Compiled (mul a b)
      else if String.eqb operatorToken "SlashToken" then
        CompileError ("Division (/) is not supported in expressions. " +:+
          "Use multiplication with reciprocal instead.") node
      else CompileError ("Unsupported binary operator: " +:+ SyntaxKind operatorToken) node
  | PropertyAccessExpression _ expression name =>
      compile_access "" node (getText source expression) name
  | CallExpression _ expression _ arguments =>
      let fnName := getText source expression in
      if String.eqb fnName "coalesce" then
        match arguments with
        | [x; y] => a ← compileExpr x; b ← compileExpr y; Compiled (coalesce a b)
        | _ =>
            CompileError ("coalesce() requires exactly 2 arguments, got " +:+
              pretty (length arguments)) node
        end
      else
        CompileError ("Unsupported function call: " +:+ fnName +:+
          "(). Only coalesce() is allowed.") node
  | ParenthesizedExpression _ expression => compileExpr expression
  | _ =>
      if String.eqb (kind node) "NullKeyword" then Compiled const_null
      else CompileError ("Unsupported expression type: " +:+ SyntaxKind (kind node)) node
  end.

(** ** The grammar *)

Inductive denotes : node → ExprNode → Prop :=
| den_number sp text :
    isFinite (Number (strip_underscores text)) = true →
    denotes (NumericLiteral sp text) (const_number (Number (strip_underscores text)))
| den_null sp l : denotes (OtherNode sp "NullKeyword" l) const_null
| den_neg sp x e : denotes x e → denotes (PrefixUnaryExpression sp "MinusToken" x) (neg e)
| den_plus sp x e : denotes x e → denotes (PrefixUnaryExpression sp "PlusToken" x) e
| den_add sp l r a b :
    denotes l a → denotes r b → denotes (BinaryExpression sp l "PlusToken" r) (add a b)
| den_sub sp l r a b :
    denotes l a → denotes r b → denotes (BinaryExpression sp l "MinusToken" r) (sub a b)
| den_mul sp l r a b :
    denotes l a → denotes r b → denotes (BinaryExpression sp l "AsteriskToken" r) (mul a b)
| den_key sp x name i :
    getText source x = "Key" → map_get keyLookup name = Some i →
    denotes (PropertyAccessExpression sp x name) (key_ref i)
| den_param sp x name i :
    getText source x = "P" → map_get paramLookup name = Some i →
    denotes (PropertyAccessExpression sp x name) (param_ref i)
| den_coalesce sp f ts x y a b :
    getText source f = "coalesce" → denotes x a → denotes y b →
    denotes (CallExpression sp f ts [x; y]) (coalesce a b)
| den_paren sp x e : denotes x e → denotes (ParenthesizedExpression sp x) e.

(** ** The compiler decides the grammar *)

Lemma compile_access_Compiled what sp x name e :
  compile_access what (PropertyAccessExpression sp x name) (getText source x) name = Compiled e ↔
  denotes (PropertyAccessExpression sp x name) e.
Proof.
  unfold compile_access. split.
  - destruct (String.eqb_spec (getText source x) "Key").
    { destruct (map_get keyLookup name) eqn:?; intros [= <-]. by constructor. }
    destruct (String.eqb_spec (getText source x) "P"); [|done].
    destruct (map_get paramLookup name) eqn:?; intros [= <-]. by constructor.
  - inversion 1 as [| | | | | | |? ? ? ? Ht Hm|? ? ? ? Ht Hm| |]; subst; rewrite Ht, Hm; done.
Qed.

Lemma denotes_complete n e : denotes n e → compileExpr n = Compiled e.
Proof.
  induction 1; cbn; try by rewrite ?IHdenotes1, ?IHdenotes2, ?IHdenotes.
  - unfold compile_number. by rewrite H.
  - by apply compile_access_Compiled, den_key.
  - by apply compile_access_Compiled, den_param.
  - rewrite H. cbn. by rewrite IHdenotes1, IHdenotes2.
Qed.

Lemma compileExpr_sound n : ∀ e, compileExpr n = Compiled e → denotes n e.
Proof.
  induction n as [n IH] using node_ind_nested. intros e.
  destruct n as [sp t|sp t|sp t|sp o x|sp l o r|sp x name|sp f ts args|sp x|sp ps|sp x y|sp k l];
    cbn [children compileExpr] in *; try done; decompose_Forall.
  - unfold compile_number. destruct (isFinite _) eqn:E; intros [= <-]. by constructor.
  - destruct (String.eqb_spec o "MinusToken") as [->|].
    { intros (a & Ha & [= <-])%compile_bind_Compiled. constructor. auto. }
    destruct (String.eqb_spec o "PlusToken") as [->|]; [|done]. constructor. auto.
  - intros (a & Ha & (b & Hb & He)%compile_bind_Compiled)%compile_bind_Compiled.
    destruct (String.eqb_spec o "PlusToken") as [->|]; [injection He as <-; constructor; auto|].
    destruct (String.eqb_spec o "MinusToken") as [->|]; [injection He as <-; constructor; auto|].
    destruct (String.eqb_spec o "AsteriskToken") as [->|]; [injection He as <-; constructor; auto|].
    by destruct (String.eqb o "SlashToken").
  - apply compile_access_Compiled.
  - destruct (String.eqb_spec (getText source f) "coalesce"); [|done].
    destruct args as [|x [|y [|]]]; try done.
    decompose_Forall.
    intros (a & Ha & (b & Hb & [= <-])%compile_bind_Compiled)%compile_bind_Compiled.
    constructor; auto.
  - constructor. auto.
  - cbn. destruct (String.eqb_spec k "NullKeyword") as [->|]; intros [= <-]. constructor.
Qed.

Lemma compileExpr_iff n e : compileExpr n = Compiled e ↔ denotes n e.
Proof. split; [apply compileExpr_sound|apply denotes_complete]. Qed.

Lemma compile_access_error what n o p msg m :
  compile_access what n o p = CompileError msg m → m = n.
Proof. clear source SyntaxKind. unfold compile_access. repeat case_match; naive_solver. Qed.

(** An error is at the node or inside one of its children. *)
Lemma compileExpr_blames n : ∀ msg m, compileExpr n = CompileError msg m → subnode m n.
Proof.
  induction n as [n IH] using node_ind_nested. intros msg m.
  assert (∀ c msg m, c ∈ children n → compileExpr c = CompileError msg m → subnode m n) as Hc.
  { intros c msg' m' Hin Hm. rewrite Forall_forall in IH. eapply subnode_child; eauto. }
  assert (∀ msg' msg m, CompileError (A:=ExprNode) msg' n = CompileError msg m → subnode m n) as Hn.
  { intros msg1 msg2 m' [= _ <-]. constructor. }
  clear IH. destruct n as [sp t|sp t|sp t|sp o x|sp l o r|sp x name|sp f ts args|sp x|sp ps|sp x y|sp k l];
    cbn [children compileExpr kind] in *; try (simpl; solve [eauto]).
  - unfold compile_number. case_match; [eauto|done].
  - case_match; [|case_match; [|eauto]].
    + intros [Hx|(a & _ & [=])]%compile_bind_error. eapply Hc; [by left|done].
    + intros Hx. eapply Hc; [by left|done].
  - intros [Hx|(a & _ & [Hx|(b & _ & Hx)]%compile_bind_error)]%compile_bind_error.
    + eapply Hc; [by left|done].
    + eapply Hc; [by right; left|done].
    + repeat case_match; try done; eauto.
  - intros ->%compile_access_error. constructor.
  - case_match; [|eauto]. destruct args as [|x [|y [|]]]; eauto.
    intros [Hx|(a & _ & [Hx|(b & _ & [=])]%compile_bind_error)]%compile_bind_error;
      (eapply Hc; [|done]); set_solver.
  - intros Hx. eapply Hc; [by left|done].
  - case_match; [done|eauto].
Qed.
End compiler.

(** [getNodeLocation]: 1-based, from the source file's 0-based positions. *)
Definition getNodeLocation (getLineAndCharacterOfPosition : nat → nat * nat) (n : node)
    : nat * nat :=
  let (line, character) := getLineAndCharacterOfPosition (start n) in (line + 1, character + 1).

(** C6: [compileExpr] compiles exactly the expressions of its grammar, to the node the
    grammar denotes; anything else is an error located at a node of the expression. *)
Theorem compileExpr_correct source keyLookup paramLookup SyntaxKind n :
  (∀ e, compileExpr source keyLookup paramLookup SyntaxKind n = Compiled e ↔
    denotes source keyLookup paramLookup n e) ∧
  (∀ msg m, compileExpr source keyLookup paramLookup SyntaxKind n = CompileError msg m →
    subnode m n).
Proof. eauto using compileExpr_iff, compileExpr_blames. Qed.

(** [Key.score - 1], and a key that does not exist. *)
Definition key_access (name : string) : node :=
  PropertyAccessExpression {| getStart := 0; getEnd := 9 |}
    (Identifier {| getStart := 0; getEnd := 3 |} "Key") name.
Definition difference : node :=
  BinaryExpression {| getStart := 0; getEnd := 13 |} (key_access "score") "MinusToken"
    (NumericLiteral {| getStart := 12; getEnd := 13 |} "1").

Lemma compileExpr_correct_witness :
  denotes "Key.score - 1" [("score", num 3)] [] difference (sub (key_ref (num 3)) (const_number (num 1))) ∧
  subnode (key_access "score") difference.
Proof.
  split.
  - apply (compileExpr_correct "Key.score - 1" [("score", num 3)] [] id difference). by vm_compute.
  - eapply (compileExpr_correct "Key.score - 1" [] [] id difference). by vm_compute.
Defined.
