(* ===== verification/PredCompiler.v ===== *)
(** * PredCompiler: natural predicates to PredIR
    (dsl/packages/compiler/src/pred-compiler.ts)

    As for expressions: [compilePred] accepts exactly its documented grammar, and every
    predicate it builds is one the [Pred] builders could have built. *)

From S2P Require Import Prelude Collections JsNumber Ir TsAst ExprCompiler Builders.

(** The comparison operators, with [===] and [!==] normalised. *)
Definition cmpOps : list (string * string) :=
  [("EqualsEqualsToken", "=="); ("EqualsEqualsEqualsToken", "==");
   ("ExclamationEqualsToken", "!="); ("ExclamationEqualsEqualsToken", "!=");
   ("LessThanToken", "<"); ("LessThanEqualsToken", "<=");
   ("GreaterThanToken", ">"); ("GreaterThanEqualsToken", ">=")].

Definition isNullLiteral (n : node) : bool := String.eqb (kind n) "NullKeyword".

Section compiler.
Context (source : string) (keyLookup paramLookup : list (string * number))
  (SyntaxKind : string → string).

Definition isUndefinedLiteral (n : node) : bool :=
  match n with
  | Identifier _ _ => String.eqb (getText source n) "undefined"
  | _ => false
  end.

Fixpoint compileTerm (node : node) : compile_result ExprNode :=
  match node with
  | NumericLiteral _ text => compile_number node text
  | StringLiteral _ _ =>
      CompileError ("String literals in comparisons are not supported. " +:+
        "Use regex() or an 'in' list instead.") node
  | PropertyAccessExpression _ expression name =>
      compile_access keyLookup paramLookup " in predicate" node (getText source expression) name
  | ParenthesizedExpression _ expression => compileTerm expression
  | _ =>
      if isNullLiteral node then Compiled const_null
      else CompileError ("Unsupported term in predicate comparison: " +:+
        SyntaxKind (kind node) +:+ ". Only Key.*, P.*, numbers, and null are allowed.") node
  end.

(** A comparison; one with [null] is a null check of the other side. *)
Definition compileComparison (node left_ right_ : node) (cmpOp : string)
    : compile_result PredNode :=
  if isUndefinedLiteral left_ || isUndefinedLiteral right_ then
    CompileError "Comparisons with 'undefined' are not allowed. Use null instead." node
  else if isNullLiteral left_ || isNullLiteral right_ then
    x ← compileTerm (if isNullLiteral left_ then right_ else left_);
    if String.eqb cmpOp "==" then Compiled (is_null_ x)
    else if String.eqb cmpOp "!=" then Compiled (not_null x)
    else CompileError ("Null comparisons only support == and !=, not " +:+ cmpOp) node
  else
    a ← compileTerm left_;
    b ← compileTerm right_;
    Compiled (cmp cmpOp a b).

Definition compileRegexKey (keyArg : node) : compile_result number :=
  match keyArg with
  | PropertyAccessExpression _ expression keyName =>
      let keyObjName := getText source expression in
      if negb (String.eqb keyObjName "Key") then
        CompileError ("regex() first argument must be Key.<name>, got " +:+ keyObjName +:+
          ".<name>") keyArg
      else
        match map_get keyLookup keyName with
        | None => CompileError ("Unknown key: Key." +:+ keyName) keyArg
        | Some keyId => Compiled keyId
        end
  | _ => CompileError "regex() first argument must be Key.<name>" keyArg
  end.

Definition compileRegexPattern (patternArg : node) : compile_result RegexPattern :=
  match patternArg with
  | StringLiteral _ text => Compiled (pattern_literal text)
  | PropertyAccessExpression _ expression paramName =>
      let patternObjName := getText source expression in
      if negb (String.eqb patternObjName "P") then
        CompileError ("regex() pattern must be a string literal or P.<name>, got " +:+
          patternObjName +:+ ".<name>") patternArg
      else
        match map_get paramLookup paramName with
        | None => CompileError ("Unknown param: P." +:+ paramName) patternArg
        | Some paramId => Compiled (pattern_param paramId)
        end
  | _ => CompileError "regex() pattern must be a string literal or P.<name>" patternArg
  end.

Definition compileRegexFlags (flagsArg : node) : compile_result string :=
  match flagsArg with
  | StringLiteral _ flags =>
      if negb (String.eqb flags EmptyString) && negb (String.eqb flags "i") then
        CompileError ("regex() flags must be " +:+ quoted EmptyString +:+ " or " +:+
          quoted "i" +:+ ", got " +:+ quoted flags) flagsArg
      else Compiled flags
  | _ =>
      CompileError ("regex() flags must be a string literal (" +:+ quoted EmptyString +:+
        " or " +:+ quoted "i" +:+ ")") flagsArg
  end.

Definition compileRegexCall (node : node) (arguments : list TsAst.node)
    : compile_result PredNode :=
  match arguments with
  | keyArg :: patternArg :: flagsArgs =>
      match flagsArgs with
      | [] =>
          keyId ← compileRegexKey keyArg;
          pattern ← compileRegexPattern patternArg;
          Compiled (regex keyId pattern EmptyString)
      | [flagsArg] =>
          keyId ← compileRegexKey keyArg;
          pattern ← compileRegexPattern patternArg;
          flags ← compileRegexFlags flagsArg;
          Compiled (regex keyId pattern flags)
      | _ =>
          CompileError ("regex() requires 2 or 3 arguments, got " +:+
            pretty (length arguments)) node
      end
  | _ =>
      CompileError ("regex() requires 2 or 3 arguments, got " +:+ pretty (length arguments)) node
  end.

Fixpoint compilePred (node : node) : compile_result PredNode :=
  match node with
  | ParenthesizedExpression _ expression => compilePred expression
  | PrefixUnaryExpression _ operator operand =>
      if String.eqb operator "ExclamationToken" then x ← compilePred operand; Compiled (not_ x)
      else CompileError ("Unsupported unary operator in predicate: " +:+ SyntaxKind operator) node
  | BinaryExpression _ left_ opKind right_ =>
      if String.eqb opKind "AmpersandAmpersandToken" then
        a ← compilePred left_; b ← compilePred right_; Compiled (and_ a b)
      else if String.eqb opKind "BarBarToken" then
        a ← compilePred left_; b ← compilePred right_; Compiled (or_ a b)
      else
        match map_get cmpOps opKind with
        | Some cmpOp => compileComparison node left_ right_ cmpOp
        | None =>
            CompileError ("Unsupported binary operator in predicate: " +:+ SyntaxKind opKind) node
        end
  | CallExpression _ expression _ arguments =>
      let fnName := getText source expression in
      if String.eqb fnName "regex" then compileRegexCall node arguments
      else
        CompileError ("Unsupported function call in predicate: " +:+ fnName +:+
          "(). Only regex() is allowed.") node
  | _ =>
      if String.eqb (kind node) "TrueKeyword" then Compiled (const_bool true)
      else if String.eqb (kind node) "FalseKeyword" then Compiled (const_bool false)
      else CompileError ("Unsupported predicate expression: " +:+ SyntaxKind (kind node)) node
  end.

(** ** The grammar *)

Inductive denotes_term : node → ExprNode → Prop :=
| term_number sp text :
    isFinite (Number (strip_underscores text)) = true →
    denotes_term (NumericLiteral sp text) (const_number (Number (strip_underscores text)))
| term_null sp l : denotes_term (OtherNode sp "NullKeyword" l) const_null
| term_key sp x name i :
    getText source x = "Key" → map_get keyLookup name = Some i →
    denotes_term (PropertyAccessExpression sp x name) (key_ref i)
| term_param sp x name i :
    getText source x = "P" → map_get paramLookup name = Some i →
    denotes_term (PropertyAccessExpression sp x name) (param_ref i)
| term_paren sp x e : denotes_term x e → denotes_term (ParenthesizedExpression sp x) e.

(** A comparison [l op r] of two terms.  A bare [null] on either side makes it a null
    check, for which only equality and inequality exist. *)
Inductive compares : node → string → node → PredNode → Prop :=
| compares_null_left l r o x p :
    isNullLiteral l = true → denotes_term r x →
    (o = "==" ∧ p = is_null_ x ∨ o = "!=" ∧ p = not_null x) → compares l o r p
| compares_null_right l r o x p :
    isNullLiteral l = false → isNullLiteral r = true → denotes_term l x →
    (o = "==" ∧ p = is_null_ x ∨ o = "!=" ∧ p = not_null x) → compares l o r p
| compares_terms l r o a b :
    isNullLiteral l = false → isNullLiteral r = false →
    denotes_term l a → denotes_term r b → compares l o r (cmp o a b).

Inductive denotes_pattern : node → RegexPattern → Prop :=
| pattern_string sp text : denotes_pattern (StringLiteral sp text) (pattern_literal text)
| pattern_P sp x name i :
    getText source x = "P" → map_get paramLookup name = Some i →
    denotes_pattern (PropertyAccessExpression sp x name) (pattern_param i).

Inductive denotes_flags : list node → string → Prop :=
| flags_none : denotes_flags [] EmptyString
| flags_literal sp text :
    text = EmptyString ∨ text = "i" → denotes_flags [StringLiteral sp text] text.

Inductive denotes_pred : node → PredNode → Prop :=
| pred_true sp l : denotes_pred (OtherNode sp "TrueKeyword" l) (const_bool true)
| pred_false sp l : denotes_pred (OtherNode sp "FalseKeyword" l) (const_bool false)
| pred_paren sp x p : denotes_pred x p → denotes_pred (ParenthesizedExpression sp x) p
| pred_not sp x p :
    denotes_pred x p → denotes_pred (PrefixUnaryExpression sp "ExclamationToken" x) (not_ p)
| pred_and sp l r a b :
    denotes_pred l a → denotes_pred r b →
    denotes_pred (BinaryExpression sp l "AmpersandAmpersandToken" r) (and_ a b)
| pred_or sp l r a b :
    denotes_pred l a → denotes_pred r b →
    denotes_pred (BinaryExpression sp l "BarBarToken" r) (or_ a b)
| pred_compare sp l op o r p :
    map_get cmpOps op = Some o → compares l o r p → denotes_pred (BinaryExpression sp l op r) p
| pred_regex sp f ts sp' k name i x pat fs fl :
    getText source f = "regex" → getText source k = "Key" →
    map_get keyLookup name = Some i → denotes_pattern x pat → denotes_flags fs fl →
    denotes_pred (CallExpression sp f ts (PropertyAccessExpression sp' k name :: x :: fs))
      (regex i pat fl).

(** ** The compiler decides it *)

Lemma compileTerm_sound n : ∀ e, compileTerm n = Compiled e → denotes_term n e.
Proof.
  induction n as [n IH] using node_ind_nested. intros e.
  destruct n as [sp t|sp t|sp t|sp o x|sp l o r|sp x name|sp f ts args|sp x|sp ps|sp x y|sp k l];
    cbn [children compileTerm] in *; try done; decompose_Forall.
  - unfold compile_number. destruct (isFinite _) eqn:E; intros [= <-]. by constructor.
  - intros Hacc%(compile_access_Compiled source).
    inversion Hacc; subst; [by apply term_key|by apply term_param].
  - constructor. auto.
  - unfold isNullLiteral. cbn. destruct (String.eqb_spec k "NullKeyword") as [->|]; intros [= <-].
    constructor.
Qed.

Lemma compileTerm_complete n e : denotes_term n e → compileTerm n = Compiled e.
Proof.
  induction 1; cbn; auto.
  - unfold compile_number. by rewrite H.
  - by apply (compile_access_Compiled source), den_key.
  - by apply (compile_access_Compiled source), den_param.
Qed.

Lemma term_not_undefined n e : denotes_term n e → isUndefinedLiteral n = false.
Proof. by destruct 1. Qed.

Lemma null_not_undefined n : isNullLiteral n = true → isUndefinedLiteral n = false.
Proof. by destruct n. Qed.

Lemma null_check_Compiled x (o : string) n p :
  (if String.eqb o "==" then Compiled (is_null_ x)
   else if String.eqb o "!=" then Compiled (not_null x)
   else CompileError ("Null comparisons only support == and !=, not " +:+ o) n) = Compiled p ↔
  (o = "==" ∧ p = is_null_ x ∨ o = "!=" ∧ p = not_null x).
Proof.
  destruct (String.eqb_spec o "=="); [naive_solver|].
  destruct (String.eqb_spec o "!="); naive_solver.
Qed.

Lemma compileComparison_iff n l r o p :
  compileComparison n l r o = Compiled p ↔ compares l o r p.
Proof.
  unfold compileComparison. split.
  - destruct (isUndefinedLiteral l || isUndefinedLiteral r); [done|].
    destruct (isNullLiteral l) eqn:Hl; cbn [orb].
    { intros (x & Hx%compileTerm_sound & H)%compile_bind_Compiled.
      apply (compares_null_left _ _ _ x); [done|exact Hx|]. by apply null_check_Compiled in H. }
    destruct (isNullLiteral r) eqn:Hr.
    { intros (x & Hx%compileTerm_sound & H)%compile_bind_Compiled.
      apply (compares_null_right _ _ _ x); [done|done|exact Hx|].
      by apply null_check_Compiled in H. }
    intros (a & Ha%compileTerm_sound & (b & Hb%compileTerm_sound & [= <-])%compile_bind_Compiled)
      %compile_bind_Compiled. by apply compares_terms.
  - intros [l' r' o' x p' Hl Hx H|l' r' o' x p' Hl Hr Hx H|l' r' o' a b Hl Hr Ha Hb].
    + rewrite (null_not_undefined _ Hl), (term_not_undefined _ _ Hx), Hl. cbn [orb].
      rewrite (compileTerm_complete _ _ Hx). by apply null_check_Compiled.
    + rewrite (term_not_undefined _ _ Hx), (null_not_undefined _ Hr), Hl, Hr. cbn [orb].
      rewrite (compileTerm_complete _ _ Hx). by apply null_check_Compiled.
    + rewrite (term_not_undefined _ _ Ha), (term_not_undefined _ _ Hb), Hl, Hr. cbn [orb].
      by rewrite (compileTerm_complete _ _ Ha), (compileTerm_complete _ _ Hb).
Qed.

Lemma compileRegexPattern_iff n p : compileRegexPattern n = Compiled p ↔ denotes_pattern n p.
Proof.
  split.
  - destruct n; try done; cbn; [intros [= <-]; constructor|].
    destruct (String.eqb_spec (getText source n) "P"); [cbn|done].
    destruct (map_get paramLookup name) eqn:?; intros [= <-]. by constructor.
  - intros [sp t|sp x name i Ht Hm]; cbn; [done|]. by rewrite Ht, Hm.
Qed.

Lemma compileRegexFlags_iff n fl :
  compileRegexFlags n = Compiled fl ↔ denotes_flags [n] fl.
Proof.
  split.
  - destruct n; try done. cbn. destruct (String.eqb_spec text EmptyString) as [->|]; cbn.
    { intros [= <-]. constructor. by left. }
    destruct (String.eqb_spec text "i") as [->|]; cbn; intros [= <-]. constructor. by right.
  - inversion 1 as [|? ? [->| ->]]; done.
Qed.

Lemma compileRegexKey_iff n i :
  compileRegexKey n = Compiled i ↔ ∃ sp k name,
    n = PropertyAccessExpression sp k name ∧ getText source k = "Key" ∧
    map_get keyLookup name = Some i.
Proof.
  split.
  - destruct n; try done. cbn. destruct (String.eqb_spec (getText source n) "Key"); [cbn|done].
    destruct (map_get keyLookup name) eqn:?; intros [= <-]. naive_solver.
  - intros (sp & k & name & -> & Ht & Hm). cbn. by rewrite Ht, Hm.
Qed.

Lemma compileRegexCall_iff n args p :
  compileRegexCall n args = Compiled p ↔ ∃ sp k name i x pat fs fl,
    args = PropertyAccessExpression sp k name :: x :: fs ∧ p = regex i pat fl ∧
    getText source k = "Key" ∧ map_get keyLookup name = Some i ∧
    denotes_pattern x pat ∧ denotes_flags fs fl.
Proof.
  split.
  - destruct args as [|ka [|x [|fa [|]]]]; try done; cbn [compileRegexCall].
    + intros (i & (sp & k & name & -> & ? & ?)%compileRegexKey_iff &
        (pat & Hp%compileRegexPattern_iff & [= <-])%compile_bind_Compiled)%compile_bind_Compiled.
      repeat eexists; try done. constructor.
    + intros (i & (sp & k & name & -> & ? & ?)%compileRegexKey_iff &
        (pat & Hp%compileRegexPattern_iff & (fl & Hf%compileRegexFlags_iff & [= <-])
          %compile_bind_Compiled)%compile_bind_Compiled)%compile_bind_Compiled.
      by repeat eexists.
  - intros (sp & k & name & i & x & pat & fs & fl & -> & -> & Ht & Hm & Hp & Hf).
    assert (compileRegexKey (PropertyAccessExpression sp k name) = Compiled i) as Hk.
    { apply compileRegexKey_iff. naive_solver. }
    apply compileRegexPattern_iff in Hp.
    destruct Hf as [|sp' t Hf]; cbn [compileRegexCall]; rewrite Hk; cbn; rewrite Hp; cbn; [done|].
    by destruct Hf as [->| ->].
Qed.

Lemma cmpOps_not_logical op o :
  map_get cmpOps op = Some o →
  String.eqb op "AmpersandAmpersandToken" = false ∧ String.eqb op "BarBarToken" = false.
Proof.
  intros H%map_get_Some_elem_of. unfold cmpOps in H.
  repeat (apply elem_of_cons in H as [[= -> _]|H]; [done|]). by apply elem_of_nil in H.
Qed.

#[local] Opaque cmpOps.

Lemma compilePred_sound n : ∀ p, compilePred n = Compiled p → denotes_pred n p.
Proof.
  induction n as [n IH] using node_ind_nested. intros p.
  destruct n as [sp t|sp t|sp t|sp o x|sp l o r|sp x name|sp f ts args|sp x|sp ps|sp x y|sp k l];
    cbn [children compilePred] in *; try done; decompose_Forall.
  - destruct (String.eqb_spec o "ExclamationToken") as [->|]; [|done].
    intros (a & Ha & [= <-])%compile_bind_Compiled. constructor. auto.
  - destruct (String.eqb_spec o "AmpersandAmpersandToken") as [->|].
    { intros (a & Ha & (b & Hb & [= <-])%compile_bind_Compiled)%compile_bind_Compiled.
      constructor; auto. }
    destruct (String.eqb_spec o "BarBarToken") as [->|].
    { intros (a & Ha & (b & Hb & [= <-])%compile_bind_Compiled)%compile_bind_Compiled.
      constructor; auto. }
    destruct (map_get cmpOps o) as [c|] eqn:Hc; [|done].
    intros Hp%compileComparison_iff. by eapply pred_compare.
  - destruct (String.eqb_spec (getText source f) "regex"); [|done].
    intros (sp' & k & name & i & x & pat & fs & fl & -> & -> & ? & ? & ? & ?)%compileRegexCall_iff.
    by constructor.
  - constructor. auto.
  - cbn. destruct (String.eqb_spec k "TrueKeyword") as [->|]; [intros [= <-]; constructor|].
    destruct (String.eqb_spec k "FalseKeyword") as [->|]; intros [= <-]. constructor.
Qed.

Lemma compilePred_complete n p : denotes_pred n p → compilePred n = Compiled p.
Proof.
  induction 1; cbn [compilePred]; rewrite ?IHdenotes_pred1, ?IHdenotes_pred2, ?IHdenotes_pred; try done.
  - destruct (cmpOps_not_logical _ _ H) as [-> ->]. rewrite H. by apply compileComparison_iff.
  - rewrite H, String.eqb_refl. apply compileRegexCall_iff. by repeat eexists.
Qed.

#[local] Transparent cmpOps.

Lemma compilePred_iff n p : compilePred n = Compiled p ↔ denotes_pred n p.
Proof. split; [apply compilePred_sound|apply compilePred_complete]. Qed.

(** ** What it builds *)

Lemma denotes_term_ok n e : denotes_term n e → expr_ok e = true.
Proof. by induction 1. Qed.

Lemma denotes_pred_ok n p : denotes_pred n p → pred_ok p = true.
Proof.
  induction 1; cbn; auto using andb_true_intro.
  - destruct H0 as [? ? ? ? ? _ Hx%denotes_term_ok [[_ ->]|[_ ->]]
      |? ? ? ? ? _ _ Hx%denotes_term_ok [[_ ->]|[_ ->]]
      |? ? ? ? ? _ _ Ha%denotes_term_ok Hb%denotes_term_ok]; cbn; auto using andb_true_intro.
  - destruct H3 as [|? ? [->| ->]]; done.
Qed.
End compiler.

(** C7: [compilePred] compiles exactly the predicates of its grammar, to the node the
    grammar denotes, and each is a node the [Pred] builders accept: finite constants,
    known flags. *)
Theorem compilePred_correct source keyLookup paramLookup SyntaxKind n p :
  (compilePred source keyLookup paramLookup SyntaxKind n = Compiled p ↔
    denotes_pred source keyLookup paramLookup n p) ∧
  (compilePred source keyLookup paramLookup SyntaxKind n = Compiled p →
    build_pred p = Ok (pred_value p)).
Proof.
  split; [apply compilePred_iff|]. intros H%compilePred_iff%denotes_pred_ok.
  by apply (yields_iff _ _ _ (build_pred_yields p)).
Qed.

(** [Key.score >= 1] *)
Definition comparison_node : node :=
  BinaryExpression {| getStart := 0; getEnd := 14 |} (key_access "score") "GreaterThanEqualsToken"
    (NumericLiteral {| getStart := 13; getEnd := 14 |} "1").

Lemma compilePred_correct_witness :
  denotes_pred "Key.score >= 1" [("score", num 3)] [] comparison_node
    (cmp ">=" (key_ref (num 3)) (const_number (num 1))) ∧
  build_pred (cmp ">=" (key_ref (num 3)) (const_number (num 1))) =
    Ok (pred_value (cmp ">=" (key_ref (num 3)) (const_number (num 1)))).
Proof.
  split; apply (compilePred_correct "Key.score >= 1" [("score", num 3)] [] id comparison_node
    (cmp ">=" (key_ref (num 3)) (const_number (num 1)))); by vm_compute.
Defined.
