(* ===== verification/AstExtractor.v ===== *)
(** * AstExtractor: extraction of natural expressions and predicates from a plan's
    source (dsl/packages/compiler/src/ast-extractor.ts)

    [extractExpressions] walks the syntax tree, compiles the natural expressions and
    predicates of task calls and replaces them in the source text by placeholders.  The
    parser and the source file's line table belong to the [typescript] package and are
    parameters; the results hold for every tree that is [wf]. *)

From S2P Require Import Prelude Collections JsNumber Ir TsAst ExprCompiler PredCompiler.

(** ** The registries *)

Definition keyLookup : list (string * number) :=
  [("id", num 1); ("model_score_1", num 1001); ("model_score_2", num 1002);
   ("final_score", num 2001); ("country", num 3001); ("title", num 3002);
   ("features_esr", num 4001); ("features_lsr", num 4002)].

Definition paramLookup : list (string * number) :=
  [("media_age_penalty_weight", num 1); ("blocklist_regex", num 2); ("esr_cutoff", num 3)].

Record TaskExtractionInfo := { exprProp : option string; predProp : option string }.

(** [TASK_EXTRACTION_INFO]; no name of [Object.prototype] is a qualified op. *)
Definition task_extraction_info : list (string * TaskExtractionInfo) :=
  [("core::filter", {| exprProp := None; predProp := Some "pred" |});
   ("core::vm", {| exprProp := Some "expr"; predProp := None |})].

(** [methodName.replace(/[A-Z]/g, letter => `_${letter.toLowerCase()}`)] *)
Fixpoint methodNameToSnakeCase (methodName : string) : string :=
  match methodName with
  | EmptyString => EmptyString
  | String c s =>
      if is_upper c then String "_" (String (to_lower c) (methodNameToSnakeCase s))
      else String c (methodNameToSnakeCase s)
  end.

(** ** Which nodes are extracted *)

Section style.
Context (source : string).

Definition is_op_property (prop : node) : bool :=
  match prop with
  | PropertyAssignment _ (Identifier _ name) _ => String.eqb name "op"
  | _ => false
  end.

(** [E.something(...)] (or [Pred.something(...)]), or an object with a property [op]. *)
Definition isBuilderStyle (builder : string) (n : node) : bool :=
  match n with
  | CallExpression _ (PropertyAccessExpression _ object _) _ _ =>
      String.eqb (getText source object) builder
  | ObjectLiteralExpression _ properties => existsb is_op_property properties
  | _ => false
  end.
Definition isExprBuilderStyle : node → bool := isBuilderStyle "E".
Definition isPredBuilderStyle : node → bool := isBuilderStyle "Pred".

Fixpoint isNaturalExpr (n : node) : bool :=
  if isExprBuilderStyle n then false
  else
    match n with
    | NumericLiteral _ _ | PrefixUnaryExpression _ _ _ | BinaryExpression _ _ _ _ => true
    | ParenthesizedExpression _ e => isNaturalExpr e
    | PropertyAccessExpression _ object _ =>
        let objName := getText source object in String.eqb objName "Key" || String.eqb objName "P"
    | CallExpression _ f _ _ => String.eqb (getText source f) "coalesce"
    | _ => String.eqb (kind n) "NullKeyword"
    end.

Definition predicate_operators : list string :=
  ["AmpersandAmpersandToken"; "BarBarToken"; "EqualsEqualsToken"; "EqualsEqualsEqualsToken";
   "ExclamationEqualsToken"; "ExclamationEqualsEqualsToken"; "LessThanToken";
   "LessThanEqualsToken"; "GreaterThanToken"; "GreaterThanEqualsToken"].

Fixpoint isNaturalPred (n : node) : bool :=
  if isPredBuilderStyle n then false
  else
    match n with
    | ParenthesizedExpression _ e => isNaturalPred e
    | PrefixUnaryExpression _ operator _ => String.eqb operator "ExclamationToken"
    | BinaryExpression _ _ opKind _ => string_elem predicate_operators opKind
    | CallExpression _ f _ _ => String.eqb (getText source f) "regex"
    | _ => String.eqb (kind n) "TrueKeyword" || String.eqb (kind n) "FalseKeyword"
    end.
End style.

(** ** Extraction *)

Record ExtractionError := { message : string; line : nat; column : nat }.

#[export] Instance ExtractionError_eq_dec : EqDecision ExtractionError.
Proof. solve_decision. Defined.

Inductive replacement_kind := expr_replacement | pred_replacement.

Record Replacement := {
  r_kind : replacement_kind;
  r_start : nat;
  r_end : nat;
  r_id : nat;
}.

Record ExtractionResult := {
  rewrittenSource : string;
  extractedExprs : list (nat * ExprNode);
  extractedPreds : list (nat * PredNode);
  errors : list ExtractionError;
}.

(** The variables of [extractExpressions]. *)
Record extraction_state := {
  st_exprs : list (nat * ExprNode);
  st_preds : list (nat * PredNode);
  st_errors : list ExtractionError;
  st_replacements : list Replacement;
  exprCounter : nat;
  predCounter : nat;
}.

Definition initial_state : extraction_state :=
  {| st_exprs := []; st_preds := []; st_errors := []; st_replacements := [];
     exprCounter := 0; predCounter := 0 |}.

Section extraction.
Context (source : string) (SyntaxKind : string → string)
  (getLineAndCharacterOfPosition : nat → nat * nat).

Definition push_error (msg : string) (at_ : node) (st : extraction_state) : extraction_state :=
  let (l, c) := getNodeLocation getLineAndCharacterOfPosition at_ in
  {| st_exprs := st_exprs st; st_preds := st_preds st;
     st_errors := st_errors st ++ [{| message := msg; line := l; column := c |}];
     st_replacements := st_replacements st;
     exprCounter := exprCounter st; predCounter := predCounter st |}.

Definition tryExtractExpr (exprNode : node) (st : extraction_state) : extraction_state :=
  if negb (isNaturalExpr source exprNode) then st
  else
    match compileExpr source keyLookup paramLookup SyntaxKind exprNode with
    | CompileError msg at_ => push_error msg at_ st
    | Compiled e =>
        let exprId := exprCounter st in
        {| st_exprs := st_exprs st ++ [(exprId, e)]; st_preds := st_preds st;
           st_errors := st_errors st;
           st_replacements := st_replacements st ++
             [{| r_kind := expr_replacement; r_start := start exprNode; r_end := end_ exprNode;
                 r_id := exprId |}];
           exprCounter := S exprId; predCounter := predCounter st |}
    end.

Definition tryExtractPred (predNode : node) (st : extraction_state) : extraction_state :=
  if negb (isNaturalPred source predNode) then st
  else
    match compilePred source keyLookup paramLookup SyntaxKind predNode with
    | CompileError msg at_ => push_error msg at_ st
    | Compiled p =>
        let predId := predCounter st in
        {| st_exprs := st_exprs st; st_preds := st_preds st ++ [(predId, p)];
           st_errors := st_errors st;
           st_replacements := st_replacements st ++
             [{| r_kind := pred_replacement; r_start := start predNode; r_end := end_ predNode;
                 r_id := predId |}];
           exprCounter := exprCounter st; predCounter := S predId |}
    end.

(** [cs.vm(...)] is in [core]; [cs.test.sleep(...)] in [test]. *)
Definition getNamespaceFromCall (callee : node) : string :=
  match callee with
  | PropertyAccessExpression _ (PropertyAccessExpression _ _ name) _ => name
  | _ => "core"
  end.

Definition is_prop (p : option string) (name : string) : bool :=
  match p with Some q => negb (String.eqb q EmptyString) && String.eqb name q | None => false end.

Definition process_property (info : TaskExtractionInfo) (prop : node) (st : extraction_state)
    : extraction_state :=
  match prop with
  | PropertyAssignment _ (Identifier _ name) initializer =>
      if is_prop (exprProp info) name then tryExtractExpr initializer st
      else if is_prop (predProp info) name then tryExtractPred initializer st
      else st
  | _ => st
  end.

Definition process_argument (info : TaskExtractionInfo) (arg : node) (st : extraction_state)
    : extraction_state :=
  match arg with
  | ObjectLiteralExpression _ properties =>
      foldl (λ st prop, process_property info prop st) st properties
  | _ => st
  end.

Definition processMethodCall (methodName : string) (callee : node) (arguments : list node)
    (st : extraction_state) : extraction_state :=
  let qualifiedOp := getNamespaceFromCall callee +:+ "::" +:+ methodNameToSnakeCase methodName in
  match map_get task_extraction_info qualifiedOp with
  | None => st
  | Some info => foldl (λ st arg, process_argument info arg st) st arguments
  end.

Definition process_node (n : node) (st : extraction_state) : extraction_state :=
  match n with
  | CallExpression _ (PropertyAccessExpression _ _ methodName as callee) _ arguments =>
      processMethodCall methodName callee arguments st
  | _ => st
  end.

(** The node, then its children: [ts.forEachChild(node, visit)]. *)
Fixpoint visit (n : node) (st : extraction_state) : extraction_state :=
  let st := process_node n st in
  let visit_all := fix go (l : list node) (st : extraction_state) :=
    match l with [] => st | c :: l' => go l' (visit c st) end in
  match n with
  | NumericLiteral _ _ | StringLiteral _ _ | Identifier _ _ => st
  | PrefixUnaryExpression _ _ x => visit x st
  | BinaryExpression _ l _ r => visit r (visit l st)
  | PropertyAccessExpression _ e _ => visit e st
  | CallExpression _ e ts args => visit_all args (visit_all ts (visit e st))
  | ParenthesizedExpression _ e => visit e st
  | ObjectLiteralExpression _ ps => visit_all ps st
  | PropertyAssignment _ name init => visit init (visit name st)
  | OtherNode _ _ l => visit_all l st
  end.
End extraction.

(** ** Rewriting *)

Definition placeholder (r : Replacement) : string :=
  match r_kind r with
  | expr_replacement => "{ __expr_id: " +:+ pretty (r_id r) +:+ " }"
  | pred_replacement => "{ __pred_id: " +:+ pretty (r_id r) +:+ " }"
  end.

Definition replace (s : string) (r : Replacement) : string :=
  slice s 0 (r_start r) +:+ placeholder r +:+ slice s (r_end r) (String.length s).

(** [(a, b) => b.start - a.start] *)
Definition by_start_descending (a b : Replacement) : comparison :=
  Nat.compare (r_start b) (r_start a).

Definition extractExpressions
    (createSourceFile : string → string → node) (SyntaxKind : string → string)
    (getLineAndCharacterOfPosition : string → nat → nat * nat)
    (sourceCode fileName : string) : ExtractionResult :=
  let sourceFile := createSourceFile fileName sourceCode in
  let st := visit sourceCode SyntaxKind (getLineAndCharacterOfPosition sourceCode) sourceFile
              initial_state in
  {| rewrittenSource :=
       match st_errors st with
       | [] => foldl replace sourceCode (js_sort by_start_descending (st_replacements st))
       | _ => sourceCode
       end;
     extractedExprs := st_exprs st;
     extractedPreds := st_preds st;
     errors := st_errors st |}.

(** ** The sites of a tree

    The places [visit] tries to extract, in its order; the walk is the fold of the
    attempts over them. *)

Definition site : Type := replacement_kind * node.

Definition property_sites (info : TaskExtractionInfo) (prop : node) : list site :=
  match prop with
  | PropertyAssignment _ (Identifier _ name) init =>
      if is_prop (exprProp info) name then [(expr_replacement, init)]
      else if is_prop (predProp info) name then [(pred_replacement, init)]
      else []
  | _ => []
  end.

Definition argument_sites (info : TaskExtractionInfo) (arg : node) : list site :=
  match arg with
  | ObjectLiteralExpression _ properties => flat_map (property_sites info) properties
  | _ => []
  end.

Definition node_sites (n : node) : list site :=
  match n with
  | CallExpression _ (PropertyAccessExpression _ _ methodName as callee) _ arguments =>
      match map_get task_extraction_info
        (getNamespaceFromCall callee +:+ "::" +:+ methodNameToSnakeCase methodName) with
      | None => []
      | Some info => flat_map (argument_sites info) arguments
      end
  | _ => []
  end.

Fixpoint sites (n : node) : list site :=
  let all := fix go (l : list node) := match l with [] => [] | c :: l' => sites c ++ go l' end in
  node_sites n ++
  match n with
  | NumericLiteral _ _ | StringLiteral _ _ | Identifier _ _ => []
  | PrefixUnaryExpression _ _ x => sites x
  | BinaryExpression _ l _ r => sites l ++ sites r
  | PropertyAccessExpression _ e _ => sites e
  | CallExpression _ e ts args => sites e ++ all ts ++ all args
  | ParenthesizedExpression _ e => sites e
  | ObjectLiteralExpression _ ps => all ps
  | PropertyAssignment _ name init => sites name ++ sites init
  | OtherNode _ _ l => all l
  end.

Lemma sites_children n : sites n = node_sites n ++ flat_map sites (children n).
Proof.
  assert (∀ l, (fix go (l : list node) := match l with [] => [] | c :: l' => sites c ++ go l' end) l
    = flat_map sites l) as H by (intros l; induction l; cbn; congruence).
  destruct n; cbn [children flat_map sites]; rewrite ?app_nil_r, ?H; try done.
  by rewrite flat_map_app.
Qed.

Section walk.
Context (source : string) (SyntaxKind : string → string)
  (getLineAndCharacterOfPosition : nat → nat * nat).

Definition try_site (st : extraction_state) (s : site) : extraction_state :=
  match s.1 with
  | expr_replacement => tryExtractExpr source SyntaxKind getLineAndCharacterOfPosition s.2 st
  | pred_replacement => tryExtractPred source SyntaxKind getLineAndCharacterOfPosition s.2 st
  end.

Lemma foldl_flat_map {A} (f : A → list site) (g : extraction_state → A → extraction_state) l :
  (∀ st x, g st x = foldl try_site st (f x)) →
  ∀ st, foldl g st l = foldl try_site st (flat_map f l).
Proof.
  intros H. induction l as [|x l IH]; intros st; cbn; [done|]. by rewrite foldl_app, H, IH.
Qed.

Lemma process_node_sites n st :
  process_node source SyntaxKind getLineAndCharacterOfPosition n st
  = foldl try_site st (node_sites n).
Proof.
  destruct n as [| | | | | |sp f ts args| | | |]; try done. destruct f; try done.
  cbn [process_node node_sites]. unfold processMethodCall.
  destruct (map_get _ _) as [info|]; [|done].
  apply foldl_flat_map. intros st' arg. destruct arg; try done. cbn.
  apply foldl_flat_map. intros st2 prop. destruct prop as [| | | | | | | | |sp' [] init|]; try done.
  cbn. destruct (is_prop _ _); [done|]. by destruct (is_prop _ _).
Qed.

Lemma visit_sites n : ∀ st,
  visit source SyntaxKind getLineAndCharacterOfPosition n st = foldl try_site st (sites n).
Proof.
  induction n as [n IH] using node_ind_nested. intros st.
  rewrite sites_children, foldl_app, <-process_node_sites.
  set (st' := process_node _ _ _ n st).
  assert (∀ l st, Forall (λ n, ∀ st,
      visit source SyntaxKind getLineAndCharacterOfPosition n st = foldl try_site st (sites n)) l →
    (fix go (l : list node) (st : extraction_state) :=
      match l with
      | [] => st
      | c :: l' => go l' (visit source SyntaxKind getLineAndCharacterOfPosition c st)
      end) l st = foldl try_site st (flat_map sites l)) as Hall.
  { intros l. induction l as [|c l IHl]; intros s0 Hl; [done|]. cbn.
    inversion_clear Hl as [|? ? Hc Hl']. rewrite foldl_app, Hc. by apply IHl. }
  destruct n; cbn [children flat_map] in *; cbn [visit]; fold st'; try done;
    decompose_Forall; rewrite ?flat_map_app, ?foldl_app, ?Hall by done; cbn [foldl].
  all: repeat match goal with H : ∀ st, visit _ _ _ ?n st = _ |- context [visit _ _ _ ?n _] =>
    rewrite H end; done.
Qed.
End walk.

(** ** Sites that compile have no sites inside *)

Lemma no_calls_sites n : no_calls n → sites n = [].
Proof.
  induction n as [n IH] using node_ind_nested. intros Hn. rewrite sites_children.
  assert (node_sites n = []) as ->.
  { destruct n as [| | | | | |sp f ts args| | | |]; try done.
    destruct (Hn sp f ts args). constructor. }
  cbn. assert (∀ c, c ∈ children n → no_calls c) as Hc.
  { intros c Hc sp e ts args Hm. apply (Hn sp e ts args). by eapply subnode_child. }
  revert IH Hc. generalize (children n). intros l IH Hc.
  induction IH as [|c l Hcl _ IHl]; [done|]. cbn.
  rewrite Hcl by (apply Hc; left). cbn. apply IHl. intros c' Hc'. apply Hc. by right.
Qed.

Lemma flat_map_nil {A B} (f : A → list B) l : (∀ x, x ∈ l → f x = []) → flat_map f l = [].
Proof.
  induction l as [|x l IH]; intros H; [done|]. cbn. rewrite H by left. cbn.
  apply IH. intros y Hy. apply H. by right.
Qed.

Section disjoint.
Context (source : string) (keyLookup paramLookup : list (string * number)).
Implicit Types n : node.

Lemma coalesce_call_sites sp f ts args name :
  wf source (CallExpression sp f ts args) → getText source f = name → plain_name name →
  (∀ x, x ∈ args → sites x = []) → sites (CallExpression sp f ts args) = [].
Proof.
  intros H Hf Hname Hargs. assert (f ∈ children (CallExpression sp f ts args)) as Hin by left.
  pose proof (wf_child _ _ _ H Hin) as Hwf. rewrite sites_children.
  assert (node_sites (CallExpression sp f ts args) = []) as ->.
  { destruct f; try done. destruct (plain_name_not_access _ _ _ _ Hwf). by rewrite Hf. }
  apply (flat_map_nil sites (f :: ts ++ args)). intros c [->|[Hc|Hc]%elem_of_app]%elem_of_cons; [| |auto].
  - apply no_calls_sites, (plain_name_no_calls source); [done|by rewrite Hf].
  - apply no_calls_sites. pose proof (wf_types _ _ (wf_self _ _ H)) as Ht.
    rewrite Forall_forall in Ht. auto.
Qed.

Lemma access_sites sp x name obj :
  wf source (PropertyAccessExpression sp x name) → getText source x = obj → plain_name obj →
  sites (PropertyAccessExpression sp x name) = [].
Proof.
  intros H Hx Hobj. cbn. apply no_calls_sites, (plain_name_no_calls source).
  - apply (wf_child _ _ _ H). left.
  - by rewrite Hx.
Qed.

Lemma keyword_sites sp k l :
  wf source (OtherNode sp k l) → k ∈ keywords → sites (OtherNode sp k l) = [].
Proof.
  intros H Hk. pose proof (wf_keyword _ _ (wf_self _ _ H) Hk) as ->. done.
Qed.

Lemma denotes_sites n e :
  denotes source keyLookup paramLookup n e → wf source n → sites n = [].
Proof.
  induction 1; intros Hwf; try done.
  - by apply keyword_sites; [|unfold keywords; set_solver].
  - apply IHdenotes. apply (wf_child _ _ _ Hwf). left.
  - apply IHdenotes. apply (wf_child _ _ _ Hwf). left.
  - cbn. rewrite IHdenotes1, IHdenotes2 by (apply (wf_child _ _ _ Hwf); set_solver). done.
  - cbn. rewrite IHdenotes1, IHdenotes2 by (apply (wf_child _ _ _ Hwf); set_solver). done.
  - cbn. rewrite IHdenotes1, IHdenotes2 by (apply (wf_child _ _ _ Hwf); set_solver). done.
  - by eapply access_sites, plain_chars_name.
  - by eapply access_sites, plain_chars_name.
  - eapply coalesce_call_sites; [done..|by apply plain_chars_name|].
    intros z [->|[->|[]%elem_of_nil]%elem_of_cons]%elem_of_cons;
      [apply IHdenotes1|apply IHdenotes2]; apply (wf_child _ _ _ Hwf); set_solver.
  - apply IHdenotes. apply (wf_child _ _ _ Hwf). left.
Qed.

Lemma denotes_term_sites n e :
  denotes_term source keyLookup paramLookup n e → wf source n → sites n = [].
Proof.
  induction 1; intros Hwf; try done.
  - by apply keyword_sites; [|unfold keywords; set_solver].
  - by eapply access_sites, plain_chars_name.
  - by eapply access_sites, plain_chars_name.
  - apply IHdenotes_term. apply (wf_child _ _ _ Hwf). left.
Qed.

Lemma null_sites n : wf source n → isNullLiteral n = true → sites n = [].
Proof.
  intros Hwf Hn. destruct n as [| | | | | | | | | |sp k l]; try done.
  apply String.eqb_eq in Hn. cbn in Hn. subst. apply keyword_sites; [done|].
  unfold keywords. set_solver.
Qed.

Lemma denotes_pred_sites n p :
  denotes_pred source keyLookup paramLookup n p → wf source n → sites n = [].
Proof.
  induction 1; intros Hwf.
  - by apply keyword_sites; [|unfold keywords; set_solver].
  - by apply keyword_sites; [|unfold keywords; set_solver].
  - apply IHdenotes_pred. apply (wf_child _ _ _ Hwf). left.
  - apply IHdenotes_pred. apply (wf_child _ _ _ Hwf). left.
  - cbn. rewrite IHdenotes_pred1, IHdenotes_pred2 by (apply (wf_child _ _ _ Hwf); set_solver). done.
  - cbn. rewrite IHdenotes_pred1, IHdenotes_pred2 by (apply (wf_child _ _ _ Hwf); set_solver). done.
  - assert (wf source l ∧ wf source r) as [Hl Hr].
    { split; apply (wf_child _ _ _ Hwf); set_solver. }
    cbn. destruct H0 as [l r o x p Hn Ht _|l r o x p _ Hn Ht _|l r o a b _ _ Ha Hb].
    + by rewrite (null_sites l), (denotes_term_sites _ _ Ht).
    + by rewrite (null_sites r), (denotes_term_sites _ _ Ht).
    + by rewrite (denotes_term_sites _ _ Ha), (denotes_term_sites _ _ Hb).
  - assert (∀ c, c ∈ PropertyAccessExpression sp' k name :: x :: fs → wf source c) as Hargs.
    { intros c Hc. apply (wf_child _ _ _ Hwf). cbn. set_solver. }
    eapply coalesce_call_sites; [done..|by apply plain_chars_name|].
    intros z [->|[->|Hz]%elem_of_cons]%elem_of_cons.
    + eapply access_sites; [apply Hargs; left|done|by apply plain_chars_name].
    + destruct H2; [done|]. eapply access_sites; [|done|by apply plain_chars_name].
      apply Hargs. set_solver.
    + destruct H3; [by apply elem_of_nil in Hz|]. by apply list_elem_of_singleton in Hz as ->.
Qed.
End disjoint.
