(* ===== verification/AstRewriting.v ===== *)
(** * AstRewriting: the correctness of the source rewriting of the AST extractor

    The nodes that are extracted never overlap, so replacing their text from the end of
    the file backwards leaves every other character in place; and the tables the
    compiler keeps are numbered like the placeholders. *)

From S2P Require Import Prelude Collections JsNumber Ir TsAst ExprCompiler PredCompiler AstExtractor.

(** ** Pairwise disjoint spans *)

Definition disjoint_spans (a b : site) : Prop := before a.2 b.2 ∨ before b.2 a.2.

Lemma sorted_flat_map {A B} (R : A → A → Prop) (Q : B → B → Prop) (f : A → list B) l :
  StronglySorted R l → (∀ x, x ∈ l → StronglySorted Q (f x)) →
  (∀ x y a b, x ∈ l → y ∈ l → R x y → a ∈ f x → b ∈ f y → Q a b) →
  StronglySorted Q (flat_map f l).
Proof.
  induction 1 as [|x l Hl IH Hx]; intros Hf HQ; cbn; [constructor|].
  apply StronglySorted_app_2.
  - intros a b Ha Hb. apply list_elem_of_In, in_flat_map in Hb as (y & Hy & Hb).
    apply list_elem_of_In in Hy, Hb. rewrite Forall_forall in Hx.
    apply (HQ x y); auto; [left|by right].
  - apply Hf. left.
  - apply IH; [intros y Hy; apply Hf; by right|].
    intros y z a b Hy Hz. apply HQ; by right.
Qed.

Lemma sorted_filter {A} (R : A → A → Prop) (P : A → Prop) `{∀ x, Decision (P x)} l :
  StronglySorted R l → StronglySorted R (filter P l).
Proof.
  induction 1 as [|x l Hl IH Hx]; [constructor|]. rewrite filter_cons. case_decide; [|done].
  constructor; [done|]. rewrite Forall_forall in *. intros y [_ Hy]%list_elem_of_filter. auto.
Qed.

(** Two members of an ordered list are equal or one comes first. *)
Lemma sorted_trichotomy {A} (R : A → A → Prop) l x y :
  StronglySorted R l → x ∈ l → y ∈ l → x = y ∨ R x y ∨ R y x.
Proof.
  induction 1 as [|z l Hl IH Hz]; intros Hx Hy; [by apply elem_of_nil in Hx|].
  rewrite Forall_forall in Hz.
  apply elem_of_cons in Hx, Hy. destruct Hx as [Hx|Hx], Hy as [Hy|Hy]; subst; auto.
Qed.

Lemma elem_of_flat_map {A B} (f : A → list B) l b :
  b ∈ flat_map f l ↔ ∃ x, x ∈ l ∧ b ∈ f x.
Proof.
  rewrite list_elem_of_In, in_flat_map.
  split; intros (x & Hx & Hb); exists x; by rewrite !list_elem_of_In in *.
Qed.

Lemma filter_flat_map {A B} (P : B → Prop) `{∀ x, Decision (P x)} (f : A → list B) l :
  filter P (flat_map f l) = flat_map (λ x, filter P (f x)) l.
Proof. induction l as [|x l IH]; [done|]. cbn. by rewrite filter_app, IH. Qed.

Section extracted.
Context (source : string) (SyntaxKind : string → string).

(** The site compiles, to an expression or to a predicate. *)
Definition compiled_expr (n : node) : option ExprNode :=
  if isNaturalExpr source n then
    match compileExpr source keyLookup paramLookup SyntaxKind n with
    | Compiled e => Some e
    | CompileError _ _ => None
    end
  else None.
Definition compiled_pred (n : node) : option PredNode :=
  if isNaturalPred source n then
    match compilePred source keyLookup paramLookup SyntaxKind n with
    | Compiled p => Some p
    | CompileError _ _ => None
    end
  else None.

Definition compiles (s : site) : Prop :=
  match s.1 with
  | expr_replacement => is_Some (compiled_expr s.2)
  | pred_replacement => is_Some (compiled_pred s.2)
  end.
#[export] Instance compiles_dec s : Decision (compiles s).
Proof. unfold compiles. destruct s.1; apply _. Defined.

Definition extracted (n : node) : list site := filter compiles (sites n).

Lemma compiles_no_sites s : compiles s → wf source s.2 → sites s.2 = [].
Proof.
  unfold compiles, compiled_expr, compiled_pred. destruct s as [[] n]; cbn; intros [x Hx] Hwf.
  - destruct (isNaturalExpr source n); [|done].
    destruct (compileExpr _ _ _ _ n) eqn:E; [|done].
    by apply compileExpr_iff, denotes_sites in E.
  - destruct (isNaturalPred source n); [|done].
    destruct (compilePred _ _ _ _ n) eqn:E; [|done].
    by apply compilePred_iff, denotes_pred_sites in E.
Qed.

(** Where the sites of a call are. *)
Lemma property_sites_inv info prop s :
  s ∈ property_sites info prop → ∃ sp name, prop = PropertyAssignment sp name s.2.
Proof.
  destruct prop as [| | | | | | | | |sp [] init|]; cbn; try by intros ?%elem_of_nil.
  repeat case_match; try (by intros ?%elem_of_nil);
    intros ->%list_elem_of_singleton; eauto.
Qed.

Lemma argument_sites_inv info arg s :
  s ∈ argument_sites info arg → ∃ sp ps prop,
    arg = ObjectLiteralExpression sp ps ∧ prop ∈ ps ∧ s ∈ property_sites info prop.
Proof.
  destruct arg; cbn; try by intros ?%elem_of_nil. intros (prop & ? & ?)%elem_of_flat_map. eauto 6.
Qed.

Lemma node_sites_inv n s :
  s ∈ node_sites n → ∃ sp f ts args info arg,
    n = CallExpression sp f ts args ∧ arg ∈ args ∧ s ∈ argument_sites info arg.
Proof.
  destruct n as [| | | | | |sp f ts args| | | |]; try by intros ?%elem_of_nil.
  destruct f; try by intros ?%elem_of_nil. cbn. case_match; [|by intros ?%elem_of_nil].
  intros (arg & ? & ?)%elem_of_flat_map. eauto 10.
Qed.

(** [s] is the value of a property of an object argument of [n]. *)
Lemma node_sites_path n s :
  s ∈ node_sites n → ∃ arg sp ps sp' name,
    arg ∈ children n ∧ arg = ObjectLiteralExpression sp ps ∧
    PropertyAssignment sp' name s.2 ∈ ps.
Proof.
  intros (sp & f & ts & args & info & arg & -> & Harg & Hs)%node_sites_inv.
  apply argument_sites_inv in Hs as (sp2 & ps & prop & -> & Hprop & Hs).
  apply property_sites_inv in Hs as (sp3 & name & ->).
  exists (ObjectLiteralExpression sp2 ps), sp2, ps, sp3, name. split; [|done].
  cbn. right. apply elem_of_app. by right.
Qed.

Lemma sites_subnode n s : s ∈ sites n → subnode s.2 n.
Proof.
  induction n as [n IH] using node_ind_nested. rewrite sites_children.
  intros [Hs|Hs]%elem_of_app.
  - apply node_sites_path in Hs as (arg & sp & ps & sp' & name & Harg & -> & Hp).
    eapply subnode_child; [done|]. eapply subnode_child; [exact Hp|].
    apply subnode_of_child. cbn. right. left.
  - apply elem_of_flat_map in Hs as (c & Hc & Hs). rewrite Forall_forall in IH.
    eapply subnode_child; eauto.
Qed.

Lemma extracted_inside n s : wf source n → s ∈ extracted n → inside s.2 n.
Proof.
  intros H [_ Hs]%list_elem_of_filter. by eapply wf_subnode_inside, sites_subnode.
Qed.

Lemma inside_disjoint (a b : site) c d :
  inside a.2 c → inside b.2 d → before c d ∨ before d c → disjoint_spans a b.
Proof. unfold inside, before, disjoint_spans, before. lia. Qed.

(** The extracted nodes of a tree do not overlap. *)
Lemma sites_of_children n :
  wf source n → (∀ c, c ∈ children n → StronglySorted disjoint_spans (extracted c)) →
  StronglySorted disjoint_spans (flat_map extracted (children n)).
Proof.
  intros H Hc. apply (sorted_flat_map before); [apply (wf_order _ _ (wf_self _ _ H))|done|].
  intros x y a b Hx Hy Hxy Ha Hb. eapply inside_disjoint; [| |by left].
  - apply extracted_inside; [by apply (wf_child _ n)|done].
  - apply extracted_inside; [by apply (wf_child _ n)|done].
Qed.

Lemma property_site_inside info prop s :
  wf source prop → s ∈ property_sites info prop → inside s.2 prop.
Proof.
  intros H (sp & name & ->)%property_sites_inv. apply (wf_child_inside source _ _ H).
  right. left.
Qed.

Lemma argument_sites_sorted info arg :
  wf source arg → StronglySorted disjoint_spans (argument_sites info arg).
Proof.
  intros H. destruct arg; try constructor. cbn [argument_sites].
  apply (sorted_flat_map before); [apply (wf_order _ _ (wf_self _ _ H))| |].
  - intros p _. destruct p as [| | | | | | | | |? [] ?|]; cbn; repeat case_match; repeat constructor.
  - intros x y a b Hx Hy Hxy Ha Hb.
    eapply inside_disjoint; [eapply property_site_inside, Ha|eapply property_site_inside, Hb|by left];
      by apply (wf_child _ _ _ H).
Qed.

Lemma argument_site_inside info arg s :
  wf source arg → s ∈ argument_sites info arg → inside s.2 arg.
Proof.
  intros H (sp & ps & prop & -> & Hp & Hs)%argument_sites_inv.
  eapply inside_trans; [eapply property_site_inside, Hs; by apply (wf_child _ _ _ H)|].
  by apply (wf_child_inside source).
Qed.

Lemma node_sites_sorted n : wf source n → StronglySorted disjoint_spans (node_sites n).
Proof.
  intros H. destruct n as [| | | | | |sp f ts args| | | |]; try constructor.
  destruct f as [| | | | |sp' o name| | | | |]; try constructor. cbn [node_sites].
  case_match; [|constructor].
  assert (∀ a, a ∈ args → wf source a) as Hargs.
  { intros a Ha. apply (wf_child _ _ _ H). right. apply elem_of_app. by right. }
  apply (sorted_flat_map before).
  - pose proof (wf_order _ _ (wf_self _ _ H)) as Ho. cbn in Ho.
    apply StronglySorted_inv in Ho as [Ho _]. by apply StronglySorted_app_1_r in Ho.
  - intros a Ha. apply argument_sites_sorted. auto.
  - intros x y a b Hx Hy Hxy Ha Hb.
    eapply inside_disjoint; [eapply argument_site_inside, Ha|eapply argument_site_inside, Hb|by left];
      auto.
Qed.

(** A site of the call itself against one found below a child. *)
Lemma own_site_disjoint n c s t :
  wf source n → compiles s → s ∈ node_sites n → c ∈ children n → t ∈ extracted c →
  disjoint_spans s t.
Proof.
  intros H Hs Hn Hc Ht.
  apply node_sites_path in Hn as (arg & sp & ps & sp' & name & Harg & -> & Hp).
  set (arg := ObjectLiteralExpression sp ps) in *.
  pose proof (wf_child _ _ _ H Harg) as Hwarg. pose proof (wf_child _ _ _ Hwarg Hp) as Hwp.
  assert (inside s.2 (PropertyAssignment sp' name s.2)) as Hsp.
  { apply (wf_child_inside source _ _ Hwp). right. left. }
  assert (inside s.2 arg) as Hsa.
  { eapply inside_trans; [done|]. by apply (wf_child_inside source). }
  pose proof (extracted_inside _ _ (wf_child _ _ _ H Hc) Ht) as Htc.
  destruct (sorted_trichotomy before (children n) arg c) as [<-|Hb]; auto.
  { apply (wf_order _ _ (wf_self _ _ H)). }
  2: { by eapply inside_disjoint. }
  apply list_elem_of_filter in Ht as [Ht1 Ht2].
  rewrite sites_children in Ht2. apply elem_of_app in Ht2 as [Ht2|Ht2]; [by apply elem_of_nil in Ht2|].
  apply elem_of_flat_map in Ht2 as (p & Hp' & Ht2).
  assert (t ∈ extracted p) as Htp by by apply list_elem_of_filter.
  destruct (sorted_trichotomy before ps (PropertyAssignment sp' name s.2) p) as [<-|Hb]; auto.
  { apply (wf_order _ _ (wf_self _ _ Hwarg)). }
  2: { eapply inside_disjoint; [exact Hsp| |exact Hb].
    apply extracted_inside; [by apply (wf_child _ _ _ Hwarg)|done]. }
  rewrite sites_children in Ht2. apply elem_of_app in Ht2 as [Ht2|Ht2]; [by apply elem_of_nil in Ht2|].
  cbn in Ht2. rewrite app_nil_r in Ht2.
  rewrite (compiles_no_sites s Hs), app_nil_r in Ht2
    by (apply (wf_child _ _ _ Hwp); right; left).
  assert (inside t.2 name) as Htn.
  { apply extracted_inside; [apply (wf_child _ _ _ Hwp); left|by apply list_elem_of_filter]. }
  pose proof (wf_order _ _ (wf_self _ _ Hwp)) as Ho. cbn in Ho.
  apply StronglySorted_inv in Ho as [_ Ho]. apply Forall_inv in Ho.
  right. unfold inside, before in *. lia.
Qed.

Lemma extracted_disjoint n : wf source n → StronglySorted disjoint_spans (extracted n).
Proof.
  induction n as [n IH] using node_ind_nested. intros H. unfold extracted.
  rewrite sites_children, filter_app, filter_flat_map. apply StronglySorted_app_2.
  - intros s t [Hs Hn]%list_elem_of_filter (c & Hc & Ht)%elem_of_flat_map.
    by eapply own_site_disjoint.
  - by apply sorted_filter, node_sites_sorted.
  - apply sites_of_children; [done|]. intros c Hc. rewrite Forall_forall in IH.
    apply IH; [done|by apply (wf_child _ n)].
Qed.
End extracted.

(** ** What the walk records *)

Section recorded.
Context (source : string) (SyntaxKind : string → string)
  (getLineAndCharacterOfPosition : nat → nat * nat).

#[local] Abbreviation compiles := (compiles source SyntaxKind).
#[local] Abbreviation compiled_expr := (compiled_expr source SyntaxKind).
#[local] Abbreviation compiled_pred := (compiled_pred source SyntaxKind).
#[local] Abbreviation try_site := (try_site source SyntaxKind getLineAndCharacterOfPosition).

(** The replacements for compiled sites, numbered from [ec] and [pc]. *)
Fixpoint records (ec pc : nat) (l : list site) : list Replacement :=
  match l with
  | [] => []
  | (expr_replacement, n) :: l' =>
      {| r_kind := expr_replacement; r_start := start n; r_end := end_ n; r_id := ec |}
        :: records (S ec) pc l'
  | (pred_replacement, n) :: l' =>
      {| r_kind := pred_replacement; r_start := start n; r_end := end_ n; r_id := pc |}
        :: records ec (S pc) l'
  end.

Fixpoint exprs_of (ec : nat) (l : list site) : list (nat * ExprNode) :=
  match l with
  | [] => []
  | (expr_replacement, n) :: l' =>
      match compiled_expr n with
      | Some e => (ec, e) :: exprs_of (S ec) l'
      | None => exprs_of ec l'
      end
  | (pred_replacement, _) :: l' => exprs_of ec l'
  end.

Fixpoint preds_of (pc : nat) (l : list site) : list (nat * PredNode) :=
  match l with
  | [] => []
  | (pred_replacement, n) :: l' =>
      match compiled_pred n with
      | Some p => (pc, p) :: preds_of (S pc) l'
      | None => preds_of pc l'
      end
  | (expr_replacement, _) :: l' => preds_of pc l'
  end.

(** One attempt: skipped, an error, or a new entry. *)
Lemma try_site_cases st s :
  (¬ compiles s ∧ (try_site st s = st ∨
     ∃ x, st_errors (try_site st s) = st_errors st ++ [x] ∧
       st_exprs (try_site st s) = st_exprs st ∧ st_preds (try_site st s) = st_preds st ∧
       st_replacements (try_site st s) = st_replacements st ∧
       exprCounter (try_site st s) = exprCounter st ∧
       predCounter (try_site st s) = predCounter st)) ∨
  (compiles s ∧ st_errors (try_site st s) = st_errors st ∧
    st_exprs (try_site st s) = st_exprs st ++ exprs_of (exprCounter st) [s] ∧
    st_preds (try_site st s) = st_preds st ++ preds_of (predCounter st) [s] ∧
    st_replacements (try_site st s)
      = st_replacements st ++ records (exprCounter st) (predCounter st) [s] ∧
    exprCounter (try_site st s)
      = (if s.1 is expr_replacement then S (exprCounter st) else exprCounter st) ∧
    predCounter (try_site st s)
      = (if s.1 is pred_replacement then S (predCounter st) else predCounter st)).
Proof.
  destruct s as [[] n]; unfold compiles, try_site, AstExtractor.try_site,
    tryExtractExpr, tryExtractPred, push_error; cbn [fst snd exprs_of preds_of records].
  - unfold compiled_expr. destruct (isNaturalExpr source n); cbn [negb].
    + destruct (compileExpr _ _ _ _ n) as [e|msg m].
      * right. cbn. rewrite app_nil_r. by split; [eexists|].
      * left. split; [by intros [? ?]|]. right. destruct (getNodeLocation _ m). by eexists.
    + left. split; [by intros [? ?]|by left].
  - unfold compiled_pred. destruct (isNaturalPred source n); cbn [negb].
    + destruct (compilePred _ _ _ _ n) as [e|msg m].
      * right. cbn. rewrite app_nil_r. by split; [eexists|].
      * left. split; [by intros [? ?]|]. right. destruct (getNodeLocation _ m). by eexists.
    + left. split; [by intros [? ?]|by left].
Qed.

Lemma walk_records l : ∀ st,
  let st' := foldl try_site st l in
  let l' := filter compiles l in
  (∃ errs, st_errors st' = st_errors st ++ errs) ∧
  st_exprs st' = st_exprs st ++ exprs_of (exprCounter st) l' ∧
  st_preds st' = st_preds st ++ preds_of (predCounter st) l' ∧
  st_replacements st' = st_replacements st ++ records (exprCounter st) (predCounter st) l'.
Proof.
  induction l as [|s l IH]; intros st st' l'.
  - subst st' l'. cbn. rewrite !app_nil_r. split; [|done]. exists []. by rewrite app_nil_r.
  - subst st' l'. cbn [foldl]. rewrite filter_cons.
    destruct (IH (try_site st s)) as ((errs & He) & Hx & Hp & Hr).
    destruct (try_site_cases st s) as [[Hs [E|(x & E & Ex & Ep & Er & Ec & Epc)]]
      |(Hs & E & Ex & Ep & Er & Ec & Epc)].
    + rewrite decide_False by done. rewrite E in *. eauto 6.
    + rewrite decide_False by done. rewrite He, Hx, Hp, Hr, E, Ex, Ep, Er, Ec, Epc.
      split; [|done]. exists (x :: errs). by rewrite <-app_assoc.
    + rewrite decide_True by done. rewrite He, Hx, Hp, Hr, E, Ex, Ep, Er, Ec, Epc.
      rewrite <-!app_assoc. split; [eauto|].
      destruct s as [[] n]; cbn in *; destruct Hs as [e Hs]; rewrite Hs; done.
Qed.

(** A natural expression or predicate, as opposed to builder style. *)
Definition natural (s : site) : bool :=
  match s.1 with
  | expr_replacement => isNaturalExpr source s.2
  | pred_replacement => isNaturalPred source s.2
  end.

Lemma try_site_error st s :
  natural s = true → ¬ compiles s → st_errors (try_site st s) ≠ [].
Proof.
  destruct s as [[] n]; unfold natural, AstRewriting.compiles, AstExtractor.try_site,
    tryExtractExpr, tryExtractPred, push_error, AstRewriting.compiled_expr,
    AstRewriting.compiled_pred; cbn [fst snd]; intros -> Hc; cbn [negb].
  - destruct (compileExpr _ _ _ _ n) as [e|msg m]; [by destruct Hc|].
    destruct (getNodeLocation _ m). cbn. by destruct (st_errors st).
  - destruct (compilePred _ _ _ _ n) as [e|msg m]; [by destruct Hc|].
    destruct (getNodeLocation _ m). cbn. by destruct (st_errors st).
Qed.

Lemma no_errors_compiles l : ∀ st,
  st_errors (foldl try_site st l) = [] → ∀ s, s ∈ l → natural s = true → compiles s.
Proof.
  induction l as [|s l IH]; intros st He t Ht Hn; [by apply elem_of_nil in Ht|].
  cbn in He. apply elem_of_cons in Ht as [->|Ht]; [|by eapply IH].
  destruct (decide (compiles s)) as [|Hc]; [done|].
  destruct (walk_records l (try_site st s)) as ((errs & E) & _). rewrite He in E.
  symmetry in E. apply app_eq_nil in E as [E _]. by apply try_site_error in E.
Qed.
End recorded.

(** ** Numbering *)

Section numbering.
Context (source : string) (SyntaxKind : string → string).
#[local] Abbreviation compiles := (compiles source SyntaxKind).
#[local] Abbreviation compiled_expr := (compiled_expr source SyntaxKind).
#[local] Abbreviation compiled_pred := (compiled_pred source SyntaxKind).
#[local] Abbreviation exprs_of := (exprs_of source SyntaxKind).
#[local] Abbreviation preds_of := (preds_of source SyntaxKind).

Definition is_expr (r : Replacement) : Prop := r_kind r = expr_replacement.
#[export] Instance is_expr_dec r : Decision (is_expr r).
Proof. unfold is_expr. destruct (r_kind r); [by left|by right]. Defined.

(** The tables are numbered densely, in the order of the placeholders. *)
Lemma exprs_of_ids l : Forall compiles l → ∀ ec pc,
  (exprs_of ec l).*1 = r_id <$> filter is_expr (records ec pc l) ∧
  (exprs_of ec l).*1 = seq ec (length (exprs_of ec l)).
Proof.
  induction 1 as [|[[] n] l Hs _ IH]; intros ec pc; [done| |];
    cbn [AstRewriting.exprs_of records].
  - destruct Hs as [e He]. cbn in He. rewrite He. rewrite filter_cons, decide_True by done.
    destruct (IH (S ec) pc) as [H1 H2]. cbn. split; f_equal; done.
  - rewrite filter_cons, decide_False by done. apply IH.
Qed.

Lemma preds_of_ids l : Forall compiles l → ∀ ec pc,
  (preds_of pc l).*1 = r_id <$> filter (λ r, ¬ is_expr r) (records ec pc l) ∧
  (preds_of pc l).*1 = seq pc (length (preds_of pc l)).
Proof.
  induction 1 as [|[[] n] l Hs _ IH]; intros ec pc; [done| |];
    cbn [AstRewriting.preds_of records].
  - rewrite filter_cons, decide_False by (intros H; by apply H). apply IH.
  - destruct Hs as [e He]. cbn in He. rewrite He. rewrite filter_cons, decide_True by done.
    destruct (IH ec (S pc)) as [H1 H2]. cbn. split; f_equal; done.
Qed.

(** A placeholder stands for the node whose span it has, and its number for the
    node's compilation. *)
Definition stands_for (exprs : list (nat * ExprNode)) (preds : list (nat * PredNode))
    (r : Replacement) (n : node) : Prop :=
  r_start r = start n ∧ r_end r = end_ n ∧
  match r_kind r with
  | expr_replacement => ∃ e, (r_id r, e) ∈ exprs ∧
      isNaturalExpr source n = true ∧ denotes source keyLookup paramLookup n e
  | pred_replacement => ∃ p, (r_id r, p) ∈ preds ∧
      isNaturalPred source n = true ∧ denotes_pred source keyLookup paramLookup n p
  end.

Lemma compiled_expr_Some n e :
  compiled_expr n = Some e → isNaturalExpr source n = true ∧ denotes source keyLookup paramLookup n e.
Proof.
  unfold AstRewriting.compiled_expr. destruct (isNaturalExpr source n); [|done].
  destruct (compileExpr _ _ _ _ n) eqn:E; intros [= ->]. by apply compileExpr_iff in E.
Qed.
Lemma compiled_pred_Some n e :
  compiled_pred n = Some e →
  isNaturalPred source n = true ∧ denotes_pred source keyLookup paramLookup n e.
Proof.
  unfold AstRewriting.compiled_pred. destruct (isNaturalPred source n); [|done].
  destruct (compilePred _ _ _ _ n) eqn:E; intros [= ->]. by apply compilePred_iff in E.
Qed.

Lemma records_stand_for l : Forall compiles l → ∀ ec pc r,
  r ∈ records ec pc l →
  ∃ s, s ∈ l ∧ stands_for (exprs_of ec l) (preds_of pc l) r s.2.
Proof.
  induction 1 as [|[[] n] l Hs _ IH]; intros ec pc r; cbn; [by intros ?%elem_of_nil| |].
  - destruct Hs as [e He]. cbn in He. rewrite He.
    intros [->|(s & Hs & H1 & H2 & H)%IH]%elem_of_cons.
    + exists (expr_replacement, n). split; [left|]. split_and!; try done. cbn. exists e.
      split; [left|by apply compiled_expr_Some].
    + exists s. split; [by right|]. split_and!; try done.
      destruct (r_kind r); [|done]. destruct H as (x & Hx & H). exists x. split; [by right|done].
  - destruct Hs as [e He]. cbn in He. rewrite He.
    intros [->|(s & Hs & H1 & H2 & H)%IH]%elem_of_cons.
    + exists (pred_replacement, n). split; [left|]. split_and!; try done. cbn. exists e.
      split; [left|by apply compiled_pred_Some].
    + exists s. split; [by right|]. split_and!; try done.
      destruct (r_kind r); [done|]. destruct H as (x & Hx & H). exists x. split; [by right|done].
Qed.

(** Every entry is of a compiled site. *)
Lemma exprs_of_from l i e : ∀ ec,
  (i, e) ∈ exprs_of ec l → ∃ n, (expr_replacement, n) ∈ l ∧ compiled_expr n = Some e.
Proof.
  induction l as [|[k m] l IH]; intros ec; cbn; [by intros ?%elem_of_nil|].
  destruct k; [destruct (compiled_expr m) eqn:Hm|].
  1: intros [[= -> ->]|H]%elem_of_cons; [exists m; split; [left|done]|].
  all: try intros H; apply IH in H as (n & Hn & H); exists n; split; [by right|done].
Qed.
Lemma preds_of_from l i e : ∀ pc,
  (i, e) ∈ preds_of pc l → ∃ n, (pred_replacement, n) ∈ l ∧ compiled_pred n = Some e.
Proof.
  induction l as [|[k m] l IH]; intros ec; cbn; [by intros ?%elem_of_nil|].
  destruct k; [|destruct (compiled_pred m) eqn:Hm].
  2: intros [[= -> ->]|H]%elem_of_cons; [exists m; split; [left|done]|].
  all: try intros H; apply IH in H as (n & Hn & H); exists n; split; [by right|done].
Qed.

(** Every compiled site has its entry. *)
Lemma exprs_of_entry l n e :
  (expr_replacement, n) ∈ l → compiled_expr n = Some e → ∀ ec, ∃ i, (i, e) ∈ exprs_of ec l.
Proof.
  intros Hn He. induction l as [|[k m] l IH]; intros ec; [by apply elem_of_nil in Hn|].
  apply elem_of_cons in Hn as [[= <- <-]|Hn]; cbn.
  - rewrite He. exists ec. left.
  - destruct k; [|by apply IH]. destruct (compiled_expr m); [|by apply IH].
    destruct (IH Hn (S ec)) as [i Hi]. exists i. by right.
Qed.
Lemma preds_of_entry l n e :
  (pred_replacement, n) ∈ l → compiled_pred n = Some e → ∀ pc, ∃ i, (i, e) ∈ preds_of pc l.
Proof.
  intros Hn He. induction l as [|[k m] l IH]; intros pc; [by apply elem_of_nil in Hn|].
  apply elem_of_cons in Hn as [[= <- <-]|Hn]; cbn.
  - rewrite He. exists pc. left.
  - destruct k; [by apply IH|]. destruct (compiled_pred m); [|by apply IH].
    destruct (IH Hn (S pc)) as [i Hi]. exists i. by right.
Qed.

(** Spans. *)
Definition r_disjoint (a b : Replacement) : Prop := r_end a ≤ r_start b ∨ r_end b ≤ r_start a.

Lemma records_disjoint l ec pc :
  StronglySorted disjoint_spans l → StronglySorted r_disjoint (records ec pc l).
Proof.
  intros H. revert ec pc. induction H as [|[k n] l Hl IH Hn]; intros ec pc; [constructor|].
  assert (∀ ec pc r, r ∈ records ec pc l → ∃ s, s ∈ l ∧ r_start r = start s.2 ∧ r_end r = end_ s.2)
    as Hin.
  { clear. induction l as [|[[] n] l IH]; intros ec pc r; cbn; [by intros ?%elem_of_nil|..].
    all: intros [->|(s & ? & ?)%IH]%elem_of_cons; [by eexists; split; [left|]|].
    all: exists s; split; [by right|done]. }
  rewrite Forall_forall in Hn.
  destruct k; cbn; constructor; auto; apply Forall_forall; intros r (s & Hs & E1 & E2)%Hin;
    unfold r_disjoint; rewrite E1, E2; apply (Hn s Hs).
Qed.

Lemma denotes_nonempty n e :
  wf source n → denotes source keyLookup paramLookup n e → start n < end_ n.
Proof.
  clear SyntaxKind. intros H Hd. pose proof (wf_nonempty _ _ (wf_self _ _ H)) as Hn.
  destruct Hd; cbn in Hn; try done. apply Hn. unfold keywords. set_solver.
Qed.
Lemma denotes_pred_nonempty n p :
  wf source n → denotes_pred source keyLookup paramLookup n p → start n < end_ n.
Proof.
  clear SyntaxKind. intros H Hd. pose proof (wf_nonempty _ _ (wf_self _ _ H)) as Hn.
  destruct Hd; cbn in Hn; try done; apply Hn; unfold keywords; set_solver.
Qed.

Lemma stands_for_span es ps r n :
  wf source n → stands_for es ps r n → r_start r < r_end r ≤ String.length source.
Proof.
  clear SyntaxKind. intros H (-> & -> & Hk). pose proof (wf_span _ _ (wf_self _ _ H)). split; [|lia].
  destruct (r_kind r), Hk as (? & _ & _ & Hd).
  - by eapply denotes_nonempty.
  - by eapply denotes_pred_nonempty.
Qed.
End numbering.

(** ** Replacing backwards is one forward pass *)

(** The reference: the text up to [upto] with the spans [rs], in ascending order,
    replaced. *)
Fixpoint splice (s : string) (pos : nat) (rs : list Replacement) (upto : nat) : string :=
  match rs with
  | [] => slice s pos upto
  | r :: rs' => slice s pos (r_start r) +:+ placeholder r +:+ splice s (r_end r) rs' upto
  end.

Definition ascending (rs : list Replacement) : Prop :=
  StronglySorted (λ a b, r_end a ≤ r_start b) rs.

Lemma splice_snoc s rs : ∀ pos r upto,
  splice s pos (rs ++ [r]) upto
  = splice s pos rs (r_start r) +:+ placeholder r +:+ slice s (r_end r) upto.
Proof.
  induction rs as [|x rs IH]; intros pos r upto; cbn [app splice]; [done|].
  by rewrite IH, !string_app_assoc.
Qed.

(** A text whose first [p] characters are the source's, and spans that end there. *)
Lemma replace_prefix s t p r :
  r_start r ≤ r_end r ≤ p → p ≤ String.length s →
  replace (slice s 0 p +:+ t) r
  = slice s 0 (r_start r) +:+ placeholder r +:+ slice s (r_end r) p +:+ t.
Proof.
  intros Hr Hp. unfold replace. rewrite slice_prefix_text by lia.
  by rewrite slice_suffix_text by lia.
Qed.

Lemma replace_all s rs : ∀ p t,
  StronglySorted (λ a b, r_end b ≤ r_start a) rs →
  Forall (λ r, r_start r ≤ r_end r ≤ p) rs → p ≤ String.length s →
  foldl replace (slice s 0 p +:+ t) rs = splice s 0 (reverse rs) p +:+ t.
Proof.
  induction rs as [|r rs IH]; intros p t Hs Hf Hp; [done|]. cbn [foldl].
  apply StronglySorted_inv in Hs as [Hs Hr]. apply Forall_cons in Hf as [Hrp Hf].
  rewrite replace_prefix by lia. rewrite IH; [|done| |lia].
  - by rewrite reverse_cons, splice_snoc, !string_app_assoc.
  - rewrite Forall_forall in *. intros x Hx. specialize (Hr x Hx). specialize (Hf x Hx). lia.
Qed.

(** Sorting disjoint, nonempty spans by descending start. *)
Lemma by_start_le a b : cmp_le by_start_descending a b ↔ r_start b ≤ r_start a.
Proof.
  unfold cmp_le, by_start_descending.
  destruct (Nat.compare_spec (r_start b) (r_start a)); cbn; split; (done || lia).
Qed.

#[export] Instance by_start_consistent : Consistent by_start_descending (λ _, True).
Proof. split; intros *; rewrite !by_start_le; lia. Qed.

Lemma sorted_pairs {A} (R : A → A → Prop) l :
  (∀ x y, R x y → R y x) → (∀ x, x ∈ l → ¬ R x x) → StronglySorted R l →
  NoDup l ∧ ∀ x y, x ∈ l → y ∈ l → x ≠ y → R x y.
Proof.
  intros Hsym Hirr. induction 1 as [|x l Hl IH Hx]; [split; [constructor|by intros ?? ?%elem_of_nil]|].
  destruct IH as [Hnd HR]; [intros y Hy; apply Hirr; by right|]. rewrite Forall_forall in Hx.
  split.
  - constructor; [|done]. intros Hin. apply (Hirr x); [left|auto].
  - intros y z Hy Hz Hne. apply elem_of_cons in Hy, Hz.
    destruct Hy as [->|Hy], Hz as [->|Hz]; auto. done.
Qed.

Lemma sort_ascending rs :
  StronglySorted r_disjoint rs → Forall (λ r, r_start r < r_end r) rs →
  StronglySorted (λ a b, r_end b ≤ r_start a) (js_sort by_start_descending rs).
Proof.
  intros Hd Hne. rewrite Forall_forall in Hne.
  destruct (sorted_pairs r_disjoint rs) as [Hnd HR]; [unfold r_disjoint; naive_solver| |done|].
  { intros r Hr. specialize (Hne r Hr). unfold r_disjoint. lia. }
  pose proof (js_sort_sorted by_start_descending (λ _, True) rs ltac:(by apply Forall_forall)) as Hs.
  assert (NoDup (js_sort by_start_descending rs)) as Hnd' by by apply js_sort_NoDup.
  assert (∀ r, r ∈ js_sort by_start_descending rs → r ∈ rs) as Hin.
  { intros r. by rewrite js_sort_elem_of. }
  revert Hnd' Hin. clear Hnd Hd. induction Hs as [|x l Hl IH Hx]; intros Hnd Hin; [constructor|].
  apply NoDup_cons in Hnd as [Hxl Hnd]. constructor; [apply IH; [done|]; intros; apply Hin; by right|].
  rewrite Forall_forall in *. intros y Hy. specialize (Hx y Hy). apply by_start_le in Hx.
  assert (x ∈ rs) as Hxr by (apply Hin; left). assert (y ∈ rs) as Hyr by (apply Hin; by right).
  pose proof (Hne x Hxr). pose proof (Hne y Hyr).
  assert (x ≠ y) as Hxy by by intros ->.
  destruct (HR x y Hxr Hyr Hxy); lia.
Qed.

Lemma ascending_reverse rs :
  StronglySorted (λ a b, r_end b ≤ r_start a) rs → ascending (reverse rs).
Proof.
  induction 1 as [|r rs Hs IH Hr]; [constructor|]. rewrite reverse_cons.
  apply StronglySorted_app_2; [|done|repeat constructor].
  intros a b Ha ->%list_elem_of_singleton. rewrite Forall_forall in Hr.
  apply Hr. by rewrite elem_of_reverse in Ha.
Qed.

(** ** extractExpressions *)

Section correctness.
Context (createSourceFile : string → string → node) (SyntaxKind : string → string)
  (getLineAndCharacterOfPosition : string → nat → nat * nat) (source fileName : string).
Context (Hwf : wf source (createSourceFile fileName source)).

Let tree := createSourceFile fileName source.
Let r := extractExpressions createSourceFile SyntaxKind getLineAndCharacterOfPosition
           source fileName.
Let found := extracted source SyntaxKind tree.
Let rs := js_sort by_start_descending (records 0 0 found).

Lemma found_compiles : Forall (compiles source SyntaxKind) found.
Proof. apply Forall_forall. by intros s [? _]%list_elem_of_filter. Qed.

Lemma extract_unfold :
  extractedExprs r = exprs_of source SyntaxKind 0 found ∧
  extractedPreds r = preds_of source SyntaxKind 0 found ∧
  rewrittenSource r = match errors r with [] => foldl replace source rs | _ => source end.
Proof.
  unfold r, extractExpressions. cbn [extractedExprs extractedPreds rewrittenSource errors].
  rewrite visit_sites.
  destruct (walk_records source SyntaxKind (getLineAndCharacterOfPosition source)
    (sites tree) initial_state) as (_ & Hx & Hp & Hr).
  fold tree. rewrite Hx, Hp, Hr. done.
Qed.

Lemma records_spans x :
  x ∈ records 0 0 found → r_start x < r_end x ≤ String.length source.
Proof.
  intros (s & Hs & Hst)%(records_stand_for source SyntaxKind _ found_compiles).
  eapply stands_for_span, Hst. apply (wf_subnode _ _ _ Hwf), sites_subnode.
  by apply list_elem_of_filter in Hs as [_ ?].
Qed.

Lemma rs_sorted : StronglySorted (λ a b, r_end b ≤ r_start a) rs.
Proof.
  apply sort_ascending; [by apply records_disjoint, extracted_disjoint|].
  apply Forall_forall. intros x Hx. by apply records_spans.
Qed.

Lemma rewritten_splice :
  errors r = [] →
  rewrittenSource r = splice source 0 (reverse rs) (String.length source).
Proof.
  intros He. rewrite (proj2 (proj2 extract_unfold)), He.
  rewrite <-(string_app_nil_r source) at 1. rewrite <-(slice_full source) at 1.
  rewrite replace_all; [by rewrite string_app_nil_r|apply rs_sorted| |done].
  apply Forall_forall. intros x. unfold rs. rewrite js_sort_elem_of. intros Hx%records_spans. lia.
Qed.
End correctness.

(** C5: the rewriting of a plan's source.  When an expression or predicate does not
    compile, the source comes back unchanged.  Otherwise it is the source with a list of
    disjoint spans, in ascending order, replaced by placeholders and every other
    character in its place: one placeholder for each entry of the two tables, standing
    at a natural expression or predicate of the tree that denotes the entry. *)
Theorem extractExpressions_rewrites createSourceFile SyntaxKind getLine source fileName :
  wf source (createSourceFile fileName source) →
  let r := extractExpressions createSourceFile SyntaxKind getLine source fileName in
  (errors r ≠ [] → rewrittenSource r = source) ∧
  (errors r = [] → ∃ rs,
    rewrittenSource r = splice source 0 rs (String.length source) ∧
    ascending rs ∧ Forall (λ x, r_start x < r_end x ≤ String.length source) rs ∧
    Forall (λ x, ∃ n, subnode n (createSourceFile fileName source) ∧
      stands_for source (extractedExprs r) (extractedPreds r) x n) rs ∧
    r_id <$> filter is_expr rs ≡ₚ (extractedExprs r).*1 ∧
    r_id <$> filter (λ x, ¬ is_expr x) rs ≡ₚ (extractedPreds r).*1).
Proof.
  intros Hwf r. destruct (extract_unfold createSourceFile SyntaxKind getLine source fileName)
    as (Hx & Hp & Hr). fold r in Hx, Hp, Hr.
  split; [by destruct (errors r)|]. intros He.
  set (found := extracted source SyntaxKind (createSourceFile fileName source)) in *.
  set (rs := js_sort by_start_descending (records 0 0 found)) in *.
  assert (reverse rs ≡ₚ records 0 0 found) as Hperm.
  { unfold rs. by rewrite reverse_Permutation, (js_sort_Permutation by_start_descending). }
  pose proof (found_compiles createSourceFile SyntaxKind source fileName) as Hc.
  fold found in Hc. exists (reverse rs). split; [by apply rewritten_splice|].
  split; [by apply ascending_reverse, rs_sorted|].
  split; [|split; [|split]].
  - rewrite Hperm. apply Forall_forall. intros x.
    by apply (records_spans createSourceFile SyntaxKind).
  - rewrite Hperm. apply Forall_forall. intros x Hin.
    destruct (records_stand_for source SyntaxKind _ Hc _ _ _ Hin) as (s & Hs & Hst).
    exists s.2. rewrite Hx, Hp. split; [|done].
    apply list_elem_of_filter in Hs as [_ Hs]. by apply sites_subnode.
  - rewrite Hx, (proj1 (exprs_of_ids _ _ _ Hc 0 0)). by rewrite Hperm.
  - rewrite Hp, (proj1 (preds_of_ids _ _ _ Hc 0 0)). by rewrite Hperm.
Qed.

Lemma extractExpressions_dense createSourceFile SyntaxKind getLine source fileName :
  let r := extractExpressions createSourceFile SyntaxKind getLine source fileName in
  (extractedExprs r).*1 = seq 0 (length (extractedExprs r)) ∧
  (extractedPreds r).*1 = seq 0 (length (extractedPreds r)).
Proof.
  intros r. destruct (extract_unfold createSourceFile SyntaxKind getLine source fileName)
    as (Hx & Hp & _). fold r in Hx, Hp.
  pose proof (found_compiles createSourceFile SyntaxKind source fileName) as Hc.
  rewrite Hx, Hp. split; [apply (exprs_of_ids _ _ _ Hc 0 0)|apply (preds_of_ids _ _ _ Hc 0 0)].
Qed.

(** The values that extraction looks at: the value [n] of the property [expr] in an object
    literal that is an argument of a call [object.vm(...)], and of [pred] in one of
    [object.filter(...)], anywhere in the tree.  The property is written [name: value]
    with a plain name: a quoted or computed name, a shorthand [{ expr }], a spread and an
    argument that is not an object literal are not looked at. *)
Inductive named_value (tree : node) : replacement_kind → node → Prop :=
| named_expr sp sp1 object method ts args sp2 props sp3 sp4 n :
    subnode (CallExpression sp (PropertyAccessExpression sp1 object method) ts args) tree →
    getNamespaceFromCall (PropertyAccessExpression sp1 object method) +:+ "::" +:+
      methodNameToSnakeCase method = "core::vm" →
    ObjectLiteralExpression sp2 props ∈ args →
    PropertyAssignment sp3 (Identifier sp4 "expr") n ∈ props → named_value tree expr_replacement n
| named_pred sp sp1 object method ts args sp2 props sp3 sp4 n :
    subnode (CallExpression sp (PropertyAccessExpression sp1 object method) ts args) tree →
    getNamespaceFromCall (PropertyAccessExpression sp1 object method) +:+ "::" +:+
      methodNameToSnakeCase method = "core::filter" →
    ObjectLiteralExpression sp2 props ∈ args →
    PropertyAssignment sp3 (Identifier sp4 "pred") n ∈ props → named_value tree pred_replacement n.

Lemma sites_iff tree s : s ∈ sites tree ↔ ∃ c, subnode c tree ∧ s ∈ node_sites c.
Proof.
  split.
  - induction tree as [tree IH] using node_ind_nested. rewrite sites_children.
    intros [Hs|(c & Hc & Hs)%elem_of_flat_map]%elem_of_app; [by exists tree; split; [constructor|]|].
    rewrite Forall_forall in IH. destruct (IH c Hc Hs) as (d & Hd & Hds).
    exists d. split; [by eapply subnode_child|done].
  - intros (c & Hc & Hs). induction Hc as [|tree d Hd _ IH]; rewrite sites_children; apply elem_of_app; [by left|].
    right. apply elem_of_flat_map. eauto.
Qed.

Lemma property_sites_named info prop k n :
  (k, n) ∈ property_sites info prop → ∃ sp sp' name,
    prop = PropertyAssignment sp (Identifier sp' name) n ∧
    is_prop (match k with expr_replacement => exprProp info | pred_replacement => predProp info end) name = true.
Proof.
  destruct prop as [| | | | | | | | |sp nm init|]; try by intros ?%elem_of_nil.
  destruct nm as [| |sp' name| | | | | | | |]; try by intros ?%elem_of_nil.
  cbn [property_sites]. destruct (is_prop (exprProp info) name) eqn:Hx.
  - intros [= -> ->]%list_elem_of_singleton. by eexists _, _, _.
  - destruct (is_prop (predProp info) name) eqn:Hp; [|by intros ?%elem_of_nil].
    intros [= -> ->]%list_elem_of_singleton. by eexists _, _, _.
Qed.

Lemma sites_named tree k n : (k, n) ∈ sites tree ↔ named_value tree k n.
Proof.
  rewrite sites_iff. split.
  - intros (c & Hc & Hs). destruct c as [| | | | | |sp f ts args| | | |]; try by apply elem_of_nil in Hs.
    destruct f as [| | | | |sp1 object method| | | | |]; try by apply elem_of_nil in Hs.
    cbn [node_sites task_extraction_info map_get] in Hs.
    set (op := getNamespaceFromCall _ +:+ _) in Hs.
    destruct (String.eqb_spec op "core::filter") as [Eop|_]; [|destruct (String.eqb_spec op "core::vm") as [Eop|_]; [|by apply elem_of_nil in Hs]].
    all: apply elem_of_flat_map in Hs as (arg & Harg & Hs).
    all: apply argument_sites_inv in Hs as (sp2 & ps & prop & -> & Hp & Hs).
    all: apply property_sites_named in Hs as (sp3 & sp4 & name & Eprop & Hs).
    all: subst prop; destruct k; cbn in Hs; try done; apply String.eqb_eq in Hs as ->; by econstructor.
  - assert (∀ k n sp sp1 object method ts args sp2 props sp3 sp4 name op info,
      subnode (CallExpression sp (PropertyAccessExpression sp1 object method) ts args) tree →
      getNamespaceFromCall (PropertyAccessExpression sp1 object method) +:+ "::" +:+
        methodNameToSnakeCase method = op → map_get task_extraction_info op = Some info →
      ObjectLiteralExpression sp2 props ∈ args → PropertyAssignment sp3 (Identifier sp4 name) n ∈ props →
      (k, n) ∈ property_sites info (PropertyAssignment sp3 (Identifier sp4 name) n) →
      ∃ c, subnode c tree ∧ (k, n) ∈ node_sites c) as H.
    { clear k n. intros * Hc <- Hop Ha Hp Hs. eexists. split; [exact Hc|]. cbn [node_sites]. rewrite Hop.
      apply elem_of_flat_map. eexists. split; [exact Ha|]. apply elem_of_flat_map. eauto. }
    intros []; (eapply H; [eassumption..|reflexivity|eassumption|eassumption|left]).
Qed.

(** C8: the tables are numbered from 0 without gaps, and when no error is reported
    every natural value of the property [expr] of a [vm] call and [pred] of a [filter] call
    ([named_value]) is in them: one that the compiler does not understand is an error.
    They hold nothing else.  [left_in_source] shows what is not looked at. *)
Theorem extractExpressions_complete createSourceFile SyntaxKind getLine source fileName :
  let r := extractExpressions createSourceFile SyntaxKind getLine source fileName in
  (extractedExprs r).*1 = seq 0 (length (extractedExprs r)) ∧
  (extractedPreds r).*1 = seq 0 (length (extractedPreds r)) ∧
  let tree := createSourceFile fileName source in
  (errors r = [] → ∀ k n, named_value tree k n →
    match k with
    | expr_replacement => isNaturalExpr source n = true →
        ∃ i e, (i, e) ∈ extractedExprs r ∧ denotes source keyLookup paramLookup n e
    | pred_replacement => isNaturalPred source n = true →
        ∃ i p, (i, p) ∈ extractedPreds r ∧ denotes_pred source keyLookup paramLookup n p
    end) ∧
  (∀ i e, (i, e) ∈ extractedExprs r → ∃ n, named_value tree expr_replacement n ∧
    isNaturalExpr source n = true ∧ denotes source keyLookup paramLookup n e) ∧
  (∀ i p, (i, p) ∈ extractedPreds r → ∃ n, named_value tree pred_replacement n ∧
    isNaturalPred source n = true ∧ denotes_pred source keyLookup paramLookup n p).
Proof.
  intros r. destruct (extract_unfold createSourceFile SyntaxKind getLine source fileName)
    as (Hx & Hp & _). fold r in Hx, Hp.
  destruct (extractExpressions_dense createSourceFile SyntaxKind getLine source fileName)
    as [Hdx Hdp]. fold r in Hdx, Hdp.
  split; [done|]. split; [done|]. intros tree. rewrite Hx, Hp. split; [|split].
  2: intros i e (n & [_ Hn]%list_elem_of_filter & He)%exprs_of_from; exists n; split;
    [by apply sites_named|by apply (compiled_expr_Some source SyntaxKind)].
  2: intros i e (n & [_ Hn]%list_elem_of_filter & He)%preds_of_from; exists n; split;
    [by apply sites_named|by apply (compiled_pred_Some source SyntaxKind)].
  intros He k n Hs%sites_named. unfold r, extractExpressions in He. cbn [errors] in He.
  rewrite visit_sites in He. pose proof (no_errors_compiles _ _ _ _ _ He _ Hs) as Hcomp.
  set (found := extracted source SyntaxKind (createSourceFile fileName source)).
  assert (natural source (k, n) = true → (k, n) ∈ found) as Hin.
  { intros Hn. by apply list_elem_of_filter; split; [apply Hcomp|]. }
  destruct k; intros Hn; specialize (Hin Hn); destruct (Hcomp Hn) as [e Hce]; cbn in Hce.
  - destruct (exprs_of_entry _ _ found n e Hin Hce 0) as [i Hi]. exists i, e.
    split; [done|]. by apply (compiled_expr_Some source SyntaxKind).
  - destruct (preds_of_entry _ _ found n e Hin Hce 0) as [i Hi]. exists i, e.
    split; [done|]. by apply (compiled_pred_Some source SyntaxKind).
Qed.

(** ** A plan of one call *)

Lemma wf_intro source n :
  node_wf source n → Forall (wf source) (children n) → wf source n.
Proof.
  intros Hn Hc m Hm. inversion Hm as [|n' c Hin Hcm]; subst; [done|].
  rewrite Forall_forall in Hc. by apply (Hc c).
Qed.

Definition at_ (i j : nat) : span := {| getStart := i; getEnd := j |}.
Definition sample_source : string := "c.vm({expr:Key.id})".
Definition sample_init : node := PropertyAccessExpression (at_ 11 17) (Identifier (at_ 11 14) "Key") "id".
Definition sample_tree (fileName source : string) : node :=
  OtherNode (at_ 0 19) "SourceFile"
    [OtherNode (at_ 0 19) "ExpressionStatement"
      [CallExpression (at_ 0 19)
        (PropertyAccessExpression (at_ 0 4) (Identifier (at_ 0 1) "c") "vm") []
        [ObjectLiteralExpression (at_ 5 18)
          [PropertyAssignment (at_ 6 17) (Identifier (at_ 6 10) "expr") sample_init]]]].

Ltac node_wf_tac :=
  apply wf_intro; [split; cbn; unfold inside, start, end_, span_of; cbn;
    try (split; lia); try lia; try done; repeat (constructor; unfold before, end_, start; cbn; try lia);
    try (unfold keywords; set_solver)
    |cbn [children app]; repeat first [apply Forall_nil_2|apply Forall_cons_2]].

Lemma sample_wf : wf sample_source (sample_tree "p" sample_source).
Proof.
  unfold sample_tree, sample_init. repeat node_wf_tac.
  - exists 4. split; [cbn; lia|done].
  - exists 1. split; [cbn; lia|done].
  - exists 14. split; [cbn; lia|done].
Qed.

Definition sample_result : ExtractionResult :=
  extractExpressions sample_tree (λ k, k) (λ _ p, (0, p)) sample_source "p".

Example sample_rewritten :
  rewrittenSource sample_result = "c.vm({expr:{ __expr_id: 0 }})" ∧
  extractedExprs sample_result = [(0, key_ref (num 1))] ∧ errors sample_result = [].
Proof. by vm_compute. Qed.

Lemma extractExpressions_rewrites_witness :
  wf sample_source (sample_tree "p" sample_source) ∧
  (errors sample_result = [] → ∃ rs,
    rewrittenSource sample_result = splice sample_source 0 rs 19 ∧
    r_id <$> filter is_expr rs ≡ₚ (extractedExprs sample_result).*1).
Proof.
  split; [exact sample_wf|]. intros He.
  destruct (proj2 (extractExpressions_rewrites sample_tree (λ k, k) (λ _ p, (0, p))
    sample_source "p" sample_wf) He) as (rs & H1 & _ & _ & _ & H2 & _).
  exists rs. split; [exact H1|exact H2].
Defined.

Lemma extractExpressions_complete_witness :
  ∃ i e, (i, e) ∈ extractedExprs sample_result ∧
    denotes sample_source keyLookup paramLookup sample_init e.
Proof.
  apply (proj1 (proj2 (proj2 (extractExpressions_complete sample_tree (λ k, k) (λ _ p, (0, p))
    sample_source "p"))) eq_refl expr_replacement sample_init); [|done].
  apply sites_named.
  change ((expr_replacement, sample_init) ∈ [(expr_replacement, sample_init)]). left.
Defined.

(** Left in the source, with no entry and no error: a value that only contains natural
    expressions, as [c ? Key.id : 1], and one whose property has a quoted name. *)
Definition tree_of_argument (prop : node) (fileName source : string) : node :=
  OtherNode (at_ 0 27) "SourceFile"
    [CallExpression (at_ 0 27) (PropertyAccessExpression (at_ 0 4) (Identifier (at_ 0 1) "c") "vm") []
      [ObjectLiteralExpression (at_ 5 26) [prop]]].

Example left_in_source :
  let conditional := PropertyAssignment (at_ 6 25) (Identifier (at_ 6 10) "expr")
    (OtherNode (at_ 11 25) "ConditionalExpression"
      [Identifier (at_ 11 12) "c"; PropertyAccessExpression (at_ 15 21) (Identifier (at_ 15 18) "Key") "id";
       NumericLiteral (at_ 24 25) "1"]) in
  let quoted_name := PropertyAssignment (at_ 6 19) (StringLiteral (at_ 6 12) "expr")
    (PropertyAccessExpression (at_ 13 19) (Identifier (at_ 13 16) "Key") "id") in
  Forall (λ '(source, prop),
    extractExpressions (tree_of_argument prop) (λ k, k) (λ _ p, (0, p)) source "p" =
    {| rewrittenSource := source; extractedExprs := []; extractedPreds := []; errors := [] |})
    [("c.vm({expr:c ? Key.id : 1})", conditional); ("c.vm({'expr':Key.id})", quoted_name)].
Proof. repeat constructor. Qed.
