(* ===== verification/StableStringify.v ===== *)
(** * StableStringify: deterministic JSON text
    (dsl/packages/compiler/src/stable-stringify.ts)

    [stableStringify] is [JSON.stringify] with a replacer that sorts the keys of every
    object.  Two values that differ in the order of object properties only have the
    same text; and the text of the artifact does not depend on how it was built. *)

From S2P Require Import Prelude Collections JsNumber JsValue.

(** ** The replacer, applied to every value on the way down *)

Fixpoint stable (v : value) : value :=
  match v with
  | VArray l => VArray (map stable l)
  | VObject o =>
      let ss := map (λ c, (c.1, stable c.2)) o in
      let put sorted key :=
        match map_get ss key with Some x => obj_assign sorted key x | None => sorted end in
      VObject (foldl put [] (sort_strings (ss.*1)))
  | _ => v
  end.

(** ** JSON.stringify *)

Definition hex_digit (n : nat) : ascii :=
  ascii_of_nat (if n <? 10 then 48 + n else 87 + n).

Definition escape_char (c : ascii) : string :=
  let n := nat_of_ascii c in
  let esc (k : nat) := String "\" (String (ascii_of_nat k) EmptyString) in
  if n =? 34 then esc 34
  else if n =? 92 then esc 92
  else if n =? 8 then esc 98
  else if n =? 12 then esc 102
  else if n =? 10 then esc 110
  else if n =? 13 then esc 114
  else if n =? 9 then esc 116
  else if n <? 32 then
    "\u00" +:+ String (hex_digit (n / 16)) (String (hex_digit (n mod 16)) EmptyString)
  else String c EmptyString.

Fixpoint escape (s : string) : string :=
  match s with EmptyString => EmptyString | String c s' => escape_char c +:+ escape s' end.
Definition json_quote (s : string) : string := quoted (escape s).

Definition newline : string := String (ascii_of_nat 10) EmptyString.
Fixpoint spaces (n : nat) : string :=
  match n with 0 => EmptyString | S n' => String " " (spaces n') end.

(** The members of an array or object between its brackets: one per line, or without
    any space when the indentation is 0. *)
Definition bracketed (op cl : string) (indent depth : nat) (items : list string) : string :=
  match items, indent with
  | [], _ => op +:+ cl
  | _, 0 => op +:+ join "," items +:+ cl
  | _, S _ =>
      let pad := newline +:+ spaces (indent * S depth) in
      op +:+ pad +:+ join ("," +:+ pad) items +:+ newline +:+ spaces (indent * depth) +:+ cl
  end.

Definition colon (indent : nat) : string := match indent with 0 => ":" | S _ => ": " end.

(** [None] for a value without JSON text: left out of objects, [null] in arrays.  (The
    class instances of the plan API do not reach it: what the sandbox hands over is
    plain data.) *)
Fixpoint stringify (indent depth : nat) (v : value) : option string :=
  match v with
  | VNull => Some "null"
  | VBool b => Some (if b then "true" else "false")
  | VNumber n => Some (if isFinite n then num_to_string n else "null")
  | VString s => Some (json_quote s)
  | VArray l =>
      Some (bracketed "[" "]" indent depth
        (map (λ x, default "null" (stringify indent (S depth) x)) l))
  | VObject o =>
      Some (bracketed "{" "}" indent depth
        (flat_map (λ p : string * option string,
           match p.2 with Some t => [json_quote p.1 +:+ colon indent +:+ t] | None => [] end)
           (map (λ kv, (kv.1, stringify indent (S depth) kv.2)) o)))
  | _ => None
  end.

Definition stableStringify (v : value) (indent : nat) : option string :=
  stringify (Nat.min 10 indent) 0 (stable v).

Example stableStringify_sample :
  stableStringify (VObject [("b", VArray [VNumber (num 1); VUndefined]); ("a", VString "x");
                            ("f", VFunction VNull)]) 2
  = Some ("{" +:+ newline +:+ "  " +:+ quoted "a" +:+ ": " +:+ quoted "x" +:+ "," +:+ newline +:+
      "  " +:+ quoted "b" +:+ ": [" +:+ newline +:+ "    1," +:+ newline +:+ "    null" +:+ newline +:+
      "  ]" +:+ newline +:+ "}").
Proof. by vm_compute. Qed.

(** ** Equality up to the order of properties *)

Inductive same : value → value → Prop :=
| same_refl v : same v v
| same_array l l' : Forall2 same l l' → same (VArray l) (VArray l')
| same_object o o1 o' :
    o ≡ₚ o1 → Forall2 (λ a b, a.1 = b.1 ∧ same a.2 b.2) o1 o' → same (VObject o) (VObject o').

(** No object lists a name twice, as in JavaScript. *)
Fixpoint distinct_names (v : value) : Prop :=
  match v with
  | VArray l => (fix go l := match l with [] => True | x :: l' => distinct_names x ∧ go l' end) l
  | VObject o =>
      NoDup (o.*1) ∧
      (fix go o := match o with [] => True | x :: o' => distinct_names x.2 ∧ go o' end) o
  | _ => True
  end.

Lemma distinct_names_array l : distinct_names (VArray l) ↔ Forall distinct_names l.
Proof.
  cbn. induction l as [|x l IH]; [split; [constructor|done]|].
  by rewrite Forall_cons, IH.
Qed.

Lemma distinct_names_object o :
  distinct_names (VObject o) ↔ NoDup (o.*1) ∧ Forall (λ kv, distinct_names kv.2) o.
Proof.
  cbn. apply and_iff_compat_l. induction o as [|x o IH]; [split; [constructor|done]|].
  by rewrite Forall_cons, IH.
Qed.

(** Sorting does not see the order of the entries. *)
Definition sorted_object (ss : object) : object :=
  foldl (λ sorted key,
    match map_get ss key with Some x => obj_assign sorted key x | None => sorted end)
    [] (sort_strings (ss.*1)).

Lemma sorted_object_perm ss ss' :
  NoDup (ss.*1) → ss ≡ₚ ss' → sorted_object ss = sorted_object ss'.
Proof.
  intros Hnd Hp. unfold sorted_object.
  rewrite (sort_strings_perm_eq (ss.*1) (ss'.*1)) by by rewrite Hp.
  generalize (sort_strings (ss'.*1)). intros l.
  generalize (@nil (string * value)). induction l as [|k l IH]; intros acc; [done|].
  cbn. rewrite (map_get_perm ss ss' k Hnd Hp). apply IH.
Qed.

Lemma stable_same v : ∀ w, distinct_names v → same v w → stable v = stable w.
Proof.
  induction v as [| | | | | | |l IH|o IH| |] using value_ind_nested; intros w Hd Hs;
    inversion Hs as [|? l' Hl|? o1 o' Hp Ho]; subst; try done.
  - cbn. f_equal. apply distinct_names_array in Hd. clear Hs.
    induction Hl as [|x y l l' Hxy Hl IHl]; [done|]. cbn.
    apply Forall_cons in IH as [IHx IH], Hd as [Hx Hd]. f_equal; auto.
  - apply distinct_names_object in Hd as [Hnd Hd]. cbn.
    fold (sorted_object (map (λ c, (c.1, stable c.2)) o)).
    fold (sorted_object (map (λ c, (c.1, stable c.2)) o')). f_equal.
    rewrite (sorted_object_perm _ (map (λ c, (c.1, stable c.2)) o1));
      [|by rewrite map_fst_map|by apply fmap_Permutation]. f_equal.
    rewrite Hp in IH, Hd. clear Hp Hs Hnd o.
    induction Ho as [|[k x] [k' y] l l' [Hk Hxy] Hl IHl]; [done|]. cbn in *. subst.
    apply Forall_cons in IH as [IHx IH], Hd as [Hx Hd]. cbn in *. f_equal; [|by apply IHl].
    f_equal. auto.
Qed.

(** The text respects the equivalence. *)
Lemma stableStringify_same v w indent :
  distinct_names v → same v w → stableStringify v indent = stableStringify w indent.
Proof. intros Hd Hs. unfold stableStringify. by rewrite (stable_same v w). Qed.

(** The JSON text of a value does not depend on the order in which the properties
    of its objects, at any depth, were created. *)
Theorem stableStringify_deterministic v w indent :
  distinct_names v → same v w → stableStringify v indent = stableStringify w indent.
Proof. apply stableStringify_same. Qed.

Lemma stableStringify_deterministic_witness :
  stableStringify (VObject [("b", VNull); ("a", VArray [VBool true])]) 2
  = stableStringify (VObject [("a", VArray [VBool true]); ("b", VNull)]) 2.
Proof.
  apply (stableStringify_deterministic (VObject [("b", VNull); ("a", VArray [VBool true])])).
  - cbn. repeat split; try done. apply (bool_decide_unpack _). by vm_compute.
  - apply (same_object _ [("a", VArray [VBool true]); ("b", VNull)]); [by constructor|].
    repeat constructor.
Defined.

(** What the assignment [sorted[key] = ...] loses. *)
Example stable_drops_proto :
  stable (VObject [("__proto__", VNull); ("a", VNull)]) = VObject [("a", VNull)].
Proof. by vm_compute. Qed.
