(* ===== verification/Json.v ===== *)
(** * Json: JSON.parse

    The JSON grammar on strings, as the code uses it to read plans, registries'
    embedded schemas and stored preferences, and the theorem that it reads back what
    [JSON.stringify] wrote.  Characters are code units below 256: an escape above
    [\u00ff] has no such character and is taken as an error. *)

From S2P Require Import Prelude Collections JsNumber JsValue StableStringify.

(** ** Lexical parts *)

Definition is_json_space (c : ascii) : bool := bool_decide (nat_of_ascii c ∈ [32; 9; 10; 13]).
Fixpoint skip_space (s : string) : string :=
  match s with
  | String c r => if is_json_space c then skip_space r else s
  | EmptyString => s
  end.

(** The text after [p], if it starts with it. *)
Fixpoint after (p s : string) : option string :=
  match p, s with
  | EmptyString, _ => Some s
  | String c p', String d s' => if Ascii.eqb c d then after p' s' else None
  | _, _ => None
  end.

Definition quote_char : ascii := ascii_of_nat 34.
Definition backslash : ascii := ascii_of_nat 92.

Definition hex_value (c : ascii) : option nat :=
  let n := nat_of_ascii c in
  if (48 <=? n) && (n <=? 57) then Some (n - 48)
  else if (97 <=? n) && (n <=? 102) then Some (n - 87)
  else if (65 <=? n) && (n <=? 70) then Some (n - 55)
  else None.

(** The character of a one-letter escape. *)
Definition unescape (c : ascii) : option ascii :=
  let n := nat_of_ascii c in
  if (n =? 34) || (n =? 92) || (n =? 47) then Some c
  else if n =? 98 then Some (ascii_of_nat 8)
  else if n =? 102 then Some (ascii_of_nat 12)
  else if n =? 110 then Some (ascii_of_nat 10)
  else if n =? 114 then Some (ascii_of_nat 13)
  else if n =? 116 then Some (ascii_of_nat 9)
  else None.

Definition code_unit (h1 h2 h3 h4 : ascii) : option ascii :=
  a ← hex_value h1; b ← hex_value h2; c ← hex_value h3; d ← hex_value h4;
  let n := ((a * 16 + b) * 16 + c) * 16 + d in
  if n <? 256 then Some (ascii_of_nat n) else None.

Definition put_char (c : ascii) (r : option (string * string)) : option (string * string) :=
  match r with Some (t, rest) => Some (String c t, rest) | None => None end.

(** The rest of a string literal after its opening quote. *)
Fixpoint parse_string (s : string) : option (string * string) :=
  match s with
  | EmptyString => None
  | String c r =>
      if Ascii.eqb c quote_char then Some (EmptyString, r)
      else if Ascii.eqb c backslash then
        match r with
        | EmptyString => None
        | String e r' =>
            match unescape e with
            | Some c' => put_char c' (parse_string r')
            | None =>
                if Ascii.eqb e "u" then
                  match r' with
                  | String h1 (String h2 (String h3 (String h4 r''))) =>
                      match code_unit h1 h2 h3 h4 with
                      | Some c' => put_char c' (parse_string r'')
                      | None => None
                      end
                  | _ => None
                  end
                else None
            end
        end
      else if nat_of_ascii c <? 32 then None
      else put_char c (parse_string r)
  end.

(** The characters numbers are made of, and the grammar of number tokens. *)
Definition is_number_char (c : ascii) : bool :=
  is_digit c || Ascii.eqb c "+" || Ascii.eqb c "-" || Ascii.eqb c "." ||
  Ascii.eqb c "e" || Ascii.eqb c "E".
Fixpoint number_token (s : string) : string * string :=
  match s with
  | String c r =>
      if is_number_char c then let '(t, rest) := number_token r in (String c t, rest)
      else (EmptyString, s)
  | EmptyString => (EmptyString, EmptyString)
  end.

Fixpoint skip_digits (s : string) : string :=
  match s with
  | String c r => if is_digit c then skip_digits r else s
  | EmptyString => s
  end.
Definition json_exponent (s : string) : bool :=
  match s with
  | EmptyString => true
  | String c r =>
      (Ascii.eqb c "e" || Ascii.eqb c "E") &&
      match (match r with String "+" r' | String "-" r' => r' | _ => r end) with
      | String d r' => is_digit d && String.eqb (skip_digits r') EmptyString
      | EmptyString => false
      end
  end.
Definition json_fraction (s : string) : bool :=
  match s with
  | String "." (String d r) => is_digit d && json_exponent (skip_digits r)
  | _ => json_exponent s
  end.
Definition json_number (s : string) : bool :=
  match (match s with String "-" r => r | _ => s end) with
  | String "0" r => json_fraction r
  | String c r => is_digit c && json_fraction (skip_digits r)
  | EmptyString => false
  end.

(** ** Values *)

Section parse.
Context (parse : string → option (value * string)).

(** The elements of an array after its bracket, when there are some. *)
Fixpoint parse_items (fuel : nat) (s : string) : option (list value * string) :=
  match fuel with
  | 0 => None
  | S fuel' =>
      '(v, r) ← parse s;
      match skip_space r with
      | String c r' =>
          if Ascii.eqb c "," then '(vs, r'') ← parse_items fuel' r'; Some (v :: vs, r'')
          else if Ascii.eqb c "]" then Some ([v], r')
          else None
      | EmptyString => None
      end
  end.

(** A member of an object: its name, a colon and its value. *)
Definition parse_member (s : string) : option ((string * value) * string) :=
  r0 ← after (String quote_char EmptyString) (skip_space s);
  '(k, r1) ← parse_string r0;
  r2 ← after ":" (skip_space r1);
  '(v, r) ← parse r2;
  Some ((k, v), r).

(** The members after the brace, when there are some, in the order of the text. *)
Fixpoint parse_members (fuel : nat) (s : string) : option (object * string) :=
  match fuel with
  | 0 => None
  | S fuel' =>
      '(kv, r) ← parse_member s;
      match skip_space r with
      | String c r' =>
          if Ascii.eqb c "," then '(kvs, r'') ← parse_members fuel' r'; Some (kv :: kvs, r'')
          else if Ascii.eqb c "}" then Some ([kv], r')
          else None
      | EmptyString => None
      end
  end.
End parse.

(** The fuel is the length of the text: every level of nesting and every element uses up
    a character. *)
Fixpoint parse_value (fuel : nat) (text : string) : option (value * string) :=
  match fuel with
  | 0 => None
  | S fuel' =>
      let s := skip_space text in
      match s with
      | EmptyString => None
      | String c r =>
          if Ascii.eqb c quote_char then '(t, rest) ← parse_string r; Some (VString t, rest)
          else if Ascii.eqb c "[" then
            match after "]" (skip_space r) with
            | Some r' => Some (VArray [], r')
            | None => '(vs, r') ← parse_items (parse_value fuel') fuel' r; Some (VArray vs, r')
            end
          else if Ascii.eqb c "{" then
            match after "}" (skip_space r) with
            | Some r' => Some (VObject [], r')
            | None =>
                '(kvs, r') ← parse_members (parse_value fuel') fuel' r;
                Some (VObject (from_entries kvs), r')
            end
          else
            match after "null" s, after "true" s, after "false" s with
            | Some r', _, _ => Some (VNull, r')
            | _, Some r', _ => Some (VBool true, r')
            | _, _, Some r' => Some (VBool false, r')
            | _, _, _ =>
                let '(t, rest) := number_token s in
                if json_number t then Some (VNumber (Number t), rest) else None
            end
      end
  end.

(** [JSON.parse(text)]; [None] is a [SyntaxError]. *)
Definition JSON_parse (text : string) : option value :=
  '(v, rest) ← parse_value (S (String.length text)) text;
  match skip_space rest with EmptyString => Some v | _ => None end.

(** ** Reading back what was written *)

Definition is_pad (s : string) : Prop := string_forallb is_json_space s = true.

Lemma pad_spaces n : is_pad (spaces n).
Proof. by induction n. Qed.

Lemma skip_pad p s : is_pad p → skip_space (p +:+ s) = skip_space s.
Proof.
  induction p as [|c p IH]; [done|]. unfold is_pad. cbn. intros [Hc Hp]%andb_true_iff.
  rewrite Hc. by apply IH.
Qed.

Lemma skip_solid c s : is_json_space c = false → skip_space (String c s) = String c s.
Proof. intros H. cbn. by rewrite H. Qed.

(** What a number token does not run into. *)
Definition stops (rest : string) : Prop :=
  match rest with EmptyString => True | String c _ => is_number_char c = false end.

Lemma pad_stops p c s : is_pad p → is_number_char c = false → stops (p +:+ String c s).
Proof.
  destruct p as [|d p]; [done|]. unfold is_pad. cbn. intros [Hd _]%andb_true_iff _.
  apply bool_decide_eq_true in Hd. destruct d as [[] [] [] [] [] [] [] []]; try done; cbn in Hd; set_solver.
Qed.

Lemma number_token_app t rest :
  string_forallb is_number_char t = true → stops rest → number_token (t +:+ rest) = (t, rest).
Proof.
  intros Ht Hr. induction t as [|c t IH].
  - destruct rest as [|c r]; [done|]. cbn in Hr |- *. by rewrite Hr.
  - cbn in Ht. apply andb_true_iff in Ht as [Hc Ht]. cbn. by rewrite Hc, IH.
Qed.

Lemma parse_escaped c r : parse_string (escape_char c +:+ r) = put_char c (parse_string r).
Proof. by destruct c as [[] [] [] [] [] [] [] []]. Qed.

Lemma parse_quoted s rest : parse_string (escape s +:+ String quote_char rest) = Some (s, rest).
Proof.
  induction s as [|c s IH]; [done|]. cbn [escape]. by rewrite string_app_assoc, parse_escaped, IH.
Qed.

(** A number whose text is a JSON number that denotes it. *)
Definition number_ok (n : number) : Prop :=
  let t := num_to_string n in
  isFinite n = true ∧ json_number t = true ∧ string_forallb is_number_char t = true ∧ Number t = n.

(** Plain data whose numbers survive. *)
Fixpoint json_ok (v : value) : Prop :=
  match v with
  | VNull | VBool _ | VString _ => True
  | VNumber n => number_ok n
  | VArray l => (fix go l := match l with [] => True | x :: l' => json_ok x ∧ go l' end) l
  | VObject o => (fix go o := match o with [] => True | kv :: o' => json_ok kv.2 ∧ go o' end) o
  | _ => False
  end.

Lemma json_ok_array l : json_ok (VArray l) ↔ Forall json_ok l.
Proof. cbn. induction l; rewrite ?Forall_cons; naive_solver. Qed.
Lemma json_ok_object o : json_ok (VObject o) ↔ Forall (λ kv, json_ok kv.2) o.
Proof. cbn. induction o; rewrite ?Forall_cons; naive_solver. Qed.

(** The value with the properties of each object defined again in their order. *)
Fixpoint redefined (v : value) : value :=
  match v with
  | VArray l => VArray (map redefined l)
  | VObject o => VObject (from_entries (map (λ kv, (kv.1, redefined kv.2)) o))
  | _ => v
  end.
Definition redefined_member (kv : string * value) : string * value := (kv.1, redefined kv.2).

(** The same, computed. *)
Definition number_okb (n : number) : bool :=
  let t := num_to_string n in
  isFinite n && json_number t && string_forallb is_number_char t && bool_decide (Number t = n).
Fixpoint json_okb (v : value) : bool :=
  match v with
  | VNull | VBool _ | VString _ => true
  | VNumber n => number_okb n
  | VArray l => forallb json_okb l
  | VObject o => forallb (λ kv, json_okb kv.2) o
  | _ => false
  end.
Lemma json_okb_ok v : json_okb v = true → json_ok v.
Proof.
  induction v as [| | |n| | | |l IH|o IH| |] using value_ind_nested; cbn [json_okb]; try done.
  - unfold number_okb. rewrite !andb_true_iff, bool_decide_eq_true. intros [[[]]]. by split.
  - rewrite json_ok_array, forallb_forall, Forall_forall. rewrite Forall_forall in IH.
    intros H x Hx. apply IH; [done|]. by apply H, list_elem_of_In.
  - rewrite json_ok_object, forallb_forall, Forall_forall. rewrite Forall_forall in IH.
    intros H x Hx. apply IH; [done|]. by apply H, list_elem_of_In.
Qed.

(** The brackets of a text and what is between them. *)
Lemma bracketed_pads op cl indent depth items :
  items ≠ [] → ∃ p q, is_pad p ∧ is_pad q ∧
  bracketed op cl indent depth items = op +:+ p +:+ join ("," +:+ p) items +:+ q +:+ cl.
Proof.
  intros Hi. destruct items as [|x items]; [done|]. unfold bracketed. destruct indent as [|indent].
  - by exists EmptyString, EmptyString.
  - exists (newline +:+ spaces (S indent * S depth)), (newline +:+ spaces (S indent * depth)).
    split_and!; [apply (pad_spaces (S (S indent * S depth)))|apply (pad_spaces (S (S indent * depth)))|].
    by rewrite !string_app_assoc.
Qed.

Lemma join_cons sep x y l : join sep (x :: y :: l) = x +:+ sep +:+ join sep (y :: l).
Proof. done. Qed.

Lemma join_length sep l x : x ∈ l → String.length x ≤ String.length (join sep l).
Proof.
  induction l as [|y [|z l] IH]; [by intros ?%not_elem_of_nil| |].
  - by intros ->%list_elem_of_singleton.
  - rewrite join_cons, !string_app_length. intros [->|H%IH]%elem_of_cons; lia.
Qed.

Lemma join_count sep l : Forall (λ x, x ≠ EmptyString) l → length l ≤ String.length (join sep l).
Proof.
  induction 1 as [|y [|z l] Hy _ IH]; [done| |].
  - destruct y; [done|]. cbn. lia.
  - rewrite join_cons, !string_app_length. destruct y; [done|]. cbn [length String.length] in *. lia.
Qed.

(** A parser of values that skips space in front and reads [t] as [v]. *)
Definition skips (P : string → option (value * string)) : Prop :=
  ∀ p s, is_pad p → P (p +:+ s) = P s.
Definition reads (P : string → option (value * string)) (v : value) (t : string) : Prop :=
  ∀ rest, stops rest → P (t +:+ rest) = Some (v, rest).

Lemma parse_value_skips fuel : skips (parse_value fuel).
Proof. intros p s Hp. destruct fuel; [done|]. cbn [parse_value]. by rewrite skip_pad. Qed.

Lemma bind_some {A B} (a : A) (f : A → option B) : (Some a ≫= f) = f a.
Proof. done. Qed.

Lemma items_parse P p q vs ts n rest :
  skips P → is_pad p → is_pad q → Forall2 (reads P) vs ts → vs ≠ [] → length vs ≤ n →
  parse_items P n (p +:+ join ("," +:+ p) ts +:+ q +:+ "]" +:+ rest) = Some (vs, rest).
Proof.
  intros HP Hp Hq Hall. revert n. induction Hall as [|v t vs ts Hv Hall IH]; [done|].
  intros n _ Hn. destruct n as [|n]; [cbn in Hn; lia|]. cbn [parse_items]. rewrite HP by done.
  destruct Hall as [|v' t' vs ts Hv' Hall].
  - cbn [join]. rewrite Hv by by apply pad_stops. rewrite bind_some. cbv beta iota.
    rewrite skip_pad by done. done.
  - rewrite join_cons, !string_app_assoc, Hv by done. rewrite bind_some. cbv beta iota.
    cbn [append]. rewrite skip_solid by done. cbv iota beta.
    change (Ascii.eqb "," ",") with true. cbv iota.
    change (String "," p) with ("," +:+ p). rewrite IH; [done|done|cbn in *; lia].
Qed.

(** A member of an object and its text. *)
Definition member_reads (P : string → option (value * string)) (kv : string * value) (m : string) : Prop :=
  ∃ sp t, is_pad sp ∧ m = json_quote kv.1 +:+ ":" +:+ sp +:+ t ∧ reads P kv.2 t.

Lemma member_parse P p kv m rest :
  skips P → is_pad p → member_reads P kv m → stops rest →
  parse_member P (p +:+ m +:+ rest) = Some (kv, rest).
Proof.
  intros HP Hp (sp & t & Hsp & -> & Ht) Hr. destruct kv as [k v]. unfold parse_member.
  rewrite skip_pad by done. unfold json_quote, quoted. rewrite !string_app_assoc.
  change (dq +:+ ?x) with (String quote_char x). cbn [fst]. rewrite skip_solid by done.
  change (after (String quote_char EmptyString) (String quote_char ?x)) with (Some x).
  rewrite bind_some. change (dq +:+ ?x) with (String quote_char x).
  rewrite parse_quoted, bind_some. cbv beta iota. change (":" +:+ ?x) with (String ":" x).
  rewrite skip_solid by done. change (after ":" (String ":" ?x)) with (Some x).
  rewrite bind_some, HP, Ht by done. done.
Qed.

Lemma members_parse P p q kvs ms n rest :
  skips P → is_pad p → is_pad q → Forall2 (member_reads P) kvs ms → kvs ≠ [] → length kvs ≤ n →
  parse_members P n (p +:+ join ("," +:+ p) ms +:+ q +:+ "}" +:+ rest) = Some (kvs, rest).
Proof.
  intros HP Hp Hq Hall. revert n. induction Hall as [|kv m kvs ms Hv Hall IH]; [done|].
  intros n _ Hn. destruct n as [|n]; [cbn in Hn; lia|]. cbn [parse_members].
  destruct Hall as [|kv' m' kvs ms Hv' Hall].
  - cbn [join]. rewrite (member_parse P p kv) by first [done|by apply pad_stops].
    rewrite bind_some. cbv beta iota. rewrite skip_pad by done. done.
  - rewrite join_cons, !string_app_assoc, (member_parse P p kv) by done.
    rewrite bind_some. cbv beta iota. cbn [append]. rewrite skip_solid by done. cbv iota beta.
    change (Ascii.eqb "," ",") with true. cbv iota.
    change (String "," p) with ("," +:+ p). rewrite IH; [done|done|cbn in *; lia].
Qed.

(** How the text of a value begins: not with space, nor with what closes a bracket. *)
Definition solid (t : string) : Prop :=
  ∃ c r, t = String c r ∧ is_json_space c = false ∧ Ascii.eqb c "]" = false ∧ Ascii.eqb c "}" = false.

Lemma number_solid t : json_number t = true → solid t.
Proof.
  destruct t as [|c r]; [done|]. intros H.
  assert (Ascii.eqb c "-" = true ∨ is_digit c = true) as Hc.
  { unfold json_number in H. destruct c as [[] [] [] [] [] [] [] []]; try (by left); try (by right); done. }
  exists c, r. split; [done|].
  destruct c as [[] [] [] [] [] [] [] []]; cbn in Hc; naive_solver.
Qed.

Lemma parse_number n fuel rest :
  number_ok n → stops rest →
  parse_value (S fuel) (num_to_string n +:+ rest) = Some (VNumber n, rest).
Proof.
  intros (_ & Hj & Hc & Hn) Hr. pose proof (number_token_app _ rest Hc Hr) as Htok.
  destruct (num_to_string n) as [|c r] eqn:E; [done|]. cbn [append] in *.
  assert (Ascii.eqb c "-" = true ∨ is_digit c = true) as Hd.
  { unfold json_number in Hj.
    destruct c as [[] [] [] [] [] [] [] []]; try (by left); try (by right); done. }
  assert (is_json_space c = false ∧ Ascii.eqb c quote_char = false ∧ Ascii.eqb c "[" = false ∧
    Ascii.eqb c "{" = false ∧ Ascii.eqb "n" c = false ∧ Ascii.eqb "t" c = false ∧
    Ascii.eqb "f" c = false) as (H1 & H2 & H3 & H4 & H5 & H6 & H7).
  { destruct c as [[] [] [] [] [] [] [] []]; cbn in Hd; naive_solver. }
  cbn [parse_value]. rewrite skip_solid, H2, H3, H4 by done. cbn [after]. rewrite H5, H6, H7, Htok.
  by rewrite Hj, Hn.
Qed.

Lemma stringify_solid indent depth v t :
  json_ok v → stringify indent depth v = Some t → solid t.
Proof.
  assert (∀ c r, is_json_space c = false → Ascii.eqb c "]" = false → Ascii.eqb c "}" = false →
    solid (String c r)) as Hs by (intros; eexists _, _; done).
  destruct v; cbn [stringify json_ok]; try done.
  - intros _ [= <-]. by apply Hs.
  - intros _ [= <-]. by destruct b; apply Hs.
  - intros (Hf & Hj & _) [= <-]. rewrite Hf. by apply number_solid.
  - intros _ [= <-]. by apply Hs.
  - intros _ [= <-]. destruct (decide (map (λ x, default "null" (stringify indent (S depth) x)) l = []))
      as [->|Hne]; [by apply Hs|].
    destruct (bracketed_pads "[" "]" indent depth _ Hne) as (p & q & _ & _ & ->). by apply Hs.
  - intros _ [= <-].
    set (items := flat_map _ _). destruct (decide (items = [])) as [->|Hne]; [by apply Hs|].
    destruct (bracketed_pads "{" "}" indent depth _ Hne) as (p & q & _ & _ & ->). by apply Hs.
Qed.

Lemma stringify_ok indent depth v : json_ok v → ∃ t, stringify indent depth v = Some t.
Proof. destruct v; cbn; try done; by eexists. Qed.

(** The texts of the members of an object of plain data. *)
Definition member_text (indent depth : nat) (kv : string * value) : string :=
  json_quote kv.1 +:+ colon indent +:+ default "null" (stringify indent depth kv.2).

Lemma member_texts_fmap indent depth o :
  Forall (λ kv, json_ok kv.2) o →
  flat_map (λ p : string * option string,
     match p.2 with Some t => [json_quote p.1 +:+ colon indent +:+ t] | None => [] end)
    (map (λ kv, (kv.1, stringify indent depth kv.2)) o)
  = map (member_text indent depth) o.
Proof.
  induction 1 as [|[k v] o Hv _ IH]; [done|]. cbn [map flat_map fst snd]. rewrite IH.
  destruct (stringify_ok indent depth v Hv) as [t Ht]. unfold member_text. cbn [fst snd].
  by rewrite Ht.
Qed.

Lemma stringify_object indent depth o :
  Forall (λ kv, json_ok kv.2) o →
  stringify indent depth (VObject o)
  = Some (bracketed "{" "}" indent depth (map (member_text indent (S depth)) o)).
Proof. intros Ho. cbn [stringify]. do 2 f_equal. exact (member_texts_fmap indent (S depth) o Ho). Qed.

Lemma colon_pad indent : ∃ sp, is_pad sp ∧ colon indent = ":" +:+ sp.
Proof. destruct indent; [by exists EmptyString|by exists " "]. Qed.

Lemma solid_open c t x :
  c = "]"%char ∨ c = "}"%char → solid t → after (String c EmptyString) (skip_space (t +:+ x)) = None.
Proof.
  intros Hc (d & r & -> & Hs & H1 & H2). cbn [append]. rewrite skip_solid by done. cbn [after].
  assert (Ascii.eqb c d = false) as ->; [|done].
  destruct (Ascii.eqb_spec c d) as [<-|]; [|done]. by destruct Hc as [-> | ->].
Qed.

Lemma join_first sep x l : ∃ y, join sep (x :: l) = x +:+ y.
Proof.
  destruct l as [|z l]; [exists EmptyString; by rewrite string_app_nil_r|].
  by exists (sep +:+ join sep (z :: l)).
Qed.

(** The length of what is between the brackets, and how many items it can have. *)
Lemma between_fuel (op cl p q j : string) fuel :
  String.length op = 1 → String.length cl = 1 →
  String.length (op +:+ p +:+ j +:+ q +:+ cl) < S fuel → String.length j < fuel.
Proof. rewrite !string_app_length. lia. Qed.

Lemma item_fuel op cl indent d ts t fuel :
  String.length op = 1 → String.length cl = 1 → t ∈ ts →
  String.length (bracketed op cl indent d ts) < S fuel → String.length t < fuel.
Proof.
  intros Ho Hc Ht. assert (ts ≠ []) as Hne by (intros ->; by apply not_elem_of_nil in Ht).
  destruct (bracketed_pads op cl indent d ts Hne) as (p & q & _ & _ & ->).
  intros H%between_fuel; [|done..]. pose proof (join_length ("," +:+ p) ts t Ht). lia.
Qed.

Lemma parse_array indent depth l fuel rest :
  l ≠ [] → Forall json_ok l → stops rest →
  let ts := map (λ x, default "null" (stringify indent depth x)) l in
  (∀ d, String.length (bracketed "[" "]" indent d ts) < S fuel →
   Forall2 (reads (parse_value fuel)) (map redefined l) ts →
   parse_value (S fuel) (bracketed "[" "]" indent d ts +:+ rest) = Some (redefined (VArray l), rest)).
Proof.
  intros Hl Hok Hr ts d Hfuel Hall.
  assert (Forall solid ts) as Hs.
  { apply Forall_map. eapply Forall_impl; [exact Hok|]. intros x Hx. cbn.
    destruct (stringify_ok indent depth x Hx) as [t Ht]. rewrite Ht. by eapply stringify_solid. }
  assert (ts ≠ []) as Hne by by destruct l.
  destruct (bracketed_pads "[" "]" indent d ts Hne) as (p & q & Hp & Hq & E). rewrite E in *.
  apply between_fuel in Hfuel; [|done..]. rewrite !string_app_assoc.
  change ("[" +:+ ?x) with (String "[" x). cbn [parse_value]. rewrite skip_solid by done.
  change (Ascii.eqb "[" quote_char) with false. change (Ascii.eqb "[" "[") with true. cbv iota.
  rewrite (skip_pad p) by done.
  assert (after "]" (skip_space (join ("," +:+ p) ts +:+ q +:+ "]" +:+ rest)) = None) as ->.
  { destruct ts as [|t ts']; [done|]. apply Forall_cons in Hs as [Ht _].
    destruct (join_first ("," +:+ p) t ts') as [y ->]. rewrite string_app_assoc.
    apply solid_open; [by left|done]. }
  rewrite (items_parse _ p q (map redefined l) ts);
    [done|apply parse_value_skips|done..|by destruct l|].
  assert (Forall (λ x, x ≠ EmptyString) ts) as Hx.
  { eapply Forall_impl; [exact Hs|]. by intros x (c & r & -> & _). }
  apply Forall2_length in Hall. pose proof (join_count ("," +:+ p) ts Hx). lia.
Qed.

Lemma parse_object indent depth o fuel rest :
  o ≠ [] → stops rest →
  let ms := map (member_text indent depth) o in
  (∀ d, String.length (bracketed "{" "}" indent d ms) < S fuel →
   Forall2 (member_reads (parse_value fuel)) (map redefined_member o) ms →
   parse_value (S fuel) (bracketed "{" "}" indent d ms +:+ rest) = Some (redefined (VObject o), rest)).
Proof.
  intros Hl Hr ms d Hfuel Hall.
  assert (ms ≠ []) as Hne by by destruct o.
  destruct (bracketed_pads "{" "}" indent d ms Hne) as (p & q & Hp & Hq & E). rewrite E in *.
  apply between_fuel in Hfuel; [|done..]. rewrite !string_app_assoc.
  change ("{" +:+ ?x) with (String "{" x). cbn [parse_value]. rewrite skip_solid by done.
  change (Ascii.eqb "{" quote_char) with false. change (Ascii.eqb "{" "[") with false.
  change (Ascii.eqb "{" "{") with true. cbv iota. rewrite (skip_pad p) by done.
  assert (after "}" (skip_space (join ("," +:+ p) ms +:+ q +:+ "}" +:+ rest)) = None) as ->.
  { unfold ms. destruct o as [|kv o']; [done|]. cbn [map].
    destruct (join_first ("," +:+ p) (member_text indent depth kv) (map (member_text indent depth) o'))
      as [y ->]. rewrite string_app_assoc. apply solid_open; [by right|].
    by eexists _, _. }
  rewrite (members_parse _ p q (map redefined_member o) ms);
    [done|apply parse_value_skips|done..|by destruct o|].
  assert (Forall (λ x, x ≠ EmptyString) ms) as Hx by by apply Forall_map, Forall_true.
  apply Forall2_length in Hall. pose proof (join_count ("," +:+ p) ms Hx). lia.
Qed.

(** The parser reads the text of a value, given fuel for its length. *)
Lemma parse_stringify indent v : ∀ depth t fuel,
  json_ok v → stringify indent depth v = Some t → String.length t < fuel →
  reads (parse_value fuel) (redefined v) t.
Proof.
  induction v as [| |b|n|s| | |l IH|o IH| |] using value_ind_nested;
    intros depth t [|fuel] Hok Ht Hfuel rest Hr; try done; try lia; cbn [stringify] in Ht.
  - by injection Ht as <-.
  - by destruct b; injection Ht as <-.
  - injection Ht as <-. destruct Hok as [Hf Hok]. rewrite Hf. by apply parse_number.
  - injection Ht as <-. unfold json_quote, quoted. rewrite !string_app_assoc.
    change (dq +:+ ?x) with (String quote_char x). cbn [parse_value].
    rewrite skip_solid by done. change (Ascii.eqb quote_char quote_char) with true. cbv iota.
    change (dq +:+ ?x) with (String quote_char x). by rewrite parse_quoted.
  - apply json_ok_array in Hok. injection Ht as <-. destruct (decide (l = [])) as [->|Hl]; [done|].
    apply parse_array; try done. apply Forall2_fmap, Forall_Forall2_diag, Forall_forall.
    intros x Hx. rewrite Forall_forall in IH, Hok.
    change (reads (parse_value fuel) (redefined x) (default "null" (stringify indent (S depth) x))).
    destruct (stringify_ok indent (S depth) x (Hok x Hx)) as [t Ht]. rewrite Ht.
    apply (IH x Hx (S depth) t); [by apply Hok|done|].
    eapply item_fuel; [| | |exact Hfuel]; [done..|].
    apply list_elem_of_fmap. exists x. by rewrite Ht.
  - apply json_ok_object in Hok.
    assert (stringify indent depth (VObject o) = Some t) as Ho by exact Ht. clear Ht.
    rewrite stringify_object in Ho by done. injection Ho as <-.
    destruct (decide (o = [])) as [->|Ho]; [done|].
    apply parse_object; try done. apply Forall2_fmap, Forall_Forall2_diag, Forall_forall.
    intros [k x] Hx. rewrite Forall_forall in IH, Hok.
    change (member_reads (parse_value fuel) (k, redefined x) (member_text indent (S depth) (k, x))).
    destruct (stringify_ok indent (S depth) x (Hok _ Hx)) as [t Ht].
    destruct (colon_pad indent) as (sp & Hsp & Hcolon).
    exists sp, t. split_and!; [done| |].
    { unfold member_text. cbn [fst snd]. by rewrite Ht, Hcolon, string_app_assoc. }
    apply (IH _ Hx (S depth) t); [by apply (Hok _ Hx)|done|].
    assert (String.length (member_text indent (S depth) (k, x)) < fuel) as Hm.
    { eapply item_fuel; [| | |exact Hfuel]; [done..|]. by apply list_elem_of_fmap_2. }
    revert Hm. unfold member_text. cbn [fst snd]. rewrite Ht.
    change (default "null" (Some t)) with t. rewrite !string_app_length. lia.
Qed.

(** [JSON.parse] of a text, with space around it. *)
Lemma JSON_parse_stringify indent v t p q :
  json_ok v → stringify indent 0 v = Some t → is_pad p → is_pad q →
  JSON_parse (p +:+ t +:+ q) = Some (redefined v).
Proof.
  intros Hok Ht Hp Hq. unfold JSON_parse. rewrite parse_value_skips by done.
  rewrite (parse_stringify indent v 0 t); [|done..| |].
  - rewrite bind_some. cbv iota beta. rewrite <-(string_app_nil_r q), skip_pad by done. done.
  - rewrite !string_app_length. lia.
  - destruct q as [|c q]; [done|]. pose proof (pad_stops (String c EmptyString) " "%char EmptyString) as H.
    unfold is_pad in Hq. cbn in Hq. apply andb_true_iff in Hq as [Hc _].
    apply H; [|done]. unfold is_pad. cbn. by rewrite Hc.
Qed.

(** ** Serialization keeps the data *)

(** Names as JavaScript has them, each once, and none that assignment would lose. *)
Fixpoint names_ok (v : value) : Prop :=
  match v with
  | VArray l => (fix go l := match l with [] => True | x :: l' => names_ok x ∧ go l' end) l
  | VObject o =>
      NoDup (o.*1) ∧ ("__proto__" ∉ o.*1) ∧
      (fix go o := match o with [] => True | kv :: o' => names_ok kv.2 ∧ go o' end) o
  | _ => True
  end.

Lemma names_ok_array l : names_ok (VArray l) ↔ Forall names_ok l.
Proof. cbn. induction l; rewrite ?Forall_cons; naive_solver. Qed.
Lemma names_ok_object o :
  names_ok (VObject o) ↔ NoDup (o.*1) ∧ ("__proto__" ∉ o.*1) ∧ Forall (λ kv, names_ok kv.2) o.
Proof. cbn. do 2 apply and_iff_compat_l. induction o; rewrite ?Forall_cons; naive_solver. Qed.

(** The same, computed. *)
Fixpoint names_okb (v : value) : bool :=
  match v with
  | VArray l => forallb names_okb l
  | VObject o =>
      bool_decide (NoDup (o.*1)) && bool_decide ("__proto__" ∉ o.*1) && forallb (λ kv, names_okb kv.2) o
  | _ => true
  end.
Lemma names_okb_ok v : names_okb v = true → names_ok v.
Proof.
  induction v as [| | | | | | |l IH|o IH| |] using value_ind_nested; cbn [names_okb]; try done.
  - rewrite names_ok_array, forallb_forall, Forall_forall. rewrite Forall_forall in IH.
    intros H x Hx. apply IH; [done|]. by apply H, list_elem_of_In.
  - rewrite !andb_true_iff, !bool_decide_eq_true, names_ok_object, forallb_forall, Forall_forall.
    rewrite Forall_forall in IH. intros [[Hnd Hp] H]. split; [done|]. split; [done|].
    intros x Hx. apply IH; [done|]. by apply H, list_elem_of_In.
Qed.

(** Sorting by assignment loses nothing then. *)
Lemma sorted_object_keeps ss :
  NoDup (ss.*1) → ("__proto__" ∉ ss.*1) → sorted_object ss ≡ₚ ss.
Proof.
  intros Hnd Hp. unfold sorted_object.
  assert (∀ l acc, NoDup (acc.*1 ++ l) → l ⊆ (ss.*1) →
    foldl (λ sorted key, match map_get ss key with
      | Some x => obj_assign sorted key x | None => sorted end) acc l
    ≡ₚ acc ++ map (λ k, (k, default VNull (map_get ss k))) l) as H.
  { induction l as [|k l IH]; intros acc Hacc Hl; cbn; [by rewrite app_nil_r|].
    assert (k ∈ ss.*1) as Hk by (apply Hl; by left).
    destruct (map_get ss k) as [x|] eqn:Hx; [|by apply map_get_None in Hx].
    apply NoDup_app in Hacc as (Ha & Hd & Hkl). apply NoDup_cons in Hkl as [Hkl Hndl].
    assert (k ∉ acc.*1) as Hka by (intros Hin; apply (Hd k Hin); by left).
    assert (obj_assign acc k x ≡ₚ (k, x) :: acc) as Hassign.
    { unfold obj_assign. destruct (String.eqb_spec k "__proto__") as [->|]; [done|].
      rewrite andb_false_r. by apply obj_define_fresh. }
    rewrite IH; [|rewrite Hassign|set_solver].
    - rewrite Hassign. cbn. by rewrite <-Permutation_middle.
    - cbn. apply NoDup_cons. split; [set_solver|]. apply NoDup_app. set_solver. }
  assert (sort_strings (ss.*1) ≡ₚ ss.*1) as Hs by apply js_sort_Permutation.
  rewrite H; [|by rewrite Hs|by intros k Hk; rewrite <-Hs].
  cbn [app]. rewrite Hs. clear H Hp Hs.
  assert (map (λ k, (k, default VNull (map_get ss k))) (ss.*1) = ss) as ->; [|done].
  rewrite map_map. etrans; [|apply map_id]. apply map_ext_in. intros [k v] Hi%list_elem_of_In. cbn.
  by rewrite (elem_of_map_get ss k v Hnd Hi).
Qed.

(** Both ways of rebuilding an object permute its mapped members. *)
Lemma same_rebuilt (f : value → value) o r :
  Forall (λ kv, same kv.2 (f kv.2)) o → r ≡ₚ map (λ kv, (kv.1, f kv.2)) o →
  same (VObject o) (VObject r).
Proof.
  intros Ho Hr. apply Permutation_map_inv in Hr as (o1 & -> & Hp).
  apply (same_object o o1); [done|]. rewrite Hp in Ho. clear Hp.
  induction Ho as [|[k v] o1' Hv _ IH]; [constructor|]. cbn. by constructor.
Qed.

Definition stored (v : value) : value := redefined (stable v).

Lemma stored_same v : names_ok v → same v (stored v).
Proof.
  induction v as [| | | | | | |l IH|o IH| |] using value_ind_nested; intros Hn;
    try apply same_refl.
  - apply names_ok_array in Hn. apply same_array. rewrite map_map.
    induction IH as [|x l Hx _ IHl]; [constructor|]. apply Forall_cons in Hn as [Hnx Hn].
    constructor; [by apply Hx|by apply IHl].
  - apply names_ok_object in Hn as (Hnd & Hp & Hn).
    apply (same_rebuilt stored).
    { rewrite Forall_forall in *. intros kv Hkv. by apply IH, Hn. }
    unfold stored. cbn [stable redefined].
    change (foldl _ [] _) with (sorted_object (map (λ c, (c.1, stable c.2)) o)).
    assert (sorted_object (map (λ c, (c.1, stable c.2)) o) ≡ₚ map (λ c, (c.1, stable c.2)) o) as Hs
      by by apply sorted_object_keeps; rewrite map_fst_map.
    assert (map redefined_member (sorted_object (map (λ c, (c.1, stable c.2)) o))
            ≡ₚ map (λ c, (c.1, stored c.2)) o) as Hm by by rewrite Hs, map_map.
    etrans; [apply from_entries_perm|exact Hm].
    change (NoDup (map redefined_member (sorted_object (map (λ c, (c.1, stable c.2)) o))).*1).
    rewrite Hm, map_fst_map. exact Hnd.
Qed.

Lemma stable_ok v : names_ok v → json_ok v → json_ok (stable v).
Proof.
  induction v as [| | | | | | |l IH|o IH| |] using value_ind_nested; intros Hn Hj; try done.
  - apply names_ok_array in Hn. apply json_ok_array in Hj. apply json_ok_array.
    rewrite Forall_forall in *. intros x (y & -> & Hy)%list_elem_of_fmap. auto.
  - apply names_ok_object in Hn as (Hnd & Hp & Hn). apply json_ok_object in Hj.
    cbn [stable]. apply json_ok_object.
    change (foldl _ [] _) with (sorted_object (map (λ c, (c.1, stable c.2)) o)).
    rewrite sorted_object_keeps by by rewrite map_fst_map.
    rewrite Forall_forall in *. intros kv (c & -> & Hc)%list_elem_of_fmap. cbn. auto.
Qed.

(** C17: what the compiler writes reads back: the text of plain data, with the newline after
    it, is accepted by [JSON.parse], which gives the same data up to the order of
    properties.  The numbers must have a text that denotes them, and no object a
    property [__proto__]. *)
Theorem stableStringify_roundtrip v indent :
  json_ok v → names_ok v →
  ∃ t w, stableStringify v indent = Some t ∧ JSON_parse (t +:+ newline) = Some w ∧ same v w.
Proof.
  intros Hj Hn. pose proof (stable_ok v Hn Hj) as Hs.
  destruct (stringify_ok (Nat.min 10 indent) 0 (stable v) Hs) as [t Ht].
  exists t, (stored v). split_and!; [done| |by apply stored_same].
  by apply (JSON_parse_stringify (Nat.min 10 indent) (stable v) t EmptyString newline).
Qed.

Lemma stableStringify_roundtrip_witness :
  let v := VObject [("name", VString (String quote_char "a")); ("nodes", VArray [VNumber (num 1); VNumber (Number "0.1"); VNull]);
                    ("10", VBool true)] in
  json_ok v ∧ names_ok v ∧
  ∃ t w, stableStringify v 2 = Some t ∧ JSON_parse (t +:+ newline) = Some w ∧ same v w.
Proof.
  intros v.
  assert (json_ok v) as Hj by by repeat split; vm_compute.
  assert (names_ok v) as Hn.
  { repeat split; cbn; repeat (apply NoDup_cons; split); try apply NoDup_nil; set_solver. }
  split_and!; [done..|]. exact (stableStringify_roundtrip v 2 Hj Hn).
Defined.

(** ** What [JSON.stringify] leaves out *)

Definition has_text (v : value) : bool :=
  match v with VUndefined | VSymbol | VFunction _ | VPlanCtx _ | VCandidateSet _ _ => false | _ => true end.

(** Objects without the members that have no text, arrays with null for such items. *)
Fixpoint defined (v : value) : value :=
  match v with
  | VArray l => VArray (map (λ x, if has_text x then defined x else VNull) l)
  | VObject o => VObject (flat_map (λ kv, if has_text kv.2 then [(kv.1, defined kv.2)] else []) o)
  | _ => v
  end.

Lemma has_text_stringify indent depth v : has_text v = false → stringify indent depth v = None.
Proof. by destruct v. Qed.

Lemma stringify_defined indent v : ∀ depth, stringify indent depth (defined v) = stringify indent depth v.
Proof.
  induction v as [| | | | | | |l IH|o IH| |] using value_ind_nested; intros depth; try done; cbn; do 2 f_equal.
  - rewrite map_map. induction IH as [|x l Hx _ IHl]; [done|]. cbn. rewrite IHl. f_equal.
    destruct (has_text x) eqn:Ht; [by rewrite Hx|]. by rewrite (has_text_stringify _ _ x).
  - induction IH as [|[k x] o Hx _ IHo]; [done|]. cbn in *. rewrite map_app, flat_map_app, IHo. f_equal.
    destruct (has_text x) eqn:Ht; cbn; [by rewrite Hx, app_nil_r|]. by rewrite (has_text_stringify _ _ x).
Qed.

(** [JSON.parse(JSON.stringify(v))]: data as JSON keeps it. *)
Definition json_value (v : value) : value := redefined (defined v).
Definition json_object (o : object) : object :=
  from_entries (flat_map (λ kv, if has_text kv.2 then [(kv.1, json_value kv.2)] else []) o).

Lemma json_copy indent v t :
  json_ok (defined v) → stringify indent 0 v = Some t → JSON_parse t = Some (json_value v).
Proof.
  intros Hv Ht. rewrite <-stringify_defined in Ht.
  pose proof (JSON_parse_stringify indent (defined v) t EmptyString EmptyString Hv Ht) as H.
  cbn [append] in H. rewrite string_app_nil_r in H. by apply H.
Qed.

Lemma json_value_object o : json_value (VObject o) = VObject (json_object o).
Proof.
  unfold json_value, json_object. cbn [defined redefined]. do 2 f_equal.
  induction o as [|[k v] o IH]; [done|]. cbn. rewrite map_app, IH. by destruct (has_text v).
Qed.
Lemma json_value_array l :
  Forall (λ v, has_text v = true) l → json_value (VArray l) = VArray (map json_value l).
Proof.
  intros H. unfold json_value. cbn [defined redefined]. f_equal. rewrite map_map.
  induction H as [|v l Hv _ IH]; [done|]. cbn. by rewrite IH, Hv.
Qed.

Definition json_member (kv : string * value) : string * value := (kv.1, json_value kv.2).

Lemma json_object_members o :
  Forall (λ kv, has_text kv.2 = true) o → json_object o = from_entries (map json_member o).
Proof.
  intros H. unfold json_object. f_equal. induction H as [|[k v] o Hv _ IH]; [done|]. cbn in *. by rewrite Hv, IH.
Qed.
(** A record: its names are no array indices. *)
Lemma json_record o :
  Forall (λ kv, has_text kv.2 = true) o → NoDup (o.*1) → Forall (λ k, array_index k = None) (o.*1) →
  json_value (VObject o) = VObject (map json_member o).
Proof.
  intros Ho Hnd Hi. rewrite json_value_object, json_object_members by done. f_equal.
  assert ((map json_member o).*1 = o.*1) as E by apply map_fst_map.
  apply from_entries_names; [by rewrite E|]. apply Forall_map. by apply Forall_map in Hi.
Qed.

(** The names that are left. *)
Lemma kept_names (f : value → value) (o : object) :
  NoDup (o.*1) →
  let o' := flat_map (λ kv, if has_text kv.2 then [(kv.1, f kv.2)] else []) o in
  NoDup (o'.*1) ∧ ∀ k, k ∈ o'.*1 → k ∈ o.*1.
Proof.
  induction o as [|[j v] o IH]; intros Hnd; [done|]. apply NoDup_cons in Hnd as [Hj Hnd].
  destruct (IH Hnd) as [H1 H2]. cbn. destruct (has_text v); cbn.
  - split; [apply NoDup_cons; split; [by intros ?%H2|done]|]. intros k [->|Hk]%elem_of_cons; [by left|right; auto].
  - split; [done|]. intros k Hk. right. auto.
Qed.

Lemma json_object_get o k :
  NoDup (o.*1) →
  map_get (json_object o) k =
    match map_get o k with Some v => if has_text v then Some (json_value v) else None | None => None end.
Proof.
  intros Hnd. destruct (kept_names json_value o Hnd) as [Hnd' _]. unfold json_object.
  rewrite <-(map_get_perm _ _ k Hnd' (Permutation_sym (from_entries_perm _ Hnd'))). clear Hnd'.
  induction o as [|[j v] o IH]; [done|]. apply NoDup_cons in Hnd as [Hj Hnd]. cbn.
  destruct (String.eqb_spec k j) as [->|Hne].
  - destruct (has_text v); cbn; [by rewrite String.eqb_refl|]. rewrite IH by done.
    apply (proj2 (map_get_None o j)) in Hj. by rewrite Hj.
  - destruct (has_text v); cbn; [|by apply IH]. apply String.eqb_neq in Hne. rewrite Hne. by apply IH.
Qed.

(** Such data is JSON data with names that are each there once. *)
Lemma defined_names v : names_ok v → names_ok (defined v).
Proof.
  induction v as [| | | | | | |l IH|o IH| |] using value_ind_nested; intros Hv; try done.
  - apply names_ok_array in Hv. cbn [defined]. apply names_ok_array, Forall_map.
    rewrite Forall_forall in *. intros x Hx. destruct (has_text x); [auto|done].
  - apply names_ok_object in Hv as (Hnd & Hp & Hv). cbn [defined]. apply names_ok_object.
    destruct (kept_names defined o Hnd) as [Hnd' Hk].
    split; [done|]. split; [by intros ?%Hk|].
    apply Forall_flat_map. rewrite Forall_forall in *. intros kv Hkv.
    destruct (has_text kv.2); [|done]. apply Forall_singleton. cbn. apply IH; auto.
Qed.

Lemma redefined_ok v : names_ok v → json_ok v → json_ok (redefined v) ∧ names_ok (redefined v).
Proof.
  induction v as [| | | | | | |l IH|o IH| |] using value_ind_nested; intros Hn Hj; try done.
  - apply names_ok_array in Hn. apply json_ok_array in Hj. cbn [redefined].
    rewrite json_ok_array, names_ok_array, <-Forall_and. apply Forall_map.
    rewrite Forall_forall in *. intros x Hx. apply IH; auto.
  - apply names_ok_object in Hn as (Hnd & Hp & Hn). apply json_ok_object in Hj.
    change (redefined (VObject o)) with (VObject (from_entries (map redefined_member o))).
    assert ((map redefined_member o).*1 = o.*1) as E by apply map_fst_map.
    assert (from_entries (map redefined_member o) ≡ₚ map redefined_member o) as Hperm
      by (apply from_entries_perm; by rewrite E).
    assert (Forall (λ kv, json_ok kv.2 ∧ names_ok kv.2) (map redefined_member o)) as Hall.
    { apply Forall_map. rewrite Forall_forall in *. intros kv Hkv. cbn. apply IH; auto. }
    pose proof (fmap_Permutation fst _ _ Hperm) as Hkeys. change (map fst ?l) with (l.*1) in Hkeys.
    rewrite E in Hkeys. revert Hperm Hkeys Hall. generalize (from_entries (map redefined_member o)).
    generalize (map redefined_member o). clear E. intros l r Hperm Hkeys Hall.
    rewrite <-Hperm in Hall. apply Forall_and in Hall as [H1 H2].
    split; [by apply json_ok_object|]. apply names_ok_object. rewrite Hkeys. by split.
Qed.

Lemma json_value_ok v : names_ok v → json_ok (defined v) → json_ok (json_value v) ∧ names_ok (json_value v).
Proof. intros Hn. by apply redefined_ok, defined_names. Qed.
