(* ===== verification/Alike.v ===== *)
(** * Alike: JSON values that differ in the order of their properties

    What the compiler writes and a reader parses again is the data up to the order of
    properties ([same], StableStringify.v).  Code that reads values by name cannot tell
    such values apart: the readers of JsValue.v respect the relation [alike], as [Proper]
    instances and as rules for chains of [←]. *)

From Stdlib Require Import Floats.SpecFloat.
From S2P Require Import Prelude Collections JsNumber JsValue StableStringify Json.

(** The same data, with each name once. *)
Definition alike (v w : value) : Prop := distinct_names v ∧ same v w.

(** Results of computations that cannot tell. *)
Definition result_rel {A B} (R : A → B → Prop) (x : result A) (y : result B) : Prop :=
  match x, y with
  | Ok a, Ok b => R a b
  | Throw e, Throw e' => e = e'
  | _, _ => False
  end.

Lemma result_rel_bind {A B C D} (R : A → B → Prop) (Q : C → D → Prop) m m' f g :
  result_rel R m m' → (∀ a b, R a b → result_rel Q (f a) (g b)) →
  result_rel Q (m ≫= f) (m' ≫= g).
Proof. destruct m, m'; cbn; auto; done. Qed.

Lemma result_rel_eq {A} (R : A → A → Prop) `{!Reflexive R} x y : x = y → result_rel R x y.
Proof. intros ->. by destruct y; cbn. Qed.

Lemma result_rel_Ok {A B} (R : A → B → Prop) m m' a :
  result_rel R m m' → m = Ok a → ∃ b, m' = Ok b ∧ R a b.
Proof. intros H ->. destruct m'; [eauto|done]. Qed.

Lemma result_rel_fold {A B S T} (R : A → B → Prop) (Q : S → T → Prop) f g l l' s t :
  (∀ s t a b, Q s t → R a b → result_rel Q (f s a) (g t b)) →
  Forall2 R l l' → Q s t → result_rel Q (fold_result f s l) (fold_result g t l').
Proof.
  intros Hf Hl. revert s t. induction Hl as [|a b l l' Hab _ IH]; intros s t Hs; [done|].
  cbn. eapply result_rel_bind; eauto.
Qed.

(** ** Values *)

Lemma names_ok_distinct v : names_ok v → distinct_names v.
Proof.
  induction v as [| | | | | | |l IH|o IH| |] using value_ind_nested; intros Hn; try done.
  - apply names_ok_array in Hn. apply distinct_names_array. rewrite Forall_forall in *. auto.
  - apply names_ok_object in Hn as (Hnd & _ & Hn). apply distinct_names_object. split; [done|].
    rewrite Forall_forall in *. auto.
Qed.

(** Equal but for arrays and objects, which are alike member by member. *)
Lemma alike_scalar v w :
  alike v w → match v with VArray _ | VObject _ => True | _ => w = v end.
Proof. intros [_ H]. inversion H; subst; by try case_match. Qed.

Lemma alike_array l w : alike (VArray l) w → ∃ l', w = VArray l' ∧ Forall2 alike l l'.
Proof.
  intros [Hd H]. apply distinct_names_array in Hd.
  assert (∃ l', w = VArray l' ∧ Forall2 same l l') as (l' & -> & Hl).
  { inversion H; subst; eexists; split; try done. by apply Forall_Forall2_diag, Forall_forall; intros; constructor. }
  exists l'. split; [done|]. clear H. induction Hl; [done|].
  apply Forall_cons in Hd as [??]. constructor; [by split|auto].
Qed.

Lemma map_get_pointwise {V W} (R : V → W → Prop) (o : list (string * V)) (o' : list (string * W)) k :
  Forall2 (λ a b, a.1 = b.1 ∧ R a.2 b.2) o o' →
  option_Forall2 R (map_get o k) (map_get o' k).
Proof.
  induction 1 as [|[j x] [j' y] o o' [Hj Hxy] _ IH]; [constructor|]. cbn in *. subst.
  case_match; [by constructor|done].
Qed.

Lemma inherited_distinct k : distinct_names (inherited k).
Proof. unfold inherited. repeat case_match; try done. split; [constructor|done]. Qed.

Lemma alike_refl v : distinct_names v → alike v v.
Proof. split; [done|constructor]. Qed.

(** The members of alike objects. *)
Lemma alike_object o w :
  alike (VObject o) w →
  ∃ o', w = VObject o' ∧ ∀ k, option_Forall2 alike (map_get o k) (map_get o' k).
Proof.
  intros [Hd H]. apply distinct_names_object in Hd as [Hnd Hd].
  assert (∀ k x, map_get o k = Some x → distinct_names x) as Hdk.
  { intros k x Hx%map_get_Some_elem_of. rewrite Forall_forall in Hd. by apply (Hd (k, x)). }
  assert (∃ o', w = VObject o' ∧ ∀ k, option_Forall2 same (map_get o k) (map_get o' k)) as (o' & -> & Hg).
  { inversion H as [| |? o1 o' Hp Ho]; subst; eexists; (split; [done|]); intros k.
    - destruct (map_get o k); repeat constructor.
    - rewrite (map_get_perm o o1) by done. by apply map_get_pointwise. }
  exists o'. split; [done|]. intros k. specialize (Hg k). specialize (Hdk k).
  destruct Hg; constructor. by split; auto.
Qed.

Lemma alike_own o o' :
  (∀ k, option_Forall2 alike (map_get o k) (map_get o' k)) → ∀ k, alike (own_get o k) (own_get o' k).
Proof.
  intros H k. specialize (H k). unfold own_get. destruct H; [done|].
  apply alike_refl, inherited_distinct.
Qed.

Lemma entries_of_array l l' i :
  Forall2 alike l l' →
  Forall2 (λ a b, a.1 = b.1 ∧ alike a.2 b.2) (imap (λ j x, (index_key (i + j), x)) l)
    (imap (λ j x, (index_key (i + j), x)) l').
Proof.
  intros H. revert i. induction H as [|x y l l' Hxy _ IH]; intros i; cbn; [done|].
  constructor; [done|]. specialize (IH (S i)).
  assert (∀ (m : list value), imap ((λ j x, (index_key (i + j), x)) ∘ S) m
    = imap (λ j x, (index_key (S i + j), x)) m) as Hm.
  { intros m. apply imap_ext. intros j z _. cbn. do 2 f_equal. lia. }
  by rewrite !Hm.
Qed.

(** ** The readers *)

#[export] Instance get_prop_alike k : Proper (alike ==> result_rel alike) (λ v, get_prop v k).
Proof.
  intros v w H. destruct v as [| | | | | | |l|o|c|c n];
    try (apply alike_scalar in H as ->; cbn; try done;
         repeat case_match; cbn; apply alike_refl; try done; apply inherited_distinct).
  - apply alike_scalar in H as ->. cbn. case_match; cbn; [by apply alike_refl|].
    apply alike_own. intros j. set (m := imap _ _).
    destruct (map_get m j) as [x|] eqn:Hx; constructor. apply alike_refl.
    apply map_get_Some_elem_of, elem_of_lookup_imap in Hx as (i & y & [= -> ->] & _). done.
  - apply alike_array in H as (l' & -> & H). cbn. rewrite (Forall2_length _ _ _ H).
    case_match; cbn; [by apply alike_refl|]. apply alike_own. intros j.
    by apply map_get_pointwise, (entries_of_array l l' 0).
  - apply alike_object in H as (o' & -> & H). cbn. by apply alike_own.
Qed.

Lemma alike_truthy v w : alike v w → truthy w = truthy v.
Proof.
  intros H. destruct v; try by apply alike_scalar in H as ->.
  - by apply alike_array in H as (? & -> & _).
  - by apply alike_object in H as (? & -> & _).
Qed.

#[export] Instance iterate_alike : Proper (alike ==> result_rel (Forall2 alike)) iterate.
Proof.
  intros v w H. destruct v; try (apply alike_scalar in H as ->; cbn; try done).
  - apply Forall_Forall2_diag, Forall_forall. intros x (c & -> & _)%list_elem_of_fmap. by apply alike_refl.
  - by apply alike_array in H as (l' & -> & H).
  - by apply alike_object in H as (o' & -> & _).
Qed.

#[export] Instance template_alike : Proper (alike ==> eq) template.
Proof.
  intros v. induction v as [| | | | | | |l IH|o _| |] using value_ind_nested; intros w H;
    try by apply alike_scalar in H as ->.
  - apply alike_array in H as (l' & -> & H). cbn. f_equal.
    induction H as [|x y l l' Hxy _ IHl]; [done|]. apply Forall_cons in IH as [IHx IH].
    rewrite (IHl IH), (IHx y Hxy).
    destruct x; try by rewrite (alike_scalar _ _ Hxy).
    + by apply alike_array in Hxy as (? & -> & _).
    + by apply alike_object in Hxy as (? & -> & _).
  - apply alike_object in H as (o' & -> & H). cbn. specialize (H "toString").
    assert (map_has o' "toString" = map_has o "toString") as ->; [|done].
    unfold map_has. by destruct H.
Qed.

#[export] Instance ToNumber_alike : Proper (alike ==> eq) ToNumber.
Proof.
  intros v w H. pose proof (template_alike v w H) as Ht.
  destruct v; try by apply alike_scalar in H as ->.
  - apply alike_array in H as (? & -> & _). cbn [ToNumber]. by rewrite Ht.
  - apply alike_object in H as (? & -> & _). cbn [ToNumber]. by rewrite Ht.
Qed.
