(* ===== verification/RedisSeed.v ===== *)
(** * RedisSeed: the test data in Redis (dsl/tools/redis_seed.ts)

    The script empties a Redis database, writes users, follow lists, media and
    recommendations computed from the users' numbers, and checks some of them.  Redis is
    an interface: a class of commands with the documented behaviour of each, which a map
    of keys implements. *)

From S2P Require Import Prelude StateMonad Collections JsNumber JsValue StableStringify.

(** ** The commands used *)

Inductive redis_value := RHash (fields : list (string * string)) | RList (items : list string).

Class Redis (R : Type) := {
  at_key : R → string → option redis_value;
  flushDb : M R unit;
  hSet : string → list (string * string) → M R unit;
  rPush : string → list string → M R unit;
  hGet : string → string → M R (option string);
  lLen : string → M R nat;
  lRangeAll : string → M R (list string);      (* [lRange(key, 0, -1)] *)
}.

Definition set_fields (fs h : list (string * string)) : list (string * string) :=
  foldl (λ h f, map_set h f.1 f.2) h fs.

(** What Redis's documentation says of them: a command on a key of another type fails;
    here only what they do on keys that are missing or of their type matters. *)
Definition hash_at (v : option redis_value) (h : list (string * string)) : Prop :=
  v = Some (RHash h) ∨ (v = None ∧ h = []).
Definition list_at (v : option redis_value) (l : list string) : Prop :=
  v = Some (RList l) ∨ (v = None ∧ l = []).

Class RedisLaws (R : Type) `{Redis R} := {
  flushDb_law r : ∃ r', flushDb r = (Ok tt, r') ∧ ∀ k, at_key r' k = None;
  hSet_law r k fs h : hash_at (at_key r k) h → fs ≠ [] →
    ∃ r', hSet k fs r = (Ok tt, r') ∧ at_key r' k = Some (RHash (set_fields fs h)) ∧
      ∀ k', k' ≠ k → at_key r' k' = at_key r k';
  rPush_law r k l items : list_at (at_key r k) l → items ≠ [] →
    ∃ r', rPush k items r = (Ok tt, r') ∧ at_key r' k = Some (RList (l ++ items)) ∧
      ∀ k', k' ≠ k → at_key r' k' = at_key r k';
  hGet_law r k f h : hash_at (at_key r k) h → hGet k f r = (Ok (map_get h f), r);
  lLen_law r k l : list_at (at_key r k) l → lLen k r = (Ok (length l), r);
  lRangeAll_law r k l : list_at (at_key r k) l → lRangeAll k r = (Ok l, r);
}.

(** ** The data *)

Definition NUM_USERS : nat := 20.
Definition FOLLOW_FANOUT : nat := 5.
Definition MEDIA_PER_USER : nat := 10.
Definition RECOMMENDATION_PER_USER : nat := 10.
Definition COUNTRIES : list string := ["US"; "CA"; "GB"].

Definition getCountry (uid : nat) : string := nth ((uid - 1) mod 3) COUNTRIES EmptyString.
Definition getFollowees (uid : nat) : list string :=
  map (λ i, pretty ((uid + i - 1) mod NUM_USERS + 1)) (seq 1 FOLLOW_FANOUT).
Definition getMediaIds (uid : nat) : list string :=
  map (λ j, pretty (uid * 1000 + j)) (seq 1 MEDIA_PER_USER).
Definition getRecommendationIds (uid : nat) : list string :=
  map (λ j, pretty (uid * 1000 + j)) (seq 1 RECOMMENDATION_PER_USER).

(** [parseInt(s, 10)] on text without a sign *)
Definition parseInt10 (s : string) : number :=
  match read_digits (trim_left s) 0 0 with (v, S _, _) => num v | _ => NaN end.
Record config := { host : string; port : number; db : number }.
Definition config_of (env : string → option string) : config :=
  {| host := default "127.0.0.1" (env "REDIS_HOST");
     port := parseInt10 (default "6379" (env "REDIS_PORT"));
     db := parseInt10 (default "0" (env "REDIS_DB")) |}.

(** ** The script *)

Section script.
Context {R : Type} `{Redis R}.

Fixpoint each_user (f : nat → M R unit) (uids : list nat) : M R unit :=
  match uids with [] => mret tt | uid :: uids' => f uid ;; each_user f uids' end.
Definition users : list nat := seq 1 NUM_USERS.

Definition user_key (uid : nat) : string := "user:" +:+ pretty uid.
Definition follow_key (uid : nat) : string := "follow:" +:+ pretty uid.
Definition media_key (uid : nat) : string := "media:" +:+ pretty uid.
Definition recommendation_key (uid : nat) : string := "recommendation:" +:+ pretty uid.

Definition seed : M R unit :=
  flushDb ;;
  each_user (λ uid, hSet (user_key uid) [("id", pretty uid); ("country", getCountry uid)]) users ;;
  each_user (λ uid, rPush (follow_key uid) (getFollowees uid)) users ;;
  each_user (λ uid, rPush (media_key uid) (getMediaIds uid)) users ;;
  each_user (λ uid, rPush (recommendation_key uid) (getRecommendationIds uid)) users.

Definition strings (l : list string) : string := default EmptyString (stringify 0 0 (VArray (map VString l))).
Definition check_length (key : string) (expected : nat) : M R unit :=
  len ← lLen key;
  lift (throw_if (negb (len =? expected))
    ("Smoke check failed: " +:+ key +:+ " length expected " +:+ pretty expected +:+ ", got " +:+ pretty len)).

Definition smoke_checks : M R unit :=
  country ← hGet "user:1" "country";
  lift (throw_if (match country with Some c => negb (String.eqb c "US") | None => true end)
    ("Smoke check failed: user:1 country expected " +:+ quoted "US" +:+ ", got " +:+
     quoted (default "null" country))) ;;
  check_length "follow:1" FOLLOW_FANOUT ;;
  follow1 ← lRangeAll "follow:1";
  lift (throw_if (negb (String.eqb (strings follow1) (strings (getFollowees 1))))
    ("Smoke check failed: follow:1 expected " +:+ strings (getFollowees 1) +:+ ", got " +:+ strings follow1)) ;;
  check_length "media:1" MEDIA_PER_USER ;;
  check_length "recommendation:1" RECOMMENDATION_PER_USER.

(** Connected, until the client quits. *)
Definition main : M R unit := seed ;; smoke_checks.
End script.

(** ** What is seeded *)

(** The keys with their values, in the order they are written. *)
Definition seeded : list (string * redis_value) :=
  map (λ u, (user_key u, RHash [("id", pretty u); ("country", getCountry u)])) users ++
  map (λ u, (follow_key u, RList (getFollowees u))) users ++
  map (λ u, (media_key u, RList (getMediaIds u))) users ++
  map (λ u, (recommendation_key u, RList (getRecommendationIds u))) users.

Lemma seeded_keys_NoDup : NoDup seeded.*1.
Proof. apply (bool_decide_unpack _). by vm_compute. Qed.

Section proofs.
Context {R : Type} `{RedisLaws R}.

(** The database holds these keys and no others. *)
Definition holds (kvs : list (string * redis_value)) (r : R) : Prop := ∀ k, at_key r k = map_get kvs k.

Lemma map_get_app {V} (l1 l2 : list (string * V)) k :
  map_get (l1 ++ l2) k = match map_get l1 k with Some v => Some v | None => map_get l2 k end.
Proof. induction l1 as [|[k' v] l1 IH]; [done|]. cbn. by destruct (String.eqb k k'). Qed.

(** Writing one new key for each of some users. *)
Lemma each_user_holds (key : nat → string) (val : nat → redis_value) (f : nat → M R unit) uids : ∀ kvs r,
  (∀ u r, at_key r (key u) = None → u ∈ uids →
    ∃ r', f u r = (Ok tt, r') ∧ at_key r' (key u) = Some (val u) ∧ ∀ k, k ≠ key u → at_key r' k = at_key r k) →
  NoDup (kvs ++ map (λ u, (key u, val u)) uids).*1 → holds kvs r →
  ∃ r', each_user f uids r = (Ok tt, r') ∧ holds (kvs ++ map (λ u, (key u, val u)) uids) r'.
Proof.
  induction uids as [|u uids IH]; intros kvs r Hf Hnd Hr.
  { exists r. split; [done|]. by rewrite app_nil_r. }
  rewrite fmap_app in Hnd. apply NoDup_app in Hnd as Hd. destruct Hd as (_ & Hd & _).
  assert (key u ∉ kvs.*1) as Hu by (intros Hin; apply (Hd _ Hin); by left).
  destruct (Hf u r) as (r1 & E1 & Hv & Ho); [rewrite (Hr (key u)); by apply map_get_None|left|].
  destruct (IH (kvs ++ [(key u, val u)]) r1) as (r' & E & Hr').
  - intros u' r2 Hn Hu'. apply Hf; [done|by right].
  - rewrite <-app_assoc. by rewrite fmap_app.
  - intros k. rewrite map_get_app. cbn. destruct (String.eqb_spec k (key u)) as [->|Hk].
    + rewrite Hv. by rewrite (proj2 (map_get_None kvs (key u)) Hu).
    + rewrite Ho by done. rewrite (Hr k). by destruct (map_get kvs k).
  - exists r'. cbn [each_user]. unfold mbind, M_bind. rewrite E1. split; [done|].
    rewrite <-app_assoc in Hr'. exact Hr'.
Qed.

Lemma rPush_new key items r :
  items ≠ [] → at_key r key = None →
  ∃ r', rPush key items r = (Ok tt, r') ∧ at_key r' key = Some (RList items) ∧
    ∀ k, k ≠ key → at_key r' k = at_key r k.
Proof. intros Hi Hn. apply (rPush_law r key [] items); [by right|done]. Qed.

Lemma seed_holds r : ∃ r', seed r = (Ok tt, r') ∧ holds seeded r'.
Proof.
  pose proof seeded_keys_NoDup as Hnd. unfold seed.
  destruct (flushDb_law r) as (r0 & E0 & Hr0).
  assert (∀ l1 l2 : list (string * redis_value), NoDup (l1 ++ l2).*1 → NoDup l1.*1) as Hpre.
  { intros l1 l2. rewrite fmap_app. by intros (? & _)%NoDup_app. }
  destruct (each_user_holds user_key (λ u, RHash [("id", pretty u); ("country", getCountry u)])
    (λ uid, hSet (user_key uid) [("id", pretty uid); ("country", getCountry uid)]) users [] r0)
    as (r1 & E1 & H1); [| |done|].
  { intros u r' Hn _. set (fs := [("id", pretty u); ("country", getCountry u)]).
    assert (set_fields fs [] = fs) as <- by done. by apply hSet_law; [right|]. }
  { by apply Hpre in Hnd. }
  set (k1 := [] ++ _) in H1.
  destruct (each_user_holds follow_key (λ u, RList (getFollowees u)) (λ uid, rPush (follow_key uid) (getFollowees uid))
    users k1 r1) as (r2 & E2 & H2); [|by unfold seeded in Hnd; rewrite app_assoc in Hnd; apply Hpre in Hnd|done|].
  { intros u r' Hn _. by apply rPush_new. }
  set (k2 := k1 ++ _) in H2.
  destruct (each_user_holds media_key (λ u, RList (getMediaIds u)) (λ uid, rPush (media_key uid) (getMediaIds uid))
    users k2 r2) as (r3 & E3 & H3); [|by unfold seeded in Hnd; rewrite !app_assoc in Hnd; apply Hpre in Hnd|done|].
  { intros u r' Hn _. by apply rPush_new. }
  set (k3 := k2 ++ _) in H3.
  destruct (each_user_holds recommendation_key (λ u, RList (getRecommendationIds u))
    (λ uid, rPush (recommendation_key uid) (getRecommendationIds uid)) users k3 r3)
    as (r4 & E4 & H4); [|by unfold seeded in Hnd; rewrite !app_assoc in Hnd|done|].
  { intros u r' Hn _. by apply rPush_new. }
  exists r4. unfold mbind, M_bind. rewrite E0, E1, E2, E3, E4. split; [done|].
  intros k. rewrite H4. unfold k3, k2, k1, seeded. by rewrite <-!app_assoc.
Qed.

Lemma check_length_passes key l n r :
  list_at (at_key r key) l → length l = n → check_length key n r = (Ok tt, r).
Proof.
  intros Hl Hn. unfold check_length. rewrite (bind_run _ _ _ _ _ (lLen_law r key l Hl)).
  by rewrite Hn, Nat.eqb_refl.
Qed.

Lemma smoke_checks_pass r : holds seeded r → smoke_checks r = (Ok tt, r).
Proof.
  intros Hr. unfold smoke_checks.
  rewrite (bind_run _ _ _ _ _ (hGet_law r "user:1" "country" [("id", "1"); ("country", "US")]
    ltac:(left; rewrite (Hr "user:1"); by vm_compute))).
  rewrite (bind_run (lift _) _ r tt r eq_refl).
  rewrite (bind_run _ _ _ _ _ (check_length_passes "follow:1" (getFollowees 1) _ r
    ltac:(left; rewrite (Hr "follow:1"); by vm_compute) eq_refl)).
  rewrite (bind_run _ _ _ _ _ (lRangeAll_law r "follow:1" (getFollowees 1)
    ltac:(left; rewrite (Hr "follow:1"); by vm_compute))).
  assert (String.eqb (strings (getFollowees 1)) (strings (getFollowees 1)) = true) as -> by apply String.eqb_refl.
  rewrite (bind_run (lift _) _ r tt r eq_refl).
  rewrite (bind_run _ _ _ _ _ (check_length_passes "media:1" (getMediaIds 1) _ r
    ltac:(left; rewrite (Hr "media:1"); by vm_compute) eq_refl)).
  apply (check_length_passes _ (getRecommendationIds 1)); [left; rewrite (Hr "recommendation:1"); by vm_compute|done].
Qed.

(** The seed script succeeds on every database, whatever it held before, and leaves the
    same contents, exactly the seeded keys with their values.  The data are usable: every
    user follows five distinct users, not itself, and no two users share a media id. *)
Theorem seed_deterministic r :
  ∃ r', main r = (Ok tt, r') ∧ holds seeded r' ∧
    (∀ u, u ∈ users → length (getFollowees u) = FOLLOW_FANOUT ∧ NoDup (getFollowees u) ∧
       (pretty u ∉ getFollowees u) ∧ getFollowees u ⊆ map pretty users) ∧
    NoDup (flat_map getMediaIds users).
Proof.
  destruct (seed_holds r) as (r' & Es & Hr). exists r'. split; [|split; [done|split]].
  - unfold main. rewrite (bind_run _ _ _ _ _ Es). by apply smoke_checks_pass.
  - assert (Forall (λ u, length (getFollowees u) = FOLLOW_FANOUT ∧ NoDup (getFollowees u) ∧
      (pretty u ∉ getFollowees u) ∧ Forall (λ v, v ∈ map pretty users) (getFollowees u)) users) as Hall.
    { apply (bool_decide_unpack _). by vm_compute. }
    intros u Hu. eapply Forall_forall in Hall; [|exact Hu]. destruct Hall as (? & ? & ? & Hf).
    split_and!; [done..|]. intros v Hv. by eapply Forall_forall in Hf.
  - apply (bool_decide_unpack _). by vm_compute.
Qed.
End proofs.

(** ** Redis as a map *)

Definition database : Type := gmap string redis_value.
Definition wrong_type {A} : M database A :=
  lift (Throw (Error "WRONGTYPE Operation against a key holding the wrong kind of value")).

#[export] Instance database_redis : Redis database := {|
  at_key r k := r !! k;
  flushDb := modify (λ _, ∅);
  hSet k fs := r ← StateMonad.get;
    match r !! k with
    | None => modify <[k := RHash (set_fields fs [])]>
    | Some (RHash h) => modify <[k := RHash (set_fields fs h)]>
    | Some (RList _) => wrong_type
    end;
  rPush k items := r ← StateMonad.get;
    match r !! k with
    | None => modify <[k := RList items]>
    | Some (RList l) => modify <[k := RList (l ++ items)]>
    | Some (RHash _) => wrong_type
    end;
  hGet k f := r ← StateMonad.get;
    match r !! k with
    | None => mret None | Some (RHash h) => mret (map_get h f) | Some (RList _) => wrong_type
    end;
  lLen k := r ← StateMonad.get;
    match r !! k with None => mret 0 | Some (RList l) => mret (length l) | Some (RHash _) => wrong_type end;
  lRangeAll k := r ← StateMonad.get;
    match r !! k with None => mret [] | Some (RList l) => mret l | Some (RHash _) => wrong_type end;
|}.

#[export] Instance database_laws : RedisLaws database.
Proof.
  split; cbn; unfold mbind, M_bind, StateMonad.get, modify.
  - intros r. exists ∅. split; [done|]. intros k. apply lookup_empty.
  - intros r k fs h [->|[-> ->]] _; eexists; (split; [done|]); (split; [apply lookup_insert_eq|]);
      intros k' Hk; by apply lookup_insert_ne.
  - intros r k l items [->|[-> ->]] _; eexists; (split; [done|]); (split; [apply lookup_insert_eq|]);
      intros k' Hk; by apply lookup_insert_ne.
  - intros r k f h [->|[-> ->]]; done.
  - intros r k l [->|[-> ->]]; done.
  - intros r k l [->|[-> ->]]; done.
Qed.

(** On a database that holds a list where a user belongs. *)
Lemma seed_deterministic_witness :
  ∃ r', main (R := database) {["user:1" := RList ["x"]]} = (Ok tt, r') ∧
    r' !! "follow:20" = Some (RList ["1"; "2"; "3"; "4"; "5"]).
Proof.
  destruct (seed_deterministic (R := database) {["user:1" := RList ["x"]]}) as (r' & Hm & Hr & _).
  exists r'. split; [exact Hm|]. transitivity (map_get seeded "follow:20"); [exact (Hr "follow:20")|by vm_compute].
Defined.
