(* ===== verification/ShareLink.v ===== *)
(** * ShareLink: plans in the address (tools/visualizer/src/components/EditorPanel.tsx)

    The editor's Share button puts the plan's source into a link as UTF-8, in base64, as a
    component of a URI; opening the link takes it out again.  Unlike elsewhere in this
    development a string is here the list of all its UTF-16 code units, so that the source
    may hold any character.  The functions of the browser that the code calls are
    translated from their standards. *)

From S2P Require Import Prelude.
#[local] Open Scope Z_scope.

(** Code units, code points and bytes are numbers. *)
Abbreviation units := (list Z).

Definition is_unit (u : Z) : Prop := 0 <= u < 0x10000.
Definition is_byte (b : Z) : Prop := 0 <= b < 0x100.
Definition in_range (x a b : Z) : bool := (a <=? x) && (x <=? b).

(** The units of a Latin-1 string. *)
Definition units_of (s : string) : units := map (λ c, Z.of_nat (nat_of_ascii c)) (list_ascii_of_string s).

Fixpoint units_eqb (a b : units) : bool :=
  match a, b with
  | [], [] => true
  | x :: a, y :: b => (x =? y) && units_eqb a b
  | _, _ => false
  end.

(** ** UTF-16 *)

Definition is_high (u : Z) : bool := in_range u 0xD800 0xDBFF.
Definition is_low (u : Z) : bool := in_range u 0xDC00 0xDFFF.
Definition is_surrogate (u : Z) : bool := in_range u 0xD800 0xDFFF.
Definition REPLACEMENT : Z := 0xFFFD.

(** The code points of a string, a lone surrogate being one. *)
Fixpoint code_points (us : units) : list Z :=
  match us with
  | [] => []
  | u :: us' =>
      match us' with
      | v :: rest =>
          if is_high u && is_low v then (0x10000 + (u - 0xD800) * 0x400 + (v - 0xDC00)) :: code_points rest
          else u :: code_points us'
      | [] => [u]
      end
  end.

Definition utf16 (c : Z) : units :=
  if c <? 0x10000 then [c]
  else [0xD800 + (c - 0x10000) / 0x400; 0xDC00 + (c - 0x10000) mod 0x400].

(** A conversion to scalar values: what is no character becomes U+FFFD. *)
Definition scalar (c : Z) : Z := if is_surrogate c then REPLACEMENT else c.
Definition scalars (us : units) : list Z := map scalar (code_points us).

(** ** UTF-8 *)

Definition utf8 (c : Z) : list Z :=
  if c <? 0x80 then [c]
  else if c <? 0x800 then [0xC0 + c / 0x40; 0x80 + c mod 0x40]
  else if c <? 0x10000 then [0xE0 + c / 0x1000; 0x80 + c / 0x40 mod 0x40; 0x80 + c mod 0x40]
  else [0xF0 + c / 0x40000; 0x80 + c / 0x1000 mod 0x40; 0x80 + c / 0x40 mod 0x40; 0x80 + c mod 0x40].

(** [new TextEncoder().encode(s)] *)
Definition TextEncoder_encode (us : units) : list Z := flat_map utf8 (scalars us).

(** The decoder's state inside a sequence: the bytes still needed, the code point so far
    and the bounds of the next byte. *)
Record utf8_state := { needed : nat; point : Z; lower : Z; upper : Z }.

(** A byte where a character starts: what is emitted, or the sequence it opens. *)
Definition utf8_start (b : Z) : list Z * option utf8_state :=
  if b <? 0x80 then ([b], None)
  else if in_range b 0xC2 0xDF then
    ([], Some {| needed := 0; point := b - 0xC0; lower := 0x80; upper := 0xBF |})
  else if in_range b 0xE0 0xEF then
    ([], Some {| needed := 1; point := b - 0xE0; lower := if b =? 0xE0 then 0xA0 else 0x80;
                 upper := if b =? 0xED then 0x9F else 0xBF |})
  else if in_range b 0xF0 0xF4 then
    ([], Some {| needed := 2; point := b - 0xF0; lower := if b =? 0xF0 then 0x90 else 0x80;
                 upper := if b =? 0xF4 then 0x8F else 0xBF |})
  else ([REPLACEMENT], None).

(** A byte in the state [st]; [needed] counts the bytes after it. *)
Definition utf8_next (st : option utf8_state) (b : Z) : list Z * option utf8_state :=
  match st with
  | None => utf8_start b
  | Some s =>
      if in_range b (lower s) (upper s) then
        let c := point s * 0x40 + (b - 0x80) in
        match needed s with
        | O => ([c], None)
        | S n => ([], Some {| needed := n; point := c; lower := 0x80; upper := 0xBF |})
        end
      else let '(out, st') := utf8_start b in (REPLACEMENT :: out, st')
  end.

Fixpoint utf8_decode_from (st : option utf8_state) (bytes : list Z) : list Z :=
  match bytes with
  | [] => match st with None => [] | Some _ => [REPLACEMENT] end
  | b :: bytes' => let '(out, st') := utf8_next st b in out ++ utf8_decode_from st' bytes'
  end.
Definition utf8_decode (bytes : list Z) : list Z := utf8_decode_from None bytes.

(** A byte order mark at the start is dropped. *)
Definition drop_bom (cs : list Z) : list Z :=
  match cs with c :: cs' => if c =? 0xFEFF then cs' else cs | [] => [] end.

(** [new TextDecoder().decode(bytes)] *)
Definition TextDecoder_decode (bytes : list Z) : units := flat_map utf16 (drop_bom (utf8_decode bytes)).

(** ** Base64 *)

Definition alphabet : units := units_of "ABCDEFGHIJKLMNOPQRSTUVWXYZabcdefghijklmnopqrstuvwxyz0123456789+/".
Definition char64 (x : Z) : Z := nth (Z.to_nat x) alphabet 0.
Definition value64 (c : Z) : option Z :=
  if in_range c 65 90 then Some (c - 65)
  else if in_range c 97 122 then Some (c - 71)
  else if in_range c 48 57 then Some (c + 4)
  else if c =? 43 then Some 62
  else if c =? 47 then Some 63
  else None.
Definition pad : Z := 61.

Fixpoint base64 (bytes : list Z) : units :=
  match bytes with
  | [] => []
  | [a] => [char64 (a / 4); char64 (a mod 4 * 16); pad; pad]
  | [a; b] => [char64 (a / 4); char64 (a mod 4 * 16 + b / 16); char64 (b mod 16 * 4); pad]
  | a :: b :: c :: rest =>
      char64 (a / 4) :: char64 (a mod 4 * 16 + b / 16) :: char64 (b mod 16 * 4 + c / 64) ::
      char64 (c mod 64) :: base64 rest
  end.

(** [btoa(binary)]: an InvalidCharacterError on a unit that is no byte. *)
Definition btoa (us : units) : result units :=
  if forallb (λ u, in_range u 0 0xFF) us then Ok (base64 us) else Throw (Error "InvalidCharacterError").

Definition ascii_space (u : Z) : bool :=
  (u =? 9) || (u =? 10) || (u =? 12) || (u =? 13) || (u =? 32).

(** One or two [=] at the end of a text of whole groups are dropped. *)
Definition drop_pad (us : units) : units :=
  match rev us with
  | p :: q :: r => if p =? pad then if q =? pad then rev r else rev (q :: r) else us
  | [p] => if p =? pad then [] else us
  | [] => []
  end.

Fixpoint base64_bytes (vs : list Z) : option (list Z) :=
  match vs with
  | [] => Some []
  | [_] => None
  | [w; x] => Some [w * 4 + x / 16]
  | [w; x; y] => Some [w * 4 + x / 16; x mod 16 * 16 + y / 4]
  | w :: x :: y :: z :: rest =>
      bs ← base64_bytes rest; Some (w * 4 + x / 16 :: x mod 16 * 16 + y / 4 :: y mod 4 * 64 + z :: bs)
  end.

Fixpoint values64 (us : units) : option (list Z) :=
  match us with
  | [] => Some []
  | u :: us' => v ← value64 u; vs ← values64 us'; Some (v :: vs)
  end.

(** [atob(text)] *)
Definition atob (us : units) : result units :=
  let us := List.filter (λ u, negb (ascii_space u)) us in
  let us := if (Nat.modulo (length us) 4 =? 0)%nat then drop_pad us else us in
  match vs ← values64 us; base64_bytes vs with
  | Some bytes => Ok bytes
  | None => Throw (Error "InvalidCharacterError")
  end.

(** ** Percent encoding *)

Definition percent : Z := 37.
Definition hex_digit (x : Z) : Z := if x <? 10 then 48 + x else 55 + x.
Definition hex_value (u : Z) : option Z :=
  if in_range u 48 57 then Some (u - 48)
  else if in_range u 65 70 then Some (u - 55)
  else if in_range u 97 102 then Some (u - 87)
  else None.
Definition percent_byte (b : Z) : units := [percent; hex_digit (b / 16); hex_digit (b mod 16)].

(** Letters, digits and [-_.!~*'()] *)
Definition unreserved (u : Z) : bool :=
  in_range u 65 90 || in_range u 97 122 || in_range u 48 57 ||
  existsb (Z.eqb u) (units_of "-_.!~*'()").

(** [encodeURIComponent(s)]: a URIError on a lone surrogate. *)
Definition encode_point (c : Z) : result units :=
  if is_surrogate c then Throw (Error "URIError")
  else if unreserved c then Ok [c] else Ok (flat_map percent_byte (utf8 c)).
Fixpoint encode_points (cs : list Z) : result units :=
  match cs with
  | [] => Ok []
  | c :: cs' => t ← encode_point c; r ← encode_points cs'; Ok (t ++ r)
  end.
Definition encodeURIComponent (us : units) : result units := encode_points (code_points us).

(** The byte continues UTF-8, or starts a character of it. *)
Definition utf8_valid (st : option utf8_state) (b : Z) : bool :=
  match st with
  | None => (b <? 0x80) || in_range b 0xC2 0xF4
  | Some s => in_range b (lower s) (upper s)
  end.

(** [decodeURIComponent(s)]: a URIError on escapes that are not UTF-8.  The state is that
    of the escapes just read. *)
Fixpoint decode_uri (st : option utf8_state) (us : units) : result units :=
  match us with
  | [] => match st with None => Ok [] | Some _ => Throw (Error "URIError") end
  | u :: us' =>
      if u =? percent then
        match us' with
        | h :: l :: rest =>
            match hex_value h, hex_value l with
            | Some x, Some y =>
                if utf8_valid st (x * 16 + y) then
                  let '(out, st') := utf8_next st (x * 16 + y) in
                  r ← decode_uri st' rest; Ok (flat_map utf16 out ++ r)
                else Throw (Error "URIError")
            | _, _ => Throw (Error "URIError")
            end
        | _ => Throw (Error "URIError")
        end
      else
        match st with
        | None => r ← decode_uri None us'; Ok (u :: r)
        | Some _ => Throw (Error "URIError")
        end
  end.
Definition decodeURIComponent (us : units) : result units := decode_uri None us.

(** ** URLSearchParams *)

Definition ampersand : Z := 38.
Definition equals : Z := 61.
Definition plus : Z := 43.

Fixpoint split_at (sep : Z) (bs : list Z) : list Z * list Z :=
  match bs with
  | [] => ([], [])
  | b :: bs' => if b =? sep then ([], bs') else let '(l, r) := split_at sep bs' in (b :: l, r)
  end.
Fixpoint split_all (sep : Z) (bs : list Z) : list (list Z) :=
  match bs with
  | [] => [[]]
  | b :: bs' =>
      if b =? sep then [] :: split_all sep bs'
      else match split_all sep bs' with l :: ls => (b :: l) :: ls | [] => [[b]] end
  end.

(** Escapes that are none stay as they are; [+] is a space. *)
Fixpoint percent_decode (bs : list Z) : list Z :=
  match bs with
  | [] => []
  | b :: bs' =>
      match bs' with
      | h :: l :: rest =>
          match (if b =? percent then hex_value h else None), hex_value l with
          | Some x, Some y => (x * 16 + y) :: percent_decode rest
          | _, _ => (if b =? plus then 32 else b) :: percent_decode bs'
          end
      | _ => (if b =? plus then 32 else b) :: percent_decode bs'
      end
  end.
Definition form_decode (bs : list Z) : units := flat_map utf16 (utf8_decode (percent_decode bs)).

Definition parameter (part : list Z) : list (units * units) :=
  match part with
  | [] => []
  | _ => let '(name, value) := split_at equals part in [(form_decode name, form_decode value)]
  end.
Definition strip_question (us : units) : units :=
  match us with u :: us' => if u =? 63 then us' else us | [] => [] end.

(** [new URLSearchParams(s)], the names with their values *)
Definition URLSearchParams (us : units) : list (units * units) :=
  flat_map parameter (split_all ampersand (TextEncoder_encode (strip_question us))).
Fixpoint params_get (ps : list (units * units)) (name : units) : option units :=
  match ps with
  | [] => None
  | (n, v) :: ps' => if units_eqb n name then Some v else params_get ps' name
  end.

(** ** The link *)

Definition chunkSize : nat := Z.to_nat 8192.

(** The loop over [i]: [fuel] bounds its turns, one for each byte being enough. *)
Fixpoint append_chunks (fuel i : nat) (bytes : list Z) (binary : units) : units :=
  match fuel with
  | O => binary
  | S fuel' =>
      if (i <? length bytes)%nat then
        append_chunks fuel' (i + chunkSize) bytes (binary ++ take chunkSize (drop i bytes))
      else binary
  end.

Definition encodeForUrl (code : units) : units :=
  let bytes := TextEncoder_encode code in
  let binary := append_chunks (length bytes) 0 bytes [] in
  match t ← btoa binary; encodeURIComponent t with
  | Ok encoded => encoded
  | Throw _ => []
  end.

Definition decodeFromUrl (encoded : units) : option units :=
  match base64 ← decodeURIComponent encoded; atob base64 with
  | Ok bytes => Some (TextDecoder_decode bytes)
  | Throw _ => None
  end.

(** The fragment of the address that handleShare copies; it copies none when the text
    does not encode. *)
Definition shared_hash (code : units) : option units :=
  match encodeForUrl code with
  | [] => None
  | encoded => Some (units_of "#code=" ++ encoded)
  end.

(** The first half of getInitialCode: the plan in [window.location.hash], if any. *)
Definition code_in_hash (hash : units) : option units :=
  match hash with
  | [] => None
  | _ =>
      match params_get (URLSearchParams (tail hash)) (units_of "code") with
      | None | Some [] => None
      | Some encoded =>
          match decodeFromUrl encoded with
          | None | Some [] => None
          | decoded => decoded
          end
      end
  end.

Example share_small :
  shared_hash (units_of "a>?") = Some (units_of "#code=YT4%2F").
Proof. by vm_compute. Qed.
Example share_wide :
  (shared_hash [0xE9; 0x20AC; 0xD83D; 0xDE00; 0xD800; 0x41] ≫= code_in_hash) =
  Some [0xE9; 0x20AC; 0xD83D; 0xDE00; 0xFFFD; 0x41].
Proof. by vm_compute. Qed.

(** ** UTF-16 and UTF-8 round trips *)

(** Comparisons as inequalities. *)
Ltac ranges :=
  unfold is_unit, is_byte, is_high, is_low, is_surrogate, in_range in *;
  repeat match goal with
  | H : _ && _ = true |- _ => apply andb_true_iff in H as [? ?]
  | H : _ && _ = false |- _ => apply andb_false_iff in H
  | H : (_ <=? _) = true |- _ => apply Z.leb_le in H
  | H : (_ <? _) = true |- _ => apply Z.ltb_lt in H
  | H : (_ <? _) = false |- _ => apply Z.ltb_ge in H
  | H : (_ =? _) = true |- _ => apply Z.eqb_eq in H
  | H : (_ =? _) = false |- _ => apply Z.eqb_neq in H
  | H : context [(_ <=? _) = false] |- _ => rewrite Z.leb_gt in H
  | |- _ && _ = true => apply andb_true_iff; split
  | |- (_ <=? _) = true => apply Z.leb_le
  end.
Ltac solve_ranges := ranges; Z.to_euclidean_division_equations; lia.

Definition is_point (c : Z) : Prop := 0 <= c < 0x110000.
Definition is_scalar (c : Z) : Prop := is_point c ∧ is_surrogate c = false.

(** Two units at a time. *)
Lemma units_ind (P : units → Prop) :
  P [] → (∀ u, P [u]) → (∀ u v us, P (v :: us) → P us → P (u :: v :: us)) → ∀ us, P us.
Proof.
  intros H0 H1 H2 us. enough (P us ∧ ∀ u, P (u :: us)) as []; [done|].
  induction us as [|v us [IH1 IH2]]; [by split|]. split; [by apply IH2|].
  intros u. by apply H2.
Qed.

Lemma code_points_two u v us :
  code_points (u :: v :: us) =
  if is_high u && is_low v then (0x10000 + (u - 0xD800) * 0x400 + (v - 0xDC00)) :: code_points us
  else u :: code_points (v :: us).
Proof. done. Qed.

Lemma code_points_bounds us : Forall is_unit us → Forall is_point (code_points us).
Proof.
  induction us as [|u|u v us IH1 IH2] using units_ind; intros Hus; [done|..].
  - apply Forall_cons in Hus as [Hu _]. cbn. constructor; [|done]. unfold is_point. solve_ranges.
  - apply Forall_cons in Hus as [Hu Hvs]. pose proof Hvs as [Hv Hus]%Forall_cons.
    rewrite code_points_two. destruct (is_high u && is_low v) eqn:E.
    + constructor; [|by apply IH2]. apply andb_true_iff in E as [E1 E2]. unfold is_point. solve_ranges.
    + constructor; [|by apply IH1]. unfold is_point. solve_ranges.
Qed.

Lemma utf16_code_points us : Forall is_unit us → flat_map utf16 (code_points us) = us.
Proof.
  induction us as [|u|u v us IH1 IH2] using units_ind; intros Hus; [done|..].
  - apply Forall_cons in Hus as [Hu _]. cbn. unfold utf16.
    destruct (u <? 0x10000) eqn:E; [done|solve_ranges].
  - apply Forall_cons in Hus as [Hu Hvs]. pose proof Hvs as [Hv Hus]%Forall_cons.
    rewrite code_points_two. destruct (is_high u && is_low v) eqn:E; cbn [flat_map].
    + rewrite IH2 by done. apply andb_true_iff in E as [E1 E2]. unfold utf16.
      destruct (_ <? 0x10000) eqn:L; [solve_ranges|].
      cbn [app]. f_equal; [|f_equal]; solve_ranges.
    + rewrite IH1 by done. unfold utf16.
      destruct (u <? 0x10000) eqn:L; [done|solve_ranges].
Qed.

Lemma scalars_scalar us : Forall is_unit us → Forall is_scalar (scalars us).
Proof.
  intros H%code_points_bounds. unfold scalars. apply Forall_map.
  eapply Forall_impl; [exact H|]. intros c Hc. unfold scalar.
  by destruct (is_surrogate c) eqn:E.
Qed.

Lemma utf8_bytes c : is_point c → Forall is_byte (utf8 c).
Proof.
  intros Hc. unfold is_point, utf8, is_byte in *.
  repeat case_match; repeat (apply Forall_cons; split); try apply Forall_nil; solve_ranges.
Qed.

Lemma decode_continue n c l u b rest :
  l <= b <= u →
  utf8_decode_from (Some {| needed := S n; point := c; lower := l; upper := u |}) (b :: rest) =
  utf8_decode_from (Some {| needed := n; point := c * 0x40 + (b - 0x80); lower := 0x80; upper := 0xBF |}) rest.
Proof.
  intros Hb. cbn [utf8_decode_from utf8_next lower upper needed point].
  by replace (in_range b l u) with true by (symmetry; solve_ranges).
Qed.
Lemma decode_last c l u b rest :
  l <= b <= u →
  utf8_decode_from (Some {| needed := 0; point := c; lower := l; upper := u |}) (b :: rest) =
  (c * 0x40 + (b - 0x80)) :: utf8_decode rest.
Proof.
  intros Hb. cbn [utf8_decode_from utf8_next lower upper needed point].
  by replace (in_range b l u) with true by (symmetry; solve_ranges).
Qed.

Lemma decode_start b rest :
  utf8_decode (b :: rest) = let '(out, st) := utf8_start b in out ++ utf8_decode_from st rest.
Proof. done. Qed.

(** The first byte of a sequence: the cases that it excludes. *)
Ltac start_case :=
  cbn [app]; rewrite decode_start; unfold utf8_start;
  repeat match goal with
  | |- context [if ?b <? 0x80 then _ else _] =>
      destruct (b <? 0x80) eqn:?; [exfalso; solve_ranges|]
  | |- context [if in_range ?b ?x ?y then ([], _) else _] =>
      destruct (in_range b x y) eqn:?; first [exfalso; solve_ranges|idtac]
  end; try (exfalso; solve_ranges); cbn [app].

Lemma utf8_decode_point c rest :
  is_scalar c → utf8_decode (utf8 c ++ rest) = c :: utf8_decode rest.
Proof.
  intros [Hc Hs]. unfold is_point, utf8 in *.
  destruct (c <? 0x80) eqn:?; [|destruct (c <? 0x800) eqn:?; [|destruct (c <? 0x10000) eqn:?]].
  - cbn [app]. rewrite decode_start. unfold utf8_start.
    by replace (c <? 0x80) with true.
  - start_case. rewrite decode_last by solve_ranges. f_equal. solve_ranges.
  - start_case. rewrite decode_continue; [rewrite decode_last by solve_ranges|].
    + f_equal. solve_ranges.
    + repeat case_match; solve_ranges.
  - start_case. rewrite decode_continue; [rewrite decode_continue by solve_ranges;
      rewrite decode_last by solve_ranges|].
    + f_equal. solve_ranges.
    + repeat case_match; solve_ranges.
Qed.

Lemma utf8_decode_encode cs : Forall is_scalar cs → utf8_decode (flat_map utf8 cs) = cs.
Proof.
  induction 1 as [|c cs Hc _ IH]; [done|]. cbn [flat_map]. by rewrite utf8_decode_point, IH.
Qed.

Lemma encode_bytes us : Forall is_unit us → Forall is_byte (TextEncoder_encode us).
Proof.
  intros H%scalars_scalar. unfold TextEncoder_encode. induction H as [|c cs [Hc _] _ IH]; [done|].
  cbn. apply Forall_app. by split; [apply utf8_bytes|].
Qed.

(** Characters of ASCII are themselves in every encoding. *)
Definition is_ascii (u : Z) : Prop := 0 <= u < 0x80.

Lemma utf8_decode_ascii us : Forall is_ascii us → flat_map utf16 (utf8_decode us) = us.
Proof.
  unfold is_ascii. induction 1 as [|u us Hu _ IH]; [done|]. rewrite decode_start. unfold utf8_start.
  replace (u <? 0x80) with true by (symmetry; apply Z.ltb_lt; lia).
  cbn [app flat_map]. change (utf8_decode_from None us) with (utf8_decode us). rewrite IH.
  unfold utf16. by replace (u <? 0x10000) with true by (symmetry; apply Z.ltb_lt; lia).
Qed.

Lemma code_points_ascii us : Forall is_ascii us → code_points us = us.
Proof.
  unfold is_ascii. induction us as [|u|u v us IH _] using units_ind; intros H; [done..|].
  apply Forall_cons in H as [Hu Hvs]. rewrite code_points_two.
  destruct (is_high u && is_low v) eqn:E; [solve_ranges|]. by rewrite IH.
Qed.

Lemma encode_ascii us : Forall is_ascii us → TextEncoder_encode us = us.
Proof.
  intros H. unfold TextEncoder_encode, scalars. rewrite code_points_ascii by done.
  unfold is_ascii in H. induction H as [|u us Hu _ IH]; [done|]. cbn. rewrite IH.
  unfold scalar. destruct (is_surrogate u) eqn:E; [solve_ranges|].
  unfold utf8. by replace (u <? 0x80) with true by (symmetry; apply Z.ltb_lt; lia).
Qed.

(** ** Base64 round trip *)

Definition is_sextet (x : Z) : Prop := 0 <= x < 64.

(** A property of the 64 sextets, checked on each. *)
Lemma sextets (P : Z → Prop) `{!∀ x, Decision (P x)} x :
  is_sextet x → forallb (λ x, bool_decide (P x)) (seqZ 0 64) = true → P x.
Proof.
  intros Hx Hall. rewrite forallb_forall in Hall. apply (bool_decide_eq_true_1 _), Hall.
  apply list_elem_of_In, elem_of_seqZ. unfold is_sextet in Hx. lia.
Qed.

Definition is_char64 (u : Z) : bool :=
  match value64 u with Some _ => true | None => false end.

Lemma value64_char x : is_sextet x → value64 (char64 x) = Some x.
Proof. intros Hx. by apply (sextets (λ x, value64 (char64 x) = Some x)). Qed.

Lemma char64_char x : is_sextet x → is_char64 (char64 x) = true.
Proof. intros Hx. unfold is_char64. by rewrite value64_char. Qed.

(** Three bytes at a time. *)
Lemma bytes_ind (P : list Z → Prop) :
  P [] → (∀ a, P [a]) → (∀ a b, P [a; b]) → (∀ a b c l, P l → P (a :: b :: c :: l)) → ∀ l, P l.
Proof.
  intros H0 H1 H2 H3 l.
  enough (P l ∧ (∀ a, P (a :: l)) ∧ ∀ a b, P (a :: b :: l)) as []; [done|].
  induction l as [|c l (IH1 & IH2 & IH3)]; [done|]. split_and!; [apply IH2|intros a; apply (IH3 a c)|].
  intros a b. by apply H3.
Qed.

(** The text is characters of the alphabet, and the padding that fills the last group. *)
Definition pads (bytes : list Z) : nat :=
  match Nat.modulo (length bytes) 3 with 1%nat => 2 | 2%nat => 1 | _ => 0 end.

Fixpoint chars64 (bytes : list Z) : list Z :=
  match bytes with
  | [] => []
  | [a] => [a / 4; a mod 4 * 16]
  | [a; b] => [a / 4; a mod 4 * 16 + b / 16; b mod 16 * 4]
  | a :: b :: c :: rest =>
      a / 4 :: a mod 4 * 16 + b / 16 :: b mod 16 * 4 + c / 64 :: c mod 64 :: chars64 rest
  end.

Lemma pads_three a b c l : pads (a :: b :: c :: l) = pads l.
Proof.
  unfold pads. cbn [length]. replace (S (S (S (length l)))) with (length l + 1 * 3)%nat by lia.
  by rewrite Nat.Div0.mod_add.
Qed.

Lemma base64_chars l : base64 l = map char64 (chars64 l) ++ repeat pad (pads l).
Proof.
  induction l as [| | |a b c l IH] using bytes_ind; [done..|].
  rewrite pads_three. cbn [base64 chars64 map app]. by rewrite IH.
Qed.

Lemma chars64_sextets l : Forall is_byte l → Forall is_sextet (chars64 l).
Proof.
  unfold is_sextet. induction l as [| | |a b c l IH] using bytes_ind; intros H;
    repeat (apply Forall_cons in H as [? H]); cbn [chars64];
    repeat (apply Forall_cons; split); auto; solve_ranges.
Qed.

Lemma base64_bytes_chars l : Forall is_byte l → base64_bytes (chars64 l) = Some l.
Proof.
  induction l as [| | |a b c l IH] using bytes_ind; intros H;
    repeat (apply Forall_cons in H as [? H]); cbn [chars64 base64_bytes]; [done|..|rewrite IH by done];
    cbn [mbind option_bind]; repeat f_equal; solve_ranges.
Qed.

Lemma values64_chars xs : Forall is_sextet xs → values64 (map char64 xs) = Some xs.
Proof.
  induction 1 as [|x xs Hx _ IH]; [done|]. cbn [map values64]. by rewrite value64_char, IH.
Qed.

Lemma base64_length l : Nat.modulo (length (base64 l)) 4 = 0%nat.
Proof.
  induction l as [| | |a b c l IH] using bytes_ind; [done..|]. cbn [base64 length].
  replace (S (S (S (S (length (base64 l)))))) with (length (base64 l) + 1 * 4)%nat by lia.
  by rewrite Nat.Div0.mod_add.
Qed.

Lemma pads_le l : (pads l ≤ 2)%nat.
Proof. unfold pads. repeat case_match; lia. Qed.

Lemma drop_pads (us : units) n :
  (n ≤ 2)%nat → (2 ≤ length us)%nat → Forall (λ u, is_char64 u = true) us →
  drop_pad (us ++ repeat pad n) = us.
Proof.
  intros Hn Hl Hus. rewrite <-(rev_involutive us) in Hl, Hus |- *.
  destruct (rev us) as [|p [|q r]]; [cbn in Hl; lia..|].
  assert (is_char64 p = true ∧ is_char64 q = true) as [Hp Hq].
  { rewrite Forall_forall in Hus. split; apply Hus, list_elem_of_In, in_rev;
      rewrite rev_involutive; cbn; auto. }
  assert (∀ u, is_char64 u = true → (u =? pad) = false) as Hpad.
  { intros u Hu. destruct (u =? pad) eqn:E; [|done]. by apply Z.eqb_eq in E as ->. }
  unfold drop_pad. rewrite rev_app_distr, rev_involutive.
  assert (n = 0 ∨ n = 1 ∨ n = 2)%nat as [-> |[-> | ->]] by lia;
    cbn [repeat rev app]; rewrite ?(Hpad p Hp); [by rewrite app_nil_r|done|done].
Qed.

Lemma atob_base64 l : Forall is_byte l → atob (base64 l) = Ok l.
Proof.
  intros H. pose proof (chars64_sextets l H) as Hs.
  assert (Forall (λ u, is_char64 u = true) (map char64 (chars64 l))) as Hc.
  { apply Forall_map. eapply Forall_impl; [exact Hs|]. exact char64_char. }
  unfold atob.
  assert (List.filter (λ u, negb (ascii_space u)) (base64 l) = base64 l) as ->.
  { rewrite base64_chars. apply forallb_filter_id, forallb_forall. intros u Hu%list_elem_of_In.
    apply elem_of_app in Hu as [Hu|Hu].
    - rewrite Forall_forall in Hc. apply Hc in Hu. destruct (ascii_space u) eqn:E; [|done].
      unfold ascii_space in E. rewrite !orb_true_iff, !Z.eqb_eq in E. naive_solver.
    - apply list_elem_of_In, repeat_spec in Hu as ->. done. }
  rewrite base64_length. cbn [Nat.eqb].
  assert (drop_pad (base64 l) = map char64 (chars64 l)) as ->.
  { rewrite base64_chars. destruct l as [|a l]; [done|]. apply drop_pads; [apply pads_le| |done].
    rewrite length_map. destruct l as [|b [|c l]]; cbn; lia. }
  rewrite values64_chars by done. cbn [mbind option_bind]. by rewrite base64_bytes_chars.
Qed.

(** ** The link's text *)

(** What the base64 text consists of. *)
Definition link_chars : units := alphabet ++ [pad].
Definition escaped (u : Z) : units := if unreserved u then [u] else percent_byte u.

Lemma link_char (P : Z → Prop) `{!∀ u, Decision (P u)} us :
  forallb (λ u, bool_decide (P u)) link_chars = true →
  Forall (λ u, u ∈ link_chars) us → Forall P us.
Proof.
  intros Hall Hus. rewrite forallb_forall in Hall. eapply Forall_impl; [exact Hus|]. intros u Hu.
  by apply (bool_decide_eq_true_1 _), Hall, list_elem_of_In.
Qed.

Lemma base64_link l : Forall is_byte l → Forall (λ u, u ∈ link_chars) (base64 l).
Proof.
  intros H%chars64_sextets. rewrite base64_chars. apply Forall_app. split.
  - apply Forall_map. eapply Forall_impl; [exact H|]. unfold is_sextet. intros x Hx.
    apply elem_of_app. left. apply list_elem_of_In. unfold char64. apply nth_In.
    change (length alphabet) with 64%nat. lia.
  - apply Forall_forall. intros u Hu%list_elem_of_In%repeat_spec. subst.
    apply elem_of_app. right. by constructor.
Qed.

#[export] Instance is_ascii_dec u : Decision (is_ascii u).
Proof. unfold is_ascii. apply _. Defined.

Lemma link_ascii us : Forall (λ u, u ∈ link_chars) us → Forall is_ascii us.
Proof. by apply (link_char is_ascii). Qed.

Lemma encode_link us :
  Forall (λ u, u ∈ link_chars) us → encodeURIComponent us = Ok (flat_map escaped us).
Proof.
  intros H. unfold encodeURIComponent. rewrite code_points_ascii by by apply link_ascii.
  pose proof (link_char (λ u, encode_point u = Ok (escaped u)) us eq_refl H) as Hu. clear H.
  induction Hu as [|u us Hu _ IH]; [done|]. cbn [encode_points flat_map]. by rewrite Hu, IH.
Qed.

(** Without escapes a URI is itself. *)
Lemma decode_link us : Forall (λ u, u ∈ link_chars) us → decodeURIComponent us = Ok us.
Proof.
  intros H. pose proof (link_char (λ u, (u =? percent) = false) us eq_refl H) as Hu. clear H.
  unfold decodeURIComponent. induction Hu as [|u us Hu _ IH]; [done|].
  cbn [decode_uri]. by rewrite Hu, IH.
Qed.

(** How a character's escape reads back. *)
Definition reads_back (u : Z) : bool :=
  match escaped u with
  | [v] => (v =? u) && negb (v =? percent) && negb (v =? plus)
  | [p; h; l] =>
      (p =? percent) &&
      match hex_value h, hex_value l with Some x, Some y => x * 16 + y =? u | _, _ => false end
  | _ => false
  end.

Lemma percent_decode_escaped u rest :
  reads_back u = true → percent_decode (escaped u ++ rest) = u :: percent_decode rest.
Proof.
  unfold reads_back. destruct (escaped u) as [|p [|h [|l [|? ?]]]]; try done.
  - rewrite !andb_true_iff, !negb_true_iff, Z.eqb_eq. intros [[-> Hp] Hq].
    destruct rest as [|h [|l rest]]; cbn [app percent_decode]; rewrite ?Hp, ?Hq; done.
  - rewrite andb_true_iff, Z.eqb_eq. intros [-> H]. cbn [app percent_decode].
    rewrite Z.eqb_refl. destruct (hex_value h), (hex_value l); try done. by apply Z.eqb_eq in H as ->.
Qed.

Lemma percent_decode_link us :
  Forall (λ u, u ∈ link_chars) us → percent_decode (flat_map escaped us) = us.
Proof.
  intros H. pose proof (link_char (λ u, reads_back u = true) us eq_refl H) as Hu. clear H.
  induction Hu as [|u us Hu _ IH]; [done|]. cbn [flat_map]. by rewrite percent_decode_escaped, IH.
Qed.

Lemma split_all_none sep bs : Forall (λ b, (b =? sep) = false) bs → split_all sep bs = [bs].
Proof. induction 1 as [|b bs Hb _ IH]; [done|]. cbn. by rewrite Hb, IH. Qed.

Lemma get_code us :
  Forall (λ u, u ∈ link_chars) us →
  params_get (URLSearchParams (units_of "code=" ++ flat_map escaped us)) (units_of "code") = Some us.
Proof.
  intros H. assert (Forall (λ u, is_ascii u ∧ (u =? ampersand) = false)
    (units_of "code=" ++ flat_map escaped us)) as Hq.
  { apply Forall_app. split; [by apply (bool_decide_eq_true_1 _)|].
    pose proof (link_char (λ u, Forall (λ v, is_ascii v ∧ (v =? ampersand) = false) (escaped u))
      us eq_refl H) as Hu. clear H. induction Hu; [done|]. by apply Forall_app. }
  set (e := flat_map escaped us) in *. unfold URLSearchParams.
  change (strip_question (units_of "code=" ++ e)) with (units_of "code=" ++ e).
  rewrite encode_ascii by (eapply Forall_impl; [exact Hq|by intros ? []]).
  rewrite split_all_none by (eapply Forall_impl; [exact Hq|by intros ? []]).
  cbn [flat_map app].
  change (parameter (units_of "code=" ++ e)) with [(form_decode (units_of "code"), form_decode e)].
  cbn [app params_get]. replace (units_eqb _ _) with true by by vm_compute.
  subst e.
  unfold form_decode. rewrite percent_decode_link by done.
  by rewrite utf8_decode_ascii by by apply link_ascii.
Qed.

(** ** The loop over chunks *)

Lemma append_chunks_all fuel i bytes acc :
  (length bytes ≤ i + fuel)%nat → append_chunks fuel i bytes acc = acc ++ drop i bytes.
Proof.
  revert i acc. induction fuel as [|fuel IH]; intros i acc Hi; cbn [append_chunks].
  - by rewrite drop_ge, app_nil_r by lia.
  - destruct (i <? length bytes)%nat eqn:E.
    + rewrite IH by (unfold chunkSize; lia). rewrite <-app_assoc. f_equal.
      by rewrite <-drop_drop, take_drop.
    + apply Nat.ltb_ge in E. by rewrite drop_ge, app_nil_r by lia.
Qed.

(** ** Links *)

Definition to_text (us : units) : option units := match us with [] => None | _ => Some us end.

(** The string as the link carries it: lone surrogates replaced, a byte order mark gone. *)
Definition carried (code : units) : units := flat_map utf16 (drop_bom (scalars code)).

Lemma encodeForUrl_eq code :
  Forall is_unit code → encodeForUrl code = flat_map escaped (base64 (TextEncoder_encode code)).
Proof.
  intros H%encode_bytes. unfold encodeForUrl. rewrite append_chunks_all by lia. rewrite drop_0. cbn [app].
  unfold btoa. assert (forallb (λ u, in_range u 0 255) (TextEncoder_encode code) = true) as ->.
  { apply forallb_forall. intros u Hu%list_elem_of_In. rewrite Forall_forall in H.
    apply H in Hu. solve_ranges. }
  cbn [mbind result_bind]. by rewrite encode_link by by apply base64_link.
Qed.

Lemma scalars_nil code : scalars code = [] → code = [].
Proof.
  unfold scalars. destruct code as [|u [|v us]]; [done..|]. rewrite code_points_two. by case_match.
Qed.

Lemma base64_nil l : flat_map escaped (base64 l) = [] → l = [].
Proof.
  destruct l as [|a [|b [|c l]]]; [done|cbn; unfold escaped; case_match; discriminate..].
Qed.

Lemma map_scalar cs : Forall (λ c, is_surrogate c = false) cs → map scalar cs = cs.
Proof.
  induction 1 as [|c cs Hc _ IH]; [done|]. cbn [map]. rewrite IH. unfold scalar. by rewrite Hc.
Qed.

(** C18: opening the link that Share copies gives the editor the plan it was made from, for
    every source of UTF-16 code units, however long: with lone surrogates replaced and a
    leading byte order mark dropped, so unchanged when there are none; nothing else in the
    source, such as characters with a meaning in URLs or outside Latin-1, is lost.  An empty
    plan makes no link. *)
Theorem shared_links_open code :
  Forall is_unit code →
  (code = [] → shared_hash code = None) ∧
  (code ≠ [] → (shared_hash code ≫= code_in_hash) = to_text (carried code)) ∧
  (Forall (λ c, is_surrogate c = false) (code_points code) → head (code_points code) ≠ Some 0xFEFF →
   carried code = code).
Proof.
  intros Hc. split_and!.
  - by intros ->.
  - intros Hne. unfold shared_hash. rewrite encodeForUrl_eq by done.
    set (bs := TextEncoder_encode code). set (e := flat_map escaped (base64 bs)).
    pose proof (base64_link bs (encode_bytes _ Hc)) as Hl.
    assert (bs ≠ []) as Hbs.
    { unfold bs, TextEncoder_encode. destruct (scalars code) eqn:E; [by apply scalars_nil in E|].
      cbn. unfold utf8. by repeat case_match. }
    destruct e as [|x e'] eqn:He; [by apply base64_nil in He|]. rewrite <-He. cbn [mbind option_bind].
    change (code_in_hash (units_of "#code=" ++ e)) with
      (match params_get (URLSearchParams (units_of "code=" ++ e)) (units_of "code") with
       | None | Some [] => None
       | Some encoded => match decodeFromUrl encoded with None | Some [] => None | d => d end
       end).
    unfold e. rewrite get_code by done.
    destruct (base64 bs) as [|y b'] eqn:Hb; [by destruct bs as [|? [|? [|? ?]]]|]. rewrite <-Hb.
    unfold decodeFromUrl. rewrite decode_link by (by rewrite Hb). cbn [mbind result_bind].
    rewrite atob_base64 by by apply encode_bytes.
    unfold TextDecoder_decode, bs, TextEncoder_encode.
    rewrite utf8_decode_encode by by apply scalars_scalar.
    change (flat_map utf16 (drop_bom (scalars code))) with (carried code). by destruct (carried code).
  - intros Hs Hb. unfold carried, scalars. rewrite map_scalar by done.
    rewrite <-(utf16_code_points code) at 2 by done. f_equal.
    destruct (code_points code) as [|c cs]; [done|]. cbn in Hb |- *.
    by destruct (Z.eqb_spec c 0xFEFF) as [->|].
Qed.

Lemma shared_links_open_witness :
  (shared_hash [0xE9; 0x26; 0xD83D; 0xDE00] ≫= code_in_hash) = Some [0xE9; 0x26; 0xD83D; 0xDE00].
Proof.
  destruct (shared_links_open [0xE9; 0x26; 0xD83D; 0xDE00]) as (_ & H & H').
  - repeat constructor; unfold is_unit; lia.
  - rewrite H by done. rewrite H'; [done|repeat constructor|done].
Defined.
