(* ===== verification/DevServer.v ===== *)
(** * DevServer: the visualizer's development server (tools/visualizer/vite.config.ts)

    Its middlewares serve files and compile the editor's plans.  A compilation writes the
    source to a file and runs the compiler on it in another process, so that requests
    interleave: the state has the files and each request's progress, and an event is what
    runs without interruption.  An exception that nothing catches ends the server.  The
    compiler, CompilerCli's [main] in a process, is a parameter: its exit code, error
    output and output files for what it read, which may be any file, since esbuild follows
    the imports of fragments.  A text is here the bytes of its UTF-8. *)

From S2P Require Import Prelude Collections JsNumber JsValue StableStringify Json ShareLink.

(** ** Paths (node:path on POSIX)

    An absolute path is the list of its segments, innermost first. *)

Abbreviation path := (list string).

Definition slash : ascii := "/"%char.

(** [s.split('/')] *)
Fixpoint segments (s : string) : list string :=
  match s with
  | EmptyString => [EmptyString]
  | String c s' =>
      if Ascii.eqb c slash then EmptyString :: segments s'
      else match segments s' with t :: ts => String c t :: ts | [] => [String c EmptyString] end
  end.

(** One segment further from [dir]. *)
Definition enter (dir : path) (seg : string) : path :=
  if String.eqb seg EmptyString || String.eqb seg "." then dir
  else if String.eqb seg ".." then tail dir
  else seg :: dir.

Definition is_absolute (s : string) : bool := startsWith s "/".

(** [path.resolve(dir, s)] and [path.join(dir, s)] *)
Definition resolve (dir : path) (s : string) : path :=
  foldl enter (if is_absolute s then [] else dir) (segments s).
Definition path_join (dir : path) (s : string) : path := foldl enter dir (segments s).

(** [path.basename(s)]: the last segment that is not empty. *)
Definition basename (s : string) : string :=
  default EmptyString (last (List.filter (λ t, negb (String.eqb t EmptyString)) (segments s))).

(** [path.extname] of a name: from its last dot, unless that is its first character. *)
Fixpoint last_dot (s : string) : option string :=
  match s with
  | EmptyString => None
  | String c s' =>
      match last_dot s' with
      | Some e => Some e
      | None => if Ascii.eqb c "."%char then Some s else None
      end
  end.
Definition extname (name : string) : string :=
  match name with
  | EmptyString => EmptyString
  | String _ rest => default EmptyString (last_dot rest)
  end.

(** ** Files *)

Record files := { contents : gmap path string; dirs : gset path }.

Definition is_file (f : files) (p : path) : bool := bool_decide (is_Some (contents f !! p)).
Definition is_dir (f : files) (p : path) : bool := bool_decide (p ∈ dirs f).

Fixpoint suffixes (p : path) : list path :=
  match p with [] => [[]] | s :: p' => (s :: p') :: suffixes p' end.

(** [fs.mkdirSync(p, { recursive: true })] *)
Definition mkdirSync (f : files) (p : path) : result files :=
  if existsb (is_file f) (suffixes p) then Throw (Error "EEXIST")
  else Ok {| contents := contents f; dirs := dirs f ∪ list_to_set (suffixes p) |}.

(** [fs.writeFileSync(p, data, 'utf-8')]: the data must be text, and the file's directory
    there. *)
Definition writeFileSync (f : files) (p : path) (data : value) : result files :=
  match data with
  | VString t =>
      if is_dir f p then Throw (Error "EISDIR")
      else if is_dir f (tail p) then Ok {| contents := <[p := t]> (contents f); dirs := dirs f |}
      else Throw (Error "ENOENT")
  | _ => Throw TypeError
  end.

Definition readFileSync (f : files) (p : path) : result string :=
  match contents f !! p with
  | Some t => Ok t
  | None => Throw (Error (if is_dir f p then "EISDIR" else "ENOENT"))
  end.

(** [fs.rmSync(p, { force: true })]: not for a directory. *)
Definition rmSync (f : files) (p : path) : result files :=
  if is_dir f p then Throw (Error "ERR_FS_EISDIR")
  else Ok {| contents := delete p (contents f); dirs := dirs f |}.

(** [fs.rmSync(p, { recursive: true, force: true })] on a directory of this server; the
    files in it are the compiler's output, which the model keeps with the request. *)
Definition rmdirSync (f : files) (p : path) : files :=
  {| contents := contents f; dirs := filter (λ q, p ∉ suffixes q) (dirs f) |}.

(** ** Serving files *)

(** What a middleware does with a request: answer it, leave it to the next one, or throw. *)
Inductive served :=
| Sent (contentType body : string)
| Next
| Failed.

(** [req.url?.split('?')[0] || ''] *)
Fixpoint before_query (url : string) : string :=
  match url with
  | EmptyString => EmptyString
  | String c url' => if Ascii.eqb c "?"%char then EmptyString else String c (before_query url')
  end.

Definition mimeTypes : list (string * string) :=
  [(".svg", "image/svg+xml"); (".png", "image/png"); (".ico", "image/x-icon")].

Section server.
(** The directory of the configuration and the system's for temporary files. *)
Context (dirname tmpdir : path).

Definition drop_char (s : string) : string := match s with String _ s' => s' | EmptyString => EmptyString end.

Definition serveLocalPublic (f : files) (url : string) : served :=
  let urlPath := before_query url in
  let localPath := resolve ("public" :: dirname) (drop_char urlPath) in
  match contents f !! localPath with
  | Some body =>
      Sent (default "application/octet-stream"
              (map_get mimeTypes (extname (default EmptyString (head localPath))))) body
  | None => Next
  end.

(** [req.url?.replace(/^\//, '')] *)
Definition strip_slash (url : string) : string :=
  match url with String c url' => if Ascii.eqb c slash then url' else url | EmptyString => EmptyString end.

Definition possiblePaths (url : string) : list path :=
  [resolve (path_join dirname "../../plans") (strip_slash url);
   resolve (path_join dirname "../../examples/plans") (strip_slash url)].

(** The url is what follows [/sources]. *)
Fixpoint serve_first (f : files) (paths : list path) : served :=
  match paths with
  | [] => Next
  | p :: paths' =>
      if is_file f p || is_dir f p then
        match readFileSync f p with
        | Ok content => Sent "text/plain; charset=utf-8" content
        | Throw _ => Failed
        end
      else serve_first f paths'
  end.
Definition servePlanSources (f : files) (url : string) : served := serve_first f (possiblePaths url).

(** ** Compiling *)

(** [path.join(tmpdir(), 'visualizer-compile')] *)
Definition tempDir : path := path_join tmpdir "visualizer-compile".
Definition tempFile (filename : string) : path := path_join tempDir filename.

Definition outDir (uuid : string) : path := path_join tempDir ("out-" +:+ uuid).

(** A chunk of the request as text: [body += chunk] decodes each by itself, and what is no
    UTF-8 becomes U+FFFD, as are the parts of a character that two chunks share. *)
Definition text_of (bytes : list Z) : string :=
  string_of_list_ascii (map (λ b, ascii_of_nat (Z.to_nat b)) bytes).
Definition decode_chunk (chunk : string) : string :=
  text_of (flat_map utf8 (utf8_decode (units_of chunk))).
Definition body_of (chunks : list string) : string := foldl (λ body chunk, body +:+ decode_chunk chunk) EmptyString chunks.

(** The two members of the body: [parsed.source] and the name without directories. *)
Definition parse_body (body : string) : result (value * string) :=
  parsed ← match JSON_parse body with Some v => Ok v | None => Throw (Error "SyntaxError") end;
  source ← get_prop parsed "source";
  name ← get_prop parsed "filename";
  match (if truthy name then name else VString "live_plan.plan.ts") with
  | VString s => Ok (source, basename s)
  | _ => Throw TypeError
  end.

(** What the compiler leaves: exit code, error output and output files by name. *)
Record outcome := { exit_code : nat; stderr : string; outputs : list (string * string) }.

(** The compiler on a file of this name, by what its driver reads there and, later, by the
    files that its bundler finds: that file and what is imported. *)
Context (dslc : string → option string → gmap path string → outcome).

Inductive progress :=
| Spawned                              (* the process runs and has read nothing *)
| HasRead (source : option string)
| Exited (o : outcome)
| Responded (statusCode : nat) (body : value)
| Broken.                              (* an exception that nothing catches *)

Record request := { filename : string; out : path; asked : value; at_ : progress }.
Definition with_progress (pr : progress) (r : request) : request :=
  {| filename := filename r; out := out r; asked := asked r; at_ := pr |}.

(** [alive]: the server's process runs. *)
Record server_state := { fs : files; requests : list request; alive : bool }.

Definition failure (error phase : string) : value :=
  VObject [("success", VBool false); ("error", VString error); ("phase", VString phase)].

(** [filename.replace(/\.plan\.ts$/, '')] *)
Definition strip_ext (name : string) : string :=
  if endsWith name ".plan.ts"
  then slice name 0 (String.length name - String.length ".plan.ts") else name.

(** The result of a process that closed. *)
Definition result_of (filename : string) (o : outcome) : progress :=
  match exit_code o with
  | O =>
      match map_get (outputs o) (strip_ext filename +:+ ".plan.json") with
      | Some text =>
          match JSON_parse text with
          | Some artifact => Responded 200 (VObject [("success", VBool true); ("artifact", artifact)])
          | None => Broken
          end
      | None => Responded 200 (failure "Artifact not found after compilation" "output")
      end
  | S _ =>
      let msg := trim (stderr o) in
      Responded 200 (failure
        (if String.eqb msg EmptyString
         then "Compilation failed with exit code " +:+ pretty (exit_code o) else msg) "compile")
  end.

(** Node ends a process at an exception that nothing catches, in a callback or in an async
    function. *)
Definition survives (pr : progress) : bool := match pr with Broken => false | _ => true end.
Definition add_request (r : request) (s : server_state) : server_state :=
  {| fs := fs s; requests := requests s ++ [r]; alive := alive s && survives (at_ r) |}.
Definition with_fs (f : files) (s : server_state) : server_state :=
  {| fs := f; requests := requests s; alive := alive s |}.

(** The [finally]: when removing the source throws, the directory stays. *)
Definition cleanup (file out : path) (f : files) : files :=
  match rmSync f file with Ok f' => rmdirSync f' out | Throw _ => f end.

(** A POST with its whole body: the directories are made, the file is written and the
    compiler started.  An exception after the body is read has no handler, but a [finally]
    once the directories are there.  [uuid] is what [randomUUID] gives: the directory of
    that name is the process's alone. *)
Definition receive (uuid : string) (chunks : list string) (s : server_state) : server_state :=
  match parse_body (body_of chunks) with
  | Throw _ =>
      add_request {| filename := EmptyString; out := []; asked := VUndefined;
                     at_ := Responded 400 (failure "Invalid JSON body" "parse") |} s
  | Ok (source, name) =>
      let now pr := {| filename := name; out := outDir uuid; asked := source; at_ := pr |} in
      match mkdirSync (fs s) tempDir with
      | Throw _ => add_request (now Broken) s
      | Ok f =>
          match mkdirSync f (outDir uuid) with
          | Throw _ => add_request (now Broken) (with_fs f s)
          | Ok f =>
              match writeFileSync f (tempFile name) source with
              | Throw _ => add_request (now Broken) (with_fs (cleanup (tempFile name) (outDir uuid) f) s)
              | Ok f => add_request (now Spawned) (with_fs f s)
              end
          end
      end
  end.

Inductive event :=
| Receive (uuid : string) (chunks : list string)
| Reads (i : nat)
| Exits (i : nat)
| Closes (i : nat)
| SpawnFails (i : nat) (message : string).

Definition set_request (i : nat) (r : request) (s : server_state) : server_state :=
  {| fs := fs s; requests := <[i := r]> (requests s); alive := alive s && survives (at_ r) |}.

(** The response, with the clean-up of the source file and the output directory; an
    exception in the callback ends the process before it. *)
Definition finish (i : nat) (r : request) (pr : progress) (s : server_state) : server_state :=
  let s' := set_request i (with_progress pr r) s in
  match pr with
  | Broken => s'
  | _ => with_fs (cleanup (tempFile (filename r)) (out r) (fs s)) s'
  end.

Definition step (s : server_state) (e : event) : server_state :=
  if negb (alive s) then s else
  match e with
  | Receive uuid chunks => receive uuid chunks s
  | Reads i =>
      match requests s !! i with
      | Some r =>
          match at_ r with
          | Spawned => set_request i (with_progress (HasRead (contents (fs s) !! tempFile (filename r))) r) s
          | _ => s
          end
      | None => s
      end
  | Exits i =>
      match requests s !! i with
      | Some r =>
          match at_ r with
          | HasRead first =>
              set_request i (with_progress
                (Exited (dslc (filename r) first (contents (fs s)))) r) s
          | _ => s
          end
      | None => s
      end
  | Closes i =>
      match requests s !! i with
      | Some r =>
          match at_ r with Exited o => finish i r (result_of (filename r) o) s | _ => s end
      | None => s
      end
  | SpawnFails i message =>
      match requests s !! i with
      | Some r =>
          match at_ r with
          | Spawned => finish i r (Responded 200 (failure message "spawn")) s
          | _ => s
          end
      | None => s
      end
  end.
End server.

(** ** Paths *)

Definition no_slash (s : string) : bool := string_forallb (λ c, negb (Ascii.eqb c slash)) s.
(** A name that [enter] enters. *)
Definition plain (seg : string) : Prop :=
  (seg ∉ [EmptyString; "."; ".."]) ∧ no_slash seg = true.

#[export] Instance plain_dec seg : Decision (plain seg).
Proof. unfold plain. apply _. Defined.

Lemma segments_no_slash s : no_slash s = true → segments s = [s].
Proof.
  unfold no_slash. induction s as [|c s IH]; cbn; [done|].
  destruct (Ascii.eqb c slash); [done|]. cbn. intros Hs. by rewrite IH.
Qed.

Lemma segments_are_plain s : Forall (λ t, no_slash t = true) (segments s).
Proof.
  induction s as [|c s IH]; cbn; [by repeat constructor|].
  destruct (Ascii.eqb c slash) eqn:E; [by constructor|].
  destruct (segments s) as [|t ts]; [constructor; [|done]; cbn; by rewrite E|].
  apply Forall_cons in IH as [Ht Hts]. constructor; [|done]. unfold no_slash in *. cbn. by rewrite E.
Qed.

Lemma basename_no_slash s : no_slash (basename s) = true.
Proof.
  unfold basename. destruct (last _) as [t|] eqn:E; [|done]. apply last_Some_elem_of in E.
  apply list_elem_of_In, filter_In in E as [E%list_elem_of_In _].
  pose proof (segments_are_plain s) as H. rewrite Forall_forall in H. by apply H.
Qed.

Lemma segments_cons s : ∃ t ts, segments s = t :: ts.
Proof.
  destruct s as [|c s]; cbn; [eauto|]. destruct (Ascii.eqb c slash); [eauto|].
  destruct (segments s); eauto.
Qed.

Lemma segments_snoc t s :
  no_slash s = true → segments (t +:+ String slash s) = segments t ++ [s].
Proof.
  intros Hs. induction t as [|c t IH].
  - change (EmptyString +:+ String slash s) with (String slash s). cbn [segments].
    by rewrite Ascii.eqb_refl, segments_no_slash.
  - change (String c t +:+ String slash s) with (String c (t +:+ String slash s)).
    cbn [segments]. rewrite IH. destruct (Ascii.eqb c slash); [done|].
    by destruct (segments_cons t) as (x & xs & ->).
Qed.

Lemma enter_plain dir seg : plain seg → enter dir seg = seg :: dir.
Proof.
  intros [Hn _]. unfold enter. rewrite !not_elem_of_cons in Hn. destruct Hn as (H1 & H2 & H3 & _).
  by repeat match goal with |- context [String.eqb ?a ?b] => destruct (String.eqb_spec a b) end.
Qed.

(** An absolute path as text. *)
Fixpoint path_text (p : path) : string :=
  match p with [] => EmptyString | s :: p' => path_text p' +:+ "/" +:+ s end.

Lemma segments_path p : Forall plain p → segments (path_text p) = EmptyString :: rev p.
Proof.
  induction 1 as [|s p [_ Hs] _ IH]; [done|]. cbn [path_text rev].
  change ("/" +:+ s) with (String slash s). by rewrite segments_snoc, IH.
Qed.

Lemma foldl_enter_path p dir : Forall plain p → foldl enter dir (rev p) = p ++ dir.
Proof.
  induction 1 as [|s p Hs _ IH]; [done|]. cbn [rev]. rewrite foldl_app, IH. by apply enter_plain.
Qed.

(** ** Serving *)

Section serving.
Context (dirname : path).

Lemma resolve_plain dir s : plain s → resolve dir s = s :: dir.
Proof.
  intros Hs. unfold resolve. assert (is_absolute s = false) as ->.
  { apply not_true_is_false. intros [r ->]%startsWith_iff. by destruct Hs as [_ Hs]. }
  rewrite segments_no_slash by apply Hs. by apply enter_plain.
Qed.

Lemma resolve_absolute dir p : Forall plain p → p ≠ [] → resolve dir (path_text p) = p.
Proof.
  intros Hp Hne. unfold resolve. assert (is_absolute (path_text p) = true) as ->.
  { clear Hp. unfold is_absolute. apply startsWith_iff. induction p as [|s [|s' p] IH]; [done|by eexists|].
    destruct IH as [r Hr]; [done|]. exists (r +:+ "/" +:+ s). cbn [path_text] in *.
    by rewrite Hr, !string_app_assoc. }
  rewrite segments_path by done. cbn [foldl]. change (enter [] EmptyString) with (@nil string).
  by rewrite foldl_enter_path, app_nil_r.
Qed.

(** asked for a plain name, the server sends the file of that name in plans, else the
    one in examples/plans, and passes on what is in neither.  But any file of the system
    is sent to who asks for its absolute path after a second slash, as a source or, when
    the path has no question mark, as a public file. *)
Theorem sources_served f name p body :
  plain name → Forall plain p → p ≠ [] → contents f !! p = Some body →
  let plan dir := contents f !! (name :: path_join dirname dir) in
  (is_dir f (name :: path_join dirname "../../plans") = false →
   is_dir f (name :: path_join dirname "../../examples/plans") = false →
   servePlanSources dirname f ("/" +:+ name) =
   match plan "../../plans", plan "../../examples/plans" with
   | Some t, _ => Sent "text/plain; charset=utf-8" t
   | None, Some t => Sent "text/plain; charset=utf-8" t
   | None, None => Next
   end) ∧
  servePlanSources dirname f ("/" +:+ path_text p) = Sent "text/plain; charset=utf-8" body ∧
  (before_query (path_text p) = path_text p →
   ∃ t, serveLocalPublic dirname f ("/" +:+ path_text p) = Sent t body).
Proof.
  intros Hname Hp Hne Hb plan. split; [|split].
  - intros H1 H2. unfold servePlanSources, possiblePaths.
    change (strip_slash ("/" +:+ name)) with name. rewrite !resolve_plain by done.
    cbn [serve_first]. unfold readFileSync, is_file, plan. rewrite H1, H2.
    destruct (contents f !! (name :: path_join dirname "../../plans")); [done|].
    by destruct (contents f !! (name :: path_join dirname "../../examples/plans")).
  - unfold servePlanSources, possiblePaths.
    change (strip_slash ("/" +:+ path_text p)) with (path_text p).
    rewrite !resolve_absolute by done. cbn [serve_first]. unfold is_file, readFileSync. by rewrite Hb.
  - intros Hq. unfold serveLocalPublic.
    assert (before_query ("/" +:+ path_text p) = "/" +:+ path_text p) as ->.
    { change ("/" +:+ path_text p) with (String slash (path_text p)). cbn [before_query]. by rewrite Hq. }
    change (drop_char ("/" +:+ path_text p)) with (path_text p).
    rewrite resolve_absolute, Hb by done. eauto.
Qed.
End serving.

(** ** Compiling *)

Section compiling.
Context (tmpdir : path) (dslc : string → option string → gmap path string → outcome).
Local Abbreviation step := (step tmpdir dslc).
Local Abbreviation tempFile := (tempFile tmpdir).
Local Abbreviation tempDir := (tempDir tmpdir).

Definition run (s : server_state) (es : list event) : server_state := foldl step s es.
Definition serving (f : files) : server_state := {| fs := f; requests := []; alive := true |}.

(** The request still owns its source file. *)
Definition active (r : request) : bool :=
  match at_ r with Spawned | HasRead _ | Exited _ => true | _ => false end.

Lemma suffixes_self p : p ∈ suffixes p.
Proof. destruct p; apply elem_of_cons; by left. Qed.
Lemma suffixes_tail p : tail p ∈ suffixes p.
Proof. destruct p; apply elem_of_cons; [by left|right]. apply suffixes_self. Qed.

Lemma tempFile_cases name :
  no_slash name = true →
  plain name ∧ tempFile name = name :: tempDir ∨ tempFile name ∈ suffixes tempDir.
Proof.
  intros Hn. unfold DevServer.tempFile, path_join. rewrite segments_no_slash by done. cbn [foldl].
  destruct (decide (plain name)) as [Hp|Hp]; [left; by rewrite enter_plain|right].
  unfold enter. destruct (String.eqb_spec name EmptyString), (String.eqb_spec name ".");
    cbn [orb]; try apply suffixes_self.
  destruct (String.eqb_spec name ".."); [apply suffixes_tail|].
  destruct Hp. split; [|done]. rewrite !not_elem_of_cons. split_and!; try done. apply not_elem_of_nil.
Qed.

Lemma parse_body_name body source name : parse_body body = Ok (source, name) → no_slash name = true.
Proof.
  unfold parse_body. intros (v & _ & (src & _ & (n & _ & H)%bind_Ok)%bind_Ok)%bind_Ok.
  destruct (if truthy n then n else _); try done. injection H as _ <-. apply basename_no_slash.
Qed.

Lemma mkdirSync_Ok f f' p :
  mkdirSync f p = Ok f' → contents f' = contents f ∧ dirs f' = dirs f ∪ list_to_set (suffixes p).
Proof. unfold mkdirSync. case_match; [done|]. by intros [= <-]. Qed.

(** Where a source is written, given that the temporary directory is there. *)
Lemma written f f' name source :
  no_slash name = true → list_to_set (suffixes tempDir) ⊆ dirs f → writeFileSync f (tempFile name) source = Ok f' →
  plain name ∧ ∃ t, source = VString t ∧ contents f' = <[name :: tempDir := t]> (contents f) ∧
  tempFile name = name :: tempDir.
Proof.
  intros Hn Hd Hw. destruct source as [| | | |t| | | | | |]; try done. cbn in Hw.
  destruct (is_dir _ (tempFile name)) eqn:Hdir; [done|]. case_match; [|done]. injection Hw as <-.
  destruct (tempFile_cases name Hn) as [[Hp ->]|Hin]; [split; [done|]; by exists t|].
  unfold is_dir in Hdir. apply bool_decide_eq_false in Hdir. set_solver.
Qed.

(** A clean-up leaves the files as they were, or without the one it names. *)
Lemma cleaned f name out :
  no_slash name = true → list_to_set (suffixes tempDir) ⊆ dirs f →
  plain name ∧ contents (cleanup (tempFile name) out f) = delete (name :: tempDir) (contents f) ∨
  contents (cleanup (tempFile name) out f) = contents f.
Proof.
  intros Hn Hd. unfold cleanup, rmSync. destruct (is_dir f (tempFile name)) eqn:E; [by right|].
  destruct (tempFile_cases name Hn) as [[Hpl ->]|Hin]; [by left|].
  unfold is_dir in E. apply bool_decide_eq_false in E. set_solver.
Qed.

(** Every request whose compiler may still run has its own file, by a plain name. *)
Definition placed (s : server_state) : Prop :=
  Forall (λ r, active r = true → plain (filename r) ∧ tempFile (filename r) = filename r :: tempDir)
    (requests s).

Lemma plain_tempFile name : plain name → tempFile name = name :: tempDir.
Proof.
  intros Hp. unfold DevServer.tempFile, path_join. rewrite segments_no_slash by apply Hp. by apply enter_plain.
Qed.

Lemma placed_set s i r r' :
  placed s → requests s !! i = Some r → filename r' = filename r → (active r' = true → active r = true) →
  placed (set_request i r' s).
Proof.
  intros Hs Hi Hf Ha. apply Forall_insert; [done|]. rewrite Hf. intros H%Ha.
  unfold placed in Hs. rewrite Forall_lookup in Hs. by apply (Hs i).
Qed.

(** What an event does to the files: nothing, a source of this name written, or removed. *)
Inductive files_change (name : string) (s s' : server_state) : Prop :=
| files_same : contents (fs s') = contents (fs s) → files_change name s s'
| files_written t :
    plain name → contents (fs s') = <[name :: tempDir := t]> (contents (fs s)) → files_change name s s'
| files_removed :
    plain name → contents (fs s') = delete (name :: tempDir) (contents (fs s)) → files_change name s s'.

Definition event_name (s : server_state) (e : event) : string :=
  match e with
  | Receive _ chunks => match parse_body (body_of chunks) with Ok (_, name) => name | Throw _ => EmptyString end
  | Reads i | Exits i | Closes i | SpawnFails i _ => default EmptyString (filename <$> requests s !! i)
  end.

Lemma finish_change i r pr s :
  plain (filename r) → files_change (filename r) s (finish tmpdir i r pr s).
Proof.
  intros Hp. unfold finish, cleanup, rmSync. rewrite plain_tempFile by done.
  destruct pr, (is_dir (fs s) (filename r :: tempDir)); try (by apply files_same); by apply files_removed.
Qed.
Lemma finish_placed i r pr s :
  placed s → requests s !! i = Some r → active (with_progress pr r) = false →
  placed (finish tmpdir i r pr s).
Proof.
  intros Hs Hi Ha. assert (placed (set_request i (with_progress pr r) s)) as H.
  { apply (placed_set s i r); [done..|]. by rewrite Ha. }
  unfold finish. by destruct pr.
Qed.

Lemma result_of_inactive name o r : active (with_progress (result_of name o) r) = false.
Proof. unfold result_of. by repeat case_match. Qed.

Lemma placed_add r s f :
  placed s → (active r = true → plain (filename r)) → placed (add_request r (with_fs f s)).
Proof.
  intros Hs Hr. apply Forall_app. split; [done|]. apply Forall_singleton. intros H%Hr.
  split; [done|by apply plain_tempFile].
Qed.

Lemma receive_change uuid chunks s :
  placed s →
  placed (receive tmpdir uuid chunks s) ∧
  files_change (event_name s (Receive uuid chunks)) s (receive tmpdir uuid chunks s).
Proof.
  intros Hs. unfold receive, event_name.
  destruct (parse_body (body_of chunks)) as [[source name]|e] eqn:Hb; [|by split; [apply (placed_add _ s (fs s))|apply files_same]].
  apply parse_body_name in Hb.
  destruct (mkdirSync (fs s) tempDir) as [f|e] eqn:Hd; [|by split; [apply (placed_add _ s (fs s))|apply files_same]].
  apply mkdirSync_Ok in Hd as [Ec Ed].
  destruct (mkdirSync f _) as [f1|e] eqn:Ho; [|by split; [apply placed_add|apply files_same]].
  apply mkdirSync_Ok in Ho as [Ec1 Ed1].
  assert (list_to_set (suffixes tempDir) ⊆ dirs f1) as Hsub by (rewrite Ed1, Ed; set_solver).
  destruct (writeFileSync f1 (tempFile name) source) as [f2|e] eqn:Hw.
  - destruct (written _ _ _ _ Hb Hsub Hw) as (Hp & t & -> & Hc & Ht). split; [by apply placed_add|].
    apply (files_written _ _ _ t); [done|]. cbn. by rewrite Hc, Ec1, Ec.
  - split; [by apply placed_add|]. destruct (cleaned f1 name (outDir tmpdir uuid) Hb Hsub) as [[Hp Hc]|Hc].
    + apply files_removed; [done|]. cbn [fs add_request with_fs]. by rewrite Hc, Ec1, Ec.
    + apply files_same. cbn [fs add_request with_fs]. by rewrite Hc, Ec1, Ec.
Qed.

Lemma step_change s e : placed s → placed (step s e) ∧ files_change (event_name s e) s (step s e).
Proof.
  intros Hs. assert (∀ i r, requests s !! i = Some r → active r = true → plain (filename r)) as Hp.
  { intros i r Hi Ha. unfold placed in Hs. rewrite Forall_lookup in Hs. by apply (Hs i r). }
  unfold DevServer.step. destruct (negb (alive s)); [by split; [|apply files_same]|].
  destruct e as [uuid chunks|i|i|i|i message]; cbn [event_name]; [by apply receive_change|..];
    (destruct (requests s !! i) as [r|] eqn:Hi; [|by split; [|apply files_same]]);
    specialize (Hp i r Hi); unfold active in Hp;
    (destruct (at_ r) as [|first|o|c v|] eqn:Hr; try by split; [|apply files_same]).
  - split; [|by apply files_same]. apply (placed_set s i r); [done..|]. unfold active. by rewrite Hr.
  - split; [|by apply files_same]. apply (placed_set s i r); [done..|]. unfold active. by rewrite Hr.
  - split; [|by apply finish_change, Hp]. apply finish_placed; [done..|]. apply result_of_inactive.
  - split; [|by apply finish_change, Hp]. by apply finish_placed.
Qed.

Lemma run_placed f es : placed (run (serving f) es).
Proof.
  unfold run. assert (placed (serving f)) as H by apply Forall_nil_2. revert H.
  generalize (serving f). induction es as [|e es IH]; intros s Hs; [done|]. cbn. by apply IH, step_change.
Qed.

(** No file differs but those directly in the temporary directory. *)
Definition outside (f : files) (c : gmap path string) : Prop :=
  ∀ p, (∀ name, plain name → p ≠ name :: tempDir) → c !! p = contents f !! p.

Lemma step_outside f s e : placed s → outside f (contents (fs s)) → outside f (contents (fs (step s e))).
Proof.
  intros Hp Ho p Hn. rewrite <-(Ho p Hn).
  destruct (step_change s e Hp) as [_ [->|t Hpl ->|Hpl ->]]; [done|..].
  - by rewrite lookup_insert_ne by (apply not_eq_sym; auto).
  - by rewrite lookup_delete_ne by (apply not_eq_sym; auto).
Qed.

(** C20: whatever is posted and however the compilations interleave, the server writes and
    removes only files directly in its temporary directory, under names without slashes
    that are not [.] or [..]: every other file stays as it was.  (The compiler's output
    files, in the directories that the server makes for them, are kept apart.) *)
Theorem compile_contained f es p :
  (∀ name, plain name → p ≠ name :: tempDir) →
  contents (fs (run (serving f) es)) !! p = contents f !! p.
Proof.
  intros Hp. assert (outside f (contents (fs (run (serving f) es)))) as Ho; [|by apply Ho].
  induction es as [|e es IH] using rev_ind; [done|].
  unfold run. rewrite foldl_app. cbn [foldl]. fold (run (serving f) es).
  apply step_outside; [apply run_placed|exact IH].
Qed.

(** While the server runs no request is broken. *)
Definition unbroken (s : server_state) : Prop :=
  alive s = true → Forall (λ r, survives (at_ r) = true) (requests s).

Lemma unbroken_add r s : unbroken s → unbroken (add_request r s).
Proof.
  intros H [Ha Hr]%andb_true_iff. apply Forall_app. split; [by apply H|by apply Forall_singleton].
Qed.
Lemma unbroken_set i r s : unbroken s → unbroken (set_request i r s).
Proof. intros H [Ha Hr]%andb_true_iff. by apply Forall_insert; [apply H|]. Qed.

Lemma step_unbroken s e : unbroken s → unbroken (step s e).
Proof.
  intros H. unfold DevServer.step. destruct (negb (alive s)); [done|].
  assert (∀ f, unbroken (with_fs f s)) as Hfs by done.
  assert (∀ i r pr, unbroken (finish tmpdir i r pr s)) as Hfin.
  { intros i r pr. unfold finish. pose proof (unbroken_set i (with_progress pr r) s H).
    by destruct pr. }
  destruct e; [unfold receive|..]; repeat case_match; try done;
    try (by apply unbroken_add); by apply unbroken_set.
Qed.

(** ** Requests that do not share a name *)

(** A body arrives while no compilation of the same name is under way. *)
Definition exclusive (s : server_state) (e : event) : Prop :=
  match e with
  | Receive _ chunks =>
      match parse_body (body_of chunks) with
      | Ok (_, name) => Forall (λ r, active r = true → filename r ≠ name) (requests s)
      | Throw _ => True
      end
  | _ => True
  end.

Inductive exclusive_run (f : files) : server_state → Prop :=
| exclusive_start : exclusive_run f (serving f)
| exclusive_step s e : exclusive_run f s → exclusive s e → exclusive_run f (step s e).

(** [pr] is the answer to the source [t]: the compiler's result for [t], with the other
    files as the server found them but for those in its temporary directory... *)
Definition answers (f : files) (name t : string) (pr : progress) : Prop :=
  ∃ c, outside f c ∧ c !! (name :: tempDir) = Some t ∧ pr = result_of name (dslc name (Some t) c).

(** ...which only matter if the source imports a fragment from it: *)
Definition standalone (f : files) (name t : string) : Prop :=
  ∀ c, outside f c → c !! (name :: tempDir) = Some t →
    dslc name (Some t) c = dslc name (Some t) (<[name :: tempDir := t]> (contents f)).
Definition answer_alone (f : files) (name t : string) : progress :=
  result_of name (dslc name (Some t) (<[name :: tempDir := t]> (contents f))).

Lemma standalone_answer f name t pr : standalone f name t → answers f name t pr → pr = answer_alone f name t.
Proof. intros Hs (c & Ho & Hc & ->). unfold answer_alone. by rewrite (Hs c). Qed.

Section isolation.
Context (f0 : files).

(** How far a request is, in terms of its own source. *)
Definition faithful (f : files) (r : request) : Prop :=
  match at_ r with
  | Responded c v =>
      c = 200 → ∃ t, asked r = VString t ∧
        (answers f0 (filename r) t (Responded c v) ∨ ∃ m, v = failure m "spawn")
  | Broken => True
  | pr => ∃ t, asked r = VString t ∧ plain (filename r) ∧
      contents f !! (filename r :: tempDir) = Some t ∧
      match pr with
      | HasRead first => first = Some t
      | Exited o => ∃ c, outside f0 c ∧ c !! (filename r :: tempDir) = Some t ∧ o = dslc (filename r) (Some t) c
      | _ => True
      end
  end.

Definition isolated (s : server_state) : Prop :=
  Forall (faithful (fs s)) (requests s) ∧
  ∀ i j ri rj, requests s !! i = Some ri → requests s !! j = Some rj → active ri = true →
    active rj = true → filename ri = filename rj → i = j.

(** A request keeps its file while others come and go. *)
Lemma faithful_kept name s s' r :
  files_change name s s' → (active r = true → filename r ≠ name) →
  faithful (fs s) r → faithful (fs s') r.
Proof.
  intros Hc Hn. unfold faithful. unfold active in Hn.
  assert ((match at_ r with Spawned | HasRead _ | Exited _ => true | _ => false end) = true →
    contents (fs s') !! (filename r :: tempDir) = contents (fs s) !! (filename r :: tempDir)) as Hk.
  { intros H%Hn. destruct Hc as [->|t _ ->|_ ->]; [done|..].
    - rewrite lookup_insert_ne; [done|]. congruence.
    - rewrite lookup_delete_ne; [done|]. congruence. }
  destruct (at_ r); try done; by rewrite Hk.
Qed.

Lemma isolated_add s s' r name :
  isolated s → requests s' = requests s ++ [r] → files_change name s s' →
  Forall (λ r, active r = true → filename r ≠ name) (requests s) →
  faithful (fs s') r → (active r = true → filename r = name) → isolated s'.
Proof.
  intros [Hf Hd] Hr Hc Hn Hfr Hname. split.
  - rewrite Hr. apply Forall_app. split; [|by apply Forall_singleton].
    rewrite Forall_forall in *. intros x Hx. apply (faithful_kept name s); auto.
  - rewrite Hr. intros i j ri rj Hi Hj Hai Haj Heq. rewrite Forall_lookup in Hn.
    apply lookup_app_Some in Hi as [Hi|[Hli Hi]], Hj as [Hj|[Hlj Hj]].
    + eauto.
    + apply list_lookup_singleton_Some in Hj as [? <-]. rewrite Hname in Heq by done. by destruct (Hn i ri Hi).
    + apply list_lookup_singleton_Some in Hi as [? <-]. rewrite Hname in Heq by done. by destruct (Hn j rj Hj).
    + apply list_lookup_singleton_Some in Hi as [? _], Hj as [? _]. lia.
Qed.

Lemma isolated_set s s' i r r' :
  isolated s → requests s !! i = Some r → requests s' = <[i := r']> (requests s) →
  filename r' = filename r → active r = true → files_change (filename r) s s' →
  faithful (fs s') r' → isolated s'.
Proof.
  intros [Hf Hd] Hi Hr Hname Ha Hc Hfr. split.
  - rewrite Hr, Forall_lookup. intros j x [(-> & <- & _)|[Hne Hj]]%list_lookup_insert_Some; [done|].
    rewrite Forall_lookup in Hf. apply (faithful_kept (filename r) s); eauto.
  - rewrite Hr. intros j k rj rk Hj Hk Haj Hak Heq.
    apply list_lookup_insert_Some in Hj as [(-> & <- & _)|[Hnj Hj]],
      Hk as [(-> & <- & _)|[Hnk Hk]]; [done| | |by eauto].
    + eapply (Hd j k); [done..|congruence].
    + eapply (Hd j k); [done..|congruence].
Qed.

Lemma finish_requests i r pr s :
  requests (finish tmpdir i r pr s) = <[i := with_progress pr r]> (requests s).
Proof. unfold finish. by destruct pr. Qed.

Lemma receive_isolated uuid chunks s :
  placed s → exclusive s (Receive uuid chunks) → isolated s → isolated (receive tmpdir uuid chunks s).
Proof.
  intros Hpl He Hs. pose proof (receive_change uuid chunks s Hpl) as [_ Hc].
  unfold receive, exclusive, event_name in *.
  destruct (parse_body (body_of chunks)) as [[source name]|ex] eqn:Hb.
  - apply parse_body_name in Hb.
    destruct (mkdirSync (fs s) tempDir) as [f|ex] eqn:Hd; [|by eapply isolated_add].
    apply mkdirSync_Ok in Hd as [_ Ed].
    destruct (mkdirSync f _) as [f1|ex] eqn:Ho; [|by eapply isolated_add].
    apply mkdirSync_Ok in Ho as [_ Ed1].
    assert (list_to_set (suffixes tempDir) ⊆ dirs f1) as Hsub by (rewrite Ed1, Ed; set_solver).
    destruct (writeFileSync f1 (tempFile name) source) as [f2|ex] eqn:Hw; [|by eapply isolated_add].
    eapply isolated_add; [done|done|exact Hc|done| |done].
    destruct (written _ _ _ _ Hb Hsub Hw) as (Hp & t & -> & Hct & _).
    exists t. cbn. rewrite Hct. by rewrite lookup_insert_eq.
  - eapply (isolated_add s _ _ EmptyString); [done|done|by apply files_same| |done|done].
    eapply Forall_impl; [exact Hpl|]. cbn. intros r Hr [[Hp _] _]%Hr Heq.
    apply Hp. rewrite Heq. by constructor.
Qed.

Lemma step_isolated s e :
  placed s → outside f0 (contents (fs s)) → exclusive s e → isolated s → isolated (step s e).
Proof.
  intros Hpl Ho He Hs. pose proof (step_change s e Hpl) as [_ Hc]. unfold DevServer.step in *.
  destruct (negb (alive s)); [done|].
  destruct e as [uuid chunks|i|i|i|i message]; [by apply receive_isolated|..]; cbn [event_name] in *;
    (destruct (requests s !! i) as [r|] eqn:Hi; [|done]);
    pose proof Hs as [Hf _]; rewrite Forall_lookup in Hf; specialize (Hf i r Hi);
    destruct (at_ r) as [|first|o|c v|] eqn:Hr; try done; unfold faithful in Hf; rewrite Hr in Hf;
    (eapply isolated_set; [done|exact Hi|first [done|apply finish_requests]|done|by unfold active; rewrite Hr|exact Hc|]).
  - destruct Hf as (t & Ht & Hp & Hct & _). exists t. cbn. by rewrite plain_tempFile.
  - destruct Hf as (t & Ht & Hp & Hct & ->). exists t. cbn. eauto 7.
  - destruct Hf as (t & Ht & Hp & _ & c & Hoc & Hcc & ->).
    pose proof (result_of_inactive (filename r) (dslc (filename r) (Some t) c) r) as Hina.
    unfold faithful, active in *. cbn [at_ with_progress filename asked] in *.
    destruct (result_of _ _) eqn:Hres; try done. intros _. exists t. split; [done|]. left. by exists c.
  - destruct Hf as (t & Ht & _). cbn. intros _. exists t. split; [done|]. right. by exists message.
Qed.

Lemma exclusive_isolated s :
  exclusive_run f0 s → placed s ∧ outside f0 (contents (fs s)) ∧ unbroken s ∧ isolated s.
Proof.
  induction 1 as [|s e _ (Hp & Ho & Hu & Hi) He].
  - split; [apply Forall_nil_2|]. split; [done|]. split; [by intros _; apply Forall_nil_2|].
    split; [apply Forall_nil_2|]. by intros [|i] j ri rj Hi.
  - split; [by apply step_change|]. split; [by apply step_outside|]. split; [by apply step_unbroken|].
    by apply step_isolated.
Qed.
End isolation.

(** C19: as long as no plan is posted under the name of a compilation still under way, every
    request that is answered is answered with what the compiler says of the source that
    was posted, or that it could not be started; other posts matter only to a source that
    imports fragments from the server's temporary directory ([standalone],
    [fragment_crossed]).  And as long as the server runs, which it does until an exception
    that nothing catches, each accepted request gets that answer, once its compiler has
    read, exited and closed, wherever the others are. *)
Theorem compilations_isolated f s i r :
  exclusive_run f s → requests s !! i = Some r →
  (∀ v, at_ r = Responded 200 v → ∃ t, asked r = VString t ∧
     ((answers f (filename r) t (Responded 200 v) ∧
       (standalone f (filename r) t → Responded 200 v = answer_alone f (filename r) t)) ∨
      ∃ m, v = failure m "spawn")) ∧
  (alive s = true → at_ r ≠ Broken ∧ (at_ r = Spawned → ∃ t pr, asked r = VString t ∧
     at_ <$> requests (run s [Reads i; Exits i; Closes i]) !! i = Some pr ∧
     answers f (filename r) t pr ∧ (standalone f (filename r) t → pr = answer_alone f (filename r) t))).
Proof.
  intros Hr Hi. apply exclusive_isolated in Hr as (Hp & Ho & Hu & [Hf _]).
  rewrite Forall_lookup in Hf. specialize (Hf i r Hi). unfold faithful in Hf. split.
  - intros v Hv. rewrite Hv in Hf. destruct (Hf eq_refl) as (t & Ht & [Ha|Hm]); exists t; [|by eauto].
    split; [done|]. left. split; [done|]. intros Hs. by apply standalone_answer.
  - intros Ha. specialize (Hu Ha). rewrite Forall_lookup in Hu. specialize (Hu i r Hi).
    split; [by intros Hb; rewrite Hb in Hu|].
    intros Hs. rewrite Hs in Hf. destruct Hf as (t & Ht & Hpl & Hc & _).
    set (pr := result_of (filename r) (dslc (filename r) (Some t) (contents (fs s)))).
    assert (answers f (filename r) t pr) as Hans by by exists (contents (fs s)).
    exists t, pr. split; [done|]. split; [|split; [done|]; intros Hst; by apply standalone_answer].
    assert (i < length (requests s)) as Hlen by by eapply lookup_lt_Some.
    unfold run. cbn [foldl]. unfold DevServer.step at 3. rewrite Ha, Hi, Hs. cbn [negb].
    unfold DevServer.step at 2. cbn [set_request alive requests fs at_ with_progress survives].
    rewrite Ha, list_lookup_insert_eq by done. cbn [andb negb at_ with_progress fs set_request filename].
    rewrite plain_tempFile, Hc by done. fold pr.
    unfold DevServer.step. cbn [set_request alive requests fs at_ with_progress survives].
    rewrite Ha, list_lookup_insert_eq by by rewrite length_insert. cbn [andb negb at_ with_progress filename].
    rewrite finish_requests. cbn [requests set_request].
    by rewrite list_lookup_insert_eq by by rewrite !length_insert.
Qed.
End compiling.

(** ** Two posts of one name *)

(** A compiler that puts the text of a fragment beside the plan's when the plan asks so. *)
Definition sample_dslc (name : string) (first : option string) (c : gmap path string) : outcome :=
  match first with
  | Some t =>
      let imported := if endsWith t "imports x.fragment"
        then default EmptyString (c !! ["x.fragment.ts"; "visualizer-compile"; "tmp"]) else EmptyString in
      {| exit_code := 0; stderr := EmptyString; outputs := [("a.plan.json", quoted (t +:+ imported))] |}
  | None => {| exit_code := 1; stderr := "ENOENT"; outputs := [] |}
  end.
Definition body_text (name t : string) : string :=
  "{" +:+ quoted "source" +:+ ":" +:+ quoted t +:+ "," +:+ quoted "filename" +:+ ":" +:+ quoted name +:+ "}".
Definition post (name t : string) : event := Receive "uuid" [body_text name t].
Definition sample_files : files := {| contents := ∅; dirs := {[ ["tmp"]; [] ]} |}.
Definition sample_server (es : list event) : list progress :=
  map at_ (requests (run ["tmp"] sample_dslc (serving sample_files) es)).

(** The first of two editors gets the other's plan, and the other an error. *)
Example same_name_crossed :
  sample_server [post "a.plan.ts" "one"; post "a.plan.ts" "two"; Reads 0; Exits 0; Closes 0;
                 Reads 1; Exits 1; Closes 1] =
  [Responded 200 (VObject [("success", VBool true); ("artifact", VString "two")]);
   Responded 200 (failure "ENOENT" "compile")].
Proof. by vm_compute. Qed.

(** A plan that imports [./x.fragment] gets the fragment that another request posted. *)
Example fragment_crossed :
  sample_server [post "x.fragment.ts" " (another's)"; post "a.plan.ts" "imports x.fragment"; Reads 1; Exits 1; Closes 1] =
  [Spawned; Responded 200 (VObject [("success", VBool true);
                                    ("artifact", VString "imports x.fragment (another's)")])].
Proof. by vm_compute. Qed.

(** A name that is a directory's is refused by the file system only, and so is a body
    without a source: the exception ends the server, and other requests get no answer. *)
Example dotdot_ends_server :
  sample_server [post "a.plan.ts" "one"; post ".." "two"; Reads 0; Exits 0; Closes 0] = [Spawned; Broken] ∧
  sample_server [post "a.plan.ts" "one"; Receive "uuid" ["{}"]; Reads 0; Exits 0; Closes 0] = [Spawned; Broken].
Proof. by vm_compute. Qed.

(** ** The body *)

Lemma foldl_body chunks : ∀ acc,
  foldl (λ body chunk, body +:+ decode_chunk chunk) acc chunks = acc +:+ body_of chunks.
Proof.
  unfold body_of. induction chunks as [|c chunks IH]; intros acc; cbn; [by rewrite string_app_nil_r|].
  rewrite IH, (IH (decode_chunk c)). by rewrite string_app_assoc.
Qed.

Lemma text_of_app a b : text_of (a ++ b) = text_of a +:+ text_of b.
Proof. unfold text_of. rewrite map_app. induction (map _ a) as [|c l IH]; [done|]. cbn. by rewrite IH. Qed.

Lemma units_of_text bytes : Forall is_byte bytes → units_of (text_of bytes) = bytes.
Proof.
  unfold units_of, text_of. rewrite list_ascii_of_string_of_list_ascii, map_map.
  induction 1 as [|b bytes [Hb Hb'] _ IH]; [done|]. cbn [map]. rewrite IH, nat_ascii_embedding by lia.
  by rewrite Z2Nat.id.
Qed.

(** A body whose chunks end between characters is the text that was sent... *)
Lemma whole_characters (chunks : list (list Z)) :
  Forall (Forall is_scalar) chunks →
  body_of (map (λ cs, text_of (flat_map utf8 cs)) chunks) = text_of (flat_map utf8 (concat chunks)).
Proof.
  induction 1 as [|cs chunks Hcs _ IH]; [done|]. cbn [map concat].
  change (body_of (?c :: ?l)) with (foldl (λ body chunk, body +:+ decode_chunk chunk) (decode_chunk c) l).
  rewrite foldl_body, IH, flat_map_app, text_of_app. f_equal. unfold decode_chunk.
  rewrite units_of_text, utf8_decode_encode; [done|done|].
  apply Forall_flat_map. eapply Forall_impl; [exact Hcs|]. intros c [Hc _]. by apply utf8_bytes.
Qed.

(** ...and otherwise not: the two bytes of an e with acute accent, in two chunks. *)
Example split_character_garbled :
  body_of [text_of [0xC3; 0xA9]%Z] = text_of [0xC3; 0xA9]%Z ∧
  body_of [text_of [0xC3]%Z; text_of [0xA9]%Z] = text_of [0xEF; 0xBF; 0xBD; 0xEF; 0xBF; 0xBD]%Z.
Proof. by vm_compute. Qed.

(** ** Concrete requests *)

Definition repo : path := ["visualizer"; "tools"; "repo"].
Definition repo_files : files :=
  {| contents := {[ ["a.plan.ts"; "plans"; "repo"] := "plan a"; ["passwd"; "etc"] := "root" ]};
     dirs := {[ [] ]} |}.

Lemma sources_served_witness :
  servePlanSources repo repo_files "/a.plan.ts" = Sent "text/plain; charset=utf-8" "plan a" ∧
  servePlanSources repo repo_files "//etc/passwd" = Sent "text/plain; charset=utf-8" "root".
Proof.
  destruct (sources_served repo repo_files "a.plan.ts" ["passwd"; "etc"] "root") as (H1 & H2 & _).
  - by apply (bool_decide_eq_true_1 _).
  - by apply (bool_decide_eq_true_1 _).
  - done.
  - by vm_compute.
  - split; [|exact H2]. eapply eq_trans; [apply H1|]; by vm_compute.
Defined.

Lemma compile_contained_witness :
  contents (fs (run ["tmp"] sample_dslc (serving repo_files) [post "../../etc/passwd" "x"])) !!
    ["passwd"; "etc"] = Some "root".
Proof.
  rewrite (compile_contained ["tmp"] sample_dslc repo_files [post "../../etc/passwd" "x"]); [by vm_compute|].
  by intros name _.
Defined.

Lemma compilations_isolated_witness :
  (at_ <$> requests (run ["tmp"] sample_dslc
    (run ["tmp"] sample_dslc (serving sample_files) [post "a.plan.ts" "one"; post "b.plan.ts" "two"])
    [Reads 0; Exits 0; Closes 0]) !! 0) =
  Some (answer_alone ["tmp"] sample_dslc sample_files "a.plan.ts" "one").
Proof.
  set (s := run ["tmp"] sample_dslc (serving sample_files) [post "a.plan.ts" "one"; post "b.plan.ts" "two"]).
  destruct (compilations_isolated ["tmp"] sample_dslc sample_files s 0
    {| filename := "a.plan.ts"; out := outDir ["tmp"] "uuid"; asked := VString "one"; at_ := Spawned |})
    as [_ H].
  - apply exclusive_step; [apply exclusive_step; [apply exclusive_start|]|].
    + by vm_compute.
    + vm_compute. repeat constructor. discriminate.
  - by vm_compute.
  - destruct (proj2 (H eq_refl) eq_refl) as (t & pr & [= <-] & Ha & _ & Hs).
    rewrite Ha. f_equal. apply Hs. by intros c _ _.
Defined.
