(* ===== verification/Executor.v ===== *)
(** * Executor: running a plan in the sandbox (dsl/packages/compiler/src/executor.ts)

    The sandbox is QuickJS; what the executor keeps of a run is the artifacts passed to
    [__emitPlan] and the exception, if any, that ended it.  An emitted artifact is a
    graph of host objects, possibly shared or cyclic: a heap.  The JSON check is shown to
    terminate on every heap and to accept exactly the values that unfold into a finite
    tree of JSON data and bigints. *)

From S2P Require Import Prelude Collections JsNumber JsValue.

(** ** Host values *)

Definition loc := positive.

Inductive hval :=
| HUndefined | HNull | HBool (b : bool) | HNumber (n : number) | HString (s : string)
| HBigInt (n : Z)
| HSymbol | HFunction
| HRef (l : loc).

Inductive hobj :=
| HArray (items : list hval)
| HObject (props : list (string * hval)).

Abbreviation heap := (gmap loc hobj).

Definition is_HUndefined (v : hval) : bool := match v with HUndefined => true | _ => false end.

(** ** The JSON check

    [None] is running out of [fuel]. *)

Fixpoint visit_all (visit : hval → string → option (result unit)) (l : list (string * hval))
    : option (result unit) :=
  match l with
  | [] => Some (Ok tt)
  | (path, v) :: l' =>
      r ← visit v path;
      match r with Ok _ => visit_all visit l' | Throw e => Some (Throw e) end
  end.

(** What [forEach] and [Object.entries] visit, with their paths: undefined properties
    are skipped, undefined items are not. *)
Definition items_to_visit (o : hobj) (path : string) : list (string * hval) :=
  match o with
  | HArray items => imap (λ i x, (path +:+ "[" +:+ pretty i +:+ "]", x)) items
  | HObject props =>
      flat_map (λ p : string * hval,
        if is_HUndefined p.2 then [] else [(path +:+ "." +:+ p.1, p.2)]) props
  end.

Section check.
Context (h : heap) (planPath : string).

Definition emitted (what path : string) : exn :=
  Error ("Plan " +:+ planPath +:+ " emitted artifact with " +:+ what +:+ " at " +:+ path).

Fixpoint visit (fuel : nat) (stack : list loc) (v : hval) (path : string)
    : option (result unit) :=
  match fuel with
  | 0 => None
  | S fuel' =>
      match v with
      | HUndefined =>
          Some (Throw (Error ("Plan " +:+ planPath +:+ " emitted artifact with undefined at " +:+
            path +:+ ". Use null instead.")))
      | HFunction => Some (Throw (emitted "function" path))
      | HSymbol => Some (Throw (emitted "symbol" path))
      | HRef l =>
          if bool_decide (l ∈ stack) then Some (Throw (emitted "circular reference" path))
          else
            match h !! l with
            | None => Some (Throw TypeError)      (* no such object *)
            | Some o => visit_all (visit fuel' (l :: stack)) (items_to_visit o path)
            end
      | _ => Some (Ok tt)
      end
  end.
End check.

(** The stack never holds an object twice: the objects of the heap bound its depth. *)
Definition validateArtifact (h : heap) (artifact : hval) (planPath : string)
    : option (result unit) :=
  visit h planPath (S (S (size h))) [] artifact "artifact".

(** ** The run *)

Record capture := { capturedArtifact : hval; emitCount : nat }.
Definition no_capture : capture := {| capturedArtifact := HNull; emitCount := 0 |}.

(** The injected [__emitPlan], with what [vm.dump] makes of the artifact.  When it throws,
    the call has been counted, and the exception goes on in the plan, which may catch it. *)
Definition emitPlan (c : capture) (artifact : option hval) : capture :=
  {| capturedArtifact := default (capturedArtifact c) artifact; emitCount := S (emitCount c) |}.

(** A run of the bundle: the calls of [__emitPlan], each with the artifact or, if it could
    not be dumped, without; the objects that the artifacts consist of; and the error that
    ended it, thrown by a function of the host or not. *)
Record sandbox_run := {
  run_heap : heap;
  run_emitted : list (option hval);
  run_error : option value;
}.

(** [prop in error && typeof error[prop] === "string"] *)
Definition string_prop (error : value) (prop : string) : option string :=
  match get_prop error prop with Ok (VString s) => Some s | _ => None end.

Definition formatQuickJSError (error : value) : result string :=
  match error with
  | VString s => Ok s
  | _ =>
      match (if is_object error then string_prop error "message" else None) with
      | Some message =>
          Ok (message +:+ match string_prop error "stack" with
                          | Some stack => String (ascii_of_nat 10) stack
                          | None => EmptyString
                          end)
      | None => match error with VSymbol => Ok "Symbol()" | _ => template error end
      end
  end.

Definition executePlan (r : sandbox_run) (planPath : string) : option (result hval) :=
  let c := foldl emitPlan no_capture (run_emitted r) in
  match run_error r with
  | Some error =>
      Some (msg ← formatQuickJSError error;
            Throw (Error ("QuickJS execution failed for " +:+ planPath +:+ ": " +:+ msg)))
  | None =>
      if emitCount c =? 0 then
        Some (Throw (Error ("Plan " +:+ planPath +:+ " did not emit an artifact. " +:+
          "Ensure the plan calls definePlan() and exports default.")))
      else if 1 <? emitCount c then
        Some (Throw (Error ("Plan " +:+ planPath +:+ " called __emitPlan " +:+
          pretty (emitCount c) +:+ " times. Expected exactly 1 call.")))
      else
        v ← validateArtifact (run_heap r) (capturedArtifact c) planPath;
        Some (match v with Ok _ => Ok (capturedArtifact c) | Throw e => Throw e end)
  end.

(** ** Finite trees

    Those of JSON data, and bigints: [visit] has no case for them. *)

Inductive tree :=
| TNull | TBool (b : bool) | TNumber (n : number) | TString (s : string) | TBigInt (n : Z)
| TArray (items : list tree)
| TObject (props : list (string * tree)).

(** [x] unfolds to the tree [v]; a property whose value is undefined is not part of it. *)
Inductive unfolds (h : heap) : hval → tree → Prop :=
| unf_null : unfolds h HNull TNull
| unf_bool b : unfolds h (HBool b) (TBool b)
| unf_number n : unfolds h (HNumber n) (TNumber n)
| unf_string s : unfolds h (HString s) (TString s)
| unf_bigint n : unfolds h (HBigInt n) (TBigInt n)
| unf_array l items vs :
    h !! l = Some (HArray items) → unfolds_items h items vs → unfolds h (HRef l) (TArray vs)
| unf_object l props o :
    h !! l = Some (HObject props) → unfolds_props h props o → unfolds h (HRef l) (TObject o)
with unfolds_items (h : heap) : list hval → list tree → Prop :=
| unf_nil : unfolds_items h [] []
| unf_cons x xs v vs :
    unfolds h x v → unfolds_items h xs vs → unfolds_items h (x :: xs) (v :: vs)
with unfolds_props (h : heap) : list (string * hval) → list (string * tree) → Prop :=
| unf_pnil : unfolds_props h [] []
| unf_skip k ps o : unfolds_props h ps o → unfolds_props h ((k, HUndefined) :: ps) o
| unf_prop k x v ps o :
    unfolds h x v → unfolds_props h ps o → unfolds_props h ((k, x) :: ps) ((k, v) :: o).

Scheme unfolds_ind' := Induction for unfolds Sort Prop
  with unfolds_items_ind' := Induction for unfolds_items Sort Prop
  with unfolds_props_ind' := Induction for unfolds_props Sort Prop.

(** ** Termination *)

Section visit_facts.
Context (h : heap) (planPath : string).
#[local] Abbreviation visit := (visit h planPath).

Lemma visit_all_Some (f : hval → string → option (result unit)) l :
  (∀ p v, (p, v) ∈ l → is_Some (f v p)) → is_Some (visit_all f l).
Proof.
  induction l as [|[p v] l IH]; intros H; [by eexists|]. cbn.
  destruct (H p v) as [r Hr]; [left|]. rewrite Hr. cbn.
  destruct r as [[]|]; [|by eexists]. apply IH. intros. apply H. by right.
Qed.

Lemma stack_bound (stack : list loc) :
  NoDup stack → (∀ l, l ∈ stack → is_Some (h !! l)) → length stack ≤ size h.
Proof.
  intros Hnd Hs. rewrite <-(size_list_to_set (C:=gset loc)) by done. rewrite <-(size_dom h).
  apply subseteq_size. intros l Hl%elem_of_list_to_set. apply elem_of_dom. auto.
Qed.

Lemma visit_terminates fuel : ∀ stack v path,
  NoDup stack → (∀ l, l ∈ stack → is_Some (h !! l)) →
  S (size h) < fuel + length stack → is_Some (visit fuel stack v path).
Proof.
  induction fuel as [|fuel IH]; intros stack v path Hnd Hs Hf.
  - pose proof (stack_bound stack Hnd Hs). lia.
  - cbn. destruct v as [| | | | | | | |l]; try by eexists.
    case_bool_decide as Hl; [by eexists|]. destruct (h !! l) as [o|] eqn:Ho; [|by eexists].
    apply visit_all_Some. intros p v _. apply IH.
    + by constructor.
    + intros l' [->|Hl']%elem_of_cons; [by eexists|auto].
    + cbn. lia.
Qed.

(** ** Soundness *)

Lemma visit_all_Ok (f : hval → string → option (result unit)) l :
  visit_all f l = Some (Ok tt) ↔ Forall (λ p, f p.2 p.1 = Some (Ok tt)) l.
Proof.
  induction l as [|[p v] l IH]; cbn; [naive_solver|]. rewrite Forall_cons. cbn.
  destruct (f v p) as [[[]|]|]; cbn; naive_solver.
Qed.


Lemma unfold_items items :
  Forall (λ v, ∃ t, unfolds h v t) items → ∃ vs, unfolds_items h items vs.
Proof.
  induction 1 as [|v items [t Ht] _ [vs Hvs]]; [exists []; constructor|].
  exists (t :: vs). by constructor.
Qed.

Lemma unfold_props props :
  Forall (λ p, p.2 = HUndefined ∨ ∃ t, unfolds h p.2 t) props → ∃ o, unfolds_props h props o.
Proof.
  induction 1 as [|[k v] props Hv _ [o Ho]]; [exists []; constructor|]. cbn in Hv.
  destruct Hv as [->|[t Ht]]; [exists o|exists ((k, t) :: o)]; by constructor.
Qed.

Lemma visit_sound fuel : ∀ stack v path,
  visit fuel stack v path = Some (Ok tt) → ∃ t, unfolds h v t.
Proof.
  induction fuel as [|fuel IH]; intros stack v path; [done|]. cbn.
  destruct v as [| | | | | | | |l]; try done; try by (intros _; eexists; constructor).
  case_bool_decide; [done|]. destruct (h !! l) as [[items|props]|] eqn:Ho; [| |done];
    rewrite visit_all_Ok, Forall_forall; intros Hall.
  - destruct (unfold_items items) as [vs Hvs]; [|eexists; by econstructor].
    apply Forall_forall. intros v [i Hi]%list_elem_of_lookup.
    eapply IH, (Hall (_, v)), elem_of_lookup_imap. eauto.
  - destruct (unfold_props props) as [o Ho']; [|eexists; by econstructor].
    apply Forall_forall. intros [k v] Hin. cbn. destruct (is_HUndefined v) eqn:Hu.
    { left. by destruct v. }
    right. eapply IH, (Hall (path +:+ "." +:+ k, v)). cbn.
    apply list_elem_of_In, in_flat_map. exists (k, v). rewrite <-list_elem_of_In. split; [done|].
    cbn. rewrite Hu. by left.
Qed.
End visit_facts.

(** ** Completeness *)

Fixpoint vsize (v : tree) : nat :=
  match v with
  | TArray l => S ((fix go l := match l with [] => 0 | x :: l' => vsize x + go l' end) l)
  | TObject o => S ((fix go o := match o with [] => 0 | x :: o' => vsize x.2 + go o' end) o)
  | _ => 1
  end.

Lemma vsize_array l x : x ∈ l → vsize x < vsize (TArray l).
Proof.
  cbn. induction l as [|y l IH]; intros H; [by apply elem_of_nil in H|].
  apply elem_of_cons in H as [->|H]; [lia|]. specialize (IH H). lia.
Qed.

Lemma vsize_object o k x : (k, x) ∈ o → vsize x < vsize (TObject o).
Proof.
  cbn. induction o as [|y o IH]; intros H; [by apply elem_of_nil in H|].
  apply elem_of_cons in H as [<-|H]; [cbn; lia|]. specialize (IH H). lia.
Qed.

Section complete.
Context (h : heap) (planPath : string).
#[local] Abbreviation visit := (visit h planPath).

Lemma unfolds_det x t : unfolds h x t → ∀ t', unfolds h x t' → t = t'.
Proof.
  induction 1 as [| | | | |l items vs Hl Hvs IH|l props o Hl Ho IH| | | | |]
    using unfolds_ind' with
    (P0 := λ xs vs _, ∀ vs', unfolds_items h xs vs' → vs = vs')
    (P1 := λ ps o _, ∀ o', unfolds_props h ps o' → o = o').
  all: try by inversion 1.
  - intros t' H. inversion H as [| | | | |? ? ? Hl' Hvs'|? ? ? Hl' Ho']; subst; simplify_eq.
    f_equal. auto.
  - intros t' H. inversion H as [| | | | |? ? ? Hl' Hvs'|? ? ? Hl' Ho']; subst; simplify_eq.
    f_equal. auto.
  - inversion 1; subst. f_equal; auto.
  - inversion 1 as [| |? ? ? ? ? Hx]; subst; [auto|]. inversion Hx.
  - inversion 1 as [|? ? ? ? |]; subst.
    + match goal with H : unfolds h HUndefined _ |- _ => inversion H end.
    + f_equal; [f_equal|]; auto.
Qed.

(** Everything visited below an object is a strictly smaller tree. *)
Lemma unfolds_items_in xs vs :
  unfolds_items h xs vs → ∀ x, x ∈ xs → ∃ t, t ∈ vs ∧ unfolds h x t.
Proof.
  induction 1 as [|x xs v vs Hx Hxs IH]; intros y Hy; [by apply elem_of_nil in Hy|].
  apply elem_of_cons in Hy as [->|Hy]; [exists v; split; [left|done]|].
  destruct (IH y Hy) as (t & ? & ?). exists t. split; [by right|done].
Qed.

Lemma unfolds_props_in ps o :
  unfolds_props h ps o → ∀ k x, (k, x) ∈ ps → x ≠ HUndefined →
  ∃ t, (k, t) ∈ o ∧ unfolds h x t.
Proof.
  induction 1 as [|k' ps o Ho IH|k' x' v ps o Hx Ho IH]; intros k x Hin Hu.
  - by apply elem_of_nil in Hin.
  - apply elem_of_cons in Hin as [[= -> ->]|Hin]; [done|]. eauto.
  - apply elem_of_cons in Hin as [[= -> ->]|Hin].
    + exists v. split; [left|done].
    + destruct (IH k x Hin Hu) as (t & ? & ?). exists t. split; [by right|done].
Qed.

Lemma items_smaller l o t path x p :
  h !! l = Some o → unfolds h (HRef l) t → (p, x) ∈ items_to_visit o path →
  ∃ t', unfolds h x t' ∧ vsize t' < vsize t.
Proof.
  intros Hl Ht Hin. inversion Ht as [| | | | |? items vs Hl' Hvs|? props ob Hl' Hob]; subst;
    rewrite Hl in Hl'; injection Hl' as ->; cbn in Hin.
  - apply elem_of_lookup_imap in Hin as (i & y & [= -> ->] & Hy).
    destruct (unfolds_items_in _ _ Hvs y) as (t & Htin & Hyt); [by eapply list_elem_of_lookup_2|].
    exists t. split; [done|by apply vsize_array].
  - apply list_elem_of_In, in_flat_map in Hin as ([k y] & Hk & Hin). cbn in Hin.
    destruct (is_HUndefined y) eqn:Hu; [done|]. destruct Hin as [[= <- <-]|[]].
    apply list_elem_of_In in Hk.
    destruct (unfolds_props_in _ _ Hob k y Hk) as (t & Htin & Hyt); [by intros ->|].
    exists t. split; [done|by eapply vsize_object].
Qed.

Lemma visit_complete fuel : ∀ stack v path t,
  unfolds h v t →
  (∀ l t', l ∈ stack → unfolds h (HRef l) t' → vsize t < vsize t') →
  visit fuel stack v path = Some (Ok tt) ∨ visit fuel stack v path = None.
Proof.
  induction fuel as [|fuel IH]; intros stack v path t Ht Hs; [by right|]. cbn.
  destruct v as [| | | | | | | |l]; try (by left); try (by inversion Ht).
  rewrite bool_decide_eq_false_2 by (intros Hl; specialize (Hs l t Hl Ht); lia).
  assert (∃ o, h !! l = Some o) as [o Ho] by (inversion Ht; eauto). rewrite Ho.
  assert (∀ p x, (p, x) ∈ items_to_visit o path →
    visit fuel (l :: stack) x p = Some (Ok tt) ∨ visit fuel (l :: stack) x p = None) as Hall.
  { intros p x Hin. destruct (items_smaller _ _ _ _ _ _ Ho Ht Hin) as (t' & Ht' & Hlt).
    apply (IH _ _ _ t' Ht'). intros l' u [->|Hl']%elem_of_cons Hu.
    - by rewrite <-(unfolds_det _ _ Ht _ Hu).
    - specialize (Hs l' u Hl' Hu). lia. }
  clear -Hall. induction (items_to_visit o path) as [|[p x] xs IHx]; [by left|]. cbn.
  destruct (Hall p x) as [->| ->]; [left|cbn|by right]. apply IHx. intros. apply Hall. by right.
Qed.

Lemma validateArtifact_total a :
  ∃ r, validateArtifact h a planPath = Some r ∧ (r = Ok tt ↔ ∃ t, unfolds h a t).
Proof.
  unfold validateArtifact.
  destruct (visit_terminates h planPath (S (S (size h))) [] a "artifact") as [r Hr].
  { constructor. }
  { by intros l Hl%elem_of_nil. }
  { cbn. lia. }
  exists r. split; [done|]. split.
  - intros ->. by eapply visit_sound.
  - intros [t Ht]. destruct (visit_complete (S (S (size h))) [] a "artifact" t Ht) as [E|E].
    + by intros l t' Hl%elem_of_nil.
    + congruence.
    + congruence.
Qed.
End complete.

(** C15: the JSON check of an emitted artifact returns on every heap, cyclic or not, and
    passes exactly the values that unfold into a finite tree of null, booleans, numbers,
    strings, bigints, arrays and objects: undefined as an item or as the whole, a function,
    a symbol and a cycle are errors, and sharing and an undefined property are not. *)
Theorem validateArtifact_decides h a planPath :
  ∃ r, validateArtifact h a planPath = Some r ∧ (r = Ok tt ↔ ∃ t, unfolds h a t).
Proof. apply validateArtifact_total. Qed.

Lemma foldl_emit l c : emitCount (foldl emitPlan c l) = emitCount c + length l.
Proof. revert c. induction l as [|x l IH]; intros c; cbn; [lia|]. rewrite IH. cbn. lia. Qed.

(** a run gives an artifact exactly when it ended without an error and called
    [__emitPlan] once, with a finite tree; the artifact is what it emitted, or null if the
    plan caught that it could not be dumped. *)
Theorem executePlan_correct r planPath a :
  executePlan r planPath = Some (Ok a) ↔
  run_error r = None ∧ (∃ e, run_emitted r = [e] ∧ a = default HNull e) ∧ ∃ t, unfolds (run_heap r) a t.
Proof.
  unfold executePlan. destruct (run_error r) as [e|].
  { split; [|by intros [? _]]. intros [= H]. by destruct (formatQuickJSError e). }
  rewrite foldl_emit. cbn [emitCount no_capture].
  destruct (run_emitted r) as [|x [|y l]]; cbn [length Nat.add Nat.eqb Nat.ltb Nat.leb].
  - split; [done|naive_solver].
  - cbn [foldl emitPlan capturedArtifact no_capture].
    destruct (validateArtifact_total (run_heap r) planPath (default HNull x)) as (v & Hv & Hiff). rewrite Hv.
    cbn. destruct v as [[]|e]; naive_solver.
  - split; [done|naive_solver].
Qed.

(** A bigint passes, though it is no JSON data: [JSON.stringify] throws for it. *)
Example bigint_passes : validateArtifact ∅ (HBigInt 1) "p" = Some (Ok tt).
Proof. by vm_compute. Qed.

(** A shared object passes; a cycle does not. *)
Definition shared_heap : heap :=
  {[ 1%positive := HObject [("a", HRef 2%positive); ("b", HRef 2%positive); ("c", HUndefined)];
     2%positive := HArray [HNumber (num 1)] ]}.
Definition cyclic_heap : heap := {[ 1%positive := HObject [("a", HRef 1%positive)] ]}.
Example shared_ok : validateArtifact shared_heap (HRef 1%positive) "p" = Some (Ok tt).
Proof. by vm_compute. Qed.
Example cycle_reported :
  validateArtifact cyclic_heap (HRef 1%positive) "p" =
  Some (Throw (Error "Plan p emitted artifact with circular reference at artifact.a")).
Proof. by vm_compute. Qed.
