(* ===== verification/Sandbox.v ===== *)
(** * Sandbox: how the executor uses QuickJS (dsl/packages/compiler/src/executor.ts)

    [Executor] says which result a run has; here [executePlan] is written out with the
    calls that it makes: the context, the functions it puts into it, the setup script, the
    plan's code and the release of everything.  QuickJS itself is outside: what it answers
    (the error of the setup, if any, and the run of the plan) is an argument, and a call is
    recorded.  While the plan runs it calls the two functions put there; what they do to the
    result, their exceptions included, is in the run ([sandbox_run]), and the handles they
    get are QuickJS's own.  Handles are numbered as they are made; the context is released by [finally],
    so also when formatting an error throws. *)

From S2P Require Import Prelude StateMonad Collections JsNumber JsValue Executor.

(** ** Calls *)

Inductive place := Global | Of (h : nat).
Inductive api :=
| NewContext
| NewFunction (h : nat) (name : string)
| NewObject (h : nat)
| SetProp (at_ : place) (name : string) (h : nat)
| EvalSetup (h : nat)                             (* [h] is the handle on the value or the error *)
| EvalPlan (h : nat) (planPath : string)
| Dump (h : nat)
| Dispose (h : nat)
| DisposeContext.

Record host := { calls : list api; next : nat }.
Definition record (c : api) (s : host) : host := {| calls := calls s ++ [c]; next := next s |}.
Definition do_ (c : api) : M host unit := modify (record c).
Definition fresh : M host nat := λ s, (Ok (next s), {| calls := calls s; next := S (next s) |}).

(** ** The setup script *)

(** Its statements, on what a global name and the constructor of functions are. *)
Inductive statement := ForgetGlobal (name : string) | ForgetConstructor.
Definition sandboxSetup : list statement :=
  [ForgetGlobal "eval"; ForgetConstructor; ForgetGlobal "Function"; ForgetGlobal "process";
   ForgetGlobal "require"; ForgetGlobal "module"; ForgetGlobal "exports"; ForgetGlobal "__dirname";
   ForgetGlobal "__filename"].
Record realm := { global : string → value; function_constructor : value }.
Definition execute (r : realm) (s : statement) : realm :=
  match s with
  | ForgetGlobal name =>
      {| global := λ k, if String.eqb k name then VUndefined else global r k;
         function_constructor := function_constructor r |}
  | ForgetConstructor => {| global := global r; function_constructor := VUndefined |}
  end.
Definition after_setup (r : realm) : realm := foldl execute r sandboxSetup.

(** No code is made from text: neither [eval] nor [Function] nor the constructor that every
    function inherits is left, and none of Node's globals; nothing else changes. *)
Lemma setup_forgets r k :
  global (after_setup r) k =
    (if string_elem ["eval"; "Function"; "process"; "require"; "module"; "exports"; "__dirname"; "__filename"] k
     then VUndefined else global r k) ∧
  function_constructor (after_setup r) = VUndefined.
Proof.
  split; [|done]. unfold after_setup, string_elem. cbn.
  repeat match goal with |- context [String.eqb k ?a] =>
    destruct (String.eqb_spec k a) as [->|]; [by rewrite bool_decide_true by set_solver|] end.
  by rewrite bool_decide_false by set_solver.
Qed.

(** ** A run *)

(** What QuickJS answers: the setup's error, as [vm.dump] gives it, and the plan's run. *)
Record answers := { setup_error : option value; plan_run : sandbox_run }.

Section run.
Context (r : answers) (planPath : string).

Definition inject : M host unit :=
  emitPlanFn ← fresh; do_ (NewFunction emitPlanFn "__emitPlan") ;;
  do_ (SetProp Global "__emitPlan" emitPlanFn) ;; do_ (Dispose emitPlanFn) ;;
  consoleObj ← fresh; do_ (NewObject consoleObj) ;;
  logFn ← fresh; do_ (NewFunction logFn "log") ;;
  do_ (SetProp (Of consoleObj) "log" logFn) ;; do_ (SetProp Global "console" consoleObj) ;;
  do_ (Dispose logFn) ;; do_ (Dispose consoleObj).

(** An evaluation: its error is dumped and released and then thrown, its value released. *)
Definition evaluate (call : nat → api) (error : option value) (thrown : value → result string) : M host unit :=
  h ← fresh; do_ (call h) ;;
  match error with
  | Some e => do_ (Dump h) ;; do_ (Dispose h) ;; msg ← lift (thrown e); lift (Throw (Error msg))
  | None => do_ (Dispose h)
  end.

Definition capture_of : capture := foldl emitPlan no_capture (run_emitted (plan_run r)).

(** What is left of the run, [None] if the check of the artifact does not return. *)
Definition verify : M host (option hval) :=
  let c := capture_of in
  if emitCount c =? 0 then
    lift (Throw (Error ("Plan " +:+ planPath +:+ " did not emit an artifact. " +:+
      "Ensure the plan calls definePlan() and exports default.")))
  else if 1 <? emitCount c then
    lift (Throw (Error ("Plan " +:+ planPath +:+ " called __emitPlan " +:+
      pretty (emitCount c) +:+ " times. Expected exactly 1 call.")))
  else
    match validateArtifact (run_heap (plan_run r)) (capturedArtifact c) planPath with
    | None => mret None
    | Some v => lift v ;; mret (Some (capturedArtifact c))
    end.

Definition executePlan : M host (option hval) :=
  do_ NewContext ;;
  finally
    (inject ;;
     evaluate EvalSetup (setup_error r)
       (λ e, t ← template e; Ok ("Failed to setup sandbox: " +:+ t)) ;;
     evaluate (λ h, EvalPlan h planPath) (run_error (plan_run r))
       (λ e, msg ← formatQuickJSError e; Ok ("QuickJS execution failed for " +:+ planPath +:+ ": " +:+ msg)) ;;
     verify)
    (do_ DisposeContext).
End run.

Definition start : host := {| calls := []; next := 0 |}.

(** ** Discipline *)

(** What is alive: [None] before and after the context's life, then the handles. *)
Definition uses (live : list nat) (h : nat) : option (list nat) := if bool_decide (h ∈ live) then Some live else None.
Definition makes (live : list nat) (h : nat) : option (list nat) := if bool_decide (h ∈ live) then None else Some (h :: live).
Definition place_live (live : list nat) (p : place) : bool :=
  match p with Global => true | Of h => bool_decide (h ∈ live) end.
Definition permit (live : list nat) (c : api) : option (list nat) :=
  match c with
  | NewContext | DisposeContext => None
  | NewFunction h _ | NewObject h | EvalSetup h | EvalPlan h _ => makes live h
  | SetProp p _ h => if place_live live p then uses live h else None
  | Dump h => uses live h
  | Dispose h => if bool_decide (h ∈ live) then Some (List.filter (λ h', negb (h' =? h)) live) else None
  end.
Fixpoint permit_all (live : list nat) (cs : list api) : option (list nat) :=
  match cs with [] => Some live | c :: cs => match permit live c with Some l => permit_all l cs | None => None end end.

(** A context is made first and released last, nothing is used that is not alive, and all
    handles are released by then. *)
Definition disciplined (cs : list api) : Prop :=
  ∃ inner, cs = NewContext :: inner ++ [DisposeContext] ∧ permit_all [] inner = Some [].

(** ** The run is the executor's *)

Lemma verify_calls r planPath s : (verify r planPath s).2 = s.
Proof.
  unfold verify. destruct (_ =? 0); [done|]. destruct (1 <? _); [done|].
  destruct (validateArtifact _ _ _) as [[[]|]|]; done.
Qed.

(** The calls by what QuickJS answers: all of them, one after the other. *)
Definition injected : list api :=
  [NewFunction 0 "__emitPlan"; SetProp Global "__emitPlan" 0; Dispose 0; NewObject 1; NewFunction 2 "log";
   SetProp (Of 1) "log" 2; SetProp Global "console" 1; Dispose 2; Dispose 1].
Definition made (r : answers) (planPath : string) : list api :=
  injected ++
  match setup_error r with
  | Some _ => [EvalSetup 3; Dump 3; Dispose 3]
  | None =>
      [EvalSetup 3; Dispose 3; EvalPlan 4 planPath] ++
      match run_error (plan_run r) with Some _ => [Dump 4; Dispose 4] | None => [Dispose 4] end
  end.

Lemma executePlan_calls r planPath :
  calls (executePlan r planPath start).2 = NewContext :: made r planPath ++ [DisposeContext].
Proof.
  unfold executePlan, made, inject, evaluate, injected.
  cbv [mbind M_bind do_ modify fresh finally start lift record]. cbn [calls next app].
  destruct (setup_error r) as [e|]; [by destruct (template e)|].
  destruct (run_error (plan_run r)) as [e|]; cbn [calls next app].
  - by destruct (formatQuickJSError e).
  - match goal with |- context [verify r planPath ?s] => set (w := s); pose proof (verify_calls r planPath w) as Hv;
      destruct (verify r planPath w) as [[v|x] s'] end; cbn in Hv; subst s'; done.
Qed.

Lemma executePlan_result r planPath :
  (executePlan r planPath start).1 =
  match setup_error r with
  | Some e => t ← template e; Throw (Error ("Failed to setup sandbox: " +:+ t))
  | None =>
      match Executor.executePlan (plan_run r) planPath with
      | None => Ok None
      | Some v => Some <$> v
      end
  end.
Proof.
  unfold executePlan, inject, evaluate. cbv [mbind M_bind do_ modify fresh finally start lift record]. cbn [calls next app].
  destruct (setup_error r) as [e|]; [by destruct (template e)|].
  unfold Executor.executePlan. destruct (run_error (plan_run r)) as [e|]; cbn [calls next app].
  - by destruct (formatQuickJSError e).
  - unfold verify, capture_of. destruct (emitCount _ =? 0); [done|]. destruct (1 <? emitCount _); [done|].
    by destruct (validateArtifact _ _ _) as [[[]|]|].
Qed.

Lemma executePlan_total r planPath : ∃ v, Executor.executePlan r planPath = Some v.
Proof.
  unfold Executor.executePlan. destruct (run_error r); [by eexists|]. destruct (_ =? 0); [by eexists|].
  destruct (1 <? _); [by eexists|].
  destruct (validateArtifact_total (run_heap r) planPath (capturedArtifact (foldl emitPlan no_capture (run_emitted r))))
    as (v & Hv & _). rewrite Hv. by eexists.
Qed.

(** C16: Whatever QuickJS answers, [executePlan] makes one context and releases it last, also
    when it throws; it uses no handle before it is made or after it is released, and has
    released all of them by then.  The plan's code only runs after the setup script has
    succeeded, so with neither [eval] nor a constructor of functions nor Node's globals.  What
    it returns or throws is what [Executor.executePlan] says of the run, and it returns. *)
Theorem executePlan_disciplined r planPath :
  let '(result, s) := executePlan r planPath start in
  disciplined (calls s) ∧
  (∀ h, EvalPlan h planPath ∈ calls s → setup_error r = None) ∧
  match setup_error r with
  | Some e => result = (t ← template e; Throw (Error ("Failed to setup sandbox: " +:+ t)))
  | None => ∃ v, Executor.executePlan (plan_run r) planPath = Some v ∧ result = Some <$> v
  end.
Proof.
  pose proof (executePlan_calls r planPath) as Hc. pose proof (executePlan_result r planPath) as Hr.
  destruct (executePlan r planPath start) as [result s]. cbn [fst snd] in Hc, Hr. subst result. rewrite Hc.
  split; [|split].
  - exists (made r planPath). split; [done|]. unfold made.
    destruct (setup_error r); [done|]. by destruct (run_error (plan_run r)).
  - intros h Hin. unfold made, injected in Hin. destruct (setup_error r); [|done].
    cbn in Hin. set_unfold in Hin. naive_solver.
  - destruct (setup_error r) as [e|]; [done|]. destruct (executePlan_total (plan_run r) planPath) as [v Hv].
    exists v. by rewrite Hv.
Qed.
