(* ===== verification/CompilerCli.v ===== *)
(** * CompilerCli: the compiler driver dslc (dsl/packages/compiler/src/cli.ts)

    Argument parsing, the merge of extracted expressions and predicates into the
    artifact's tables, and the steps of [compilePlan].  The bundler (esbuild), the
    sandbox and the hash are parameters; printing is not modelled.  The merge is shown
    to keep the plan's own entries and to resolve every placeholder. *)

From S2P Require Import Prelude StateMonad Collections JsNumber JsValue TsAst Ir AstExtractor AstRewriting ArtifactValidation StableStringify TaskImpl PlanCtx.

(** ** Arguments *)

Inductive invocation :=
| Exit (code : nat)
| Build (planPaths : list string) (outputDir : string).

(** The loop over [args] from index 1. *)
Fixpoint parse_args (args : list string) (planPaths : list string) (outputDir : option string)
    : invocation :=
  match args with
  | [] =>
      match planPaths, outputDir with
      | [], _ | _, None => Exit 1
      | _, Some dir => Build planPaths dir
      end
  | a :: rest =>
      if String.eqb a "--out" then
        match rest with
        | [] => Exit 1
        | dir :: rest' => parse_args rest' planPaths (Some dir)
        end
      else if startsWith a "-" then Exit 1
      else parse_args rest (planPaths ++ [a]) outputDir
  end.

Definition main (args : list string) : invocation :=
  match args with
  | [] => Exit 1
  | a :: rest =>
      if String.eqb a "--help" || String.eqb a "-h" then Exit 0
      else if negb (String.eqb a "build") then Exit 1
      else parse_args rest [] None
  end.

(** ** Merging *)

(** [exprTable[newId] = expr]; an array keeps no named members in its JSON. *)
Definition table_set (table : value) (k : string) (v : value) : value :=
  match table with VObject o => VObject (obj_assign o k v) | _ => table end.

(** The loop that adds the entries and fills [idRemap]. *)
Fixpoint add_entries (letter static : string) (nextId : nat) (table : value)
    (idRemap : list (string * string)) (extracted : list (nat * value))
    : value * list (string * string) :=
  match extracted with
  | [] => (table, idRemap)
  | (staticId, v) :: rest =>
      let newId := letter +:+ pretty nextId in
      add_entries letter static (S nextId) (table_set table newId v)
        (map_set idRemap (static +:+ pretty staticId) newId) rest
  end.

Definition remap_ref (static : string) (idRemap : list (string * string)) (id : string) : string :=
  if startsWith id static then default id (map_get idRemap id) else id.

(** [node.params[param] = remapped], for a string parameter. *)
Definition remap_node (param static : string) (idRemap : list (string * string)) (node : value)
    : value :=
  match node with
  | VObject n =>
      match own_get n "params" with
      | VObject ps =>
          match own_get ps param with
          | VString id =>
              let id' := remap_ref static idRemap id in
              if String.eqb id' id then node
              else VObject (obj_assign n "params" (VObject (obj_assign ps param (VString id'))))
          | _ => node
          end
      | _ => node
      end
  | _ => node
  end.

Definition merge (table_name param letter static : string) (artifact : value)
    (extracted : list (nat * value)) : result value :=
  t ← get_prop artifact table_name;
  let table := nullish t (VObject []) in
  ks ← keys table;
  let (table', idRemap) := add_entries letter static (length ks) table [] extracted in
  nodes ← get_prop artifact "nodes";
  es ← entries artifact;
  match nodes with
  | VArray l =>
      Ok (VObject (obj_define (obj_define (from_entries es) table_name table') "nodes"
        (VArray (map (remap_node param static idRemap) l))))
  | _ => Throw TypeError
  end.

Definition mergeExtractedExprs (artifact : value) (extractedExprs : list (nat * ExprNode))
    : result value :=
  merge "expr_table" "expr_id" "e" "__static_e" artifact
    (map (λ x, (x.1, expr_value x.2)) extractedExprs).

Definition mergeExtractedPreds (artifact : value) (extractedPreds : list (nat * PredNode))
    : result value :=
  merge "pred_table" "pred_id" "p" "__static_p" artifact
    (map (λ x, (x.1, pred_value x.2)) extractedPreds).

(** ** Plan names (dsl/packages/generated/validation.ts) *)

Definition is_word_char (c : ascii) : bool :=
  is_lower c || is_upper c || is_digit c || Ascii.eqb c "_".

(** [/^[A-Za-z0-9_]+$/.test(value)] *)
Definition isValidPlanName (v : string) : bool :=
  negb (String.eqb v EmptyString) && string_forallb is_word_char v.

(** [planFileName.replace(/\.plan\.ts$/, "")] *)
Definition expected_name (planFileName : string) : string :=
  if endsWith planFileName ".plan.ts"
  then slice planFileName 0 (String.length planFileName - 8) else planFileName.

(** ** compilePlan

    [bundle] is the bundler on the source to use instead of the file's, if any;
    [execute] runs a bundle in the sandbox and reads the artifact it emitted; [sha256]
    gives a hexadecimal digest. *)

Section compilePlan.
Context (createSourceFile : string → string → TsAst.node) (SyntaxKind : string → string)
  (getLineAndCharacterOfPosition : string → nat → nat * nat)
  (bundle : option string → result string) (execute : string → result value)
  (sha256 : string → string) (PACKAGE_VERSION : string).

Definition built_by (code : string) : value :=
  VObject [("backend", VString "quickjs"); ("tool", VString "dslc");
           ("tool_version", VString PACKAGE_VERSION);
           ("bundle_digest", VString (slice (sha256 code) 0 16))].

(** Steps 5 and 6: the validated artifact with the extracted entries. *)
Definition finish_artifact (artifact : value) (planFileName : string)
    (exprs : list (nat * ExprNode)) (preds : list (nat * PredNode)) : result value :=
  validateArtifact artifact planFileName ;;
  a ← (match exprs with [] => Ok artifact | _ => mergeExtractedExprs artifact exprs end);
  match preds with [] => Ok a | _ => mergeExtractedPreds a preds end.

(** Step 7 *)
Definition check_name (planName planFileName : string) : result unit :=
  let expectedName := expected_name planFileName in
  throw_if (negb (String.eqb planName expectedName))
    ("Plan name " +:+ quoted planName +:+ " doesn't match filename " +:+ quoted planFileName +:+
     ". Rename file to " +:+ quoted (planName +:+ ".plan.ts") +:+ " or change plan name to " +:+
     quoted expectedName +:+ ".") ;;
  throw_if (negb (isValidPlanName planName))
    ("Invalid plan name " +:+ quoted planName +:+ ". Plan names must match pattern " +:+
     "[A-Za-z0-9_]+ (alphanumeric and underscores only).").

(** The name and the text of the file written. *)
Definition compilePlan (sourceCode planFileName : string) : result (string * string) :=
  let x := extractExpressions createSourceFile SyntaxKind getLineAndCharacterOfPosition
             sourceCode planFileName in
  throw_if (negb (bool_decide (errors x = [])))
    ("AST extraction failed with " +:+ pretty (length (errors x)) +:+ " error(s)") ;;
  let hasExtractions :=
    negb (bool_decide (extractedExprs x = []) && bool_decide (extractedPreds x = [])) in
  code ← bundle (if hasExtractions then Some (rewrittenSource x) else None);
  artifact ← execute code;
  a ← finish_artifact artifact planFileName (extractedExprs x) (extractedPreds x);
  name ← get_prop artifact "plan_name";
  planName ← template name;
  check_name planName planFileName ;;
  es ← entries a;
  match stableStringify (VObject (obj_define (from_entries es) "built_by" (built_by code))) 2 with
  | Some json => Ok (planName +:+ ".plan.json", json +:+ newline)
  | None => Throw TypeError
  end.
End compilePlan.

(** ** What the merge does *)

(** The names of the table entries, and the placeholders' names. *)
Definition numbered (p : string) (i : nat) : string := p +:+ pretty i.

#[export] Instance numbered_inj p : Inj (=) (=) (numbered p).
Proof. by intros i j H%(inj (String.append p))%(inj pretty). Qed.

(** A first character that is not a digit makes a name no array index. *)
Lemma name_no_index c s : is_digit c = false → array_index (String c s) = None.
Proof. intros H. cbn. by rewrite H. Qed.

Definition plain_letter (letter : string) : Prop :=
  ∀ s, array_index (letter +:+ s) = None ∧ letter +:+ s ≠ "__proto__".

Lemma plain_e : plain_letter "e".
Proof. by split; [apply name_no_index|]. Qed.
Lemma plain_p : plain_letter "p".
Proof. by split; [apply name_no_index|]. Qed.

Lemma obj_assign_fresh letter o i v :
  plain_letter letter → numbered letter i ∉ o.*1 →
  obj_assign o (numbered letter i) v = o ++ [(numbered letter i, v)].
Proof.
  intros Hl Hi. destruct (Hl (pretty i)) as [Hidx Hproto]. unfold obj_assign.
  replace (String.eqb (numbered letter i) "__proto__") with false
    by (symmetry; by apply String.eqb_neq).
  rewrite andb_false_r. by apply obj_define_name.
Qed.

(** The placeholders and the extracted values they stand for; the ids these get. *)
Definition statics (static : string) (vs : list value) : list (string * value) :=
  imap (λ i v, (numbered static i, v)) vs.
Definition fresh_entries (letter : string) (n : nat) (vs : list value) : list (string * value) :=
  imap (λ i v, (numbered letter (n + i), v)) vs.
Definition fresh_ids (letter static : string) (n : nat) (vs : list value)
    : list (string * string) :=
  imap (λ i _, (numbered static i, numbered letter (n + i))) vs.

Lemma imap_shift {A B} (f : nat → A → B) k l :
  imap (λ i x, f (S k + i) x) l = imap (λ i x, f (k + S i) x) l.
Proof. apply imap_ext. intros i x _. f_equal. lia. Qed.

(** Adding densely numbered entries to a densely numbered table. *)
Lemma add_entries_spec letter static vs : ∀ n k o remap,
  plain_letter letter →
  o.*1 = map (numbered letter) (seq 0 n) →
  remap.*1 = map (numbered static) (seq 0 k) →
  add_entries letter static n (VObject o) remap (imap (λ i v, (k + i, v)) vs)
  = (VObject (o ++ fresh_entries letter n vs),
     remap ++ imap (λ i _, (numbered static (k + i), numbered letter (n + i))) vs).
Proof.
  unfold fresh_entries.
  induction vs as [|v vs IH]; intros n k o remap Hl Ho Hr; cbn [imap add_entries].
  { by rewrite !app_nil_r. }
  rewrite !Nat.add_0_r. change (letter +:+ pretty n) with (numbered letter n).
  change (static +:+ pretty k) with (numbered static k). cbn [table_set].
  rewrite obj_assign_fresh; [|done|rewrite Ho; apply (numbered_fresh (numbered letter) n _)].
  rewrite map_set_fresh by (rewrite Hr; apply (numbered_fresh (numbered static) k _)).
  unfold compose. rewrite <-!(imap_shift (λ i x, (i, x))).
  rewrite <-(imap_shift (λ i x, (numbered letter i, x))).
  rewrite (imap_ext (λ i _, (numbered static (k + S i), numbered letter (n + S i)))
    (λ i _, (numbered static (S k + i), numbered letter (S n + i))))
    by (intros; do 2 f_equal; lia).
  rewrite (IH (S n) (S k)), <-!app_assoc; try done.
  - by rewrite fmap_app, Ho, seq_S, map_app.
  - by rewrite fmap_app, Hr, seq_S, map_app.
Qed.

Lemma dense_imap {A} (l : list (nat * A)) : ∀ k,
  l.*1 = seq k (length l) → l = imap (λ i v, (k + i, v)) l.*2.
Proof.
  induction l as [|[j v] l IH]; intros k; cbn; [done|]. intros [= -> Hl].
  rewrite Nat.add_0_r. f_equal. rewrite (IH (S k) Hl) at 1.
  apply imap_ext. intros. cbn. f_equal. lia.
Qed.

Lemma imap_keys {A B} (f : nat → string) (g : nat → A → B) (l : list A) (k : nat) :
  (imap (λ i v, (f (k + i), g i v)) l).*1 = map f (seq k (length l)).
Proof.
  rewrite fmap_imap. change (map f (seq k (length l))) with (f <$> seq k (length l)).
  rewrite <-(imap_seq l f). by apply imap_ext.
Qed.

Lemma map_get_app_l {V} (m m' : list (string * V)) k v :
  map_get m k = Some v → map_get (m ++ m') k = Some v.
Proof. induction m as [|[j w] m IH]; cbn; [done|]. by destruct (String.eqb k j). Qed.

(** ** References before and after *)

(** The entry a reference stands for while a plan is being compiled. *)
Definition meaning (table : object) (static : string) (vs : list value) (i : string)
    : option value :=
  match map_get table i with Some v => Some v | None => map_get (statics static vs) i end.

Section remap.
Context (letter static : string) (table : object) (vs : list value).
Context (Htable : table.*1 = map (numbered letter) (seq 0 (length table))).
Context (Hsep : ∀ i, startsWith (numbered letter i) static = false).

#[local] Abbreviation n := (length table).
#[local] Abbreviation table' := (table ++ fresh_entries letter n vs).

Lemma new_table_keys : table'.*1 = map (numbered letter) (seq 0 (length table')).
Proof.
  rewrite fmap_app, Htable, length_app, seq_app, map_app. f_equal.
  unfold fresh_entries. rewrite (imap_keys _ (λ _ v, v)). by rewrite length_imap.
Qed.

(** A reference keeps its meaning. *)
Lemma remap_meaning i v :
  meaning table static vs i = Some v →
  map_get table' (remap_ref static (fresh_ids letter static n vs) i) = Some v.
Proof using Htable Hsep.
  unfold meaning, remap_ref. destruct (map_get table i) as [w|] eqn:Hi.
  - intros [= ->]. assert (i ∈ table.*1) as Hin.
    { by apply (list_elem_of_fmap_2 fst _ (i, v)), map_get_Some_elem_of. }
    rewrite Htable in Hin. apply list_elem_of_fmap in Hin as (j & -> & _).
    rewrite Hsep. by apply map_get_app_l.
  - intros Hs. apply map_get_Some_elem_of in Hs. unfold statics in Hs.
    apply elem_of_lookup_imap in Hs as (j & w & [= -> ->] & Hj).
    unfold numbered at 1. rewrite startsWith_app.
    assert (map_get (fresh_ids letter static n vs) (numbered static j)
      = Some (numbered letter (n + j))) as ->.
    { apply elem_of_map_get.
      - unfold fresh_ids. rewrite (imap_keys (numbered static) _ vs 0).
        apply NoDup_fmap_2; [apply _|apply NoDup_seq].
      - apply elem_of_lookup_imap. by exists j, w. }
    cbn [default]. apply elem_of_map_get.
    + rewrite new_table_keys. apply NoDup_fmap_2; [apply _|apply NoDup_seq].
    + apply elem_of_app. right. apply elem_of_lookup_imap. by exists j, w.
Qed.

(** A reference without meaning stays. *)
Lemma remap_dangling i :
  meaning table static vs i = None → remap_ref static (fresh_ids letter static n vs) i = i.
Proof using.
  clear Htable Hsep. unfold meaning, remap_ref. destruct (map_get table i); [done|].
  rewrite map_get_None. intros Hi. case_match; [|done].
  assert (map_get (fresh_ids letter static n vs) i = None) as ->; [|done].
  apply map_get_None. intros Hin. apply Hi. revert Hin.
  assert ((fresh_ids letter static n vs).*1 = (statics static vs).*1) as ->; [|done].
  etransitivity; [apply (imap_keys (numbered static) _ vs 0)|symmetry].
  apply (imap_keys (numbered static) (λ _ v, v) vs 0).
Qed.
End remap.

(** ** The artifact after a merge *)

(** Distinct names, in order of creation. *)
Definition plain_names (o : object) : Prop :=
  NoDup o.*1 ∧ Forall (λ kv, array_index kv.1 = None) o.

Lemma plain_names_define o k v :
  array_index k = None → plain_names o → plain_names (obj_define o k v).
Proof.
  intros Hk [Hnd Hf]. unfold obj_define. destruct (map_has o k) eqn:Hh.
  - split; [by apply map_set_NoDup|]. apply Forall_forall. intros [j w] Hj. cbn.
    apply (list_elem_of_fmap_2 fst) in Hj; cbn in Hj; apply map_set_keys in Hj as [Hj| ->]; [|done].
    apply list_elem_of_fmap in Hj as (kv & -> & Hkv). by rewrite Forall_forall in Hf; apply Hf.
  - rewrite Hk. apply map_has_false in Hh. split.
    + rewrite fmap_app. apply NoDup_app. split_and!; [done| |apply NoDup_singleton].
      by intros j Hj ->%list_elem_of_singleton.
    + apply Forall_app. by repeat constructor.
Qed.

Definition table_value (v : value) (t : object) : Prop := v = VUndefined ∧ t = [] ∨ v = VObject t.

Lemma merge_spec table_name param letter static o t l vs :
  plain_letter letter → array_index table_name = None →
  plain_names o → table_value (own_get o table_name) t →
  t.*1 = map (numbered letter) (seq 0 (length t)) →
  own_get o "nodes" = VArray l →
  ∃ o', merge table_name param letter static (VObject o) (imap (λ i v, (i, v)) vs) = Ok (VObject o') ∧
    plain_names o' ∧
    ∀ k, map_get o' k =
      if String.eqb k "nodes"
      then Some (VArray (map (remap_node param static (fresh_ids letter static (length t) vs)) l))
      else if String.eqb k table_name then Some (VObject (t ++ fresh_entries letter (length t) vs))
      else map_get o k.
Proof.
  intros Hl Hname Ho Ht Hkeys Hn. unfold merge.
  assert (∃ u, get_prop (VObject o) table_name = Ok u ∧ nullish u (VObject []) = VObject t)
    as (u & Hu & Hnull).
  { exists (own_get o table_name). split; [done|]. by destruct Ht as [[-> ->]| ->]. }
  rewrite Hu. cbn [mbind result_bind]. rewrite Hnull.
  assert (keys (VObject t) = Ok t.*1) as -> by done. cbn [mbind result_bind].
  change (imap (λ i v, (i, v)) vs) with (imap (λ i v, (0 + i, v)) vs).
  rewrite length_fmap, (add_entries_spec letter static vs (length t) 0 t []) by done.
  cbn [get_prop entries app]. rewrite Hn. cbn [mbind result_bind].
  rewrite from_entries_names by apply Ho.
  eexists. split; [done|].
  assert (plain_names (obj_define o table_name (VObject (t ++ fresh_entries letter (length t) vs))))
    by by apply plain_names_define.
  split; [by apply plain_names_define|]. intros k. by rewrite !map_get_define.
Qed.

(** ** The nodes after a merge *)

Definition set_param (param : string) (f : string → string) (n : PlanNode) : PlanNode :=
  match own_get (params n) param with
  | VString i =>
      {| node_id := node_id n; op := op n; inputs := inputs n;
         params := map_set (params n) param (VString (f i)); extensions := extensions n |}
  | _ => n
  end.

Lemma inherited_no_string k i : inherited k ≠ VString i.
Proof. unfold inherited. by repeat case_goal. Qed.

Lemma own_get_string o k i : own_get o k = VString i → map_get o k = Some (VString i).
Proof.
  unfold own_get. destruct (map_get o k); [by intros ->|]. by intros ?%inherited_no_string.
Qed.

Lemma map_set_same {V} (m : list (string * V)) k v : map_get m k = Some v → map_set m k v = m.
Proof.
  induction m as [|[j w] m IH]; cbn; [done|]. destruct (String.eqb k j); [by intros [= ->]|].
  intros H. by rewrite IH.
Qed.

Lemma obj_assign_own o k v w : map_get o k = Some w → obj_assign o k v = map_set o k v.
Proof.
  intros H. unfold obj_assign, obj_define.
  assert (map_has o k = true) as -> by by apply bool_decide_eq_true; exists w. done.
Qed.

Lemma remap_node_value param static remap n :
  remap_node param static remap (node_value n) =
  node_value (set_param param (remap_ref static remap) n).
Proof.
  unfold remap_node, node_value at 1, set_param.
  change (own_get _ "params") with (VObject (params n)). cbn beta iota.
  destruct (own_get (params n) param) as [| | | |i| | | | | |] eqn:Hi; try done.
  apply own_get_string in Hi. destruct (String.eqb_spec (remap_ref static remap i) i) as [->|].
  - rewrite (map_set_same _ _ _ Hi). by destruct n.
  - rewrite (obj_assign_own _ _ _ _ Hi). rewrite (obj_assign_own _ "params" _ (VObject (params n))) by done.
    done.
Qed.

Lemma set_param_get param f n k :
  map_get (params (set_param param f n)) k =
  match own_get (params n) param with
  | VString i => if String.eqb k param then Some (VString (f i)) else map_get (params n) k
  | _ => map_get (params n) k
  end.
Proof.
  unfold set_param. destruct (own_get (params n) param) as [| | | |i| | | | | |]; try done.
  cbn [params]. destruct (String.eqb_spec k param) as [->|].
  - apply map_get_set_eq.
  - by apply map_get_set_ne.
Qed.

Lemma set_param_id param n : set_param param id n = n.
Proof.
  unfold set_param. destruct (own_get (params n) param) eqn:Hi; try done.
  apply own_get_string in Hi. unfold id. rewrite (map_set_same _ _ _ Hi). by destruct n.
Qed.

(** One of the two merges of [finish_artifact], which skips it for want of entries. *)
Lemma merge_step table_name param letter static o t ns vs :
  plain_letter letter → (∀ i, startsWith (numbered letter i) static = false) →
  array_index table_name = None → table_name ≠ "nodes" →
  plain_names o → table_value (own_get o table_name) t →
  t.*1 = map (numbered letter) (seq 0 (length t)) →
  own_get o "nodes" = VArray (map node_value ns) →
  ∃ o' t' f,
    match vs with
    | [] => Ok (VObject o)
    | _ => merge table_name param letter static (VObject o) (imap (λ i v, (i, v)) vs)
    end = Ok (VObject o') ∧
    plain_names o' ∧ table_value (own_get o' table_name) t' ∧
    own_get o' "nodes" = VArray (map node_value (map (set_param param f) ns)) ∧
    (∀ k, k ≠ "nodes" → k ≠ table_name → own_get o' k = own_get o k) ∧
    (∀ i, match meaning t static vs i with Some v => map_get t' (f i) = Some v | None => f i = i end).
Proof.
  intros Hl Hsep Hname Hne Ho Ht Hkeys Hn. destruct vs as [|v vs].
  - exists o, t, id. split_and!; try done.
    + rewrite Hn, (map_ext (set_param param id) id) by apply set_param_id. by rewrite map_id.
    + intros i. unfold meaning, statics. cbn. by destruct (map_get t i).
  - destruct (merge_spec table_name param letter static o t (map node_value ns) (v :: vs)
      Hl Hname Ho Ht Hkeys Hn) as (o' & -> & Ho' & Hget).
    exists o', (t ++ fresh_entries letter (length t) (v :: vs)),
      (remap_ref static (fresh_ids letter static (length t) (v :: vs))).
    split_and!; try done.
    + right. unfold own_get. rewrite Hget, (proj2 (String.eqb_neq _ _) Hne).
      by rewrite String.eqb_refl.
    + unfold own_get. rewrite Hget, String.eqb_refl, !map_map. f_equal.
      apply map_ext. intros n. apply remap_node_value.
    + intros k Hk Hk'. unfold own_get. rewrite Hget.
      by rewrite (proj2 (String.eqb_neq _ _) Hk), (proj2 (String.eqb_neq _ _) Hk').
    + intros i. destruct (meaning t static (v :: vs) i) as [w|] eqn:Hi.
      * by apply remap_meaning.
      * by apply remap_dangling.
Qed.

(** ** The merged artifact of a plan *)

(** [artifact.expr_table?.[i]] *)
Definition entry (a : value) (table_name i : string) : option value :=
  match get_prop a table_name with Ok (VObject t) => map_get t i | _ => None end.

Lemma entry_table o table_name t i :
  table_value (own_get o table_name) t → entry (VObject o) table_name i = map_get t i.
Proof. unfold entry. cbn [get_prop]. by intros [[-> ->]| ->]. Qed.

(** What a node keeps when references [i] are replaced by [j] with the same meaning. *)
Record node_kept (a : value) (meaning_e meaning_p : string → option value) (n n' : PlanNode)
    : Prop := {
  kept_fields : node_id n' = node_id n ∧ op n' = op n ∧ inputs n' = inputs n ∧
    extensions n' = extensions n;
  kept_params : ∀ k, k ≠ "expr_id" → k ≠ "pred_id" → map_get (params n') k = map_get (params n) k;
  kept_expr : ∀ i, own_get (params n) "expr_id" = VString i →
    ∃ j, own_get (params n') "expr_id" = VString j ∧
      match meaning_e i with Some v => entry a "expr_table" j = Some v | None => j = i end;
  kept_pred : ∀ i, own_get (params n) "pred_id" = VString i →
    ∃ j, own_get (params n') "pred_id" = VString j ∧
      match meaning_p i with Some v => entry a "pred_table" j = Some v | None => j = i end;
}.

Lemma set_param_own param f n k :
  own_get (params (set_param param f n)) k =
  match own_get (params n) param with
  | VString i => if String.eqb k param then VString (f i) else own_get (params n) k
  | _ => own_get (params n) k
  end.
Proof.
  unfold own_get at 1. rewrite set_param_get.
  destruct (own_get (params n) param); try done. by destruct (String.eqb k param).
Qed.

Lemma set_params_kept a f g (me mp : string → option value) n :
  (∀ i, match me i with Some v => entry a "expr_table" (f i) = Some v | None => f i = i end) →
  (∀ i, match mp i with Some v => entry a "pred_table" (g i) = Some v | None => g i = i end) →
  node_kept a me mp n (set_param "pred_id" g (set_param "expr_id" f n)).
Proof.
  intros Hf Hg. split.
  - unfold set_param. by repeat (case_goal; cbn [node_id op inputs extensions params] in * ).
  - intros k He Hp. rewrite !set_param_get.
    apply String.eqb_neq in He as ->. apply String.eqb_neq in Hp as ->. by repeat case_match.
  - intros i Hi. exists (f i). rewrite !set_param_own, Hi. cbn.
    split; [by repeat case_match|apply Hf].
  - intros i Hi. exists (g i). rewrite set_param_own.
    assert (own_get (params (set_param "expr_id" f n)) "pred_id" = VString i) as ->.
    { rewrite set_param_own. cbn. by repeat case_match. }
    split; [done|apply Hg].
Qed.

Lemma numbered_plain letter t :
  plain_letter letter → t.*1 = map (numbered letter) (seq 0 (length t)) → plain_names t.
Proof.
  intros Hl Ht. split.
  - rewrite Ht. apply NoDup_fmap_2; [apply _|apply NoDup_seq].
  - apply Forall_forall. intros [k v] Hk%(list_elem_of_fmap_2 fst). cbn in Hk |- *.
    rewrite Ht in Hk. apply list_elem_of_fmap in Hk as (i & -> & _). apply Hl.
Qed.

Lemma numbered_table letter t :
  plain_letter letter → t.*1 = map (numbered letter) (seq 0 (length t)) →
  table_value (match t with [] => VUndefined | _ => VObject (from_entries t) end) t.
Proof.
  intros Hl Ht. pose proof (numbered_plain letter t Hl Ht) as [Hnd Hf].
  rewrite from_entries_names by done. destruct t; [by left|by right].
Qed.

Lemma finalize_names s out name :
  ∃ o, finalize s out name = VObject o ∧ plain_names o.
Proof.
  eexists. split; [done|].
  destruct (exprTable s), (predTable s), (capabilitiesRequired s), (planExtensions s).
  all: split; [apply (bool_decide_unpack _); by vm_compute|by repeat constructor].
Qed.

Lemma extracted_values {A B} (f : A → value) (l : list (nat * A)) (r : B)
    (g : list (nat * value) → B) :
  l.*1 = seq 0 (length l) →
  match l with [] => r | _ => g (map (λ x, (x.1, f x.2)) l) end =
  match map (f ∘ snd) l with [] => r | _ => g (imap (λ i v, (i, v)) (map (f ∘ snd) l)) end.
Proof.
  intros Hl.
  assert (map (λ x, (x.1, f x.2)) l = imap (λ i v, (i, v)) (map (f ∘ snd) l)) as ->; [|by destruct l].
  transitivity (imap (λ i v, (0 + i, v)) (map (λ x, (x.1, f x.2)) l).*2).
  - apply dense_imap. rewrite length_map, <-Hl.
    change (fst <$> map (λ x, (x.1, f x.2)) l) with (map fst (map (λ x, (x.1, f x.2)) l)).
    by rewrite map_map.
  - change (snd <$> ?x) with (map snd x). by rewrite map_map.
Qed.

(** The tables as [addExpr] and [addPred] number them. *)
Definition tables_numbered (s : PlanCtx) : Prop :=
  (exprTable s).*1 = map expr_num (seq 0 (length (exprTable s))) ∧
  (predTable s).*1 = map pred_num (seq 0 (length (predTable s))).

Lemma plan_tables s : plan_ok s → tables_numbered s.
Proof. intros Hok. split; [by apply ok_exprs|by apply ok_preds]. Qed.

Lemma finish_plan s out name file exprs preds :
  tables_numbered s →
  exprs.*1 = seq 0 (length exprs) → preds.*1 = seq 0 (length preds) →
  let artifact := finalize s out name in
  validateArtifact artifact file = Ok tt →
  ∃ a ns, finish_artifact artifact file exprs preds = Ok a ∧
    get_prop a "nodes" = Ok (VArray (map node_value ns)) ∧
    Forall2 (node_kept a (meaning (exprTable s) "__static_e" (map (expr_value ∘ snd) exprs))
      (meaning (predTable s) "__static_p" (map (pred_value ∘ snd) preds))) (nodes s) ns ∧
    (∀ k, k ∉ ["nodes"; "expr_table"; "pred_table"] → get_prop a k = get_prop artifact k).
Proof.
  intros [Hse Hsp] Hx Hp artifact Hv.
  destruct (finalize_get s out name) as (_ & _ & _ & Hn & _ & Het & Hpt & _).
  destruct (finalize_names s out name) as (o & Ho & Hplain).
  subst artifact. rewrite Ho in Hn, Het, Hpt, Hv |- *. cbn [get_prop] in Hn, Het, Hpt.
  injection Hn as Hn. injection Het as Het. injection Hpt as Hpt.
  pose proof (numbered_table "e" _ plain_e Hse) as He1.
  pose proof (numbered_table "p" _ plain_p Hsp) as Hp1.
  rewrite <-Het in He1. rewrite <-Hpt in Hp1.
  destruct (merge_step "expr_table" "expr_id" "e" "__static_e" o (exprTable s) (nodes s)
    (map (expr_value ∘ snd) exprs)) as (o1 & t1 & f & Hm1 & Ho1 & Ht1 & Hn1 & Hk1 & Hf);
    try done.
  destruct (merge_step "pred_table" "pred_id" "p" "__static_p" o1 (predTable s)
    (map (set_param "expr_id" f) (nodes s)) (map (pred_value ∘ snd) preds))
    as (o2 & t2 & g & Hm2 & Ho2 & Ht2 & Hn2 & Hk2 & Hg);
    try done; [by rewrite Hk1|].
  exists (VObject o2), (map (set_param "pred_id" g) (map (set_param "expr_id" f) (nodes s))).
  split_and!.
  - unfold finish_artifact, mergeExtractedExprs, mergeExtractedPreds.
    rewrite Hv, (extracted_values expr_value exprs) by done.
    cbn [mbind result_bind]. rewrite Hm1. cbn [mbind result_bind].
    by rewrite (extracted_values pred_value preds).
  - cbn [get_prop]. by rewrite Hn2.
  - rewrite map_map. apply Forall2_fmap_r, Forall_Forall2_diag, Forall_forall. intros n _.
    apply set_params_kept; intros i.
    + specialize (Hf i). destruct (meaning (exprTable s) _ _ i); [|done].
      rewrite (entry_table _ _ t1); [done|]. by rewrite Hk2.
    + specialize (Hg i). destruct (meaning (predTable s) _ _ i); [|done].
      by rewrite (entry_table _ _ t2).
  - intros k Hk. cbn [get_prop]. rewrite Hk2, Hk1; [done|set_solver..].
Qed.

(** C4: the last steps of a compilation, on the artifact of a plan and the entries
    extracted from its source, succeed on a valid artifact and change references only:
    a node keeps its id, operator, inputs, extensions and other parameters, and the
    entry its expression or predicate reference stood for, in the plan's table or among
    the extracted entries, is the one the reference it ends up with has in the merged
    tables.  A reference without an entry stays as it is, and so does the rest of the
    artifact. *)
Theorem finish_artifact_resolves createSourceFile SyntaxKind getLine source fileName
    id s out name file :
  let r := extractExpressions createSourceFile SyntaxKind getLine source fileName in
  let artifact := finalize s out name in
  reachable id s → validateArtifact artifact file = Ok tt →
  ∃ a ns, finish_artifact artifact file (extractedExprs r) (extractedPreds r) = Ok a ∧
    get_prop a "nodes" = Ok (VArray (map node_value ns)) ∧
    Forall2 (node_kept a
      (meaning (exprTable s) "__static_e" (map (expr_value ∘ snd) (extractedExprs r)))
      (meaning (predTable s) "__static_p" (map (pred_value ∘ snd) (extractedPreds r))))
      (nodes s) ns ∧
    (∀ k, k ∉ ["nodes"; "expr_table"; "pred_table"] → get_prop a k = get_prop artifact k).
Proof.
  intros r artifact Hs Hv. 
  destruct (extractExpressions_dense createSourceFile SyntaxKind getLine source fileName).
  apply finish_plan; [by eapply plan_tables, reachable_ok|done..].
Qed.

(** The plan of the sample source: a viewer, a [vm] with a built expression and one whose
    expression is in the source. *)
Definition vm_opts (expr : value) : value :=
  VObject [("outKey", VObject [("id", VNumber (num 2001))]); ("expr", expr)].
Definition natural_calls : list api_call :=
  [ Viewer (VObject [ep "ep_0001"]);
    Method Vm "n0" (vm_opts (expr_value const_null));
    Method Vm "n1" (vm_opts (VObject [("__expr_id", VNumber (num 0))])) ].
Definition natural_ctx : PlanCtx := run_all natural_calls (new_ctx 7).

Lemma natural_reachable : reachable 7 natural_ctx.
Proof.
  apply run_all_reachable; [constructor|]. unfold natural_calls. cbn [calls_ok call_ok].
  split_and!; try done.
  all: try (unfold plan_resolves, ref_resolves; apply (bool_decide_unpack _); by vm_compute).
  all: intros rhs [= <-]; by apply genuine_no_ctx.
Qed.

Definition natural_artifact : value := finalize natural_ctx (VString "n2") (VString "p").

Example natural_merged :
  (a ← finish_artifact natural_artifact "p.plan.ts" (extractedExprs sample_result) [];
   get_prop a "expr_table")
  = Ok (VObject [("e0", expr_value const_null); ("e1", expr_value (key_ref (num 1)))]).
Proof. by vm_compute. Qed.

Lemma finish_artifact_resolves_witness :
  ∃ a ns, finish_artifact natural_artifact "p.plan.ts" (extractedExprs sample_result)
      (extractedPreds sample_result) = Ok a ∧
    get_prop a "nodes" = Ok (VArray (map node_value ns)) ∧
    ∀ n, ns !! 2 = Some n →
      ∃ j, own_get (params n) "expr_id" = VString j ∧
        entry a "expr_table" j = Some (expr_value (key_ref (num 1))).
Proof.
  destruct (finish_artifact_resolves sample_tree (λ k, k) (λ _ p, (0, p)) sample_source "p"
    7 natural_ctx (VString "n2") (VString "p") "p.plan.ts") as (a & ns & Ha & Hns & Hk & _).
  - exact natural_reachable.
  - by vm_compute.
  - exists a, ns. split; [exact Ha|]. split; [exact Hns|]. intros n Hn.
    destruct (Forall2_lookup_r _ _ _ _ _ Hk Hn) as (m & Hm & Hmn).
    vm_compute in Hm. injection Hm as <-.
    exact (kept_expr _ _ _ _ _ Hmn "__static_e0" eq_refl).
Defined.

(** A placeholder nothing was extracted for goes to the artifact as it is. *)
Example leftover_placeholder :
  (a ← finish_artifact natural_artifact "p.plan.ts" [] [];
   ns ← get_prop a "nodes"; n ← get_prop ns "2"; ps ← get_prop n "params";
   get_prop ps "expr_id") = Ok (VString "__static_e0").
Proof. by vm_compute. Qed.

(** ** What a compilation writes *)

Lemma check_name_Ok planName file :
  check_name planName file = Ok tt ↔
  planName = expected_name file ∧ isValidPlanName planName = true.
Proof.
  unfold check_name. rewrite bind_Ok_unit, !throw_if_Ok, !negb_false_iff, String.eqb_eq. done.
Qed.

Lemma finish_artifact_valid artifact file exprs preds a :
  finish_artifact artifact file exprs preds = Ok a → artifact_ok artifact.
Proof. unfold finish_artifact. rewrite bind_Ok_unit. by intros [?%validateArtifact_iff _]. Qed.

(** The output's name alone. *)
Lemma compilePlan_name createSourceFile SyntaxKind getLine bundle execute sha256 version
    source file out text :
  compilePlan createSourceFile SyntaxKind getLine bundle execute sha256 version source file
    = Ok (out, text) →
  isValidPlanName (expected_name file) = true ∧ out = expected_name file +:+ ".plan.json".
Proof.
  unfold compilePlan. intros [_ H]%bind_Ok_unit.
  apply bind_Ok in H as (code & _ & H). apply bind_Ok in H as (artifact & _ & H).
  apply bind_Ok in H as (a & _ & H). apply bind_Ok in H as (name & _ & H).
  apply bind_Ok in H as (planName & _ & H).
  rewrite bind_Ok_unit, check_name_Ok in H. destruct H as [[-> Hvalid] H].
  apply bind_Ok in H as (es & _ & H). destruct (stableStringify _ 2) as [json|]; [|done].
  by injection H as <- <-.
Qed.

(** The steps of a compilation that wrote. *)
Lemma compilePlan_steps createSourceFile SyntaxKind getLine bundle execute sha256 version
    source file out text :
  compilePlan createSourceFile SyntaxKind getLine bundle execute sha256 version source file
    = Ok (out, text) →
  let r := extractExpressions createSourceFile SyntaxKind getLine source file in
  errors r = [] ∧
  out = expected_name file +:+ ".plan.json" ∧ isValidPlanName (expected_name file) = true ∧
  ∃ code artifact a es json,
    bundle (match extractedExprs r, extractedPreds r with
            | [], [] => None | _, _ => Some (rewrittenSource r) end) = Ok code ∧
    execute code = Ok artifact ∧ artifact_ok artifact ∧
    (v ← get_prop artifact "plan_name"; template v) = Ok (expected_name file) ∧
    finish_artifact artifact file (extractedExprs r) (extractedPreds r) = Ok a ∧
    entries a = Ok es ∧
    stableStringify (VObject (obj_define (from_entries es) "built_by"
      (built_by sha256 version code))) 2 = Some json ∧
    text = json +:+ newline.
Proof.
  intros H r. unfold compilePlan in H. fold r in H.
  rewrite bind_Ok_unit, throw_if_Ok, negb_false_iff, bool_decide_eq_true in H.
  destruct H as [He H]. split; [done|].
  apply bind_Ok in H as (code & Hcode & H). apply bind_Ok in H as (artifact & Hart & H).
  apply bind_Ok in H as (a & Ha & H). apply bind_Ok in H as (name & Hname & H).
  apply bind_Ok in H as (planName & Hplan & H).
  rewrite bind_Ok_unit, check_name_Ok in H. destruct H as [[-> Hvalid] H].
  apply bind_Ok in H as (es & Hes & H). destruct (stableStringify _ 2) as [json|] eqn:Hj; [|done].
  injection H as <- <-. split; [done|]. split; [done|].
  exists code, artifact, a, es, json. split_and!; try done.
  - rewrite <-Hcode. f_equal. by destruct (extractedExprs r), (extractedPreds r).
  - by apply finish_artifact_valid in Ha.
  - rewrite Hname. done.
Qed.

(** [compilePlan] writes only when the extraction reports no error, the sandbox's
    artifact is valid and its plan is named after the file with letters, digits and
    underscores, so that the output's name is the plan's; the bundler sees the rewritten
    source exactly when something was extracted, and the text is the stable
    serialization of the merged artifact with the compiler's provenance. *)
Theorem compilePlan_writes createSourceFile SyntaxKind getLine bundle execute sha256 version
    source file out text :
  compilePlan createSourceFile SyntaxKind getLine bundle execute sha256 version source file
    = Ok (out, text) →
  let r := extractExpressions createSourceFile SyntaxKind getLine source file in
  errors r = [] ∧
  out = expected_name file +:+ ".plan.json" ∧ isValidPlanName (expected_name file) = true ∧
  ∃ code artifact a es json,
    bundle (match extractedExprs r, extractedPreds r with
            | [], [] => None | _, _ => Some (rewrittenSource r) end) = Ok code ∧
    execute code = Ok artifact ∧ artifact_ok artifact ∧
    (v ← get_prop artifact "plan_name"; template v) = Ok (expected_name file) ∧
    finish_artifact artifact file (extractedExprs r) (extractedPreds r) = Ok a ∧
    entries a = Ok es ∧
    stableStringify (VObject (obj_define (from_entries es) "built_by"
      (built_by sha256 version code))) 2 = Some json ∧
    text = json +:+ newline.
Proof. apply compilePlan_steps. Qed.

Definition sample_compilation : result (string * string) :=
  compilePlan sample_tree (λ k, k) (λ _ p, (0, p)) (λ _, Ok "code") (λ _, Ok natural_artifact)
    (λ s, s) "1" sample_source "p.plan.ts".
Definition sample_text : string :=
  match sample_compilation with Ok (_, text) => text | Throw _ => EmptyString end.

Lemma compilePlan_writes_witness :
  sample_compilation = Ok ("p.plan.json", sample_text) ∧
  "p.plan.json" = expected_name "p.plan.ts" +:+ ".plan.json".
Proof.
  assert (sample_compilation = Ok ("p.plan.json", sample_text)) as H by by vm_compute.
  split; [exact H|].
  apply (compilePlan_writes sample_tree (λ k, k) (λ _ p, (0, p)) (λ _, Ok "code")
    (λ _, Ok natural_artifact) (λ s, s) "1" sample_source "p.plan.ts" "p.plan.json" sample_text).
  exact H.
Defined.
