(* ===== verification/Registry.v ===== *)
(** * Registry: the registries of keys, parameters, features and validation rules
    (dsl/src/codegen/types.ts and parsers.ts)

    The functions take what the TOML parser made of the file (a parameter of the model:
    reading files and parsing TOML is not under the sources); tables are objects. *)

From S2P Require Import Prelude Collections JsNumber JsValue.

(** ** types.ts *)

Definition KEY_TYPES : list string := ["int"; "float"; "string"; "bool"; "feature_bundle"].
Definition PARAM_TYPES : list string := ["int"; "float"; "string"; "bool"].
Definition FEATURE_TYPES : list string := ["int"; "float"; "string"; "bool"].
Definition STATUSES : list string := ["active"; "deprecated"; "blocked"].

(** [typeof v === "string" && l.includes(v)] *)
Definition one_of (l : list string) (v : value) : bool :=
  match v with VString s => string_elem l s | _ => false end.

Definition isKeyType : value → bool := one_of KEY_TYPES.
Definition isParamType : value → bool := one_of PARAM_TYPES.
Definition isFeatureType : value → bool := one_of FEATURE_TYPES.
Definition isStatus : value → bool := one_of STATUSES.

(** A value known to be a string. *)
Definition text (v : value) : string := match v with VString s => s | _ => EmptyString end.

Definition assertString (v : value) (field : string) : result string :=
  match v with VString s => Ok s | _ => Throw (Error (field +:+ " must be a string")) end.
Definition assertNumber (v : value) (field : string) : result number :=
  match v with VNumber n => Ok n | _ => Throw (Error (field +:+ " must be a number")) end.
Definition assertInteger (v : value) (field : string) : result number :=
  match v with
  | VNumber n =>
      if isInteger n then Ok n else Throw (Error (field +:+ " must be an integer"))
  | _ => Throw (Error (field +:+ " must be an integer"))
  end.
Definition assertBoolean (v : value) (field : string) : result bool :=
  match v with VBool b => Ok b | _ => Throw (Error (field +:+ " must be a boolean")) end.

(** ** Fields *)

(** [assert(r[k], k)] *)
Definition field {A} (assertion : value → string → result A) (r : value) (k : string) : result A :=
  v ← get_prop r k; assertion v k.

(** [r[k] !== undefined ? assert(r[k], k) : d] *)
Definition field_or {A} (assertion : value → string → result A) (r : value) (k : string) (d : A)
    : result A :=
  v ← get_prop r k; if is_undefined v then Ok d else assertion v k.

(** [throw new Error(`${prefix}${v}`)] *)
Definition throw_value {A} (prefix : string) (v : value) : result A :=
  t ← template v; Throw (Error (prefix +:+ t)).

Definition typed (is_type : value → bool) (invalid : string) (r : value) : result string :=
  v ← get_prop r "type"; if is_type v then Ok (text v) else throw_value invalid v.

Definition status_of (invalid : value → result string) (r : value) : result string :=
  v ← get_prop r "status";
  if is_undefined v then Ok "active" else if isStatus v then Ok (text v) else invalid v.

(** The array of tables [obj[k]]. *)
Definition table_array (parsed : value) (invalid expected k : string) : result (list value) :=
  throw_if (negb (is_object parsed)) invalid ;;
  v ← get_prop parsed k;
  match v with VArray l => Ok l | _ => Throw (Error expected) end.

(** ** Keys *)

Record KeyEntry := {
  key_id : number; key_name : string; key_type : string; key_nullable : bool; key_doc : string;
  key_status : string; key_allow_read : bool; key_allow_write : bool;
  key_replaced_by : option number;
  (* a number, a string or a boolean, or null *)
  key_default : value;
}.

Definition default_value (name : string) (r : value) : result value :=
  d ← get_prop r "default";
  match d with
  | VUndefined => Ok VNull
  | VNumber _ | VString _ | VBool _ => Ok d
  | _ => Throw (Error ("Invalid default value for key " +:+ name))
  end.

Definition optional_number (r : value) (k : string) : result (option number) :=
  field_or (λ v f, Some <$> assertNumber v f) r k None.

(** The fields of an entry, up to its default value. *)
Definition read_key (r : value) : result KeyEntry :=
  throw_if (negb (is_object r)) "Invalid key entry" ;;
  key_id ← field assertNumber r "key_id";
  name ← field assertString r "name";
  type ← typed isKeyType "Invalid key type: " r;
  nullable ← field assertBoolean r "nullable";
  doc ← field assertString r "doc";
  status ← status_of (throw_value "Invalid status: ") r;
  allow_read ← field_or assertBoolean r "allow_read" true;
  allow_write ← field_or assertBoolean r "allow_write" (String.eqb status "active");
  replaced_by ← optional_number r "replaced_by";
  default ← default_value name r;
  Ok {| key_id := key_id; key_name := name; key_type := type; key_nullable := nullable;
        key_doc := doc; key_status := status; key_allow_read := allow_read;
        key_allow_write := allow_write; key_replaced_by := replaced_by; key_default := default |}.

(** The rules of [Key.id] and of the others. *)
Definition key_rules (e : KeyEntry) : result unit :=
  if String.eqb (key_name e) "id" then
    throw_if (negb (num_eqb (key_id e) (num 1))) "Key.id must have key_id=1" ;;
    throw_if (negb (String.eqb (key_type e) "int")) "Key.id must be type int" ;;
    throw_if (key_nullable e) "Key.id must be nullable=false" ;;
    throw_if (key_allow_write e) "Key.id must have allow_write=false"
  else
    throw_if (negb (key_nullable e) && is_null (key_default e))
      ("Key " +:+ key_name e +:+ " is non-nullable and must have a default value").

(** What the loops carry: the entries, [seenIds] and [seenNames]. *)
Definition seen (E I : Type) : Type := list E * list I * list string.

Definition key_step (s : seen KeyEntry number) (raw : value) : result (seen KeyEntry number) :=
  let '(entries, seenIds, seenNames) := s in
  e ← read_key raw;
  throw_if (num_set_has seenIds (key_id e)) ("Duplicate key_id: " +:+ num_to_string (key_id e)) ;;
  throw_if (string_set_has seenNames (key_name e)) ("Duplicate key name: " +:+ key_name e) ;;
  key_rules e ;;
  Ok (entries ++ [e], num_set_add seenIds (key_id e), string_set_add seenNames (key_name e)).

(** [(a, b) => a.key_id - b.key_id] *)
Definition parseKeys (parsed : value) : result (list KeyEntry) :=
  l ← table_array parsed "Invalid TOML structure" "Expected [[key]] array in keys.toml" "key";
  '(entries, _, _) ← fold_result key_step ([], [], []) l;
  throw_if (negb (existsb (λ k, String.eqb (key_name k) "id") entries))
    "Key.id must exist in keys.toml" ;;
  Ok (js_sort (cmp_on num_cmp key_id) entries).

(** ** Parameters *)

Record ParamEntry := {
  param_id : number; param_name : string; param_type : string; param_nullable : bool;
  param_doc : string; param_status : string; param_allow_read : bool; param_allow_write : bool;
  param_replaced_by : option number;
}.

Definition read_param (r : value) : result ParamEntry :=
  throw_if (negb (is_object r)) "Invalid param entry" ;;
  param_id ← field assertNumber r "param_id";
  name ← field assertString r "name";
  type ← typed isParamType "Invalid param type: " r;
  nullable ← field assertBoolean r "nullable";
  doc ← field assertString r "doc";
  status ← status_of (λ _, Throw (Error "Invalid status")) r;
  allow_read ← field_or assertBoolean r "allow_read" true;
  allow_write ← field_or assertBoolean r "allow_write" (String.eqb status "active");
  replaced_by ← optional_number r "replaced_by";
  Ok {| param_id := param_id; param_name := name; param_type := type; param_nullable := nullable;
        param_doc := doc; param_status := status; param_allow_read := allow_read;
        param_allow_write := allow_write; param_replaced_by := replaced_by |}.

Definition param_step (s : seen ParamEntry number) (raw : value)
    : result (seen ParamEntry number) :=
  let '(entries, seenIds, seenNames) := s in
  e ← read_param raw;
  throw_if (num_set_has seenIds (param_id e))
    ("Duplicate param_id: " +:+ num_to_string (param_id e)) ;;
  throw_if (string_set_has seenNames (param_name e)) ("Duplicate param name: " +:+ param_name e) ;;
  Ok (entries ++ [e], num_set_add seenIds (param_id e), string_set_add seenNames (param_name e)).

Definition parseParams (parsed : value) : result (list ParamEntry) :=
  l ← table_array parsed "Invalid TOML structure" "Expected [[param]] array in params.toml" "param";
  '(entries, _, _) ← fold_result param_step ([], [], []) l;
  Ok (js_sort (cmp_on num_cmp param_id) entries).

(** ** Features *)

Record FeatureEntry := {
  feature_id : number; stage : string; feature_name : string; feature_type : string;
  feature_nullable : bool; feature_status : string; feature_doc : string;
}.

Definition read_feature (r : value) : result FeatureEntry :=
  throw_if (negb (is_object r)) "Invalid feature entry" ;;
  feature_id ← field assertNumber r "feature_id";
  stage ← field assertString r "stage";
  name ← field assertString r "name";
  type ← typed isFeatureType "Invalid feature type: " r;
  nullable ← field assertBoolean r "nullable";
  status ← status_of (λ _, Throw (Error "Invalid status")) r;
  doc ← field assertString r "doc";
  Ok {| feature_id := feature_id; stage := stage; feature_name := name; feature_type := type;
        feature_nullable := nullable; feature_status := status; feature_doc := doc |}.

Definition feature_step (s : list FeatureEntry * list number) (raw : value)
    : result (list FeatureEntry * list number) :=
  let '(entries, seenIds) := s in
  e ← read_feature raw;
  throw_if (num_set_has seenIds (feature_id e))
    ("Duplicate feature_id: " +:+ num_to_string (feature_id e)) ;;
  Ok (entries ++ [e], num_set_add seenIds (feature_id e)).

Definition parseFeatures (parsed : value) : result (list FeatureEntry) :=
  l ← table_array parsed "Invalid TOML structure" "Expected [[feature]] array in features.toml"
        "feature";
  '(entries, _) ← fold_result feature_step ([], []) l;
  Ok (js_sort (cmp_on num_cmp feature_id) entries).

(** ** Validation rules *)

Record ValidationRules := {
  schema_version : number;
  (* of strings, of numbers, of arrays of strings *)
  patterns : object; limits : object; enums : object;
}.

(** [if (raw && typeof raw === "object") for (const [k, v] of Object.entries(raw)) ...] *)
Definition rules (read : string → value → result value) (raw : value) : result object :=
  if truthy raw && String.eqb (typeof raw) "object" then
    es ← entries raw;
    fold_result (λ m kv, v ← read kv.1 kv.2; Ok (obj_assign m kv.1 v)) [] es
  else Ok [].

Definition enum_values (k : string) (v : value) : result value :=
  match v with
  | VArray l =>
      for_each_i (λ i x,
        assertString x ("enums." +:+ k +:+ "[" +:+ pretty i +:+ "]") ;; Ok tt) l ;;
      Ok v
  | _ => Throw (Error ("enums." +:+ k +:+ " must be an array"))
  end.

Definition parseValidation (parsed : value) : result ValidationRules :=
  throw_if (negb (is_object parsed)) "Invalid TOML structure in validation.toml" ;;
  schema_version ← field assertNumber parsed "schema_version";
  throw_if (negb (num_eqb schema_version (num 1)))
    ("Unsupported validation.toml schema_version: " +:+ num_to_string schema_version) ;;
  rawPatterns ← get_prop parsed "patterns";
  patterns ← rules (λ k v, VString <$> assertString v ("patterns." +:+ k)) rawPatterns;
  rawLimits ← get_prop parsed "limits";
  limits ← rules (λ k v, VNumber <$> assertNumber v ("limits." +:+ k)) rawLimits;
  rawEnums ← get_prop parsed "enums";
  enums ← rules enum_values rawEnums;
  Ok {| schema_version := schema_version; patterns := patterns; limits := limits;
        enums := enums |}.

(** ** Distinct entries *)

Definition distinct_numbers {E} (f : E → number) (l : list E) : Prop :=
  NoDup ((λ e, norm_zero (f e)) <$> l).

Lemma distinct_numbers_snoc {E} (f : E → number) l e :
  distinct_numbers f (l ++ [e]) ↔ distinct_numbers f l ∧ num_set_has (f <$> l) (f e) = false.
Proof.
  unfold distinct_numbers. rewrite fmap_app, NoDup_app, <-not_true_iff_false, num_set_has_elem_of.
  rewrite <-list_fmap_compose. cbn. split.
  - intros (Hl & H & _). split; [done|]. intros Hin. apply (H _ Hin). by apply list_elem_of_singleton.
  - intros [Hl H]. split_and!; [done| |apply NoDup_singleton].
    by intros x Hx ->%list_elem_of_singleton.
Qed.

Lemma NoDup_snoc {A} (l : list A) x : NoDup (l ++ [x]) ↔ NoDup l ∧ x ∉ l.
Proof.
  rewrite NoDup_app. split.
  - intros (? & H & _). split; [done|]. intros Hin. apply (H _ Hin). by apply list_elem_of_singleton.
  - intros [? H]. split_and!; [done| |apply NoDup_singleton].
    by intros y Hy ->%list_elem_of_singleton.
Qed.

(** A loop that reads entries, checks them and keeps them distinct. *)
Section collect.
Context {E S : Type} (step : S → value → result S) (read : value → result E) (ok : E → Prop).
Context (entries : S → list E) (push : S → E → S) (inv : S → Prop) (distinct : list E → Prop).
Context (Hprefix : ∀ l l', distinct (l ++ l') → distinct l).
Context (Hinv : ∀ s, inv s → distinct (entries s)).
Context (Hentries : ∀ s e, entries (push s e) = entries s ++ [e]).
Context (Hpush : ∀ s e, inv s → distinct (entries s ++ [e]) → inv (push s e)).
Context (Hstep : ∀ s raw s', inv s → step s raw = Ok s' ↔
  ∃ e, read raw = Ok e ∧ ok e ∧ distinct (entries s ++ [e]) ∧ s' = push s e).

Lemma collect_Ok l : ∀ s s', inv s →
  fold_result step s l = Ok s' ↔
  ∃ es, Forall2 (λ raw e, read raw = Ok e) l es ∧ Forall ok es ∧
    distinct (entries s ++ es) ∧ s' = foldl push s es.
Proof using Hprefix Hinv Hentries Hpush Hstep.
  induction l as [|raw l IH]; intros s s' Hs; cbn.
  - split.
    + intros [= <-]. exists []. rewrite app_nil_r. auto.
    + by intros (es & ->%Forall2_nil_inv_l & _ & _ & ->).
  - rewrite bind_Ok. split.
    + intros (s1 & (e & He & Hok & Hd & ->)%Hstep & Hl); [|done].
      apply IH in Hl as (es & Hes & Hoks & Hds & ->); [|by apply Hpush].
      exists (e :: es). rewrite Hentries, <-app_assoc in Hds. split_and!; auto.
    + intros (es0 & (e & es & He & Hes & ->)%Forall2_cons_inv_l & Hoks & Hd & ->).
      apply Forall_cons in Hoks as [Hok Hoks].
      assert (distinct (entries s ++ [e])) as Hd1.
      { apply (Hprefix _ es). by rewrite <-app_assoc. }
      exists (push s e). split; [apply Hstep; eauto|].
      apply IH; [by apply Hpush|]. exists es. rewrite Hentries, <-app_assoc. auto.
Qed.
End collect.

(** Entries with a number and a name, both distinct. *)
Section named.
Context {E : Type} (id : E → number) (name : E → string) (read : value → result E)
  (check : E → result unit) (m1 m2 : E → string).
Context (step : seen E number → value → result (seen E number)).
Context (Hstep : ∀ es ids ns raw, step (es, ids, ns) raw =
  (e ← read raw;
   throw_if (num_set_has ids (id e)) (m1 e) ;;
   throw_if (string_set_has ns (name e)) (m2 e) ;;
   check e ;;
   Ok (es ++ [e], num_set_add ids (id e), string_set_add ns (name e)))).

Definition distinct_named (es : list E) : Prop := distinct_numbers id es ∧ NoDup (name <$> es).

Definition push_named (s : seen E number) (e : E) : seen E number :=
  (s.1.1 ++ [e], num_set_add s.1.2 (id e), string_set_add s.2 (name e)).

(** The sets hold what the entries have. *)
Definition named_inv (s : seen E number) : Prop :=
  distinct_named s.1.1 ∧ (∀ x, num_set_has s.1.2 x = num_set_has (id <$> s.1.1) x) ∧
  (∀ n, n ∈ s.2 ↔ n ∈ name <$> s.1.1).

Lemma distinct_named_snoc es e :
  distinct_named (es ++ [e]) ↔
  distinct_named es ∧ num_set_has (id <$> es) (id e) = false ∧ name e ∉ name <$> es.
Proof.
  unfold distinct_named. rewrite distinct_numbers_snoc, fmap_app. cbn. rewrite NoDup_snoc. tauto.
Qed.

Lemma push_named_inv s e : named_inv s → distinct_named (s.1.1 ++ [e]) → named_inv (push_named s e).
Proof.
  intros (_ & Hi & Hn) Hd. unfold push_named. split; [done|]. cbn [fst snd]. split.
  - intros x. rewrite num_set_has_add, fmap_app, num_set_has_app, Hi. f_equal.
    cbn. by rewrite orb_false_r.
  - intros n. rewrite string_set_add_elem_of, fmap_app, elem_of_app, Hn. cbn.
    by rewrite list_elem_of_singleton.
Qed.

Lemma named_step s raw s' :
  named_inv s → step s raw = Ok s' ↔
  ∃ e, read raw = Ok e ∧ check e = Ok tt ∧ distinct_named (s.1.1 ++ [e]) ∧ s' = push_named s e.
Proof using Hstep.
  destruct s as [[es ids] ns]. intros (Hd & Hi & Hn). cbn in Hd, Hi, Hn |- *. rewrite Hstep, bind_Ok.
  setoid_rewrite bind_Ok_unit. setoid_rewrite bind_Ok_unit. setoid_rewrite bind_Ok_unit.
  setoid_rewrite throw_if_Ok. setoid_rewrite distinct_named_snoc.
  setoid_rewrite Hi. setoid_rewrite <-not_true_iff_false at 2.
  setoid_rewrite string_set_has_elem_of. setoid_rewrite Hn. unfold push_named. cbn. naive_solver.
Qed.

Lemma push_named_entries es : ∀ s, (foldl push_named s es).1.1 = s.1.1 ++ es.
Proof.
  induction es as [|e es IH]; intros s; cbn [foldl]; [by rewrite app_nil_r|].
  rewrite IH. unfold push_named. cbn [fst snd]. by rewrite <-app_assoc.
Qed.

Lemma named_collect l (s : seen E number) :
  fold_result step ([], [], []) l = Ok s ↔
  ∃ es, Forall2 (λ raw e, read raw = Ok e) l es ∧ Forall (λ e, check e = Ok tt) es ∧
    distinct_named es ∧ s = foldl push_named ([], [], []) es.
Proof using Hstep.
  apply (collect_Ok step read (λ e, check e = Ok tt) (λ s, s.1.1) push_named named_inv
    distinct_named).
  - intros l1 l2 [H1 H2]. unfold distinct_numbers in H1.
    rewrite fmap_app, NoDup_app in H1. rewrite fmap_app, NoDup_app in H2. split; [apply H1|apply H2].
  - by intros ? [? _].
  - done.
  - apply push_named_inv.
  - apply named_step.
  - split; [split; constructor|]. done.
Qed.

(** What is made of the entries. *)
Lemma named_entries {B} l (f : list E → result B) b :
  ('(entries, _, _) ← fold_result step ([], [], []) l; f entries) = Ok b ↔
  ∃ es, Forall2 (λ raw e, read raw = Ok e) l es ∧ Forall (λ e, check e = Ok tt) es ∧
    distinct_named es ∧ f es = Ok b.
Proof using Hstep.
  rewrite bind_Ok. setoid_rewrite named_collect. split.
  - intros (s & (es & Hes & Hok & Hd & ->) & Hf). exists es. split_and!; try done.
    rewrite <-Hf. pose proof (push_named_entries es ([], [], [])) as He.
    destruct (foldl _ _ _) as [[es' ids] ns]. cbn in He. by subst es'.
  - intros (es & Hes & Hok & Hd & Hf). eexists. split; [by exists es|].
    pose proof (push_named_entries es ([], [], [])) as He.
    destruct (foldl _ _ _) as [[es' ids] ns]. cbn in He. by subst es'.
Qed.
End named.

Lemma table_array_Ok parsed m1 m2 k l :
  table_array parsed m1 m2 k = Ok l ↔ is_object parsed = true ∧ get_prop parsed k = Ok (VArray l).
Proof.
  unfold table_array. rewrite bind_Ok_unit, throw_if_Ok, negb_false_iff, bind_Ok. split.
  - intros (? & v & -> & Hv). destruct v; naive_solver.
  - intros [? ->]. eauto.
Qed.

(** ** Sorted by number *)

Lemma js_sort_numbers_increasing {E} (f : E → number) l :
  distinct_numbers f l → Forall (λ e, ordinary (f e)) l →
  StronglySorted (λ a b, num_ltb (f a) (f b) = true) (js_sort (cmp_on num_cmp f) l).
Proof.
  intros Hd Ho. pose proof (js_sort_sorted (cmp_on num_cmp f) (λ e, ordinary (f e)) l Ho) as Hs.
  assert (distinct_numbers f (js_sort (cmp_on num_cmp f) l)) as Hd'.
  { unfold distinct_numbers. by rewrite js_sort_Permutation. }
  assert (Forall (λ e, ordinary (f e)) (js_sort (cmp_on num_cmp f) l)) as Ho'.
  { by rewrite js_sort_Permutation. }
  clear Hd Ho. induction Hs as [|a l' Hs IH Ha]; constructor.
  - apply NoDup_cons in Hd' as [_ ?]. inversion_clear Ho'. auto.
  - apply NoDup_cons in Hd' as [Hn _]. inversion_clear Ho' as [|? ? Hoa Hol].
    rewrite Forall_forall in *. intros b Hb. apply num_cmp_lt; auto; [by apply Ha|].
    intros Heq. apply Hn. rewrite Heq. by apply (list_elem_of_fmap_2 (λ e, norm_zero (f e))).
Qed.

(** ** What the parsers accept *)

(** An entry as the registry promises it. *)
Record key_ok (e : KeyEntry) : Prop := {
  key_ok_type : key_type e ∈ KEY_TYPES;
  key_ok_status : key_status e ∈ STATUSES;
  key_ok_default : is_undefined (key_default e) = false ∧ is_object (key_default e) = false;
  (* [Key.id] is number 1, an integer, not nullable and read-only *)
  key_ok_id : key_name e = "id" →
    key_id e = num 1 ∧ key_type e = "int" ∧ key_nullable e = false ∧ key_allow_write e = false;
  (* the others have a default unless they are nullable *)
  key_ok_other : key_name e ≠ "id" → key_nullable e = false → key_default e ≠ VNull;
}.

Lemma one_of_elem_of l v : one_of l v = true → text v ∈ l.
Proof. destruct v; cbn; try done. apply bool_decide_eq_true. Qed.

Lemma typed_Ok is_type invalid r l s :
  (∀ v, is_type v = one_of l v) → typed is_type invalid r = Ok s → s ∈ l.
Proof.
  unfold typed. intros Hl (v & _ & H)%bind_Ok. rewrite Hl in H. case_match eqn:E.
  - injection H as <-. by apply one_of_elem_of.
  - unfold throw_value in H. by destruct (template v).
Qed.

Lemma status_of_Ok invalid r s :
  (∀ v t, invalid v ≠ Ok t) → status_of invalid r = Ok s → s ∈ STATUSES.
Proof.
  unfold status_of. intros Hinv (v & _ & H)%bind_Ok. case_match.
  - injection H as <-. by left.
  - case_match eqn:E; [|by apply Hinv in H]. injection H as <-. by apply one_of_elem_of.
Qed.

Lemma default_value_Ok name r d :
  default_value name r = Ok d → is_undefined d = false ∧ is_object d = false.
Proof. unfold default_value. intros (v & _ & H)%bind_Ok. by destruct v; simplify_eq/=. Qed.

Lemma num_eqb_one x : num_eqb x (num 1) = true → x = num 1.
Proof.
  intros H. assert (same_value_zero x (num 1) = true) as Hs.
  { unfold same_value_zero. apply orb_true_iff. by left. }
  apply same_value_zero_iff in Hs as [|[_ ?]]; done.
Qed.

Lemma key_rules_Ok e :
  key_rules e = Ok tt ↔
  (key_name e = "id" →
    key_id e = num 1 ∧ key_type e = "int" ∧ key_nullable e = false ∧ key_allow_write e = false) ∧
  (key_name e ≠ "id" → key_nullable e = false → key_default e ≠ VNull).
Proof.
  unfold key_rules. destruct (String.eqb_spec (key_name e) "id") as [->|Hne].
  - rewrite !bind_Ok_unit, !throw_if_Ok, !negb_false_iff, String.eqb_eq. split.
    + intros (->%num_eqb_one & ? & ? & ?). by split.
    + intros [H _]. destruct (H eq_refl) as (-> & ? & ? & ?). by split_and!.
  - rewrite throw_if_Ok, andb_false_iff, negb_false_iff. split.
    + intros H. split; [done|]. intros _ Hn Hd. rewrite Hn, Hd in H. by destruct H.
    + intros [_ H]. destruct (key_nullable e); [by left|right].
      specialize (H Hne eq_refl). by destruct (key_default e).
Qed.

Lemma throw_value_Ok {A} prefix v (a : A) : throw_value prefix v ≠ Ok a.
Proof. unfold throw_value. by destruct (template v). Qed.

#[local] Tactic Notation "binds" hyp(H) :=
  repeat (apply bind_Ok in H; destruct H as (? & ? & H)).

Lemma read_key_ok r e : read_key r = Ok e → key_rules e = Ok tt → key_ok e.
Proof.
  unfold read_key. intros H [Hid Hother]%key_rules_Ok. binds H. injection H as <-.
  cbn in *. split; try done; cbn.
  - by eapply (typed_Ok isKeyType).
  - eapply status_of_Ok; [|done]. intros; apply throw_value_Ok.
  - by eapply default_value_Ok.
Qed.

Lemma parseKeys_iff parsed ks :
  parseKeys parsed = Ok ks ↔
  ∃ l es, is_object parsed = true ∧ get_prop parsed "key" = Ok (VArray l) ∧
    Forall2 (λ r e, read_key r = Ok e) l es ∧ Forall (λ e, key_rules e = Ok tt) es ∧
    distinct_named key_id key_name es ∧ (∃ e, e ∈ es ∧ key_name e = "id") ∧
    ks = js_sort (cmp_on num_cmp key_id) es.
Proof.
  assert (∀ es, (throw_if (negb (existsb (λ k, String.eqb (key_name k) "id") es))
      "Key.id must exist in keys.toml" ;; Ok (js_sort (cmp_on num_cmp key_id) es)) = Ok ks ↔
    (∃ e, e ∈ es ∧ key_name e = "id") ∧ ks = js_sort (cmp_on num_cmp key_id) es) as Hend.
  { intros es. rewrite bind_Ok_unit, throw_if_Ok, negb_false_iff, existsb_exists.
    setoid_rewrite String.eqb_eq. setoid_rewrite <-list_elem_of_In. naive_solver. }
  pose proof (λ l f, named_entries key_id key_name read_key key_rules
    (λ e, "Duplicate key_id: " +:+ num_to_string (key_id e))
    (λ e, "Duplicate key name: " +:+ key_name e) key_step (λ es ids ns raw, eq_refl) l f ks) as Hc.
  unfold parseKeys. rewrite bind_Ok. split.
  - intros (l & [Ho Hl]%table_array_Ok & (es & Hes & Hok & Hd & Hid)%Hc).
    apply Hend in Hid as [Hid ->]. exists l, es. by split_and!.
  - intros (l & es & Ho & Hl & Hes & Hok & Hd & Hid). exists l.
    split; [by apply table_array_Ok|]. apply Hc. exists es. split_and!; try done. by apply Hend.
Qed.

(** [parseKeys] accepts exactly the tables whose entries read, follow the rules and
    have distinct ids and names, one of them being [Key.id]; it returns them all, in
    increasing order of id (for ids that are not NaN), each well typed and with [Key.id]
    the read-only number 1. *)
Theorem parseKeys_correct parsed ks :
  (parseKeys parsed = Ok ks ↔
   ∃ l es, is_object parsed = true ∧ get_prop parsed "key" = Ok (VArray l) ∧
     Forall2 (λ r e, read_key r = Ok e) l es ∧ Forall (λ e, key_rules e = Ok tt) es ∧
     distinct_named key_id key_name es ∧ (∃ e, e ∈ es ∧ key_name e = "id") ∧
     ks = js_sort (cmp_on num_cmp key_id) es) ∧
  (parseKeys parsed = Ok ks →
   Forall key_ok ks ∧ distinct_named key_id key_name ks ∧
   (∃ e, e ∈ ks ∧ key_name e = "id" ∧ key_id e = num 1) ∧
   (Forall (λ e, ordinary (key_id e)) ks →
    StronglySorted (λ a b, num_ltb (key_id a) (key_id b) = true) ks)).
Proof.
  split; [apply parseKeys_iff|]. rewrite parseKeys_iff.
  intros (l & es & _ & _ & Hes & Hok & Hd & (e & He & Hid) & ->).
  assert (Forall key_ok es) as Hkeys.
  { apply Forall_forall. intros x Hx. rewrite Forall_forall in Hok.
    destruct (list_elem_of_lookup_1 _ _ Hx) as [i Hi].
    destruct (Forall2_lookup_r _ _ _ _ _ Hes Hi) as (r & _ & Hr). by apply (read_key_ok r), Hok. }
  split_and!.
  - by rewrite js_sort_Permutation.
  - destruct Hd as [H1 H2]. split; [unfold distinct_numbers|]; by rewrite js_sort_Permutation.
  - exists e. rewrite js_sort_elem_of. split_and!; [done..|].
    rewrite Forall_forall in Hkeys. by apply (key_ok_id _ (Hkeys _ He)).
  - intros Ho. rewrite js_sort_Permutation in Ho. apply js_sort_numbers_increasing; [apply Hd|done].
Qed.

(** Two keys, out of order. *)
Definition key_table (id : Z) (name type : string) (nullable allow_write : bool) : value :=
  VObject [("key_id", VNumber (num id)); ("name", VString name); ("type", VString type);
           ("nullable", VBool nullable); ("doc", VString EmptyString);
           ("allow_write", VBool allow_write)].
Definition sample_keys : value :=
  VObject [("key", VArray [key_table 2001 "score" "float" true true; key_table 1 "id" "int" false false])].

Lemma parseKeys_correct_witness :
  ∃ ks, parseKeys sample_keys = Ok ks ∧ key_name <$> ks = ["id"; "score"] ∧ Forall key_ok ks ∧
    StronglySorted (λ a b, num_ltb (key_id a) (key_id b) = true) ks.
Proof.
  destruct (parseKeys sample_keys) as [ks|] eqn:E; [|by vm_compute in E].
  destruct (proj2 (parseKeys_correct sample_keys ks) E) as (Hk & _ & _ & Hs).
  exists ks. split; [done|]. split; [vm_compute in E; by injection E as <-|].
  split; [exact Hk|]. apply Hs. clear Hk Hs. vm_compute in E. injection E as <-.
  repeat constructor.
Defined.

(** The registry does not ask ids to be integers. *)
Example fractional_key_id :
  ∃ ks, parseKeys (VObject [("key", VArray [key_table 1 "id" "int" false false;
    VObject [("key_id", VNumber (Number "2.5")); ("name", VString "x"); ("type", VString "int");
             ("nullable", VBool true); ("doc", VString EmptyString)]])]) = Ok ks ∧
  length ks = 2.
Proof. eexists. split; [by vm_compute|done]. Qed.

Lemma read_param_ok r e :
  read_param r = Ok e → param_type e ∈ PARAM_TYPES ∧ param_status e ∈ STATUSES.
Proof.
  unfold read_param. intros H. binds H. injection H as <-. cbn. split.
  - by eapply (typed_Ok isParamType).
  - by eapply status_of_Ok; [|done].
Qed.

Lemma read_feature_ok r e :
  read_feature r = Ok e → feature_type e ∈ FEATURE_TYPES ∧ feature_status e ∈ STATUSES.
Proof.
  unfold read_feature. intros H. binds H. injection H as <-. cbn. split.
  - by eapply (typed_Ok isFeatureType).
  - by eapply status_of_Ok; [|done].
Qed.

Lemma Forall2_read_Forall {A B} (f : A → result B) (P : B → Prop) l es :
  (∀ a b, f a = Ok b → P b) → Forall2 (λ a b, f a = Ok b) l es → Forall P es.
Proof. intros H. induction 1; constructor; eauto. Qed.

Lemma parseParams_iff parsed ps :
  parseParams parsed = Ok ps ↔
  ∃ l es, is_object parsed = true ∧ get_prop parsed "param" = Ok (VArray l) ∧
    Forall2 (λ r e, read_param r = Ok e) l es ∧
    distinct_named param_id param_name es ∧ ps = js_sort (cmp_on num_cmp param_id) es.
Proof.
  pose proof (λ l f, named_entries param_id param_name read_param (λ _, Ok tt)
    (λ e, "Duplicate param_id: " +:+ num_to_string (param_id e))
    (λ e, "Duplicate param name: " +:+ param_name e) param_step (λ es ids ns raw, eq_refl) l f ps)
    as Hc.
  unfold parseParams. rewrite bind_Ok. split.
  - intros (l & [Ho Hl]%table_array_Ok & (es & Hes & _ & Hd & [= <-])%Hc).
    exists l, es. by split_and!.
  - intros (l & es & Ho & Hl & Hes & Hd & ->). exists l.
    split; [by apply table_array_Ok|]. apply Hc. exists es. split_and!; try done.
    by apply Forall_forall.
Qed.

(** The features' loop keeps no names. *)
Lemma parseFeatures_iff parsed fs :
  parseFeatures parsed = Ok fs ↔
  ∃ l es, is_object parsed = true ∧ get_prop parsed "feature" = Ok (VArray l) ∧
    Forall2 (λ r e, read_feature r = Ok e) l es ∧
    distinct_numbers feature_id es ∧ fs = js_sort (cmp_on num_cmp feature_id) es.
Proof.
  set (push := λ (s : list FeatureEntry * list number) e,
    (s.1 ++ [e], num_set_add s.2 (feature_id e))).
  assert (∀ es s, (foldl push s es).1 = s.1 ++ es) as Hentries.
  { induction es as [|e es IH]; intros s; cbn [foldl]; [by rewrite app_nil_r|].
    rewrite IH. unfold push. cbn [fst]. by rewrite <-app_assoc. }
  assert (∀ l s, fold_result feature_step ([], []) l = Ok s ↔
    ∃ es, Forall2 (λ r e, read_feature r = Ok e) l es ∧ Forall (λ _, True) es ∧
      distinct_numbers feature_id es ∧ s = foldl push ([], []) es) as Hc.
  { intros l s. apply (collect_Ok feature_step read_feature (λ _, True) fst push
      (λ s, distinct_numbers feature_id s.1 ∧
        ∀ x, num_set_has s.2 x = num_set_has (feature_id <$> s.1) x)).
    - intros l1 l2 H. unfold distinct_numbers in H. rewrite fmap_app, NoDup_app in H. apply H.
    - by intros ? [? _].
    - done.
    - intros s0 e [_ Hi] Hd. unfold push. split; [done|]. cbn [fst snd]. intros x.
      rewrite num_set_has_add, fmap_app, num_set_has_app, Hi. f_equal. cbn. by rewrite orb_false_r.
    - intros [es ids] raw s' [Hd Hi]. cbn [fst snd] in Hd, Hi |- *. unfold feature_step, push.
      rewrite bind_Ok. setoid_rewrite bind_Ok_unit. setoid_rewrite throw_if_Ok.
      setoid_rewrite distinct_numbers_snoc. setoid_rewrite Hi. cbn. naive_solver.
    - split; [constructor|done]. }
  unfold parseFeatures. rewrite bind_Ok. split.
  - intros (l & [Ho Hl]%table_array_Ok & ([es ids] & (es' & Hes & _ & Hd & Hs)%Hc & [= <-])%bind_Ok).
    exists l, es. specialize (Hentries es' ([], [])). rewrite <-Hs in Hentries. cbn in Hentries.
    subst es'. by split_and!.
  - intros (l & es & Ho & Hl & Hes & Hd & ->). exists l. split; [by apply table_array_Ok|].
    apply bind_Ok. exists (foldl push ([], []) es). split.
    + apply Hc. exists es. split_and!; try done. by apply Forall_forall.
    + specialize (Hentries es ([], [])). destruct (foldl push _ es) as [es' ids].
      cbn in Hentries. by subst es'.
Qed.

(** [parseParams] and [parseFeatures] accept exactly the tables whose entries read
    and have distinct ids (parameters, distinct names too); they return them all, well
    typed and, for ids that are not NaN, in increasing order of id. *)
Theorem parseParams_parseFeatures_correct parsed :
  (∀ ps, (parseParams parsed = Ok ps ↔
    ∃ l es, is_object parsed = true ∧ get_prop parsed "param" = Ok (VArray l) ∧
      Forall2 (λ r e, read_param r = Ok e) l es ∧
      distinct_named param_id param_name es ∧ ps = js_sort (cmp_on num_cmp param_id) es) ∧
    (parseParams parsed = Ok ps →
      Forall (λ e, param_type e ∈ PARAM_TYPES ∧ param_status e ∈ STATUSES) ps ∧
      (Forall (λ e, ordinary (param_id e)) ps →
       StronglySorted (λ a b, num_ltb (param_id a) (param_id b) = true) ps))) ∧
  (∀ fs, (parseFeatures parsed = Ok fs ↔
    ∃ l es, is_object parsed = true ∧ get_prop parsed "feature" = Ok (VArray l) ∧
      Forall2 (λ r e, read_feature r = Ok e) l es ∧
      distinct_numbers feature_id es ∧ fs = js_sort (cmp_on num_cmp feature_id) es) ∧
    (parseFeatures parsed = Ok fs →
      Forall (λ e, feature_type e ∈ FEATURE_TYPES ∧ feature_status e ∈ STATUSES) fs ∧
      (Forall (λ e, ordinary (feature_id e)) fs →
       StronglySorted (λ a b, num_ltb (feature_id a) (feature_id b) = true) fs))).
Proof.
  split.
  - intros ps. split; [apply parseParams_iff|].
    rewrite parseParams_iff. intros (l & es & _ & _ & Hes & Hd & ->). split.
    + rewrite js_sort_Permutation. by eapply Forall2_read_Forall; [apply read_param_ok|].
    + intros Ho. rewrite js_sort_Permutation in Ho.
      apply js_sort_numbers_increasing; [apply Hd|done].
  - intros fs. split; [apply parseFeatures_iff|].
    rewrite parseFeatures_iff. intros (l & es & _ & _ & Hes & Hd & ->). split.
    + rewrite js_sort_Permutation. by eapply Forall2_read_Forall; [apply read_feature_ok|].
    + intros Ho. rewrite js_sort_Permutation in Ho. by apply js_sort_numbers_increasing.
Qed.

Definition param_tables : value :=
  VObject [("param", VArray (map (λ x, VObject [("param_id", VNumber (num x.1)); ("name", VString x.2);
    ("type", VString "int"); ("nullable", VBool true); ("doc", VString EmptyString)])
    [(2%Z, "b"); (1%Z, "a")]))].

Lemma parseParams_parseFeatures_correct_witness :
  ∃ ps, parseParams param_tables = Ok ps ∧ param_name <$> ps = ["a"; "b"] ∧
    Forall (λ e, param_type e ∈ PARAM_TYPES ∧ param_status e ∈ STATUSES) ps.
Proof.
  destruct (parseParams param_tables) as [ps|] eqn:E; [|by vm_compute in E].
  exists ps. split; [done|]. split; [vm_compute in E; by injection E as <-|].
  apply (proj2 (proj1 (parseParams_parseFeatures_correct param_tables) ps) E).
Defined.
