(* ===== verification/Endpoints.v ===== *)
(** * Endpoints: the endpoint registries of the three environments
    (dsl/src/codegen/parsers.ts, the endpoint part)

    As in Registry.v the parsed TOML is given.  [localeCompare] depends on the locale and
    is a parameter; what is proved of the order it gives supposes it is a comparison. *)

From S2P Require Import Prelude Collections JsNumber JsValue Registry.

Definition ENDPOINT_KINDS : list string := ["redis"; "http"].
Definition RESOLVER_TYPES : list string := ["static"; "consul"; "dns_srv"; "https"].
Definition isEndpointKind : value → bool := one_of ENDPOINT_KINDS.
Definition isResolverType : value → bool := one_of RESOLVER_TYPES.

Record StaticResolver := { host : string; port : number }.
Record EndpointPolicy := {
  max_inflight : option number; connect_timeout_ms : option number;
  request_timeout_ms : option number;
}.
Record EndpointEntry := {
  endpoint_id : string; endpoint_name : string; endpoint_kind : string;
  endpoint_resolver : StaticResolver; endpoint_policy : EndpointPolicy;
}.

Definition read_resolver (endpoint_id : string) (r : value) : result StaticResolver :=
  let where_ := "endpoint " +:+ endpoint_id +:+ ": " in
  resolverObj ← get_prop r "resolver";
  throw_if (negb (is_object resolverObj)) (where_ +:+ "missing resolver") ;;
  resolverType ← get_prop resolverObj "type";
  (if isResolverType resolverType then Ok tt
   else throw_value (where_ +:+ "invalid resolver type: ") resolverType) ;;
  throw_if (negb (String.eqb (text resolverType) "static"))
    (where_ +:+ "only " +:+ quoted "static" +:+ " resolver supported in Step 14.2, got: " +:+
     text resolverType) ;;
  h ← get_prop resolverObj "host"; host ← assertString h "resolver.host";
  p ← get_prop resolverObj "port"; port ← assertInteger p "resolver.port";
  throw_if (num_ltb port (num 1) || num_ltb (num 65535) port)
    (where_ +:+ "invalid port " +:+ num_to_string port +:+ " (must be 1-65535)") ;;
  Ok {| host := host; port := port |}.

Definition policy_limit (policyObj : value) (k : string) : result (option number) :=
  v ← get_prop policyObj k;
  if is_undefined v then Ok None else Some <$> assertInteger v ("policy." +:+ k).

Definition read_policy (endpoint_id : string) (r : value) : result EndpointPolicy :=
  policyObj ← get_prop r "policy";
  if is_undefined policyObj then
    Ok {| max_inflight := None; connect_timeout_ms := None; request_timeout_ms := None |}
  else
    throw_if (negb (is_object policyObj))
      ("endpoint " +:+ endpoint_id +:+ ": policy must be an object") ;;
    max_inflight ← policy_limit policyObj "max_inflight";
    connect_timeout_ms ← policy_limit policyObj "connect_timeout_ms";
    request_timeout_ms ← policy_limit policyObj "request_timeout_ms";
    Ok {| max_inflight := max_inflight; connect_timeout_ms := connect_timeout_ms;
          request_timeout_ms := request_timeout_ms |}.

Definition read_endpoint (env : string) (r : value) : result EndpointEntry :=
  throw_if (negb (is_object r)) ("Invalid endpoint entry in " +:+ env) ;;
  endpoint_id ← field assertString r "endpoint_id";
  name ← field assertString r "name";
  kind ← get_prop r "kind";
  throw_if (negb (startsWith endpoint_id "ep_"))
    ("endpoint_id must start with " +:+ quoted "ep_" +:+ ": " +:+ endpoint_id) ;;
  throw_if (64 <? String.length endpoint_id)
    ("endpoint_id too long (max 64): " +:+ endpoint_id) ;;
  (if isEndpointKind kind then Ok tt
   else t ← template kind;
        Throw (Error ("Invalid endpoint kind: " +:+ t +:+ " (allowed: redis, http)"))) ;;
  resolver ← read_resolver endpoint_id r;
  policy ← read_policy endpoint_id r;
  Ok {| endpoint_id := endpoint_id; endpoint_name := name; endpoint_kind := text kind;
        endpoint_resolver := resolver; endpoint_policy := policy |}.

Definition endpoint_step (env : string) (s : seen EndpointEntry string) (raw : value)
    : result (seen EndpointEntry string) :=
  let '(entries, seenIds, seenNames) := s in
  e ← read_endpoint env raw;
  throw_if (string_set_has seenIds (endpoint_id e))
    ("Duplicate endpoint_id in " +:+ env +:+ ": " +:+ endpoint_id e) ;;
  throw_if (string_set_has seenNames (endpoint_name e))
    ("Duplicate endpoint name in " +:+ env +:+ ": " +:+ endpoint_name e) ;;
  Ok (entries ++ [e], string_set_add seenIds (endpoint_id e),
      string_set_add seenNames (endpoint_name e)).

(** [new Map(entries.map(e => [e.endpoint_id, e]))] *)
Definition by_id (es : list EndpointEntry) : list (string * EndpointEntry) :=
  foldl (λ m e, map_set m (endpoint_id e) e) [] es.

Definition mismatch (id what other devValue otherValue : string) : string :=
  "endpoint " +:+ id +:+ ": " +:+ what +:+ " mismatch (dev=" +:+ quoted devValue +:+ ", " +:+
  other +:+ "=" +:+ quoted otherValue +:+ ")".

(** The two loops that compare another environment with dev. *)
Definition check_env (other : string) (devMap otherMap : list (string * EndpointEntry))
    : result unit :=
  for_each (λ '(id, devEntry),
    match map_get otherMap id with
    | None => Throw (Error ("endpoint " +:+ id +:+ " exists in dev but not in " +:+ other))
    | Some e =>
        throw_if (negb (String.eqb (endpoint_name e) (endpoint_name devEntry)))
          (mismatch id "name" other (endpoint_name devEntry) (endpoint_name e)) ;;
        throw_if (negb (String.eqb (endpoint_kind e) (endpoint_kind devEntry)))
          (mismatch id "kind" other (endpoint_kind devEntry) (endpoint_kind e))
    end) devMap ;;
  for_each (λ '(id, _),
    throw_if (negb (map_has devMap id))
      ("endpoint " +:+ id +:+ " exists in " +:+ other +:+ " but not in dev")) otherMap.

Record EndpointRegistries := {
  dev : list EndpointEntry; test : list EndpointEntry; prod : list EndpointEntry }.

Section parsers.
Context (localeCompare : string → string → comparison).

Definition parseEndpointFile (tomlPath : string) (parsed : value) (env : string)
    : result (list EndpointEntry) :=
  throw_if (negb (is_object parsed)) ("Invalid TOML structure in " +:+ tomlPath) ;;
  version ← get_prop parsed "version";
  (if match version with VNumber n => num_eqb n (num 1) | _ => false end then Ok tt
   else throw_value ("Unsupported endpoints." +:+ env +:+ ".toml version: ") version) ;;
  rawEndpoints ← get_prop parsed "endpoint";
  match rawEndpoints with
  | VArray l =>
      '(entries, _, _) ← fold_result (endpoint_step env) ([], [], []) l;
      Ok (js_sort (cmp_on localeCompare endpoint_id) entries)
  | _ => Throw (Error ("Expected [[endpoint]] array in endpoints." +:+ env +:+ ".toml"))
  end.

(** [parseToml] is the content of a file, parsed. *)
Definition parseEndpoints (parseToml : string → result value) (registryDir : string)
    : result EndpointRegistries :=
  let file env := registryDir +:+ "/endpoints." +:+ env +:+ ".toml" in
  let parse env := parsed ← parseToml (file env); parseEndpointFile (file env) parsed env in
  dev ← parse "dev";
  test ← parse "test";
  prod ← parse "prod";
  check_env "test" (by_id dev) (by_id test) ;;
  check_env "prod" (by_id dev) (by_id prod) ;;
  Ok {| dev := dev; test := test; prod := prod |}.
End parsers.

(** ** What one file may hold *)

Record endpoint_ok (e : EndpointEntry) : Prop := {
  endpoint_ok_id : startsWith (endpoint_id e) "ep_" = true ∧ String.length (endpoint_id e) ≤ 64;
  endpoint_ok_kind : endpoint_kind e ∈ ENDPOINT_KINDS;
  endpoint_ok_port : let p := port (endpoint_resolver e) in
    isInteger p = true ∧ num_ltb p (num 1) = false ∧ num_ltb (num 65535) p = false;
}.

#[local] Tactic Notation "binds" hyp(H) :=
  repeat (apply bind_Ok in H; destruct H as (? & ? & H)).

Lemma assertInteger_Ok v f n : assertInteger v f = Ok n → isInteger n = true.
Proof. unfold assertInteger. repeat case_match; naive_solver. Qed.

Lemma read_resolver_ok id r x :
  read_resolver id r = Ok x →
  isInteger (port x) = true ∧ num_ltb (port x) (num 1) = false ∧ num_ltb (num 65535) (port x) = false.
Proof.
  unfold read_resolver. intros H. binds H. injection H as <-. cbn.
  match goal with H : throw_if (_ || _) _ = _ |- _ =>
    apply throw_if_Ok, orb_false_iff in H as [??] end.
  split; [by eapply assertInteger_Ok|done].
Qed.

Lemma read_endpoint_ok env r e : read_endpoint env r = Ok e → endpoint_ok e.
Proof.
  unfold read_endpoint. intros H. binds H. injection H as <-.
  repeat match goal with H : throw_if _ _ = _ |- _ => apply throw_if_Ok in H end.
  split; cbn.
  - split; [by apply negb_false_iff|]. by apply Nat.ltb_ge.
  - apply one_of_elem_of. change (one_of ENDPOINT_KINDS) with isEndpointKind.
    match goal with H : (if isEndpointKind ?v then _ else _) = _ |- isEndpointKind ?v = _ =>
      destruct (isEndpointKind v); [done|by apply bind_Ok in H as (? & _ & ?)] end.
  - by eapply read_resolver_ok.
Qed.

Definition distinct_endpoints (es : list EndpointEntry) : Prop :=
  NoDup (endpoint_id <$> es) ∧ NoDup (endpoint_name <$> es).

Lemma distinct_endpoints_snoc es e :
  distinct_endpoints (es ++ [e]) ↔
  distinct_endpoints es ∧ ¬ endpoint_id e ∈ (endpoint_id <$> es) ∧
  ¬ endpoint_name e ∈ (endpoint_name <$> es).
Proof. unfold distinct_endpoints. rewrite !fmap_app. cbn. rewrite !NoDup_snoc. tauto. Qed.

Definition push_endpoint (s : seen EndpointEntry string) (e : EndpointEntry) :=
  (s.1.1 ++ [e], string_set_add s.1.2 (endpoint_id e), string_set_add s.2 (endpoint_name e)).

Definition endpoint_inv (s : seen EndpointEntry string) : Prop :=
  distinct_endpoints s.1.1 ∧ (∀ i, i ∈ s.1.2 ↔ i ∈ endpoint_id <$> s.1.1) ∧
  (∀ n, n ∈ s.2 ↔ n ∈ endpoint_name <$> s.1.1).

Lemma push_endpoint_entries es : ∀ s, (foldl push_endpoint s es).1.1 = s.1.1 ++ es.
Proof.
  induction es as [|e es IH]; intros s; cbn [foldl]; [by rewrite app_nil_r|].
  rewrite IH. unfold push_endpoint. cbn [fst snd]. by rewrite <-app_assoc.
Qed.

Lemma endpoint_step_Ok env s raw s' :
  endpoint_inv s → endpoint_step env s raw = Ok s' ↔
  ∃ e, read_endpoint env raw = Ok e ∧ True ∧ distinct_endpoints (s.1.1 ++ [e]) ∧
    s' = push_endpoint s e.
Proof.
  destruct s as [[es ids] ns]. intros (Hd & Hi & Hn). cbn [fst snd] in Hd, Hi, Hn |- *.
  unfold endpoint_step. rewrite bind_Ok.
  setoid_rewrite bind_Ok_unit. setoid_rewrite bind_Ok_unit. setoid_rewrite throw_if_Ok.
  setoid_rewrite string_set_has_false. setoid_rewrite distinct_endpoints_snoc.
  setoid_rewrite Hi. setoid_rewrite Hn. unfold push_endpoint. cbn [fst snd]. naive_solver.
Qed.

Lemma push_endpoint_inv s e :
  endpoint_inv s → distinct_endpoints (s.1.1 ++ [e]) → endpoint_inv (push_endpoint s e).
Proof.
  intros (_ & Hi & Hn) Hd. unfold push_endpoint. split; [done|]. cbn [fst snd].
  split; intros x; rewrite string_set_add_elem_of, fmap_app, elem_of_app, ?Hi, ?Hn; cbn;
    by rewrite list_elem_of_singleton.
Qed.

Lemma endpoints_collect env l s :
  fold_result (endpoint_step env) ([], [], []) l = Ok s ↔
  ∃ es, Forall2 (λ r e, read_endpoint env r = Ok e) l es ∧ Forall (λ _, True) es ∧
    distinct_endpoints es ∧ s = foldl push_endpoint ([], [], []) es.
Proof.
  apply (collect_Ok (endpoint_step env) (read_endpoint env) (λ _, True) (λ s, s.1.1)
    push_endpoint endpoint_inv distinct_endpoints).
  - intros l1 l2 [H1 H2]. rewrite fmap_app, NoDup_app in H1. rewrite fmap_app, NoDup_app in H2.
    split; [apply H1|apply H2].
  - by intros ? [? _].
  - done.
  - apply push_endpoint_inv.
  - apply endpoint_step_Ok.
  - split; [split; constructor|]. done.
Qed.

Section files.
Context (localeCompare : string → string → comparison).

Lemma parseEndpointFile_iff path parsed env es' :
  parseEndpointFile localeCompare path parsed env = Ok es' ↔
  ∃ l es, is_object parsed = true ∧ get_prop parsed "version" = Ok (VNumber (num 1)) ∧
    get_prop parsed "endpoint" = Ok (VArray l) ∧
    Forall2 (λ r e, read_endpoint env r = Ok e) l es ∧ distinct_endpoints es ∧
    es' = js_sort (cmp_on localeCompare endpoint_id) es.
Proof.
  unfold parseEndpointFile. rewrite bind_Ok_unit, throw_if_Ok, negb_false_iff, bind_Ok. split.
  - intros (Ho & v & Hv & [H1 (w & Hw & H)%bind_Ok]%bind_Ok_unit).
    assert (v = VNumber (num 1)) as ->.
    { destruct v; try (by apply throw_value_Ok in H1). destruct (num_eqb n (num 1)) eqn:En.
      - by apply num_eqb_one in En as ->.
      - by apply throw_value_Ok in H1. }
    destruct w as [| | | | | | |l| | |]; try done.
    apply bind_Ok in H as ([[es ids] ns] & (es0 & Hes & _ & Hd & Hs)%endpoints_collect & [= <-]).
    pose proof (push_endpoint_entries es0 ([], [], [])) as He. rewrite <-Hs in He. cbn in He.
    subst es0. exists l, es. by split_and!.
  - intros (l & es & Ho & Hv & Hl & Hes & Hd & ->). split; [done|].
    exists (VNumber (num 1)). split; [done|]. cbn beta iota.
    replace (num_eqb (num 1) (num 1)) with true by done. cbn [mbind result_bind].
    rewrite Hl. cbn [mbind result_bind]. apply bind_Ok.
    exists (foldl push_endpoint ([], [], []) es). split.
    + apply endpoints_collect. exists es. split_and!; try done. by apply Forall_forall.
    + pose proof (push_endpoint_entries es ([], [], [])) as He.
      destruct (foldl push_endpoint _ es) as [[es0 ids] ns]. cbn in He. by subst es0.
Qed.

Lemma parseEndpointFile_ok path parsed env es :
  parseEndpointFile localeCompare path parsed env = Ok es →
  Forall endpoint_ok es ∧ distinct_endpoints es.
Proof.
  intros (l & es0 & _ & _ & _ & Hes & [H1 H2] & ->)%parseEndpointFile_iff.
  split; [|split; by rewrite js_sort_Permutation].
  rewrite js_sort_Permutation. by eapply Forall2_read_Forall; [apply read_endpoint_ok|].
Qed.
End files.

(** ** The environments agree *)

(** What plans and the registry's digest see of an endpoint. *)
Definition public (e : EndpointEntry) : string * string * string :=
  (endpoint_id e, endpoint_name e, endpoint_kind e).

Lemma by_id_distinct es :
  NoDup (endpoint_id <$> es) → by_id es = (λ e, (endpoint_id e, e)) <$> es.
Proof.
  unfold by_id. intros Hnd.
  enough (∀ acc, NoDup (endpoint_id <$> acc ++ es) →
    foldl (λ m e, map_set m (endpoint_id e) e) ((λ e, (endpoint_id e, e)) <$> acc) es =
    (λ e, (endpoint_id e, e)) <$> acc ++ es) as H by by apply (H []).
  clear Hnd. induction es as [|e es IH]; intros acc Hacc; cbn [foldl]; [by rewrite app_nil_r|].
  rewrite map_set_fresh.
  - assert (((λ e, (endpoint_id e, e)) <$> acc) ++ [(endpoint_id e, e)] =
      (λ e, (endpoint_id e, e)) <$> acc ++ [e]) as -> by by rewrite fmap_app.
    rewrite IH; by rewrite <-app_assoc.
  - rewrite <-list_fmap_compose. rewrite fmap_app, NoDup_app in Hacc. intros Hin.
    destruct Hacc as (_ & H & _). apply (H (endpoint_id e)); [done|]. cbn. left.
Qed.

Lemma by_id_get es e :
  NoDup (endpoint_id <$> es) → e ∈ es → map_get (by_id es) (endpoint_id e) = Some e.
Proof.
  intros Hnd He. rewrite by_id_distinct by done. apply elem_of_map_get.
  - by rewrite <-list_fmap_compose.
  - by apply (list_elem_of_fmap_2 (λ e, (endpoint_id e, e))).
Qed.

Lemma by_id_Some es i e :
  NoDup (endpoint_id <$> es) → map_get (by_id es) i = Some e → e ∈ es ∧ endpoint_id e = i.
Proof.
  intros Hnd He%map_get_Some_elem_of. rewrite by_id_distinct in He by done.
  apply list_elem_of_fmap in He as (e' & [= -> ->] & ?). done.
Qed.

Lemma public_NoDup es : NoDup (endpoint_id <$> es) → NoDup (public <$> es).
Proof.
  intros H. apply (NoDup_fmap_1 (λ p, p.1.1)). by rewrite <-list_fmap_compose.
Qed.

Lemma Forall_by_id (P : string * EndpointEntry → Prop) es :
  NoDup (endpoint_id <$> es) → Forall P (by_id es) ↔ ∀ e, e ∈ es → P (endpoint_id e, e).
Proof. intros H. rewrite by_id_distinct by done. rewrite Forall_fmap, Forall_forall. done. Qed.

(** The entry of another environment that has the id of a dev entry. *)
Lemma check_entry_Ok other o e :
  NoDup (endpoint_id <$> o) →
  match map_get (by_id o) (endpoint_id e) with
  | None => Throw (Error ("endpoint " +:+ endpoint_id e +:+ " exists in dev but not in " +:+ other))
  | Some e' =>
      throw_if (negb (String.eqb (endpoint_name e') (endpoint_name e)))
        (mismatch (endpoint_id e) "name" other (endpoint_name e) (endpoint_name e')) ;;
      throw_if (negb (String.eqb (endpoint_kind e') (endpoint_kind e)))
        (mismatch (endpoint_id e) "kind" other (endpoint_kind e) (endpoint_kind e'))
  end = Ok tt ↔ public e ∈ (public <$> o).
Proof.
  intros Ho. rewrite list_elem_of_fmap. split.
  - destruct (map_get _ _) as [e'|] eqn:Hg; [|done]. apply by_id_Some in Hg as [He' Hid]; [|done].
    rewrite bind_Ok_unit, !throw_if_Ok, !negb_false_iff, !String.eqb_eq. intros [Hn Hk].
    exists e'. split; [unfold public; congruence|done].
  - intros (e' & Hpe & He'). injection Hpe as Hid Hn Hk.
    by rewrite Hid, (by_id_get o e'), Hn, Hk, !String.eqb_refl by done.
Qed.

Lemma has_id es i : NoDup (endpoint_id <$> es) → map_has (by_id es) i = true ↔ i ∈ (endpoint_id <$> es).
Proof.
  intros Hd. rewrite map_has_elem_of, by_id_distinct by done. by rewrite <-list_fmap_compose.
Qed.

(** One of the environments has the endpoints of dev exactly when the two loops pass. *)
Lemma check_env_Ok other d o :
  NoDup (endpoint_id <$> d) → NoDup (endpoint_id <$> o) →
  check_env other (by_id d) (by_id o) = Ok tt ↔ public <$> d ≡ₚ public <$> o.
Proof.
  intros Hd Ho. 
  assert (check_env other (by_id d) (by_id o) = Ok tt ↔
    (∀ e, e ∈ d → public e ∈ (public <$> o)) ∧
    (∀ e, e ∈ o → endpoint_id e ∈ (endpoint_id <$> d))) as ->.
  { unfold check_env. rewrite bind_Ok_unit, !for_each_Ok.
    rewrite !Forall_by_id by done. cbn. setoid_rewrite (check_entry_Ok other o _ Ho).
    setoid_rewrite throw_if_Ok. setoid_rewrite negb_false_iff.
    setoid_rewrite (has_id d _ Hd). done. }
  split.
  - intros [H1 H2]. apply submseteq_length_Permutation.
    + apply NoDup_submseteq; [by apply public_NoDup|].
      intros p (e & -> & He)%list_elem_of_fmap. auto.
    + rewrite !length_fmap, <-(length_fmap endpoint_id o), <-(length_fmap endpoint_id d).
      apply submseteq_length, NoDup_submseteq; [done|].
      intros i (e & -> & He)%list_elem_of_fmap. auto.
  - intros Hp. split.
    + intros e He. rewrite <-Hp. by apply list_elem_of_fmap_2.
    + intros e He. assert (public e ∈ (public <$> d)) as (e' & Hpe & He')%list_elem_of_fmap.
      { rewrite Hp. by apply list_elem_of_fmap_2. }
      injection Hpe as Hid _ _. rewrite Hid. by apply list_elem_of_fmap_2.
Qed.

(** The order of a file's endpoints is determined by what they show. *)
Section same_order.
Context (localeCompare : string → string → comparison).
Context `{!Consistent localeCompare (λ _, True)}.
Context (Hanti : ∀ x y, cmp_le localeCompare x y → cmp_le localeCompare y x → x = y).

#[local] Abbreviation file_order := (js_sort (cmp_on localeCompare endpoint_id)).

Lemma same_order d o :
  NoDup (endpoint_id <$> d) → public <$> file_order d ≡ₚ public <$> file_order o →
  public <$> file_order d = public <$> file_order o.
Proof.
  intros Hd Hp'. assert (public <$> d ≡ₚ public <$> o) as Hp.
  { assert (∀ es, public <$> file_order es ≡ₚ public <$> es) as Hs.
    { intros es. apply fmap_Permutation, js_sort_Permutation. }
    by rewrite <-(Hs d), <-(Hs o). }
  clear Hp'. rewrite !(js_sort_fmap public _ (cmp_on localeCompare (λ p, p.1.1))) by done.
  assert (Consistent (cmp_on localeCompare (λ p : string * string * string, p.1.1))
    (λ p, p ∈ (public <$> d))) as Hc.
  { eapply consistent_weaken; [|by apply (cmp_on_consistent localeCompare (λ p, p.1.1) (λ _, True))].
    done. }
  apply (js_sort_perm_eq _ (λ p, p ∈ (public <$> d))); [|by apply Forall_forall|done].
  intros x y (e & -> & He)%list_elem_of_fmap (e' & -> & He')%list_elem_of_fmap H1 H2.
  assert (endpoint_id e = endpoint_id e') as Hid by by apply Hanti.
  pose proof (by_id_get d e Hd He) as G1. pose proof (by_id_get d e' Hd He') as G2.
  rewrite Hid in G1. congruence.
Qed.
End same_order.

Lemma parseEndpoints_iff localeCompare parseToml registryDir r :
  let file env := registryDir +:+ "/endpoints." +:+ env +:+ ".toml" in
  let accepted env es := ∃ parsed, parseToml (file env) = Ok parsed ∧
    parseEndpointFile localeCompare (file env) parsed env = Ok es in
  parseEndpoints localeCompare parseToml registryDir = Ok r ↔
  accepted "dev" (dev r) ∧ accepted "test" (test r) ∧ accepted "prod" (prod r) ∧
  public <$> dev r ≡ₚ public <$> test r ∧ public <$> dev r ≡ₚ public <$> prod r.
Proof.
  intros file accepted. unfold parseEndpoints. fold file. split.
  - intros (d & Hd%bind_Ok & (t & Ht%bind_Ok & (p & Hp%bind_Ok & H)%bind_Ok)%bind_Ok)%bind_Ok.
    rewrite !bind_Ok_unit in H. destruct H as (H1 & H2 & [= <-]). cbn [dev test prod].
    assert (∀ env es, accepted env es → NoDup (endpoint_id <$> es)) as Hnd.
    { by intros env es (parsed & _ & [_ [? _]]%parseEndpointFile_ok). }
    rewrite check_env_Ok in H1, H2 by eauto. by split_and!.
  - intros (Hd & Ht & Hp & H1 & H2).
    assert (∀ env es, accepted env es → NoDup (endpoint_id <$> es)) as Hnd.
    { by intros env es (parsed & _ & [_ [? _]]%parseEndpointFile_ok). }
    apply bind_Ok. exists (dev r). split; [by apply bind_Ok|].
    apply bind_Ok. exists (test r). split; [by apply bind_Ok|].
    apply bind_Ok. exists (prod r). split; [by apply bind_Ok|].
    rewrite !bind_Ok_unit, !check_env_Ok by eauto. by destruct r.
Qed.

Lemma parseEndpoints_same_order localeCompare parseToml registryDir r :
  Consistent localeCompare (λ _, True) →
  (∀ x y, cmp_le localeCompare x y → cmp_le localeCompare y x → x = y) →
  parseEndpoints localeCompare parseToml registryDir = Ok r →
  public <$> dev r = public <$> test r ∧ public <$> dev r = public <$> prod r.
Proof.
  intros Hc Hanti ((d & _ & Hd) & (t & _ & Ht) & (p & _ & Hp) & H1 & H2)%parseEndpoints_iff.
  revert H1 H2.
  apply parseEndpointFile_iff in Hd as (ld & d0 & _ & _ & _ & _ & [Hnd _] & ->).
  apply parseEndpointFile_iff in Ht as (lt & t0 & _ & _ & _ & _ & _ & ->).
  apply parseEndpointFile_iff in Hp as (lp & p0 & _ & _ & _ & _ & _ & ->).
  intros H1 H2. split; by apply same_order.
Qed.

(** [parseEndpoints] succeeds exactly when each of the three files is accepted by
    itself and they have the same endpoints, up to order: the same ids with the same
    names and kinds.  The endpoints it returns have valid ids, kinds and ports, and
    within an environment ids and names are distinct; when [localeCompare] orders
    distinct ids apart, the three lists show the same endpoints in the same order. *)
Theorem parseEndpoints_correct localeCompare parseToml registryDir r :
  let file env := registryDir +:+ "/endpoints." +:+ env +:+ ".toml" in
  let accepted env es := ∃ parsed, parseToml (file env) = Ok parsed ∧
    parseEndpointFile localeCompare (file env) parsed env = Ok es in
  (parseEndpoints localeCompare parseToml registryDir = Ok r ↔
   accepted "dev" (dev r) ∧ accepted "test" (test r) ∧ accepted "prod" (prod r) ∧
   public <$> dev r ≡ₚ public <$> test r ∧ public <$> dev r ≡ₚ public <$> prod r) ∧
  (parseEndpoints localeCompare parseToml registryDir = Ok r →
   Forall (λ es, Forall endpoint_ok es ∧ distinct_endpoints es) [dev r; test r; prod r] ∧
   (Consistent localeCompare (λ _, True) →
    (∀ x y, cmp_le localeCompare x y → cmp_le localeCompare y x → x = y) →
    public <$> dev r = public <$> test r ∧ public <$> dev r = public <$> prod r)).
Proof.
  intros file accepted. pose proof (parseEndpoints_iff localeCompare parseToml registryDir r) as Hiff.
  split; [exact Hiff|]. intros H. split.
  - apply Hiff in H as ((d & _ & Hd) & (t & _ & Ht) & (p & _ & Hp) & _).
    repeat (constructor; [by eapply parseEndpointFile_ok|]); constructor.
  - intros Hc Hanti. by eapply parseEndpoints_same_order.
Qed.

(** One endpoint in three environments. *)
Definition endpoint_table (host : string) : value :=
  VObject [("version", VNumber (num 1)); ("endpoint", VArray [VObject
    [("endpoint_id", VString "ep_0001"); ("name", VString "redis_default"); ("kind", VString "redis");
     ("resolver", VObject [("type", VString "static"); ("host", VString host);
                           ("port", VNumber (num 6379))])]])].
Definition sample_toml (path : string) : result value :=
  Ok (endpoint_table (if includes path "prod" then "redis.internal" else "localhost")).

Lemma parseEndpoints_correct_witness :
  ∃ r, parseEndpoints string_cmp sample_toml "registry" = Ok r ∧
    endpoint_id <$> prod r = ["ep_0001"] ∧ Forall endpoint_ok (prod r) ∧
    public <$> dev r ≡ₚ public <$> prod r.
Proof.
  destruct (parseEndpoints string_cmp sample_toml "registry") as [r|] eqn:E; [|by vm_compute in E].
  destruct (parseEndpoints_correct string_cmp sample_toml "registry" r) as [H1 H2].
  exists r. split; [done|]. split; [vm_compute in E; by injection E as <-|].
  split.
  - apply H2 in E as [E _]. by apply Forall_cons in E as [_ [_ [[E _] _]%Forall_cons]%Forall_cons].
  - by apply H1 in E as (_ & _ & _ & _ & ?).
Defined.

(** Kinds that differ are refused. *)
Example kind_mismatch :
  parseEndpoints string_cmp (λ path, match sample_toml path with
    | Ok (VObject [v; ("endpoint", VArray [VObject (i :: n :: (k, x) :: r)])]) =>
        Ok (VObject [v; ("endpoint", VArray [VObject (i :: n ::
          (k, if includes path "prod" then VString "http" else x) :: r)])])
    | x => x
    end) "registry"
  = Throw (Error ("endpoint ep_0001: kind mismatch (dev=" +:+ quoted "redis" +:+ ", prod="
      +:+ quoted "http" +:+ ")")).
Proof. by vm_compute. Qed.
