(* ===== verification/TaskRegistry.v ===== *)
(** * TaskRegistry: the registries of tasks and capabilities
    (dsl/src/codegen/parsers.ts, [parseTasks] and [parseCapabilities])

    Both hold JSON inside TOML strings: the effect of a task and the payload schema of a
    capability.  As in Registry.v the parsed TOML is given, and as in Endpoints.v
    [localeCompare] is a parameter; so is the text of the [SyntaxError] that [JSON.parse]
    throws, which the host chooses. *)

From S2P Require Import Prelude Collections JsNumber JsValue Json Registry Endpoints StableStringify.

(** ** types.ts *)

Definition CAPABILITY_STATUSES : list string := ["implemented"; "draft"; "deprecated"; "blocked"].
Definition TASK_PARAM_TYPES : list string :=
  ["int"; "float"; "bool"; "string"; "expr_id"; "pred_id"; "node_ref"; "endpoint_ref"].
Definition isCapabilityStatus : value → bool := one_of CAPABILITY_STATUSES.
Definition isTaskParamType : value → bool := one_of TASK_PARAM_TYPES.

Record TaskParamEntry := {
  tparam_name : string; tparam_type : string; tparam_required : bool; tparam_nullable : bool;
  tparam_endpoint_kind : option string;
}.
Record TaskEntry := {
  op : string; output_pattern : string; params : list TaskParamEntry;
  (* what [JSON.parse] made of it, or undefined *)
  writes_effect : value;
}.
Record TaskRegistry := {
  tasks_version : number; manifest_digest : string; tasks : list TaskEntry }.

Record CapabilityEntry := {
  cap_id : string; rfc : string; cap_name : string; cap_status : string; cap_doc : string;
  (* what [JSON.parse] made of it, or null *)
  payload_schema : value;
}.

Section parsers.
Context (localeCompare : string → string → comparison).
Context (syntaxError : string → string).

(** [try { JSON.parse(t) } catch (e) { throw new Error(`${what} is not valid JSON: ${e}`) }] *)
Definition parse_json (what t : string) : result value :=
  match JSON_parse t with
  | Some v => Ok v
  | None => Throw (Error (what +:+ " is not valid JSON: " +:+ syntaxError t))
  end.

(** ** Tasks *)

Definition read_endpoint_kind (where_ type : string) (p : value) : result (option string) :=
  kind ← get_prop p "endpoint_kind";
  if String.eqb type "endpoint_ref" then
    if is_undefined kind then Ok None
    else if isEndpointKind kind then Ok (Some (text kind))
    else Throw (Error (where_ +:+ "endpoint_kind must be one of redis, http"))
  else
    throw_if (negb (is_undefined kind))
      (where_ +:+ "endpoint_kind is only valid for endpoint_ref params") ;;
    Ok None.

Definition read_task_param (op : string) (p : value) : result TaskParamEntry :=
  let where_ := "task " +:+ op +:+ ": " in
  throw_if (negb (is_object p)) (where_ +:+ "invalid param entry") ;;
  name ← field assertString p "name";
  type ← typed isTaskParamType (where_ +:+ "invalid param type: ") p;
  required ← field assertBoolean p "required";
  nullable ← field assertBoolean p "nullable";
  kind ← read_endpoint_kind where_ type p;
  Ok {| tparam_name := name; tparam_type := type; tparam_required := required;
        tparam_nullable := nullable; tparam_endpoint_kind := kind |}.

Definition read_effect (op : string) (r : value) : result value :=
  v ← get_prop r "writes_effect";
  if is_undefined v then Ok VUndefined
  else
    effectStr ← assertString v "writes_effect";
    parse_json ("task " +:+ op +:+ ": writes_effect") (trim effectStr).

Definition read_task_params (op : string) (r : value) : result (list TaskParamEntry) :=
  rawParams ← get_prop r "param";
  match rawParams with
  | VUndefined => Ok []
  | VArray l => fold_result (λ ps p, e ← read_task_param op p; Ok (ps ++ [e])) [] l
  | _ => Throw (Error ("task " +:+ op +:+ ": expected [[task.param]] array"))
  end.

Definition read_task (r : value) : result TaskEntry :=
  throw_if (negb (is_object r)) "Invalid task entry" ;;
  op ← field assertString r "op";
  outputPattern ← field assertString r "output_pattern";
  writesEffect ← read_effect op r;
  params ← read_task_params op r;
  Ok {| op := op; output_pattern := outputPattern; params := params;
        writes_effect := writesEffect |}.

Definition parseTasks (parsed : value) : result TaskRegistry :=
  throw_if (negb (is_object parsed)) "Invalid TOML structure in tasks.toml" ;;
  schemaVersion ← field assertNumber parsed "schema_version";
  throw_if (negb (num_eqb schemaVersion (num 1)))
    ("Unsupported tasks.toml schema_version: " +:+ num_to_string schemaVersion) ;;
  manifestDigest ← field assertString parsed "manifest_digest";
  rawTasks ← get_prop parsed "task";
  match rawTasks with
  | VArray l =>
      tasks ← fold_result (λ ts r, e ← read_task r; Ok (ts ++ [e])) [] l;
      Ok {| tasks_version := schemaVersion; manifest_digest := manifestDigest;
            tasks := js_sort (cmp_on localeCompare op) tasks |}
  | _ => Throw (Error "Expected [[task]] array in tasks.toml")
  end.

(** ** Capabilities *)

Definition read_schema (id : string) (r : value) : result value :=
  let where_ := "capability " +:+ id +:+ ": " in
  schemaStr ← get_prop r "payload_schema";
  match schemaStr with
  | VUndefined => Ok VNull
  | VString t =>
      schema ← parse_json (where_ +:+ "payload_schema") t;
      type ← get_prop schema "type";
      if one_of ["object"] type then Ok schema
      else
        shown ← template type;
        Throw (Error (where_ +:+ "payload_schema.type must be " +:+ quoted "object" +:+
                      ", got " +:+ quoted shown))
  | _ => Throw (Error (where_ +:+ "payload_schema must be a string (JSON)" +:+ dq))
  end.

Definition read_capability (r : value) : result CapabilityEntry :=
  throw_if (negb (is_object r)) "Invalid capability entry" ;;
  id ← field assertString r "id";
  rfc ← field assertString r "rfc";
  name ← field assertString r "name";
  status ← (v ← get_prop r "status";
            if isCapabilityStatus v then Ok (text v)
            else throw_value "Invalid capability status: " v);
  doc ← field assertString r "doc";
  schema ← read_schema id r;
  Ok {| cap_id := id; rfc := rfc; cap_name := name; cap_status := status; cap_doc := doc;
        payload_schema := schema |}.

Definition capability_step (s : list CapabilityEntry * list string) (raw : value)
    : result (list CapabilityEntry * list string) :=
  let '(entries, seenIds) := s in
  e ← read_capability raw;
  throw_if (string_set_has seenIds (cap_id e)) ("Duplicate capability id: " +:+ cap_id e) ;;
  Ok (entries ++ [e], string_set_add seenIds (cap_id e)).

Definition parseCapabilities (parsed : value) : result (list CapabilityEntry) :=
  throw_if (negb (is_object parsed)) "Invalid TOML structure in capabilities.toml" ;;
  schemaVersion ← get_prop parsed "schema_version";
  (if match schemaVersion with VNumber n => num_eqb n (num 1) | _ => false end then Ok tt
   else throw_value "Unsupported capabilities.toml schema_version: " schemaVersion) ;;
  rawCaps ← get_prop parsed "capability";
  match rawCaps with
  | VArray l =>
      '(entries, _) ← fold_result capability_step ([], []) l;
      Ok (js_sort (cmp_on localeCompare cap_id) entries)
  | _ => Throw (Error "Expected [[capability]] array in capabilities.toml")
  end.
End parsers.

(** ** What an entry must be *)

Record param_reads (p : value) (e : TaskParamEntry) : Prop := {
  param_reads_object : is_object p = true;
  param_reads_name : get_prop p "name" = Ok (VString (tparam_name e));
  param_reads_type : get_prop p "type" = Ok (VString (tparam_type e));
  param_reads_known : tparam_type e ∈ TASK_PARAM_TYPES;
  param_reads_required : get_prop p "required" = Ok (VBool (tparam_required e));
  param_reads_nullable : get_prop p "nullable" = Ok (VBool (tparam_nullable e));
  (* only an [endpoint_ref] has a kind, and it need not *)
  param_reads_kind : get_prop p "endpoint_kind" = Ok
    (match tparam_endpoint_kind e with Some k => VString k | None => VUndefined end);
  param_reads_endpoint : ∀ k, tparam_endpoint_kind e = Some k →
    tparam_type e = "endpoint_ref" ∧ k ∈ ENDPOINT_KINDS;
}.

(** The text of a field that holds JSON, and what it denotes. *)
Definition effect_reads (r : value) (v : value) : Prop :=
  get_prop r "writes_effect" = Ok VUndefined ∧ v = VUndefined ∨
  ∃ t, get_prop r "writes_effect" = Ok (VString t) ∧ JSON_parse (trim t) = Some v.

Definition schema_reads (r : value) (v : value) : Prop :=
  get_prop r "payload_schema" = Ok VUndefined ∧ v = VNull ∨
  ∃ t, get_prop r "payload_schema" = Ok (VString t) ∧ JSON_parse t = Some v ∧
    get_prop v "type" = Ok (VString "object").

Record task_reads (r : value) (e : TaskEntry) : Prop := {
  task_reads_object : is_object r = true;
  task_reads_op : get_prop r "op" = Ok (VString (op e));
  task_reads_pattern : get_prop r "output_pattern" = Ok (VString (output_pattern e));
  task_reads_effect : effect_reads r (writes_effect e);
  task_reads_params : get_prop r "param" = Ok VUndefined ∧ params e = [] ∨
    ∃ l, get_prop r "param" = Ok (VArray l) ∧ Forall2 param_reads l (params e);
}.

Record capability_reads (r : value) (e : CapabilityEntry) : Prop := {
  capability_reads_object : is_object r = true;
  capability_reads_id : get_prop r "id" = Ok (VString (cap_id e));
  capability_reads_rfc : get_prop r "rfc" = Ok (VString (rfc e));
  capability_reads_name : get_prop r "name" = Ok (VString (cap_name e));
  capability_reads_status : get_prop r "status" = Ok (VString (cap_status e));
  capability_reads_known : cap_status e ∈ CAPABILITY_STATUSES;
  capability_reads_doc : get_prop r "doc" = Ok (VString (cap_doc e));
  capability_reads_schema : schema_reads r (payload_schema e);
}.

(** ** Fields *)

Lemma field_string_iff r k s : field assertString r k = Ok s ↔ get_prop r k = Ok (VString s).
Proof.
  unfold field. rewrite bind_Ok. split.
  - intros (v & -> & H). destruct v; by simplify_eq/=.
  - intros ->. by eexists.
Qed.

Lemma field_bool_iff r k b : field assertBoolean r k = Ok b ↔ get_prop r k = Ok (VBool b).
Proof.
  unfold field. rewrite bind_Ok. split.
  - intros (v & -> & H). destruct v; by simplify_eq/=.
  - intros ->. by eexists.
Qed.

Lemma field_number_iff r k n : field assertNumber r k = Ok n ↔ get_prop r k = Ok (VNumber n).
Proof.
  unfold field. rewrite bind_Ok. split.
  - intros (v & -> & H). destruct v; by simplify_eq/=.
  - intros ->. by eexists.
Qed.

Lemma one_of_true l v : one_of l v = true ↔ ∃ s, v = VString s ∧ s ∈ l.
Proof.
  destruct v; cbn; try naive_solver. unfold string_elem. rewrite bool_decide_eq_true. naive_solver.
Qed.

(** A property that must be one of some strings. *)
Lemma one_of_field (is_type : value → bool) l (fail : value → result string) r k s :
  (∀ v, is_type v = one_of l v) → (∀ v t, fail v ≠ Ok t) →
  (v ← get_prop r k; if is_type v then Ok (text v) else fail v) = Ok s ↔
  get_prop r k = Ok (VString s) ∧ s ∈ l.
Proof.
  intros Hl Hf. rewrite bind_Ok. setoid_rewrite Hl. split.
  - intros (v & Hv & H). destruct (one_of l v) eqn:E; [|by apply Hf in H].
    apply one_of_true in E as (t & -> & Ht). by injection H as <-.
  - intros [Hv Hs]. exists (VString s). split; [done|].
    assert (one_of l (VString s) = true) as -> by (apply one_of_true; eauto). done.
Qed.

Lemma Forall2_proper_iff {A B} (P Q : A → B → Prop) l k :
  (∀ x y, P x y ↔ Q x y) → Forall2 P l k ↔ Forall2 Q l k.
Proof. intros H. split; intros Hl; eapply Forall2_impl; [done|apply H|done|apply H]. Qed.

#[local] Tactic Notation "binds" hyp(H) :=
  repeat (apply bind_Ok in H; destruct H as (? & ? & H)).
#[local] Ltac read_fields :=
  repeat match goal with
  | H : field assertString _ _ = _ |- _ => apply field_string_iff in H
  | H : field assertBoolean _ _ = _ |- _ => apply field_bool_iff in H
  | H : field assertNumber _ _ = _ |- _ => apply field_number_iff in H
  end.
#[local] Tactic Notation "reads" constr(x) := apply bind_Ok; exists x; split.

(** The check of a version that any value may have. *)
Lemma version_one prefix v :
  (if match v with VNumber n => num_eqb n (num 1) | _ => false end then Ok tt
   else throw_value prefix v) = Ok tt → v = VNumber (num 1).
Proof.
  destruct v; try (by intros []%throw_value_Ok). destruct (num_eqb n (num 1)) eqn:En.
  - by apply num_eqb_one in En as ->.
  - by intros []%throw_value_Ok.
Qed.

Section parsers_read.
Context (localeCompare : string → string → comparison) (syntaxError : string → string).

Lemma parse_json_iff what t v : parse_json syntaxError what t = Ok v ↔ JSON_parse t = Some v.
Proof. unfold parse_json. destruct (JSON_parse t); naive_solver. Qed.

Lemma read_endpoint_kind_iff w type p kind :
  read_endpoint_kind w type p = Ok kind ↔
  get_prop p "endpoint_kind" = Ok (match kind with Some k => VString k | None => VUndefined end) ∧
  (∀ k, kind = Some k → type = "endpoint_ref" ∧ k ∈ ENDPOINT_KINDS).
Proof.
  unfold read_endpoint_kind. rewrite bind_Ok. split.
  - intros (v & Hv & H). destruct (String.eqb_spec type "endpoint_ref") as [->|].
    + destruct v as [| | | |t| | | | | |]; simplify_eq/=; try done.
      destruct (string_elem ENDPOINT_KINDS t) eqn:E; [|done]. injection H as <-.
      split; [done|]. intros k [= <-]. split; [done|]. by apply bool_decide_eq_true in E.
    + apply bind_Ok_unit in H as [H%throw_if_Ok%negb_false_iff [= <-]]. by destruct v.
  - intros [Hv H]. eexists. split; [done|]. destruct kind as [k|].
    + destruct (H k eq_refl) as [-> Hk]. cbn [is_undefined]. change (String.eqb "endpoint_ref" "endpoint_ref") with true. cbv iota.
      assert (isEndpointKind (VString k) = true) as -> by (apply one_of_true; eauto). done.
    + by destruct (String.eqb type "endpoint_ref").
Qed.

Lemma read_task_param_iff o p e : read_task_param o p = Ok e ↔ param_reads p e.
Proof.
  unfold read_task_param. rewrite bind_Ok_unit, throw_if_Ok, negb_false_iff. split.
  - intros (Ho & H). binds H. injection H as <-. read_fields.
    match goal with H : typed _ _ _ = _ |- _ =>
      apply (one_of_field isTaskParamType TASK_PARAM_TYPES) in H as [? ?];
        [|done|intros; apply throw_value_Ok] end.
    match goal with H : read_endpoint_kind _ _ _ = _ |- _ =>
      apply read_endpoint_kind_iff in H as [? ?] end.
    by split.
  - intros [Ho Hn Ht Hin Hr Hu Hk Hkind]. split; [done|].
    reads (tparam_name e). { by apply field_string_iff. }
    reads (tparam_type e).
    { by apply (one_of_field isTaskParamType TASK_PARAM_TYPES); [|intros; apply throw_value_Ok|]. }
    reads (tparam_required e). { by apply field_bool_iff. }
    reads (tparam_nullable e). { by apply field_bool_iff. }
    reads (tparam_endpoint_kind e). { by apply read_endpoint_kind_iff. }
    by destruct e.
Qed.

Lemma read_effect_iff o r v : read_effect syntaxError o r = Ok v ↔ effect_reads r v.
Proof.
  unfold read_effect, effect_reads. rewrite bind_Ok. split.
  - intros (w & Hw & H). destruct w; try done; cbn in H.
    + left. split; [done|congruence].
    + right. eexists. split; [done|]. by apply parse_json_iff in H.
  - intros [[Hw ->]|(t & Hw & Hv)]; (eexists; split; [done|]); cbn; [done|]. by apply parse_json_iff.
Qed.

Lemma read_task_params_iff o r ps :
  read_task_params o r = Ok ps ↔
  get_prop r "param" = Ok VUndefined ∧ ps = [] ∨
  ∃ l, get_prop r "param" = Ok (VArray l) ∧ Forall2 param_reads l ps.
Proof.
  assert (∀ l, fold_result (λ ps p, e ← read_task_param o p; Ok (ps ++ [e])) [] l = Ok ps ↔
    Forall2 param_reads l ps) as Hf.
  { intros l. rewrite fold_result_push. apply Forall2_proper_iff. apply read_task_param_iff. }
  unfold read_task_params. rewrite bind_Ok. split.
  - intros (v & Hv & H). destruct v; try done.
    + left. split; [done|congruence].
    + right. eexists. split; [done|]. by apply Hf.
  - intros [[Hv ->]|(l & Hv & H)]; (eexists; split; [done|]); [done|]. by apply Hf.
Qed.

Lemma read_task_iff r e : read_task syntaxError r = Ok e ↔ task_reads r e.
Proof.
  unfold read_task. rewrite bind_Ok_unit, throw_if_Ok, negb_false_iff.
  split.
  - intros (Ho & H). binds H. injection H as <-. read_fields.
    split; try done; [by eapply read_effect_iff|by eapply read_task_params_iff].
  - intros [Ho Hop Hpat Heff Hps]. split; [done|].
    reads (op e). { by apply field_string_iff. }
    reads (output_pattern e). { by apply field_string_iff. }
    reads (writes_effect e). { by apply read_effect_iff. }
    reads (params e). { by apply read_task_params_iff. }
    by destruct e.
Qed.

Lemma read_schema_iff id r v : read_schema syntaxError id r = Ok v ↔ schema_reads r v.
Proof.
  unfold read_schema, schema_reads. rewrite bind_Ok. split.
  - intros (w & Hw & H). destruct w as [| | | |t| | | | | |]; try done.
    + left. split; [done|congruence].
    + right. exists t. split; [done|]. apply bind_Ok in H as (x & Hx%parse_json_iff & H).
      apply bind_Ok in H as (ty & Hty & H). destruct (one_of ["object"] ty) eqn:E.
      * injection H as <-. apply one_of_true in E as (k & -> & ->%list_elem_of_singleton). done.
      * by apply bind_Ok in H as (? & _ & ?).
  - intros [[Hw ->]|(t & Hw & Hv & Ht)]; (eexists; split; [done|]); [done|].
    reads v. { by apply parse_json_iff. }
    by reads (VString "object").
Qed.

Lemma read_capability_iff r e : read_capability syntaxError r = Ok e ↔ capability_reads r e.
Proof.
  unfold read_capability. rewrite bind_Ok_unit, throw_if_Ok, negb_false_iff. split.
  - intros (Ho & H). apply bind_Ok in H as (id & Hid & H). apply bind_Ok in H as (rf & Hrf & H).
    apply bind_Ok in H as (n & Hn & H). apply bind_Ok in H as (st & Hst & H).
    apply bind_Ok in H as (d & Hd & H). apply bind_Ok in H as (sc & Hsc & H).
    injection H as <-. read_fields.
    apply (one_of_field isCapabilityStatus CAPABILITY_STATUSES) in Hst as [? ?];
      [|done|intros; apply throw_value_Ok].
    apply read_schema_iff in Hsc. by split.
  - intros [Ho Hid Hrf Hn Hst Hin Hd Hsc]. split; [done|].
    reads (cap_id e). { by apply field_string_iff. }
    reads (rfc e). { by apply field_string_iff. }
    reads (cap_name e). { by apply field_string_iff. }
    reads (cap_status e).
    { by apply (one_of_field isCapabilityStatus CAPABILITY_STATUSES); [|intros; apply throw_value_Ok|]. }
    reads (cap_doc e). { by apply field_string_iff. }
    reads (payload_schema e). { by apply read_schema_iff. }
    by destruct e.
Qed.

(** ** The files *)

(** C40: [parseTasks] accepts exactly the tables of version 1 whose tasks and parameters are
    well typed, with an endpoint kind only on endpoint references and an effect that is
    JSON; it keeps every task, with what its JSON denotes, in the order of the operators. *)
Theorem parseTasks_correct parsed reg :
  (parseTasks localeCompare syntaxError parsed = Ok reg ↔
   ∃ l es, is_object parsed = true ∧ get_prop parsed "schema_version" = Ok (VNumber (num 1)) ∧
     tasks_version reg = num 1 ∧
     get_prop parsed "manifest_digest" = Ok (VString (manifest_digest reg)) ∧
     get_prop parsed "task" = Ok (VArray l) ∧ Forall2 task_reads l es ∧
     tasks reg = js_sort (cmp_on localeCompare op) es) ∧
  (parseTasks localeCompare syntaxError parsed = Ok reg → Consistent localeCompare (λ _, True) →
   StronglySorted (cmp_le (cmp_on localeCompare op)) (tasks reg)).
Proof.
  assert (parseTasks localeCompare syntaxError parsed = Ok reg ↔
   ∃ l es, is_object parsed = true ∧ get_prop parsed "schema_version" = Ok (VNumber (num 1)) ∧
     tasks_version reg = num 1 ∧
     get_prop parsed "manifest_digest" = Ok (VString (manifest_digest reg)) ∧
     get_prop parsed "task" = Ok (VArray l) ∧ Forall2 task_reads l es ∧
     tasks reg = js_sort (cmp_on localeCompare op) es) as Hiff.
  { unfold parseTasks. rewrite bind_Ok_unit, throw_if_Ok, negb_false_iff. split.
    - intros (Ho & H). apply bind_Ok in H as (n & Hn%field_number_iff & H).
      apply bind_Ok_unit in H as [He%throw_if_Ok%negb_false_iff%num_eqb_one H].
      apply bind_Ok in H as (d & Hd%field_string_iff & H).
      apply bind_Ok in H as (v & Hv & H). destruct v as [| | | | | | |l| | |]; try done.
      apply bind_Ok in H as (es & Hes%fold_result_push & [= <-]). subst n.
      exists l, es. split_and!; try done. eapply Forall2_impl; [exact Hes|apply read_task_iff].
    - intros (l & es & Ho & Hn & Hver & Hd & Hl & Hes & Hs). split; [done|].
      reads (num 1). { by apply field_number_iff. }
      apply bind_Ok_unit. split; [done|].
      reads (manifest_digest reg). { by apply field_string_iff. }
      rewrite Hl. cbn [mbind result_bind].
      reads es. { apply fold_result_push. eapply Forall2_impl; [exact Hes|apply read_task_iff]. }
      by rewrite <-Hs, <-Hver; destruct reg. }
  split; [exact Hiff|]. intros (l & es & _ & _ & _ & _ & _ & _ & ->)%Hiff Hc.
  assert (Consistent (cmp_on localeCompare op) (λ _, True)) as Hop
    by exact (cmp_on_consistent localeCompare op (λ _, True)).
  apply (js_sort_sorted _ (λ _, True)). by apply Forall_forall.
Qed.

Lemma NoDup_fmap_elem {A B} (f : A → B) l x y :
  NoDup (f <$> l) → x ∈ l → y ∈ l → f x = f y → x = y.
Proof.
  intros Hnd [i Hi]%list_elem_of_lookup [j Hj]%list_elem_of_lookup Hf.
  assert (i = j) as ->; [|congruence]. apply (NoDup_lookup (f <$> l) i j (f x)); [done| |];
    rewrite list_lookup_fmap; [by rewrite Hi|by rewrite Hj, Hf].
Qed.

(** The loop over capabilities. *)
Definition push_capability (s : list CapabilityEntry * list string) (e : CapabilityEntry) :=
  (s.1 ++ [e], string_set_add s.2 (cap_id e)).

Lemma push_capability_entries es : ∀ s, (foldl push_capability s es).1 = s.1 ++ es.
Proof.
  induction es as [|e es IH]; intros s; cbn [foldl]; [by rewrite app_nil_r|].
  rewrite IH. unfold push_capability. cbn [fst snd]. by rewrite <-app_assoc.
Qed.

Lemma capabilities_collect l s :
  fold_result (capability_step syntaxError) ([], []) l = Ok s ↔
  ∃ es, Forall2 (λ r e, read_capability syntaxError r = Ok e) l es ∧ Forall (λ _, True) es ∧
    NoDup (cap_id <$> es) ∧ s = foldl push_capability ([], []) es.
Proof.
  apply (collect_Ok (capability_step syntaxError) (read_capability syntaxError) (λ _, True) fst
    push_capability (λ s, NoDup (cap_id <$> s.1) ∧ ∀ i, i ∈ s.2 ↔ i ∈ cap_id <$> s.1)
    (λ es, NoDup (cap_id <$> es))).
  - intros l1 l2 H. rewrite fmap_app, NoDup_app in H. apply H.
  - by intros ? [? _].
  - done.
  - intros t e [_ Hi] Hd. split; [done|]. cbn [push_capability fst snd].
    intros i. rewrite string_set_add_elem_of, fmap_app, elem_of_app, Hi. cbn.
    by rewrite list_elem_of_singleton.
  - intros [es ids] raw t [Hd Hi]. cbn [fst snd] in Hd, Hi |- *. unfold capability_step.
    rewrite bind_Ok. setoid_rewrite bind_Ok_unit. setoid_rewrite throw_if_Ok.
    setoid_rewrite string_set_has_false. setoid_rewrite Hi. setoid_rewrite fmap_app. cbn [fmap list_fmap].
    setoid_rewrite NoDup_snoc. unfold push_capability. cbn [fst snd]. naive_solver.
  - split; [constructor|done].
Qed.

Lemma parseCapabilities_iff parsed es' :
  parseCapabilities localeCompare syntaxError parsed = Ok es' ↔
  ∃ l es, is_object parsed = true ∧ get_prop parsed "schema_version" = Ok (VNumber (num 1)) ∧
    get_prop parsed "capability" = Ok (VArray l) ∧ Forall2 capability_reads l es ∧
    NoDup (cap_id <$> es) ∧ es' = js_sort (cmp_on localeCompare cap_id) es.
Proof.
  unfold parseCapabilities. rewrite bind_Ok_unit, throw_if_Ok, negb_false_iff. split.
  - intros (Ho & H). apply bind_Ok in H as (v & Hv & [H1 H]%bind_Ok_unit).
    apply version_one in H1 as ->.
    apply bind_Ok in H as (w & Hw & H). destruct w as [| | | | | | |l| | |]; try done.
    apply bind_Ok in H as ([es ids] & (es0 & Hes & _ & Hd & Hs)%capabilities_collect & [= <-]).
    pose proof (push_capability_entries es0 ([], [])) as He. rewrite <-Hs in He. cbn in He. subst es0.
    exists l, es. split_and!; try done. eapply Forall2_impl; [exact Hes|apply read_capability_iff].
  - intros (l & es & Ho & Hv & Hl & Hes & Hd & ->). split; [done|].
    reads (VNumber (num 1)). { done. }
    apply bind_Ok_unit. split; [done|]. rewrite Hl. cbn [mbind result_bind].
    reads (foldl push_capability ([], []) es).
    + apply capabilities_collect. exists es. split_and!; try done; [|by apply Forall_forall].
      eapply Forall2_impl; [exact Hes|apply read_capability_iff].
    + pose proof (push_capability_entries es ([], [])) as He.
      destruct (foldl push_capability _ es) as [es0 ids]. cbn in He. by subst es0.
Qed.

(** [parseCapabilities] accepts exactly the tables of version 1 whose entries are well
    typed, with distinct ids and payload schemas that are JSON for an object type; it
    keeps them all with the schema their JSON denotes.  When [localeCompare] orders
    distinct ids apart, entries written in another order give the same registry. *)
Theorem parseCapabilities_correct parsed es' :
  (parseCapabilities localeCompare syntaxError parsed = Ok es' ↔
   ∃ l es, is_object parsed = true ∧ get_prop parsed "schema_version" = Ok (VNumber (num 1)) ∧
     get_prop parsed "capability" = Ok (VArray l) ∧ Forall2 capability_reads l es ∧
     NoDup (cap_id <$> es) ∧ es' = js_sort (cmp_on localeCompare cap_id) es) ∧
  (parseCapabilities localeCompare syntaxError parsed = Ok es' →
   Consistent localeCompare (λ _, True) →
   (∀ x y, cmp_le localeCompare x y → cmp_le localeCompare y x → x = y) →
   ∀ parsed' l l', get_prop parsed "capability" = Ok (VArray l) →
   is_object parsed' = true → get_prop parsed' "schema_version" = get_prop parsed "schema_version" →
   get_prop parsed' "capability" = Ok (VArray l') → l ≡ₚ l' →
   parseCapabilities localeCompare syntaxError parsed' = Ok es').
Proof.
  split; [apply parseCapabilities_iff|].
  intros (l0 & es & Ho & Hv & Hl0 & Hes & Hd & ->)%parseCapabilities_iff Hc Hanti parsed' l l' Hl
    Ho' Hv' Hl' Hp. rewrite Hl0 in Hl. injection Hl as ->.
  destruct (Permutation_Forall2 Hp Hes) as (es' & Hpe & Hes').
  apply parseCapabilities_iff. exists l', es'. rewrite Hv'.
  assert (NoDup (cap_id <$> es')) as Hd' by by rewrite <-Hpe.
  split_and!; try done.
  assert (Consistent (cmp_on localeCompare cap_id) (λ e, e ∈ es)) as Hcs.
  { eapply consistent_weaken; [|by apply (cmp_on_consistent localeCompare cap_id (λ _, True))]. done. }
  apply (js_sort_perm_eq _ (λ e, e ∈ es)); [|by apply Forall_forall|done].
  intros x y Hx Hy H1 H2. apply (NoDup_fmap_elem cap_id es); [done..|]. by apply Hanti.
Qed.
End parsers_read.

(** A task with an effect and one without. *)
Definition sample_tasks : value :=
  VObject [("schema_version", VNumber (num 1)); ("manifest_digest", VString "4a2e");
    ("task", VArray [
      VObject [("op", VString "core::vm"); ("output_pattern", VString "UnaryPreserveView");
        ("writes_effect", VString (" {" +:+ quoted "kind" +:+ ":" +:+ quoted "Keys" +:+ "} "))];
      VObject [("op", VString "core::follow"); ("output_pattern", VString "VariableDense");
        ("param", VArray [VObject [("name", VString "endpoint"); ("type", VString "endpoint_ref");
          ("required", VBool true); ("nullable", VBool false);
          ("endpoint_kind", VString "redis")]])]])].

Lemma parseTasks_correct_witness :
  ∃ reg, parseTasks string_cmp id sample_tasks = Ok reg ∧
    op <$> tasks reg = ["core::follow"; "core::vm"] ∧
    writes_effect <$> tasks reg = [VUndefined; VObject [("kind", VString "Keys")]] ∧
    StronglySorted (cmp_le (cmp_on string_cmp op)) (tasks reg).
Proof.
  destruct (parseTasks string_cmp id sample_tasks) as [reg|] eqn:E; [|by vm_compute in E].
  pose proof (proj2 (parseTasks_correct string_cmp id sample_tasks reg) E _) as Hs.
  exists reg. split; [done|].
  split; [vm_compute in E; by injection E as <-|].
  split; [vm_compute in E; by injection E as <-|exact Hs].
Defined.

(** Two capabilities, out of order. *)
Definition sample_capabilities (ids : list string) : value :=
  VObject [("schema_version", VNumber (num 1)); ("capability", VArray (map (λ i,
    VObject [("id", VString i); ("rfc", VString "0001"); ("name", VString i);
      ("status", VString "draft"); ("doc", VString EmptyString);
      ("payload_schema", VString ("{" +:+ quoted "type" +:+ ":" +:+ quoted "object" +:+ "}"))]) ids))].

Lemma parseCapabilities_correct_witness :
  ∃ es, parseCapabilities string_cmp id (sample_capabilities ["b"; "a"]) = Ok es ∧
    cap_id <$> es = ["a"; "b"] ∧
    parseCapabilities string_cmp id (sample_capabilities ["a"; "b"]) = Ok es.
Proof.
  destruct (parseCapabilities string_cmp id (sample_capabilities ["b"; "a"])) as [es|] eqn:E;
    [|by vm_compute in E].
  destruct (parseCapabilities_correct string_cmp id (sample_capabilities ["b"; "a"]) es) as [_ H].
  exists es. split; [done|]. split; [vm_compute in E; by injection E as <-|].
  eapply (H E); [apply _|apply string_cmp_le_antisym|reflexivity..|apply Permutation_swap].
Defined.

(** A schema that is the JSON text [null] is a [TypeError], not the error the code means. *)
Example null_schema :
  read_schema id "cap.x" (VObject [("payload_schema", VString "null")]) = Throw TypeError.
Proof. by vm_compute. Qed.

(** Unlike the other registries, tasks may repeat an operator. *)
Example repeated_op :
  let t := VObject [("op", VString "core::vm"); ("output_pattern", VString "SourceFanoutDense")] in
  ∃ reg, parseTasks string_cmp id (VObject [("schema_version", VNumber (num 1));
    ("manifest_digest", VString "4a2e"); ("task", VArray [t; t])]) = Ok reg ∧
    op <$> tasks reg = ["core::vm"; "core::vm"].
Proof. eexists. split; by vm_compute. Qed.
