(* ===== verification/Bundler.v ===== *)
(** * Bundler: what a plan may import (dsl/packages/compiler/src/bundler.ts)

    The bundling itself is esbuild's, a parameter; modelled are the options it gets, the
    import restriction among them, and the use made of its result. *)

From S2P Require Import Prelude JsValue.

Definition ALLOWED_PACKAGES : list string := ["@ranking-dsl/runtime"; "@ranking-dsl/generated"].

Definition isAllowedImport (importPath importer : string) : bool :=
  existsb (λ pkg, String.eqb importPath pkg || startsWith importPath (pkg +:+ "/")) ALLOWED_PACKAGES
  || (endsWith importPath ".fragment" || endsWith importPath ".fragment.ts")
  || (includes importer "/packages/runtime/" || includes importer "/packages/generated/").

(** What [onResolve] gets of an import. *)
Record OnResolveArgs := { kind : string; path : string; importer : string }.

Definition isFromPlan (entryPoint importer : string) : bool :=
  String.eqb importer entryPoint || endsWith importer ".plan.ts" || includes importer "/plans/".

(** The error of [importRestrictionPlugin], if it has one. *)
Definition importRestriction (entryPoint : string) (args : OnResolveArgs) : option string :=
  if String.eqb (kind args) "entry-point" then None
  else if String.eqb (importer args) EmptyString then None
  else if isFromPlan entryPoint (importer args) &&
          negb (isAllowedImport (path args) (importer args))
  then Some ("Import " +:+ quoted (path args) +:+ " is not allowed in plans. Plans may only import " +:+
             "from: @ranking-dsl/runtime, @ranking-dsl/generated, and *.fragment.ts files.")
  else None.

(** ** bundlePlan *)

Record BundleOptions := {
  entryPoint : string; repoRoot : string;
  virtualEntry : option string;              (* contents instead of the file's *)
}.

(** What esbuild is asked; a plugin is its [onResolve]. *)
Module Esbuild.
Record StdinOptions := { contents : string; sourcefile : string; resolveDir : string; loader : string }.
Record BuildOptions := {
  bundle : bool; format : string; platform : string; target : string; write : bool;
  logLevel : string; outfile : string;
  define : list (string * string);
  alias : list (string * string);
  inject : list string;
  plugins : list (OnResolveArgs → option string);
  stdin : option StdinOptions;
  entryPoints : list string;
}.
End Esbuild.

(** [resolve(root, path)] for an absolute [root] and a [path] without dots *)
Definition resolve (root path : string) : string :=
  (if endsWith root "/" then root else root +:+ "/") +:+ path.
(** [dirname], of a path that does not end with a slash *)
Fixpoint before_last_slash (s : string) : option string :=
  match s with
  | EmptyString => None
  | String c s' =>
      match before_last_slash s' with
      | Some d => Some (String c d)
      | None => if Ascii.eqb c "/" then Some EmptyString else None
      end
  end.
Definition dirname (path : string) : string :=
  match before_last_slash path with None => "." | Some EmptyString => "/" | Some d => d end.

Definition buildOptions (options : BundleOptions) : Esbuild.BuildOptions := {|
  Esbuild.bundle := true; Esbuild.format := "iife"; Esbuild.platform := "neutral"; Esbuild.target := "es2020";
  Esbuild.write := false; Esbuild.logLevel := "silent"; Esbuild.outfile := "bundle.js";
  Esbuild.define := [("process.env.NODE_ENV", quoted "production")];
  Esbuild.alias :=
    [("@ranking-dsl/runtime", resolve (repoRoot options) "dsl/packages/runtime/src/index.ts");
     ("@ranking-dsl/generated", resolve (repoRoot options) "dsl/packages/generated/index.ts")];
  Esbuild.inject := [resolve (repoRoot options) "dsl/packages/compiler/src/inject-globals.ts"];
  Esbuild.plugins := [importRestriction (entryPoint options)];
  Esbuild.stdin :=
    contents ← virtualEntry options;
    Some {| Esbuild.contents := contents; Esbuild.sourcefile := entryPoint options;
            Esbuild.resolveDir := dirname (entryPoint options); Esbuild.loader := "ts" |};
  Esbuild.entryPoints := match virtualEntry options with Some _ => [] | None => [entryPoint options] end;
|}.

Record message := { message_file : option string; message_line : option nat; message_text : string }.
Record BuildResult := {
  build_errors : list message; build_warnings : list message;
  outputFiles : option (list string) }.
Record BundleResult := { code : string; warnings : list string }.

Definition describe (m : message) : string :=
  default "unknown" (message_file m) +:+ ":" +:+ pretty (default 0 (message_line m)) +:+ ": " +:+
  message_text m.

Definition newline_text : string := String (ascii_of_nat 10) EmptyString.

Definition bundlePlan (build : Esbuild.BuildOptions → result BuildResult) (options : BundleOptions)
    : result BundleResult :=
  r ← build (buildOptions options);
  throw_if (0 <? length (build_errors r))
    ("esbuild failed:" +:+ newline_text +:+ join newline_text (map describe (build_errors r))) ;;
  match outputFiles r with
  | Some [text] => Ok {| code := text; warnings := map describe (build_warnings r) |}
  | files =>
      Throw (Error ("Expected exactly one output file, got " +:+
        pretty (length (default [] files))))
  end.

(** ** What is let through *)

(** The packages a plan may import, and the fragments. *)
Inductive permitted : string → Prop :=
| permitted_package pkg : pkg ∈ ALLOWED_PACKAGES → permitted pkg
| permitted_inside pkg sub : pkg ∈ ALLOWED_PACKAGES → permitted (pkg +:+ "/" +:+ sub)
| permitted_fragment base : permitted (base +:+ ".fragment")
| permitted_fragment_file base : permitted (base +:+ ".fragment.ts").

Lemma isAllowedImport_permitted p i :
  isAllowedImport p i = true ↔
  permitted p ∨ includes i "/packages/runtime/" = true ∨ includes i "/packages/generated/" = true.
Proof.
  unfold isAllowedImport. rewrite !orb_true_iff, existsb_exists.
  setoid_rewrite orb_true_iff. setoid_rewrite String.eqb_eq. setoid_rewrite startsWith_iff.
  rewrite !endsWith_iff. split.
  - intros [[(pkg & Hin & [->|[sub ->]])|[[b ->]|[b ->]]]|H]; [..|by right]; left.
    + apply permitted_package. by apply list_elem_of_In.
    + rewrite string_app_assoc. apply permitted_inside. by apply list_elem_of_In.
    + apply permitted_fragment.
    + apply permitted_fragment_file.
  - intros [Hp|H]; [left|by right]. destruct Hp as [pkg H|pkg sub H|b|b].
    + left. exists pkg. split; [by apply list_elem_of_In|by left].
    + left. exists pkg. split; [by apply list_elem_of_In|right].
      exists sub. by rewrite string_app_assoc.
    + right. left. by exists b.
    + right. right. by exists b.
Qed.

(** an import the plan's own files make, outside the runtime and generated packages,
    passes the restriction exactly when it names an allowed package, a path inside one
    or a fragment. *)
Theorem importRestriction_correct entryPoint args :
  String.eqb (kind args) "entry-point" = false → importer args ≠ EmptyString →
  isFromPlan entryPoint (importer args) = true →
  includes (importer args) "/packages/runtime/" = false →
  includes (importer args) "/packages/generated/" = false →
  importRestriction entryPoint args = None ↔ permitted (path args).
Proof.
  intros Hk Hi Hp Hr Hg. unfold importRestriction. rewrite Hk, Hp.
  apply String.eqb_neq in Hi as ->. cbn [andb].
  pose proof (isAllowedImport_permitted (path args) (importer args)) as Ha. rewrite Hr, Hg in Ha.
  destruct (isAllowedImport (path args) (importer args)); cbn; split; try done.
  - intros _. by destruct Ha as [[?|[|]] _].
  - intros H. destruct Ha as [_ Ha]. discriminate Ha. by left.
Qed.

Definition plan_import (path : string) : OnResolveArgs :=
  {| kind := "import-statement"; path := path; importer := "/repo/plans/a.plan.ts" |}.

Lemma importRestriction_correct_witness :
  (importRestriction "/repo/plans/a.plan.ts" (plan_import "@ranking-dsl/runtime/expr") = None ↔
    permitted "@ranking-dsl/runtime/expr") ∧
  ¬ permitted "node:fs".
Proof.
  split.
  - by apply (importRestriction_correct "/repo/plans/a.plan.ts"
      (plan_import "@ranking-dsl/runtime/expr")).
  - intros H. by apply (importRestriction_correct "/repo/plans/a.plan.ts" (plan_import "node:fs")) in H.
Defined.

(** A file that is not a plan imports what it likes, a fragment for one. *)
Example fragment_unrestricted importPath :
  importRestriction "/repo/plans/a.plan.ts"
    {| kind := "import-statement"; path := importPath;
       importer := "/repo/fragments/f.fragment.ts" |} = None.
Proof. done. Qed.

(** ** What a bundle imports *)

Section bundled.
(** esbuild, and the imports that it asks the plugins about.  Its documentation: what a
    plugin's [onResolve] reports for an import is among the errors of the build. *)
Context (build : Esbuild.BuildOptions → result BuildResult).
Context (imports : Esbuild.BuildOptions → list OnResolveArgs).
Context (reported : ∀ o r a plugin e, build o = Ok r → a ∈ imports o → plugin ∈ Esbuild.plugins o →
  plugin a = Some e → e ∈ map message_text (build_errors r)).

Lemma bundled_unrestricted options b a :
  bundlePlan build options = Ok b → a ∈ imports (buildOptions options) → importRestriction (entryPoint options) a = None.
Proof using reported.
  unfold bundlePlan. destruct (build _) as [r|] eqn:Hr; [|done]. cbn [mbind result_bind].
  destruct (build_errors r) eqn:He; cbn; [|done]. intros _ Ha.
  destruct (importRestriction (entryPoint options) a) as [e|] eqn:Hi; [|done].
  assert (e ∈ map message_text (build_errors r)) as H.
  { eapply reported; [done..|by apply list_elem_of_singleton|done]. }
  rewrite He in H. by apply elem_of_nil in H.
Qed.

(** A plan is bundled only if all it imports is permitted: whatever its file or another plan
    imports, from outside the runtime and the generated packages, is an allowed package, a
    path inside one or a fragment; and whether the source was rewritten makes no difference
    to what is permitted, or to where modules are found. *)
Theorem bundle_imports_permitted options b a :
  bundlePlan build options = Ok b → a ∈ imports (buildOptions options) →
  String.eqb (kind a) "entry-point" = false → importer a ≠ EmptyString → isFromPlan (entryPoint options) (importer a) = true →
  includes (importer a) "/packages/runtime/" = false → includes (importer a) "/packages/generated/" = false →
  permitted (path a).
Proof using reported.
  intros Hb Ha Hk Hi Hf Hr Hg. pose proof (bundled_unrestricted options b a Hb Ha) as H.
  pose proof (isAllowedImport_permitted (path a) (importer a)) as Hp.
  unfold importRestriction in H. rewrite Hk, Hf in H. apply String.eqb_neq in Hi. rewrite Hi in H. cbn [andb] in H.
  destruct (isAllowedImport (path a) (importer a)); [|done].
  destruct Hp as [[|[|]] _]; [done|done|by rewrite Hr in *|by rewrite Hg in *].
Qed.

(** The rewritten source takes the place of the file and nothing else changes. *)
Lemma virtual_options options text :
  let o := buildOptions {| entryPoint := entryPoint options; repoRoot := repoRoot options; virtualEntry := Some text |} in
  let o' := buildOptions {| entryPoint := entryPoint options; repoRoot := repoRoot options; virtualEntry := None |} in
  Esbuild.plugins o = Esbuild.plugins o' ∧ Esbuild.alias o = Esbuild.alias o' ∧ Esbuild.inject o = Esbuild.inject o' ∧
  Esbuild.entryPoints o' = map Esbuild.sourcefile (option_list (Esbuild.stdin o)).
Proof. done. Qed.
End bundled.

(** A sample: esbuild finds one import in a source, and makes the bundle of its text. *)
Definition sample_import (o : Esbuild.BuildOptions) : list OnResolveArgs :=
  match Esbuild.stdin o with
  | Some i => [{| kind := "import-statement"; path := Esbuild.contents i; importer := Esbuild.sourcefile i |}]
  | None => []
  end.
(** An esbuild that does nothing but ask and report. *)
Definition ask (imports : Esbuild.BuildOptions → list OnResolveArgs) (text : string) (o : Esbuild.BuildOptions)
    : result BuildResult :=
  Ok {| build_errors := map (λ t, {| message_file := None; message_line := None; message_text := t |})
          (flat_map (λ a, flat_map (λ plugin, option_list (plugin a)) (Esbuild.plugins o)) (imports o));
        build_warnings := []; outputFiles := Some [text] |}.
Lemma ask_reports imports text o r a plugin e :
  ask imports text o = Ok r → a ∈ imports o → plugin ∈ Esbuild.plugins o → plugin a = Some e →
  e ∈ map message_text (build_errors r).
Proof.
  intros [= <-] Ha Hp He. cbn [build_errors]. rewrite map_map. cbn [message_text]. rewrite map_id.
  apply list_elem_of_In, in_flat_map. exists a. split; [by apply list_elem_of_In|].
  apply in_flat_map. exists plugin. split; [by apply list_elem_of_In|]. rewrite He. by left.
Qed.
Definition sample_build : Esbuild.BuildOptions → result BuildResult := ask sample_import "bundled".
Definition sample_options (source : string) : BundleOptions :=
  {| entryPoint := "/repo/plans/a.plan.ts"; repoRoot := "/repo"; virtualEntry := Some source |}.

Lemma bundle_imports_permitted_witness :
  bundlePlan sample_build (sample_options "@ranking-dsl/runtime") = Ok {| code := "bundled"; warnings := [] |} ∧
  permitted "@ranking-dsl/runtime" ∧
  is_Some (match bundlePlan sample_build (sample_options "node:fs") with Ok _ => None | Throw e => Some e end).
Proof.
  split_and!; [by vm_compute| |by vm_compute; eexists].
  apply (bundle_imports_permitted sample_build sample_import) with (options := sample_options "@ranking-dsl/runtime")
    (b := {| code := "bundled"; warnings := [] |})
    (a := {| kind := "import-statement"; path := "@ranking-dsl/runtime"; importer := "/repo/plans/a.plan.ts" |});
    [apply ask_reports|by vm_compute|by apply list_elem_of_singleton|by vm_compute..].
Defined.
