(* ===== verification/CodegenUtils.v ===== *)
(** * CodegenUtils: canonical text and the names of generated code
    (dsl/src/codegen/utils.ts)

    The digest of a registry is the hash of a canonical text; names go from the
    registries' snake case to the camel case of TypeScript and back.  Hashing and
    clang-format are external. *)

From S2P Require Import Prelude Collections JsNumber JsValue StableStringify AstExtractor.

(** ** Canonical text *)

Definition JSON_stringify_number (n : number) : string :=
  if isFinite n then num_to_string n else "null".

(** The members of an object in the order of their names. *)
Definition by_name (x y : string * result string) : comparison := cmp_on string_cmp fst x y.

Fixpoint all_ok (l : list (result string)) : result (list string) :=
  match l with
  | [] => Ok []
  | r :: l' => x ← r; xs ← all_ok l'; Ok (x :: xs)
  end.

(** (Plain data only: the class instances of the plan API do not reach it.) *)
Fixpoint stableStringify (obj : value) : result string :=
  match obj with
  | VNull => Ok "null"
  | VBool b => Ok (if b then "true" else "false")
  | VNumber n => Ok (JSON_stringify_number n)
  | VString s => Ok (json_quote s)
  | VArray l => xs ← all_ok (map stableStringify l); Ok ("[" +:+ join "," xs +:+ "]")
  | VObject o =>
      let members := js_sort by_name (map (λ kv, (kv.1, stableStringify kv.2)) o) in
      pairs ← all_ok (map (λ m, t ← m.2; Ok (json_quote m.1 +:+ ":" +:+ t)) members);
      Ok ("{" +:+ join "," pairs +:+ "}")
  | _ => Throw (Error ("Cannot stringify: " +:+ typeof obj))
  end.

Definition computeDigest (sha256 : string → string) (obj : value) : result string :=
  sha256 <$> stableStringify obj.

(** ** Names *)

(** [s.replace(/_([a-z])/g, (_, c) => c.toUpperCase())] *)
Fixpoint camel (s : string) : string :=
  match s with
  | EmptyString => EmptyString
  | String c r =>
      match r with
      | EmptyString => s
      | String d r' =>
          if Ascii.eqb c "_" && is_lower d then String (to_upper d) (camel r')
          else String c (camel r)
      end
  end.

(** [s.charAt(0).toUpperCase() + s.slice(1)] *)
Definition capitalize (s : string) : string :=
  match s with EmptyString => EmptyString | String c r => String (to_upper c) r end.

(** [s.split(".")], with the part read so far. *)
Fixpoint split_dots (part s : string) : list string :=
  match s with
  | EmptyString => [part]
  | String c r =>
      if Ascii.eqb c "." then part :: split_dots EmptyString r
      else split_dots (part +:+ String c EmptyString) r
  end.

(** [op.split(/::|\./)] *)
Fixpoint split_op (part s : string) : list string :=
  match s with
  | EmptyString => [part]
  | String c r =>
      if Ascii.eqb c "." then part :: split_op EmptyString r
      else
        match r with
        | String d r' =>
            if Ascii.eqb c ":" && Ascii.eqb d ":" then part :: split_op EmptyString r'
            else split_op (part +:+ String c EmptyString) r
        | EmptyString => [part +:+ String c EmptyString]
        end
  end.

Definition op_parts (op : string) : list string :=
  filter (λ p, p ≠ EmptyString) (split_op EmptyString op).

Definition cppNameToTsName (cppName : string) : string :=
  join EmptyString (imap (λ i part, if i =? 0 then camel part else capitalize (camel part))
    (split_dots EmptyString cppName)).

Definition opToInterfaceName (op : string) : string :=
  join EmptyString (map (λ part, capitalize (camel part)) (op_parts op)) +:+ "Opts".

(** An operator without a name has no last part to convert. *)
Definition opToMethodName (op : string) : result string :=
  match last (op_parts op) with Some part => Ok (camel part) | None => Throw TypeError end.

(** [op.indexOf("::")], and the text before it *)
Fixpoint before_colons (op : string) : option string :=
  if startsWith op "::" then Some EmptyString
  else match op with
       | EmptyString => None
       | String c r => String c <$> before_colons r
       end.
Definition opToNamespace (op : string) : option string := before_colons op.

Definition friendlyParamName (paramName paramType : string) : string :=
  if String.eqb paramType "expr_id" then "expr"
  else if String.eqb paramType "pred_id" then "pred"
  else cppNameToTsName paramName.

(** ** C++ *)

(** A [switch] on strings. *)
Definition cases (table : list (string * string)) (s : string) : option string := map_get table s.
Definition or_unknown (what s : string) (r : option string) : result string :=
  match r with Some x => Ok x | None => Throw (Error (what +:+ s)) end.

Definition cppType (t : string) : result string :=
  or_unknown "Unknown type: " t (cases
    [("int", "int64_t"); ("float", "double"); ("string", "std::string"); ("bool", "bool");
     ("feature_bundle", "FeatureBundle")] t).

Definition cppStatus (s : string) : result string :=
  or_unknown "Unknown status: " s (cases
    [("active", "Status::Active"); ("deprecated", "Status::Deprecated");
     ("blocked", "Status::Blocked")] s).

Definition cppCapabilityStatus (s : string) : result string :=
  or_unknown "Unknown capability status: " s (cases
    [("implemented", "CapabilityStatus::Implemented"); ("draft", "CapabilityStatus::Draft");
     ("deprecated", "CapabilityStatus::Deprecated"); ("blocked", "CapabilityStatus::Blocked")] s).

Definition cppPropertyType (jsonType : option string) : string :=
  default "SchemaPropertyType::Unknown" (jsonType ≫= cases
    [("string", "SchemaPropertyType::String"); ("integer", "SchemaPropertyType::Number");
     ("number", "SchemaPropertyType::Number"); ("boolean", "SchemaPropertyType::Boolean");
     ("object", "SchemaPropertyType::Object"); ("array", "SchemaPropertyType::Array")]).

(** [p.charAt(0).toUpperCase() + p.slice(1).replace(...)] for each part *)
Definition cppCapabilityIdent (id : string) : string :=
  "k" +:+ join EmptyString (map (λ p, match p with
    | EmptyString => EmptyString
    | String c r => String (to_upper c) (camel r)
    end) (split_dots EmptyString id)).

Example names :
  cppNameToTsName "fetch_cached_recommendation" = "fetchCachedRecommendation" ∧
  cppNameToTsName "viewer.follow" = "viewerFollow" ∧
  opToInterfaceName "core::filter" = "CoreFilterOpts" ∧
  opToMethodName "test::fixed_source" = Ok "fixedSource" ∧
  opToNamespace "test::sleep" = Some "test" ∧ opToNamespace "vm" = None ∧
  cppCapabilityIdent "cap.rfc.0001.extensions_capabilities.v1" = "kCapRfc0001ExtensionsCapabilitiesV1".
Proof. by vm_compute. Qed.

(** ** The canonical text does not depend on the order of properties *)

Lemma by_name_perm (l l' : list (string * result string)) :
  NoDup l.*1 → l ≡ₚ l' → js_sort by_name l = js_sort by_name l'.
Proof.
  intros Hnd Hp.
  assert (Consistent by_name (λ x, x ∈ l)) as Hc.
  { eapply consistent_weaken; [|apply (cmp_on_consistent string_cmp fst (λ _, True))]. done. }
  apply (js_sort_perm_eq by_name (λ x, x ∈ l)); [|by apply Forall_forall|done].
  intros [k x] [k' y] Hx Hy H1 H2. assert (k = k') as <- by by apply string_cmp_le_antisym.
  pose proof (elem_of_map_get l k x Hnd Hx) as G1. pose proof (elem_of_map_get l k y Hnd Hy) as G2.
  congruence.
Qed.

Lemma canonical_same v : ∀ w,
  distinct_names v → same v w → stableStringify v = stableStringify w.
Proof.
  induction v as [| | | | | | |l IH|o IH| |] using value_ind_nested; intros w Hd Hs;
    inversion Hs as [|? l' Hl|? o1 o' Hp Ho]; subst; try done.
  - apply distinct_names_array in Hd. clear Hs. cbn.
    assert (map stableStringify l = map stableStringify l') as ->; [|done].
    induction Hl as [|x y l l' Hxy Hl IHl]; [done|]. cbn.
    apply Forall_cons in IH as [IHx IH], Hd as [Hx Hd]. f_equal; auto.
  - apply distinct_names_object in Hd as [Hnd Hd]. cbn.
    rewrite (by_name_perm _ (map (λ kv, (kv.1, stableStringify kv.2)) o1));
      [|by rewrite <-list_fmap_compose|by apply fmap_Permutation].
    assert (map (λ kv, (kv.1, stableStringify kv.2)) o1 = map (λ kv, (kv.1, stableStringify kv.2)) o')
      as ->; [|done].
    rewrite Hp in IH, Hd. clear Hp Hs Hnd o.
    induction Ho as [|[k x] [k' y] l l' [Hk Hxy] Hl IHl]; [done|]. cbn in *. subst.
    apply Forall_cons in IH as [IHx IH], Hd as [Hx Hd]. cbn in *. f_equal; [|by apply IHl].
    f_equal. auto.
Qed.

(** The digest of a registry does not depend on the order in which the properties
    of its objects were created: the codegen and whoever reads the registry in another
    order compute the same one. *)
Theorem computeDigest_deterministic sha256 v w :
  distinct_names v → same v w → computeDigest sha256 v = computeDigest sha256 w.
Proof. intros Hd Hs. unfold computeDigest. by rewrite (canonical_same v w). Qed.

Lemma computeDigest_deterministic_witness :
  computeDigest id (VObject [("b", VNull); ("__proto__", VArray [VBool true])])
  = computeDigest id (VObject [("__proto__", VArray [VBool true]); ("b", VNull)]).
Proof.
  apply (computeDigest_deterministic id (VObject [("b", VNull); ("__proto__", VArray [VBool true])])).
  - cbn. repeat split; try done. apply (bool_decide_unpack _). by vm_compute.
  - apply (same_object _ [("__proto__", VArray [VBool true]); ("b", VNull)]); [by constructor|].
    repeat constructor.
Defined.

(** ** Names and back *)

(** A name as registries write them: no capitals, and none of the separators. *)
Definition registry_char (c : ascii) : bool :=
  negb (is_upper c) && negb (Ascii.eqb c ":") && negb (Ascii.eqb c ".").
Definition registry_name (s : string) : Prop :=
  s ≠ EmptyString ∧ string_forallb registry_char s = true.

Lemma lower_upper d : is_lower d = true → is_upper (to_upper d) = true ∧ to_lower (to_upper d) = d.
Proof. by destruct d as [[] [] [] [] [] [] [] []]. Qed.

Lemma snake_camel n : ∀ s, String.length s ≤ n → string_forallb registry_char s = true →
  methodNameToSnakeCase (camel s) = s.
Proof.
  induction n as [|n IH]; intros [|c r] Hl Hs; cbn in Hl; try (done || lia).
  cbn in Hs. apply andb_true_iff in Hs as [Hc Hr].
  assert (is_upper c = false) as Hu.
  { unfold registry_char in Hc. rewrite !andb_true_iff, !negb_true_iff in Hc. apply Hc. }
  destruct r as [|d r']; [cbn; by rewrite Hu|].
  change (camel (String c (String d r'))) with
    (if Ascii.eqb c "_" && is_lower d then String (to_upper d) (camel r')
     else String c (camel (String d r'))).
  destruct (Ascii.eqb c "_" && is_lower d) eqn:E.
  - apply andb_true_iff in E as [->%Ascii.eqb_eq Hd]. apply lower_upper in Hd as [Hd1 Hd2].
    cbn [methodNameToSnakeCase]. rewrite Hd1, Hd2, IH; [done|cbn in Hl; lia|].
    cbn in Hr. by apply andb_true_iff in Hr as [_ ?].
  - cbn [methodNameToSnakeCase]. rewrite Hu. f_equal. apply IH; [cbn in Hl |- *; lia|done].
Qed.

Lemma split_op_plain s : ∀ part r,
  string_forallb registry_char s = true → split_op part (s +:+ r) = split_op (part +:+ s) r.
Proof.
  induction s as [|c s IH]; intros part r Hs; cbn in Hs.
  { by rewrite string_app_nil_r. }
  apply andb_true_iff in Hs as [Hc Hs]. unfold registry_char in Hc.
  rewrite !andb_true_iff, !negb_true_iff in Hc. destruct Hc as [[_ Hcolon] Hdot].
  replace (part +:+ String c s) with ((part +:+ String c EmptyString) +:+ s)
    by by rewrite string_app_assoc.
  rewrite <-IH by done. cbn [String.append split_op]. rewrite Hdot, Hcolon.
  by destruct (s +:+ r).
Qed.

Lemma op_parts_qualified ns name :
  registry_name ns → registry_name name → op_parts (ns +:+ "::" +:+ name) = [ns; name].
Proof.
  intros [Hn1 Hn2] [Hm1 Hm2]. unfold op_parts. rewrite split_op_plain by done. cbn [split_op].
  rewrite <-(string_app_nil_r name) at 1. cbn. rewrite split_op_plain by done. cbn.
  by rewrite !decide_True by done.
Qed.

Lemma before_colons_plain ns r :
  string_forallb registry_char ns = true → before_colons (ns +:+ "::" +:+ r) = Some ns.
Proof.
  induction ns as [|c ns IH]; intros Hs; [by destruct r|]. cbn in Hs.
  apply andb_true_iff in Hs as [Hc Hs].
  change (String c ns +:+ "::" +:+ r) with (String c (ns +:+ "::" +:+ r)).
  cbn [before_colons].
  assert (startsWith (String c (ns +:+ "::" +:+ r)) "::" = false) as ->.
  { unfold registry_char in Hc. rewrite !andb_true_iff, !negb_true_iff in Hc.
    destruct Hc as [[_ Hc] _]. apply Ascii.eqb_neq in Hc. unfold startsWith. cbn [String.prefix].
    destruct (ascii_dec ":" c) as [<-|]; done. }
  by rewrite IH.
Qed.

(** [methodNameToSnakeCase] inverts the conversion of [opToMethodName]: from the
    namespace and the method name generated for an operator [ns::name] in snake case, a
    method call in a plan is looked up under the operator it came from, so that two
    operators of a namespace never share a method name. *)
Theorem op_names_roundtrip ns name callee :
  registry_name ns → registry_name name → getNamespaceFromCall callee = ns →
  let op := ns +:+ "::" +:+ name in
  opToNamespace op = Some ns ∧
  ∃ m, opToMethodName op = Ok m ∧
    getNamespaceFromCall callee +:+ "::" +:+ methodNameToSnakeCase m = op.
Proof.
  intros Hn Hm Hc op. split; [apply before_colons_plain, Hn|].
  exists (camel name). unfold opToMethodName, op. rewrite op_parts_qualified by done.
  split; [done|]. rewrite Hc, (snake_camel (String.length name)); [done|done|apply Hm].
Qed.

Lemma op_names_roundtrip_witness :
  ∃ m, opToMethodName "test::fixed_source" = Ok m ∧
    "test" +:+ "::" +:+ methodNameToSnakeCase m = "test::fixed_source".
Proof.
  apply (op_names_roundtrip "test" "fixed_source"
    (TsAst.PropertyAccessExpression (TsAst.Build_span 0 0)
      (TsAst.PropertyAccessExpression (TsAst.Build_span 0 0)
        (TsAst.Identifier (TsAst.Build_span 0 0) "ctx") "test") "fixedSource"));
    repeat split; done.
Defined.
