(* ===== verification/PlanBuild.v ===== *)
(** * PlanBuild: building every plan of a manifest (dsl/tools/build_all_plans.ts)

    Spawning the compiler, reading and parsing files and hashing are parameters; modelled
    are the options, the manifest's checks, the loop with its counts, the plan index and
    its canonical digests, and the exit code. *)

From S2P Require Import Prelude Collections JsNumber JsValue StableStringify AstExtractor AstRewriting CodegenUtils CompilerCli.

(** ** Options *)

Record BuildOptions := { manifest : string; out : string }.

(** [None]: the help was printed and the process exits with 0. *)
Fixpoint parse_options (args : list string) (options : BuildOptions) : result (option BuildOptions) :=
  match args with
  | [] => Ok (Some options)
  | a :: rest =>
      if String.eqb a "--manifest" then
        match rest with
        | [] => Throw (Error "--manifest requires an argument")
        | v :: rest' => parse_options rest' {| manifest := v; out := out options |}
        end
      else if String.eqb a "--out" then
        match rest with
        | [] => Throw (Error "--out requires an argument")
        | v :: rest' => parse_options rest' {| manifest := manifest options; out := v |}
        end
      else if String.eqb a "--help" || String.eqb a "-h" then Ok None
      else Throw (Error ("Unknown option: " +:+ a))
  end.

Definition parseArgs (args : list string) : result (option BuildOptions) :=
  parse_options args {| manifest := "plans/manifest.json"; out := "artifacts/plans" |}.

(** ** The manifest, parsed *)

Definition is_one (v : value) : bool :=
  match v with VNumber n => num_eqb n (num 1) | _ => false end.

Definition loadManifest (parsed : value) : result (list value) :=
  schema_version ← get_prop parsed "schema_version";
  (if is_one schema_version then Ok tt
   else t ← template schema_version;
        Throw (Error ("Unsupported manifest schema version: " +:+ t))) ;;
  plans ← get_prop parsed "plans";
  match plans with
  | VArray l => Ok l
  | _ => Throw (Error "Manifest must have a 'plans' array")
  end.

(** ** Canonical text and digests *)

(** [None] is [undefined], which a value without JSON text has for its text. *)
Fixpoint stableStringifyForDigest (obj : value) : option string :=
  match obj with
  | VNull => Some "null"
  | VBool b => Some (if b then "true" else "false")
  | VNumber n => Some (JSON_stringify_number n)
  | VString s => Some (json_quote s)
  | VArray l =>
      Some ("[" +:+ join "," (map (λ x, default EmptyString (stableStringifyForDigest x)) l) +:+ "]")
  | VObject o =>
      let members := js_sort (cmp_on string_cmp fst)
        (map (λ kv, (kv.1, default "undefined" (stableStringifyForDigest kv.2))) o) in
      Some ("{" +:+ join "," (map (λ m, json_quote m.1 +:+ ":" +:+ m.2) members) +:+ "}")
  | _ => None
  end.

Section digests.
Context (sha256 : string → string).

Definition computeCapabilitiesDigest (capabilitiesRequired extensions : value) : result string :=
  let caps := nullish capabilitiesRequired (VArray []) in
  let exts := nullish extensions (VObject []) in
  n ← get_prop caps "length";
  let none := match n with VNumber k => is_zero k | _ => false end in
  ks ← (if none then keys exts else Ok []);
  if none && (length ks =? 0) then Ok EmptyString
  else
    Ok ("sha256:" +:+ sha256 (default "undefined" (stableStringifyForDigest
      (VObject [("capabilities_required", caps); ("extensions", exts)])))).

(** ** The index *)

Record IndexEntry := {
  name : value; path : string; digest : string; capabilities_digest : string;
  (* the backend and the tool are constants *)
  tool_version : value;
}.

(** What is written of a plan read from its file. *)
Definition index_entry (file : string) (plan : value) : result IndexEntry :=
  text ← (match stableStringifyForDigest plan with
          | Some t => Ok t
          | None => Throw TypeError (* hashing [undefined] *)
          end);
  let digest := sha256 text in
  caps ← get_prop plan "capabilities_required";
  exts ← get_prop plan "extensions";
  capabilitiesDigest ← computeCapabilitiesDigest caps exts;
  plan_name ← get_prop plan "plan_name";
  built_by ← get_prop plan "built_by";
  version ← (match built_by with
             | VUndefined | VNull => Ok VUndefined
             | _ => get_prop built_by "tool_version"
             end);
  Ok {| name := plan_name; path := file; digest := "sha256:" +:+ digest;
        capabilities_digest := capabilitiesDigest;
        tool_version := nullish version (VString "0.1.0") |}.

Context (localeCompare : string → string → comparison) (readPlan : string → result value).

(** The loop: a plan that cannot be read or described is left out with a warning. *)
Definition index_entries (compiledPlanNames : list string) : list IndexEntry :=
  omap (λ planName,
    let file := planName +:+ ".plan.json" in
    match (plan ← readPlan file; index_entry file plan) with
    | Ok e => Some e
    | Throw _ => None
    end) compiledPlanNames.

Definition is_text (v : value) : bool := match v with VString _ => true | _ => false end.
Definition value_text (v : value) : string := match v with VString s => s | _ => EmptyString end.

(** The entries in the order of [a.name.localeCompare(b.name)].  Comparing a name that
    is not a string throws; whether it is compared is up to the engine when it comes
    first, and counted as a throw here. *)
Definition generateIndex (compiledPlanNames : list string) : result (list IndexEntry) :=
  let entries := index_entries compiledPlanNames in
  if (2 <=? length entries) && negb (forallb (λ e, is_text (name e)) entries)
  then Throw TypeError
  else Ok (js_sort (cmp_on localeCompare (λ e, value_text (name e))) entries).

(** ** The loop over the plans *)

(** [planPath.split("/").pop()] *)
Fixpoint last_segment (part s : string) : string :=
  match s with
  | EmptyString => part
  | String c r =>
      if Ascii.eqb c "/" then last_segment EmptyString r
      else last_segment (part +:+ String c EmptyString) r
  end.

(** [s.replace(p, "")] *)
Fixpoint remove_first (s p : string) : string :=
  if startsWith s p then slice s (String.length p) (String.length s)
  else match s with EmptyString => EmptyString | String c r => String c (remove_first r p) end.

Definition plan_basename (planPath : string) : string :=
  remove_first (last_segment EmptyString planPath) ".plan.ts".

Record progress := {
  successCount : nat; failureCount : nat; compiledPlanNames : list string }.

(** [compile] is the outcome of the compiler's process for a path. *)
Context (compile : value → result unit).

Definition build_plan (p : progress) (planPath : value) : progress :=
  match compile planPath with
  | Throw _ =>
      {| successCount := successCount p; failureCount := S (failureCount p);
         compiledPlanNames := compiledPlanNames p |}
  | Ok _ =>
      match planPath with
      | VString s =>
          let planBasename := plan_basename s in
          {| successCount := S (successCount p); failureCount := failureCount p;
             compiledPlanNames :=
               if String.eqb planBasename EmptyString then compiledPlanNames p
               else compiledPlanNames p ++ [planBasename] |}
      | _ =>
          (* the path has no [split]: the plan counts twice *)
          {| successCount := S (successCount p); failureCount := S (failureCount p);
             compiledPlanNames := compiledPlanNames p |}
      end
  end.

Definition build_plans (plans : list value) : progress :=
  foldl build_plan {| successCount := 0; failureCount := 0; compiledPlanNames := [] |} plans.

(** The exit code, and the index if one is written. *)
Definition build_all (args : list string) (readManifest : string → result value)
    : nat * option (list IndexEntry) :=
  match parseArgs args with
  | Throw _ => (1, None)
  | Ok None => (0, None)
  | Ok (Some options) =>
      match (parsed ← readManifest (manifest options); loadManifest parsed) with
      | Throw _ => (1, None)
      | Ok plans =>
          let p := build_plans plans in
          match compiledPlanNames p with
          | [] => (if 0 <? failureCount p then 1 else 0, None)
          | names =>
              match generateIndex names with
              | Throw _ => (1, None)
              | Ok index => (if 0 <? failureCount p then 1 else 0, Some index)
              end
          end
      end
  end.
End digests.

(** ** One canonical text *)

Lemma all_ok_Forall2 (rs : list (result string)) xs :
  all_ok rs = Ok xs ↔ Forall2 (λ r x, r = Ok x) rs xs.
Proof.
  revert xs. induction rs as [|r rs IH]; intros xs; cbn.
  { split; [by intros [= <-]|]. by inversion 1. }
  rewrite bind_Ok. setoid_rewrite bind_Ok. setoid_rewrite IH. split.
  - intros (x & -> & ys & H & [= <-]). by constructor.
  - inversion 1 as [|? x ? ys]; subst. eauto.
Qed.

(** The member with its text, once the texts are known to exist. *)
Definition member_text (m : string * result string) : string * string :=
  (m.1, match m.2 with Ok t => t | Throw _ => "undefined" end).

Lemma member_texts members pairs :
  Forall2 (λ m p, (t ← m.2; Ok (json_quote m.1 +:+ ":" +:+ t)) = Ok p) members pairs →
  Forall (λ m, ∃ t, m.2 = Ok t) members ∧
  pairs = map (λ m, json_quote m.1 +:+ ":" +:+ m.2) (map member_text members).
Proof.
  induction 1 as [|[k r] p members pairs H _ [IH ->]]; [done|].
  apply bind_Ok in H as (t & Ht & [= <-]). cbn in Ht. subst r. split; [|done].
  constructor; [by exists t|done].
Qed.

Lemma canonical_texts_agree v : ∀ t,
  CodegenUtils.stableStringify v = Ok t → stableStringifyForDigest v = Some t.
Proof.
  induction v as [| | | | | | |l IH|o IH| |] using value_ind_nested; intros t; cbn;
    try done; try by intros [= <-].
  - intros (xs & Hxs & [= <-])%bind_Ok. apply all_ok_Forall2, Forall2_fmap_l in Hxs.
    do 2 f_equal. f_equal. f_equal.
    induction Hxs as [|x y l xs Hx _ IHl]; [done|]. apply Forall_cons in IH as [H IH].
    cbn. f_equal; [by rewrite (H y)|auto].
  - intros (pairs & Hp & [= <-])%bind_Ok. apply all_ok_Forall2, Forall2_fmap_l in Hp.
    apply member_texts in Hp as [Hok ->]. do 2 f_equal. f_equal. f_equal. f_equal.
    rewrite (js_sort_fmap member_text by_name (cmp_on string_cmp fst)) by done. f_equal.
    rewrite js_sort_Permutation in Hok.
    induction o as [|[k x] o IHo]; [done|]. apply Forall_cons in IH as [H IH], Hok as [[t Ht] Hok].
    cbn in *. unfold member_text at 1. cbn. rewrite Ht, (H t Ht). f_equal. auto.
Qed.

(** the codegen and the plan index compute one canonical text: whenever the codegen
    has a text for a value, the index's digest is the hash of the same text. *)
Theorem canonical_digests_agree sha256 v d :
  computeDigest sha256 v = Ok d →
  sha256 <$> stableStringifyForDigest v = Some d.
Proof.
  unfold computeDigest. intros Hd. destruct (CodegenUtils.stableStringify v) as [t|] eqn:Ht; [|done].
  injection Hd as <-. by rewrite (canonical_texts_agree v t Ht).
Qed.

Definition sample_plan : value :=
  VObject [("plan_name", VString "a"); ("nodes", VArray [VNull; VNumber (num 1)])].

Lemma canonical_digests_agree_witness :
  ∃ d, computeDigest id sample_plan = Ok d ∧ id <$> stableStringifyForDigest sample_plan = Some d.
Proof.
  eexists. split; [by vm_compute|]. apply (canonical_digests_agree id). by vm_compute.
Defined.

(** ** The index reads the files the compiler wrote *)

Definition word (s : string) : Prop := string_forallb is_word_char s = true.

Lemma word_cons c s : word (String c s) ↔ is_word_char c = true ∧ word s.
Proof. unfold word. cbn. by rewrite andb_true_iff. Qed.

Lemma remove_first_word b : word b →
  remove_first b ".plan.ts" = b ∧ remove_first (b +:+ ".plan.ts") ".plan.ts" = b.
Proof.
  induction b as [|c b IH]; [by vm_compute|]. intros [Hc [H1 H2]%IH]%word_cons.
  assert (∀ r, startsWith (String c r) ".plan.ts" = false) as Hs.
  { intros r. destruct (startsWith _ _) eqn:E; [|done].
    apply startsWith_iff in E as [t E]. by injection E as -> _. }
  cbn [append remove_first]. by rewrite !Hs, H1, H2.
Qed.

Lemma word_no_slash b p r : word b → last_segment p (b +:+ r) = last_segment (p +:+ b) r.
Proof.
  revert p. induction b as [|c b IH]; intros p; [by rewrite string_app_nil_r|].
  intros [Hc Hb]%word_cons. cbn. destruct (Ascii.eqb_spec c "/") as [->|]; [done|].
  rewrite IH by done. by rewrite string_app_assoc.
Qed.

Lemma last_segment_plain p s :
  string_forallb (λ c, negb (Ascii.eqb c "/")) s = true → last_segment p s = p +:+ s.
Proof.
  revert p. induction s as [|c s IH]; intros p; cbn; [by rewrite string_app_nil_r|].
  intros [->%negb_true_iff Hs]%andb_true_iff. rewrite IH by done. by rewrite string_app_assoc.
Qed.

Lemma last_segment_dir p dir file :
  last_segment p (dir +:+ "/" +:+ file) = last_segment EmptyString file.
Proof. revert p. induction dir as [|c dir IH]; intros p; cbn; [done|]. by destruct (Ascii.eqb c "/"). Qed.

Lemma basename_expected file :
  isValidPlanName (expected_name file) = true →
  plan_basename file = expected_name file ∧ last_segment EmptyString file = file.
Proof.
  unfold expected_name, isValidPlanName, plan_basename. intros [_ Hw]%andb_true_iff.
  change (word (if endsWith file ".plan.ts" then slice file 0 (String.length file - 8) else file)) in Hw.
  destruct (endsWith file ".plan.ts") eqn:He.
  - apply endsWith_iff in He as [b ->]. rewrite string_app_length in *.
    replace (String.length b + String.length ".plan.ts" - 8) with (String.length b) in * by (cbn; lia).
    assert (slice (b +:+ ".plan.ts") 0 (String.length b) = b) as Hb.
    { unfold slice. rewrite Nat.sub_0_r, substring_app_l by done. by apply substring_0. }
    rewrite Hb in Hw |- *. rewrite word_no_slash, last_segment_plain by done.
    split; [by apply remove_first_word|done].
  - assert (last_segment EmptyString file = file) as ->.
    { pose proof (word_no_slash file EmptyString EmptyString Hw) as H.
      by rewrite string_app_nil_r in H. }
    split; [by apply remove_first_word|done].
Qed.

(** the index looks for a compiled plan where the compiler wrote it: when
    [compilePlan] writes the file [out] for a plan, and the manifest names the plan's
    file by itself or under any directory, the name the build derives from that path is
    not empty and its index entry is read from [out]. *)
Theorem index_reads_output createSourceFile SyntaxKind getLine bundle execute sha256 version
    source file out text dir :
  compilePlan createSourceFile SyntaxKind getLine bundle execute sha256 version source file
    = Ok (out, text) →
  Forall (λ path, plan_basename path ≠ EmptyString ∧ plan_basename path +:+ ".plan.json" = out)
    [file; dir +:+ "/" +:+ file].
Proof.
  intros (Hv & ->)%compilePlan_name. apply basename_expected in Hv as Hb. destruct Hb as [Hb Hs].
  assert (plan_basename (dir +:+ "/" +:+ file) = expected_name file) as Hd.
  { rewrite <-Hb. unfold plan_basename. by rewrite last_segment_dir. }
  assert (expected_name file ≠ EmptyString) by (intros E; by rewrite E in Hv).
  repeat constructor; congruence.
Qed.

Lemma index_reads_output_witness :
  plan_basename "plans/p.plan.ts" = "p" ∧
  Forall (λ path, plan_basename path ≠ EmptyString ∧ plan_basename path +:+ ".plan.json" = "p.plan.json")
    ["p.plan.ts"; "plans/p.plan.ts"].
Proof.
  split; [by vm_compute|].
  apply (index_reads_output sample_tree (λ k, k) (λ _ p, (0, p)) (λ _, Ok "code")
    (λ _, Ok natural_artifact) (λ s, s) "1" sample_source "p.plan.ts" "p.plan.json" sample_text "plans").
  by vm_compute.
Defined.

(** ** The build *)

Section build.
Context (sha256 : string → string) (localeCompare : string → string → comparison)
  (readPlan : string → result value) (compile : value → result unit).

(** A plan the build takes for compiled: its path is a string. *)
Definition compiles_text (planPath : value) : bool :=
  is_text planPath && bool_decide (compile planPath = Ok tt).

(** The names of the plans that compiled, in the manifest's order. *)
Definition compiled_names (plans : list value) : list string :=
  filter (λ n, n ≠ EmptyString)
    (map (λ p, plan_basename (value_text p)) (filter (λ p, compiles_text p = true) plans)).

Lemma build_plan_cases p planPath :
  failureCount (build_plan compile p planPath)
    = (if compiles_text planPath then 0 else 1) + failureCount p ∧
  compiledPlanNames (build_plan compile p planPath)
    = compiledPlanNames p ++
      (if compiles_text planPath
       then filter (λ n, n ≠ EmptyString) [plan_basename (value_text planPath)] else []).
Proof.
  unfold build_plan, compiles_text. destruct (compile planPath) as [[]|e].
  - rewrite bool_decide_eq_true_2, andb_true_r by done.
    destruct planPath; cbn [is_text]; rewrite ?app_nil_r; try done.
    split; [done|]. rewrite filter_cons, filter_nil. cbn [value_text compiledPlanNames].
    destruct (String.eqb_spec (plan_basename s) EmptyString) as [->|Hn].
    { by rewrite decide_False, app_nil_r by (intros H; by apply H). }
    by rewrite decide_True.
  - rewrite bool_decide_eq_false_2, andb_false_r, app_nil_r by done. done.
Qed.

Lemma build_plan_spec p planPath :
  failureCount (build_plan compile p planPath)
    = failureCount p + length (filter (λ x, compiles_text x = false) [planPath]) ∧
  compiledPlanNames (build_plan compile p planPath)
    = compiledPlanNames p ++ compiled_names [planPath].
Proof.
  destruct (build_plan_cases p planPath) as [-> ->]. unfold compiled_names.
  rewrite !(filter_cons _ planPath), !filter_nil.
  destruct (compiles_text planPath).
  - rewrite decide_False, decide_True by done. by rewrite Nat.add_comm.
  - rewrite decide_True, decide_False by done. by rewrite Nat.add_comm.
Qed.

Lemma build_plans_spec plans :
  failureCount (build_plans compile plans) = length (filter (λ x, compiles_text x = false) plans) ∧
  compiledPlanNames (build_plans compile plans) = compiled_names plans.
Proof.
  unfold build_plans. induction plans as [|p plans IH] using rev_ind; [done|].
  rewrite foldl_app. cbn [foldl]. destruct IH as [IH1 IH2].
  destruct (build_plan_spec (foldl (build_plan compile)
    {| successCount := 0; failureCount := 0; compiledPlanNames := [] |} plans) p) as [-> ->].
  rewrite IH1, IH2. unfold compiled_names. by rewrite !filter_app, length_app, map_app, filter_app.
Qed.

(** What the index holds: an entry for each readable plan among the names, sorted. *)
Definition index_of (names : list string) (index : list IndexEntry) : Prop :=
  (∀ e, e ∈ index ↔ ∃ n plan, n ∈ names ∧ readPlan (n +:+ ".plan.json") = Ok plan ∧
    index_entry sha256 (n +:+ ".plan.json") plan = Ok e) ∧
  (Consistent localeCompare (λ _, True) →
   StronglySorted (cmp_le (cmp_on localeCompare (λ e, value_text (name e)))) index).

Lemma index_entries_elem_of names e :
  e ∈ index_entries sha256 readPlan names ↔ ∃ n plan, n ∈ names ∧
    readPlan (n +:+ ".plan.json") = Ok plan ∧ index_entry sha256 (n +:+ ".plan.json") plan = Ok e.
Proof.
  unfold index_entries. rewrite list_elem_of_omap. split.
  - intros (n & Hn & H). exists n. destruct (readPlan _) as [plan|] eqn:Hp; [|done].
    cbn in H. exists plan. destruct (index_entry _ _ plan) as [e'|]; [|done]. naive_solver.
  - intros (n & plan & Hn & Hp & He). exists n. split; [done|]. rewrite Hp. cbn. by rewrite He.
Qed.

Lemma generateIndex_spec names index :
  generateIndex sha256 localeCompare readPlan names = Ok index → index_of names index.
Proof.
  unfold generateIndex. destruct (_ && _); [done|]. intros [= <-]. split.
  - intros e. by rewrite js_sort_elem_of, index_entries_elem_of.
  - intros Hc.
    pose proof (cmp_on_consistent localeCompare (λ e, value_text (name e)) (λ _, True)) as H.
    cbn beta in H.
    apply (js_sort_sorted _ (λ _, True)). by apply Forall_true.
Qed.

Definition plans_of (args : list string) (readManifest : string → result value)
    : result (list value) :=
  match parseArgs args with
  | Ok (Some options) => parsed ← readManifest (manifest options); loadManifest parsed
  | _ => Throw TypeError
  end.

Lemma build_all_cases args readManifest :
  build_all sha256 localeCompare readPlan compile args readManifest =
  match parseArgs args, plans_of args readManifest with
  | Ok None, _ => (0, None)
  | _, Throw _ => (1, None)
  | _, Ok plans =>
      let code := match filter (λ x, compiles_text x = false) plans with [] => 0 | _ => 1 end in
      match compiled_names plans with
      | [] => (code, None)
      | names =>
          match generateIndex sha256 localeCompare readPlan names with
          | Throw _ => (1, None)
          | Ok index => (code, Some index)
          end
      end
  end.
Proof.
  unfold build_all, plans_of. destruct (parseArgs args) as [[options|]|]; try done.
  destruct (parsed ← readManifest (manifest options); loadManifest parsed) as [plans|e] eqn:E;
    [|done].
  destruct (build_plans_spec plans) as [-> ->].
  by destruct (filter _ plans), (compiled_names plans).
Qed.

Lemma all_compile plans :
  filter (λ x, compiles_text x = false) plans = [] ↔ Forall (λ x, compiles_text x = true) plans.
Proof.
  rewrite Forall_forall. split.
  - intros H x Hx. destruct (compiles_text x) eqn:E; [done|]. exfalso.
    assert (x ∈ filter (λ x, compiles_text x = false) plans) as Hin by by apply list_elem_of_filter.
    rewrite H in Hin. by apply not_elem_of_nil in Hin.
  - intros H. apply elem_of_nil_inv. intros x [Hx Hin]%list_elem_of_filter. by rewrite H in Hx.
Qed.

(** the outcome of a build.  The exit code is 0 exactly when only the help was asked
    for, or the options and the manifest are good, every plan listed is a path that
    compiled, and the index, if any plan has a name, could be sorted.  An index is
    written exactly when some plan compiled and it could be sorted, even if others
    failed; it has an entry for each compiled plan whose file reads, and nothing else,
    in the order of the names. *)
Theorem build_all_correct args readManifest :
  let outcome := build_all sha256 localeCompare readPlan compile args readManifest in
  (outcome.1 = 0 ↔ parseArgs args = Ok None ∨
    ∃ plans, plans_of args readManifest = Ok plans ∧
      Forall (λ p, compiles_text p = true) plans ∧
      (compiled_names plans = [] ∨
       ∃ index, generateIndex sha256 localeCompare readPlan (compiled_names plans) = Ok index)) ∧
  (∀ index, outcome.2 = Some index ↔
    ∃ plans, plans_of args readManifest = Ok plans ∧ compiled_names plans ≠ [] ∧
      generateIndex sha256 localeCompare readPlan (compiled_names plans) = Ok index) ∧
  (∀ index, outcome.2 = Some index →
    ∃ plans, plans_of args readManifest = Ok plans ∧ index_of (compiled_names plans) index).
Proof.
  intros outcome. unfold outcome. rewrite build_all_cases.
  destruct (plans_of args readManifest) as [plans|e] eqn:Hp; cycle 1.
  { destruct (parseArgs args) as [[]|]; cbn; naive_solver. }
  assert (∃ o, parseArgs args = Ok (Some o)) as [o ->].
  { unfold plans_of in Hp. destruct (parseArgs args) as [[]|]; naive_solver. }
  pose proof (all_compile plans) as Hall. pose proof (generateIndex_spec (compiled_names plans)) as Hs.
  destruct (compiled_names plans) as [|n ns] eqn:Hn.
  { destruct (filter _ plans); cbn; naive_solver. }
  assert (∀ P Q, (∃ plans', Ok plans = Ok plans' ∧ P plans' ∧ Q plans') ↔ P plans ∧ Q plans)
    as only by naive_solver.
  setoid_rewrite only. rewrite Hn, <-Hall.
  destruct (generateIndex _ _ _ (n :: ns)) as [index|] eqn:Hi;
    destruct (filter _ plans); cbn; naive_solver.
Qed.
End build.

Definition sample_args : list string := ["--out"; "build"].
Definition sample_manifest (path : string) : result value :=
  Ok (VObject [("schema_version", VNumber (num 1));
    ("plans", VArray [VString "plans/b.plan.ts"; VString "a.plan.ts"])]).
Definition sample_file (path : string) : result value :=
  if String.eqb path "a.plan.json" then Ok sample_plan else Throw (Error "ENOENT").

(** A compiled plan whose file cannot be read is left out, and the build still exits
    with 0. *)
Example unreadable_left_out :
  let r := build_all id string_cmp sample_file (λ _, Ok tt) sample_args sample_manifest in
  r.1 = 0 ∧ (map path <$> r.2) = Some ["a.plan.json"].
Proof. by vm_compute. Qed.

Example failure_reported :
  let compile p := if String.eqb (value_text p) "a.plan.ts" then Ok tt else Throw (Error "bad") in
  let r := build_all id string_cmp sample_file compile sample_args sample_manifest in
  r.1 = 1 ∧ (map path <$> r.2) = Some ["a.plan.json"].
Proof. by vm_compute. Qed.
