(* ===== verification/GenTs.v ===== *)
(** * GenTs: the TypeScript generators (dsl/src/codegen/gen-ts.ts)

    Each generator is the function that makes a file's text from the parsed registries,
    line by line as the code pushes them.  In the lines' texts a tilde, which the
    generators never emit themselves, stands for a double quote ([L]). *)

From S2P Require Import Prelude Collections JsNumber JsValue StableStringify Json AstExtractor CompilerCli CodegenUtils Registry Endpoints TaskRegistry.

(** ** Lines *)

Fixpoint L (s : string) : string :=
  match s with
  | EmptyString => EmptyString
  | String c r => String (if Ascii.eqb c "~" then quote_char else c) (L r)
  end.

(** [lines.join("\n")] *)
Definition unlines (lines : list string) : string := join newline lines.

Definition lines_if (b : bool) (lines : list string) : list string := if b then lines else [].

(** A [Map] from a name to the entries that have it, filled in the order of the entries. *)
Definition group_by {A} (f : A → string) (l : list A) : list (string * list A) :=
  foldl (λ m x, map_set m (f x) (default [] (map_get m (f x)) ++ [x])) [] l.

Definition length_text {A} (l : list A) : string := pretty (length l).

(** ** Keys, parameters, features *)

Definition keys_header : list string :=
  ["// AUTO-GENERATED - DO NOT EDIT";
   "// Generated by dsl/src/codegen.ts";
   EmptyString;
   L "export type KeyType = ~int~ | ~float~ | ~string~ | ~bool~ | ~feature_bundle~;";
   EmptyString;
   "export interface KeyToken {";
   L "  readonly kind: ~Key~;";
   "  readonly id: number;";
   "  readonly name: string;";
   "}";
   EmptyString;
   "function key(id: number, name: string): KeyToken {";
   L "  return { kind: ~Key~, id, name };";
   "}";
   EmptyString;
   "export const Key = {"].

Definition generateKeysTs (keys : list KeyEntry) (digest : string) : string :=
  unlines (keys_header ++
    map (λ k, "  " +:+ key_name k +:+ ": key(" +:+ num_to_string (key_id k) +:+ ", " +:+
              quoted (key_name k) +:+ "),") keys ++
    ["} as const;";
     EmptyString;
     "export const KEY_REGISTRY_DIGEST = " +:+ quoted digest +:+ ";";
     "export const KEY_COUNT = " +:+ length_text keys +:+ ";";
     EmptyString]).

Definition params_header : list string :=
  ["// AUTO-GENERATED - DO NOT EDIT";
   "// Generated by dsl/src/codegen.ts";
   EmptyString;
   L "export type ParamType = ~int~ | ~float~ | ~string~ | ~bool~;";
   EmptyString;
   "export interface ParamToken {";
   L "  readonly kind: ~Param~;";
   "  readonly id: number;";
   "  readonly name: string;";
   "}";
   EmptyString;
   "function param(id: number, name: string): ParamToken {";
   L "  return { kind: ~Param~, id, name };";
   "}";
   EmptyString;
   "export const P = {"].

Definition generateParamsTs (params : list ParamEntry) (digest : string) : string :=
  unlines (params_header ++
    map (λ p, "  " +:+ param_name p +:+ ": param(" +:+ num_to_string (param_id p) +:+ ", " +:+
              quoted (param_name p) +:+ "),") params ++
    ["} as const;";
     EmptyString;
     "export const PARAM_REGISTRY_DIGEST = " +:+ quoted digest +:+ ";";
     "export const PARAM_COUNT = " +:+ length_text params +:+ ";";
     EmptyString]).

Definition features_header : list string :=
  ["// AUTO-GENERATED - DO NOT EDIT";
   "// Generated by dsl/src/codegen.ts";
   EmptyString;
   L "export type FeatureType = ~int~ | ~float~ | ~string~ | ~bool~;";
   EmptyString;
   "export interface FeatureToken {";
   L "  readonly kind: ~Feature~;";
   "  readonly id: number;";
   "  readonly stage: string;";
   "  readonly name: string;";
   "}";
   EmptyString;
   "function feat(id: number, stage: string, name: string): FeatureToken {";
   L "  return { kind: ~Feature~, id, stage, name };";
   "}";
   EmptyString].

Definition generateFeaturesTs (features : list FeatureEntry) (digest : string) : string :=
  let byStage := group_by stage features in
  let stages := sort_strings (map fst byStage) in
  unlines (features_header ++
    ["export const Feat = {"] ++
    flat_map (λ s,
      ["  " +:+ s +:+ ": {"] ++
      map (λ f, "    " +:+ feature_name f +:+ ": feat(" +:+ num_to_string (feature_id f) +:+ ", " +:+
                quoted (stage f) +:+ ", " +:+ quoted (feature_name f) +:+ "),")
        (default [] (map_get byStage s)) ++
      ["  },"]) stages ++
    ["} as const;";
     EmptyString;
     "export const FEATURE_REGISTRY_DIGEST = " +:+ quoted digest +:+ ";";
     "export const FEATURE_COUNT = " +:+ length_text features +:+ ";";
     EmptyString]).

(** ** Index and globals *)

Definition generateIndexTs : string :=
  unlines
  ["// AUTO-GENERATED - DO NOT EDIT";
   "// Generated by dsl/src/codegen.ts";
   EmptyString;
   "// Re-export values and types separately for isolatedModules compatibility";
   L "export { Key, KEY_REGISTRY_DIGEST, KEY_COUNT } from ~./keys.js~;";
   L "export type { KeyToken, KeyType } from ~./keys.js~;";
   L "export { P, PARAM_REGISTRY_DIGEST, PARAM_COUNT } from ~./params.js~;";
   L "export type { ParamToken, ParamType } from ~./params.js~;";
   L "export { Feat, FEATURE_REGISTRY_DIGEST, FEATURE_COUNT } from ~./features.js~;";
   L "export type { FeatureToken, FeatureType } from ~./features.js~;";
   L "export * from ~./validation.js~;";
   L "export * from ~./capabilities.js~;";
   L "export * from ~./endpoints.js~;";
   L "export * from ~./tasks.js~;";
   L "export * from ~./task-impl.js~;";
   L "export { DSL_TYPES } from ~./monaco-types.js~;";
   EmptyString].

Definition generatePlanGlobalsDts : string :=
  unlines
  ["// AUTO-GENERATED - DO NOT EDIT";
   "// Generated by dsl/src/codegen.ts";
   "//";
   "// Global type declarations for plan authoring.";
   "// Key, P, EP, coalesce, and regex are injected as globals by the dslc compiler.";
   "// This file provides TypeScript type information for editor support.";
   EmptyString;
   L "import type { Key as KeyType } from ~@ranking-dsl/generated~;";
   L "import type { P as PType } from ~@ranking-dsl/generated~;";
   L "import type { EP as EPType } from ~@ranking-dsl/generated~;";
   L "import type { coalesce as coalesceType, regex as regexType } from ~@ranking-dsl/runtime~;";
   EmptyString;
   "declare global {";
   "  /**";
   "   * Key registry - column references for vm/filter expressions.";
   "   * Injected by dslc compiler.";
   "   */";
   "  const Key: typeof KeyType;";
   EmptyString;
   "  /**";
   "   * Param registry - runtime parameter references.";
   "   * Injected by dslc compiler.";
   "   */";
   "  const P: typeof PType;";
   EmptyString;
   "  /**";
   "   * Endpoint registry - endpoint references for tasks.";
   "   * Usage: ctx.viewer({ endpoint: EP.redis.redis_default }).follow({ endpoint: EP.redis.redis_default, fanout: 10 })";
   "   * Injected by dslc compiler.";
   "   */";
   "  const EP: typeof EPType;";
   EmptyString;
   "  /**";
   "   * Coalesce function for null handling in natural expressions.";
   "   * Usage: Key.score * coalesce(P.weight, 0.2)";
   "   * Injected by dslc compiler.";
   "   */";
   "  const coalesce: typeof coalesceType;";
   EmptyString;
   "  /**";
   "   * Regex function for pattern matching in natural predicates.";
   L "   * Usage: regex(Key.title, ~^test~) or regex(Key.title, P.pattern, ~i~)";
   "   * Injected by dslc compiler.";
   "   */";
   "  const regex: typeof regexType;";
   "}";
   EmptyString;
   "export {};";
   EmptyString].

(** ** Validation rules *)

(** [values.map(v => `"${v}"`).join(", ")] *)
Definition quoted_values (v : value) : result string :=
  match v with
  | VArray l => ts ← all_ok (map (λ x, quoted <$> template x) l); Ok (join ", " ts)
  | _ => Throw TypeError
  end.

(** [name.split("_").map(part => part.charAt(0).toUpperCase() + part.slice(1)).join("")] *)
Fixpoint split_underscores (part s : string) : list string :=
  match s with
  | EmptyString => [part]
  | String c r =>
      if Ascii.eqb c "_" then part :: split_underscores EmptyString r
      else split_underscores (part +:+ String c EmptyString) r
  end.
Definition fnName (name : string) : string :=
  join EmptyString (map capitalize (split_underscores EmptyString name)).

Definition validation_header : list string :=
  ["// AUTO-GENERATED - DO NOT EDIT";
   "// Generated by dsl/src/codegen.ts from registry/validation.toml";
   EmptyString;
   "export interface ValidationRules {";
   "  schemaVersion: number;";
   "  patterns: Record<string, RegExp>;";
   "  limits: Record<string, number>;";
   "  enums: Record<string, readonly string[]>;";
   "}";
   EmptyString;
   "export const Validation: ValidationRules = {"].

Definition generateValidationTs (validation : ValidationRules) (digest : string) : result string :=
  patternLines ← all_ok (map (λ kv, t ← template kv.2;
    Ok ("    " +:+ kv.1 +:+ ": /" +:+ t +:+ "/,")) (patterns validation));
  limitLines ← all_ok (map (λ kv, t ← template kv.2;
    Ok ("    " +:+ kv.1 +:+ ": " +:+ t +:+ ",")) (limits validation));
  enumLines ← all_ok (map (λ kv, t ← quoted_values kv.2;
    Ok ("    " +:+ kv.1 +:+ ": [" +:+ t +:+ "] as const,")) (enums validation));
  Ok (unlines (validation_header ++
    ["  schemaVersion: " +:+ num_to_string (schema_version validation) +:+ ",";
     "  patterns: {"] ++ patternLines ++
    ["  },"; "  limits: {"] ++ limitLines ++
    ["  },"; "  enums: {"] ++ enumLines ++
    ["  },"; "};"; EmptyString;
     "export const VALIDATION_DIGEST = " +:+ quoted digest +:+ ";";
     EmptyString;
     "// Validation helper functions"] ++
    flat_map (λ kv,
      ["export function isValid" +:+ fnName kv.1 +:+ "(value: string): boolean {";
       "  return Validation.patterns." +:+ kv.1 +:+ ".test(value);";
       "}";
       EmptyString]) (patterns validation))).

(** ** Capabilities *)

(** [id.toUpperCase().replace(/\./g, "_")] *)
Fixpoint constName (id : string) : string :=
  match id with
  | EmptyString => EmptyString
  | String c r => String (if Ascii.eqb c "." then "_"%char else to_upper c) (constName r)
  end.

Definition schema_text (schema : value) : string :=
  if truthy schema then default "undefined" (stringify 0 0 schema) else "null".

Definition capability_entry (cap : CapabilityEntry) : list string :=
  ["  " +:+ quoted (cap_id cap) +:+ ": {";
   "    id: " +:+ quoted (cap_id cap) +:+ ",";
   "    rfc: " +:+ quoted (rfc cap) +:+ ",";
   "    name: " +:+ quoted (cap_name cap) +:+ ",";
   "    status: " +:+ quoted (cap_status cap) +:+ ",";
   "    doc: " +:+ json_quote (cap_doc cap) +:+ ",";
   "    payload_schema: " +:+ schema_text (payload_schema cap) +:+ ",";
   "  },"].

Definition is_supported (cap : CapabilityEntry) : bool :=
  String.eqb (cap_status cap) "implemented" || String.eqb (cap_status cap) "deprecated".

Definition quoted_id (cap : CapabilityEntry) : string := "  " +:+ quoted (cap_id cap) +:+ ",".

Definition capabilities_header : list string :=
  ["// AUTO-GENERATED - DO NOT EDIT";
   "// Generated by dsl/src/codegen.ts from registry/capabilities.toml";
   EmptyString;
   "export interface CapabilityMeta {";
   "  id: string;";
   "  rfc: string;";
   "  name: string;";
   L "  status: ~implemented~ | ~draft~ | ~deprecated~ | ~blocked~;";
   "  doc: string;";
   "  payload_schema: unknown;  // JSON Schema or null";
   "}";
   EmptyString].

Definition validatePayload_lines : list string :=
  ["/**";
   " * Validate that a capability payload matches its schema.";
   " * Returns null if valid, error message if invalid.";
   " */";
   "export function validatePayload(capId: string, payload: unknown): string | null {";
   "  const meta = CapabilityRegistry[capId];";
   "  if (!meta) return `Unknown capability: ${capId}`;";
   EmptyString;
   "  const schema = meta.payload_schema as { type?: string; properties?: Record<string, unknown>; additionalProperties?: boolean } | null;";
   EmptyString;
   "  // null schema means no payload allowed (only undefined/null accepted)";
   "  if (schema === null) {";
   "    if (payload !== undefined && payload !== null) {";
   "      return `Capability ${capId} does not allow a payload`;";
   "    }";
   "    return null;";
   "  }";
   EmptyString;
   "  // Validate object type (reject arrays, null, non-objects)";
   L "  if (schema.type === ~object~) {";
   L "    if (typeof payload !== ~object~ || payload === null || Array.isArray(payload)) {";
   "      return `Capability ${capId} payload must be an object`;";
   "    }";
   EmptyString;
   "    const payloadObj = payload as Record<string, unknown>;";
   "    const schemaFull = schema as {";
   "      properties?: Record<string, { type?: string }>;";
   "      required?: string[];";
   "      additionalProperties?: boolean;";
   "    };";
   EmptyString;
   "    // Check additionalProperties: false";
   "    if (schemaFull.additionalProperties === false) {";
   "      const allowedKeys = new Set(schemaFull.properties ? Object.keys(schemaFull.properties) : []);";
   "      for (const key of Object.keys(payloadObj)) {";
   "        if (!allowedKeys.has(key)) {";
   "          return `Capability ${capId} payload has unexpected property: ${key}`;";
   "        }";
   "      }";
   "    }";
   EmptyString;
   "    // Check required properties";
   "    if (schemaFull.required) {";
   "      for (const key of schemaFull.required) {";
   "        if (!(key in payloadObj)) {";
   "          return `Capability ${capId} payload missing required property: ${key}`;";
   "        }";
   "      }";
   "    }";
   EmptyString;
   "    // Check property types";
   "    if (schemaFull.properties) {";
   "      for (const [key, propSchema] of Object.entries(schemaFull.properties)) {";
   "        if (key in payloadObj && propSchema.type) {";
   "          const value = payloadObj[key];";
   "          // typeof null === 'object', so check null explicitly";
   L "          const actualType = value === null ? ~null~ : Array.isArray(value) ? ~array~ : typeof value;";
   "          // Normalize JSON Schema 'integer' to 'number' for comparison";
   L "          const expectedType = propSchema.type === ~integer~ ? ~number~ : propSchema.type;";
   "          if (expectedType !== actualType) {";
   "            return `Capability ${capId} payload property ${key} must be ${propSchema.type}, got ${actualType}`;";
   "          }";
   "        }";
   "      }";
   "    }";
   "  }";
   EmptyString;
   "  return null;";
   "}";
   EmptyString].

Definition generateCapabilitiesTs (capabilities : list CapabilityEntry) (digest : string) : string :=
  unlines (capabilities_header ++
    ["// Capability constants"] ++
    map (λ cap, "export const " +:+ constName (cap_id cap) +:+ " = " +:+ quoted (cap_id cap) +:+ ";")
      capabilities ++
    [EmptyString; "export const CapabilityRegistry: Record<string, CapabilityMeta> = {"] ++
    flat_map capability_entry capabilities ++
    ["};"; EmptyString; "export const ALL_CAPABILITY_IDS = ["] ++
    map quoted_id capabilities ++
    ["] as const;"; EmptyString;
     "/** Set of capability IDs that are supported (implemented + deprecated for backwards compat) */";
     "export const SUPPORTED_CAPABILITIES = new Set(["] ++
    map quoted_id (filter (λ cap, is_supported cap = true) capabilities) ++
    ["]);"; EmptyString;
     "export const CAPABILITY_REGISTRY_DIGEST = " +:+ quoted digest +:+ ";";
     "export const CAPABILITY_COUNT = " +:+ length_text capabilities +:+ ";";
     EmptyString] ++
    validatePayload_lines).

(** ** Tasks *)

Definition is_key_param (p : TaskParamEntry) : bool :=
  String.eqb (tparam_name p) "out_key" || String.eqb (tparam_name p) "by".

Definition baseType (p : TaskParamEntry) : string :=
  let type := tparam_type p in
  if String.eqb type "int" then if is_key_param p then "KeyToken" else "number"
  else if String.eqb type "float" then "number"
  else if String.eqb type "bool" then "boolean"
  else if String.eqb type "string" then "string"
  else if String.eqb type "expr_id" then "ExprInput"
  else if String.eqb type "pred_id" then "PredInput"
  else if String.eqb type "node_ref" then "CandidateSetLike"
  else if String.eqb type "endpoint_ref" then
    match tparam_endpoint_kind p with
    | Some k => if String.eqb k "redis" then "RedisEndpointId"
                else if String.eqb k "http" then "HttpEndpointId" else "EndpointId"
    | None => "EndpointId"
    end
  else "unknown".

Definition paramTypeToTsType (p : TaskParamEntry) : string :=
  if tparam_nullable p then baseType p +:+ " | null" else baseType p.

Definition tsName (p : TaskParamEntry) : string := friendlyParamName (tparam_name p) (tparam_type p).

(** The types of endpoints the tasks refer to. *)
Definition endpoint_params (registry : TaskRegistry) : list TaskParamEntry :=
  filter (λ p, tparam_type p = "endpoint_ref") (flat_map params (tasks registry)).
(** [if (p.endpoint_kind)]: an empty kind counts as none. *)
Definition uses_kind (registry : TaskRegistry) (k : string) : bool :=
  existsb (λ p, bool_decide (tparam_endpoint_kind p = Some k)) (endpoint_params registry).
Definition hasGenericEndpointRef (registry : TaskRegistry) : bool :=
  existsb (λ p, match tparam_endpoint_kind p with None | Some EmptyString => true | _ => false end)
    (endpoint_params registry).

Definition endpoint_imports (registry : TaskRegistry) : list string :=
  let imports :=
    lines_if (hasGenericEndpointRef registry) ["EndpointId"] ++
    lines_if (uses_kind registry "redis") ["RedisEndpointId"] ++
    lines_if (uses_kind registry "http") ["HttpEndpointId"] in
  match imports with
  | [] => []
  | _ => ["import type { " +:+ join ", " imports +:+ L " } from ~./endpoints.js~;"]
  end.

Definition SOURCE_TASK_METHODS : list string := ["viewer"; "fixedSource"].

(** A task with the name of its method. *)
Definition named_task : Type := TaskEntry * string.
Definition with_methods (ts : list TaskEntry) : result (list named_task) :=
  fold_result (λ l t, nt ← (m ← opToMethodName (op t); Ok (t, m)); Ok (l ++ [nt])) [] ts.
Definition is_source (t : named_task) : bool := string_elem SOURCE_TASK_METHODS t.2.
Definition sourceTasks (l : list named_task) : list named_task := filter (λ t, is_source t = true) l.
Definition transformTasks (l : list named_task) : list named_task :=
  filter (λ t, is_source t = false) l.

(** A field of an options type. *)
Definition opt_line (indent : string) (p : TaskParamEntry) : string :=
  indent +:+ tsName p +:+ (if tparam_required p then EmptyString else "?") +:+ ": " +:+
  paramTypeToTsType p +:+ ";".

Definition section_header (title : string) : list string :=
  ["// ====================================================="; "// " +:+ title;
   "// ====================================================="; EmptyString].

Definition opts_interface (t : named_task) : list string :=
  ["export interface " +:+ opToInterfaceName (op t.1) +:+ " {"] ++
  map (opt_line "  ") (params t.1) ++
  ["  extensions?: Record<string, unknown>;"; "}"; EmptyString].

(** What the compiler extracts from the options of a task; [friendlyParamName] gives names
    that are not empty. *)
Definition extraction_prop (type : string) (t : TaskEntry) : option string :=
  foldl (λ prop p, if String.eqb (tparam_type p) type then Some (tsName p) else prop) None (params t).
Definition extraction_info (t : TaskEntry) : TaskExtractionInfo :=
  {| exprProp := extraction_prop "expr_id" t; predProp := extraction_prop "pred_id" t |}.
Definition extraction_props (info : TaskExtractionInfo) : list string :=
  match exprProp info with Some p => ["exprProp: " +:+ quoted p] | None => [] end ++
  match predProp info with Some p => ["predProp: " +:+ quoted p] | None => [] end.

Definition extraction_line (t : TaskEntry) : list string :=
  match extraction_props (extraction_info t) with
  | [] => []
  | props => ["  " +:+ quoted (op t) +:+ ": { " +:+ join ", " props +:+ " },"]
  end.

Definition tasks_header : list string :=
  ["// AUTO-GENERATED from C++ TaskSpec - DO NOT EDIT";
   "// Generated by dsl/src/codegen.ts from registry/tasks.toml";
   "// Regenerate with: pnpm -C dsl run gen";
   EmptyString;
   L "import type { KeyToken } from ~./keys.js~;"].
Definition tasks_types : list string :=
  [EmptyString;
   "// =====================================================";
   "// Expression types (narrow discriminated unions)";
   "// =====================================================";
   EmptyString;
   "/** ExprNode - matches engine's ExprIR format (builder-style) */";
   "export type ExprNode =";
   L "  | { op: ~const_number~; value: number }";
   L "  | { op: ~const_null~ }";
   L "  | { op: ~key_ref~; key_id: number }";
   L "  | { op: ~param_ref~; param_id: number }";
   L "  | { op: ~add~; a: ExprNode; b: ExprNode }";
   L "  | { op: ~sub~; a: ExprNode; b: ExprNode }";
   L "  | { op: ~mul~; a: ExprNode; b: ExprNode }";
   L "  | { op: ~neg~; x: ExprNode }";
   L "  | { op: ~coalesce~; a: ExprNode; b: ExprNode };";
   EmptyString;
   "/** ExprPlaceholder - compile-time placeholder for natural expression syntax */";
   "export interface ExprPlaceholder {";
   "  __expr_id: number;";
   "}";
   EmptyString;
   "/** ExprInput - expression input type for tasks (builder or natural syntax) */";
   "export type ExprInput = ExprNode | ExprPlaceholder;";
   EmptyString;
   "// =====================================================";
   "// Predicate types (narrow discriminated unions)";
   "// =====================================================";
   EmptyString;
   "/** Regex pattern - literal string or param reference */";
   "export type RegexPattern =";
   L "  | { kind: ~literal~; value: string }";
   L "  | { kind: ~param~; param_id: number };";
   EmptyString;
   "/** PredNode - matches engine's PredIR format */";
   "export type PredNode =";
   L "  | { op: ~const_bool~; value: boolean }";
   L "  | { op: ~and~; a: PredNode; b: PredNode }";
   L "  | { op: ~or~; a: PredNode; b: PredNode }";
   L "  | { op: ~not~; x: PredNode }";
   L "  | { op: ~cmp~; cmp: ~==~ | ~!=~ | ~<~ | ~<=~ | ~>~ | ~>=~; a: ExprNode; b: ExprNode }";
   L "  | { op: ~in~; lhs: ExprNode; list: (number | string)[] }";
   L "  | { op: ~is_null~; x: ExprNode }";
   L "  | { op: ~not_null~; x: ExprNode }";
   L "  | { op: ~regex~; key_id: number; pattern: RegexPattern; flags: string };";
   EmptyString;
   "/** PredPlaceholder - compile-time placeholder for natural predicate syntax */";
   "export interface PredPlaceholder {";
   "  __pred_id: number;";
   "}";
   EmptyString;
   "/** PredInput - predicate input type for tasks (builder or natural syntax) */";
   "export type PredInput = PredNode | PredPlaceholder;";
   EmptyString;
   "// =====================================================";
   "// Node reference types (for tasks like concat)";
   "// =====================================================";
   EmptyString;
   "/** Interface for CandidateSet used by NodeRef params (avoids circular dep with runtime) */";
   "export interface CandidateSetLike {";
   "  getNodeId(): string;";
   "}";
   EmptyString].
Definition extraction_header : list string :=
  ["// =====================================================";
   "// Task extraction metadata (for AST extractor)";
   "// =====================================================";
   EmptyString;
   "/** Extraction info for a task - which properties to extract as expr/pred */";
   "export interface TaskExtractionInfo {";
   "  /** Property name containing expression (for tasks with expr_id param) */";
   "  exprProp?: string;";
   "  /** Property name containing predicate (for tasks with pred_id param) */";
   "  predProp?: string;";
   "}";
   EmptyString;
   "/** Map from qualified op (e.g., 'core::vm') to extraction info */";
   "export const TASK_EXTRACTION_INFO: Record<string, TaskExtractionInfo> = {"].

Definition generateTasksTs (registry : TaskRegistry) : result string :=
  ts ← with_methods (tasks registry);
  let interfaces title l := match l with
    | [] => []
    | _ => section_header title ++ flat_map opts_interface l
    end in
  Ok (unlines (tasks_header ++ endpoint_imports registry ++ tasks_types ++
    interfaces "Source task option interfaces" (sourceTasks ts) ++
    interfaces "Transform task option interfaces" (transformTasks ts) ++
    section_header "Metadata" ++
    ["export const TASK_MANIFEST_DIGEST = " +:+ quoted (manifest_digest registry) +:+ ";";
     "export const TASK_COUNT = " +:+ length_text (tasks registry) +:+ ";";
     EmptyString] ++
    extraction_header ++
    flat_map extraction_line (tasks registry) ++
    ["};"; EmptyString])).

(** ** Task implementations *)

(** A call of one of the assertions on an option. *)
Definition assertion_line (method assertion ts : string) : string :=
  "  " +:+ assertion +:+ "(opts." +:+ ts +:+ ", " +:+
  quoted (method +:+ "({ " +:+ ts +:+ " })") +:+ ");".

(** The assertion on a required parameter, after that it is there. *)
Definition source_assertion (p : TaskParamEntry) : option string :=
  if String.eqb (tparam_type p) "int" then Some "assertInteger"
  else if String.eqb (tparam_type p) "endpoint_ref" then Some "assertEndpointId"
  else None.
Definition transform_assertion (p : TaskParamEntry) : option string :=
  if is_key_param p then Some "assertKeyToken"
  else if String.eqb (tparam_type p) "int" then Some "assertInteger"
  else if String.eqb (tparam_type p) "node_ref" then Some "assertCandidateSet"
  else if String.eqb (tparam_type p) "endpoint_ref" then Some "assertEndpointId"
  else None.

Definition check_lines (assertion : TaskParamEntry → option string) (method : string)
    (p : TaskParamEntry) : list string :=
  lines_if (tparam_required p)
    (assertion_line method "assertNotUndefined" (tsName p) ::
     match assertion p with Some a => [assertion_line method a (tsName p)] | None => [] end).

Definition trace_lines (method : string) (t : TaskEntry) : list string :=
  lines_if (existsb (λ p, String.eqb (tparam_name p) "trace") (params t))
    ["  // Validate trace";
     "  if (opts.trace !== undefined) {";
     "    assertStringOrNull(opts.trace, " +:+ quoted (method +:+ "({ trace })") +:+ ");";
     "  }";
     EmptyString].

(** What the node's parameter is made of. *)
Definition source_param (p : TaskParamEntry) : string :=
  if String.eqb (tparam_name p) "trace" then "opts." +:+ tsName p +:+ " ?? null"
  else "opts." +:+ tsName p.
Definition transform_param (p : TaskParamEntry) : string :=
  if String.eqb (tparam_type p) "expr_id" then "exprId"
  else if String.eqb (tparam_type p) "pred_id" then "predId"
  else if String.eqb (tparam_type p) "node_ref" then "opts." +:+ tsName p +:+ ".getNodeId()"
  else if is_key_param p then "opts." +:+ tsName p +:+ ".id"
  else source_param p.

Definition param_lines (param : TaskParamEntry → string) (t : TaskEntry) : list string :=
  ["  const params: Record<string, unknown> = {"] ++
  map (λ p, "    " +:+ tparam_name p +:+ ": " +:+ param p +:+ ",") (params t) ++
  ["  };"; EmptyString].

(** The table entry of an expression or a predicate. *)
Definition table_lines (type comment assertion id isPlaceholder letter field add node method : string)
    (t : TaskEntry) : list string :=
  match find (λ p, String.eqb (tparam_type p) type) (params t) with
  | None => []
  | Some p =>
      let opt := "opts." +:+ tsName p in
      ["  // Validate and handle " +:+ comment +:+ " table";
       assertion_line method assertion (tsName p);
       "  let " +:+ id +:+ ": string;";
       "  if (" +:+ isPlaceholder +:+ "(" +:+ opt +:+ ")) {";
       "    // AST-extracted " +:+ comment +:+ " - use special prefix for later remapping";
       "    " +:+ id +:+ " = `__static_" +:+ letter +:+ "${" +:+ opt +:+ "." +:+ field +:+ "}`;";
       "  } else {";
       "    // Regular builder-style " +:+ comment;
       "    " +:+ id +:+ " = ctx." +:+ add +:+ "(" +:+ opt +:+ " as " +:+ node +:+ ");";
       "  }";
       EmptyString]
  end.
Definition expr_lines : string → TaskEntry → list string :=
  table_lines "expr_id" "expression" "assertExprInput" "exprId" "isExprPlaceholder" "e" "__expr_id"
    "addExpr" "ExprNode".
Definition pred_lines : string → TaskEntry → list string :=
  table_lines "pred_id" "predicate" "assertPredInput" "predId" "isPredPlaceholder" "p" "__pred_id"
    "addPred" "PredNode".

(** The signature of an implementation, and its first checks. *)
Definition impl_start (input : list string) (assertion : TaskParamEntry → option string)
    (nt : named_task) : list string :=
  let '(t, method) := nt in
  ["/** Implementation for " +:+ op t +:+ " */";
   "export function " +:+ method +:+ "Impl(";
   "  ctx: TaskContext,"] ++ input ++
  ["  opts: {"] ++
  map (opt_line "    ") (params t) ++
  ["    extensions?: Record<string, unknown>;";
   "  }";
   "): string {";
   "  assertNotUndefined(opts, " +:+ quoted (method +:+ "(opts)") +:+ ");"] ++
  flat_map (check_lines assertion method) (params t) ++
  ["  const { extensions, ...rest } = opts;";
   "  checkNoUndefined(rest as Record<string, unknown>, " +:+ quoted (method +:+ "(opts)") +:+ ");";
   EmptyString].

Definition impl_end (inputs : string) (t : TaskEntry) : list string :=
  ["  return ctx.addNode(" +:+ quoted (op t) +:+ ", " +:+ inputs +:+ ", params, extensions);";
   "}";
   EmptyString].

Definition source_impl (nt : named_task) : list string :=
  impl_start [] source_assertion nt ++ trace_lines nt.2 nt.1 ++
  param_lines source_param nt.1 ++ impl_end "[]" nt.1.

Definition transform_impl (nt : named_task) : list string :=
  impl_start ["  inputNodeId: string,"] transform_assertion nt ++ trace_lines nt.2 nt.1 ++
  expr_lines nt.2 nt.1 ++ pred_lines nt.2 nt.1 ++
  param_lines transform_param nt.1 ++ impl_end "[inputNodeId]" nt.1.

Definition in_core (t : named_task) : bool :=
  match opToNamespace (op t.1) with None => true | Some ns => String.eqb ns "core" end.

Definition method_list (l : list named_task) : string := join ", " (map (λ t, quoted t.2) l).

Definition impl_header : list string :=
  ["// AUTO-GENERATED from C++ TaskSpec - DO NOT EDIT";
   "// Generated by dsl/src/codegen.ts from registry/tasks.toml";
   "// Regenerate with: pnpm -C dsl run gen";
   EmptyString;
   "// This file contains the generated task implementations.";
   "// It is used by plan.ts to implement task methods without manual code.";
   EmptyString;
   L "import type { ExprNode, ExprPlaceholder, ExprInput, PredNode, PredPlaceholder, PredInput, CandidateSetLike } from ~./tasks.js~;";
   L "import type { KeyToken } from ~./keys.js~;"].
Definition impl_helpers : list string :=
  [EmptyString;
   "// =====================================================";
   "// Types for plan context interface";
   "// =====================================================";
   EmptyString;
   "/** Interface for expression placeholder detection */";
   "export function isExprPlaceholder(value: unknown): value is ExprPlaceholder {";
   "  return (";
   "    value !== null &&";
   L "    typeof value === ~object~ &&";
   L "    ~__expr_id~ in value &&";
   L "    typeof (value as ExprPlaceholder).__expr_id === ~number~";
   "  );";
   "}";
   EmptyString;
   "/** Interface for predicate placeholder detection */";
   "export function isPredPlaceholder(value: unknown): value is PredPlaceholder {";
   "  return (";
   "    value !== null &&";
   L "    typeof value === ~object~ &&";
   L "    ~__pred_id~ in value &&";
   L "    typeof (value as PredPlaceholder).__pred_id === ~number~";
   "  );";
   "}";
   EmptyString;
   "/** Interface that PlanCtx must implement for task impls to use */";
   "export interface TaskContext {";
   "  addNode(";
   "    op: string,";
   "    inputs: string[],";
   "    params: Record<string, unknown>,";
   "    extensions?: Record<string, unknown>";
   "  ): string;";
   "  addExpr(expr: ExprNode): string;";
   "  addPred(pred: PredNode): string;";
   "}";
   EmptyString;
   "// =====================================================";
   "// Validation helpers";
   "// =====================================================";
   EmptyString;
   "function assertNotUndefined<T>(value: T | undefined, name: string): asserts value is T {";
   "  if (value === undefined) throw new Error(`${name} is undefined`);";
   "}";
   EmptyString;
   "function assertInteger(value: unknown, name: string): asserts value is number {";
   L "  if (typeof value !== ~number~ || !Number.isInteger(value)) {";
   L "    throw new Error(`${name} must be an integer, got ${typeof value === ~number~ ? value : typeof value}`);";
   "  }";
   "}";
   EmptyString;
   "function assertKeyToken(value: unknown, name: string): void {";
   L "  if (value === null || typeof value !== ~object~) {";
   L "    throw new Error(`${name} must be a KeyToken, got ${value === null ? ~null~ : typeof value}`);";
   "  }";
   "  const token = value as Record<string, unknown>;";
   L "  if (typeof token.id !== ~number~ || !Number.isInteger(token.id)) {";
   L "    throw new Error(`${name}.id must be an integer, got ${typeof token.id === ~number~ ? token.id : typeof token.id}`);";
   "  }";
   "}";
   EmptyString;
   "function assertStringOrNull(value: unknown, name: string): void {";
   L "  if (value !== null && typeof value !== ~string~) {";
   "    throw new Error(`${name} must be a string or null, got ${typeof value}`);";
   "  }";
   "}";
   EmptyString;
   "function assertExprInput(value: unknown, name: string): void {";
   L "  if (value === null || typeof value !== ~object~) {";
   L "    throw new Error(`${name} must be an ExprNode or ExprPlaceholder, got ${value === null ? ~null~ : typeof value}`);";
   "  }";
   "  const obj = value as Record<string, unknown>;";
   "  // ExprPlaceholder has __expr_id, ExprNode has op";
   L "  if (typeof obj.__expr_id !== ~number~ && typeof obj.op !== ~string~) {";
   "    throw new Error(`${name} must be an ExprNode (with 'op') or ExprPlaceholder (with '__expr_id')`);";
   "  }";
   "}";
   EmptyString;
   "function assertPredInput(value: unknown, name: string): void {";
   L "  if (value === null || typeof value !== ~object~) {";
   L "    throw new Error(`${name} must be a PredNode or PredPlaceholder, got ${value === null ? ~null~ : typeof value}`);";
   "  }";
   "  const obj = value as Record<string, unknown>;";
   "  // PredPlaceholder has __pred_id, PredNode has op";
   L "  if (typeof obj.__pred_id !== ~number~ && typeof obj.op !== ~string~) {";
   "    throw new Error(`${name} must be a PredNode (with 'op') or PredPlaceholder (with '__pred_id')`);";
   "  }";
   "}";
   EmptyString;
   "function assertCandidateSet(value: unknown, name: string): void {";
   L "  if (value === null || typeof value !== ~object~) {";
   L "    throw new Error(`${name} must be a CandidateSet, got ${value === null ? ~null~ : typeof value}`);";
   "  }";
   "  const obj = value as Record<string, unknown>;";
   L "  if (typeof obj.getNodeId !== ~function~) {";
   "    throw new Error(`${name} must be a CandidateSet with 'getNodeId' method`);";
   "  }";
   "}";
   EmptyString;
   "function checkNoUndefined(obj: Record<string, unknown>, context: string): void {";
   "  for (const [key, value] of Object.entries(obj)) {";
   "    if (value === undefined) {";
   "      throw new Error(`${context}.${key} is undefined`);";
   "    }";
   "    // Recursively check nested objects (but not arrays)";
   L "    if (typeof value === ~object~ && value !== null && !Array.isArray(value)) {";
   "      checkNoUndefined(value as Record<string, unknown>, `${context}.${key}`);";
   "    }";
   "  }";
   "}";
   EmptyString;
   "function assertEndpointId(value: unknown, name: string): void {";
   L "  if (typeof value !== ~string~) {";
   "    throw new Error(`${name} must be a string (EndpointId), got ${typeof value}`);";
   "  }";
   L "  if (!value.startsWith(~ep_~)) {";
   L "    throw new Error(`${name} must start with ~ep_~, got ~${value}~`);";
   "  }";
   "  if (value.length > 64) {";
   "    throw new Error(`${name} too long (max 64 chars), got ${value.length}`);";
   "  }";
   "}";
   EmptyString].

Section locale.
Context (localeCompare : string → string → comparison).

Definition generateTaskImplTs (registry : TaskRegistry) : result string :=
  ts ← with_methods (tasks registry);
  let source := sourceTasks ts in
  let transform := transformTasks ts in
  let coreTransform := filter (λ t, in_core t = true) transform in
  let tasksByNs := group_by (λ t, default EmptyString (opToNamespace (op t.1)))
                     (filter (λ t, in_core t = false) transform) in
  Ok (unlines (impl_header ++ endpoint_imports registry ++ impl_helpers ++
    match source with [] => [] | _ =>
      section_header "Source task implementations (for PlanCtx.viewer)" ++ flat_map source_impl source
    end ++
    match transform with [] => [] | _ =>
      section_header "Transform task implementations (for CandidateSet methods)" ++
      flat_map transform_impl transform
    end ++
    section_header "Task metadata for runtime use" ++
    ["export const GENERATED_TASKS = {";
     "  source: [" +:+ method_list source +:+ "],";
     "  core: [" +:+ method_list coreTransform +:+ "],"] ++
    map (λ g, "  " +:+ g.1 +:+ ": [" +:+ method_list g.2 +:+ "],")
      (js_sort (cmp_on localeCompare fst) tasksByNs) ++
    ["} as const;"; EmptyString])).

(** ** Endpoints *)

Definition RESERVED_IDENTIFIERS : list string :=
  ["default"; "constructor"; "prototype"; "class"; "function"; "var"; "let"; "const"; "enum";
   "implements"; "interface"; "package"; "private"; "protected"; "public"; "static"].

(** [name.replace(/[^a-zA-Z0-9_]/g, "_")] *)
Fixpoint safeName (name : string) : string :=
  match name with
  | EmptyString => EmptyString
  | String c r => String (if is_word_char c then c else "_"%char) (safeName r)
  end.

(** [/^[A-Za-z_][A-Za-z0-9_]*$/] *)
Definition is_identifier (s : string) : bool :=
  match s with
  | EmptyString => false
  | String c r => is_word_char c && negb (is_digit c) && string_forallb is_word_char r
  end.

Definition endpoint_lines (ep : EndpointEntry) : list string :=
  ["    /** " +:+ endpoint_name ep +:+ " (" +:+ endpoint_id ep +:+ ") */";
   "    " +:+ safeName (endpoint_name ep) +:+ ": " +:+ quoted (endpoint_id ep) +:+
   " as EndpointLiteral<" +:+ quoted (endpoint_id ep) +:+ ">,"].

(** The loop over the endpoints of a kind: the lines and [usedNames]. *)
Definition endpoint_member (kind : string) (s : list string * list string) (ep : EndpointEntry)
    : result (list string * list string) :=
  let '(lines, usedNames) := s in
  let safe := safeName (endpoint_name ep) in
  let where_ := "Endpoint name " +:+ quoted (endpoint_name ep) +:+ " (id=" +:+ endpoint_id ep +:+ ") " in
  throw_if (negb (is_identifier safe))
    (where_ +:+ "is not a valid identifier after sanitization (" +:+ safe +:+ ").") ;;
  throw_if (string_elem RESERVED_IDENTIFIERS safe)
    (where_ +:+ "collides with a reserved identifier: " +:+ safe) ;;
  throw_if (string_set_has usedNames safe)
    ("Endpoint names collide after sanitization within kind " +:+ quoted kind +:+ ": " +:+
     endpoint_name ep +:+ " -> " +:+ safe) ;;
  Ok (lines ++ endpoint_lines ep, string_set_add usedNames safe).

(** The endpoints of a kind, in the order of their names. *)
Definition kind_endpoints (byKind : list (string * list EndpointEntry)) (kind : string)
    : list EndpointEntry :=
  js_sort (cmp_on localeCompare endpoint_name) (default [] (map_get byKind kind)).

Definition kind_block (byKind : list (string * list EndpointEntry)) (kind : string)
    : result (list string) :=
  '(lines, _) ← fold_result (endpoint_member kind) ([], []) (kind_endpoints byKind kind);
  Ok (["  " +:+ kind +:+ ": {"] ++ lines ++ ["  },"]).

Definition endpoints_header : list string :=
  ["// AUTO-GENERATED - DO NOT EDIT";
   "// Generated by dsl/src/codegen.ts from registry/endpoints.{dev,test,prod}.toml";
   EmptyString;
   "/**";
   " * Branded EndpointId type for type-safe endpoint references.";
   " * Use EP.redis.* or EP.http.* to get valid endpoint IDs.";
   " */";
   L "export type EndpointId = string & { readonly __brand: ~EndpointId~ };";
   EmptyString;
   "type EndpointLiteral<T extends string> = EndpointId & T;";
   EmptyString].
Definition endpoints_object : list string :=
  ["/**";
   " * Endpoint registry. Use EP.<kind>.<name> to get an EndpointId.";
   " * Example: EP.redis.redis_default";
   " */";
   "export const EP = {"].

Definition generateEndpointsTs (endpoints : list EndpointEntry) (registryDigest : string)
    : result string :=
  let byKind := group_by endpoint_kind endpoints in
  let sortedKinds := sort_strings (map fst byKind) in
  blocks ← fold_result (λ bs kind, b ← kind_block byKind kind; Ok (bs ++ [b])) [] sortedKinds;
  Ok (unlines (endpoints_header ++ endpoints_object ++ concat blocks ++
    ["} as const;"; EmptyString] ++
    flat_map (λ kind,
      ["/** Type for " +:+ kind +:+ " endpoint IDs */";
       "export type " +:+ capitalize kind +:+ "EndpointId = (typeof EP." +:+ kind +:+
       ")[keyof typeof EP." +:+ kind +:+ "];";
       EmptyString]) sortedKinds ++
    ["/** Env-invariant registry digest (endpoint_id, name, kind only) */";
     "export const ENDPOINT_REGISTRY_DIGEST = " +:+ quoted registryDigest +:+ ";";
     EmptyString;
     "export const ENDPOINT_COUNT = " +:+ length_text endpoints +:+ ";";
     EmptyString])).
End locale.

(** ** Grouping *)

Lemma group_by_snoc {A} (f : A → string) l x :
  group_by f (l ++ [x]) =
  map_set (group_by f l) (f x) (default [] (map_get (group_by f l) (f x)) ++ [x]).
Proof. unfold group_by. by rewrite foldl_snoc. Qed.

Lemma group_by_get {A} (f : A → string) l k :
  default [] (map_get (group_by f l) k) = filter (λ x, f x = k) l.
Proof.
  induction l as [|x l IH] using rev_ind; [done|].
  rewrite group_by_snoc, filter_app, filter_cons. destruct (decide (f x = k)) as [<-|Hk].
  - by rewrite map_get_set_eq, IH.
  - by rewrite map_get_set_ne, IH, app_nil_r.
Qed.

Lemma group_by_keys {A} (f : A → string) l :
  NoDup ((group_by f l).*1) ∧ ∀ k, k ∈ (group_by f l).*1 ↔ k ∈ f <$> l.
Proof.
  induction l as [|x l [IHn IHk]] using rev_ind; [split; [constructor|done]|].
  rewrite group_by_snoc. split; [by apply map_set_NoDup|].
  intros k. rewrite map_set_keys, fmap_app, elem_of_app, IHk. cbn [fmap list_fmap].
  by rewrite list_elem_of_singleton.
Qed.

(** ** The names of endpoints *)

(** What plans write after [EP.]: the sanitized names of a kind's endpoints. *)
Definition kind_names (kind : string) (es : list EndpointEntry) : list string :=
  (λ e, safeName (endpoint_name e)) <$> filter (λ e, endpoint_kind e = kind) es.

(** Every endpoint of a kind gets an identifier of its own. *)
Definition nameable (kind : string) (es : list EndpointEntry) : Prop :=
  NoDup (kind_names kind es) ∧
  Forall (λ n, is_identifier n = true ∧ (n ∉ RESERVED_IDENTIFIERS)) (kind_names kind es).

Section endpoints.
Context (localeCompare : string → string → comparison).

Lemma endpoint_member_iff kind lines used ep s :
  endpoint_member kind (lines, used) ep = Ok s ↔
  (is_identifier (safeName (endpoint_name ep)) = true ∧
   (safeName (endpoint_name ep) ∉ RESERVED_IDENTIFIERS)) ∧
  (safeName (endpoint_name ep) ∉ used) ∧
  s = (lines ++ endpoint_lines ep, string_set_add used (safeName (endpoint_name ep))).
Proof.
  unfold endpoint_member. rewrite !bind_Ok_unit, !throw_if_Ok, negb_false_iff, string_set_has_false.
  unfold string_elem. rewrite bool_decide_eq_false. naive_solver.
Qed.

Lemma endpoint_members_iff kind es : ∀ lines used ls us,
  fold_result (endpoint_member kind) (lines, used) es = Ok (ls, us) →
  ls = lines ++ flat_map endpoint_lines es ∧ ∀ n, n ∈ us ↔ n ∈ used ∨ n ∈ (safeName ∘ endpoint_name <$> es).
Proof.
  induction es as [|e es IH]; intros lines used ls us; cbn [fold_result].
  - intros [= <- <-]. split; [by rewrite app_nil_r|]. set_solver.
  - intros (s & (_ & _ & ->)%endpoint_member_iff & [-> Hus]%IH)%bind_Ok. split.
    + by rewrite <-app_assoc.
    + intros n. rewrite Hus, string_set_add_elem_of. cbn. set_solver.
Qed.

Lemma endpoint_members_ok kind es : ∀ lines used,
  (∃ r, fold_result (endpoint_member kind) (lines, used) es = Ok r) ↔
  let names := safeName ∘ endpoint_name <$> es in
  NoDup names ∧ Forall (λ n, is_identifier n = true ∧ (n ∉ RESERVED_IDENTIFIERS)) names ∧
  ∀ n, n ∈ names → n ∉ used.
Proof.
  induction es as [|e es IH]; intros lines used; cbn [fold_result].
  - split; [|by eexists]. intros _. split; [constructor|]. split; [constructor|].
    by intros ? ?%not_elem_of_nil.
  - setoid_rewrite bind_Ok. cbn. split.
    + intros (r & s & (Hok & Hn & ->)%endpoint_member_iff & Hr).
      pose proof (proj1 (IH _ _) (ex_intro _ _ Hr)) as (Hnd & Hall & Hu). 
      rewrite NoDup_cons, Forall_cons.
      assert (∀ n, n ∈ (safeName ∘ endpoint_name <$> es) → (n ∉ used) ∧ n ≠ safeName (endpoint_name e)) as H.
      { intros n Hin. specialize (Hu n Hin). rewrite string_set_add_elem_of in Hu. tauto. }
      split_and!; try done; try apply Hok; [intros Hin; by destruct (H _ Hin)|].
      intros n [->|Hin]%elem_of_cons; [done|]. by apply H.
    + intros ([Hni Hnd]%NoDup_cons & [Hok Hall]%Forall_cons & Hu).
      destruct (proj2 (IH (lines ++ endpoint_lines e)
        (string_set_add used (safeName (endpoint_name e))))) as [r Hr].
      * split_and!; [done..|]. intros n Hin. rewrite string_set_add_elem_of.
        intros [Hin'| ->]; [|done]. apply (Hu n); [by right|done].
      * exists r. exists (lines ++ endpoint_lines e, string_set_add used (safeName (endpoint_name e))).
        split; [|done]. apply endpoint_member_iff. split_and!; try done; try apply Hok. apply Hu. by left.
Qed.

Definition kind_lines (es : list EndpointEntry) (kind : string) : list string :=
  ["  " +:+ kind +:+ ": {"] ++
  flat_map endpoint_lines (js_sort (cmp_on localeCompare endpoint_name)
    (filter (λ e, endpoint_kind e = kind) es)) ++
  ["  },"].

Lemma kind_block_iff es kind b :
  kind_block localeCompare (group_by endpoint_kind es) kind = Ok b ↔
  nameable kind es ∧ b = kind_lines es kind.
Proof.
  unfold kind_block, kind_endpoints. rewrite group_by_get.
  set (l := js_sort _ _).
  assert (safeName ∘ endpoint_name <$> l ≡ₚ kind_names kind es) as Hl.
  { apply fmap_Permutation, js_sort_Permutation. }
  pose proof (endpoint_members_ok kind l [] []) as Hok. cbv zeta in Hok. rewrite Hl in Hok.
  rewrite bind_Ok. split.
  - intros ([ls us] & Hf & [= <-]). split.
    + destruct (proj1 Hok (ex_intro _ _ Hf)) as (? & ? & _). by split.
    + by destruct (endpoint_members_iff _ _ _ _ _ _ Hf) as [-> _].
  - intros [[Hnd Hall] ->]. destruct (proj2 Hok) as [[ls us] Hf].
    { split_and!; [done..|]. intros n _. by apply not_elem_of_nil. }
    exists (ls, us). split; [done|]. by destruct (endpoint_members_iff _ _ _ _ _ _ Hf) as [-> _].
Qed.

(** The file's text. *)
Definition endpoints_text (es : list EndpointEntry) (digest : string) (kinds : list string) : string :=
  unlines (endpoints_header ++ endpoints_object ++ flat_map (kind_lines es) kinds ++
    ["} as const;"; EmptyString] ++
    flat_map (λ kind,
      ["/** Type for " +:+ kind +:+ " endpoint IDs */";
       "export type " +:+ capitalize kind +:+ "EndpointId = (typeof EP." +:+ kind +:+
       ")[keyof typeof EP." +:+ kind +:+ "];";
       EmptyString]) kinds ++
    ["/** Env-invariant registry digest (endpoint_id, name, kind only) */";
     "export const ENDPOINT_REGISTRY_DIGEST = " +:+ quoted digest +:+ ";";
     EmptyString;
     "export const ENDPOINT_COUNT = " +:+ length_text es +:+ ";";
     EmptyString]).

Definition kinds_of (es : list EndpointEntry) : list string :=
  sort_strings ((group_by endpoint_kind es).*1).

Lemma generateEndpointsTs_iff es digest t :
  generateEndpointsTs localeCompare es digest = Ok t ↔
  (∀ kind, nameable kind es) ∧ t = endpoints_text es digest (kinds_of es).
Proof.
  unfold generateEndpointsTs. rewrite bind_Ok.
  change (map fst (group_by endpoint_kind es)) with ((group_by endpoint_kind es).*1).
  fold (kinds_of es). setoid_rewrite fold_result_push.
  assert (∀ bs, Forall2 (λ k b, kind_block localeCompare (group_by endpoint_kind es) k = Ok b)
      (kinds_of es) bs ↔ (∀ kind, nameable kind es) ∧ bs = map (kind_lines es) (kinds_of es)) as Hb.
  { intros bs. assert (Forall (λ k, nameable k es) (kinds_of es) ↔ ∀ kind, nameable kind es) as <-.
    { rewrite Forall_forall. split; [|auto]. intros H kind. destruct (decide (kind ∈ kinds_of es)); [auto|].
      unfold nameable, kind_names. assert (filter (λ e, endpoint_kind e = kind) es = []) as ->;
        [|by split; constructor].
      apply elem_of_nil_inv. intros e [Hk He]%list_elem_of_filter. subst kind. apply n. unfold kinds_of, sort_strings.
      apply js_sort_elem_of, group_by_keys. by apply list_elem_of_fmap_2. }
    generalize (kinds_of es). intros ks. revert bs. induction ks as [|k ks IH]; intros bs.
    - split; [by intros ->%Forall2_nil_inv_l|by intros [_ ->]].
    - rewrite Forall_cons. split.
      + intros (b & bs' & [Hk ->]%kind_block_iff & [? ->]%IH & ->)%Forall2_cons_inv_l.
        by split_and!.
      + intros [[Hk Hks] ->]. constructor; [by apply kind_block_iff|]. by apply IH. }
  split.
  - intros (bs & [Hn ->]%Hb & [= <-]). split; [done|]. unfold endpoints_text. by rewrite (flat_map_concat_map (kind_lines es)).
  - intros [Hn ->]. exists (map (kind_lines es) (kinds_of es)). split; [by apply Hb|].
    unfold endpoints_text. by rewrite (flat_map_concat_map (kind_lines es)).
Qed.
End endpoints.

Section endpoints_correct.
Context (localeCompare : string → string → comparison).

Lemma kinds_of_perm es es' : es ≡ₚ es' → kinds_of es = kinds_of es'.
Proof.
  intros Hp. apply sort_strings_perm_eq, NoDup_Permutation; try apply group_by_keys.
  intros k. rewrite !(proj2 (group_by_keys _ _)). by rewrite Hp.
Qed.

Lemma nameable_perm es es' kind : es ≡ₚ es' → nameable kind es → nameable kind es'.
Proof. unfold nameable, kind_names. by intros ->. Qed.

Lemma kind_lines_perm es es' kind :
  Consistent localeCompare (λ _, True) →
  (∀ x y, cmp_le localeCompare x y → cmp_le localeCompare y x → x = y) →
  es ≡ₚ es' → nameable kind es → kind_lines localeCompare es kind = kind_lines localeCompare es' kind.
Proof.
  intros Hc Hanti Hp [Hnd _]. unfold kind_lines. do 3 f_equal.
  set (l := filter _ es).
  assert (Consistent (cmp_on localeCompare endpoint_name) (λ e : EndpointEntry, e ∈ l)) as Hcs.
  { eapply consistent_weaken; [|by apply (cmp_on_consistent localeCompare endpoint_name (λ _, True))]. done. }
  apply (js_sort_perm_eq _ (λ e : EndpointEntry, e ∈ l)).
  - intros x y Hx Hy H1 H2. apply (NoDup_fmap_elem (λ e, safeName (endpoint_name e)) l); [done..|].
    f_equal. by apply Hanti.
  - by apply Forall_forall.
  - unfold l. by rewrite Hp.
Qed.

(** [generateEndpointsTs] succeeds exactly when, within every kind, the sanitized names
    of the endpoints are identifiers, none of them reserved, and distinct; the file then
    holds the lines of every endpoint under its kind.  When [localeCompare] orders
    distinct names apart, the file does not depend on the order of the registry. *)
Theorem generateEndpointsTs_correct es digest t :
  (generateEndpointsTs localeCompare es digest = Ok t ↔
   (∀ kind, nameable kind es) ∧ t = endpoints_text localeCompare es digest (kinds_of es)) ∧
  (Consistent localeCompare (λ _, True) →
   (∀ x y, cmp_le localeCompare x y → cmp_le localeCompare y x → x = y) →
   generateEndpointsTs localeCompare es digest = Ok t →
   ∀ es', es ≡ₚ es' → generateEndpointsTs localeCompare es' digest = Ok t).
Proof.
  split; [apply generateEndpointsTs_iff|].
  intros Hc Hanti [Hn ->]%generateEndpointsTs_iff es' Hp. apply generateEndpointsTs_iff.
  split; [intros kind; by eapply nameable_perm|].
  unfold endpoints_text, length_text. rewrite (kinds_of_perm es es' Hp), (Permutation_length Hp).
  assert (flat_map (kind_lines localeCompare es) (kinds_of es') =
    flat_map (kind_lines localeCompare es') (kinds_of es')) as ->; [|done].
  rewrite !flat_map_concat_map. f_equal. apply map_ext. intros kind.
  by apply kind_lines_perm.
Qed.
End endpoints_correct.

(** Two endpoints of one kind, and a third whose sanitized name is taken. *)
Definition sample_endpoint (id name : string) : EndpointEntry :=
  {| endpoint_id := id; endpoint_name := name; endpoint_kind := "redis";
     endpoint_resolver := {| host := "localhost"; port := num 6379 |};
     endpoint_policy := {| max_inflight := None; connect_timeout_ms := None;
                           request_timeout_ms := None |} |}.

Lemma generateEndpointsTs_correct_witness :
  let es := [sample_endpoint "ep_0001" "redis-main"; sample_endpoint "ep_0002" "cache"] in
  kind_names "redis" es = ["redis_main"; "cache"] ∧
  ∃ t, generateEndpointsTs string_cmp es "d" = Ok t ∧
    generateEndpointsTs string_cmp (reverse es) "d" = Ok t.
Proof.
  intros es. split; [done|].
  destruct (generateEndpointsTs string_cmp es "d") as [t|] eqn:E; [|by vm_compute in E].
  exists t. split; [done|].
  apply (proj2 (generateEndpointsTs_correct string_cmp es "d" t) _ string_cmp_le_antisym E).
  by rewrite reverse_Permutation.
Defined.

Example names_collide :
  generateEndpointsTs string_cmp [sample_endpoint "ep_0001" "redis-main"; sample_endpoint "ep_0002" "redis_main"] "d"
  = Throw (Error ("Endpoint names collide after sanitization within kind " +:+ quoted "redis" +:+
      ": redis_main -> redis_main")).
Proof. by vm_compute. Qed.
