(* ===== verification/RepositoryTasks.v ===== *)
(** * RepositoryTasks: from registry/tasks.toml to the implementations

    The registry's tasks as TOML gives them, what the parser and the generators derive from
    them, and the theorem that this is what the rest of the development starts from: the
    task specifications behind the implementations and the extraction table of the
    compiler. *)

From S2P Require Import Prelude Collections JsNumber JsValue StableStringify WritesEffect TaskImpl AstExtractor CodegenUtils Registry Endpoints TaskRegistry GenTs.

(** ** The meaning of an entry *)

(** The type that decides a parameter's check and value in the generated code. *)
Definition param_type_of (p : TaskParamEntry) : TaskImpl.param_type :=
  let type := tparam_type p in
  if String.eqb type "expr_id" then expr_id
  else if String.eqb type "pred_id" then pred_id
  else if String.eqb type "node_ref" then node_ref
  else if is_key_param p then key_ref_param
  else if String.eqb type "int" then int_param
  else if String.eqb type "endpoint_ref" then endpoint_ref
  else other_param.

Definition task_param_of (p : TaskParamEntry) : task_param :=
  {| TaskImpl.tsName := GenTs.tsName p; cppName := tparam_name p; type := param_type_of p;
     required := tparam_required p |}.

Definition spec_of (nt : named_task) : task_spec :=
  {| op_name := op nt.1; methodName := nt.2;
     task_params := map task_param_of (filter (λ p, tparam_name p ≠ "trace") (params nt.1)) |}.

(** [TASK_EXTRACTION_INFO], as the generated file lists it. *)
Definition table_entry (t : TaskEntry) : list (string * TaskExtractionInfo) :=
  match extraction_props (extraction_info t) with
  | [] => []
  | _ => [(op t, extraction_info t)]
  end.
Definition extraction_table (registry : TaskRegistry) : list (string * TaskExtractionInfo) :=
  flat_map table_entry (tasks registry).

(** ** The extraction table *)

Definition has_param (type : string) (t : TaskEntry) : bool :=
  existsb (λ p, String.eqb (tparam_type p) type) (params t).

Lemma extraction_prop_eq type name t :
  (∀ n, friendlyParamName n type = name) →
  extraction_prop type t = if has_param type t then Some name else None.
Proof.
  intros Hn. unfold extraction_prop, has_param.
  enough (∀ acc, acc = None ∨ acc = Some name →
    foldl (λ prop p, if String.eqb (tparam_type p) type then Some (GenTs.tsName p) else prop) acc (params t)
    = if existsb (λ p, String.eqb (tparam_type p) type) (params t) then Some name else acc) as H
    by by apply H; left.
  induction (params t) as [|p ps IH]; intros acc Hacc; [done|]. cbn.
  destruct (String.eqb_spec (tparam_type p) type) as [Ht|]; [|by apply IH].
  assert (GenTs.tsName p = name) as -> by by unfold GenTs.tsName; rewrite Ht.
  rewrite IH by by right. by destruct (existsb _ _).
Qed.

Lemma extraction_info_eq t :
  extraction_info t =
  {| exprProp := if has_param "expr_id" t then Some "expr" else None;
     predProp := if has_param "pred_id" t then Some "pred" else None |}.
Proof.
  unfold extraction_info.
  by rewrite (extraction_prop_eq "expr_id" "expr"), (extraction_prop_eq "pred_id" "pred").
Qed.

Lemma extraction_props_nil t :
  extraction_props (extraction_info t) = [] ↔ has_param "expr_id" t = false ∧ has_param "pred_id" t = false.
Proof.
  rewrite extraction_info_eq. unfold extraction_props. cbn [exprProp predProp].
  destruct (has_param "expr_id" t), (has_param "pred_id" t); split;
    first [done|discriminate|intros [? ?]; discriminate].
Qed.

(** The generated lines are those of the table. *)
Lemma extraction_lines registry :
  flat_map extraction_line (tasks registry) =
  map (λ e, "  " +:+ quoted e.1 +:+ ": { " +:+ join ", " (extraction_props e.2) +:+ " },")
    (extraction_table registry).
Proof.
  unfold extraction_table. induction (tasks registry) as [|t ts IH]; [done|].
  cbn [flat_map]. rewrite IH, map_app. f_equal. unfold extraction_line, table_entry.
  destruct (extraction_props (extraction_info t)) as [|p ps] eqn:E; [done|].
  cbn [map fst snd]. by rewrite E.
Qed.

Lemma table_entry_cases t :
  table_entry t =
  if has_param "expr_id" t || has_param "pred_id" t then [(op t, extraction_info t)] else [].
Proof.
  unfold table_entry. destruct (extraction_props (extraction_info t)) eqn:E.
  - by apply extraction_props_nil in E as [-> ->].
  - destruct (has_param "expr_id" t || has_param "pred_id" t) eqn:Hb; [done|].
    apply orb_false_iff, extraction_props_nil in Hb. congruence.
Qed.

Lemma table_keys ts : (flat_map table_entry ts).*1 `sublist_of` op <$> ts.
Proof.
  induction ts as [|t ts IH]; [constructor|]. cbn [flat_map]. rewrite table_entry_cases, fmap_cons.
  by destruct (has_param "expr_id" t || has_param "pred_id" t); constructor.
Qed.

Lemma table_elem_of ts e :
  e ∈ flat_map table_entry ts ↔
  ∃ t, t ∈ ts ∧ has_param "expr_id" t || has_param "pred_id" t = true ∧ e = (op t, extraction_info t).
Proof.
  rewrite list_elem_of_In, in_flat_map. setoid_rewrite <-list_elem_of_In.
  setoid_rewrite table_entry_cases. split.
  - intros (t & Ht & He). exists t. case_match; [|by apply not_elem_of_nil in He].
    by apply list_elem_of_singleton in He.
  - intros (t & Ht & Hb & ->). exists t. split; [done|]. rewrite Hb. by left.
Qed.

Lemma extraction_table_lookup registry t :
  NoDup (op <$> tasks registry) → t ∈ tasks registry →
  map_get (extraction_table registry) (op t) =
  if has_param "expr_id" t || has_param "pred_id" t then Some (extraction_info t) else None.
Proof.
  unfold extraction_table. intros Hnd Ht.
  destruct (has_param "expr_id" t || has_param "pred_id" t) eqn:E.
  - apply elem_of_map_get; [eapply sublist_NoDup; [done|apply table_keys]|].
    apply table_elem_of. by exists t.
  - apply map_get_None. intros (e & He & (y & Hy & Hb & ->)%table_elem_of)%list_elem_of_fmap.
    assert (t = y) as <- by by apply (NoDup_fmap_elem op (tasks registry)). congruence.
Qed.

(** ** registry/tasks.toml *)

Definition toml_param (name type : string) (required nullable : bool) : value :=
  VObject [("name", VString name); ("type", VString type); ("required", VBool required);
           ("nullable", VBool nullable)].
Definition toml_endpoint (name kind : string) (required nullable : bool) : value :=
  VObject [("name", VString name); ("type", VString "endpoint_ref"); ("endpoint_kind", VString kind);
           ("required", VBool required); ("nullable", VBool nullable)].
Definition toml_task (op output_pattern : string) (params : list value) : value :=
  VObject [("op", VString op); ("output_pattern", VString output_pattern); ("param", VArray params)].
Definition toml_effect (op output_pattern : string) (params : list value) : value :=
  VObject [("op", VString op); ("output_pattern", VString output_pattern);
    ("writes_effect", VString (L "{~kind~:~FromParam~,~param~:~out_key~}" +:+ newline));
    ("param", VArray params)].

Definition repository_entries : list value := [
     toml_task "core::concat" "ConcatDense"
       [toml_param "rhs" "node_ref" true false;
        toml_param "trace" "string" false true];
     toml_task "core::filter" "StableFilter"
       [toml_param "pred_id" "pred_id" true false;
        toml_param "trace" "string" false true];
     toml_task "core::follow" "VariableDense"
       [toml_endpoint "endpoint" "redis" true false;
        toml_param "fanout" "int" true false;
        toml_param "trace" "string" false true];
     toml_task "core::media" "VariableDense"
       [toml_endpoint "endpoint" "redis" true false;
        toml_param "fanout" "int" true false;
        toml_param "trace" "string" false true];
     toml_task "core::recommendation" "VariableDense"
       [toml_endpoint "endpoint" "redis" true false;
        toml_param "fanout" "int" true false;
        toml_param "trace" "string" false true];
     toml_task "core::sort" "PermutationOfInput"
       [toml_param "by" "int" true false;
        toml_param "order" "string" false false;
        toml_param "trace" "string" false true];
     toml_task "core::take" "PrefixOfInput"
       [toml_param "count" "int" true false;
        toml_param "trace" "string" false true];
     toml_task "core::viewer" "VariableDense"
       [toml_endpoint "endpoint" "redis" true false;
        toml_param "trace" "string" false true];
     toml_effect "core::vm" "UnaryPreserveView"
       [toml_param "expr_id" "expr_id" true false;
        toml_param "out_key" "int" true false;
        toml_param "trace" "string" false true];
     toml_task "test::busy_cpu" "UnaryPreserveView"
       [toml_param "busy_wait_ms" "int" true false;
        toml_param "trace" "string" false true];
     toml_task "test::fixed_source" "VariableDense"
       [toml_param "row_count" "int" false false;
        toml_param "trace" "string" false true];
     toml_task "test::sleep" "UnaryPreserveView"
       [toml_param "duration_ms" "int" true false;
        toml_param "fail_after_sleep" "bool" false false;
        toml_param "trace" "string" false true]].

Definition repository_tasks : value :=
  VObject [("schema_version", VNumber (num 1));
    ("manifest_digest", VString "4a2e3e796f5c3cf45f1283b4a91580d0f6e3bb2d3b757f06cfd05da5dcaff8a6");
    ("task", VArray repository_entries)].

(** The specifications the implementations are proved against, in TaskImpl.v. *)
Definition implemented_specs : list task_spec :=
  [concat_task; filter_task; follow_task; media_task; recommendation_task; sort_task; take_task;
   viewer_task; vm_task; busy_cpu_task; fixed_source_task; sleep_task].

Lemma repository_tasks_read syntaxError :
  ∃ ts ms, fold_result (λ ts r, e ← read_task syntaxError r; Ok (ts ++ [e])) [] repository_entries = Ok ts ∧
    with_methods ts = Ok ms ∧ map spec_of ms = implemented_specs ∧
    flat_map table_entry ts = task_extraction_info ∧
    filter (λ e, is_undefined e.2 = false) (map (λ t, (op t, writes_effect t)) ts) =
      [("core::vm", serializeWritesEffect (effectFromParam "out_key"))].
Proof. eexists _, _. split; [vm_compute; reflexivity|]. split; [vm_compute; reflexivity|]. by vm_compute. Qed.

(** C14: in whatever order [localeCompare] puts the tasks, registry/tasks.toml is accepted,
    every task gets the method the plan API has, the specifications the generator works
    from are those the implementations refine, the extraction table is the one the
    compiler looks operators up in, and the only effect is that of [core::vm], on the key
    it is given.  In any registry with distinct operators, a task is in the table exactly
    when it has an expression or a predicate parameter, with [expr] and [pred] as the
    options to extract. *)
Theorem repository_tasks_correct localeCompare syntaxError :
  (∃ reg ts, parseTasks localeCompare syntaxError repository_tasks = Ok reg ∧
     with_methods (tasks reg) = Ok ts ∧
     map spec_of ts ≡ₚ implemented_specs ∧
     extraction_table reg ≡ₚ task_extraction_info ∧
     filter (λ e, is_undefined e.2 = false) (map (λ t, (op t, writes_effect t)) (tasks reg)) =
       [("core::vm", serializeWritesEffect (effectFromParam "out_key"))]) ∧
  (∀ reg t, NoDup (op <$> tasks reg) → t ∈ tasks reg →
     map_get (extraction_table reg) (op t) =
     if has_param "expr_id" t || has_param "pred_id" t then
       Some {| exprProp := if has_param "expr_id" t then Some "expr" else None;
               predProp := if has_param "pred_id" t then Some "pred" else None |}
     else None).
Proof.
  split; [|intros reg t Hnd Ht; by rewrite extraction_table_lookup, extraction_info_eq].
  destruct (repository_tasks_read syntaxError) as (ts & ms & Hread & Hms & Hspecs & Htable & Heffects).
  set (sorted := js_sort (cmp_on localeCompare op) ts).
  assert (ts ≡ₚ sorted) as Hp by (symmetry; apply js_sort_Permutation).
  apply fold_result_push in Hms. destruct (Permutation_Forall2 Hp Hms) as (ms' & Hpm & Hms').
  eexists {| tasks_version := num 1; tasks := sorted |}, ms'. cbn [tasks]. split_and!.
  - unfold parseTasks, repository_tasks. cbn -[repository_entries fold_result js_sort].
    rewrite Hread. done.
  - by apply fold_result_push.
  - by rewrite <-Hspecs, Hpm.
  - rewrite <-Htable. unfold extraction_table. cbn [tasks]. by apply Permutation_flat_map.
  - apply Permutation_singleton_r. by rewrite <-Heffects, Hp.
Qed.

Lemma repository_tasks_correct_witness :
  let t := {| op := "a::x"; output_pattern := "DenseSource"; writes_effect := VUndefined;
              params := [{| tparam_name := "p_id"; tparam_type := "pred_id"; tparam_required := true;
                            tparam_nullable := false; tparam_endpoint_kind := None |}] |} in
  let reg := {| tasks_version := num 1; manifest_digest := EmptyString; tasks := [t] |} in
  map_get (extraction_table reg) "a::x" = Some {| exprProp := None; predProp := Some "pred" |}.
Proof.
  intros t reg. exact (proj2 (repository_tasks_correct string_cmp id) reg t (NoDup_singleton _)
    (list_elem_of_here _ _)).
Defined.
