(* ===== verification/GenCpp.v ===== *)
(** * GenCpp: the C++ header generators (dsl/src/codegen/gen-cpp.ts)

    The texts before clang-format, which is external.  As in GenTs.v a tilde in a line's
    text stands for a double quote. *)

From S2P Require Import Prelude Collections JsNumber JsValue StableStringify Json AstExtractor CompilerCli CodegenUtils Registry Endpoints TaskRegistry GenTs.

(** ** Names *)

(** A [switch] with a default, and one that falls through to [undefined]. *)
Definition switch (table : list (string * string)) (d s : string) : string :=
  default d (map_get table s).

Definition cppType : string → string :=
  switch [("int", "Int"); ("float", "Float"); ("string", "String"); ("bool", "Bool");
          ("feature_bundle", "FeatureBundle")] "Unknown".
Definition cppStatus : string → string :=
  switch [("active", "Active"); ("deprecated", "Deprecated"); ("blocked", "Blocked")] "undefined".
Definition cppCapabilityStatus : string → string :=
  switch [("implemented", "Implemented"); ("draft", "Draft"); ("deprecated", "Deprecated");
          ("blocked", "Blocked")] "undefined".
Definition cppPropertyType (jsonType : value) : string :=
  match jsonType with
  | VString s => switch [("boolean", "Boolean"); ("string", "String"); ("number", "Number");
                         ("array", "Array"); ("object", "Object")] "Unknown" s
  | _ => "Unknown"
  end.

Definition is_alnum (c : ascii) : bool := is_word_char c && negb (Ascii.eqb c "_").
(** [id.replace(/[^a-zA-Z0-9]/g, "_")] *)
Fixpoint alnum_name (id : string) : string :=
  match id with
  | EmptyString => EmptyString
  | String c r => String (if is_alnum c then c else "_"%char) (alnum_name r)
  end.
Definition cppCapabilityIdent (id : string) : string :=
  let ident := alnum_name id in
  match ident with
  | String c _ => if is_digit c then "_" +:+ ident else ident
  | EmptyString => ident
  end.

(** [name.split("_").map(w => w[0].toUpperCase() + w.slice(1)).join("")]; an empty part has
    no first character. *)
Definition pascal (name : string) : result string :=
  ws ← all_ok (map (λ w, match w with EmptyString => Throw TypeError | _ => Ok (capitalize w) end)
         (split_underscores EmptyString name));
  Ok (join EmptyString ws).

Definition bool_text (b : bool) : string := if b then "true" else "false".
Definition replaced_text (n : option number) : string := num_to_string (default (num 0) n).

Definition footer : list string := [EmptyString; "} // namespace rankd"; EmptyString].

(** ** Keys, parameters, features *)

Definition keys_h_header : list string :=
  ["// AUTO-GENERATED - DO NOT EDIT";
   "// Generated by dsl/src/codegen.ts";
   "#pragma once";
   EmptyString;
   "#include <cstdint>";
   "#include <string_view>";
   "#include <array>";
   EmptyString;
   "namespace rankd {";
   EmptyString;
   "enum class KeyId : uint32_t {"].
Definition keys_h_types : list string :=
  ["};";
   EmptyString;
   "// Helper to convert KeyId to uint32_t (avoids verbose static_cast)";
   "constexpr uint32_t key_id(KeyId k) noexcept {";
   "  return static_cast<uint32_t>(k);";
   "}";
   EmptyString;
   "enum class KeyType { Int, Float, String, Bool, FeatureBundle };";
   "enum class Status { Active, Deprecated, Blocked };";
   EmptyString;
   "struct KeyMeta {";
   "    uint32_t id;";
   "    std::string_view name;";
   "    KeyType type;";
   "    bool nullable;";
   "    Status status;";
   "    bool allow_read;";
   "    bool allow_write;";
   "    uint32_t replaced_by;  // 0 if none";
   "    bool has_default;";
   "    std::string_view default_json;";
   "};";
   EmptyString].

Definition default_json (k : KeyEntry) : string :=
  if is_null (key_default k) then quoted EmptyString
  else json_quote (default "undefined" (stringify 0 0 (key_default k))).

Definition key_row (k : KeyEntry) : string :=
  "    {" +:+ num_to_string (key_id k) +:+ ", " +:+ quoted (key_name k) +:+ ", KeyType::" +:+
  cppType (key_type k) +:+ ", " +:+ bool_text (key_nullable k) +:+ ", Status::" +:+
  cppStatus (key_status k) +:+ ", " +:+ bool_text (key_allow_read k) +:+ ", " +:+
  bool_text (key_allow_write k) +:+ ", " +:+ replaced_text (key_replaced_by k) +:+ ", " +:+
  bool_text (negb (is_null (key_default k))) +:+ ", " +:+ default_json k +:+ "},".

Definition generateKeysH (keys : list KeyEntry) (digest : string) : string :=
  unlines (keys_h_header ++
    map (λ k, "    " +:+ key_name k +:+ " = " +:+ num_to_string (key_id k) +:+ ",") keys ++
    keys_h_types ++
    ["inline constexpr size_t kKeyCount = " +:+ length_text keys +:+ ";";
     "inline constexpr std::string_view kKeyRegistryDigest = " +:+ quoted digest +:+ ";";
     EmptyString;
     "inline constexpr std::array<KeyMeta, kKeyCount> kKeyRegistry = {{"] ++
    map key_row keys ++
    ["}};"] ++ footer).

Definition params_h_header : list string :=
  ["// AUTO-GENERATED - DO NOT EDIT";
   "// Generated by dsl/src/codegen.ts";
   "#pragma once";
   EmptyString;
   "#include <array>";
   "#include <cstdint>";
   "#include <string_view>";
   EmptyString;
   L "#include ~key_registry.h~  // for Status";
   EmptyString;
   "namespace rankd {";
   EmptyString;
   "enum class ParamId : uint32_t {"].
Definition params_h_types : list string :=
  ["};";
   EmptyString;
   "enum class ParamType { Int, Float, String, Bool };";
   EmptyString;
   "struct ParamMeta {";
   "    uint32_t id;";
   "    std::string_view name;";
   "    ParamType type;";
   "    bool nullable;";
   "    Status status;";
   "    bool allow_read;";
   "    bool allow_write;";
   "    uint32_t replaced_by;  // 0 if none";
   "};";
   EmptyString].

Definition param_row (p : ParamEntry) : string :=
  "    {" +:+ num_to_string (param_id p) +:+ ", " +:+ quoted (param_name p) +:+ ", ParamType::" +:+
  cppType (param_type p) +:+ ", " +:+ bool_text (param_nullable p) +:+ ", Status::" +:+
  cppStatus (param_status p) +:+ ", " +:+ bool_text (param_allow_read p) +:+ ", " +:+
  bool_text (param_allow_write p) +:+ ", " +:+ replaced_text (param_replaced_by p) +:+ "},".

Definition generateParamsH (params : list ParamEntry) (digest : string) : string :=
  unlines (params_h_header ++
    map (λ p, "    " +:+ param_name p +:+ " = " +:+ num_to_string (param_id p) +:+ ",") params ++
    params_h_types ++
    ["inline constexpr size_t kParamCount = " +:+ length_text params +:+ ";";
     "inline constexpr std::string_view kParamRegistryDigest = " +:+ quoted digest +:+ ";";
     EmptyString;
     "inline constexpr std::array<ParamMeta, kParamCount> kParamRegistry = {{"] ++
    map param_row params ++
    ["}};"] ++ footer).

Definition features_h_header : list string :=
  ["// AUTO-GENERATED - DO NOT EDIT";
   "// Generated by dsl/src/codegen.ts";
   "#pragma once";
   EmptyString;
   "#include <array>";
   "#include <cstdint>";
   "#include <string_view>";
   EmptyString;
   L "#include ~key_registry.h~  // for Status";
   EmptyString;
   "namespace rankd {";
   EmptyString;
   "enum class FeatureId : uint32_t {"].
Definition features_h_types : list string :=
  ["};";
   EmptyString;
   "enum class FeatureType { Int, Float, String, Bool };";
   EmptyString;
   "struct FeatureMeta {";
   "    uint32_t id;";
   "    std::string_view stage;";
   "    std::string_view name;";
   "    FeatureType type;";
   "    bool nullable;";
   "    Status status;";
   "};";
   EmptyString].

Definition feature_row (f : FeatureEntry) : string :=
  "    {" +:+ num_to_string (feature_id f) +:+ ", " +:+ quoted (stage f) +:+ ", " +:+
  quoted (feature_name f) +:+ ", FeatureType::" +:+ cppType (feature_type f) +:+ ", " +:+
  bool_text (feature_nullable f) +:+ ", Status::" +:+ cppStatus (feature_status f) +:+ "},".

Definition generateFeaturesH (features : list FeatureEntry) (digest : string) : string :=
  unlines (features_h_header ++
    map (λ f, "    " +:+ stage f +:+ "_" +:+ feature_name f +:+ " = " +:+
              num_to_string (feature_id f) +:+ ",") features ++
    features_h_types ++
    ["inline constexpr size_t kFeatureCount = " +:+ length_text features +:+ ";";
     "inline constexpr std::string_view kFeatureRegistryDigest = " +:+ quoted digest +:+ ";";
     EmptyString;
     "inline constexpr std::array<FeatureMeta, kFeatureCount> kFeatureRegistry = {{"] ++
    map feature_row features ++
    ["}};"] ++ footer).

(** ** Validation rules *)

(** [pattern.replace(/\\/g, "\\\\").replace(/"/g, '\\"')] *)
Fixpoint escape_pattern (s : string) : string :=
  match s with
  | EmptyString => EmptyString
  | String c r =>
      if Ascii.eqb c backslash || Ascii.eqb c quote_char
      then String backslash (String c (escape_pattern r))
      else String c (escape_pattern r)
  end.

(** A pattern is a string, on which [replace] is called. *)
Definition pattern_text (v : value) : result string :=
  match v with VString s => Ok s | _ => Throw TypeError end.

Definition pattern_line (kv : string * value) : result string :=
  pattern ← pattern_text kv.2;
  name ← pascal kv.1;
  Ok ("inline const std::string k" +:+ name +:+ "Pattern = " +:+ quoted (escape_pattern pattern) +:+ ";").

Definition pattern_function (kv : string * value) : result (list string) :=
  name ← pascal kv.1;
  Ok ["inline bool is_valid_" +:+ kv.1 +:+ "(const std::string& value) {";
      "    static const std::regex pattern(k" +:+ name +:+ "Pattern);";
      "    return std::regex_match(value, pattern);";
      "}";
      EmptyString].

Definition limit_line (kv : string * value) : result string :=
  name ← pascal kv.1;
  n ← ToNumber kv.2;
  t ← template kv.2;
  Ok ("inline constexpr " +:+ (if num_ltb (num 2147483647) n then "uint64_t" else "uint32_t") +:+
      " k" +:+ name +:+ " = " +:+ t +:+ ";").

Definition enum_lines (kv : string * value) : result (list string) :=
  name ← pascal kv.1;
  match kv.2 with
  | VArray l =>
      Ok (["inline constexpr std::array<std::string_view, " +:+ length_text l +:+ "> k" +:+ name +:+ " = {{"] ++
          map (λ v, "    " +:+ default "undefined" (stringify 0 0 v) +:+ ",") l ++
          ["}};"; EmptyString])
  | _ => Throw TypeError
  end.

Definition validation_h_header : list string :=
  ["// AUTO-GENERATED - DO NOT EDIT";
   "// Generated by dsl/src/codegen.ts from registry/validation.toml";
   "#pragma once";
   EmptyString;
   "#include <array>";
   "#include <cstdint>";
   "#include <regex>";
   "#include <string>";
   "#include <string_view>";
   EmptyString;
   "namespace rankd {";
   "namespace validation {";
   EmptyString;
   "// =====================================================";
   "// Patterns";
   "// =====================================================";
   EmptyString].

Definition generateValidationH (validation : ValidationRules) (digest : string) : result string :=
  patternLines ← all_ok (map pattern_line (patterns validation));
  functions ← fold_result (λ bs kv, b ← pattern_function kv; Ok (bs ++ [b])) [] (patterns validation);
  limitLines ← all_ok (map limit_line (limits validation));
  enumLines ← fold_result (λ bs kv, b ← enum_lines kv; Ok (bs ++ [b])) [] (enums validation);
  Ok (unlines (validation_h_header ++ patternLines ++
    [EmptyString] ++ section_header "Validation functions" ++ concat functions ++
    section_header "Limits" ++ limitLines ++
    [EmptyString] ++ section_header "Enums" ++ concat enumLines ++
    ["inline constexpr std::string_view kValidationDigest = " +:+ quoted digest +:+ ";";
     EmptyString;
     "} // namespace validation";
     "} // namespace rankd";
     EmptyString])).

(** ** Capabilities *)

(** [v?.k] *)
Definition optional_get (v : value) (k : string) : result value :=
  match v with VUndefined | VNull => Ok VUndefined | _ => get_prop v k end.

(** [props ? Object.keys(props).sort() : []] *)
Definition sorted_names (props : value) : result (list string) :=
  if truthy props then sort_strings <$> keys props else Ok [].

(** [v > 0] *)
Definition positive (v : value) : result bool := n ← ToNumber v; Ok (num_ltb (num 0) n).

(** An array of names in a variable of its own. *)
Definition name_array (varName count : string) (names : list string) : list string :=
  ["inline constexpr std::array<std::string_view, " +:+ count +:+ "> " +:+ varName +:+ " = {{"] ++
  map (λ n, "    " +:+ n +:+ ",") names ++
  ["}};"; EmptyString].

Definition property_types (ident : string) (props : value) (names : list string)
    : result (list string) :=
  rows ← fold_result (λ rows name, row ← (propSchema ← get_prop props name;
      type ← optional_get propSchema "type";
      Ok ("    {" +:+ json_quote name +:+ ", PropertyType::" +:+ cppPropertyType type +:+ "},"));
    Ok (rows ++ [row])) [] names;
  Ok (["inline constexpr std::array<PropertyMeta, " +:+ length_text names +:+ "> kPropTypes_" +:+
       ident +:+ " = {{"] ++ rows ++ ["}};"; EmptyString]).

(** The arrays of a capability. *)
Definition capability_arrays (cap : CapabilityEntry) : result (list string) :=
  props ← optional_get (payload_schema cap) "properties";
  required ← optional_get (payload_schema cap) "required";
  propNames ← sorted_names props;
  let ident := cppCapabilityIdent (cap_id cap) in
  let some := negb (length propNames =? 0) in
  let names := lines_if some
    (name_array ("kProps_" +:+ ident) (length_text propNames) (map json_quote propNames)) in
  requiredLines ←
    (if truthy required then
       n ← get_prop required "length";
       more ← positive n;
       if more : bool then
         t ← template n;
         l ← iterate required;
         Ok (name_array ("kRequired_" +:+ ident) t (map (λ v, default "undefined" (stringify 0 0 v)) l))
       else Ok []
     else Ok []);
  types ← (if truthy props && some then property_types ident props propNames else Ok []);
  Ok (names ++ requiredLines ++ types).

(** [n > 0 ? `${prefix}${ident}.data()` : "nullptr"] *)
Definition pointer (some : bool) (prefix ident : string) : string :=
  if some then prefix +:+ ident +:+ ".data()" else "nullptr".

Definition capability_row (cap : CapabilityEntry) : result (list string) :=
  additional ← optional_get (payload_schema cap) "additionalProperties";
  props ← optional_get (payload_schema cap) "properties";
  required ← optional_get (payload_schema cap) "required";
  propNames ← sorted_names props;
  len ← optional_get required "length";
  let numRequired := nullish len (VNumber (num 0)) in
  someRequired ← positive numRequired;
  requiredText ← template numRequired;
  let ident := cppCapabilityIdent (cap_id cap) in
  let some := negb (length propNames =? 0) in
  let numProps := length_text propNames in
  Ok ["    {" +:+ json_quote (cap_id cap) +:+ ", " +:+ json_quote (rfc cap) +:+ ", " +:+
        json_quote (cap_name cap) +:+ ",";
      "     CapabilityStatus::" +:+ cppCapabilityStatus (cap_status cap) +:+ ",";
      "     " +:+ json_quote (cap_doc cap) +:+ ",";
      "     {.has_schema = " +:+ bool_text (negb (is_null (payload_schema cap))) +:+ ",";
      "      .additional_properties = " +:+
        bool_text (match additional with VBool false => false | _ => true end) +:+ ",";
      "      .allowed_keys = " +:+ pointer some "kProps_" ident +:+ ",";
      "      .num_allowed_keys = " +:+ numProps +:+ ",";
      "      .required_keys = " +:+ pointer someRequired "kRequired_" ident +:+ ",";
      "      .num_required_keys = " +:+ requiredText +:+ ",";
      "      .property_types = " +:+ pointer some "kPropTypes_" ident +:+ ",";
      "      .num_property_types = " +:+ numProps +:+ "}},"].

Definition capabilities_h_header : list string :=
  ["// AUTO-GENERATED - DO NOT EDIT";
   "// Generated by dsl/src/codegen.ts from registry/capabilities.toml";
   "#pragma once";
   EmptyString;
   "#include <array>";
   "#include <optional>";
   "#include <string_view>";
   EmptyString;
   "namespace rankd {";
   EmptyString;
   "enum class CapabilityStatus { Implemented, Draft, Deprecated, Blocked };";
   "enum class PropertyType { Boolean, String, Number, Array, Object, Unknown };";
   EmptyString;
   "// Property metadata for type checking";
   "struct PropertyMeta {";
   "  std::string_view name;";
   "  PropertyType type;";
   "};";
   EmptyString;
   "// Simple schema representation (subset of JSON Schema)";
   "struct PayloadSchema {";
   "  bool has_schema;                          // false = no payload allowed";
   "  bool additional_properties;               // true = allow extra keys";
   "  const std::string_view* allowed_keys;     // pointer to array of allowed property names";
   "  size_t num_allowed_keys;                  // number of allowed properties";
   "  const std::string_view* required_keys;    // pointer to array of required property names";
   "  size_t num_required_keys;                 // number of required properties";
   "  const PropertyMeta* property_types;       // pointer to array of property type info";
   "  size_t num_property_types;                // number of property type entries";
   "};";
   EmptyString;
   "struct CapabilityMeta {";
   "  std::string_view id;";
   "  std::string_view rfc;";
   "  std::string_view name;";
   "  CapabilityStatus status;";
   "  std::string_view doc;";
   "  PayloadSchema schema;";
   "};";
   EmptyString].

Definition generateCapabilitiesH (capabilities : list CapabilityEntry) (digest : string)
    : result string :=
  arrays ← fold_result (λ bs c, b ← capability_arrays c; Ok (bs ++ [b])) [] capabilities;
  rows ← fold_result (λ bs c, b ← capability_row c; Ok (bs ++ [b])) [] capabilities;
  Ok (unlines (capabilities_h_header ++ concat arrays ++
    ["inline constexpr size_t kCapabilityCount = " +:+ length_text capabilities +:+ ";";
     "inline constexpr std::string_view kCapabilityRegistryDigest = " +:+ quoted digest +:+ ";";
     EmptyString;
     "inline constexpr std::array<CapabilityMeta, kCapabilityCount> kCapabilityRegistry = {{"] ++
    concat rows ++
    ["}};"] ++ footer)).
