(* ===== verification/GenMonaco.v ===== *)
(** * GenMonaco: the type definitions of the editor (dsl/src/codegen/gen-monaco.ts)

    As in GenTs.v a tilde in a line's text stands for a double quote. *)

From S2P Require Import Prelude Collections JsNumber JsValue StableStringify Json AstExtractor CodegenUtils Registry Endpoints TaskRegistry GenTs.

(** ** Options *)

Definition monaco_type (p : TaskParamEntry) : string :=
  let type := tparam_type p in
  let tsType :=
    if String.eqb type "int" then if is_key_param p then "KeyToken" else "number"
    else if String.eqb type "float" then "number"
    else if String.eqb type "bool" then "boolean"
    else if String.eqb type "string" then "string"
    else if String.eqb type "expr_id" then "ExprNode | number"
    else if String.eqb type "pred_id" then "PredNode"
    else if String.eqb type "node_ref" then "CandidateSet"
    else "unknown" in
  if tparam_nullable p then tsType +:+ " | null" else tsType.

Definition generateMonacoOptsType (task : TaskEntry) : string :=
  let parts := map (λ p, tsName p +:+ (if tparam_required p then EmptyString else "?") +:+ ": " +:+
                         monaco_type p)
                 (filter (λ p, tparam_name p ≠ "trace") (params task)) ++ ["trace?: string"] in
  "{ " +:+ join "; " parts +:+ " }".

Definition method_line (nt : named_task) : string :=
  "    " +:+ nt.2 +:+ "(opts: " +:+ generateMonacoOptsType nt.1 +:+ "): CandidateSet;".

(** The tasks outside [core], by namespace. *)
Definition by_namespace (l : list named_task) : list (string * list named_task) :=
  group_by (λ t, default EmptyString (opToNamespace (op t.1))) (filter (λ t, in_core t = false) l).

Definition monaco_header : list string :=
  ["// AUTO-GENERATED from registries - DO NOT EDIT";
   "// Generated by dsl/src/codegen.ts from registry/*.toml";
   "// Regenerate with: pnpm -C dsl run gen";
   EmptyString;
   "/**";
   " * Monaco-compatible type definitions for the Ranking DSL.";
   " * Use with monaco.languages.typescript.typescriptDefaults.addExtraLib()";
   " */";
   "export const DSL_TYPES = `";
   "declare module '@ranking-dsl/runtime' {";
   "  // =====================================================";
   "  // Token types";
   "  // =====================================================";
   EmptyString;
   "  export interface KeyToken {";
   "    readonly kind: 'Key';";
   "    readonly id: number;";
   "    readonly name: string;";
   "    // Natural expression support: Key.x * 10, Key.x + Key.y";
   "    // These are compile-time only - the compiler extracts them via AST";
   "    valueOf(): number;";
   "  }";
   EmptyString;
   "  export interface ParamToken {";
   "    readonly kind: 'Param';";
   "    readonly id: number;";
   "    readonly name: string;";
   "    // Natural expression support: P.weight * 0.5";
   "    valueOf(): number;";
   "  }";
   EmptyString;
   "  /**";
   "   * Branded EndpointId type for type-safe endpoint references.";
   "   * Use EP.redis.* or EP.http.* to get valid endpoint IDs.";
   "   */";
   "  export type EndpointId = string & { readonly __brand: 'EndpointId' };";
   EmptyString;
   "  // =====================================================";
   "  // Expression types";
   "  // =====================================================";
   EmptyString;
   "  export type ExprNode =";
   "    | { op: 'const_number'; value: number }";
   "    | { op: 'const_null' }";
   "    | { op: 'key_ref'; key_id: number }";
   "    | { op: 'param_ref'; param_id: number }";
   "    | { op: 'add'; a: ExprNode; b: ExprNode }";
   "    | { op: 'sub'; a: ExprNode; b: ExprNode }";
   "    | { op: 'mul'; a: ExprNode; b: ExprNode }";
   "    | { op: 'neg'; x: ExprNode }";
   "    | { op: 'coalesce'; a: ExprNode; b: ExprNode };";
   EmptyString;
   "  // =====================================================";
   "  // Predicate types";
   "  // =====================================================";
   EmptyString;
   "  export type PredNode =";
   "    | { op: 'const_bool'; value: boolean }";
   "    | { op: 'and'; a: PredNode; b: PredNode }";
   "    | { op: 'or'; a: PredNode; b: PredNode }";
   "    | { op: 'not'; x: PredNode }";
   "    | { op: 'cmp'; cmp: '==' | '!=' | '<' | '<=' | '>' | '>='; a: ExprNode; b: ExprNode }";
   "    | { op: 'in'; lhs: ExprNode; list: (number | string)[] }";
   "    | { op: 'is_null'; x: ExprNode }";
   "    | { op: 'not_null'; x: ExprNode }";
   "    | { op: 'regex'; key_id: number; pattern: { kind: 'literal'; value: string } | { kind: 'param'; param_id: number }; flags: string };";
   EmptyString;
   "  // =====================================================";
   "  // Expression builder (E)";
   "  // =====================================================";
   EmptyString;
   "  export const E: {";
   "    const(value: number): ExprNode;";
   "    constNull(): ExprNode;";
   "    key(token: KeyToken): ExprNode;";
   "    param(token: ParamToken): ExprNode;";
   "    add(a: ExprNode, b: ExprNode): ExprNode;";
   "    sub(a: ExprNode, b: ExprNode): ExprNode;";
   "    mul(a: ExprNode, b: ExprNode): ExprNode;";
   "    neg(a: ExprNode): ExprNode;";
   "    coalesce(a: ExprNode, b: ExprNode): ExprNode;";
   "  };";
   EmptyString;
   "  // =====================================================";
   "  // Predicate builder (Pred)";
   "  // =====================================================";
   EmptyString;
   "  export const Pred: {";
   "    constBool(value: boolean): PredNode;";
   "    and(a: PredNode, b: PredNode): PredNode;";
   "    or(a: PredNode, b: PredNode): PredNode;";
   "    not(x: PredNode): PredNode;";
   "    cmp(op: '==' | '!=' | '<' | '<=' | '>' | '>=', a: ExprNode, b: ExprNode): PredNode;";
   "    in(lhs: ExprNode, list: (number | string)[]): PredNode;";
   "    isNull(a: ExprNode): PredNode;";
   "    notNull(a: ExprNode): PredNode;";
   "    regex(key: KeyToken, pattern: string | ParamToken, flags?: '' | 'i'): PredNode;";
   "  };";
   EmptyString;
   "  // =====================================================";
   "  // Plan context and CandidateSet";
   "  // =====================================================";
   EmptyString].
Definition monaco_plan : list string :=
  ["  export interface PlanConfig {";
   "    name: string;";
   "    build: (ctx: PlanCtx) => CandidateSet;";
   "  }";
   EmptyString;
   "  export function definePlan(config: PlanConfig): void;";
   EmptyString;
   "  /**";
   "   * Coalesce function for null handling in natural expressions.";
   "   * Usage: Key.score * coalesce(P.weight, 0.2)";
   "   * Extracted by the compiler at compile-time.";
   "   */";
   "  export function coalesce(a: KeyToken | ParamToken | number | null, b: KeyToken | ParamToken | number): number;";
   EmptyString].
Definition monaco_globals : list string :=
  ["// =====================================================";
   "// Global declarations (injected by compiler)";
   "// =====================================================";
   EmptyString;
   "type _KeyToken = import('@ranking-dsl/runtime').KeyToken;";
   "type _ParamToken = import('@ranking-dsl/runtime').ParamToken;";
   "type _PredNode = import('@ranking-dsl/runtime').PredNode;";
   "type _EndpointId = import('@ranking-dsl/runtime').EndpointId;";
   EmptyString].

Section locale.
Context (localeCompare : string → string → comparison).

Definition sorted_groups {A} (m : list (string * A)) : list (string * A) :=
  js_sort (cmp_on localeCompare fst) m.

(** The interface of a namespace. *)
Definition namespace_interface (suffix : string) (g : string * list named_task) : list string :=
  ["  export interface " +:+ capitalize g.1 +:+ suffix +:+ " {"] ++ map method_line g.2 ++
  ["  }"; EmptyString].

(** An interface with the core tasks and a member for each namespace. *)
Definition core_interface (name suffix : string) (core : list named_task) (namespaces : list string)
    (more : list string) : list string :=
  ["  export interface " +:+ name +:+ " {"] ++ map method_line core ++
  map (λ ns, "    " +:+ ns +:+ ": " +:+ capitalize ns +:+ suffix +:+ ";") (sort_strings namespaces) ++
  more ++ ["  }"; EmptyString].

Definition registry_section (title : string) : list string :=
  ["  // ====================================================="; "  // " +:+ title;
   "  // ====================================================="; EmptyString].

(** The members of [EP], at an indentation. *)
Definition ep_members (indent type : string) (byKind : list (string * list EndpointEntry)) : list string :=
  flat_map (λ g,
    [indent +:+ "readonly " +:+ g.1 +:+ ": {"] ++
    map (λ ep, indent +:+ "  readonly " +:+ endpoint_name ep +:+ ": " +:+ type +:+ ";") g.2 ++
    [indent +:+ "};"]) (sorted_groups byKind).

Definition generateMonacoTypes (keys : list KeyEntry) (params : list ParamEntry)
    (registry : TaskRegistry) (endpoints : list EndpointEntry) : result string :=
  ts ← with_methods (tasks registry);
  let core l := filter (λ t, in_core t = true) l in
  let source := sourceTasks ts in
  let transform := transformTasks ts in
  let sourceNs := by_namespace source in
  let transformNs := by_namespace transform in
  let byKind := group_by endpoint_kind endpoints in
  Ok (unlines (monaco_header ++
    flat_map (namespace_interface "SourceTasks") (sorted_groups sourceNs) ++
    flat_map (namespace_interface "Tasks") (sorted_groups transformNs) ++
    core_interface "PlanCtx" "SourceTasks" (core source) (map fst sourceNs)
      ["    requireCapability(capId: string, payload?: unknown): void;"] ++
    core_interface "CandidateSet" "Tasks" (core transform) (map fst transformNs) [] ++
    monaco_plan ++
    registry_section "Key registry (generated from keys.toml)" ++
    ["  export const Key: {"] ++
    map (λ k, "    readonly " +:+ key_name k +:+ ": KeyToken;") keys ++
    ["  };"; EmptyString] ++
    registry_section "Param registry (generated from params.toml)" ++
    ["  export const P: {"] ++
    map (λ p, "    readonly " +:+ param_name p +:+ ": ParamToken;") params ++
    ["  };"; EmptyString] ++
    registry_section "Endpoint registry (generated from endpoints.*.toml)" ++
    ["  export const EP: {"] ++
    ep_members "    " "EndpointId" byKind ++
    ["  };"; "}"; EmptyString] ++
    monaco_globals ++
    ["declare const Key: {"] ++
    map (λ k, "  readonly " +:+ key_name k +:+ ": _KeyToken;") keys ++
    ["};"; EmptyString; "declare const P: {"] ++
    map (λ p, "  readonly " +:+ param_name p +:+ ": _ParamToken;") params ++
    ["};"; EmptyString; "declare const EP: {"] ++
    ep_members "  " "_EndpointId" byKind ++
    ["};"; EmptyString;
     "declare function coalesce(a: _KeyToken | _ParamToken | number | null, b: _KeyToken | _ParamToken | number): number;";
     EmptyString;
     "declare function regex(key: _KeyToken, pattern: string | _ParamToken, flags?: '' | 'i'): _PredNode;";
     "`;";
     EmptyString])).
End locale.
