(* ===== verification/Codegen.v ===== *)
(** * Codegen: the generator's entry point (dsl/src/codegen.ts)

    Reading and parsing the registries, hashing and clang-format are parameters; the
    digests' inputs, the artifacts, the list of outputs, writing and checking are
    computed.  Files are named by their path from the repository's root. *)

From S2P Require Import Prelude Collections JsNumber JsValue StableStringify Json AstExtractor CompilerCli CodegenUtils Registry Endpoints TaskRegistry GenTs GenCpp GenMonaco.

(** ** The registries as data, as the parsers build them *)

Definition number_or_null (n : option number) : value :=
  match n with Some x => VNumber x | None => VNull end.

Definition key_value (k : KeyEntry) : value :=
  VObject [("key_id", VNumber (key_id k)); ("name", VString (key_name k));
    ("type", VString (key_type k)); ("nullable", VBool (key_nullable k));
    ("doc", VString (key_doc k)); ("status", VString (key_status k));
    ("allow_read", VBool (key_allow_read k)); ("allow_write", VBool (key_allow_write k));
    ("replaced_by", number_or_null (key_replaced_by k)); ("default", key_default k)].

Definition param_value (p : ParamEntry) : value :=
  VObject [("param_id", VNumber (param_id p)); ("name", VString (param_name p));
    ("type", VString (param_type p)); ("nullable", VBool (param_nullable p));
    ("doc", VString (param_doc p)); ("status", VString (param_status p));
    ("allow_read", VBool (param_allow_read p)); ("allow_write", VBool (param_allow_write p));
    ("replaced_by", number_or_null (param_replaced_by p))].

Definition feature_value (f : FeatureEntry) : value :=
  VObject [("feature_id", VNumber (feature_id f)); ("stage", VString (stage f));
    ("name", VString (feature_name f)); ("type", VString (feature_type f));
    ("nullable", VBool (feature_nullable f)); ("status", VString (feature_status f));
    ("doc", VString (feature_doc f))].

Definition capability_value (c : CapabilityEntry) : value :=
  VObject [("id", VString (cap_id c)); ("rfc", VString (rfc c)); ("name", VString (cap_name c));
    ("status", VString (cap_status c)); ("doc", VString (cap_doc c));
    ("payload_schema", payload_schema c)].

Definition task_param_value (p : TaskParamEntry) : value :=
  VObject [("name", VString (tparam_name p)); ("type", VString (tparam_type p));
    ("required", VBool (tparam_required p)); ("nullable", VBool (tparam_nullable p));
    ("endpoint_kind", match tparam_endpoint_kind p with Some k => VString k | None => VUndefined end)].
Definition task_value (t : TaskEntry) : value :=
  VObject [("op", VString (op t)); ("output_pattern", VString (output_pattern t));
    ("params", VArray (map task_param_value (params t))); ("writes_effect", writes_effect t)].

(** A limit that is not set is no property. *)
Definition policy_value (p : EndpointPolicy) : value :=
  let limit k n := match n with Some x => [(k, VNumber x)] | None => [] end in
  VObject (limit "max_inflight" (max_inflight p) ++
           limit "connect_timeout_ms" (connect_timeout_ms p) ++
           limit "request_timeout_ms" (request_timeout_ms p)).
Definition endpoint_value (e : EndpointEntry) : value :=
  VObject [("endpoint_id", VString (endpoint_id e)); ("name", VString (endpoint_name e));
    ("kind", VString (endpoint_kind e));
    ("resolver", VObject [("type", VString "static"); ("host", VString (host (endpoint_resolver e)));
                          ("port", VNumber (port (endpoint_resolver e)))]);
    ("policy", policy_value (endpoint_policy e))].

(** ** Canonical forms *)

Definition canonical (name : string) (entries : list value) : value :=
  VObject [("schema_version", VNumber (num 1)); (name, VArray entries)].

(** [{ schema_version: 1, ...validation }] *)
Definition validationCanonical (v : ValidationRules) : value :=
  VObject (obj_spread [("schema_version", VNumber (num 1))]
    [("schema_version", VNumber (schema_version v)); ("patterns", VObject (patterns v));
     ("limits", VObject (limits v)); ("enums", VObject (enums v))]).

(** What of an endpoint does not depend on the environment. *)
Definition endpointRegistryCanonical (dev : list EndpointEntry) : value :=
  canonical "entries" (map (λ e, VObject [("endpoint_id", VString (endpoint_id e));
    ("name", VString (endpoint_name e)); ("kind", VString (endpoint_kind e))]) dev).

(** [JSON.stringify(v, null, 2) + "\n"] *)
Definition json_file (v : value) : string := default "undefined" (stringify 2 0 v) +:+ newline.

(** ** main *)

Abbreviation files := (gmap string string).
Definition output : Type := string * string.

Section main.
Context (sha256 : string → string) (clang_format : string → result string).
Context (localeCompare : string → string → comparison) (syntaxError : string → string).

Definition formatCpp (code : string) : result string :=
  match clang_format code with
  | Ok t => Ok t
  | Throw _ => Throw (Error ("clang-format is required but not found." +:+ newline +:+
      "Install it via: brew install clang-format (macOS) or apt install clang-format (Linux)"))
  end.

Definition buildEndpointJson (endpointRegistryDigest : string) (es : list EndpointEntry) (env : string)
    : result value :=
  configDigest ← computeDigest sha256 (canonical "endpoints" (map endpoint_value es));
  Ok (VObject [("schema_version", VNumber (num 1)); ("env", VString env);
    ("registry_digest", VString endpointRegistryDigest); ("config_digest", VString configDigest);
    ("endpoints", VArray (map endpoint_value es))]).

(** All outputs, before anything is written. *)
Definition outputs (parseToml : string → result value) : result (list output) :=
  keys ← (v ← parseToml "registry/keys.toml"; parseKeys v);
  params ← (v ← parseToml "registry/params.toml"; parseParams v);
  features ← (v ← parseToml "registry/features.toml"; parseFeatures v);
  validation ← (v ← parseToml "registry/validation.toml"; parseValidation v);
  capabilities ← (v ← parseToml "registry/capabilities.toml";
                  parseCapabilities localeCompare syntaxError v);
  tasks ← (v ← parseToml "registry/tasks.toml"; parseTasks localeCompare syntaxError v);
  endpoints ← parseEndpoints localeCompare parseToml "registry";
  let keysCanonical := canonical "entries" (map key_value keys) in
  let paramsCanonical := canonical "entries" (map param_value params) in
  let featuresCanonical := canonical "entries" (map feature_value features) in
  let capabilitiesCanonical := canonical "entries" (map capability_value capabilities) in
  keysDigest ← computeDigest sha256 keysCanonical;
  paramsDigest ← computeDigest sha256 paramsCanonical;
  featuresDigest ← computeDigest sha256 featuresCanonical;
  validationDigest ← computeDigest sha256 (validationCanonical validation);
  capabilitiesDigest ← computeDigest sha256 capabilitiesCanonical;
  endpointRegistryDigest ← computeDigest sha256 (endpointRegistryCanonical (dev endpoints));
  devEndpointsJson ← buildEndpointJson endpointRegistryDigest (dev endpoints) "dev";
  testEndpointsJson ← buildEndpointJson endpointRegistryDigest (test endpoints) "test";
  prodEndpointsJson ← buildEndpointJson endpointRegistryDigest (prod endpoints) "prod";
  let tasksCanonical := canonical "tasks" (map task_value (TaskRegistry.tasks tasks)) in
  validationTs ← generateValidationTs validation validationDigest;
  endpointsTs ← generateEndpointsTs localeCompare (dev endpoints) endpointRegistryDigest;
  tasksTs ← generateTasksTs tasks;
  taskImplTs ← generateTaskImplTs localeCompare tasks;
  monacoTypes ← generateMonacoTypes localeCompare keys params tasks (dev endpoints);
  keysH ← formatCpp (generateKeysH keys keysDigest);
  paramsH ← formatCpp (generateParamsH params paramsDigest);
  featuresH ← formatCpp (generateFeaturesH features featuresDigest);
  validationH ← (t ← generateValidationH validation validationDigest; formatCpp t);
  capabilitiesH ← (t ← generateCapabilitiesH capabilities capabilitiesDigest; formatCpp t);
  Ok [("artifacts/keys.json", json_file keysCanonical);
      ("artifacts/params.json", json_file paramsCanonical);
      ("artifacts/features.json", json_file featuresCanonical);
      ("artifacts/capabilities.json", json_file capabilitiesCanonical);
      ("artifacts/endpoints.dev.json", json_file devEndpointsJson);
      ("artifacts/endpoints.test.json", json_file testEndpointsJson);
      ("artifacts/endpoints.prod.json", json_file prodEndpointsJson);
      ("artifacts/tasks.json", json_file tasksCanonical);
      ("artifacts/keys.digest", keysDigest +:+ newline);
      ("artifacts/params.digest", paramsDigest +:+ newline);
      ("artifacts/features.digest", featuresDigest +:+ newline);
      ("artifacts/capabilities.digest", capabilitiesDigest +:+ newline);
      ("artifacts/endpoints.digest", endpointRegistryDigest +:+ newline);
      ("dsl/packages/generated/keys.ts", generateKeysTs keys keysDigest);
      ("dsl/packages/generated/params.ts", generateParamsTs params paramsDigest);
      ("dsl/packages/generated/features.ts", generateFeaturesTs features featuresDigest);
      ("dsl/packages/generated/validation.ts", validationTs);
      ("dsl/packages/generated/capabilities.ts", generateCapabilitiesTs capabilities capabilitiesDigest);
      ("dsl/packages/generated/endpoints.ts", endpointsTs);
      ("dsl/packages/generated/tasks.ts", tasksTs);
      ("dsl/packages/generated/task-impl.ts", taskImplTs);
      ("dsl/packages/generated/monaco-types.ts", monacoTypes);
      ("dsl/packages/generated/index.ts", generateIndexTs);
      ("plan-globals.d.ts", generatePlanGlobalsDts);
      ("engine/include/key_registry.h", keysH);
      ("engine/include/param_registry.h", paramsH);
      ("engine/include/feature_registry.h", featuresH);
      ("engine/include/validation.h", validationH);
      ("engine/include/capability_registry_gen.h", capabilitiesH)].

(** A file that is missing or differs is reported. *)
Definition out_of_sync (fs : files) (o : output) : option string :=
  match fs !! o.1 with
  | None => Some ("MISSING: " +:+ o.1)
  | Some existing => if String.eqb existing o.2 then None else Some ("OUT OF SYNC: " +:+ o.1)
  end.

Fixpoint write_outputs (writable : string → bool) (outs : list output) (fs : files)
    : result unit * files :=
  match outs with
  | [] => (Ok tt, fs)
  | o :: outs' =>
      if writable o.1 then write_outputs writable outs' (<[o.1 := o.2]> fs)
      else (Throw (Error "EACCES"), fs)
  end.

(** The exit code, what is reported and the files; a failure that is not caught exits with 1. *)
Definition main (parseToml : string → result value) (writable : string → bool)
    (argv : list string) (fs : files) : nat * list string * files :=
  match outputs parseToml with
  | Throw _ => (1, [], fs)
  | Ok outs =>
      if string_elem argv "--check" then
        match omap (out_of_sync fs) outs with
        | [] => (0, [], fs)
        | reports => (1, reports, fs)
        end
      else
        match write_outputs writable outs fs with
        | (Ok _, fs') => (0, [], fs')
        | (Throw _, fs') => (1, [], fs')
        end
  end.
End main.

(** ** Generating and checking *)

Section check.
Context (sha256 : string → string) (clang_format : string → result string).
Context (localeCompare : string → string → comparison) (syntaxError : string → string).
#[local] Abbreviation outputs := (outputs sha256 clang_format localeCompare syntaxError).
#[local] Abbreviation main := (main sha256 clang_format localeCompare syntaxError).

Lemma write_outputs_spec writable outs : ∀ fs fs',
  NoDup (outs.*1) → write_outputs writable outs fs = (Ok tt, fs') →
  (∀ o, o ∈ outs → fs' !! o.1 = Some o.2) ∧ (∀ p, p ∉ outs.*1 → fs' !! p = fs !! p).
Proof.
  induction outs as [|o outs IH]; intros fs fs' Hnd; cbn.
  - intros [= <-]. split; [by intros ? ?%not_elem_of_nil|done].
  - apply NoDup_cons in Hnd as [Ho Hnd]. destruct (writable o.1); [|done].
    intros [Hin Hout]%IH; [|done]. split.
    + intros x [->|Hx]%elem_of_cons; [|auto]. by rewrite Hout, lookup_insert_eq.
    + intros p Hp. rewrite Hout, lookup_insert_ne; [done|set_solver..].
Qed.

Lemma in_sync fs outs : omap (out_of_sync fs) outs = [] ↔ ∀ o, o ∈ outs → fs !! o.1 = Some o.2.
Proof.
  unfold out_of_sync. induction outs as [|o outs IH]; cbn.
  - split; [by intros _ ? ?%not_elem_of_nil|done].
  - split.
    + intros H. destruct (fs !! o.1) as [t|] eqn:E; [|done].
      destruct (String.eqb_spec t o.2) as [->|]; [|done].
      intros x [->|Hx]%elem_of_cons; [done|]. by apply IH.
    + intros H. rewrite (H o) by by left. rewrite String.eqb_refl. apply IH. intros x Hx. apply H. by right.
Qed.

(** Whatever the registries, the outputs have the same names, all different. *)
Lemma outputs_names parseToml outs : outputs parseToml = Ok outs → NoDup (outs.*1).
Proof.
  unfold Codegen.outputs. intros H.
  repeat (apply bind_Ok in H; destruct H as (? & _ & H)). injection H as <-.
  cbn [fmap list_fmap fst]. apply (bool_decide_eq_true_1 (NoDup _)). by vm_compute.
Qed.

(** C24: [--check] succeeds exactly when the registries generate without an error and every
    output is on disk with just the generated text, and it never changes a file.  A run
    without it that succeeds leaves just that state and no other file touched, so the
    check right after it passes, whatever can be written. *)
Theorem codegen_check_correct parseToml writable argv fs code reports fs' :
  main parseToml writable argv fs = (code, reports, fs') →
  ("--check" ∈ argv →
   fs' = fs ∧
   (code = 0 ↔ ∃ outs, outputs parseToml = Ok outs ∧ ∀ o, o ∈ outs → fs !! o.1 = Some o.2)) ∧
  ("--check" ∉ argv → code = 0 →
   (∃ outs, outputs parseToml = Ok outs ∧ (∀ o, o ∈ outs → fs' !! o.1 = Some o.2) ∧
     ∀ p, p ∉ outs.*1 → fs' !! p = fs !! p) ∧
   ∀ writable', main parseToml writable' ["--check"] fs' = (0, [], fs')).
Proof.
  unfold Codegen.main. destruct (outputs parseToml) as [outs|] eqn:Houts.
  2: { intros [= <- <- <-]. split; [|done]. intros _. split; [done|]. split; [done|].
       by intros (? & ? & _). }
  unfold string_elem at 1. case_bool_decide as Hc.
  - intros H. split; [intros _|done]. pose proof (in_sync fs outs) as Hs.
    destruct (omap (out_of_sync fs) outs) as [|m ms] eqn:E; injection H as <- <- <-; (split; [done|]).
    + split; [|done]. intros _. exists outs. split; [done|]. by apply Hs.
    + split; [done|]. intros (outs' & [= <-] & Hall). by apply Hs in Hall.
  - intros H. split; [done|]. intros _ ->.
    destruct (write_outputs writable outs fs) as [[[]|x] fs1] eqn:Hw; [|done]. injection H as <- <-.
    apply write_outputs_spec in Hw as [Hin Hout]; [|by eapply outputs_names].
    split; [by exists outs|]. intros writable'.
    replace (string_elem ["--check"] "--check") with true by done.
    by rewrite (proj2 (in_sync fs1 outs) Hin).
Qed.
End check.

(** ** What does not depend on the environment *)

Lemma public_filter k (es : list EndpointEntry) :
  public <$> filter (λ e, endpoint_kind e = k) es = filter (λ p, p.2 = k) (public <$> es).
Proof.
  induction es as [|e es IH]; [done|]. rewrite fmap_cons, !filter_cons.
  change ((public e).2) with (endpoint_kind e). case_decide; cbn; by rewrite IH.
Qed.

Section environment.
Context (localeCompare : string → string → comparison).

Definition public_lines (p : string * string * string) : list string :=
  ["    /** " +:+ p.1.2 +:+ " (" +:+ p.1.1 +:+ ") */";
   "    " +:+ safeName p.1.2 +:+ ": " +:+ quoted p.1.1 +:+
   " as EndpointLiteral<" +:+ quoted p.1.1 +:+ ">,"].

Lemma kind_lines_public es kind :
  kind_lines localeCompare es kind =
  ["  " +:+ kind +:+ ": {"] ++
  flat_map public_lines (js_sort (cmp_on localeCompare (λ p, p.1.2))
    (filter (λ p, p.2 = kind) (public <$> es))) ++ ["  },"].
Proof.
  unfold kind_lines. do 2 f_equal.
  rewrite <-public_filter, <-(js_sort_fmap public (cmp_on localeCompare endpoint_name)) by done.
  induction (js_sort _ _) as [|e l IH]; [done|]. cbn [flat_map]. rewrite IH. done.
Qed.

Lemma kind_names_public es kind :
  kind_names kind es = (λ p, safeName p.1.2) <$> filter (λ p, p.2 = kind) (public <$> es).
Proof. unfold kind_names. by rewrite <-public_filter, <-list_fmap_compose. Qed.

Lemma kinds_of_public (es es' : list EndpointEntry) : public <$> es = public <$> es' → kinds_of es = kinds_of es'.
Proof.
  intros Hp. apply sort_strings_perm_eq, NoDup_Permutation; try apply group_by_keys.
  intros k. rewrite !(proj2 (group_by_keys _ _)).
  assert (∀ l : list EndpointEntry, endpoint_kind <$> l = snd <$> (public <$> l)) as Hk.
  { intros l. by rewrite <-list_fmap_compose. }
  by rewrite !Hk, Hp.
Qed.

Lemma endpoints_ts_public (es es' : list EndpointEntry) digest t :
  public <$> es = public <$> es' →
  generateEndpointsTs localeCompare es digest = Ok t → generateEndpointsTs localeCompare es' digest = Ok t.
Proof.
  intros Hp [Hn ->]%generateEndpointsTs_iff. apply generateEndpointsTs_iff. split.
  - intros kind. specialize (Hn kind). unfold nameable in *. by rewrite kind_names_public, <-Hp, <-kind_names_public.
  - unfold endpoints_text, length_text. rewrite (kinds_of_public es es' Hp).
    assert (length es = length es') as ->.
    { by rewrite <-(length_fmap public es), Hp, length_fmap. }
    assert (flat_map (kind_lines localeCompare es) (kinds_of es') =
      flat_map (kind_lines localeCompare es') (kinds_of es')) as ->; [|done].
    rewrite !flat_map_concat_map. f_equal. apply map_ext. intros kind.
    by rewrite !kind_lines_public, Hp.
Qed.

Lemma endpoint_registry_public (es es' : list EndpointEntry) :
  public <$> es = public <$> es' → endpointRegistryCanonical es = endpointRegistryCanonical es'.
Proof.
  unfold endpointRegistryCanonical, canonical. intros Hp. do 5 f_equal.
  assert (∀ l : list EndpointEntry, map (λ e, VObject [("endpoint_id", VString (endpoint_id e));
      ("name", VString (endpoint_name e)); ("kind", VString (endpoint_kind e))]) l =
    (λ p, VObject [("endpoint_id", VString p.1.1); ("name", VString p.1.2); ("kind", VString p.2)])
      <$> (public <$> l)) as H.
  { intros l. by rewrite <-list_fmap_compose. }
  by rewrite !H, Hp.
Qed.

(** the endpoints' registry digest and their TypeScript file are the same whichever
    environment they are made from, once the three registries are accepted and
    [localeCompare] orders distinct ids apart; hosts, ports and policies do not enter
    them. *)
Theorem endpoints_environment_invariant sha256 parseToml registryDir r :
  Consistent localeCompare (λ _, True) →
  (∀ x y, cmp_le localeCompare x y → cmp_le localeCompare y x → x = y) →
  parseEndpoints localeCompare parseToml registryDir = Ok r →
  Forall (λ es,
    computeDigest sha256 (endpointRegistryCanonical es) =
      computeDigest sha256 (endpointRegistryCanonical (dev r)) ∧
    ∀ digest t, generateEndpointsTs localeCompare es digest = Ok t ↔
      generateEndpointsTs localeCompare (dev r) digest = Ok t) [test r; prod r].
Proof.
  intros Hc Hanti H. apply parseEndpoints_same_order in H as [H1 H2]; [|done..].
  assert (∀ es, public <$> dev r = public <$> es →
    computeDigest sha256 (endpointRegistryCanonical es) =
      computeDigest sha256 (endpointRegistryCanonical (dev r)) ∧
    ∀ digest t, generateEndpointsTs localeCompare es digest = Ok t ↔
      generateEndpointsTs localeCompare (dev r) digest = Ok t) as Hp.
  { intros es He. split; [by rewrite (endpoint_registry_public _ _ He)|].
    intros digest t. split; by apply endpoints_ts_public. }
  apply Forall_cons. split; [by apply Hp|]. apply Forall_singleton. by apply Hp.
Qed.
End environment.

Lemma endpoints_environment_invariant_witness :
  ∃ r, parseEndpoints string_cmp sample_toml "registry" = Ok r ∧
    host ∘ endpoint_resolver <$> dev r ≠ host ∘ endpoint_resolver <$> prod r ∧
    computeDigest id (endpointRegistryCanonical (prod r)) =
      computeDigest id (endpointRegistryCanonical (dev r)).
Proof.
  destruct (parseEndpoints string_cmp sample_toml "registry") as [r|] eqn:E; [|by vm_compute in E].
  pose proof (endpoints_environment_invariant string_cmp id sample_toml "registry" r _
    string_cmp_le_antisym E) as H.
  exists r. split; [done|]. split; [vm_compute in E; by injection E as <-|].
  by apply Forall_cons in H as [_ [[H _] _]%Forall_cons].
Defined.

(** Registries with a key and an endpoint. *)
Definition sample_registries (path : string) : result value :=
  if String.eqb path "registry/keys.toml" then Ok sample_keys
  else if String.eqb path "registry/params.toml" then Ok (VObject [("param", VArray [])])
  else if String.eqb path "registry/features.toml" then Ok (VObject [("feature", VArray [])])
  else if String.eqb path "registry/validation.toml" then Ok (VObject [("schema_version", VNumber (num 1))])
  else if String.eqb path "registry/capabilities.toml" then Ok (sample_capabilities ["cap.a"])
  else if String.eqb path "registry/tasks.toml" then Ok sample_tasks
  else sample_toml path.

Lemma codegen_check_correct_witness :
  ∃ fs', main id Ok string_cmp id sample_registries (λ _, true) [] ∅ = (0, [], fs') ∧
    main id Ok string_cmp id sample_registries (λ _, false) ["--check"] fs' = (0, [], fs') ∧
    ∃ code reports, main id Ok string_cmp id sample_registries (λ _, true) ["--check"] ∅
      = (code, reports, ∅) ∧ code ≠ 0.
Proof.
  destruct (main id Ok string_cmp id sample_registries (λ _, true) [] ∅) as [[code reports] fs'] eqn:E.
  destruct (codegen_check_correct id Ok string_cmp id sample_registries (λ _, true) [] ∅ _ _ _ E)
    as [_ H].
  assert ((code, reports) = (0, [])) as [= -> ->].
  { change ((code, reports) = (0, [])). transitivity (fst (code, reports, fs')); [done|].
    rewrite <-E. by vm_compute. }
  exists fs'. split; [done|]. destruct H as [_ H]; [by apply not_elem_of_nil|done|].
  split; [apply H|].
  destruct (main id Ok string_cmp id sample_registries (λ _, true) ["--check"] ∅) as [[c r] f] eqn:E2.
  destruct (codegen_check_correct id Ok string_cmp id sample_registries (λ _, true) ["--check"] ∅ _ _ _ E2)
    as [[-> _] _]; [by left|].
  exists c, r. split; [done|].
  assert (c = 1) as ->; [|done].
  transitivity ((c, r, ∅ : files).1.1); [done|]. rewrite <-E2. by vm_compute.
Defined.
