(* ===== verification/SyncManifest.v ===== *)
(** * SyncManifest: listing the plans of a directory in its manifest
    (dsl/tools/sync_manifest.ts)

    The directory tree and the files are given.  A path is the list of its segments from
    the root, as [path.resolve] makes it (POSIX); [path.relative] and the text of the
    manifest are computed. *)

From S2P Require Import Prelude Collections JsNumber JsValue StableStringify Json PlanBuild.

(** ** Paths *)

Abbreviation path := (list string).

(** [s.split("/")], with the part read so far. *)
Fixpoint split_slashes (part s : string) : list string :=
  match s with
  | EmptyString => [part]
  | String c r =>
      if Ascii.eqb c "/" then part :: split_slashes EmptyString r
      else split_slashes (part +:+ String c EmptyString) r
  end.

Definition go_to (p : path) (segment : string) : path :=
  if String.eqb segment EmptyString || String.eqb segment "." then p
  else if String.eqb segment ".." then removelast p
  else p ++ [segment].

(** [resolve(from, s)] *)
Definition resolve (from : path) (s : string) : path :=
  foldl go_to (if startsWith s "/" then [] else from) (split_slashes EmptyString s).

(** [relative(from, to)] *)
Fixpoint relative_segments (from to : path) : path :=
  match from, to with
  | a :: from', b :: to' =>
      if String.eqb a b then relative_segments from' to'
      else map (λ _, "..") from ++ to
  | _, _ => map (λ _, "..") from ++ to
  end.
Definition relative (from to : path) : string := join "/" (relative_segments from to).

(** [s.replace(/\\/g, "/")] *)
Fixpoint forward_slashes (s : string) : string :=
  match s with
  | EmptyString => EmptyString
  | String c r => String (if Ascii.eqb c backslash then "/"%char else c) (forward_slashes r)
  end.

(** ** The tree *)

(** What [readdir] lists: [Other] is neither a file nor a directory (a link, a socket);
    a directory may refuse to be read. *)
Inductive dirent :=
| File (name : string)
| Directory (name : string) (readable : bool) (content : list dirent)
| Other (name : string).

Section dirent_ind.
Context (P : dirent → Prop) (Hfile : ∀ n, P (File n)) (Hother : ∀ n, P (Other n)).
Context (Hdir : ∀ n b es, Forall P es → P (Directory n b es)).

Fixpoint dirent_ind_nested (e : dirent) : P e :=
  match e with
  | File n => Hfile n
  | Other n => Hother n
  | Directory n b es =>
      Hdir n b es ((fix go es : Forall P es :=
        match es with
        | [] => Forall_nil_2 P
        | e :: es' => Forall_cons_2 P e es' (dirent_ind_nested e) (go es')
        end) es)
  end.
End dirent_ind.

(** ** findPlanFiles *)

Section scan.
Context (repoRoot : path).

Definition plan_path (currentDir : path) (name : string) : string :=
  forward_slashes (relative repoRoot (currentDir ++ [name])).

(** What [walk] pushes for an entry. *)
Fixpoint walk_entry (currentDir : path) (entry : dirent) : result (list string) :=
  match entry with
  | File name => Ok (if endsWith name ".plan.ts" then [plan_path currentDir name] else [])
  | Directory name readable content =>
      if readable then
        (fix walk es : result (list string) :=
           match es with
           | [] => Ok []
           | e :: es' => r ← walk_entry (currentDir ++ [name]) e; rs ← walk es'; Ok (r ++ rs)
           end) content
      else Throw (Error "EACCES")
  | Other _ => Ok []
  end.

Fixpoint walk (currentDir : path) (entries : list dirent) : result (list string) :=
  match entries with
  | [] => Ok []
  | e :: es => r ← walk_entry currentDir e; rs ← walk currentDir es; Ok (r ++ rs)
  end.

(** [None]: the directory cannot be read. *)
Definition findPlanFiles (dir : path) (entries : option (list dirent)) : result (list string) :=
  match entries with
  | Some es => walk dir es
  | None => Throw (Error "ENOENT")
  end.
End scan.

(** ** main *)

Record SyncOptions := { dir : string; manifestPath : option string }.

(** [None]: the help was printed and the process exits. *)
Fixpoint parse_args (args : list string) (o : SyncOptions) : option SyncOptions :=
  match args with
  | [] => Some o
  | a :: rest =>
      match rest with
      | v :: rest' =>
          if String.eqb a "--dir" then parse_args rest' {| dir := v; manifestPath := manifestPath o |}
          else if String.eqb a "--manifest" then parse_args rest' {| dir := dir o; manifestPath := Some v |}
          else if String.eqb a "--help" || String.eqb a "-h" then None
          else parse_args rest o
      | [] => if String.eqb a "--help" || String.eqb a "-h" then None else Some o
      end
  end.

Definition manifest_value (plans : list string) : value :=
  VObject [("schema_version", VNumber (num 1)); ("plans", VArray (map VString plans))].

(** [JSON.stringify(obj, null, 2) + "\n"] *)
Definition manifest_text (plans : list string) : string :=
  default "undefined" (stringify 2 0 (manifest_value plans)) +:+ newline.

(** An empty [--manifest] counts as none. *)
Definition absManifest (repoRoot : path) (o : SyncOptions) : path :=
  match manifestPath o with
  | None | Some EmptyString => resolve (resolve repoRoot (dir o)) "manifest.json"
  | Some s => resolve repoRoot s
  end.

Abbreviation files := (gmap path string).

(** The files after a run; a file that is up to date is not written. *)
Definition main (tree : path → option (list dirent)) (writable : path → bool) (cwd : path)
    (args : list string) (fs : files) : result files :=
  match parse_args args {| dir := "plans"; manifestPath := None |} with
  | None => Ok fs
  | Some o =>
      let absDir := resolve cwd (dir o) in
      planFiles ← findPlanFiles cwd absDir (tree absDir);
      let text := manifest_text (sort_strings planFiles) in
      if bool_decide (fs !! absManifest cwd o = Some text) then Ok fs
      else if writable (absManifest cwd o) then Ok (<[absManifest cwd o := text]> fs)
      else Throw (Error "EACCES")
  end.

(** ** What is listed *)

(** A file of the tree with the directories above it. *)
Inductive file_in : list dirent → path → string → Prop :=
| file_here es n : File n ∈ es → file_in es [] n
| file_below es d content p n :
    Directory d true content ∈ es → file_in content p n → file_in es (d :: p) n.

Lemma walk_directory root cur n content :
  walk_entry root cur (Directory n true content) = walk root (cur ++ [n]) content.
Proof. cbn. induction content as [|e es IH]; cbn; [done|]. by rewrite IH. Qed.

Definition listed (root cur : path) (es : list dirent) (p : string) : Prop :=
  ∃ ds n, file_in es ds n ∧ endsWith n ".plan.ts" = true ∧ p = plan_path root (cur ++ ds) n.

Lemma listed_cons root cur e es p : listed root cur (e :: es) p ↔ listed root cur [e] p ∨ listed root cur es p.
Proof.
  split.
  - intros (ds & n & Hf & Hn & ->). inversion Hf as [? ? Hin|? d content q ? Hin Hq]; subst;
      apply elem_of_cons in Hin as [Heq|Hin].
    + left. exists [], n. split_and!; [constructor; by rewrite Heq; left|done..].
    + right. exists [], n. split_and!; [by constructor|done..].
    + left. exists (d :: q), n. split_and!; [econstructor; [by rewrite Heq; left|done]|done..].
    + right. exists (d :: q), n. split_and!; [by econstructor|done..].
  - intros [(ds & n & Hf & Hn & ->)|(ds & n & Hf & Hn & ->)]; exists ds, n; split_and!; try done;
      inversion Hf as [? ? Hin|? d content q ? Hin Hq]; subst.
    + constructor. apply list_elem_of_singleton in Hin as ->. by left.
    + econstructor; [|done]. apply list_elem_of_singleton in Hin as ->. by left.
    + constructor. by right.
    + econstructor; [|done]. by right.
Qed.

Lemma listed_nil root cur p : ¬ listed root cur [] p.
Proof. intros (ds & n & Hf & _). inversion Hf; subst; by eapply not_elem_of_nil. Qed.

Lemma listed_entry root cur e l :
  (∀ cur' n content l', e = Directory n true content → walk root cur' content = Ok l' →
    ∀ p, p ∈ l' ↔ listed root cur' content p) →
  walk_entry root cur e = Ok l → ∀ p, p ∈ l ↔ listed root cur [e] p.
Proof.
  destruct e as [n|n b content|n]; intros Hdir Hw p.
  - injection Hw as <-. case_match eqn:E; split.
    + intros ->%list_elem_of_singleton. exists [], n. rewrite app_nil_r.
      split_and!; [constructor; by left|done..].
    + intros (ds & m & Hf & Hn & ->). inversion Hf as [? ? Hin|? d c q ? Hin Hq]; subst;
        apply list_elem_of_singleton in Hin; simplify_eq. rewrite app_nil_r. by left.
    + by intros ?%not_elem_of_nil.
    + intros (ds & m & Hf & Hn & ->). inversion Hf as [? ? Hin|? d c q ? Hin Hq]; subst;
        apply list_elem_of_singleton in Hin; simplify_eq. congruence.
  - destruct b; [|done]. rewrite walk_directory in Hw.
    rewrite (Hdir _ _ _ _ eq_refl Hw). split.
    + intros (ds & m & Hf & Hn & ->). exists (n :: ds), m. rewrite <-app_assoc.
      split_and!; [econstructor; [by left|done]|done..].
    + intros (ds & m & Hf & Hn & ->). inversion Hf as [? ? Hin|? d c q ? Hin Hq]; subst;
        apply list_elem_of_singleton in Hin; simplify_eq.
      exists q, m. by rewrite <-app_assoc.
  - injection Hw as <-. split; [by intros ?%not_elem_of_nil|].
    intros (ds & m & Hf & Hn & ->). inversion Hf as [? ? Hin|? d c q ? Hin Hq]; subst;
      apply list_elem_of_singleton in Hin; simplify_eq.
Qed.

Lemma walk_listed_entries root es :
  Forall (λ e, ∀ cur l, walk_entry root cur e = Ok l → ∀ p, p ∈ l ↔ listed root cur [e] p) es →
  ∀ cur l, walk root cur es = Ok l → ∀ p, p ∈ l ↔ listed root cur es p.
Proof.
  induction 1 as [|e es He _ IH]; intros cur l; cbn.
  - intros [= <-] p. split; [by intros ?%not_elem_of_nil|by intros ?%listed_nil].
  - intros (r & Hr & (rs & Hrs & [= <-])%bind_Ok)%bind_Ok p.
    by rewrite elem_of_app, listed_cons, (He _ _ Hr), (IH _ _ Hrs).
Qed.

Lemma walk_listed root cur es l :
  walk root cur es = Ok l → ∀ p, p ∈ l ↔ listed root cur es p.
Proof.
  apply walk_listed_entries, Forall_forall. intros e _.
  induction e as [n|n|n b content IH] using dirent_ind_nested; intros cur' l' Hw;
    apply (listed_entry root cur' _ l'); try done.
  intros cur2 m c l2 [= -> -> ->]. by apply walk_listed_entries.
Qed.

(** ** The order of a listing *)

(** The same tree, with the entries of each directory in any order. *)
Inductive shuffled : dirent → dirent → Prop :=
| shuffled_refl e : shuffled e e
| shuffled_dir n b es es1 es' :
    es ≡ₚ es1 → Forall2 shuffled es1 es' → shuffled (Directory n b es) (Directory n b es').

Lemma walk_perm root cur es es' l :
  es ≡ₚ es' → walk root cur es = Ok l → ∃ l', walk root cur es' = Ok l' ∧ l ≡ₚ l'.
Proof.
  intros Hp. revert l. induction Hp as [|e es es' _ IH|e e' es|es1 es2 es3 _ IH1 _ IH2]; intros l; cbn.
  - by exists l.
  - intros (r & Hr & (rs & (rs' & Hrs & Hp)%IH & [= <-])%bind_Ok)%bind_Ok.
    exists (r ++ rs'). rewrite Hr. cbn. rewrite Hrs. cbn. split; [done|]. by rewrite Hp.
  - intros (r & Hr & (rs & (r' & Hr' & (rs' & Hrs & [= <-])%bind_Ok)%bind_Ok & [= <-])%bind_Ok)%bind_Ok.
    exists (r' ++ r ++ rs'). rewrite Hr'. cbn. rewrite Hr. cbn. rewrite Hrs. cbn. split; [done|].
    by rewrite !app_assoc, (Permutation_app_comm r r').
  - intros (l2 & Hl2 & Hp)%IH1. destruct (IH2 _ Hl2) as (l3 & ? & ?). exists l3. split; [done|].
    by rewrite Hp.
Qed.

Lemma walk_shuffled_entries root es es' :
  Forall2 (λ e e', ∀ cur l, walk_entry root cur e = Ok l →
    ∃ l', walk_entry root cur e' = Ok l' ∧ l ≡ₚ l') es es' →
  ∀ cur l, walk root cur es = Ok l → ∃ l', walk root cur es' = Ok l' ∧ l ≡ₚ l'.
Proof.
  induction 1 as [|e e' es es' He _ IH]; intros cur l; cbn; [by exists l|].
  intros (r & (r' & Hr & Hpr)%He & (rs & (rs' & Hrs & Hp)%IH & [= <-])%bind_Ok)%bind_Ok.
  exists (r' ++ rs'). rewrite Hr. cbn. rewrite Hrs. cbn. split; [done|]. by rewrite Hpr, Hp.
Qed.

Lemma walk_entry_shuffled root e : ∀ e' cur l, shuffled e e' → walk_entry root cur e = Ok l →
  ∃ l', walk_entry root cur e' = Ok l' ∧ l ≡ₚ l'.
Proof.
  induction e as [n|n|n b content IH] using dirent_ind_nested; intros e' cur l Hs Hw;
    inversion Hs as [|? ? ? es1 es' Hp Hf]; subst; try by exists l.
  destruct b; [|done]. rewrite walk_directory in Hw |- *.
  destruct (walk_perm root _ _ _ _ Hp Hw) as (l1 & Hl1 & Hpl).
  rewrite Hp in IH.
  destruct (walk_shuffled_entries root es1 es') with (cur := cur ++ [n]) (l := l1) as (l' & ? & ?).
  - revert IH. clear -Hf. induction Hf as [|x y l l' Hxy _ IHf]; [constructor|].
    intros [Hx Hl]%Forall_cons. constructor; [|by apply IHf]. intros cur l0. by apply Hx.
  - done.
  - exists l'. split; [done|]. by rewrite Hpl.
Qed.

Lemma walk_shuffled root cur es es1 es' l :
  es ≡ₚ es1 → Forall2 shuffled es1 es' → walk root cur es = Ok l →
  ∃ l', walk root cur es' = Ok l' ∧ l ≡ₚ l'.
Proof.
  intros Hp Hs Hw. destruct (walk_perm root _ _ _ _ Hp Hw) as (l1 & Hl1 & Hpl).
  destruct (walk_shuffled_entries root es1 es') with (cur := cur) (l := l1) as (l' & ? & ?).
  - eapply Forall2_impl; [exact Hs|]. intros e e' He cur' l'. by apply walk_entry_shuffled.
  - done.
  - exists l'. split; [done|]. by rewrite Hpl.
Qed.

(** ** The manifest *)

Lemma redefined_strings l : map redefined (map VString l) = map VString l.
Proof. rewrite map_map. done. Qed.

Lemma manifest_reads plans :
  ∃ v, JSON_parse (manifest_text plans) = Some v ∧ loadManifest v = Ok (map VString plans).
Proof.
  assert (json_ok (manifest_value plans)) as Hok.
  { apply json_ok_object, Forall_cons. split; [by repeat split; vm_compute|].
    apply Forall_singleton, json_ok_array, Forall_fmap, Forall_forall. done. }
  destruct (stringify_ok 2 0 (manifest_value plans) Hok) as [t Ht].
  exists (manifest_value plans). split.
  - unfold manifest_text. rewrite Ht.
    pose proof (JSON_parse_stringify 2 _ t EmptyString newline Hok Ht eq_refl eq_refl) as H.
    etrans; [exact H|]. unfold manifest_value. cbn [redefined map fst snd].
    by rewrite redefined_strings.
  - done.
Qed.

(** after a run the manifest names exactly the plan files under the directory, once for
    each file, in code unit order; no other file has changed; the plan builder reads the
    list back from it; and a further run, even if the system lists directories in
    another order, finds it up to date and writes nothing. *)
Theorem sync_manifest_correct tree writable cwd args fs fs' o :
  parse_args args {| dir := "plans"; manifestPath := None |} = Some o →
  main tree writable cwd args fs = Ok fs' →
  ∃ es plans text v,
    tree (resolve cwd (dir o)) = Some es ∧
    fs' !! absManifest cwd o = Some text ∧
    (∀ q, q ≠ absManifest cwd o → fs' !! q = fs !! q) ∧
    JSON_parse text = Some v ∧ loadManifest v = Ok (map VString plans) ∧
    StronglySorted (cmp_le string_cmp) plans ∧
    (∀ p, p ∈ plans ↔ listed cwd (resolve cwd (dir o)) es p) ∧
    ∀ tree' writable' es1 es', tree' (resolve cwd (dir o)) = Some es' →
      es ≡ₚ es1 → Forall2 shuffled es1 es' → main tree' writable' cwd args fs' = Ok fs'.
Proof.
  intros Ho. unfold main at 1. rewrite Ho. intros (l & Hl & H)%bind_Ok.
  destruct (tree _) as [es|] eqn:Htree; [|done]. cbn in Hl.
  assert (fs' !! absManifest cwd o = Some (manifest_text (sort_strings l)) ∧
    ∀ q, q ≠ absManifest cwd o → fs' !! q = fs !! q) as [Hm Hf].
  { case_bool_decide; [by injection H as <-|]. destruct (writable _); [|done]. injection H as <-.
    split; [by rewrite lookup_insert_eq|]. intros q Hq. by rewrite lookup_insert_ne. }
  destruct (manifest_reads (sort_strings l)) as (v & Hv & Hload).
  exists es, (sort_strings l), (manifest_text (sort_strings l)), v.
  split; [done|]. split; [exact Hm|]. split; [exact Hf|]. split; [exact Hv|]. split; [exact Hload|].
  split_and!.
  - apply sort_strings_sorted.
  - intros p. rewrite <-(walk_listed _ _ _ _ Hl). by apply js_sort_elem_of.
  - intros tree' writable' es1 es' Htree' Hp Hs. unfold main. rewrite Ho, Htree'. cbn [findPlanFiles].
    destruct (walk_shuffled _ _ _ _ _ _ Hp Hs Hl) as (l' & -> & Hpl). cbn [mbind result_bind].
    rewrite <-(sort_strings_perm_eq _ _ Hpl), bool_decide_eq_true_2; done.
Qed.

(** A directory with a plan, a plan below it and other entries. *)
Definition sample_tree (p : path) : option (list dirent) :=
  if bool_decide (p = ["repo"; "plans"]) then
    Some [Directory "b" true [File "x.plan.ts"]; File "a.plan.ts"; File "notes.txt"; Other "l.plan.ts"]
  else None.

Lemma sync_manifest_correct_witness :
  ∃ fs', main sample_tree (λ _, true) ["repo"] ["--dir"; "plans"] ∅ = Ok fs' ∧
    (∃ plans text v, fs' !! ["repo"; "plans"; "manifest.json"] = Some text ∧ JSON_parse text = Some v ∧
      loadManifest v = Ok (map VString plans) ∧ "plans/b/x.plan.ts" ∈ plans) ∧
    main sample_tree (λ _, false) ["repo"] ["--dir"; "plans"] fs' = Ok fs'.
Proof.
  assert (match main sample_tree (λ _, true) ["repo"] ["--dir"; "plans"] ∅ with
          | Ok _ => true | Throw _ => false end = true) as Hok by (vm_compute; reflexivity).
  destruct (main sample_tree (λ _, true) ["repo"] ["--dir"; "plans"] ∅) as [fs'|] eqn:E; [|discriminate].
  destruct (sync_manifest_correct sample_tree (λ _, true) ["repo"] ["--dir"; "plans"] ∅ fs'
    {| dir := "plans"; manifestPath := None |} eq_refl E)
    as (es & plans & text & v & Ht & Hm & _ & Hv & Hl & _ & Hin & Hagain).
  exists fs'. split; [done|]. split.
  - exists plans, text, v. split_and!; try done. apply Hin.
    exists ["b"], "x.plan.ts". split_and!; [|by vm_compute..].
    vm_compute in Ht. injection Ht as <-.
    eapply file_below; [by left|]. apply file_here. by left.
  - apply (Hagain sample_tree (λ _, false) es es); [exact Ht|done|].
    apply Forall2_same_length_lookup. split; [done|]. intros i x y Hx Hy.
    rewrite Hx in Hy. injection Hy as <-. constructor.
Defined.
