(* ===== verification/Lint.v ===== *)
(** * Lint: what the editor tells about a plan (dsl/packages/eslint-plugin/src/rules/,
    dsl/packages/ts-plugin/src/index.ts)

    The ESLint rules visit nodes of ESLint's tree, the language service plugin filters
    TypeScript's diagnostics; the parsers and the reporting are theirs.  The import rule
    is compared with the restriction the bundler enforces. *)

From S2P Require Import Prelude Collections JsValue Bundler.

(** ** The nodes the rules look at *)

(** A node the rules tell apart: an identifier, a literal or anything else. *)
Inductive es_node :=
| Identifier (name : string)
| Literal (value : value)
| OtherEsNode (type : string).

(** [imported] of an [ImportSpecifier]; default and namespace specifiers have none. *)
Inductive specifier :=
| ImportSpecifier (imported : es_node)
| OtherSpecifier (type : string).

Record ImportDeclaration := { source : value; specifiers : list specifier }.
Record Property := { key : es_node; shorthand : bool; prop_value : es_node }.
Record VariableDeclarator := { declared_id : es_node; init : option es_node }.

(** A report: the message and its data. *)
Record report := { messageId : string; data : list (string * string) }.

(** ** plan-restricted-imports *)

Module PlanRestrictedImports.
Definition ALLOWED_PACKAGES : list string := ["@ranking-dsl/runtime"; "@ranking-dsl/generated"].

Definition isAllowedImport (importPath : string) : bool :=
  if existsb (λ pkg, String.eqb importPath pkg || startsWith importPath (pkg +:+ "/")) ALLOWED_PACKAGES
  then true
  else if endsWith importPath ".fragment" || endsWith importPath ".fragment.ts" then true
  else false.

Definition visit (filename : string) (node : ImportDeclaration) : list report :=
  if negb (endsWith filename ".plan.ts") then []
  else
    match source node with
    | VString s =>
        if negb (isAllowedImport s)
        then [{| messageId := "restrictedImport"; data := [("source", s)] |}] else []
    | _ => []
    end.
End PlanRestrictedImports.

(** ** no-dsl-import-alias *)

Module NoDslImportAlias.
Definition RESTRICTED_IDENTIFIERS : list string := ["Key"; "P"; "EP"; "coalesce"].
Definition DSL_PACKAGES : list string := ["@ranking-dsl/runtime"; "@ranking-dsl/generated"].

(** [String(v)] of a literal: as in a template, but for symbols, which are no literals. *)
Definition literal_text (v : value) : string := match template v with Ok t => t | Throw _ => EmptyString end.

Definition importedName (n : es_node) : string :=
  match n with
  | Identifier name => name
  | Literal v => literal_text v
  | OtherEsNode _ => "undefined"
  end.

Definition visit (node : ImportDeclaration) : list report :=
  let source := literal_text (source node) in
  if negb (existsb (λ pkg, String.eqb source pkg || startsWith source (pkg +:+ "/")) DSL_PACKAGES)
  then []
  else
    flat_map (λ specifier,
      match specifier with
      | OtherSpecifier _ => []
      | ImportSpecifier imported =>
          let name := importedName imported in
          if string_elem RESTRICTED_IDENTIFIERS name
          then [{| messageId := "noImport"; data := [("name", name)] |}] else []
      end) (specifiers node).
End NoDslImportAlias.

(** ** no-dsl-reassign *)

Module NoDslReassign.
Definition PROTECTED_GLOBALS : list string := ["Key"; "P"; "EP"; "coalesce"].

Definition visit (node : VariableDeclarator) : list report :=
  match init node with
  | Some (Identifier name) =>
      if string_elem PROTECTED_GLOBALS name then
        let varName := match declared_id node with Identifier n => n | _ => "(destructured)" end in
        [{| messageId := "noReassign"; data := [("name", name); ("varName", varName)] |}]
      else []
  | _ => []
  end.
End NoDslReassign.

(** ** inline-expr-only *)

Module InlineExprOnly.
Definition visit (node : Property) : list report :=
  match key node with
  | Identifier name =>
      if negb (String.eqb name "expr") then []
      else if shorthand node then [{| messageId := "noShorthandExpr"; data := [] |}]
      else
        match prop_value node with
        | Identifier _ => [{| messageId := "noVariableExpr"; data := [] |}]
        | _ => []
        end
  | _ => []
  end.
End InlineExprOnly.

(** ** The language service plugin *)

Module TsPlugin.
(** A diagnostic's text is a string or the head of a chain of messages. *)
Inductive message_text := Text (t : string) | Chain (head : string) (next : list string).
Record Diagnostic := { diag_code : nat; messageText : message_text }.

Definition ARITHMETIC_ERROR_CODES : list nat := [2362; 2363].

Definition shouldSuppress2322 (messageText : message_text) : bool :=
  let text := match messageText with Text t => t | Chain head _ => head end in
  if negb (includes text "ExprInput") then false
  else includes text "number" || includes text "KeyToken" || includes text "ParamToken".

(** The filter of [getSemanticDiagnostics]. *)
Definition shown (d : Diagnostic) : bool :=
  if existsb (Nat.eqb (diag_code d)) ARITHMETIC_ERROR_CODES then false
  else if (diag_code d =? 2322) && shouldSuppress2322 (messageText d) then false
  else true.

Definition getSemanticDiagnostics (original : string → list Diagnostic) (fileName : string)
    : list Diagnostic :=
  let original := original fileName in
  if negb (endsWith fileName ".plan.ts") then original else List.filter shown original.

(** ** The proxy of the language service *)

Section proxy.
Context {T : Type}.
(** What a method answers, and the members of the service's object. *)
Inductive answer := Diagnostics (l : list Diagnostic) | Other (t : T).
Local Abbreviation method := (list value → result answer).
Inductive member := Method (call : method) | Data.

(** A method forwards all its arguments to the service's. *)
Definition copy_method (proxy : list (string * method)) (km : string * member) : list (string * method) :=
  match km.2 with Method call => map_set proxy km.1 call | Data => proxy end.
Definition filtered (service : list (string * member)) : method := λ args,
  match map_get service "getSemanticDiagnostics" with
  | Some (Method call) =>
      let fileName := default VUndefined (args !! 0) in
      original ← call [fileName];
      match fileName, original with
      | VString f, Diagnostics l => Ok (Diagnostics (getSemanticDiagnostics (λ _, l) f))
      | VString f, Other t => if negb (endsWith f ".plan.ts") then Ok (Other t) else Throw TypeError
      | _, _ => Throw TypeError
      end
  | _ => Throw TypeError
  end.
Definition create (service : list (string * member)) : list (string * method) :=
  map_set (foldl copy_method [] service) "getSemanticDiagnostics" (filtered service).

Lemma copied service : ∀ proxy k,
  NoDup (service.*1) → (∀ k, k ∈ service.*1 → map_get proxy k = None) →
  map_get (foldl copy_method proxy service) k =
    match map_get service k with Some (Method call) => Some call | Some Data => None | None => map_get proxy k end.
Proof.
  induction service as [|[k' m] service IH]; intros proxy k Hnd Hfresh; [done|].
  cbn in Hnd. apply NoDup_cons in Hnd as [Hk' Hnd]. cbn [foldl].
  assert (∀ j, j ∈ service.*1 → map_get (copy_method proxy (k', m)) j = None) as Hfresh'.
  { intros j Hj. unfold copy_method. cbn. destruct m; [|by apply Hfresh; right].
    rewrite map_get_set_ne by (intros ->; done). by apply Hfresh; right. }
  rewrite (IH _ k Hnd Hfresh'). cbn [map_get]. destruct (String.eqb_spec k k') as [->|Hne].
  - apply map_get_None in Hk' as ->. unfold copy_method. cbn. destruct m; [by rewrite map_get_set_eq|].
    apply Hfresh. by left.
  - destruct (map_get service k) as [[|]|]; [done..|]. unfold copy_method. cbn.
    destruct m; [by rewrite map_get_set_ne|done].
Qed.
End proxy.
End TsPlugin.

(** ** The rule and the bundler *)

Lemma rule_allows p : PlanRestrictedImports.isAllowedImport p = true ↔ permitted p.
Proof.
  pose proof (isAllowedImport_permitted p EmptyString) as H.
  unfold Bundler.isAllowedImport in H. rewrite orb_false_r in H.
  unfold PlanRestrictedImports.isAllowedImport.
  assert (permitted p ↔ permitted p ∨ includes EmptyString "/packages/runtime/" = true ∨
    includes EmptyString "/packages/generated/" = true) as -> by naive_solver.
  rewrite <-H. change PlanRestrictedImports.ALLOWED_PACKAGES with Bundler.ALLOWED_PACKAGES.
  by destruct (existsb _ _), (endsWith p ".fragment"), (endsWith p ".fragment.ts").
Qed.

(** The import of a declaration as the bundler meets it. *)
Definition import_of (file path : string) : OnResolveArgs :=
  {| kind := "import-statement"; path := path; importer := file |}.

(** a plan whose imports lint clean is one whose imports the bundler lets through.  In
    a plan's file, outside the runtime and generated packages, the import rule is silent
    on a set of import declarations exactly when the bundler's restriction has no error
    for any of them, whatever the entry point; and it is silent on every other file. *)
Theorem lint_agrees_with_bundler entryPoint file decls :
  Forall (λ d, ∃ s, source d = VString s) decls →
  includes file "/packages/runtime/" = false → includes file "/packages/generated/" = false →
  if endsWith file ".plan.ts" then
    flat_map (PlanRestrictedImports.visit file) decls = [] ↔
    ∀ d s, d ∈ decls → source d = VString s →
      importRestriction entryPoint (import_of file s) = None
  else flat_map (PlanRestrictedImports.visit file) decls = [].
Proof.
  intros Hd Hr Hg. destruct (endsWith file ".plan.ts") eqn:He.
  - assert (∀ s, importRestriction entryPoint (import_of file s) = None ↔
      PlanRestrictedImports.isAllowedImport s = true) as Hs.
    { intros s. rewrite rule_allows. unfold importRestriction, import_of. cbn [kind importer path].
      assert (isFromPlan entryPoint file = true) as ->.
      { unfold isFromPlan. by rewrite He, orb_true_r. }
      assert (String.eqb file EmptyString = false) as -> by by destruct file.
      pose proof (isAllowedImport_permitted s file) as Ha. rewrite Hr, Hg in Ha. cbn.
      destruct (Bundler.isAllowedImport s file); cbn; naive_solver. }
    setoid_rewrite Hs. clear Hs Hr Hg. induction Hd as [|d decls [s Hds] _ IH].
    { split; [|done]. intros _ d s Hin. by apply not_elem_of_nil in Hin. }
    cbn [flat_map]. unfold PlanRestrictedImports.visit at 1. rewrite He, Hds. cbn [negb].
    destruct (PlanRestrictedImports.isAllowedImport s) eqn:Hi; cbn [negb app].
    + rewrite IH. split; [|set_solver]. intros H d' s' [->|Hin]%elem_of_cons Hs'; [congruence|eauto].
    + split; [done|]. intros H. specialize (H d s). rewrite Hi in H. discriminate H; [by left|done].
  - induction decls as [|d decls IH]; [done|]. apply Forall_cons in Hd as [_ Hd].
    cbn [flat_map]. unfold PlanRestrictedImports.visit at 1. rewrite He. cbn. by apply IH.
Qed.

Definition sample_imports : list ImportDeclaration :=
  [{| source := VString "@ranking-dsl/runtime"; specifiers := [ImportSpecifier (Identifier "definePlan")] |};
   {| source := VString "../fragments/f.fragment.ts"; specifiers := [OtherSpecifier "ImportDefaultSpecifier"] |}].

Lemma lint_agrees_with_bundler_witness :
  Forall (λ d, ∀ s, source d = VString s →
    importRestriction "/repo/plans/a.plan.ts" (import_of "/repo/plans/a.plan.ts" s) = None) sample_imports.
Proof.
  apply Forall_forall. intros d Hd s. revert d s Hd. apply (lint_agrees_with_bundler "/repo/plans/a.plan.ts" "/repo/plans/a.plan.ts" sample_imports);
    [|by vm_compute..].
  repeat constructor; by eexists.
Defined.

(** A namespace import brings the globals in without a report. *)
Example namespace_import :
  NoDslImportAlias.visit {| source := VString "@ranking-dsl/runtime";
    specifiers := [OtherSpecifier "ImportNamespaceSpecifier"] |} = [] ∧
  NoDslImportAlias.visit {| source := VString "@ranking-dsl/generated";
    specifiers := [ImportSpecifier (Identifier "Key")] |}
  = [{| messageId := "noImport"; data := [("name", "Key")] |}].
Proof. done. Qed.

(** The language service keeps quiet about natural expressions only.  What a plan's
    author sees is TypeScript's diagnostics in their order, without some of three codes;
    an assignment error stays unless it is about an expression input that was given a
    number or a token, and in other files everything stays. *)
Theorem suppressed_diagnostics original fileName :
  let shown := TsPlugin.getSemanticDiagnostics original fileName in
  shown `sublist_of` original fileName ∧
  (endsWith fileName ".plan.ts" = false → shown = original fileName) ∧
  ∀ d, d ∈ original fileName → d ∉ shown →
    TsPlugin.diag_code d ∈ [2362; 2363] ∨
    TsPlugin.diag_code d = 2322 ∧ TsPlugin.shouldSuppress2322 (TsPlugin.messageText d) = true.
Proof.
  intros shown. unfold shown, TsPlugin.getSemanticDiagnostics.
  destruct (endsWith fileName ".plan.ts"); cbn [negb].
  - split_and!; [apply filter_sublist|done|]. intros d Hd Hn.
    destruct (TsPlugin.shown d) eqn:E.
    { destruct Hn. apply list_elem_of_In, filter_In. split; [by apply list_elem_of_In|done]. }
    unfold TsPlugin.shown in E. destruct (existsb _ _) eqn:Hx.
    + left. apply existsb_exists in Hx as (c & Hc & ->%Nat.eqb_eq). by apply list_elem_of_In.
    + destruct (_ && _) eqn:Ha; [|done]. apply andb_true_iff in Ha as [?%Nat.eqb_eq ?]. by right.
  - by split_and!.
Qed.

(** The proxy is the service but for the diagnostics: every other method is there exactly
    when the service has it, and is the service's; the diagnostics of a file are those
    that [suppressed_diagnostics] speaks of, and an exception of the service stays one. *)
Theorem proxy_transparent {T} (service : list (string * @TsPlugin.member T)) k :
  NoDup (service.*1) →
  (k ≠ "getSemanticDiagnostics" →
    map_get (TsPlugin.create service) k =
      match map_get service k with Some (TsPlugin.Method call) => Some call | _ => None end) ∧
  ∃ diagnostics, map_get (TsPlugin.create service) "getSemanticDiagnostics" = Some diagnostics ∧
    ∀ call f args, map_get service "getSemanticDiagnostics" = Some (TsPlugin.Method call) →
      match call [VString f] with
      | Ok (TsPlugin.Diagnostics l) =>
          diagnostics (VString f :: args) = Ok (TsPlugin.Diagnostics (TsPlugin.getSemanticDiagnostics (λ _, l) f))
      | Ok _ => True
      | Throw e => diagnostics (VString f :: args) = Throw e
      end.
Proof.
  intros Hnd. split.
  - intros Hk. unfold TsPlugin.create. rewrite map_get_set_ne by done.
    rewrite TsPlugin.copied by done. by destruct (map_get service k) as [[|]|].
  - exists (TsPlugin.filtered service). split; [apply map_get_set_eq|]. intros call f args Hc.
    unfold TsPlugin.filtered. rewrite Hc. cbn. by destruct (call [VString f]) as [[l|t]|e].
Qed.

Definition sample_service : list (string * @TsPlugin.member nat) :=
  [("getQuickInfo", TsPlugin.Method (λ args, Ok (TsPlugin.Other (length args)))); ("version", TsPlugin.Data);
   ("getSemanticDiagnostics", TsPlugin.Method (λ _, Ok (TsPlugin.Diagnostics
      [{| TsPlugin.diag_code := 2362; TsPlugin.messageText := TsPlugin.Text "left-hand side" |};
       {| TsPlugin.diag_code := 2304; TsPlugin.messageText := TsPlugin.Text "Cannot find name" |}])))].

Lemma proxy_transparent_witness :
  NoDup (sample_service.*1) ∧ map_get (TsPlugin.create sample_service) "version" = None ∧
  match map_get (TsPlugin.create sample_service) "getSemanticDiagnostics" with
  | Some diagnostics => diagnostics [VString "a.plan.ts"] = Ok (TsPlugin.Diagnostics
      [{| TsPlugin.diag_code := 2304; TsPlugin.messageText := TsPlugin.Text "Cannot find name" |}])
  | None => False
  end.
Proof.
  assert (NoDup (sample_service.*1)) as Hnd by (apply (bool_decide_unpack _); by vm_compute).
  split; [done|]. destruct (proxy_transparent sample_service "version" Hnd) as [Hk (d & Hd & Hcall)].
  split; [by apply Hk|]. rewrite Hd. exact (Hcall _ "a.plan.ts" [] eq_refl).
Defined.
