(* ===== verification/PlanImports.v ===== *)
(** * PlanImports: the compiler, the bundler and the linter on a plan's imports
    (dsl/packages/compiler/src/cli.ts with bundler.ts, dsl/packages/eslint-plugin)

    The compiler gives the bundler the plan's file, or its rewritten source in the file's
    place.  A plan that compiles is one on whose imports the ESLint rule is silent. *)

From S2P Require Import Prelude Collections JsValue Bundler AstExtractor AstRewriting CompilerCli Lint.

Section imports.
Context (createSourceFile : string → string → TsAst.node) (SyntaxKind : string → string)
  (getLine : string → nat → nat * nat).
Context (execute : string → result value) (sha256 : string → string) (version : string).
(** esbuild, with the imports that it asks its plugins about (Bundler.v). *)
Context (build : Esbuild.BuildOptions → result BuildResult).
Context (imports : Esbuild.BuildOptions → list OnResolveArgs).
Context (reported : ∀ o r a plugin e, build o = Ok r → a ∈ imports o → plugin ∈ Esbuild.plugins o →
  plugin a = Some e → e ∈ map message_text (build_errors r)).
Context (root path : string).

(** Step 3 of [compilePlan] *)
Definition bundle_options (virtual : option string) : BundleOptions :=
  {| entryPoint := path; repoRoot := root; virtualEntry := virtual |}.
Definition bundle_step (virtual : option string) : result string :=
  r ← bundlePlan build (bundle_options virtual); Ok (code r).

(** esbuild finds the declarations in the plan, rewritten or not: the extraction keeps
    them. *)
Definition found (decls : list ImportDeclaration) : Prop :=
  ∀ virtual d s, d ∈ decls → source d = VString s →
    import_of path s ∈ imports (buildOptions (bundle_options virtual)).

(** A plan outside the packages that compiles imports only what is permitted, and the
    linter's import rule has nothing to say about it. *)
Theorem compiled_plan_lints text file out decls :
  compilePlan createSourceFile SyntaxKind getLine bundle_step execute sha256 version text file = Ok out →
  endsWith path ".plan.ts" = true →
  includes path "/packages/runtime/" = false → includes path "/packages/generated/" = false →
  Forall (λ d, ∃ s, source d = VString s) decls → found decls →
  flat_map (PlanRestrictedImports.visit path) decls = [] ∧
  ∀ d s, d ∈ decls → source d = VString s → permitted s.
Proof using reported.
  intros Hc He Hr Hg Hd Hf. destruct out as [target json].
  apply compilePlan_steps in Hc as (_ & _ & _ & c & artifact & a & es & j & Hb & _).
  unfold bundle_step in Hb. set (v := match extractedExprs _, extractedPreds _ with [], [] => None | _, _ => _ end) in Hb.
  destruct (bundlePlan build (bundle_options v)) as [r|e] eqn:Hbp; [|done].
  assert (∀ d s, d ∈ decls → source d = VString s → importRestriction path (import_of path s) = None) as Hok.
  { intros d s Hin Hs. exact (bundled_unrestricted build imports reported _ _ _ Hbp (Hf v d s Hin Hs)). }
  pose proof (lint_agrees_with_bundler path path decls Hd Hr Hg) as Hl. rewrite He in Hl.
  split; [by apply Hl|]. intros d s Hin Hs.
  apply (importRestriction_correct path (import_of path s)); cbn; [done|by destruct path| |done|done|by eapply Hok].
  unfold isFromPlan. by rewrite String.eqb_refl.
Qed.
End imports.

(** The sample plan of CompilerCli.v with one import, which the sample esbuild finds. *)
Definition plan_path : string := "/repo/plans/p.plan.ts".
Definition one_import (o : Esbuild.BuildOptions) : list OnResolveArgs :=
  [{| kind := "import-statement"; path := "@ranking-dsl/runtime"; importer := plan_path |}].
Definition build_one : Esbuild.BuildOptions → result BuildResult := ask one_import "code".
Definition one_declaration : list ImportDeclaration :=
  [{| source := VString "@ranking-dsl/runtime"; specifiers := [ImportSpecifier (Identifier "definePlan")] |}].
Definition imported_sample : result (string * string) :=
  compilePlan sample_tree (λ k, k) (λ _ p, (0, p)) (bundle_step build_one "/repo" plan_path)
    (λ _, Ok natural_artifact) (λ s, s) "1" sample_source "p.plan.ts".

Lemma compiled_plan_lints_witness :
  (∃ out, imported_sample = Ok out) ∧ flat_map (PlanRestrictedImports.visit plan_path) one_declaration = [].
Proof.
  assert (∃ out, imported_sample = Ok out) as H by (eexists; vm_compute; reflexivity).
  split; [exact H|]. destruct H as [out H].
  eapply (compiled_plan_lints sample_tree (λ k, k) (λ _ p, (0, p)) (λ _, Ok natural_artifact) (λ s, s) "1"
    build_one one_import) with (text := sample_source) (file := "p.plan.ts") (root := "/repo") (path := plan_path);
    [|exact H|by vm_compute..| |].
  - apply ask_reports.
  - repeat constructor. by eexists.
  - intros v d s Hd Hs. apply list_elem_of_singleton in Hd as ->. injection Hs as <-. by apply list_elem_of_singleton.
Defined.
