(* ===== verification/Preferences.v ===== *)
(** * Preferences: what the visualizer keeps in the browser
    (tools/visualizer/src/state/preferences.ts)

    [localStorage] is a map from keys to texts; the host may refuse every access (storage
    is disabled) and refuse a text for which there is no room. *)

From S2P Require Import Prelude Collections JsNumber JsValue StableStringify Json.

Definition PREFIX : string := "visualizer".

Inductive mode := View | Edit.
Definition mode_text (m : mode) : string := match m with View => "view" | Edit => "edit" end.

(** [KEYS] *)
Definition editorCode_key : string := PREFIX +:+ ":editor:code".
Definition savedPlans_key : string := PREFIX +:+ ":saved-plans".
Definition dockLayout_key (m : mode) : string := PREFIX +:+ ":dock-layout:" +:+ mode_text m.
Definition panelPositions_key (m : mode) : string := PREFIX +:+ ":panel-positions:" +:+ mode_text m.

Abbreviation storage := (gmap string string).

Section preferences.
Context (enabled : bool) (fits : storage → bool).

(** ** localStorage *)

Definition getItem (s : storage) (key : string) : result (option string) :=
  if enabled then Ok (s !! key) else Throw (Error "SecurityError").
Definition setItem (s : storage) (key t : string) : result storage :=
  if enabled then
    if fits (<[key := t]> s) then Ok (<[key := t]> s) else Throw (Error "QuotaExceededError")
  else Throw (Error "SecurityError").
Definition removeItem (s : storage) (key : string) : result storage :=
  if enabled then Ok (delete key s) else Throw (Error "SecurityError").

(** [try { ... } catch { return d }] *)
Definition or_else {A} (r : result A) (d : A) : A := match r with Ok a => a | Throw _ => d end.

(** ** Generic helpers *)

Definition get (s : storage) (key : string) : value :=
  or_else (value ← getItem s key;
           match value with
           | None | Some EmptyString => Ok VNull
           | Some t => match JSON_parse t with Some v => Ok v | None => Throw (Error "SyntaxError") end
           end) VNull.

(** [JSON.stringify] of a value without a text is undefined, stored as a word. *)
Definition set (s : storage) (key : string) (v : value) : storage :=
  or_else (setItem s key (default "undefined" (stringify 0 0 v))) s.

Definition remove (s : storage) (key : string) : storage := or_else (removeItem s key) s.

(** ** Each preference *)

Definition getEditorCode (s : storage) : option string := or_else (getItem s editorCode_key) None.
Definition setEditorCode (s : storage) (code : string) : storage :=
  or_else (setItem s editorCode_key code) s.
Definition removeEditorCode (s : storage) : storage := remove s editorCode_key.

Definition getSavedPlans (s : storage) : value :=
  nullish (get s savedPlans_key) (VObject [("plans", VArray []); ("currentId", VNull)]).
Definition setSavedPlans (s : storage) (state : value) : storage := set s savedPlans_key state.

Definition getDockLayout (s : storage) (m : mode) : value := get s (dockLayout_key m).
Definition setDockLayout (s : storage) (m : mode) (layout : value) : storage :=
  set s (dockLayout_key m) layout.
Definition removeDockLayout (s : storage) (m : mode) : storage := remove s (dockLayout_key m).

Definition getPanelPositions (s : storage) (m : mode) : value :=
  nullish (get s (panelPositions_key m)) (VObject []).
Definition setPanelPositions (s : storage) (m : mode) (positions : value) : storage :=
  set s (panelPositions_key m) positions.
Definition removePanelPositions (s : storage) (m : mode) : storage :=
  remove s (panelPositions_key m).

Definition resetAllPreferences (s : storage) : storage :=
  let s := remove s editorCode_key in
  let s := remove s savedPlans_key in
  let s := remove s (dockLayout_key View) in
  let s := remove s (dockLayout_key Edit) in
  let s := remove s (panelPositions_key View) in
  remove s (panelPositions_key Edit).
End preferences.

(** ** What they promise *)

(** The preferences that are JSON, with how they are read and written. *)
Inductive pref := SavedPlans | DockLayout (m : mode) | PanelPositions (m : mode).
#[export] Instance mode_eq_dec : EqDecision mode.
Proof. solve_decision. Defined.
#[export] Instance pref_eq_dec : EqDecision pref.
Proof. solve_decision. Defined.

Definition key_of (p : pref) : string :=
  match p with
  | SavedPlans => savedPlans_key
  | DockLayout m => dockLayout_key m
  | PanelPositions m => panelPositions_key m
  end.

(** What a preference that is not stored reads as. *)
Definition unset (p : pref) : value :=
  match p with
  | SavedPlans => VObject [("plans", VArray []); ("currentId", VNull)]
  | DockLayout _ => VNull
  | PanelPositions _ => VObject []
  end.

Definition pref_get (enabled : bool) (s : storage) (p : pref) : value :=
  match p with
  | SavedPlans => getSavedPlans enabled s
  | DockLayout m => getDockLayout enabled s m
  | PanelPositions m => getPanelPositions enabled s m
  end.
Definition pref_set (enabled : bool) (fits : storage → bool) (s : storage) (p : pref) (v : value)
    : storage :=
  match p with
  | SavedPlans => setSavedPlans enabled fits s v
  | DockLayout m => setDockLayout enabled fits s m v
  | PanelPositions m => setPanelPositions enabled fits s m v
  end.

Lemma pref_get_eq enabled s p :
  pref_get enabled s p =
  match p with DockLayout _ => get enabled s (key_of p) | _ => nullish (get enabled s (key_of p)) (unset p) end.
Proof. by destruct p. Qed.
Lemma pref_get_unset enabled s p : get enabled s (key_of p) = VNull → pref_get enabled s p = unset p.
Proof. rewrite pref_get_eq. intros ->. by destruct p. Qed.
Lemma pref_get_stored enabled s p v :
  json_ok v → v ≠ VNull → get enabled s (key_of p) = redefined v → pref_get enabled s p = redefined v.
Proof. rewrite pref_get_eq. intros Hv Hn ->. by destruct p, v. Qed.
Lemma pref_set_eq enabled fits s p v : pref_set enabled fits s p v = set enabled fits s (key_of p) v.
Proof. by destruct p. Qed.

#[export] Instance key_of_inj : Inj eq eq key_of.
Proof. intros [|[]|[]] [|[]|[]]; vm_compute; congruence. Qed.
Lemma key_of_editor p : key_of p ≠ editorCode_key.
Proof. by destruct p as [|[]|[]]. Qed.

Lemma redefined_same v : distinct_names v → same v (redefined v).
Proof.
  induction v as [| | | | | | |l IH|o IH| |] using value_ind_nested; intros Hn; try apply same_refl.
  - apply distinct_names_array in Hn. apply same_array.
    induction IH as [|x l Hx _ IHl]; [constructor|]. apply Forall_cons in Hn as [Hnx Hn].
    constructor; [by apply Hx|by apply IHl].
  - apply distinct_names_object in Hn as [Hnd Hn]. apply (same_rebuilt redefined).
    + rewrite Forall_forall in *. intros kv Hkv. by apply IH, Hn.
    + cbn [redefined]. apply from_entries_perm. by rewrite map_fst_map.
Qed.

(** Reading depends on the text under the key. *)
Lemma get_lookup enabled s s' k : s !! k = s' !! k → get enabled s k = get enabled s' k.
Proof. unfold get, getItem. by intros ->. Qed.

Lemma get_stored s k v t :
  json_ok v → stringify 0 0 v = Some t → s !! k = Some t → get true s k = redefined v.
Proof.
  intros Hv Ht Hk. unfold get, getItem. rewrite Hk. cbn [mbind result_bind].
  pose proof (JSON_parse_stringify 0 v t EmptyString EmptyString Hv Ht eq_refl eq_refl) as H.
  rewrite string_app_nil_r in H. change (EmptyString +:+ t) with t in H. rewrite H.
  destruct t; [|done]. assert (JSON_parse EmptyString = None) as Hnone by reflexivity. congruence.
Qed.

(** Storage that takes everything. *)
Definition roomy : storage → bool := λ _, true.

(** What a preference reads as after one was stored, and after one was removed. *)
Lemma pref_read s p q v :
  json_ok v → v ≠ VNull →
  pref_get true (pref_set true roomy s p v) q = if bool_decide (p = q) then redefined v else pref_get true s q.
Proof.
  intros Hv Hn. destruct (stringify_ok 0 0 v Hv) as [t Ht].
  rewrite pref_set_eq. unfold set, setItem. rewrite Ht. cbn [roomy or_else].
  case_bool_decide as E; [subst q|].
  - apply pref_get_stored; [done..|]. apply get_stored with t; [done..|]. by rewrite lookup_insert_eq.
  - rewrite !pref_get_eq. erewrite (get_lookup true _ s); [done|].
    apply lookup_insert_ne. by intros ?%key_of_inj.
Qed.
Lemma pref_removed s p q :
  pref_get true (remove true s (key_of p)) q = if bool_decide (p = q) then unset q else pref_get true s q.
Proof.
  unfold remove, removeItem, or_else. case_bool_decide as E; [subst q|].
  - apply pref_get_unset. unfold get, getItem. by rewrite lookup_delete_eq.
  - rewrite !pref_get_eq. erewrite (get_lookup true _ s); [done|].
    apply lookup_delete_ne. by intros ?%key_of_inj.
Qed.

(** a preference that the storage takes reads back as the same data and leaves the
    others as they were; one it refuses, or any when storage is disabled, leaves the
    storage as it was and throws nothing.  After a reset every preference reads as one
    never set, and what others keep in the storage is still there. *)
Theorem preferences_roundtrip fits s p v t :
  json_ok v → distinct_names v → v ≠ VNull → stringify 0 0 v = Some t →
  (let s' := pref_set true fits s p v in
   if fits (<[key_of p := t]> s) then
     same v (pref_get true s' p) ∧ (∀ q, q ≠ p → pref_get true s' q = pref_get true s q) ∧
     getEditorCode true s' = getEditorCode true s
   else s' = s) ∧
  pref_set false fits s p v = s ∧
  (let s' := resetAllPreferences true s in
   (∀ q, pref_get true s' q = unset q) ∧ getEditorCode true s' = None ∧
   ∀ k, k ≠ editorCode_key → (∀ q, k ≠ key_of q) → s' !! k = s !! k).
Proof.
  intros Hv Hn Hnull Ht. split; [|split].
  - cbv zeta. rewrite pref_set_eq. unfold set, setItem. rewrite Ht. cbn [default].
    change (from_option id "undefined" (Some t)) with t.
    destruct (fits _); [|done]. cbn [or_else]. split_and!.
    + rewrite (pref_get_stored _ _ _ v); [by apply redefined_same|done..|].
      apply (get_stored _ _ v t); [done..|]. by rewrite lookup_insert_eq.
    + intros q Hq. rewrite !pref_get_eq.
      rewrite (get_lookup true (<[key_of p := t]> s) s); [done|].
      apply lookup_insert_ne. by intros ?%key_of_inj.
    + unfold getEditorCode, getItem. by rewrite lookup_insert_ne by apply key_of_editor.
  - by rewrite pref_set_eq.
  - cbv zeta. split_and!.
    + intros q. apply pref_get_unset.
      unfold get, getItem. assert (resetAllPreferences true s !! key_of q = None) as ->; [|done].
      unfold resetAllPreferences, remove, removeItem, or_else.
      destruct q as [|[]|[]]; by simplify_map_eq.
    + unfold getEditorCode, getItem, resetAllPreferences, remove, removeItem, or_else.
      by simplify_map_eq.
    + intros k He Hk. unfold resetAllPreferences, remove, removeItem, or_else.
      rewrite !lookup_delete_ne; try done; apply not_eq_sym;
        solve [done|apply (Hk SavedPlans)|apply (Hk (DockLayout View))|apply (Hk (DockLayout Edit))
              |apply (Hk (PanelPositions View))|apply (Hk (PanelPositions Edit))].
Qed.

(** A store with room for one text. *)
Lemma preferences_roundtrip_witness :
  let s : storage := <["other" := "kept"]> ∅ in
  let v := VObject [("plans", VArray [VString "p"]); ("currentId", VString "p")] in
  let s' := pref_set true (λ s, size s <=? 2) s SavedPlans v in
  same v (getSavedPlans true s') ∧ getPanelPositions true s' View = VObject [] ∧
  resetAllPreferences true s !! "other" = Some "kept".
Proof.
  intros s v s'.
  destruct (preferences_roundtrip (λ s, size s <=? 2) s SavedPlans v
    ("{" +:+ quoted "plans" +:+ ":[" +:+ quoted "p" +:+ "]," +:+ quoted "currentId" +:+ ":" +:+
     quoted "p" +:+ "}")) as (H1 & _ & H3).
  - by repeat split.
  - repeat split; cbn; repeat (apply NoDup_cons; split); try apply NoDup_nil; set_solver.
  - done.
  - by vm_compute.
  - cbv zeta in H1. replace (_ <=? 2) with true in H1 by by vm_compute.
    destruct H1 as (H1 & H2 & _). split; [exact H1|]. split.
    + transitivity (getPanelPositions true s View); [|by vm_compute].
      by apply (H2 (PanelPositions View)).
    + destruct H3 as (_ & _ & H3). rewrite H3; [by vm_compute|done|].
      by intros [|[]|[]].
Defined.
