(* ===== verification/VisGraph.v ===== *)
(** * VisGraph: the graph the visualizer draws for a plan
    (tools/visualizer/src/parser/plan-parser.ts, tools/visualizer/src/layout/dagre-layout.ts)

    A plan's JSON becomes nodes with sizes and edges, and dagre, a parameter, gives the
    nodes their places.  The graph of a plan built through the authoring API is shown to
    be that plan: its nodes in order, an edge for each dependency, and no edge backwards. *)

From S2P Require Import Prelude Collections JsNumber JsValue TaskImpl PlanCtx ArtifactValidation.

(** ** Collections of JSON values *)

(** SameValueZero on the values of a parsed JSON text, where an object or array equals
    no other. *)
Definition same_json (v w : value) : bool :=
  match v, w with
  | VUndefined, VUndefined | VNull, VNull => true
  | VBool a, VBool b => Bool.eqb a b
  | VNumber a, VNumber b => same_value_zero a b
  | VString a, VString b => String.eqb a b
  | _, _ => false
  end.

Definition json_set_has (s : list value) (v : value) : bool := existsb (same_json v) s.

(** [map.set(k, v)] on a [Map], in insertion order *)
Fixpoint json_map_set {A} (m : list (value * A)) (k : value) (v : A) : list (value * A) :=
  match m with
  | [] => [(k, v)]
  | (k', v') :: m' => if same_json k' k then (k', v) :: m' else (k', v') :: json_map_set m' k v
  end.

(** ** The graph *)

(** The fields kept for fragments are constants and left out. *)
Record VisNode := {
  id : value; op : value; label : value; trace : option string;
  isSource : bool; isOutput : bool;
  x : number; y : number; width : number; height : number;
  params : value;
}.

Record VisEdge := { edge_id : string; from : value; to : value; hidden : bool }.

Record VisGraph := { vis_nodes : list (value * VisNode); vis_edges : list VisEdge }.

Definition NODE_MIN_WIDTH : number := num 100.
Definition NODE_PADDING : number := num 24.
Definition NODE_HEIGHT : number := num 50.

Definition estimateTextWidth (text : value) (fontSize : number) : result number :=
  length ← get_prop text "length";
  n ← ToNumber length;
  Ok (num_mul (num_mul n fontSize) (Number "0.6")).

Definition string_or_none (v : value) : option string :=
  match v with VString s => Some s | _ => None end.

(** [v.length === 0] *)
Definition no_length (v : value) : result bool :=
  match v with
  | VArray l => Ok (match l with [] => true | _ => false end)
  | VString s => Ok (String.eqb s EmptyString)
  | _ =>
      n ← get_prop v "length";
      Ok (match n with VNumber k => is_zero k | _ => false end)
  end.

Definition parse_edge (suffix : string) (node_id inputId : value) : result VisEdge :=
  a ← template inputId;
  b ← template node_id;
  Ok {| edge_id := a +:+ "->" +:+ b +:+ suffix; from := inputId; to := node_id; hidden := false |}.

Fixpoint parse_edges (node_id : value) (inputs : list value) : result (list VisEdge) :=
  match inputs with
  | [] => Ok []
  | i :: inputs' => e ← parse_edge EmptyString node_id i; es ← parse_edges node_id inputs'; Ok (e :: es)
  end.

(** One turn of the loop over [plan.nodes]. *)
Definition parse_node (outputSet : list value) (g : VisGraph) (node : value) : result VisGraph :=
  params ← get_prop node "params";
  t ← get_prop params "trace";
  let trace := string_or_none t in
  op ← get_prop node "op";
  opWidth ← estimateTextWidth op (num 11);
  traceWidth ← (match trace with
    | Some (String c r) => estimateTextWidth (VString ("trace: " +:+ String c r)) (num 9)
    | _ => Ok (num 0)
    end);
  let textWidth := num_max opWidth traceWidth in
  let nodeWidth := num_max NODE_MIN_WIDTH (num_add textWidth NODE_PADDING) in
  node_id ← get_prop node "node_id";
  inputs ← get_prop node "inputs";
  isSource ← no_length inputs;
  let visNode :=
    {| id := node_id; op := op; label := op; trace := trace;
       isSource := isSource;
       isOutput := json_set_has outputSet node_id;
       x := num 0; y := num 0; width := nodeWidth; height := NODE_HEIGHT; params := params |} in
  ins ← iterate inputs;
  es ← parse_edges node_id ins;
  rhs ← get_prop params "rhs";
  rs ← (match rhs with
        | VString r => e ← parse_edge ":rhs" node_id rhs; Ok [e]
        | _ => Ok []
        end);
  Ok {| vis_nodes := json_map_set (vis_nodes g) node_id visNode;
        vis_edges := vis_edges g ++ es ++ rs |}.

Definition parsePlan (plan : value) : result VisGraph :=
  outputs ← get_prop plan "outputs";
  outputSet ← (match outputs with VUndefined | VNull => Ok [] | _ => iterate outputs end);
  nodes ← get_prop plan "nodes";
  ns ← iterate nodes;
  fold_result (parse_node outputSet) {| vis_nodes := []; vis_edges := [] |} ns.

(** ** Layout *)

Record LayoutOptions := {
  rankdir : string; ranksep : number; nodesep : number; edgesep : number }.
Definition default_options : LayoutOptions :=
  {| rankdir := "TB"; ranksep := num 60; nodesep := num 30; edgesep := num 20 |}.

Definition place (x' y' : number) (n : VisNode) : VisNode :=
  {| id := id n; op := op n; label := label n; trace := trace n; isSource := isSource n;
     isOutput := isOutput n; x := x'; y := y'; width := width n; height := height n;
     params := params n |}.

Section layout.
(** dagre: from the options, the nodes with their sizes and the edges, the centers of
    the nodes it knows. *)
Context (dagre : LayoutOptions → list (value * number * number) → list (value * value) →
  result (value → option (number * number))).

Definition layoutGraph (options : LayoutOptions) (graph : VisGraph) : result VisGraph :=
  center ← dagre options (map (λ n, (n.1, width n.2, height n.2)) (vis_nodes graph))
    (map (λ e, (from e, to e)) (vis_edges graph));
  Ok {| vis_nodes := map (λ n,
          (n.1, match center n.1 with
                | Some (cx, cy) =>
                    place (num_sub cx (num_div (width n.2) (num 2)))
                      (num_sub cy (num_div (height n.2) (num 2))) n.2
                | None => n.2
                end)) (vis_nodes graph);
        vis_edges := vis_edges graph |}.
End layout.

(** ** Colors *)

Definition nodeOutput : Z := 0xff0037.
Definition nodeSource : Z := 0x0092ff.
Definition nodeCompose : Z := 0xff41b4.
Definition nodeTransform : Z := 0x8969ff.
Definition orange : Z := 0xffb700.
Definition nodeTake : Z := 0x00c986.
Definition nodeDefault : Z := 0x666666.

Definition getNodeColor (op : string) (isOutput : bool) : Z :=
  if isOutput then nodeOutput
  else if startsWith op "viewer." then nodeSource
  else if String.eqb op "concat" then nodeCompose
  else if String.eqb op "vm" then nodeTransform
  else if String.eqb op "filter" then orange
  else if String.eqb op "take" then nodeTake
  else nodeDefault.

(** The colors are chosen by operator names without their namespace: every operator of
    the task registry has the default color. *)
Example registry_colors :
  map (λ op, getNodeColor op false)
    ["core::viewer"; "core::concat"; "core::vm"; "core::filter"; "core::take"]
  = repeat nodeDefault 5.
Proof. done. Qed.

(** ** The graph of a plan *)

Lemma bind_eq {A B} (m : result A) (a : A) (f : A → result B) : m = Ok a → (x ← m; f x) = f a.
Proof. by intros ->. Qed.

Lemma json_map_set_fresh {A} (m : list (value * A)) (ids : list string) (k : string) (v : A) :
  map fst m = map VString ids → k ∉ ids → json_map_set m (VString k) v = m ++ [(VString k, v)].
Proof.
  revert ids. induction m as [|[k' w] m IH]; intros [|i ids] Hm Hk; try done.
  injection Hm as -> Hm. apply not_elem_of_cons in Hk as [Hki Hk]. cbn.
  destruct (String.eqb_spec i k); [congruence|]. f_equal. by apply (IH ids).
Qed.

Definition node_edge (suffix : string) (n : PlanNode) (r : string) : VisEdge :=
  {| edge_id := r +:+ "->" +:+ node_id n +:+ suffix; from := VString r;
     to := VString (node_id n); hidden := false |}.

(** The node an operand [rhs] stands for. *)
Definition rhs_refs (n : PlanNode) : list string :=
  match map_get (PlanCtx.params n) "rhs" with Some (VString r) => [r] | _ => [] end.

Definition edges_of (n : PlanNode) : list VisEdge :=
  map (node_edge EmptyString n) (inputs n) ++ map (node_edge ":rhs" n) (rhs_refs n).

Lemma parse_edges_inputs n ins :
  parse_edges (VString (node_id n)) (map VString ins) = Ok (map (node_edge EmptyString n) ins).
Proof.
  induction ins as [|i ins IH]; [done|]. cbn [map parse_edges]. rewrite IH. unfold node_edge.
  cbn. by rewrite string_app_nil_r.
Qed.

(** What the graph shows of a node of the plan. *)
Definition shows (out : string) (v : value * VisNode) (n : PlanNode) : Prop :=
  v.1 = VString (node_id n) ∧ id v.2 = VString (node_id n) ∧ op v.2 = VString (PlanCtx.op n) ∧
  label v.2 = VString (PlanCtx.op n) ∧ params v.2 = VObject (PlanCtx.params n) ∧
  (isSource v.2 = true ↔ inputs n = []) ∧ (isOutput v.2 = true ↔ node_id n = out).

Lemma rhs_edges n :
  match own_get (PlanCtx.params n) "rhs" with
  | VString r => e ← parse_edge ":rhs" (VString (node_id n)) (own_get (PlanCtx.params n) "rhs"); Ok [e]
  | _ => Ok []
  end = Ok (map (node_edge ":rhs" n) (rhs_refs n)).
Proof.
  unfold own_get, rhs_refs. destruct (map_get _ _) as [v|]; [by destruct v|by vm_compute].
Qed.

Lemma text_width s k : ∃ w, estimateTextWidth (VString s) k = Ok w.
Proof. by eexists. Qed.

(** The parser's step on a node of the plan. *)
Lemma parse_node_value out g n ids :
  map fst (vis_nodes g) = map VString ids → node_id n ∉ ids →
  ∃ v, parse_node [VString out] g (node_value n)
    = Ok {| vis_nodes := vis_nodes g ++ [v]; vis_edges := vis_edges g ++ edges_of n |} ∧
  shows out v n.
Proof.
  intros Hg Hn. unfold parse_node.
  rewrite (bind_eq _ (VObject (PlanCtx.params n))) by by destruct (PlanCtx.extensions n).
  rewrite (bind_eq _ (own_get (PlanCtx.params n) "trace")) by done.
  rewrite (bind_eq (get_prop _ "op") (VString (PlanCtx.op n))) by done.
  destruct (text_width (PlanCtx.op n) (num 11)) as [w Hw]. rewrite (bind_eq _ w) by done.
  set (tw := match string_or_none _ with Some _ => _ | None => _ end).
  assert (∃ t, tw = Ok t) as [t Ht].
  { unfold tw. destruct (string_or_none _) as [[]|]; eauto using text_width. }
  rewrite (bind_eq tw t) by done.
  rewrite (bind_eq (get_prop _ "node_id") (VString (node_id n))) by done.
  rewrite (bind_eq (get_prop _ "inputs") (VArray (map VString (inputs n)))) by done.
  rewrite (bind_eq _ (match inputs n with [] => true | _ => false end)) by (cbn; by destruct (inputs n)).
  rewrite (bind_eq (iterate _) (map VString (inputs n))) by done.
  rewrite (bind_eq _ _ _ (parse_edges_inputs n (inputs n))).
  rewrite (bind_eq (get_prop _ "rhs") (own_get (PlanCtx.params n) "rhs")) by done.
  rewrite (bind_eq _ _ _ (rhs_edges n)).
  rewrite (json_map_set_fresh _ ids) by done. eexists. split; [done|]. unfold shows. cbn.
  split_and!; try done; [by destruct (inputs n)|].
  rewrite orb_false_r. apply String.eqb_eq.
Qed.

Lemma parse_nodes_value out ns : ∀ g ids,
  map fst (vis_nodes g) = map VString ids → NoDup (ids ++ map node_id ns) →
  ∃ vs, fold_result (parse_node [VString out]) g (map node_value ns)
    = Ok {| vis_nodes := vis_nodes g ++ vs; vis_edges := vis_edges g ++ flat_map edges_of ns |} ∧
  Forall2 (shows out) vs ns.
Proof.
  induction ns as [|n ns IH]; intros g ids Hg Hnd.
  { exists []. cbn. rewrite !app_nil_r. by destruct g. }
  apply NoDup_app in Hnd as (Hids & Hx & Hns). cbn in Hns. apply NoDup_cons in Hns as [Hn Hns].
  destruct (parse_node_value out g n ids Hg) as (v & Hv & Hs).
  { intros Hin. apply (Hx _ Hin). left. }
  destruct (IH {| vis_nodes := vis_nodes g ++ [v]; vis_edges := vis_edges g ++ edges_of n |}
    (ids ++ [node_id n])) as (vs & Hvs & Hall).
  - cbn. rewrite !map_app, Hg. destruct Hs as [Hs _]. cbn. by rewrite Hs.
  - rewrite <-app_assoc. apply NoDup_app. split_and!; [done| |by constructor].
    intros y Hy. cbn. intros H. by apply (Hx y Hy).
  - exists (v :: vs). cbn [map fold_result]. rewrite (bind_eq _ _ _ Hv), Hvs. cbn.
    rewrite <-!app_assoc. split; [done|by constructor].
Qed.

(** An edge of the graph joins two nodes of the plan, the first defined earlier. *)
Definition forward (ns : list PlanNode) (e : VisEdge) : Prop :=
  ∃ i j n m, i < j ∧ ns !! i = Some n ∧ ns !! j = Some m ∧
    from e = VString (node_id n) ∧ to e = VString (node_id m).

Lemma edges_forward s :
  plan_ok s → Forall (forward (nodes s)) (flat_map edges_of (nodes s)).
Proof.
  intros Hok. apply Forall_forall. intros e (m & Hm & He)%list_elem_of_In%in_flat_map.
  apply list_elem_of_In, list_elem_of_lookup in Hm as [j Hj].
  pose proof (ok_refs s Hok j m Hj) as Hrefs. rewrite Forall_forall in Hrefs.
  assert (∃ r suffix, e = node_edge suffix m r ∧ NodeRef r ∈ node_refs (PlanCtx.op m) (inputs m)
    (PlanCtx.params m)) as (r & suffix & -> & Hr).
  { apply list_elem_of_In, elem_of_app in He as [He|He];
      apply list_elem_of_fmap in He as (r & -> & Hr); eexists r, _; (split; [done|]);
      unfold node_refs; apply elem_of_app; [left; by apply list_elem_of_fmap_2|right].
    unfold param_refs, rhs_refs in *. apply elem_of_app. left.
    destruct (map_get _ _) as [[]|]; try by apply not_elem_of_nil in Hr.
    apply list_elem_of_singleton in Hr as ->. by left. }
  apply Hrefs in Hr. cbn in Hr. apply list_elem_of_fmap in Hr as (n & -> & Hn).
  apply list_elem_of_lookup in Hn as [i Hi]. apply lookup_take_Some in Hi as [Hi Hij].
  by exists i, j, n, m.
Qed.

Lemma plan_ids_NoDup s : plan_ok s → NoDup (map node_id (nodes s)).
Proof.
  intros Hok. destruct (ok_ids s Hok) as (ks & -> & Hks & _). apply (NoDup_fmap_2 node_num).
  induction Hks as [|k ks _ IH Hk]; constructor; [|done].
  intros Hin. rewrite Forall_forall in Hk. apply Hk in Hin. lia.
Qed.

Lemma parsePlan_value i s out name :
  reachable i s →
  ∃ vs, parsePlan (finalize s (VString out) (VString name)) =
      Ok {| vis_nodes := vs; vis_edges := flat_map edges_of (nodes s) |} ∧
    Forall2 (shows out) vs (nodes s).
Proof.
  intros Hr%reachable_ok. destruct (finalize_get s (VString out) (VString name)) as
    (_ & _ & _ & Hnodes & Hout & _).
  destruct (parse_nodes_value out (nodes s) {| vis_nodes := []; vis_edges := [] |} []) as (vs & Hvs & Hs);
    [done|by apply plan_ids_NoDup|].
  exists vs. split; [|done].
  unfold parsePlan. rewrite (bind_eq _ _ _ Hout). cbv beta match zeta.
  rewrite (bind_eq (iterate _) [VString out]) by done.
  rewrite (bind_eq _ _ _ Hnodes). cbv beta.
  by rewrite (bind_eq (iterate _) (map node_value (nodes s))).
Qed.

(** the visualizer shows a plan as it is.  From the artifact of any sequence of
    calls, parsing gives a graph with the plan's nodes in their order, each with its
    operator, as its label too, and parameters, marked as a source exactly when it has no inputs and as an
    output exactly when the plan names it; the edges are the plan's inputs and
    operands, each once, and each leads from an earlier node to a later one: the
    drawing has no dangling edge and no cycle. *)
Theorem parsePlan_shows_plan i s out name :
  reachable i s →
  ∃ g, parsePlan (finalize s (VString out) (VString name)) = Ok g ∧
    Forall2 (shows out) (vis_nodes g) (nodes s) ∧
    vis_edges g = flat_map edges_of (nodes s) ∧
    Forall (forward (nodes s)) (vis_edges g).
Proof.
  intros Hr. destruct (parsePlan_value i s out name Hr) as (vs & -> & Hs). eexists. split; [done|].
  split_and!; [done..|]. by apply edges_forward, (reachable_ok i).
Qed.

Lemma parsePlan_shows_plan_witness :
  ∃ g, parsePlan (finalize sample_ctx' (VString "n4") (VString "p")) = Ok g ∧
    Forall2 (shows "n4") (vis_nodes g) (nodes sample_ctx') ∧
    vis_edges g = flat_map edges_of (nodes sample_ctx') ∧
    Forall (forward (nodes sample_ctx')) (vis_edges g).
Proof. apply (parsePlan_shows_plan 7). exact sample_ctx'_reachable. Defined.


Example sample_edges :
  (λ g, map edge_id (vis_edges g)) <$> parsePlan (finalize sample_ctx' (VString "n4") (VString "p"))
  = Ok ["n0->n1"; "n1->n3"; "n1->n4"; "n3->n4:rhs"].
Proof. by vm_compute. Qed.
