(* ===== verification/VisTypes.v ===== *)
(** * VisTypes: the types of the visualizer's data (tools/visualizer/src/types.ts)

    The interfaces say what the visualizer expects of the JSON it fetches, and nothing
    checks it at run time.  A type is a list of shapes, its alternatives; [inhabits] decides
    whether a value has it, as TypeScript's structural types mean it: an object may have
    members that its interface does not name.  That compiled plans
    have these types is proved at the end; for generated registries see RegistryFiles.v. *)

From S2P Require Import Prelude Collections JsNumber JsValue Ir PlanCtx.

(** ** Types *)

Inductive shape :=
| SNumber | SString | SBoolean | SNull | SUnknown
| SLiteral (s : string)
| SArray (t : list shape)
| SRecord (t : list shape)                              (* [Record<string, T>] *)
| SInterface (fields : list (string * bool * list shape))  (* name, optional, type *)
| SNamed (name : string).                               (* an interface that is recursive *)
Abbreviation ts_type := (list shape).

Definition req (name : string) (t : ts_type) : string * bool * ts_type := (name, false, t).
Definition opt (name : string) (t : ts_type) : string * bool * ts_type := (name, true, t).

Section inhabits.
Context (env : string → ts_type).

(** The recursive interfaces unfolded. *)
Definition alternatives (t : ts_type) : ts_type :=
  flat_map (λ s, match s with SNamed n => env n | _ => [s] end) t.

Definition field_type (fields : list (string * bool * ts_type)) (k : string) : option (bool * ts_type) :=
  match List.find (λ f, String.eqb f.1.1 k) fields with Some f => Some (f.1.2, f.2) | None => None end.

Fixpoint inhabits (v : value) (t : ts_type) {struct v} : bool :=
  existsb (λ s,
    match s, v with
    | SUnknown, _ | SNumber, VNumber _ | SString, VString _ | SBoolean, VBool _ | SNull, VNull => true
    | SLiteral l, VString x => String.eqb l x
    | SArray t', VArray items => forallb (λ x, inhabits x t') items
    | SRecord t', VObject o => forallb (λ kv, inhabits kv.2 t') o
    | SInterface fields, VObject o =>
        forallb (λ f, f.1.2 || map_has o f.1.1) fields &&
        forallb (λ kv, match field_type fields kv.1 with
                       | Some (optional, t') => optional && is_undefined kv.2 || inhabits kv.2 t'
                       | None => true
                       end) o
    | _, _ => false
    end) (alternatives t).

Lemma inhabits_app v t t' : inhabits v (t ++ t') = inhabits v t || inhabits v t'.
Proof. destruct v; cbn [inhabits]; unfold alternatives; by rewrite flat_map_app, existsb_app. Qed.

Lemma inhabits_array v t : inhabits v [SArray t] = true → ∃ l, v = VArray l ∧ Forall (λ x, inhabits x t = true) l.
Proof.
  destruct v; try done. cbn. rewrite orb_false_r. intros H. rewrite forallb_forall in H. eexists. split; [done|].
  apply Forall_forall. intros x Hx%list_elem_of_In. auto.
Qed.
Lemma array_inhabits l t : Forall (λ x, inhabits x t = true) l → inhabits (VArray l) [SArray t] = true.
Proof.
  intros H. cbn. rewrite orb_false_r. apply forallb_forall. intros x Hx%list_elem_of_In.
  by rewrite Forall_forall in H; apply H.
Qed.

(** A member of an object with an interface. *)
Lemma inhabits_member v fields k optional t :
  inhabits v [SInterface fields] = true → field_type fields k = Some (optional, t) →
  ∃ o, v = VObject o ∧
    match map_get o k with
    | Some x => optional && is_undefined x || inhabits x t = true
    | None => optional = true
    end.
Proof.
  destruct v as [| | | | | | | |o| |]; try done. cbn. rewrite orb_false_r. intros [Hreq Hty]%andb_true_iff Hk.
  rewrite forallb_forall in Hreq, Hty. exists o. split; [done|].
  destruct (map_get o k) as [x|] eqn:Hx.
  - apply map_get_Some_elem_of, list_elem_of_In in Hx. specialize (Hty _ Hx). cbn in Hty. by rewrite Hk in Hty.
  - unfold field_type in Hk. destruct (List.find _ fields) as [f|] eqn:Hf; [|done]. injection Hk as <- <-.
    apply List.find_some in Hf as [Hf <-%String.eqb_eq]. specialize (Hreq _ Hf).
    unfold map_has in Hreq. rewrite Hx in Hreq. by destruct (f.1.2).
Qed.

Lemma inhabits_required v fields k t :
  inhabits v [SInterface fields] = true → field_type fields k = Some (false, t) →
  ∃ x, get_prop v k = Ok x ∧ inhabits x t = true.
Proof.
  intros Hv Hk. destruct (inhabits_member v fields k false t Hv Hk) as (o & -> & Ho). cbn.
  unfold own_get. destruct (map_get o k) as [x|]; [by exists x|done].
Qed.
Lemma inhabits_optional v fields k t :
  inhabits v [SInterface fields] = true → field_type fields k = Some (true, t) → inherited k = VUndefined →
  ∃ x, get_prop v k = Ok x ∧ (x = VUndefined ∨ inhabits x t = true).
Proof.
  intros Hv Hk Hi. destruct (inhabits_member v fields k true t Hv Hk) as (o & -> & Ho). cbn.
  unfold own_get. destruct (map_get o k) as [x|]; [|by rewrite Hi; eauto].
  exists x. split; [done|]. destruct x; try (by right); by left.
Qed.
End inhabits.

(** ** The interfaces *)

Definition PlanIndexEntry : ts_type := [SInterface
  [req "name" [SString]; req "path" [SString]; req "digest" [SString];
   opt "built_by" [SInterface [req "backend" [SString]; req "tool" [SString]; req "tool_version" [SString]]]]].
Definition PlanIndex : ts_type := [SInterface
  [req "schema_version" [SNumber]; req "plans" [SArray PlanIndexEntry]]].

Definition PlanNode : ts_type := [SInterface
  [req "node_id" [SString]; req "op" [SString]; req "inputs" [SArray [SString]];
   req "params" [SRecord [SUnknown]]]].

Definition ExprNode : ts_type := [SInterface
  [req "op" [SString]; opt "value" [SNumber]; opt "key_id" [SNumber]; opt "param_id" [SNumber];
   opt "a" [SNamed "ExprNode"]; opt "b" [SNamed "ExprNode"]; opt "x" [SNamed "ExprNode"]]].

Definition PredNode : ts_type := [SInterface
  [req "op" [SString]; opt "value" [SBoolean]; opt "cmp" [SString]; opt "key_id" [SNumber];
   opt "param_id" [SNumber];
   opt "a" [SNamed "ExprNode"; SNamed "PredNode"]; opt "b" [SNamed "ExprNode"; SNamed "PredNode"];
   opt "x" [SNamed "ExprNode"; SNamed "PredNode"];
   opt "lhs" [SNamed "ExprNode"]; opt "list" [SArray [SNumber; SString]];
   opt "pattern" [SInterface [req "kind" [SString]; opt "value" [SString]; opt "param_id" [SNumber]]];
   opt "flags" [SString]]].

Definition PlanJson : ts_type := [SInterface
  [req "schema_version" [SNumber]; req "plan_name" [SString]; req "nodes" [SArray PlanNode];
   req "outputs" [SArray [SString]];
   opt "expr_table" [SRecord [SNamed "ExprNode"]]; opt "pred_table" [SRecord [SNamed "PredNode"]];
   opt "built_by" [SInterface [req "backend" [SString]; req "tool" [SString];
     req "tool_version" [SString]; opt "bundle_digest" [SString]]]]].

Definition recursive_types (name : string) : ts_type :=
  if String.eqb name "ExprNode" then ExprNode else if String.eqb name "PredNode" then PredNode else [].
#[local] Abbreviation has_type := (inhabits recursive_types).

Definition entry_status : ts_type := [SLiteral "active"; SLiteral "deprecated"; SLiteral "blocked"].

Definition KeyEntry : ts_type := [SInterface
  [req "key_id" [SNumber]; req "name" [SString]; req "type" [SString]; req "nullable" [SBoolean];
   req "doc" [SString]; req "status" entry_status; req "allow_read" [SBoolean];
   req "allow_write" [SBoolean]; req "replaced_by" [SNumber; SNull];
   req "default" [SNumber; SString; SBoolean; SNull]]].

Definition ParamEntry : ts_type := [SInterface
  [req "param_id" [SNumber]; req "name" [SString]; req "type" [SString]; req "nullable" [SBoolean];
   req "doc" [SString]; req "status" entry_status; req "allow_read" [SBoolean];
   req "allow_write" [SBoolean]; req "replaced_by" [SNumber; SNull]]].

Definition FeatureEntry : ts_type := [SInterface
  [req "feature_id" [SNumber]; req "stage" [SString]; req "name" [SString]; req "type" [SString];
   req "nullable" [SBoolean]; req "status" entry_status; req "doc" [SString]]].

Definition CapabilityEntry : ts_type := [SInterface
  [req "id" [SString]; req "rfc" [SString]; req "name" [SString];
   req "status" [SLiteral "implemented"; SLiteral "draft"; SLiteral "deprecated"; SLiteral "blocked"];
   req "doc" [SString]; req "payload_schema" [SRecord [SUnknown]; SNull]]].

Definition TaskParamEntry : ts_type := [SInterface
  [req "name" [SString]; req "type" [SString]; req "required" [SBoolean]; req "nullable" [SBoolean]]].

Definition TaskEntry : ts_type := [SInterface
  [req "op" [SString]; req "output_pattern" [SString]; req "params" [SArray TaskParamEntry];
   opt "writes_effect" [SUnknown]]].

(** [limit] is how the policy's members are declared: required, in the source. *)
Definition endpoint_type (limit : string → ts_type → string * bool * ts_type) : ts_type := [SInterface
  [req "endpoint_id" [SString]; req "name" [SString]; req "kind" [SString];
   req "resolver" [SInterface [req "type" [SString]; req "host" [SString]; req "port" [SNumber]]];
   req "policy" [SInterface [limit "max_inflight" [SNumber]; limit "connect_timeout_ms" [SNumber];
                             limit "request_timeout_ms" [SNumber]]]]].
Definition EndpointEntry : ts_type := endpoint_type req.

Definition EndpointEnv : list string := ["dev"; "test"; "prod"].
Definition RegistryTab : list string := ["keys"; "params"; "features"; "capabilities"; "tasks"; "endpoints"].

(** ** Expressions and predicates have their types *)

Lemma expr_value_type e : has_type (expr_value e) [SNamed "ExprNode"] = true.
Proof. by induction e as [| | | |a IHa b IHb|a IHa b IHb|a IHa b IHb|x IHx|a IHa b IHb]; cbn; rewrite ?IHa, ?IHb, ?IHx, ?orb_true_r. Qed.

Lemma operand_type v t : t ∈ ["ExprNode"; "PredNode"] → has_type v [SNamed t] = true →
  has_type v [SNamed "ExprNode"; SNamed "PredNode"] = true.
Proof.
  intros Ht Hv. change [SNamed "ExprNode"; SNamed "PredNode"] with ([SNamed "ExprNode"] ++ [SNamed "PredNode"]).
  rewrite inhabits_app, orb_true_iff. set_unfold. destruct Ht as [->|[->|[]]]; auto.
Qed.

Lemma pred_value_type p : has_type (pred_value p) [SNamed "PredNode"] = true.
Proof.
  assert (∀ e, has_type (expr_value e) [SNamed "ExprNode"; SNamed "PredNode"] = true) as He.
  { intros e. apply (operand_type _ "ExprNode"); [set_solver|apply expr_value_type]. }
  assert (∀ q, has_type (pred_value q) [SNamed "PredNode"] = true →
    has_type (pred_value q) [SNamed "ExprNode"; SNamed "PredNode"] = true) as Hq.
  { intros q. apply operand_type. set_solver. }
  assert (∀ l, forallb (λ x, has_type x [SNumber; SString]) (map literal_value l) = true) as Hl.
  { intros l. apply forallb_forall. by intros x ([] & <- & _)%in_map_iff. }
  induction p as [b|a IHa b IHb|a IHa b IHb|x IHx|o a b|lhs l|x|x|i pt f]; try apply Hq in IHa, IHb;
    try apply Hq in IHx; cbn; rewrite ?IHa, ?IHb, ?IHx, ?He, ?expr_value_type, ?orb_true_r; try done.
  - by rewrite Hl.
  - by destruct pt.
Qed.

(** ** Plans have their type *)

Lemma node_value_type n : has_type (node_value n) PlanNode = true.
Proof.
  assert (∀ l, forallb (λ x, has_type x [SString]) (map VString l) = true) as Hl.
  { intros l. apply forallb_forall. by intros x (s & <- & _)%in_map_iff. }
  assert (∀ o : object, forallb (λ kv, has_type kv.2 [SUnknown]) o = true) as Ho.
  { intros o. apply forallb_forall. by intros [k []] _. }
  unfold node_value. destruct (extensions n) as [x|]; cbn; by rewrite Hl, Ho.
Qed.

(** A table as the artifact has it. *)
Definition table_typed (t : ts_type) (table : object) : bool :=
  forallb (λ kv, has_type kv.2 t) (from_entries table).

(** The artifact of a plan has the type that the visualizer declares for it exactly when
    the entries of its own tables, which plans pass as they like, are expressions and
    predicates; those the compiler extracts always are. *)
Theorem plan_json_typed s out name :
  has_type (finalize s (VString out) (VString name)) PlanJson =
    table_typed [SNamed "ExprNode"] (exprTable s) && table_typed [SNamed "PredNode"] (predTable s) ∧
  (∀ e, has_type (expr_value e) [SNamed "ExprNode"] = true) ∧
  (∀ p, has_type (pred_value p) [SNamed "PredNode"] = true).
Proof.
  split; [|split; [apply expr_value_type|apply pred_value_type]].
  assert (forallb (λ x, has_type x PlanNode) (map node_value (nodes s)) = true) as Hn.
  { apply forallb_forall. intros x (n & <- & _)%in_map_iff. apply node_value_type. }
  unfold finalize, table_typed, optional_member.
  destruct (exprTable s) as [|e es], (predTable s) as [|p ps], (capabilitiesRequired s) as [|c cs],
    (planExtensions s) as [|x xs]; cbn -[from_entries]; rewrite Hn; cbn -[from_entries];
    rewrite ?orb_false_r, ?andb_true_r; done.
Qed.
