(* ===== verification/TaskTypes.v ===== *)
(** * TaskTypes: the option types of the tasks (dsl/packages/generated/tasks.ts)

    The generated interfaces say what a plan's author may pass to each task, and the
    generated implementations check their options again when the plan runs.  Here the two
    are compared: options that have their interface's type are accepted.  What the types do
    not say is a hypothesis: that counts and ids are integers, and that no member is there
    with the value undefined, which an optional member's type allows. *)

From S2P Require Import Prelude StateMonad Collections JsNumber JsValue Guards TaskImpl PlanCtx VisTypes.

(** ** The interfaces *)

Definition binary (op : string) (t : ts_type) : shape := SInterface [req "op" [SLiteral op]; req "a" t; req "b" t].
Definition ExprNode : ts_type :=
  [SInterface [req "op" [SLiteral "const_number"]; req "value" [SNumber]];
   SInterface [req "op" [SLiteral "const_null"]];
   SInterface [req "op" [SLiteral "key_ref"]; req "key_id" [SNumber]];
   SInterface [req "op" [SLiteral "param_ref"]; req "param_id" [SNumber]];
   binary "add" [SNamed "ExprNode"]; binary "sub" [SNamed "ExprNode"]; binary "mul" [SNamed "ExprNode"];
   SInterface [req "op" [SLiteral "neg"]; req "x" [SNamed "ExprNode"]];
   binary "coalesce" [SNamed "ExprNode"]].
Definition RegexPattern : ts_type :=
  [SInterface [req "kind" [SLiteral "literal"]; req "value" [SString]];
   SInterface [req "kind" [SLiteral "param"]; req "param_id" [SNumber]]].
Definition PredNode : ts_type :=
  [SInterface [req "op" [SLiteral "const_bool"]; req "value" [SBoolean]];
   binary "and" [SNamed "PredNode"]; binary "or" [SNamed "PredNode"];
   SInterface [req "op" [SLiteral "not"]; req "x" [SNamed "PredNode"]];
   SInterface [req "op" [SLiteral "cmp"]; req "cmp" (map SLiteral ["=="; "!="; "<"; "<="; ">"; ">="]);
               req "a" [SNamed "ExprNode"]; req "b" [SNamed "ExprNode"]];
   SInterface [req "op" [SLiteral "in"]; req "lhs" [SNamed "ExprNode"]; req "list" [SArray [SNumber; SString]]];
   SInterface [req "op" [SLiteral "is_null"]; req "x" [SNamed "ExprNode"]];
   SInterface [req "op" [SLiteral "not_null"]; req "x" [SNamed "ExprNode"]];
   SInterface [req "op" [SLiteral "regex"]; req "key_id" [SNumber]; req "pattern" RegexPattern;
               req "flags" [SString]]].
Definition ExprPlaceholder : shape := SInterface [req "__expr_id" [SNumber]].
Definition PredPlaceholder : shape := SInterface [req "__pred_id" [SNumber]].
Definition ExprInput : ts_type := [SNamed "ExprNode"; ExprPlaceholder].
Definition PredInput : ts_type := [SNamed "PredNode"; PredPlaceholder].

Definition named_types (name : string) : ts_type :=
  if String.eqb name "ExprNode" then ExprNode else if String.eqb name "PredNode" then PredNode else [].
#[local] Abbreviation has_type := (inhabits named_types).

(** keys.ts and endpoints.ts *)
Definition KeyToken : ts_type := [SInterface [req "kind" [SLiteral "Key"]; req "id" [SNumber]; req "name" [SString]]].
Definition RedisEndpointId : ts_type := [SLiteral "ep_0001"].

Definition task_opts (fields : list (string * bool * ts_type)) : list (string * bool * ts_type) :=
  fields ++ [opt "trace" [SString; SNull]; opt "extensions" [SRecord [SUnknown]]].
Definition CoreViewerOpts := task_opts [req "endpoint" RedisEndpointId].
Definition TestFixedSourceOpts := task_opts [opt "rowCount" [SNumber]].
Definition CoreFilterOpts := task_opts [req "pred" PredInput].
Definition CoreFollowOpts := task_opts [req "endpoint" RedisEndpointId; req "fanout" [SNumber]].
Definition CoreMediaOpts := task_opts [req "endpoint" RedisEndpointId; req "fanout" [SNumber]].
Definition CoreRecommendationOpts := task_opts [req "endpoint" RedisEndpointId; req "fanout" [SNumber]].
Definition CoreSortOpts := task_opts [req "by" KeyToken; opt "order" [SString]].
Definition CoreTakeOpts := task_opts [req "count" [SNumber]].
Definition CoreVmOpts := task_opts [req "expr" ExprInput; req "outKey" KeyToken].
Definition TestBusyCpuOpts := task_opts [req "busyWaitMs" [SNumber]].
Definition TestSleepOpts := task_opts [req "durationMs" [SNumber]; opt "failAfterSleep" [SBoolean]].

(** ** What the types leave open *)

Record written (opts : value) (counts keys : list string) : Prop := {
  no_undefined : ∀ path, Guards.checkNoUndefined opts path = Ok tt;
  integers : ∀ k x, k ∈ counts → get_prop opts k = Ok x → is_integer_value x = true;
  key_ids : ∀ k x i, k ∈ keys → get_prop opts k = Ok x → get_prop x "id" = Ok i → is_integer_value i = true;
}.

(** ** Members of typed options *)

Lemma typed_object v fields : has_type v [SInterface fields] = true → ∃ o, v = VObject o.
Proof. destruct v; try done. eauto. Qed.

Lemma number_member fields opts k :
  has_type opts [SInterface fields] = true → field_type fields k = Some (false, [SNumber]) →
  ∃ n, get_prop opts k = Ok (VNumber n).
Proof.
  intros Ho Hk. destruct (inhabits_required _ _ _ _ _ Ho Hk) as (x & Hx & Ht).
  destruct x; try done. eauto.
Qed.
Lemma literal_member fields opts k s :
  has_type opts [SInterface fields] = true → field_type fields k = Some (false, [SLiteral s]) →
  get_prop opts k = Ok (VString s).
Proof.
  intros Ho Hk. destruct (inhabits_required _ _ _ _ _ Ho Hk) as (x & Hx & Ht).
  destruct x as [| | | |s'| | | | | |]; try done. cbn in Ht. rewrite orb_false_r in Ht.
  by apply String.eqb_eq in Ht as <-.
Qed.

(** A value of a union of such interfaces is an object whose [op] is a string. *)
Lemma node_op v ts :
  existsb (λ s, has_type v [s]) ts = true →
  Forall (λ s, ∃ fields l, s = SInterface fields ∧ field_type fields "op" = Some (false, [SLiteral l])) ts →
  ∃ o l, v = VObject o ∧ get_prop v "op" = Ok (VString l).
Proof.
  rewrite existsb_exists, Forall_forall. intros (s & Hs & Hv) Hall.
  destruct (Hall s) as (fields & l & -> & Hl); [by apply list_elem_of_In|].
  destruct (typed_object _ _ Hv) as [o ->]. exists o, l. split; [done|]. by eapply literal_member.
Qed.
Lemma named_union v name ts :
  named_types name = ts → (∀ n, SNamed n ∉ ts) → has_type v [SNamed name] = true →
  existsb (λ s, has_type v [s]) ts = true.
Proof.
  intros Hn Hnot Hv.
  assert (has_type v ts = true) as Ht.
  { rewrite <- Hv. destruct v; cbn [inhabits]; unfold alternatives at 2; cbn [flat_map]; rewrite app_nil_r, Hn;
      unfold alternatives; (replace (flat_map _ ts) with ts; [done|]);
      (clear -Hnot; induction ts as [|s ts IH]; [done|]; cbn; rewrite <- IH by set_solver; destruct s; try done;
       exfalso; eapply Hnot; by left). }
  clear Hv Hn Hnot. induction ts as [|s ts IH]; [by destruct v|]. cbn.
  change (s :: ts) with ([s] ++ ts) in Ht. rewrite inhabits_app in Ht.
  apply orb_true_iff in Ht as [->|Ht]; [done|]. by rewrite IH, orb_true_r.
Qed.

Lemma node_shapes : Forall (λ s, ∃ fields l, s = SInterface fields ∧ field_type fields "op" = Some (false, [SLiteral l]))
  (ExprNode ++ PredNode).
Proof.
  unfold ExprNode, PredNode. cbn [app].
  repeat (apply Forall_cons; split; [do 2 eexists; split; reflexivity|]). by apply Forall_nil.
Qed.
Lemma not_named ts : forallb (λ s, match s with SNamed _ => false | _ => true end) ts = true → ∀ n, SNamed n ∉ ts.
Proof. rewrite forallb_forall. intros H n Hin%list_elem_of_In. by specialize (H _ Hin). Qed.

(** What both kinds of input come to. *)
Lemma input_cases v name member :
  has_type v [SNamed name; SInterface [req member [SNumber]]] = true →
  named_types name = ExprNode ∨ named_types name = PredNode →
  (∃ o l, v = VObject o ∧ get_prop v "op" = Ok (VString l)) ∨ (∃ o n, v = VObject o ∧ get_prop v member = Ok (VNumber n)).
Proof.
  intros Hv Hn. change [SNamed name; SInterface [req member [SNumber]]]
    with ([SNamed name] ++ [SInterface [req member [SNumber]]]) in Hv.
  rewrite inhabits_app in Hv. apply orb_true_iff in Hv as [Hv|Hv].
  - left. pose proof node_shapes as [He Hp]%Forall_app. destruct Hn as [Hn|Hn].
    + apply (node_op v ExprNode); [|done]. apply (named_union v name); [done|by apply not_named|done].
    + apply (node_op v PredNode); [|done]. apply (named_union v name); [done|by apply not_named|done].
  - right. destruct (typed_object _ _ Hv) as [o ->].
    destruct (number_member _ _ member Hv) as [n Hm]; [|eauto]. unfold field_type. cbn. by rewrite String.eqb_refl.
Qed.

Lemma expr_input_ok v name : has_type v ExprInput = true → TaskImpl.assertExprInput v name = Ok tt ∧ v ≠ VUndefined.
Proof.
  intros Hv. destruct (input_cases v "ExprNode" "__expr_id" Hv (or_introl eq_refl))
    as [(o & l & -> & Hop)|(o & n & -> & Hid)]; unfold assertExprInput.
  - rewrite Hop. split; [|done]. cbn. by rewrite andb_false_r.
  - rewrite Hid. split; [|done]. reflexivity.
Qed.
Lemma pred_input_ok v name : has_type v PredInput = true → TaskImpl.assertPredInput v name = Ok tt ∧ v ≠ VUndefined.
Proof.
  intros Hv. destruct (input_cases v "PredNode" "__pred_id" Hv (or_intror eq_refl))
    as [(o & l & -> & Hop)|(o & n & -> & Hid)]; unfold assertPredInput.
  - rewrite Hop. split; [|done]. cbn. by rewrite andb_false_r.
  - rewrite Hid. split; [|done]. reflexivity.
Qed.
Lemma has_number_get v k : has_number v k = true → ∃ n, get_prop v k = Ok (VNumber n).
Proof.
  unfold has_number. intros [_ H]%andb_true_iff. destruct (get_prop v k) as [[]|]; try done. eauto.
Qed.

Lemma key_token_ok v name :
  has_type v KeyToken = true → (∀ i, get_prop v "id" = Ok i → is_integer_value i = true) →
  TaskImpl.assertKeyToken v name = Ok tt ∧ v ≠ VUndefined ∧ ∃ n, get_prop v "id" = Ok (VNumber n).
Proof.
  intros Hv Hi. destruct (number_member _ _ "id" Hv eq_refl) as [n Hn]. destruct (typed_object _ _ Hv) as [o ->].
  split; [|split; [done|by exists n]]. unfold TaskImpl.assertKeyToken. rewrite Hn. specialize (Hi _ Hn).
  cbn [typeof is_object is_null negb andb String.eqb throw_if mbind result_bind]. by rewrite Hi.
Qed.

(** The options without their extensions, the extensions and the trace. *)
Definition extensions_ok (e : value) : Prop :=
  e = VUndefined ∨ ∃ o, e = VObject o ∧ ∀ path, Guards.checkNoUndefined e path = Ok tt.

Lemma common_members fields opts counts keys :
  has_type opts [SInterface (task_opts fields)] = true →
  field_type (task_opts fields) "trace" = Some (true, [SString; SNull]) →
  field_type (task_opts fields) "extensions" = Some (true, [SRecord [SUnknown]]) →
  written opts counts keys →
  opts ≠ VUndefined ∧
  (∃ ext rest, split_extensions opts = Ok (ext, rest) ∧ extensions_ok ext ∧
    ∀ path, Guards.checkNoUndefined rest path = Ok tt ∧ TaskImpl.checkNoUndefined rest path = Ok tt) ∧
  (∃ t, ∀ name, check_trace Guards.assertStringOrNull opts name = Ok t ∧
    check_trace TaskImpl.assertStringOrNull opts name = Ok t).
Proof.
  intros Ho Htr Hex [Hu _ _]. destruct (typed_object _ _ Ho) as [o ->]. split; [done|].
  pose proof (proj1 (checkNoUndefined_entries (VObject o) EmptyString) (Hu EmptyString)) as (e & [= <-] & Hall).
  assert (∀ k x, map_get o k = Some x → accepts x) as Hacc.
  { intros k x Hk%map_get_Some_elem_of. rewrite Forall_forall in Hall. by apply (Hall (k, x)). }
  split.
  - exists (own_get o "extensions"), (VObject (obj_without o "extensions")). split; [done|]. split.
    + destruct (inhabits_member _ _ _ "extensions" _ _ Ho Hex) as (o' & [= <-] & Hm). unfold own_get.
      destruct (map_get o "extensions") as [x|] eqn:Hx; [|by left]. right. destruct (Hacc _ _ Hx) as [Hnu Hpl].
      destruct x as [| | | | | | | |eo| |]; try done. exists eo. split; [done|]. by apply Hpl.
    + intros path. assert (Guards.checkNoUndefined (VObject (obj_without o "extensions")) path = Ok tt) as H.
      { apply checkNoUndefined_entries. eexists. split; [done|]. apply Forall_forall. intros kv Hkv.
        rewrite Forall_forall in Hall. apply Hall. by apply list_elem_of_filter in Hkv as [_ Hkv]. }
      split; [done|]. by apply (checkNoUndefined_agrees _ path path).
  - destruct (inhabits_member _ _ _ "trace" _ _ Ho Htr) as (o' & [= <-] & Hm).
    exists (nullish (own_get o "trace") VNull). intros name. unfold check_trace, get_prop, own_get.
    destruct (map_get o "trace") as [x|] eqn:Hx; [|done]. destruct (Hacc _ _ Hx) as [Hnu _]. by destruct x.
Qed.

(** ** Typed options are accepted *)

(** The call adds one node, of this operator, and returns its id. *)
Definition adds (o : string) (m : M PlanCtx string) : Prop :=
  ∀ s, ∃ n s', m s = (Ok (node_id n), s') ∧ nodes s' = nodes s ++ [n] ∧ op n = o ∧ ctx_id s' = ctx_id s.
(** The method returns a handle on it. *)
Definition returns_set (o : string) (m : M PlanCtx value) : Prop :=
  ∀ s, ∃ n s', m s = (Ok (VCandidateSet (ctx_id s) (node_id n)), s') ∧ nodes s' = nodes s ++ [n] ∧ op n = o.

Lemma adds_lift {A} o (r : result A) a f : r = Ok a → adds o (f a) → adds o (lift r ≫= f).
Proof. intros -> H s. exact (H s). Qed.
Lemma adds_ret {A} o (a : A) f : adds o (f a) → adds o (mret a ≫= f).
Proof. intros H s. exact (H s). Qed.
Lemma adds_node o inputs params ext : extensions_ok ext → adds o (addNode o inputs params ext).
Proof.
  intros He s. set (n := λ e, {| node_id := node_num (nodeCounter s); op := o; inputs := inputs; params := params;
    extensions := e |}).
  cbv [addNode PlanCtx_context allocateNodeId push_node get modify lift mbind M_bind mret M_ret].
  destruct He as [->|(eo & -> & Hc)]; [by exists (n None); eexists|].
  cbn [is_undefined]. destruct (keys (VObject eo)) as [[|k ks]|] eqn:Hk; [by exists (n None); eexists| |done].
  rewrite Hc. by exists (n (Some (VObject eo))); eexists.
Qed.
Lemma adds_expr o e f : (∀ id, adds o (f id)) → adds o (addExpr e ≫= f).
Proof.
  intros H s. cbv [addExpr PlanCtx_context get modify mbind M_bind mret M_ret].
  edestruct H as (n & s' & -> & Hn & Ho & Hc). by exists n, s'.
Qed.
Lemma adds_pred o e f : (∀ id, adds o (f id)) → adds o (addPred e ≫= f).
Proof.
  intros H s. cbv [addPred PlanCtx_context get modify mbind M_bind mret M_ret].
  edestruct H as (n & s' & -> & Hn & Ho & Hc). by exists n, s'.
Qed.
Lemma adds_returns o m : adds o m → returns_set o (m ≫= new_candidate_set).
Proof.
  intros H s. destruct (H s) as (n & s' & Hm & Hn & Ho & Hc). exists n, s'. split; [|done].
  cbv [new_candidate_set get mbind M_bind mret M_ret] in *. rewrite Hm. by rewrite Hc.
Qed.
Lemma returns_lift {A} o (r : result A) a f : r = Ok a → returns_set o (f a) → returns_set o (lift r ≫= f).
Proof. intros -> H s. exact (H s). Qed.

Lemma defined_ok v name : v ≠ VUndefined → TaskImpl.assertNotUndefined v name = Ok tt.
Proof. by destruct v. Qed.
Lemma guard_defined_ok v path : v ≠ VUndefined → Guards.assertNotUndefined v path = Ok tt.
Proof. by destruct v. Qed.
Lemma integer_ok v name : is_integer_value v = true → TaskImpl.assertInteger v name = Ok tt.
Proof. unfold TaskImpl.assertInteger. by intros ->. Qed.
Lemma string_defined s : VString s ≠ VUndefined.
Proof. done. Qed.
Lemma number_defined n : VNumber n ≠ VUndefined.
Proof. done. Qed.
Lemma endpoint_ok name : TaskImpl.assertEndpointId (VString "ep_0001") name = Ok tt.
Proof. done. Qed.
Lemma guard_endpoint_ok name : Guards.assertEndpointId (VString "ep_0001") name = Ok tt.
Proof. done. Qed.
Create HintDb typed.
#[local] Hint Resolve defined_ok guard_defined_ok integer_ok string_defined number_defined endpoint_ok guard_endpoint_ok : typed.

(** The members that every task has, and then the checks one after the other. *)
Ltac common Ho Hw :=
  let Hr := fresh "Hr" in let Ht := fresh "Ht" in
  destruct (common_members _ _ _ _ Ho eq_refl eq_refl Hw) as (Hdefined & (ext & rest & Hsplit & Hext & Hr) & t & Ht);
  assert (∀ c, Guards.checkNoUndefined rest c = Ok tt) as Hrest by (intros c; apply Hr);
  assert (∀ c, TaskImpl.checkNoUndefined rest c = Ok tt) as Hrest' by (intros c; apply Hr);
  assert (∀ name, check_trace Guards.assertStringOrNull _ name = Ok t) as Htrace by (intros c; apply Ht);
  assert (∀ name, check_trace TaskImpl.assertStringOrNull _ name = Ok t) as Htrace' by (intros c; apply Ht);
  clear Hr Ht.
Ltac passes :=
  repeat ((eapply adds_lift || eapply returns_lift); [solve [eauto with typed]|]; cbv beta iota);
  try (first [apply adds_node|apply adds_returns, adds_node]; assumption).

Lemma counted fields opts counts keys k :
  has_type opts [SInterface fields] = true → written opts counts keys → k ∈ counts →
  field_type fields k = Some (false, [SNumber]) →
  ∃ n, get_prop opts k = Ok (VNumber n) ∧ is_integer_value (VNumber n) = true.
Proof.
  intros Ho Hw Hk Hf. destruct (number_member _ _ _ Ho Hf) as [n Hn]. exists n. split; [done|].
  by eapply (integers _ _ _ Hw).
Qed.

Lemma typed_follow i opts :
  has_type opts [SInterface CoreFollowOpts] = true → written opts ["fanout"] [] →
  returns_set "core::follow" (follow i opts).
Proof.
  intros Ho Hw. common Ho Hw. apply adds_returns. unfold followImpl.
  pose proof (literal_member _ _ "endpoint" _ Ho eq_refl) as He.
  destruct (counted _ _ _ _ "fanout" Ho Hw) as (n & Hn & Hi); [set_solver|done|]. passes.
Qed.
Lemma typed_media i opts :
  has_type opts [SInterface CoreMediaOpts] = true → written opts ["fanout"] [] →
  returns_set "core::media" (media i opts).
Proof.
  intros Ho Hw. common Ho Hw. apply adds_returns. unfold mediaImpl.
  pose proof (literal_member _ _ "endpoint" _ Ho eq_refl) as He.
  destruct (counted _ _ _ _ "fanout" Ho Hw) as (n & Hn & Hi); [set_solver|done|]. passes.
Qed.
Lemma typed_recommendation i opts :
  has_type opts [SInterface CoreRecommendationOpts] = true → written opts ["fanout"] [] →
  returns_set "core::recommendation" (recommendation i opts).
Proof.
  intros Ho Hw. common Ho Hw. apply adds_returns. unfold recommendationImpl.
  pose proof (literal_member _ _ "endpoint" _ Ho eq_refl) as He.
  destruct (counted _ _ _ _ "fanout" Ho Hw) as (n & Hn & Hi); [set_solver|done|]. passes.
Qed.
Lemma typed_take i opts :
  has_type opts [SInterface CoreTakeOpts] = true → written opts ["count"] [] →
  returns_set "core::take" (take i opts).
Proof.
  intros Ho Hw. common Ho Hw. apply adds_returns. unfold takeImpl.
  destruct (counted _ _ _ _ "count" Ho Hw) as (n & Hn & Hi); [set_solver|done|]. passes.
Qed.
Lemma typed_busyCpu i opts :
  has_type opts [SInterface TestBusyCpuOpts] = true → written opts ["busyWaitMs"] [] →
  returns_set "test::busy_cpu" (busyCpu i opts).
Proof.
  intros Ho Hw. common Ho Hw. apply adds_returns. unfold busyCpuImpl.
  destruct (counted _ _ _ _ "busyWaitMs" Ho Hw) as (n & Hn & Hi); [set_solver|done|]. passes.
Qed.

Lemma any_member fields opts k : has_type opts [SInterface fields] = true → ∃ x, get_prop opts k = Ok x.
Proof. intros Ho. destruct (typed_object _ _ Ho) as [o ->]. eauto. Qed.

Lemma typed_sleep i opts :
  has_type opts [SInterface TestSleepOpts] = true → written opts ["durationMs"] [] →
  returns_set "test::sleep" (sleep i opts).
Proof.
  intros Ho Hw. common Ho Hw. apply adds_returns. unfold sleepImpl.
  destruct (counted _ _ _ _ "durationMs" Ho Hw) as (n & Hn & Hi); [set_solver|done|].
  destruct (any_member _ _ "failAfterSleep" Ho) as [x Hx]. passes.
Qed.
Lemma typed_viewer opts :
  has_type opts [SInterface CoreViewerOpts] = true → written opts [] [] → returns_set "core::viewer" (viewer opts).
Proof.
  intros Ho Hw. common Ho Hw. unfold viewer.
  pose proof (literal_member _ _ "endpoint" _ Ho eq_refl) as He. passes.
Qed.
Lemma typed_fixedSource opts :
  has_type opts [SInterface TestFixedSourceOpts] = true → written opts [] [] →
  returns_set "test::fixed_source" (fixedSource opts).
Proof.
  intros Ho Hw. common Ho Hw. unfold fixedSource. destruct (any_member _ _ "rowCount" Ho) as [x Hx]. passes.
Qed.

(** Keys, expressions and predicates. *)
Lemma key_member fields opts counts keys k :
  has_type opts [SInterface fields] = true → written opts counts keys → k ∈ keys →
  field_type fields k = Some (false, KeyToken) →
  ∃ x n, get_prop opts k = Ok x ∧ x ≠ VUndefined ∧ get_prop x "id" = Ok (VNumber n) ∧
    ∀ name, TaskImpl.assertKeyToken x name = Ok tt.
Proof.
  intros Ho Hw Hk Hf. destruct (inhabits_required _ _ _ _ _ Ho Hf) as (x & Hx & Hv).
  assert (∀ i, get_prop x "id" = Ok i → is_integer_value i = true) as Hi by (intros i; by eapply (key_ids _ _ _ Hw)).
  destruct (key_token_ok x EmptyString Hv Hi) as (_ & Hd & n & Hn). exists x, n. split_and!; [done..|].
  intros name. by apply key_token_ok.
Qed.

Lemma typed_sort i opts :
  has_type opts [SInterface CoreSortOpts] = true → written opts [] ["by"] → returns_set "core::sort" (sort i opts).
Proof.
  intros Ho Hw. common Ho Hw. apply adds_returns. unfold sortImpl.
  destruct (key_member _ _ _ _ "by" Ho Hw) as (x & n & Hx & Hd & Hn & Hkey); [set_solver|done|].
  destruct (any_member _ _ "order" Ho) as [y Hy]. passes.
Qed.

(** The entry of a table, or the placeholder's number. *)
Lemma adds_entry (o : string) (v : value) (member prefix : string) (entry : M PlanCtx string) (f : string → M PlanCtx string) :
  (∀ id, adds o (f id)) → (∀ g, (∀ id, adds o (g id)) → adds o (entry ≫= g)) →
  adds o ((if has_number v member then
             id ← lift (get_prop v member); t ← lift (template id); mret (prefix +:+ t)
           else entry) ≫= f).
Proof.
  intros Hf He. destruct (has_number v member) eqn:Hp; [|by apply He].
  destruct (has_number_get _ _ Hp) as [n Hn]. intros s. destruct (Hf (prefix +:+ num_to_string n) s) as (m & s' & Hm & Hrest).
  exists m, s'. split; [|done]. rewrite <- Hm. cbv [mbind M_bind lift mret M_ret]. by rewrite Hn.
Qed.

Lemma typed_vm i opts :
  has_type opts [SInterface CoreVmOpts] = true → written opts [] ["outKey"] → returns_set "core::vm" (vm i opts).
Proof.
  intros Ho Hw. common Ho Hw. apply adds_returns. unfold vmImpl.
  destruct (key_member _ _ _ _ "outKey" Ho Hw) as (x & n & Hx & Hd & Hn & Hkey); [set_solver|done|].
  destruct (inhabits_required _ _ _ "expr" _ Ho eq_refl) as (e & He & Hv).
  pose proof (proj2 (expr_input_ok e EmptyString Hv)) as Hed.
  assert (∀ name, TaskImpl.assertExprInput e name = Ok tt) as Hin by (intros name; by apply expr_input_ok).
  passes. apply adds_entry; [|intros g; apply adds_expr]. intros id. passes.
Qed.
Lemma typed_filter i opts :
  has_type opts [SInterface CoreFilterOpts] = true → written opts [] [] → returns_set "core::filter" (filter_ i opts).
Proof.
  intros Ho Hw. common Ho Hw. apply adds_returns. unfold filterImpl.
  destruct (inhabits_required _ _ _ "pred" _ Ho eq_refl) as (e & He & Hv).
  pose proof (proj2 (pred_input_ok e EmptyString Hv)) as Hed.
  assert (∀ name, TaskImpl.assertPredInput e name = Ok tt) as Hin by (intros name; by apply pred_input_ok).
  passes. apply adds_entry; [|intros g; apply adds_pred]. intros id. passes.
Qed.

(** The other set's class is no data type: [rhs] is a handle of the same context. *)
Definition CoreConcatOpts := task_opts [req "rhs" [SUnknown]].

Lemma typed_concat i r opts s :
  has_type opts [SInterface CoreConcatOpts] = true → written opts [] [] →
  get_prop opts "rhs" = Ok (VCandidateSet (ctx_id s) r) →
  ∃ n s', concat i opts s = (Ok (VCandidateSet (ctx_id s) (node_id n)), s') ∧
    nodes s' = nodes s ++ [n] ∧ op n = "core::concat".
Proof.
  intros Ho Hw Hrhs. common Ho Hw.
  assert (adds "core::concat" (concatImpl i opts)) as H.
  { unfold concatImpl.
    assert (VCandidateSet (ctx_id s) r ≠ VUndefined) as Hd by done.
    assert (∀ name, assertCandidateSet (VCandidateSet (ctx_id s) r) name = Ok tt) as Hset by done.
    assert (get_prop (VCandidateSet (ctx_id s) r) "getNodeId" = Ok (VFunction (VString r))) as Hget by done.
    assert (call (VFunction (VString r)) = Ok (VString r)) as Hcall by done. passes. }
  destruct (adds_returns _ _ H s) as (n & s' & Hm & Hrest2). exists n, s'. split; [|done]. rewrite <- Hm.
  unfold concat. cbv [mbind M_bind lift get]. rewrite (guard_defined_ok _ _ Hdefined), Hrhs. cbn.
  by rewrite Nat.eqb_refl.
Qed.

(** ** The methods together *)

Record typed_method := {
  options : list (string * bool * ts_type);
  counts : list string;
  key_members : list string;
  sets : list string;      (* members that are candidate sets *)
  operator : string;
  method : string → value → M PlanCtx value;
}.
Definition typed_methods : list typed_method :=
  [Build_typed_method CoreViewerOpts [] [] [] "core::viewer" (λ _, viewer);
   Build_typed_method TestFixedSourceOpts [] [] [] "test::fixed_source" (λ _, fixedSource);
   Build_typed_method CoreVmOpts [] ["outKey"] [] "core::vm" vm;
   Build_typed_method CoreFilterOpts [] [] [] "core::filter" filter_;
   Build_typed_method CoreSortOpts [] ["by"] [] "core::sort" sort;
   Build_typed_method CoreMediaOpts ["fanout"] [] [] "core::media" media;
   Build_typed_method CoreFollowOpts ["fanout"] [] [] "core::follow" follow;
   Build_typed_method CoreRecommendationOpts ["fanout"] [] [] "core::recommendation" recommendation;
   Build_typed_method CoreTakeOpts ["count"] [] [] "core::take" take;
   Build_typed_method TestBusyCpuOpts ["busyWaitMs"] [] [] "test::busy_cpu" busyCpu;
   Build_typed_method TestSleepOpts ["durationMs"] [] [] "test::sleep" sleep;
   Build_typed_method CoreConcatOpts [] [] ["rhs"] "core::concat" concat].

(** The members that are candidate sets are handles of the call's context. *)
Definition handles_given (s : PlanCtx) (opts : value) (sets : list string) : Prop :=
  Forall (λ k, ∃ r, get_prop opts k = Ok (VCandidateSet (ctx_id s) r)) sets.

Lemma methods_accept :
  Forall (λ m, ∀ i opts s, has_type opts [SInterface (options m)] = true →
    written opts (counts m) (key_members m) → handles_given s opts (sets m) →
    ∃ n s', method m i opts s = (Ok (VCandidateSet (ctx_id s) (node_id n)), s') ∧
      nodes s' = nodes s ++ [n] ∧ op n = operator m) typed_methods.
Proof.
  repeat (apply Forall_cons; split; [intros i opts s Ho Hw Hs; cbn in *;
    first [by apply typed_viewer|by apply typed_fixedSource|by apply typed_vm|by apply typed_filter|by apply typed_sort
          |by apply typed_media|by apply typed_follow|by apply typed_recommendation|by apply typed_take
          |by apply typed_busyCpu|by apply typed_sleep
          |apply Forall_cons in Hs as [[r Hr] _]; by apply (typed_concat i r)]|]).
  by apply Forall_nil.
Qed.

(** C12: A call that has its interface's type runs.  With integers for counts and key ids, no
    member set to undefined and, for [concat], another handle of the same context, each method
    of [PlanCtx], [CandidateSet] and their [test] namespaces that adds a task accepts options
    of its declared type: it throws nothing, adds exactly one node, of its operator, and
    returns the handle on it in the same context. *)
Theorem typed_calls_run m i opts s :
  m ∈ typed_methods → has_type opts [SInterface (options m)] = true → written opts (counts m) (key_members m) →
  handles_given s opts (sets m) →
  ∃ n s', method m i opts s = (Ok (VCandidateSet (ctx_id s) (node_id n)), s') ∧
    nodes s' = nodes s ++ [n] ∧ op n = operator m.
Proof.
  intros Hm Ho Hw Hs. pose proof methods_accept as H. rewrite Forall_forall in H. exact (H m Hm i opts s Ho Hw Hs).
Qed.

(** An expression of the author's, [Key.id * 2], and the key it is written to. *)
Definition sample_opts : value :=
  VObject [("outKey", VObject [("kind", VString "Key"); ("id", VNumber (num 2001)); ("name", VString "final_score")]);
           ("expr", VObject [("op", VString "mul");
              ("a", VObject [("op", VString "key_ref"); ("key_id", VNumber (num 1))]);
              ("b", VObject [("op", VString "const_number"); ("value", VNumber (num 2))])]);
           ("trace", VString "score")].
Lemma sample_written : written sample_opts [] ["outKey"].
Proof.
  split.
  - intros path. apply checkNoUndefined_entries. eexists. split; [done|].
    repeat (apply Forall_cons; split); try by apply Forall_nil.
    all: split; [done|]; intros Hp path'; try done; vm_compute; reflexivity.
  - intros k x Hk%elem_of_nil. done.
  - intros k x j ->%list_elem_of_singleton [= <-] [= <-]. by vm_compute.
Qed.
Definition two_sources : PlanCtx := run_all [Viewer (VObject [ep "ep_0001"]); Viewer (VObject [ep "ep_0001"])] (new_ctx 7).
Lemma typed_calls_run_witness :
  (∃ n s', vm "n0" sample_opts (new_ctx 7) = (Ok (VCandidateSet 7 (node_id n)), s') ∧
    nodes s' = [n] ∧ op n = "core::vm") ∧
  ∃ n s', concat "n0" (VObject [("rhs", VCandidateSet 7 "n1")]) two_sources = (Ok (VCandidateSet 7 (node_id n)), s') ∧
    nodes s' = nodes two_sources ++ [n] ∧ op n = "core::concat".
Proof.
  split.
  - apply (typed_calls_run (Build_typed_method CoreVmOpts [] ["outKey"] [] "core::vm" vm) "n0" sample_opts (new_ctx 7)).
    + right. right. left.
    + by vm_compute.
    + exact sample_written.
    + by apply Forall_nil.
  - apply (typed_calls_run (Build_typed_method CoreConcatOpts [] [] ["rhs"] "core::concat" concat) "n0"
      (VObject [("rhs", VCandidateSet 7 "n1")]) two_sources).
    + do 11 right. left.
    + by vm_compute.
    + split; [intros path; vm_compute; reflexivity|by intros k x Hk%elem_of_nil|by intros k x j Hk%elem_of_nil].
    + apply Forall_cons. split; [by exists "n1"|by apply Forall_nil].
Defined.

(** An optional member may be undefined for its type, but not for the implementation. *)
Lemma optional_undefined_throws :
  has_type (VObject [("rowCount", VUndefined)]) [SInterface TestFixedSourceOpts] = true ∧
  (fixedSource (VObject [("rowCount", VUndefined)]) (new_ctx 7)).1 ≠
    Ok (VCandidateSet 7 "n0").
Proof. by vm_compute. Qed.
