(* ===== verification/VisStore.v ===== *)
(** * VisStore: the visualizer's store (tools/visualizer/src/state/store.ts)

    The store is a state machine: components call its actions, responses to its requests
    arrive in any order, the promises of its asynchronous actions resume whoever awaits
    them, and the browser sends [popstate] events.  Each is one event; between two
    [await]s of an action the machine does not move, so a request with its body is one
    arrival.  Theorems hold for every sequence of events.  The browser's parts (requests,
    URL parameters, history) are the events' data and the entries pushed. *)

From Stdlib Require Import Floats.SpecFloat.
From S2P Require Import Prelude StateMonad Collections JsNumber JsValue VisGraph.

(** ** State, in the groups of the [Store] interface *)

Record ViewState := { view_x : number; view_y : number; view_scale : number }.

Record index_state := {
  planIndex : value; indexLoading : bool; indexError : option string }.

Record plan_state := {
  planJson : value; fileName : value; graph : option VisGraph;
  planLoading : bool; planError : option string }.

Record source_state := {
  sourceCode : option string; sourceLoading : bool; showSource : bool;
  sourceCollapsed : bool; editSourceCode : option string; detailsCollapsed : bool }.

Record canvas_state := {
  view : ViewState; selectedNodeId : value; hoveredNodeId : value;
  expandedFragments : list string;              (* a Set, in insertion order *)
  autoCollapseThreshold : nat }.

Record RegistryData := {
  keys_ : value; params_ : value; features_ : value; capabilities_ : value; tasks_ : value;
  endpoints_dev : value; endpoints_test : value; endpoints_prod : value }.

Record registry_state := {
  registries : option RegistryData; registriesLoading : bool; registriesError : option string;
  selectedRegistryTab : value; registrySearchQuery : string; selectedRegistryEntry : value;
  selectedEndpointEnv : string }.

Record Store := {
  st_index : index_state; st_plan : plan_state; st_source : source_state;
  st_canvas : canvas_state; st_registry : registry_state }.

Definition initialView : ViewState := {| view_x := num 0; view_y := num 0; view_scale := num 1 |}.

Definition initialStore : Store := {|
  st_index := {| planIndex := VNull; indexLoading := false; indexError := None |};
  st_plan := {| planJson := VNull; fileName := VNull; graph := None; planLoading := false;
                planError := None |};
  st_source := {| sourceCode := None; sourceLoading := false; showSource := false;
                  sourceCollapsed := false; editSourceCode := None; detailsCollapsed := false |};
  st_canvas := {| view := initialView; selectedNodeId := VNull; hoveredNodeId := VNull;
                  expandedFragments := []; autoCollapseThreshold := 200 |};
  st_registry := {| registries := None; registriesLoading := false; registriesError := None;
                    selectedRegistryTab := VString "keys"; registrySearchQuery := EmptyString;
                    selectedRegistryEntry := VNull; selectedEndpointEnv := "dev" |};
|}.

(** ** The browser *)

(** An entry of the history: the state object and the address, by how it is made from
    the current one. *)
Inductive url_change := SetParam (k v : string) | DeleteParam (k : string).
Inductive url :=
| Query (query : string)                        (* [`?plan=...`] *)
| Pathname                                      (* [window.location.pathname] *)
| Changed (changes : list url_change).          (* [new URL(window.location.href)], changed *)
Record pushed := { pushed_state : object; pushed_url : url }.

(** What comes of a request: no response, a status that is not ok, a body that cannot be
    read, or a body. *)
Inductive response :=
| Rejected (message : string)
| HttpError (status : nat)
| BadBody (message : string)
| Body (v : value).

(** A [popstate] event: the members of [event.state] and the address's parameters. *)
Record popstate := {
  state_view : value; state_tab : value; state_selected : value; state_plan : value;
  url_param : string → option string }.

(** ** Pending operations *)

(** Who awaits an asynchronous action: a component (nobody resumes), the [popstate]
    handler, or the code that handles the initial address. *)
Inductive awaiter :=
| Nobody
| PopPlan
| PopRegistries (tab selected : value)
| InitRegistries (tab : value) (selected : option string)
| InitIndex (planName : string)
| InitPlan.

Inductive operation :=
| IndexRequest (a : awaiter)
| PlanRequest (name path : value) (a : awaiter)
| SourceRequest (name : value)
| RegistriesRequest (a : awaiter)
| Resume (a : awaiter).

Record machine := {
  store : Store;
  isHandlingPopState : bool;
  history : list pushed;
  pending : list operation;
}.

(** ** Updates *)

Definition with_store (f : Store → Store) (m : machine) : machine :=
  {| store := f (store m); isHandlingPopState := isHandlingPopState m; history := history m;
     pending := pending m |}.
Definition with_flag (b : bool) (m : machine) : machine :=
  {| store := store m; isHandlingPopState := b; history := history m; pending := pending m |}.
Definition with_pending (ops : list operation) (m : machine) : machine :=
  {| store := store m; isHandlingPopState := isHandlingPopState m; history := history m;
     pending := ops |}.
Definition with_history (h : list pushed) (m : machine) : machine :=
  {| store := store m; isHandlingPopState := isHandlingPopState m; history := h;
     pending := pending m |}.

Definition set_index (f : index_state → index_state) : M machine unit :=
  modify (with_store (λ s, {| st_index := f (st_index s); st_plan := st_plan s;
    st_source := st_source s; st_canvas := st_canvas s; st_registry := st_registry s |})).
Definition set_plan (f : plan_state → plan_state) : M machine unit :=
  modify (with_store (λ s, {| st_index := st_index s; st_plan := f (st_plan s);
    st_source := st_source s; st_canvas := st_canvas s; st_registry := st_registry s |})).
Definition set_source (f : source_state → source_state) : M machine unit :=
  modify (with_store (λ s, {| st_index := st_index s; st_plan := st_plan s;
    st_source := f (st_source s); st_canvas := st_canvas s; st_registry := st_registry s |})).
Definition set_canvas (f : canvas_state → canvas_state) : M machine unit :=
  modify (with_store (λ s, {| st_index := st_index s; st_plan := st_plan s;
    st_source := st_source s; st_canvas := f (st_canvas s); st_registry := st_registry s |})).
Definition set_registry (f : registry_state → registry_state) : M machine unit :=
  modify (with_store (λ s, {| st_index := st_index s; st_plan := st_plan s;
    st_source := st_source s; st_canvas := st_canvas s; st_registry := f (st_registry s) |})).

Definition set_flag (b : bool) : M machine unit := modify (with_flag b).
Definition start (op : operation) : M machine unit :=
  modify (λ m, with_pending (pending m ++ [op]) m).
Definition pushState (state : object) (u : url) : M machine unit :=
  modify (λ m, with_history (history m ++ [{| pushed_state := state; pushed_url := u |}]) m).

(** Pushing an entry unless a [popstate] is being handled. *)
Definition unless_popstate (push : M machine unit) : M machine unit :=
  m ← get; if isHandlingPopState m then mret tt else push.

(** The promise of an action settles; its awaiter goes on later. *)
Definition resume (a : awaiter) : M machine unit :=
  match a with Nobody => mret tt | _ => start (Resume a) end.
(** It is rejected: the [popstate] handler has a [finally], the others stop. *)
Definition reject (a : awaiter) : M machine unit :=
  match a with PopPlan => start (Resume a) | _ => mret tt end.

(** [resp.ok] and [await resp.json()] *)
Definition response_json (what : string) (r : response) : result value :=
  match r with
  | Rejected message | BadBody message => Throw (Error message)
  | HttpError status => Throw (Error ("Failed to fetch " +:+ what +:+ ": " +:+ pretty status))
  | Body v => Ok v
  end.

Section actions.
(** dagre, and the host's message of a [TypeError]. *)
Context (dagre : LayoutOptions → list (value * number * number) → list (value * value) →
  result (value → option (number * number))).
Context (host_message : string).

Definition message_of (e : exn) : string :=
  match e with Error m => m | TypeError => host_message end.

(** ** The plan index *)

Definition loadIndex (a : awaiter) : M machine unit :=
  set_index (λ s, {| planIndex := planIndex s; indexLoading := true; indexError := None |}) ;;
  start (IndexRequest a).

Definition index_arrives (r : response) (a : awaiter) : M machine unit :=
  try_catch
    (data ← lift (response_json "index" r);
     plans ← lift (get_prop data "plans");
     set_index (λ s, {| planIndex := plans; indexLoading := false; indexError := indexError s |}))
    (λ e, set_index (λ s, {| planIndex := planIndex s; indexLoading := false;
                             indexError := Some (message_of e) |})) ;;
  resume a.

Definition strict_equal (v w : value) : bool :=
  match v, w with VNumber a, VNumber b => num_eqb a b | _, _ => same_json v w end.

(** [planIndex?.find((p) => p.name === name)] *)
Fixpoint find_entry (plans : list value) (name : value) : result value :=
  match plans with
  | [] => Ok VUndefined
  | p :: plans' =>
      n ← get_prop p "name";
      if strict_equal n name then Ok p else find_entry plans' name
  end.
Definition find_plan (planIndex name : value) : result value :=
  match planIndex with
  | VUndefined | VNull => Ok VUndefined
  | VArray plans => find_entry plans name
  | _ => Throw TypeError
  end.

(** ** Plans *)

Definition loadPlan (json fileName : value) (skipHistory : bool) : M machine unit :=
  parsed ← lift (parsePlan json);
  graph ← lift (layoutGraph dagre default_options parsed);
  set_plan (λ s, {| planJson := json; fileName := fileName; graph := Some graph;
                    planLoading := planLoading s; planError := None |}) ;;
  set_canvas (λ s, {| view := view s; selectedNodeId := VNull; hoveredNodeId := VNull;
                      expandedFragments := []; autoCollapseThreshold := autoCollapseThreshold s |}) ;;
  unless_popstate
    (if skipHistory then mret tt
     else
       plan_name ← lift (get_prop json "plan_name");
       t ← lift (template plan_name);
       pushState [("plan", plan_name)] (Query ("?plan=" +:+ t))).

Definition clearPlan : M machine unit :=
  set_plan (λ s, {| planJson := VNull; fileName := VNull; graph := None;
                    planLoading := planLoading s; planError := planError s |}) ;;
  set_canvas (λ s, {| view := initialView; selectedNodeId := VNull; hoveredNodeId := VNull;
                      expandedFragments := []; autoCollapseThreshold := autoCollapseThreshold s |}) ;;
  set_source (λ s, {| sourceCode := None; sourceLoading := sourceLoading s; showSource := false;
                      sourceCollapsed := sourceCollapsed s; editSourceCode := editSourceCode s;
                      detailsCollapsed := detailsCollapsed s |}) ;;
  unless_popstate (pushState [] Pathname).

Definition loadSource (planName : value) : M machine unit :=
  set_source (λ s, {| sourceCode := sourceCode s; sourceLoading := true; showSource := showSource s;
                      sourceCollapsed := sourceCollapsed s; editSourceCode := editSourceCode s;
                      detailsCollapsed := detailsCollapsed s |}) ;;
  start (SourceRequest planName).

Definition source_arrives (r : response) : M machine unit :=
  set_source (λ s, {| sourceCode := match r with Body v => string_or_none v | _ => None end;
                      sourceLoading := false; showSource := showSource s;
                      sourceCollapsed := sourceCollapsed s; editSourceCode := editSourceCode s;
                      detailsCollapsed := detailsCollapsed s |}).

Definition set_plan_status (loading : bool) (error : option string) : M machine unit :=
  set_plan (λ s, {| planJson := planJson s; fileName := fileName s; graph := graph s;
                    planLoading := loading; planError := error |}).

Definition loadPlanByName (name : value) (a : awaiter) : M machine unit :=
  m ← get;
  match find_plan (planIndex (st_index (store m))) name with
  | Throw _ => reject a
  | Ok entry =>
      if negb (truthy entry) then
        match template name with
        | Throw _ => reject a
        | Ok t =>
            set_plan_status (planLoading (st_plan (store m))) (Some ("Plan not found: " +:+ t)) ;;
            resume a
        end
      else
        set_plan_status true None ;;
        try_catch
          (path ← lift (get_prop entry "path");
           _ ← lift (template path); (* the address *)
           start (PlanRequest name path a))
          (λ e, set_plan_status false (Some (message_of e)) ;; resume a)
  end.

Definition plan_arrives (name path : value) (r : response) (a : awaiter) : M machine unit :=
  try_catch
    (json ← lift (response_json "plan" r);
     loadPlan json path false ;;
     m ← get;
     set_plan_status false (planError (st_plan (store m))) ;;
     loadSource name)
    (λ e, set_plan_status false (Some (message_of e))) ;;
  resume a.

(** ** Panels and view *)

Definition toggleSource : M machine unit :=
  set_source (λ s, {| sourceCode := sourceCode s; sourceLoading := sourceLoading s;
    showSource := negb (showSource s); sourceCollapsed := sourceCollapsed s;
    editSourceCode := editSourceCode s; detailsCollapsed := detailsCollapsed s |}).
Definition toggleSourceCollapsed : M machine unit :=
  set_source (λ s, {| sourceCode := sourceCode s; sourceLoading := sourceLoading s;
    showSource := showSource s; sourceCollapsed := negb (sourceCollapsed s);
    editSourceCode := editSourceCode s; detailsCollapsed := detailsCollapsed s |}).
Definition toggleDetailsCollapsed : M machine unit :=
  set_source (λ s, {| sourceCode := sourceCode s; sourceLoading := sourceLoading s;
    showSource := showSource s; sourceCollapsed := sourceCollapsed s;
    editSourceCode := editSourceCode s; detailsCollapsed := negb (detailsCollapsed s) |}).
Definition setEditSourceCode (code : option string) : M machine unit :=
  set_source (λ s, {| sourceCode := sourceCode s; sourceLoading := sourceLoading s;
    showSource := showSource s; sourceCollapsed := sourceCollapsed s;
    editSourceCode := code; detailsCollapsed := detailsCollapsed s |}).

Definition with_view (f : ViewState → ViewState) : M machine unit :=
  set_canvas (λ s, {| view := f (view s); selectedNodeId := selectedNodeId s;
    hoveredNodeId := hoveredNodeId s; expandedFragments := expandedFragments s;
    autoCollapseThreshold := autoCollapseThreshold s |}).

(** [{ ...view, ...partial }] *)
Definition setView (x' y' scale' : option number) : M machine unit :=
  with_view (λ v, {| view_x := default (view_x v) x'; view_y := default (view_y v) y';
                     view_scale := default (view_scale v) scale' |}).
Definition resetView : M machine unit := with_view (λ _, initialView).

(** The view that fits the nodes into the canvas. *)
Definition fitted (nodes : list VisNode) (canvasWidth canvasHeight : number) : ViewState :=
  let minX := foldl num_min (Infinity false) (map x nodes) in
  let maxX := foldl num_max (Infinity true) (map (λ n, num_add (x n) (width n)) nodes) in
  let minY := foldl num_min (Infinity false) (map y nodes) in
  let maxY := foldl num_max (Infinity true) (map (λ n, num_add (y n) (height n)) nodes) in
  let graphWidth := num_sub maxX minX in
  let graphHeight := num_sub maxY minY in
  let padding := num 60 in
  let scaleX := num_div (num_sub canvasWidth (num_mul padding (num 2))) graphWidth in
  let scaleY := num_div (num_sub canvasHeight (num_mul padding (num 2))) graphHeight in
  let scale := num_min (num_min scaleX scaleY) (num 2) in
  let centerX := num_div (num_add minX maxX) (num 2) in
  let centerY := num_div (num_add minY maxY) (num 2) in
  {| view_x := num_sub (num_div canvasWidth (num 2)) (num_mul centerX scale);
     view_y := num_sub (num_div canvasHeight (num 2)) (num_mul centerY scale);
     view_scale := scale |}.

Definition fitToView (canvasWidth canvasHeight : number) : M machine unit :=
  m ← get;
  match graph (st_plan (store m)) with
  | None => mret tt
  | Some g =>
      match map snd (vis_nodes g) with
      | [] => mret tt
      | nodes => with_view (λ _, fitted nodes canvasWidth canvasHeight)
      end
  end.

Definition selectNode (nodeId : value) : M machine unit :=
  set_canvas (λ s, {| view := view s; selectedNodeId := nodeId; hoveredNodeId := hoveredNodeId s;
    expandedFragments := expandedFragments s; autoCollapseThreshold := autoCollapseThreshold s |}).
Definition hoverNode (nodeId : value) : M machine unit :=
  set_canvas (λ s, {| view := view s; selectedNodeId := selectedNodeId s; hoveredNodeId := nodeId;
    expandedFragments := expandedFragments s; autoCollapseThreshold := autoCollapseThreshold s |}).

(** ** Fragments *)

Definition countVisibleNodes (graph : VisGraph) (expanded : list string) : nat :=
  length (vis_nodes graph).

(** The loop that collapses the oldest fragments: [iterator] is what is left to visit. *)
Fixpoint collapse_oldest (graph : VisGraph) (threshold : nat) (fragmentId : string)
    (iterator newExpanded : list string) : list string :=
  if threshold <? countVisibleNodes graph newExpanded then
    match iterator with
    | oldest :: rest =>
        if negb (String.eqb oldest EmptyString) && negb (String.eqb oldest fragmentId)
        then collapse_oldest graph threshold fragmentId rest (filter (λ f, f ≠ oldest) newExpanded)
        else newExpanded
    | [] => newExpanded
    end
  else newExpanded.

Definition toggled (expanded : list string) (graph : option VisGraph) (threshold : nat)
    (fragmentId : string) : list string :=
  if string_set_has expanded fragmentId then filter (λ f, f ≠ fragmentId) expanded
  else
    let newExpanded := string_set_add expanded fragmentId in
    match graph with
    | Some g =>
        if threshold <? countVisibleNodes g newExpanded
        then collapse_oldest g threshold fragmentId newExpanded newExpanded else newExpanded
    | None => newExpanded
    end.

Definition toggleFragment (fragmentId : string) : M machine unit :=
  m ← get;
  let c := st_canvas (store m) in
  let newExpanded :=
    toggled (expandedFragments c) (graph (st_plan (store m))) (autoCollapseThreshold c) fragmentId in
  set_canvas (λ s, {| view := view s; selectedNodeId := selectedNodeId s;
    hoveredNodeId := hoveredNodeId s; expandedFragments := newExpanded;
    autoCollapseThreshold := autoCollapseThreshold s |}).

(** ** Registries *)

Definition loadRegistries (a : awaiter) : M machine unit :=
  set_registry (λ s, {| registries := registries s; registriesLoading := true;
    registriesError := None; selectedRegistryTab := selectedRegistryTab s;
    registrySearchQuery := registrySearchQuery s; selectedRegistryEntry := selectedRegistryEntry s;
    selectedEndpointEnv := selectedEndpointEnv s |}) ;;
  start (RegistriesRequest a).

Definition registry_files : list (string * string) :=
  [("keys", "entries"); ("params", "entries"); ("features", "entries");
   ("capabilities", "entries"); ("tasks", "tasks"); ("endpoints.dev", "endpoints");
   ("endpoints.test", "endpoints"); ("endpoints.prod", "endpoints")].

(** [Promise.all]: one request without response rejects them all. *)
Definition no_rejection (r : response) : result unit :=
  match r with Rejected message => Throw (Error message) | _ => Ok tt end.
Definition status_ok (fr : (string * string) * response) : result unit :=
  match fr.2 with
  | HttpError status => Throw (Error ("Failed to fetch " +:+ fr.1.1 +:+ ": " +:+ pretty status))
  | _ => Ok tt
  end.

Fixpoint collect {A B} (f : A → result B) (l : list A) : result (list B) :=
  match l with
  | [] => Ok []
  | x :: l' => y ← f x; ys ← collect f l'; Ok (y :: ys)
  end.

Definition registries_of (rs : list response) : result RegistryData :=
  for_each no_rejection rs ;;
  for_each status_ok (zip registry_files rs) ;;
  datas ← collect (response_json EmptyString) rs;
  fields ← collect (λ fd : (string * string) * value, get_prop fd.2 fd.1.2) (zip registry_files datas);
  match fields with
  | [k; p; f; c; t; ed; et; ep] =>
      Ok {| keys_ := k; params_ := p; features_ := f; capabilities_ := c; tasks_ := t;
            endpoints_dev := ed; endpoints_test := et; endpoints_prod := ep |}
  | _ => Throw TypeError
  end.

Definition registries_arrive (rs : list response) (a : awaiter) : M machine unit :=
  try_catch
    (d ← lift (registries_of rs);
     set_registry (λ s, {| registries := Some d; registriesLoading := false;
       registriesError := registriesError s; selectedRegistryTab := selectedRegistryTab s;
       registrySearchQuery := registrySearchQuery s;
       selectedRegistryEntry := selectedRegistryEntry s;
       selectedEndpointEnv := selectedEndpointEnv s |}))
    (λ e, set_registry (λ s, {| registries := registries s; registriesLoading := false;
       registriesError := Some (message_of e); selectedRegistryTab := selectedRegistryTab s;
       registrySearchQuery := registrySearchQuery s;
       selectedRegistryEntry := selectedRegistryEntry s;
       selectedEndpointEnv := selectedEndpointEnv s |})) ;;
  resume a.

(** What the view of the registries selects. *)
Definition select_registry (f : value → value) (g : string → string) (h : value → value)
    : M machine unit :=
  set_registry (λ s, {| registries := registries s; registriesLoading := registriesLoading s;
    registriesError := registriesError s; selectedRegistryTab := f (selectedRegistryTab s);
    registrySearchQuery := g (registrySearchQuery s);
    selectedRegistryEntry := h (selectedRegistryEntry s);
    selectedEndpointEnv := selectedEndpointEnv s |}).

Definition setRegistryTab (tab : string) : M machine unit :=
  select_registry (λ _, VString tab) (λ q, q) (λ _, VNull) ;;
  unless_popstate
    (pushState [("view", VString "registries"); ("tab", VString tab)]
      (Changed [SetParam "view" "registries"; SetParam "tab" tab; DeleteParam "selected"])).

Definition setRegistrySearchQuery (query : string) : M machine unit :=
  select_registry (λ t, t) (λ _, query) (λ e, e).

(** The entry pushed for a selected registry entry. *)
Definition push_selected (tab entry : value) : M machine unit :=
  t ← lift (template tab);
  i ← lift (template entry);
  pushState [("view", VString "registries"); ("tab", tab); ("selected", entry)]
    (Changed [SetParam "view" "registries"; SetParam "tab" t; SetParam "selected" i]).

Definition setSelectedRegistryEntry (entry : value) : M machine unit :=
  select_registry (λ t, t) (λ q, q) (λ _, entry) ;;
  if is_null entry then mret tt
  else
    unless_popstate
      (m ← get; push_selected (selectedRegistryTab (st_registry (store m))) entry).

Definition navigateToRegistryEntry (tab : string) (entry : value) : M machine unit :=
  select_registry (λ _, VString tab) (λ _, EmptyString) (λ _, entry) ;;
  unless_popstate (push_selected (VString tab) entry).

Definition setSelectedEndpointEnv (env : string) : M machine unit :=
  set_registry (λ s, {| registries := registries s; registriesLoading := registriesLoading s;
    registriesError := registriesError s; selectedRegistryTab := selectedRegistryTab s;
    registrySearchQuery := registrySearchQuery s; selectedRegistryEntry := VNull;
    selectedEndpointEnv := env |}).

(** ** Browser history *)

(** [v || w] *)
Definition js_or (v w : value) : value := if truthy v then v else w.
(** What [params.get(k)] gives. *)
Definition or_null (s : option string) : value :=
  match s with Some s => VString s | None => VNull end.
Definition param (get : string → option string) (k : string) : value := or_null (get k).

(** [selected ? (isNaN(Number(selected)) ? selected : Number(selected)) : null] *)
Definition entry_of (selected : value) : result value :=
  if truthy selected then
    n ← ToNumber selected; Ok (if isNaN n then selected else VNumber n)
  else Ok VNull.

Definition show_registry (tab selected : value) : M machine unit :=
  entry ← lift (entry_of selected);
  select_registry (λ _, tab) (λ q, q) (λ _, entry).

(** The [popstate] handler up to its first [await], if it reaches one; its [finally]
    lowers the flag otherwise. *)
Definition handle_popstate (e : popstate) : M machine unit :=
  set_flag true ;;
  m ← get;
  let get := param (url_param e) in
  if strict_equal (js_or (state_view e) (get "view")) (VString "registries") then
    let tab := js_or (js_or (state_tab e) (get "tab")) (VString "keys") in
    let selected := js_or (state_selected e) (get "selected") in
    clearPlan ;;
    match registries (st_registry (store m)) with
    | None => loadRegistries (PopRegistries tab selected)
    | Some _ => finally (show_registry tab selected) (set_flag false)
    end
  else
    let planName := js_or (state_plan e) (get "plan") in
    if truthy planName then loadPlanByName planName PopPlan
    else finally clearPlan (set_flag false).

(** What the awaiter of an action does when its promise is fulfilled. *)
Definition continue (a : awaiter) : M machine unit :=
  match a with
  | Nobody => mret tt
  | PopPlan => set_flag false
  | PopRegistries tab selected => finally (show_registry tab selected) (set_flag false)
  | InitRegistries tab selected => show_registry tab (or_null selected) ;; set_flag false
  | InitIndex planName => set_flag true ;; loadPlanByName (VString planName) InitPlan
  | InitPlan => set_flag false
  end.

Definition initHistory (params : string → option string) : M machine unit :=
  if strict_equal (param params "view") (VString "registries") then
    set_flag true ;;
    loadRegistries (InitRegistries (js_or (param params "tab") (VString "keys")) (params "selected"))
  else
    match params "plan" with
    | Some (String c r) => loadIndex (InitIndex (String c r))
    | _ => mret tt
    end.

(** ** Events *)

Inductive action :=
| LoadIndex
| LoadPlanByName (name : value)
| LoadPlan (json fileName : value) (skipHistory : bool)
| ClearPlan
| ToggleSource
| ToggleSourceCollapsed
| ToggleDetailsCollapsed
| SetEditSourceCode (code : option string)
| LoadSource (planName : value)
| SetView (x y scale : option number)
| ResetView
| FitToView (canvasWidth canvasHeight : number)
| SelectNode (nodeId : value)
| HoverNode (nodeId : value)
| ToggleFragment (fragmentId : string)
| LoadRegistries
| SetRegistryTab (tab : string)
| SetRegistrySearchQuery (query : string)
| SetSelectedRegistryEntry (entry : value)
| NavigateToRegistryEntry (tab : string) (entry : value)
| SetSelectedEndpointEnv (env : string).

Definition call (a : action) : M machine unit :=
  match a with
  | LoadIndex => loadIndex Nobody
  | LoadPlanByName name => loadPlanByName name Nobody
  | LoadPlan json fileName skipHistory => loadPlan json fileName skipHistory
  | ClearPlan => clearPlan
  | ToggleSource => toggleSource
  | ToggleSourceCollapsed => toggleSourceCollapsed
  | ToggleDetailsCollapsed => toggleDetailsCollapsed
  | SetEditSourceCode code => setEditSourceCode code
  | LoadSource planName => loadSource planName
  | SetView x y scale => setView x y scale
  | ResetView => resetView
  | FitToView w h => fitToView w h
  | SelectNode nodeId => selectNode nodeId
  | HoverNode nodeId => hoverNode nodeId
  | ToggleFragment fragmentId => toggleFragment fragmentId
  | LoadRegistries => loadRegistries Nobody
  | SetRegistryTab tab => setRegistryTab tab
  | SetRegistrySearchQuery query => setRegistrySearchQuery query
  | SetSelectedRegistryEntry entry => setSelectedRegistryEntry entry
  | NavigateToRegistryEntry tab entry => navigateToRegistryEntry tab entry
  | SetSelectedEndpointEnv env => setSelectedEndpointEnv env
  end.

(** The operation that a response, or eight for the registries, or a turn of the event
    loop completes. *)
Definition complete (op : operation) (rs : list response) : M machine unit :=
  match op, rs with
  | IndexRequest a, [r] => index_arrives r a
  | PlanRequest name path a, [r] => plan_arrives name path r a
  | SourceRequest _, [r] => source_arrives r
  | RegistriesRequest a, _ => if length rs =? 8 then registries_arrive rs a else start op
  | Resume a, _ => continue a
  | _, _ => start op
  end.

(** Whether [rs] are responses to the operation. *)
Definition answers (op : operation) (rs : list response) : bool :=
  match op with
  | RegistriesRequest _ => length rs =? 8
  | Resume _ => true
  | _ => length rs =? 1
  end.

Inductive event :=
| Call (a : action)
| Arrive (i : nat) (rs : list response)
| Pop (e : popstate).

Definition run_event (ev : event) : M machine unit :=
  match ev with
  | Call a => call a
  | Arrive i rs =>
      m ← get;
      match pending m !! i with
      | None => mret tt
      | Some op =>
          modify (with_pending (list_delete i (pending m))) ;;
          complete op rs
      end
  | Pop e => handle_popstate e
  end.

(** What an event leaves behind, whether or not its code threw. *)
Definition step (m : machine) (ev : event) : machine := (run_event ev m).2.

Definition initial (params : string → option string) : machine :=
  (initHistory params
    {| store := initialStore; isHandlingPopState := false; history := []; pending := [] |}).2.

(** ** Every run *)

(** The machines of the application, opened at an address with these parameters, under
    events that are [ok]. *)
Inductive reachable (ok : event → Prop) (params : string → option string) : machine → Prop :=
| reachable_initial : reachable ok params (initial params)
| reachable_step m ev : reachable ok params m → ok ev → reachable ok params (step m ev).

Lemma reachable_invariant (ok : event → Prop) params (P : machine → Prop) :
  P (initial params) → (∀ m ev, ok ev → P m → P (step m ev)) → ∀ m, reachable ok params m → P m.
Proof. intros Hi Hs m. induction 1; auto. Qed.

(** ** The graph on screen is the plan's *)

Definition laid_out (json : value) (g : VisGraph) : Prop :=
  (parsed ← parsePlan json; layoutGraph dagre default_options parsed) = Ok g.

(** The graph is the plan's, and there is none without a plan. *)
Definition displayed (m : machine) : Prop :=
  let s := st_plan (store m) in
  match graph s with
  | None => planJson s = VNull ∧ fileName s = VNull
  | Some g => laid_out (planJson s) g
  end.

(** What an event may put on the screen, and under which file name: what a component gives
    to [loadPlan], or the response to a plan's request under the path requested. *)
Definition opens (m : machine) (ev : event) (json file : value) : Prop :=
  match ev with
  | Call (LoadPlan j f _) => json = j ∧ file = f
  | Arrive i rs => rs = [Body json] ∧ ∃ name a, pending m !! i = Some (PlanRequest name file a)
  | _ => False
  end.

(** The plan shown was opened, with its file name, in a state of the run. *)
Section shown.
Context (opened : value → value → Prop).
Definition shown (m : machine) : Prop :=
  let s := st_plan (store m) in
  match graph s with
  | None => planJson s = VNull ∧ fileName s = VNull
  | Some g => laid_out (planJson s) g ∧ opened (planJson s) (fileName s)
  end.

Lemma resume_shown a : keeps shown (resume a) ∧ keeps shown (reject a).
Proof. split; destruct a; unfold resume, reject, start; keeps_all. Qed.

Lemma loadPlan_shown json file skip : opened json file → keeps shown (loadPlan json file skip).
Proof.
  intros Ho. unfold loadPlan, unless_popstate, pushState, set_canvas, set_plan.
  apply keeps_lift. intros parsed Hp. apply keeps_lift. intros g Hg.
  apply keeps_bind; [|intros []; keeps_all].
  intros m _. unfold shown, laid_out, modify. cbn. by rewrite Hp.
Qed.

Lemma clearPlan_shown : keeps shown clearPlan.
Proof.
  unfold clearPlan, unless_popstate, pushState, set_canvas, set_source.
  apply keeps_bind; [by intros m _|intros []; keeps_all].
Qed.

Lemma loadPlanByName_shown name a : keeps shown (loadPlanByName name a).
Proof.
  destruct (resume_shown a) as [??].
  unfold loadPlanByName, set_plan_status, set_plan, start. keeps_all.
Qed.

Lemma loadRegistries_shown a : keeps shown (loadRegistries a).
Proof. unfold loadRegistries, set_registry, start. keeps_all. Qed.

Lemma show_registry_shown tab selected : keeps shown (show_registry tab selected).
Proof. unfold show_registry, select_registry, set_registry. keeps_all. Qed.

Lemma call_shown a : (∀ json file skip, a = LoadPlan json file skip → opened json file) → keeps shown (call a).
Proof.
  intros Ho. destruct a; cbn [call]; try (by eapply loadPlan_shown, Ho); try apply clearPlan_shown;
    try apply loadPlanByName_shown; try apply loadRegistries_shown.
  all: unfold loadIndex, loadSource, toggleSource, toggleSourceCollapsed, toggleDetailsCollapsed,
    setEditSourceCode, setView, resetView, fitToView, with_view, selectNode, hoverNode,
    toggleFragment, setRegistryTab, setRegistrySearchQuery, setSelectedRegistryEntry,
    navigateToRegistryEntry, setSelectedEndpointEnv, push_selected, select_registry,
    unless_popstate, pushState, set_index, set_source, set_canvas, set_registry, start; keeps_all.
Qed.

Lemma complete_shown op rs :
  (∀ name path a json, op = PlanRequest name path a → rs = [Body json] → opened json path) →
  keeps shown (complete op rs).
Proof.
  intros Ho.
  assert (∀ a, keeps shown (continue a)) as Hc.
  { intros a. destruct a; cbn [continue]; unfold set_flag; keeps_all;
      try apply show_registry_shown; try apply loadPlanByName_shown. }
  pose proof (λ a, proj1 (resume_shown a)) as Hr.
  assert (∀ op, keeps shown (start op)) by (intros ?; unfold start; keeps_all).
  assert (∀ name path a r, op = PlanRequest name path a → rs = [r] → keeps shown (plan_arrives name path r a)) as Hplan.
  { intros name path a r -> ->. unfold plan_arrives, loadSource, set_plan_status, set_plan, set_source.
    apply keeps_bind; [|intros ?; apply Hr]. apply keeps_try; [|intros ?; keeps_all].
    apply keeps_lift. intros json Hj. destruct r; try done. injection Hj as ->.
    apply keeps_bind; [by eapply loadPlan_shown, Ho|intros ?; keeps_all]. }
  destruct op; destruct rs as [|r [|? ?]]; cbn [complete]; try done; try (by apply Hplan);
    unfold index_arrives, source_arrives, registries_arrive, loadSource,
      set_plan_status, set_index, set_plan, set_source, set_registry; keeps_all.
Qed.

Lemma step_displays m ev : (∀ json file, opens m ev json file → opened json file) → shown m → shown (step m ev).
Proof.
  intros Ho. destruct ev as [a|i rs|e]; unfold step; cbn [run_event].
  - apply call_shown. intros json file skip ->. by apply Ho.
  - cbv [mbind M_bind get]. destruct (pending m !! i) as [op|] eqn:Hop; [|done]. intros Hm.
    apply (complete_shown op rs); [|exact Hm]. intros name path a json -> ->. apply Ho. cbn. eauto.
  - pose proof clearPlan_shown. pose proof loadRegistries_shown. pose proof show_registry_shown.
    pose proof loadPlanByName_shown.
    assert (keeps shown (handle_popstate e)) as H'; [|apply H'].
    unfold handle_popstate, set_flag; keeps_all.
Qed.

Lemma initial_shown params : shown (initial params).
Proof.
  assert (keeps shown (initHistory params)) as H; [|by apply H].
  pose proof loadRegistries_shown.
  unfold initHistory, set_flag, loadIndex, set_index, start. keeps_all.
Qed.
End shown.


(** ** Whatever is loading has a request under way *)

Inductive kind := KIndex | KPlan | KSource | KRegistries | KFlag.
#[local] Instance kind_eq_dec : EqDecision kind.
Proof. solve_decision. Defined.

(** The flags that tell of something under way. *)
Definition raised (m : machine) (k : kind) : bool :=
  match k with
  | KIndex => indexLoading (st_index (store m))
  | KPlan => planLoading (st_plan (store m))
  | KSource => sourceLoading (st_source (store m))
  | KRegistries => registriesLoading (st_registry (store m))
  | KFlag => isHandlingPopState m
  end.

(** The flags an operation lowers, itself or through its awaiter. *)
Definition awaiter_lowers (a : awaiter) : list kind :=
  match a with Nobody | InitIndex _ => [] | _ => [KFlag] end.
Definition lowers (op : operation) : list kind :=
  match op with
  | IndexRequest a => KIndex :: awaiter_lowers a
  | PlanRequest _ _ a => KPlan :: awaiter_lowers a
  | SourceRequest _ => [KSource]
  | RegistriesRequest a => KRegistries :: awaiter_lowers a
  | Resume a => awaiter_lowers a
  end.

(** [indexed] says that every plan name can be looked up in the indexes that arrive.
    Whether a [popstate] stays marked as being handled depends on it, the rest does not. *)
Section busy.
Context (indexed : bool).
Definition tracked (k : kind) : Prop := k = KFlag → indexed = true.

(** Every raised flag is among [K] or will be lowered by a pending operation; every plan
    name can be looked up in the index. *)
Definition busy (K : list kind) (m : machine) : Prop :=
  (∀ k, tracked k → raised m k = true → k ∈ K ∨ ∃ op, op ∈ pending m ∧ k ∈ lowers op) ∧
  (indexed = true → ∀ name, ∃ e, find_plan (planIndex (st_index (store m))) name = Ok e).

Lemma busy_weaken K K' m : busy K m → K ⊆ K' → busy K' m.
Proof.
  intros [H ?] HK. split; [|done]. intros k Ht Hk. destruct (H k Ht Hk); [left; set_solver|by right].
Qed.

Lemma busy_start K op m : busy (lowers op ++ K) m → busy K (with_pending (pending m ++ [op]) m).
Proof.
  intros [H Hi]. split; [|done]. intros k Ht Hk. cbn [pending with_pending].
  destruct (H k Ht Hk) as [[Hop|HK]%elem_of_app|(op' & Hop & Hl)]; [|by left|].
  - right. exists op. set_solver.
  - right. exists op'. set_solver.
Qed.

(** An update of the store or the flag that leaves the index and the pending operations. *)
Lemma busy_update K K' m m' :
  busy K m → pending m' = pending m → planIndex (st_index (store m')) = planIndex (st_index (store m)) →
  (∀ k, raised m' k = true → k ∈ K' ∨ raised m k = true ∧ (k ∈ K → k ∈ K')) → busy K' m'.
Proof.
  intros [H Hi] Hp Hx Hr. split; [|by rewrite Hx]. rewrite Hp. intros k Ht Hk.
  destruct (Hr k Hk) as [?|[Hm HK]]; [by left|]. destruct (H k Ht Hm); [left; auto|by right].
Qed.

Lemma hoare_keeps {A} (c : M machine A) P : keeps P c → hoare P c (λ _, P) P.
Proof. intros Hc m Hm. specialize (Hc m Hm). by destruct (c m) as [[]]. Qed.

Lemma hoare_modify P (Q : unit → machine → Prop) E f :
  (∀ m, P m → Q tt (f m)) → hoare P (modify f) Q E.
Proof. intros H m Hm. by apply H. Qed.

Lemma hoare_get {B} P (f : machine → M machine B) Q E :
  (∀ m, hoare P (f m) Q E) → hoare P (get ≫= f) Q E.
Proof. intros H m Hm. by apply (H m m). Qed.

Lemma hoare_try {A} (c : M machine A) h P Q E E' :
  hoare P c Q E → (∀ e, hoare E (h e) Q E') → hoare P (try_catch c h) Q E'.
Proof.
  intros Hc Hh m Hm. specialize (Hc m Hm). unfold try_catch. destruct (c m) as [[a|e] m']; [done|].
  by apply Hh.
Qed.

(** Both outcomes alike. *)
Definition leads (P Q : machine → Prop) {A} (c : M machine A) : Prop := hoare P c (λ _, Q) Q.

Lemma leads_bind {A B} (c : M machine A) (f : A → M machine B) P R Q :
  hoare P c (λ _, R) Q → (∀ a, leads R Q (f a)) → leads P Q (c ≫= f).
Proof. intros Hc Hf. by eapply hoare_bind. Qed.

Lemma start_leads K op : hoare (busy (lowers op ++ K)) (start op) (λ _, busy K) (λ _, False).
Proof. apply hoare_modify. apply busy_start. Qed.

Lemma resume_leads K a : hoare (busy (awaiter_lowers a ++ K)) (resume a) (λ _, busy K) (λ _, False).
Proof.
  destruct a; cbn [resume]; try exact (start_leads K (Resume _)).
  apply hoare_ret. done.
Qed.

Lemma lowered K k m m' :
  busy (k :: K) m → pending m' = pending m →
  planIndex (st_index (store m')) = planIndex (st_index (store m)) → raised m' k = false →
  (∀ j, j ≠ k → raised m' j = raised m j) → busy K m'.
Proof.
  intros H Hp Hx Hk Hj. eapply busy_update; [done..|]. intros j Hr.
  destruct (decide (j = k)) as [->|Hne]; [congruence|]. right. rewrite <-Hj by done. set_solver.
Qed.
Ltac lower k := eapply (lowered _ k); [eassumption|done..|by intros [] ?].

(** Raising a flag before starting the operation that lowers it. *)
Lemma raised_busy K k m m' :
  busy K m → pending m' = pending m →
  planIndex (st_index (store m')) = planIndex (st_index (store m)) →
  (∀ j, j ≠ k → raised m' j = raised m j) → busy (k :: K) m'.
Proof.
  intros H Hp Hx Hj. eapply busy_update; [done..|]. intros j Hr.
  destruct (decide (j = k)) as [->|Hne]; [left; set_solver|]. right. rewrite <-Hj by done. set_solver.
Qed.
Ltac raise k := eapply (raised_busy _ k); [eassumption|done..|by intros [] ?].

(** Responses to an index request in which every plan name can be looked up, when that is
    what is asked of them. *)
Definition index_ok (r : response) : Prop :=
  indexed = true → ∀ data plans name, r = Body data → get_prop data "plans" = Ok plans →
    ∃ e, find_plan plans name = Ok e.

Lemma settled K a (c : M machine unit) P :
  hoare P c (λ _, busy (awaiter_lowers a ++ K)) (λ _, False) →
  hoare P (c ;; resume a) (λ _, busy K) (λ _, False).
Proof. intros Hc. eapply hoare_bind; [exact Hc|]. intros ?. apply resume_leads. Qed.

Lemma lift_leads {A B} (r : result A) (f : A → M machine B) P Q :
  (∀ a, r = Ok a → hoare P (f a) Q P) → hoare P (lift r ≫= f) Q P.
Proof. intros H. by apply hoare_lift_bind. Qed.

Lemma index_arrives_busy r a :
  index_ok r →
  hoare (busy (lowers (IndexRequest a))) (index_arrives r a) (λ _, busy []) (λ _, False).
Proof.
  intros Hr. apply settled. rewrite app_nil_r. eapply hoare_try.
  - apply lift_leads. intros data Hd. apply lift_leads. intros plans Hp.
    apply hoare_modify. intros m Hm. cbn [lowers] in Hm.
    assert (busy (awaiter_lowers a) (with_store (λ s, {|
      st_index := {| planIndex := planIndex (st_index s); indexLoading := false;
                     indexError := indexError (st_index s) |};
      st_plan := st_plan s; st_source := st_source s; st_canvas := st_canvas s;
      st_registry := st_registry s |}) m)) as [H _] by lower KIndex.
    split; [exact H|]. intros Hx name. destruct r; try done. injection Hd as ->. by eapply Hr.
  - intros e. apply hoare_modify. intros m Hm. cbn [lowers] in Hm. lower KIndex.
Qed.

Lemma source_arrives_busy r name :
  hoare (busy (lowers (SourceRequest name))) (source_arrives r) (λ _, busy []) (λ _, False).
Proof. apply hoare_modify. intros m Hm. cbn [lowers] in Hm. lower KSource. Qed.

Lemma registries_arrive_busy rs a :
  hoare (busy (lowers (RegistriesRequest a))) (registries_arrive rs a) (λ _, busy []) (λ _, False).
Proof.
  apply settled. rewrite app_nil_r. eapply hoare_try.
  - apply lift_leads. intros d _. apply hoare_modify. intros m Hm. cbn [lowers] in Hm.
    lower KRegistries.
  - intros e. apply hoare_modify. intros m Hm. cbn [lowers] in Hm. lower KRegistries.
Qed.

(** Updates of the store that raise and lower nothing. *)
Lemma quiet_modify K f :
  (∀ m, raised (f m) = raised m ∧ pending (f m) = pending m ∧
    planIndex (st_index (store (f m))) = planIndex (st_index (store m))) →
  keeps (busy K) (modify f).
Proof.
  intros Hf. apply keeps_modify. intros m Hm. destruct (Hf m) as (Hr & Hp & Hx).
  eapply busy_update; [done..|]. intros k Hk. right. by rewrite <-Hr.
Qed.

Lemma loadPlan_busy K json file skip : keeps (busy K) (loadPlan json file skip).
Proof. unfold loadPlan, unless_popstate, pushState, set_canvas, set_plan. keeps_all. Qed.

Lemma clearPlan_busy K : keeps (busy K) clearPlan.
Proof. unfold clearPlan, unless_popstate, pushState, set_canvas, set_source, set_plan. keeps_all. Qed.

Lemma loadSource_busy K name : hoare (busy K) (loadSource name) (λ _, busy K) (λ _, False).
Proof.
  eapply (hoare_bind _ _ _ (λ _, busy (KSource :: K))); [|intros ?; apply (start_leads K (SourceRequest name))].
  apply hoare_modify. intros m Hm. raise KSource.
Qed.

Lemma loadIndex_busy K a :
  hoare (busy (awaiter_lowers a ++ K)) (loadIndex a) (λ _, busy K) (λ _, False).
Proof.
  eapply (hoare_bind _ _ _ (λ _, busy (KIndex :: awaiter_lowers a ++ K)));
    [|intros ?; apply (start_leads K (IndexRequest a))].
  apply hoare_modify. intros m Hm. raise KIndex.
Qed.

Lemma loadRegistries_busy K a :
  hoare (busy (awaiter_lowers a ++ K)) (loadRegistries a) (λ _, busy K) (λ _, False).
Proof.
  eapply (hoare_bind _ _ _ (λ _, busy (KRegistries :: awaiter_lowers a ++ K)));
    [|intros ?; apply (start_leads K (RegistriesRequest a))].
  apply hoare_modify. intros m Hm. raise KRegistries.
Qed.

Lemma plan_arrives_busy name path r a :
  hoare (busy (lowers (PlanRequest name path a))) (plan_arrives name path r a)
    (λ _, busy []) (λ _, False).
Proof.
  apply settled. rewrite app_nil_r. eapply (hoare_try _ _ _ _ (busy (lowers (PlanRequest name path a)))).
  - apply lift_leads. intros json _.
    eapply hoare_bind; [apply hoare_keeps, loadPlan_busy|]. intros ?. apply hoare_get. intros m0.
    eapply (hoare_bind _ _ _ (λ _, busy (awaiter_lowers a))).
    + apply hoare_modify. intros m Hm. cbn [lowers] in Hm. lower KPlan.
    + intros ?. eapply hoare_weaken; [apply loadSource_busy|done..].
  - intros e. apply hoare_modify. intros m Hm. cbn [lowers] in Hm. lower KPlan.
Qed.

(** An index in which a name cannot be looked up, and an awaiter that is not resumed. *)
Lemma find_fails K m name x : busy K m → find_plan (planIndex (st_index (store m))) name = Throw x → indexed = false.
Proof.
  intros [_ Hi] Hx. destruct indexed; [|done]. destruct (Hi eq_refl name) as [e He]. congruence.
Qed.
Lemma reject_busy K a m :
  indexed = false → busy (awaiter_lowers a ++ K) m →
  match reject a m with (Ok _, m') => busy K m' | (Throw _, _) => False end.
Proof.
  intros Hx Hm. assert (a = PopPlan ∨ reject a m = (Ok tt, m)) as [->| ->] by (destruct a; auto).
  { by apply (start_leads K (Resume PopPlan)). }
  destruct Hm as [H Hi]. split; [|done]. intros k Ht Hk. destruct (H k Ht Hk) as [[Hf|?]%elem_of_app|?]; [|by left|by right].
  exfalso. assert (k = KFlag) as -> by (destruct a; set_solver). by specialize (Ht eq_refl); rewrite Hx in Ht.
Qed.

Lemma loadPlanByName_busy K name a :
  (∃ t, template name = Ok t) ∨ a = PopPlan ∨ a = Nobody →
  hoare (busy (awaiter_lowers a ++ K)) (loadPlanByName name a) (λ _, busy K) (λ _, False).
Proof.
  intros Ha m Hb. unfold loadPlanByName. cbv [mbind M_bind get].
  destruct (find_plan _ name) as [entry|x] eqn:Hfind; [|by apply reject_busy; [apply (find_fails _ _ _ _ Hb Hfind)|]].
  clear Hfind.
  destruct (truthy entry); cbn [negb].
  - assert (busy (KPlan :: awaiter_lowers a ++ K) (set_plan_status true None m).2) as H1 by raise KPlan.
    set (m1 := (set_plan_status true None m).2) in *. change (set_plan_status true None m) with (@Ok unit tt, m1).
    cbv beta iota. apply (hoare_try _ _ (busy (KPlan :: awaiter_lowers a ++ K)) (λ _, busy K)
      (busy (KPlan :: awaiter_lowers a ++ K)) (λ _, False)); [| |exact H1].
    + apply lift_leads. intros path _. apply lift_leads. intros t _.
      eapply hoare_weaken; [apply (start_leads K (PlanRequest name path a))|done..].
    + intros e. apply settled. apply hoare_modify. intros m' Hm'. lower KPlan.
  - destruct (template name) as [t|e].
    + apply (settled K a _ (λ m', m' = m)); [|done].
      apply hoare_modify. intros m' ->. eapply busy_update; [exact Hb|done..|].
      intros k Hk. right. split; [|done]. by destruct k.
    + destruct Ha as [[t [=]]|[->| ->]]; [|by apply Hb].
      by apply (start_leads K (Resume PopPlan)).
Qed.

Lemma show_registry_busy K tab selected : keeps (busy K) (show_registry tab selected).
Proof. unfold show_registry, select_registry, set_registry. keeps_all. Qed.

Lemma lower_flag K : hoare (busy (KFlag :: K)) (set_flag false) (λ _, busy K) (λ _, False).
Proof. apply hoare_modify. intros m Hm. lower KFlag. Qed.

Lemma raise_flag K : hoare (busy K) (set_flag true) (λ _, busy (KFlag :: K)) (λ _, False).
Proof. apply hoare_modify. intros m Hm. raise KFlag. Qed.

Lemma finally_lowers K {A} (c : M machine A) :
  keeps (busy (KFlag :: K)) c → leads (busy (KFlag :: K)) (busy K) (finally c (set_flag false)).
Proof.
  intros Hc m Hm. specialize (Hc m Hm). unfold finally. destruct (c m) as [[a|e] m'];
    pose proof (lower_flag K m' Hc) as H; destruct (set_flag false m') as [[]]; done.
Qed.

Lemma shown_unset tab selected : ∃ u, ∀ m, (show_registry tab (or_null selected) m).1 = Ok u.
Proof.
  exists tt. intros m. unfold show_registry, entry_of. destruct selected as [t|]; cbn [or_null].
  - by destruct (truthy (VString t)).
  - done.
Qed.

Lemma continue_busy a : leads (busy (lowers (Resume a))) (busy []) (continue a).
Proof.
  assert (∀ P Q A (c : M machine A), hoare P c (λ _, Q) (λ _, False) → leads P Q c) as weak.
  { intros P Q A c H. eapply hoare_weaken; [exact H|done..]. }
  destruct a; cbn [lowers awaiter_lowers continue].
  - by apply hoare_ret.
  - apply weak, lower_flag.
  - apply finally_lowers, show_registry_busy.
  - intros m Hm. pose proof (show_registry_busy _ tab (or_null selected) m Hm) as H.
    destruct (shown_unset tab selected) as [u Hu]. specialize (Hu m).
    cbv [mbind M_bind]. destruct (show_registry _ _ m) as [[]]; [|done].
    by apply weak with (c := set_flag false) (P := busy [KFlag]); [apply lower_flag|].
  - apply weak. eapply hoare_bind; [apply (raise_flag [])|]. intros ?.
    eapply hoare_weaken; [apply (loadPlanByName_busy []); left; by eexists|done..].
  - apply weak, lower_flag.
Qed.

Lemma leads_state {A} (c : M machine A) P Q m : leads P Q c → P m → Q (c m).2.
Proof. intros Hc Hm. specialize (Hc m Hm). by destruct (c m) as [[]]. Qed.

Lemma leads_returns {A} (c : M machine A) P Q : hoare P c (λ _, Q) (λ _, False) → leads P Q c.
Proof. intros H. eapply hoare_weaken; [exact H|done..]. Qed.

Lemma complete_busy op rs :
  Forall index_ok rs → leads (busy (lowers op)) (busy []) (complete op rs).
Proof.
  intros Hrs.
  assert (leads (busy (lowers op)) (busy []) (start op)) as Hstart.
  { apply leads_returns. rewrite <-(app_nil_r (lowers op)) at 1. apply start_leads. }
  destruct op as [a|name path a|name|a|a]; [| | | |by apply continue_busy].
  - destruct rs as [|r [|??]]; try done. apply leads_returns, index_arrives_busy. by inversion Hrs.
  - destruct rs as [|r [|??]]; try done. apply leads_returns, plan_arrives_busy.
  - destruct rs as [|r [|??]]; try done. apply leads_returns, (source_arrives_busy r name).
  - cbn [complete]. destruct (length rs =? 8); [|done]. apply leads_returns, registries_arrive_busy.
Qed.

Lemma call_busy a : leads (busy []) (busy []) (call a).
Proof.
  destruct a; cbn [call].
  all: try (apply leads_returns; first [apply (loadIndex_busy [] Nobody)
    | apply (loadPlanByName_busy [] name Nobody); auto | apply loadSource_busy
    | apply (loadRegistries_busy [] Nobody)]).
  all: apply hoare_keeps; first [apply loadPlan_busy | apply clearPlan_busy | idtac].
  all: unfold toggleSource, toggleSourceCollapsed, toggleDetailsCollapsed,
    setEditSourceCode, setView, resetView, fitToView, with_view, selectNode, hoverNode,
    toggleFragment, setRegistryTab, setRegistrySearchQuery, setSelectedRegistryEntry,
    navigateToRegistryEntry, setSelectedEndpointEnv, push_selected, select_registry,
    unless_popstate, pushState, set_source, set_canvas, set_registry; keeps_all.
Qed.

Lemma handle_popstate_busy e : leads (busy []) (busy []) (handle_popstate e).
Proof.
  unfold handle_popstate. eapply leads_bind; [eapply hoare_weaken; [apply (raise_flag [])|done..]|].
  intros ?. apply hoare_get. intros m0. destruct (strict_equal _ _).
  - intros m Hm. cbv [mbind M_bind].
    pose proof (leads_state clearPlan _ _ m (hoare_keeps _ _ (clearPlan_busy [KFlag])) Hm) as H.
    assert ((clearPlan m).1 = Ok tt) as Hok.
    { unfold clearPlan, unless_popstate. cbv [mbind M_bind get]. cbn. by destruct (isHandlingPopState m). }
    destruct (clearPlan m) as [r m']. cbn in H, Hok. subst r.
    destruct (registries (st_registry (store m0))).
    + by apply (finally_lowers [] _ (show_registry_busy _ _ _)).
    + by apply (leads_returns _ _ _ (loadRegistries_busy [] (PopRegistries _ _))).
  - destruct (truthy _).
    + apply leads_returns, (loadPlanByName_busy [] _ PopPlan). auto.
    + apply finally_lowers, clearPlan_busy.
Qed.

Definition event_ok (ev : event) : Prop :=
  match ev with Arrive _ rs => Forall index_ok rs | _ => True end.

Lemma busy_delete i m op :
  busy [] m → pending m !! i = Some op → busy (lowers op) (with_pending (delete i (pending m)) m).
Proof.
  intros [H Hi] Hop. split; [|done]. intros k Ht Hk.
  destruct (H k Ht Hk) as [?%not_elem_of_nil|(op' & Hin & Hl)]; [done|].
  rewrite (delete_Permutation _ _ _ Hop) in Hin.
  apply elem_of_cons in Hin as [->|Hin]; [by left|]. right. by exists op'.
Qed.

Lemma step_busy m ev : event_ok ev → busy [] m → busy [] (step m ev).
Proof.
  intros He Hm. destruct ev as [a|i rs|e]; unfold step; cbn [run_event].
  - by apply (leads_state _ _ _ m (call_busy a)).
  - cbv [mbind M_bind get]. destruct (pending m !! i) as [op|] eqn:Hop; [|done].
    by apply (leads_state _ _ _ _ (complete_busy op rs He)), busy_delete.
  - by apply (leads_state _ _ _ m (handle_popstate_busy e)).
Qed.

Lemma initial_busy params : busy [] (initial params).
Proof.
  assert (leads (busy []) (busy []) (initHistory params)) as H.
  { unfold initHistory. destruct (strict_equal _ _).
    - eapply leads_bind; [eapply hoare_weaken; [apply (raise_flag [])|done..]|].
      intros ?. apply leads_returns, (loadRegistries_busy [] (InitRegistries _ _)).
    - destruct (params "plan") as [[|c r]|]; [by apply hoare_ret| |by apply hoare_ret].
      apply leads_returns, (loadIndex_busy [] (InitIndex _)). }
  unfold initial. apply (leads_state _ (busy []) (busy []) _ H). split; [by intros []|].
  by intros _ name; exists VUndefined.
Qed.

(** ** Requests come to an end *)

(** How many responses and turns an awaiter and an operation still cost at most. *)
Definition awaiter_work (a : awaiter) : nat :=
  match a with Nobody => 0 | InitIndex _ => 4 | _ => 1 end.
Definition work (op : operation) : nat :=
  match op with
  | IndexRequest a | RegistriesRequest a => 1 + awaiter_work a
  | PlanRequest _ _ a => 2 + awaiter_work a
  | SourceRequest _ => 1
  | Resume a => 1 `max` awaiter_work a
  end.
Definition total_work (m : machine) : nat := sum_list_with work (pending m).

(** Runs in which only responses to pending operations arrive. *)
Inductive draining : machine → list event → machine → Prop :=
| draining_nil m : draining m [] m
| draining_cons m i rs op evs m' :
    pending m !! i = Some op → answers op rs = true → Forall index_ok rs →
    draining (step m (Arrive i rs)) evs m' → draining m (Arrive i rs :: evs) m'.

(** [c] starts operations of work [n] at most. *)
Definition spends (n : nat) {A} (c : M machine A) : Prop :=
  ∀ m, total_work (c m).2 ≤ n + total_work m.

Lemma spends_weaken n k {A} (c : M machine A) : spends n c → n ≤ k → spends k c.
Proof. intros H ? m. specialize (H m). lia. Qed.
Lemma spends_ret n {A} (a : A) : spends n (mret a).
Proof. intros m. cbn. lia. Qed.
Lemma spends_modify n f : (∀ m, pending (f m) = pending m) → spends n (modify f).
Proof. intros Hf m. unfold total_work. cbn. rewrite Hf. lia. Qed.
Lemma spends_start op : spends (work op) (start op).
Proof.
  intros m. unfold total_work. cbn. rewrite sum_list_with_app. cbn. lia.
Qed.
Lemma spends_bind n k {A B} (c : M machine A) (f : A → M machine B) :
  spends n c → (∀ a, spends k (f a)) → spends (n + k) (c ≫= f).
Proof.
  intros Hc Hf m. specialize (Hc m). unfold mbind, M_bind. destruct (c m) as [[a|e] m']; cbn in *; [|lia].
  specialize (Hf a m'). lia.
Qed.
Lemma spends_lift n {A B} (r : result A) (f : A → M machine B) :
  (∀ a, spends n (f a)) → spends n (lift r ≫= f).
Proof. intros Hf m. unfold mbind, M_bind, lift. destruct r; [apply Hf|cbn; lia]. Qed.
Lemma spends_get n {B} (f : machine → M machine B) : (∀ m, spends n (f m)) → spends n (get ≫= f).
Proof. intros Hf m. apply (Hf m m). Qed.
Lemma spends_try n {A} (c : M machine A) h :
  spends n c → (∀ e, spends 0 (h e)) → spends n (try_catch c h).
Proof.
  intros Hc Hh m. specialize (Hc m). unfold try_catch. destruct (c m) as [[a|e] m']; cbn in *; [lia|].
  specialize (Hh e m'). lia.
Qed.
Lemma spends_finally n {A} (c : M machine A) d : spends n c → spends 0 d → spends n (finally c d).
Proof.
  intros Hc Hd m. specialize (Hc m). unfold finally.
  destruct (c m) as [[a|e] m']; specialize (Hd m'); destruct (d m') as [[]]; cbn in *; lia.
Qed.

Ltac spends_step :=
  lazymatch goal with
  | |- spends _ (mret _) => apply spends_ret
  | |- spends _ (mbind _ (lift _)) => apply spends_lift; intros ?
  | |- spends _ (mbind _ get) => apply spends_get; intros ?
  | |- spends ?n (mbind _ _) => apply (spends_bind 0 n); [|intros ?]
  | |- spends _ (try_catch _ _) => apply spends_try; [|intros ?]
  | |- spends _ (finally _ _) => apply spends_finally
  | |- spends _ (modify _) => apply spends_modify; by intros []
  | |- spends _ (start ?op) => eapply spends_weaken; [apply spends_start|cbn; lia]
  | |- spends _ (match ?x with _ => _ end) => destruct x
  | |- spends _ (if ?x then _ else _) => destruct x
  end.
Ltac spends_all := repeat spends_step; try done.

Lemma spends_resume a : spends (awaiter_work a) (resume a).
Proof. destruct a; unfold resume; spends_all. Qed.

Lemma spends_loadPlan json file skip : spends 0 (loadPlan json file skip).
Proof. unfold loadPlan, unless_popstate, pushState, set_canvas, set_plan. spends_all. Qed.

Lemma spends_loadPlanByName name a : spends (2 + awaiter_work a) (loadPlanByName name a).
Proof.
  pose proof (spends_resume a) as Hr. apply spends_get. intros m.
  destruct (find_plan _ _) as [entry|].
  - destruct (negb (truthy entry)).
    + destruct (template name).
      * apply (spends_bind 0 (2 + awaiter_work a)); [unfold set_plan_status, set_plan; spends_all|].
        intros ?. eapply spends_weaken; [done|lia].
      * destruct a; unfold reject; spends_all.
    + apply (spends_bind 0 (2 + awaiter_work a)); [unfold set_plan_status, set_plan; spends_all|].
      intros ? m'. unfold try_catch. cbv [mbind M_bind lift].
      assert (∀ e, spends (2 + awaiter_work a)
        (set_plan_status false (Some (message_of e)) ;; resume a)) as Hc.
      { intros e. apply (spends_bind 0 (2 + awaiter_work a)).
        - unfold set_plan_status, set_plan. spends_all.
        - intros ?. eapply spends_weaken; [done|lia]. }
      destruct (get_prop entry "path") as [path|e]; [|apply Hc].
      destruct (template path) as [t|e]; [|apply Hc].
      apply (spends_start (PlanRequest name path a)).
  - destruct a; unfold reject; spends_all.
Qed.

Lemma spends_continue a : ∃ n, n < work (Resume a) ∧ spends n (continue a).
Proof.
  destruct a as [| |tab sel|tab sel|planName|]; cbn [work awaiter_work continue].
  5: { exists 3. split; [lia|]. apply (spends_bind 0 3); [unfold set_flag; spends_all|].
       intros ?. apply spends_loadPlanByName. }
  all: exists 0; (split; [lia|]).
  all: unfold show_registry, select_registry, set_registry, set_flag; spends_all.
Qed.

Lemma spends_settled n a (c : M machine unit) :
  spends n c → spends (n + awaiter_work a) (c ;; resume a).
Proof. intros Hc. apply spends_bind; [done|]. intros ?. apply spends_resume. Qed.

(** Completing an operation costs less than it was worth. *)
Lemma spends_complete op rs : answers op rs = true → ∃ n, n < work op ∧ spends n (complete op rs).
Proof.
  intros Ha. destruct op as [a|name path a|name|a|a]; [| | | |apply spends_continue].
  - destruct rs as [|r [|??]]; try done. exists (awaiter_work a). split; [cbn; lia|].
    apply (spends_settled 0). unfold set_index. spends_all.
  - destruct rs as [|r [|??]]; try done. exists (1 + awaiter_work a). split; [cbn; lia|].
    apply (spends_settled 1). apply spends_try; [|intros ?; unfold set_plan_status, set_plan; spends_all].
    apply spends_lift. intros json. apply (spends_bind 0 1); [apply spends_loadPlan|].
    intros ?. unfold set_plan_status, set_plan, loadSource, set_source. spends_all.
  - destruct rs as [|r [|??]]; try done. exists 0. split; [cbn; lia|].
    cbn [complete]. unfold source_arrives, set_source. spends_all.
  - cbn [complete answers] in *. rewrite Ha. exists (awaiter_work a). split; [cbn; lia|].
    apply (spends_settled 0). unfold set_registry. spends_all.
Qed.

Lemma arrive_decreases m i op rs :
  pending m !! i = Some op → answers op rs = true → total_work (step m (Arrive i rs)) < total_work m.
Proof.
  intros Hop Ha. unfold step. cbn [run_event]. cbv [mbind M_bind get]. rewrite Hop.
  destruct (spends_complete op rs Ha) as (n & Hn & Hs).
  specialize (Hs (with_pending (delete i (pending m)) m)).
  change (modify _ m) with (@Ok unit tt, with_pending (delete i (pending m)) m). cbv beta iota.
  assert (total_work m = work op + total_work (with_pending (delete i (pending m)) m)) as ->; [|lia].
  unfold total_work. cbn [pending with_pending].
  by rewrite (delete_Permutation (pending m) i op Hop) at 1.
Qed.

Lemma draining_ends m evs m' : draining m evs m' → length evs + total_work m' ≤ total_work m.
Proof.
  induction 1 as [|m i rs op evs m' Hop Ha _ _ IH]; [done|].
  pose proof (arrive_decreases m i op rs Hop Ha). cbn. lia.
Qed.

Lemma draining_reachable params m evs m' :
  draining m evs m' → reachable event_ok params m → reachable event_ok params m'.
Proof. induction 1; [done|]. intros Hm. apply IHdraining. by constructor. Qed.

Lemma reachable_busy params m : reachable event_ok params m → busy [] m.
Proof. apply reachable_invariant; [apply initial_busy|]. intros. by apply step_busy. Qed.

End busy.

(** C23: loading ends.  Once components and the browser leave the store alone, only a
    bounded number of responses and turns can follow, in whatever order and with
    whatever outcome; until nothing is pending one always can; and when nothing is
    pending, nothing is marked as loading; nor is a [popstate] as being handled, provided
    that plan names can be looked up in the indexes that arrived ([indexed]: their plans are
    an array without null; see [flag_left_up]). *)
Theorem loading_ends indexed params m evs m' :
  reachable (event_ok indexed) params m → draining indexed m evs m' →
  length evs ≤ total_work m ∧
  (pending m' ≠ [] → ∃ i rs m'', draining indexed m' [Arrive i rs] m'') ∧
  (pending m' = [] → ∀ k, tracked indexed k → raised m' k = false).
Proof.
  intros Hm Hd. split_and!.
  - pose proof (draining_ends _ _ _ _ Hd). lia.
  - destruct (pending m') as [|op ops] eqn:Hp; [done|]. intros _.
    exists 0, (match op with RegistriesRequest _ => replicate 8 (Rejected EmptyString)
      | _ => [Rejected EmptyString] end).
    eexists. eapply draining_cons; [by rewrite Hp|by destruct op| |constructor].
    by destruct op; repeat constructor.
  - intros Hp k Ht. apply (draining_reachable _ params) in Hd as [Hb _]%reachable_busy; [|done].
    destruct (raised m' k) eqn:E; [|done]. destruct (Hb k Ht E) as [[]%elem_of_nil|(op & Hop & _)].
    rewrite Hp in Hop. by apply not_elem_of_nil in Hop.
Qed.

(** ** Going back to a registry entry *)

(** A [popstate] event for a history entry: its state object, and the parameters of its
    address, those that were set or deleted when it was pushed. *)
Definition state_member (o : object) (k : string) : value :=
  match map_get o k with Some v => v | None => VUndefined end.
Definition change_seen (get : string → option string) (c : url_change) : Prop :=
  match c with SetParam k v => get k = Some v | DeleteParam k => get k = None end.
Definition event_of (e : pushed) (p : popstate) : Prop :=
  state_view p = state_member (pushed_state e) "view" ∧
  state_tab p = state_member (pushed_state e) "tab" ∧
  state_selected p = state_member (pushed_state e) "selected" ∧
  state_plan p = state_member (pushed_state e) "plan" ∧
  match pushed_url e with Changed cs => Forall (change_seen (url_param p)) cs | _ => True end.

(** What survives the way through the address: no entry, numbers, and names that do not
    read as numbers. *)
Definition restorable (entry : value) : bool :=
  match entry with
  | VNull => true
  | VNumber n => negb (isNaN n) && negb (bool_decide (n = S754_zero true))
  | VString s => negb (String.eqb s EmptyString) && isNaN (Number s)
  | _ => false
  end.

Lemma entry_of_restorable entry selected t :
  restorable entry = true → template entry = Ok t → entry ≠ VNull →
  selected = js_or entry (VString t) → entry_of selected = Ok entry.
Proof.
  intros Hr Ht Hn ->. unfold js_or, entry_of. destruct entry as [| | |n|s| | | | | |]; try done.
  - cbn in Hr. apply andb_true_iff in Hr as [Hnan Hz]. apply negb_true_iff in Hnan.
    destruct (truthy (VNumber n)) eqn:E.
    + rewrite E. cbn. by rewrite Hnan.
    + cbn in E. rewrite Hnan, orb_false_r, negb_false_iff in E.
      destruct n as [[]| | |]; try done. injection Ht as <-. by vm_compute.
  - cbn in Hr. apply andb_true_iff in Hr as [Hs Hnum].
    assert (truthy (VString s) = true) as Hts by done. rewrite !Hts. cbn. by rewrite Hnum.
Qed.

Definition tab_name (m : machine) (tab : string) : Prop :=
  selectedRegistryTab (st_registry (store m)) = VString tab ∧ tab ≠ EmptyString.

(** What handling a [popstate] event does that leads to loaded registries. *)
Lemma pop_registry m p tab selected entry :
  state_view p = VString "registries" → tab ≠ EmptyString → state_tab p = VString tab →
  js_or (state_selected p) (param (url_param p) "selected") = selected →
  entry_of selected = Ok entry → registries (st_registry (store m)) ≠ None →
  let m' := step m (Pop p) in
  selectedRegistryTab (st_registry (store m')) = VString tab ∧
  selectedRegistryEntry (st_registry (store m')) = entry ∧
  graph (st_plan (store m')) = None ∧ history m' = history m ∧ isHandlingPopState m' = false.
Proof.
  intros Hv Hne Ht Hs He Hr m'. unfold m', step. cbn [run_event]. unfold handle_popstate.
  rewrite Hv, Ht, Hs. cbv [mbind M_bind get set_flag modify].
  assert (truthy (VString tab) = true) as Htab by by (cbn; destruct (String.eqb_spec tab EmptyString)).
  unfold js_or at 1. cbn [truthy String.eqb negb]. cbn [strict_equal same_json].
  rewrite String.eqb_refl. cbv iota.
  change (registries (st_registry (store (with_flag true m)))) with (registries (st_registry (store m))).
  destruct (registries (st_registry (store m))) as [d|]; [|done].
  unfold js_or. rewrite !Htab. unfold show_registry. cbv [mbind M_bind lift]. rewrite He. done.
Qed.

Lemma snoc_self {A} (l : list A) x : l ≠ l ++ [x].
Proof. intros H. apply (f_equal length) in H. rewrite length_app in H. cbn in H. lia. Qed.

(** The entry pushed for a selected entry, and what becomes of the registry state. *)
Lemma push_selected_inv m tab entry e :
  history (unless_popstate (push_selected (VString tab) entry) m).2 = history m ++ [e] →
  st_registry (store (unless_popstate (push_selected (VString tab) entry) m).2)
    = st_registry (store m) ∧
  ∃ t, template entry = Ok t ∧
  e = {| pushed_state := [("view", VString "registries"); ("tab", VString tab); ("selected", entry)];
         pushed_url := Changed [SetParam "view" "registries"; SetParam "tab" tab;
                                SetParam "selected" t] |}.
Proof.
  unfold unless_popstate, push_selected. cbv [mbind M_bind get lift].
  destruct (isHandlingPopState m); [by intros ?%snoc_self|]. cbn [template].
  destruct (template entry) as [t|]; [|by intros ?%snoc_self].
  intros [= <-]%app_inv_head. split; [done|]. by exists t.
Qed.

(** The entry that shows a part of the registries: without a selected entry, or with. *)
Lemma registry_pushed m a e tab :
  match a with
  | SetRegistryTab _ | SetSelectedRegistryEntry _ => True
  | NavigateToRegistryEntry _ entry => entry ≠ VNull
  | _ => False
  end →
  let r := st_registry (store (step m (Call a))) in
  history (step m (Call a)) = history m ++ [e] → selectedRegistryTab r = VString tab →
  (selectedRegistryEntry r = VNull ∧
    e = {| pushed_state := [("view", VString "registries"); ("tab", VString tab)];
           pushed_url := Changed [SetParam "view" "registries"; SetParam "tab" tab;
                                  DeleteParam "selected"] |}) ∨
  (selectedRegistryEntry r ≠ VNull ∧ ∃ t, template (selectedRegistryEntry r) = Ok t ∧
    e = {| pushed_state := [("view", VString "registries"); ("tab", VString tab);
                            ("selected", selectedRegistryEntry r)];
           pushed_url := Changed [SetParam "view" "registries"; SetParam "tab" tab;
                                  SetParam "selected" t] |}).
Proof.
  intros Ha r Hh Htab. unfold r in *. clear r. revert Hh Htab.
  destruct a; try done; unfold step; cbn [run_event call].
  - unfold setRegistryTab, unless_popstate. cbv [mbind M_bind get]. cbn.
    destruct (isHandlingPopState m); cbn; [by intros ?%snoc_self|].
    intros [= <-]%app_inv_head [= <-]. by left.
  - set (m1 := (select_registry (λ t, t) (λ q, q) (λ _, entry) m).2).
    assert ((setSelectedRegistryEntry entry m).2 = if is_null entry then m1 else
      (unless_popstate (push_selected (selectedRegistryTab (st_registry (store m1))) entry) m1).2) as ->.
    { change (setSelectedRegistryEntry entry m) with ((if is_null entry then mret tt
        else unless_popstate (m0 ← get; push_selected (selectedRegistryTab (st_registry (store m0))) entry)) m1).
      destruct (is_null entry); [done|]. unfold unless_popstate. cbv [mbind M_bind get].
      by destruct (isHandlingPopState m1). }
    destruct (is_null entry) eqn:Hn; [by intros ?%snoc_self|].
    set (tab' := selectedRegistryTab _). intros Hh Htab.
    assert (tab' = VString tab) as Ht.
    { revert Htab. unfold unless_popstate, push_selected. cbv [mbind M_bind get lift].
      destruct (isHandlingPopState m1); [done|]. destruct (template tab'); [|done].
      by destruct (template entry). }
    rewrite Ht in *. change (history m) with (history m1) in Hh.
    apply push_selected_inv in Hh as (Hr & t & Hent & ->). rewrite Hr.
    right. split; [by destruct entry|]. by exists t.
  - set (m1 := (select_registry (λ _, VString tab0) (λ _, EmptyString) (λ _, entry) m).2).
    change (navigateToRegistryEntry tab0 entry m)
      with (unless_popstate (push_selected (VString tab0) entry) m1). intros Hh Htab.
    change (history m) with (history m1) in Hh. apply push_selected_inv in Hh as (Hr & t & Hent & ->). rewrite Hr in *.
    injection Htab as ->. right. split; [done|]. by exists t.
Qed.

(** C25: going back restores what was selected in the registries.  When selecting a tab or
    an entry pushed an entry on the browser's history, a later [popstate] event for it,
    in whatever state with the registries loaded, selects that tab and entry again,
    closes the plan and pushes nothing. *)
Theorem popstate_restores m a e m2 p tab :
  match a with
  | SetRegistryTab _ | SetSelectedRegistryEntry _ => True
  | NavigateToRegistryEntry _ entry => entry ≠ VNull
  | _ => False
  end →
  let r := st_registry (store (step m (Call a))) in
  history (step m (Call a)) = history m ++ [e] →
  selectedRegistryTab r = VString tab → tab ≠ EmptyString →
  restorable (selectedRegistryEntry r) = true →
  event_of e p → registries (st_registry (store m2)) ≠ None →
  let m3 := step m2 (Pop p) in
  selectedRegistryTab (st_registry (store m3)) = selectedRegistryTab r ∧
  selectedRegistryEntry (st_registry (store m3)) = selectedRegistryEntry r ∧
  graph (st_plan (store m3)) = None ∧ history m3 = history m2 ∧ isHandlingPopState m3 = false.
Proof.
  intros Ha r Hh Htab Hne Hres Hev Hr. rewrite Htab.
  destruct (registry_pushed m a e tab Ha Hh Htab) as [[Hn ->]|(Hn & t & Ht & ->)];
    destruct Hev as (Hv & Ht' & Hs & _ & Hc); cbn in Hv, Ht', Hs, Hc;
    apply Forall_cons in Hc as [_ [_ [Hp _]%Forall_cons]%Forall_cons]; unfold change_seen in Hp.
  - fold r in Hn. rewrite Hn. apply (pop_registry m2 p tab VNull VNull); try done.
    unfold param. by rewrite Hs, Hp.
  - fold r in Hn, Ht, Hs. apply (pop_registry m2 p tab (js_or (selectedRegistryEntry r) (VString t)));
      try done.
    + unfold param. by rewrite Hs, Hp.
    + by apply (entry_of_restorable _ _ t).
Qed.

(** ** Nothing is pushed while going back *)

Definition going_back (h : list pushed) (m : machine) : Prop :=
  isHandlingPopState m = true ∧ history m = h.
Definition same_history (h : list pushed) (m : machine) : Prop := history m = h.

Lemma unless_going_back h push : keeps (going_back h) (unless_popstate push).
Proof. apply keeps_get. intros m [Hf Hh]. rewrite Hf. by split. Qed.

Ltac back_all :=
  repeat (lazymatch goal with |- keeps _ (unless_popstate _) => apply unless_going_back | _ => keeps_step end);
  try done.

Lemma resume_back h a : keeps (going_back h) (resume a) ∧ keeps (going_back h) (reject a).
Proof. split; destruct a; unfold resume, reject, start; back_all. Qed.

Lemma clearPlan_back h : keeps (going_back h) clearPlan.
Proof. unfold clearPlan, set_canvas, set_source, set_plan. back_all. Qed.

Lemma loadPlan_back h json file skip : keeps (going_back h) (loadPlan json file skip).
Proof. unfold loadPlan, set_canvas, set_plan. back_all. Qed.

Lemma loadPlanByName_back h name a : keeps (going_back h) (loadPlanByName name a).
Proof.
  destruct (resume_back h a). unfold loadPlanByName, set_plan_status, set_plan, start. back_all.
Qed.

Lemma loadRegistries_back h a : keeps (going_back h) (loadRegistries a).
Proof. unfold loadRegistries, set_registry, start. back_all. Qed.

Lemma show_registry_back h tab selected : keeps (going_back h) (show_registry tab selected).
Proof. unfold show_registry, select_registry, set_registry. back_all. Qed.

Lemma call_back h a : keeps (going_back h) (call a).
Proof.
  pose proof clearPlan_back. pose proof loadPlan_back. pose proof loadPlanByName_back.
  pose proof loadRegistries_back.
  destruct a; cbn [call]; try done.
  all: unfold loadIndex, loadSource, toggleSource, toggleSourceCollapsed, toggleDetailsCollapsed,
    setEditSourceCode, setView, resetView, fitToView, with_view, selectNode, hoverNode,
    toggleFragment, setRegistryTab, setRegistrySearchQuery, setSelectedRegistryEntry,
    navigateToRegistryEntry, setSelectedEndpointEnv, select_registry,
    set_index, set_source, set_canvas, set_registry, start; back_all.
Qed.

Definition goes_back h (c : M machine unit) : Prop :=
  hoare (going_back h) c (λ _, same_history h) (same_history h).

Lemma keeps_goes_back h (c : M machine unit) : keeps (going_back h) c → goes_back h c.
Proof. intros Hc. eapply hoare_weaken; [by apply hoare_keeps|done|by intros ?? []|by intros ? []]. Qed.

Lemma lowers_back h (c : M machine unit) : keeps (going_back h) c → goes_back h (c ;; set_flag false).
Proof.
  intros Hc. eapply (hoare_bind _ _ _ (λ _, going_back h)).
  - eapply hoare_weaken; [by apply hoare_keeps|done|done|by intros ? []].
  - intros ?. by apply hoare_modify; intros ? [].
Qed.

Lemma finally_back h (c : M machine unit) : keeps (going_back h) c → goes_back h (finally c (set_flag false)).
Proof.
  intros Hc m Hm. specialize (Hc m Hm). unfold finally. by destruct (c m) as [[a|e] m'], Hc.
Qed.

Lemma continue_back h a : goes_back h (continue a).
Proof.
  pose proof (show_registry_back h). destruct a; cbn [continue].
  - apply keeps_goes_back, keeps_ret.
  - by apply hoare_modify; intros ? [].
  - by apply finally_back.
  - by apply lowers_back.
  - apply keeps_goes_back, keeps_bind; [|intros ?; apply loadPlanByName_back].
    apply keeps_modify. intros ? []. by split.
  - by apply hoare_modify; intros ? [].
Qed.

Lemma complete_back h op rs : goes_back h (complete op rs).
Proof.
  pose proof (λ a, proj1 (resume_back h a)) as Hr. pose proof (loadPlan_back h).
  assert (∀ op, keeps (going_back h) (start op)) by (intros ?; unfold start; back_all).
  destruct op; destruct rs as [|r [|? ?]]; cbn [complete];
    first [apply continue_back | apply keeps_goes_back];
    unfold index_arrives, plan_arrives, source_arrives, registries_arrive, loadSource,
      set_plan_status, set_index, set_plan, set_source, set_registry; back_all.
Qed.

Lemma handle_popstate_back e m : history (handle_popstate e m).2 = history m.
Proof.
  assert (hoare (λ m', m' = m) (handle_popstate e) (λ _, same_history (history m))
    (same_history (history m))) as H.
  { unfold handle_popstate.
    eapply (hoare_bind _ _ _ (λ _, going_back (history m))); [by apply hoare_modify; intros ? ->|].
    intros ?. apply hoare_get. intros m0. destruct (strict_equal _ _).
    - eapply (hoare_bind _ _ _ (λ _, going_back (history m))).
      + eapply hoare_weaken; [apply hoare_keeps, clearPlan_back|done|done|by intros ? []].
      + intros ?. destruct (registries (st_registry (store m0))); [by apply finally_back, show_registry_back|].
        by apply keeps_goes_back, loadRegistries_back.
    - destruct (truthy _); [by apply keeps_goes_back, loadPlanByName_back|].
      by apply finally_back, clearPlan_back. }
  specialize (H m eq_refl). by destruct (handle_popstate e m) as [[]].
Qed.

(** going back and forth leaves no trace: handling a [popstate] event pushes nothing on
    the browser's history, and while one is being handled neither does any other event,
    be it a call, a response that shows a plan, or another [popstate]. *)
Theorem going_back_pushes_nothing m ev :
  (isHandlingPopState m = true ∨ ∃ e, ev = Pop e) → history (step m ev) = history m.
Proof.
  intros [Hf|[e ->]]; [|apply handle_popstate_back]. destruct ev as [a|i rs|e];
    [| |apply handle_popstate_back]; unfold step; cbn [run_event].
  - apply (call_back (history m) a m). by split.
  - cbv [mbind M_bind get]. destruct (pending m !! i) as [op|]; [|done].
    pose proof (complete_back (history m) op rs (with_pending (delete i (pending m)) m)) as H.
    change (modify _ m) with (@Ok unit tt, with_pending (delete i (pending m)) m). cbv beta iota.
    destruct (complete op rs _) as [[]]; by apply H.
Qed.
End actions.

(** ** Fragments *)

Lemma filter_others (o : string) (l : list string) : o ∉ l → filter (λ f, f ≠ o) l = l.
Proof.
  induction l as [|x l IH]; [done|]. intros [Hx Hl]%not_elem_of_cons.
  rewrite filter_cons_True by congruence. by rewrite IH.
Qed.

Lemma collapse_all g th f it :
  NoDup (it ++ [f]) → EmptyString ∉ it → th < length (vis_nodes g) →
  collapse_oldest g th f (it ++ [f]) (it ++ [f]) = [f].
Proof.
  intros Hnd He Hth. apply Nat.ltb_lt in Hth.
  induction it as [|o it IH]; cbn [app collapse_oldest]; unfold countVisibleNodes at 1; rewrite Hth.
  - by rewrite String.eqb_refl, andb_false_r.
  - apply not_elem_of_cons in He as [Ho He]. apply NoDup_cons in Hnd as [Hin Hnd].
    assert (o ≠ f) by (intros ->; apply Hin; set_solver).
    destruct (String.eqb_spec o EmptyString), (String.eqb_spec o f); try congruence. cbn [negb andb].
    assert (filter (λ f', f' ≠ o) (o :: it ++ [f]) = it ++ [f]) as ->; [|by apply IH].
    rewrite filter_cons_False by (intros H'; by apply H'). by apply filter_others.
Qed.

(** Toggling a fragment.  An expanded fragment is collapsed and the others stay; a
    collapsed one is expanded and becomes the latest, and if the graph has more nodes
    than the threshold it is then the only one expanded. *)
Theorem toggled_correct expanded graph threshold f :
  NoDup expanded → EmptyString ∉ expanded →
  let large := match graph with Some g => threshold < length (vis_nodes g) | None => False end in
  let t := toggled expanded graph threshold f in
  (f ∈ expanded → NoDup t ∧ ∀ x, x ∈ t ↔ x ∈ expanded ∧ x ≠ f) ∧
  (f ∉ expanded → ¬ large → t = expanded ++ [f]) ∧
  (f ∉ expanded → large → t = [f]).
Proof.
  intros Hnd He large t. unfold t, toggled. subst large. split_and!.
  - intros Hf. apply string_set_has_elem_of in Hf as ->. split; [by apply NoDup_filter|].
    intros x. rewrite list_elem_of_filter. naive_solver.
  - intros Hf Hl. pose proof Hf as Hn. apply string_set_has_false in Hn. unfold string_set_add, set_add.
    unfold string_set_has in Hn |- *. rewrite Hn. destruct graph as [g|]; [|done].
    destruct (Nat.ltb_spec threshold (countVisibleNodes g (expanded ++ [f]))); [|done].
    by destruct Hl.
  - intros Hf Hl. pose proof Hf as Hn. apply string_set_has_false in Hn. unfold string_set_add, set_add.
    unfold string_set_has in Hn |- *. rewrite Hn. destruct graph as [g|]; [|done].
    destruct (Nat.ltb_spec threshold (countVisibleNodes g (expanded ++ [f])));
      [|unfold countVisibleNodes in *; lia].
    apply collapse_all; [|done..]. apply NoDup_app. split_and!; [done| |apply NoDup_singleton].
    intros y Hy ->%list_elem_of_singleton. done.
Qed.

(** ** Samples *)

Definition sample_dagre (o : LayoutOptions) (ns : list (value * number * number))
    (es : list (value * value)) : result (value → option (number * number)) :=
  Ok (λ _, None).
Definition no_params (k : string) : option string := None.
Definition sample_initial : machine := initial no_params.
Definition run_events (m : machine) (evs : list event) : machine :=
  foldl (step sample_dagre "host") m evs.

Definition plan_json (name : string) : value :=
  VObject [("plan_name", VString name); ("nodes", VArray []); ("outputs", VArray [])].
Definition index_json : value :=
  VObject [("plans", VArray (map (λ n, VObject [("name", VString n); ("path", VString (n +:+ ".json"))])
    ["a"; "b"]))].

Definition plan_shown (m : machine) : value := planJson (st_plan (store m)).

(** The index is loaded, then plan a and plan b are asked for. *)
Definition two_plans : list event :=
  [Call LoadIndex; Arrive 0 [Body index_json]; Call (LoadPlanByName (VString "a"));
   Call (LoadPlanByName (VString "b"))].

(** The response that comes last is shown, not the plan asked for last. *)
Example stale_response :
  plan_shown (run_events sample_initial
    (two_plans ++ [Arrive 1 [Body (plan_json "b")]; Arrive 0 [Body (plan_json "a")]]))
  = plan_json "a".
Proof. by vm_compute. Qed.

Definition pop_plan (name : string) : popstate :=
  {| state_view := VUndefined; state_tab := VUndefined; state_selected := VUndefined;
     state_plan := VString name; url_param := λ k, if String.eqb k "plan" then Some name else None |}.
Definition pop_selector : popstate :=
  {| state_view := VUndefined; state_tab := VUndefined; state_selected := VUndefined;
     state_plan := VUndefined; url_param := no_params |}.

(** Two steps back in quick succession: the second lowers the flag while the first still
    loads its plan, which then is shown and pushed as if it had been chosen. *)
Example two_steps_back :
  let m := run_events sample_initial
    [Call LoadIndex; Arrive 0 [Body index_json]; Pop (pop_plan "a"); Pop pop_selector;
     Arrive 0 [Body (plan_json "a")]] in
  plan_shown m = plan_json "a" ∧ map pushed_url (history m) = [Query "?plan=a"].
Proof. by vm_compute. Qed.

Definition at_plan (k : string) : option string := if String.eqb k "plan" then Some "a" else None.

(** An index with an entry that is null: the initial address's plan is never found, and
    the flag that keeps the history still stays up for good. *)
Example flag_left_up :
  let m := foldl (step sample_dagre "host") (initial at_plan)
    [Arrive 0 [Body (VObject [("plans", VArray [VNull])])]; Arrive 0 []] in
  isHandlingPopState m = true ∧ pending m = [].
Proof. by vm_compute. Qed.

Lemma run_reachable ok m evs :
  Forall ok evs → reachable sample_dagre "host" ok no_params m →
  reachable sample_dagre "host" ok no_params (run_events m evs).
Proof.
  intros Hok. revert m. induction Hok as [|ev evs Hev _ IH]; intros m Hm; [done|].
  apply IH. by apply reachable_step.
Qed.

Lemma find_entry_ok plans name :
  Forall (λ p, is_object p = true) plans → ∃ e, find_entry plans name = Ok e.
Proof.
  induction 1 as [|p plans Hp _ [e IH]]; [by eexists|]. cbn [find_entry].
  assert (∃ n, get_prop p "name" = Ok n) as [n ->] by (destruct p; try done; by eexists).
  change (∃ e', (if strict_equal n name then Ok p else find_entry plans name) = Ok e').
  rewrite IH. destruct (strict_equal n name); by eexists.
Qed.

Lemma two_plans_ok : Forall (event_ok true) two_plans.
Proof.
  repeat constructor. intros _ data plans name [= <-] [= <-].
  apply find_entry_ok. by repeat constructor.
Qed.

Definition shown_a : machine :=
  run_events sample_initial (two_plans ++ [Arrive 0 [Body (plan_json "a")]]).


Definition loading_two : machine := run_events sample_initial two_plans.
Definition two_arrivals : list event :=
  [Arrive 1 [HttpError 404]; Arrive 0 [Rejected "offline"]].

Lemma loading_ends_witness :
  draining sample_dagre "host" true loading_two two_arrivals (run_events loading_two two_arrivals) ∧
  length two_arrivals ≤ total_work loading_two ∧
  ∀ k, raised (run_events loading_two two_arrivals) k = false.
Proof.
  assert (draining sample_dagre "host" true loading_two two_arrivals (run_events loading_two two_arrivals))
    as Hd.
  { do 2 (eapply draining_cons; [by vm_compute|done|by repeat constructor|]). apply draining_nil. }
  destruct (loading_ends sample_dagre "host" true no_params loading_two two_arrivals
    (run_events loading_two two_arrivals)) as (H1 & _ & H3).
  - apply run_reachable; [apply two_plans_ok|apply reachable_initial].
  - exact Hd.
  - split; [exact Hd|]. split; [exact H1|]. intros k. apply H3; [by vm_compute|done].
Defined.

Definition loaded_registries : list event :=
  [Call LoadRegistries; Arrive 0 (repeat (Body (VObject [])) 8)].
Definition with_registries : machine := run_events sample_initial loaded_registries.
Definition select_key : action := NavigateToRegistryEntry "keys" (VNumber (num 3)).
Definition pop_key : popstate :=
  {| state_view := VString "registries"; state_tab := VString "keys";
     state_selected := VNumber (num 3); state_plan := VUndefined;
     url_param := λ k, if String.eqb k "view" then Some "registries"
       else if String.eqb k "tab" then Some "keys"
       else if String.eqb k "selected" then Some "3" else None |}.

Lemma popstate_restores_witness :
  let m3 := step sample_dagre "host" (run_events with_registries [Call ClearPlan]) (Pop pop_key) in
  selectedRegistryTab (st_registry (store m3)) = VString "keys" ∧
  selectedRegistryEntry (st_registry (store m3)) = VNumber (num 3) ∧
  graph (st_plan (store m3)) = None ∧
  history m3 = history (run_events with_registries [Call ClearPlan]) ∧ isHandlingPopState m3 = false.
Proof.
  apply (popstate_restores sample_dagre "host" with_registries select_key
    {| pushed_state := [("view", VString "registries"); ("tab", VString "keys");
                        ("selected", VNumber (num 3))];
       pushed_url := Changed [SetParam "view" "registries"; SetParam "tab" "keys";
                              SetParam "selected" "3"] |}
    (run_events with_registries [Call ClearPlan]) pop_key "keys"); try done.
  repeat constructor.
Defined.

Lemma going_back_pushes_nothing_witness :
  let m := run_events sample_initial [Call LoadIndex; Arrive 0 [Body index_json]; Pop (pop_plan "a")] in
  isHandlingPopState m = true ∧
  history (step sample_dagre "host" m (Arrive 0 [Body (plan_json "a")])) = history m.
Proof.
  split; [by vm_compute|]. apply going_back_pushes_nothing. left. by vm_compute.
Defined.

Lemma toggled_correct_witness :
  toggled ["a"; "b"] (Some {| vis_nodes := []; vis_edges := [] |}) 200 "c" = ["a"; "b"; "c"].
Proof.
  apply (toggled_correct ["a"; "b"] (Some {| vis_nodes := []; vis_edges := [] |}) 200 "c").
  - repeat constructor; set_solver.
  - set_solver.
  - set_solver.
  - cbn. lia.
Defined.
