(* ===== verification/Jsx.v ===== *)
(** * Jsx: what React shows of JavaScript values

    The visualizer's components draw text, lists and labelled rows.  React shows strings
    and numbers, nothing for booleans and what is missing, and arrays one after the other;
    it throws at plain objects.  What is drawn is text here: elements that only style it
    are left out. *)

From S2P Require Import Prelude Collections JsNumber JsValue StableStringify.

(** What React shows of a value: nothing for booleans and what is missing. *)
Fixpoint shown (v : value) : result string :=
  match v with
  | VUndefined | VNull | VBool _ => Ok EmptyString
  | VNumber n => Ok (num_to_string n)
  | VString s => Ok s
  | VArray l =>
      (fix go l := match l with
        | [] => Ok EmptyString
        | x :: l' => t ← shown x; ts ← go l'; Ok (t +:+ ts)
        end) l
  | _ => Throw (Error "Objects are not valid as a React child")
  end.
Definition shown_prop (member : string) (e : value) : result string := v ← get_prop e member; shown v.
Definition bool_text (yes no member : string) (e : value) : result string :=
  v ← get_prop e member; Ok (if truthy v then yes else no).

(** [l.join(sep)] *)
Fixpoint join_texts (l : list value) : result (list string) :=
  match l with
  | [] => Ok []
  | x :: l' =>
      t ← match x with VUndefined | VNull => Ok EmptyString | _ => template x end;
      ts ← join_texts l'; Ok (t :: ts)
  end.
Definition array_join (sep : string) (l : list value) : result string := join sep <$> join_texts l.

(** What [switch (v)] compares with string labels: what is no string matches none. *)
Definition string_case (v : value) : string := match v with VString s => s | _ => EmptyString end.

(** [if (s)] for a text that may be null *)
Definition is_text (s : option string) : bool := match s with Some (String _ _) => true | _ => false end.

(** [JSON.stringify(v, null, indent)] as a child: nothing where it is undefined *)
Definition json_text (indent : nat) (v : value) : string := default EmptyString (stringify indent 0 v).

(** A row has a label and lines; a status is drawn in colours; a value that is not shown
    because it is falsy can still leave text. *)
Inductive detail :=
| Row (label : string) (lines : list string)
| Badge (label text : string) (background color : string)
| Loose (text : string).

(** [{v && rows}] *)
Definition if_truthy (v : value) (rows : result (list detail)) : result (list detail) :=
  if truthy v then rows
  else t ← shown v; Ok (if String.eqb t EmptyString then [] else [Loose t]).

Lemma join_texts_strings l : join_texts (map VString l) = Ok l.
Proof. induction l as [|s l IH]; [done|]. cbn [map join_texts]. cbn. by rewrite IH. Qed.
Lemma array_join_strings sep l : array_join sep (map VString l) = Ok (join sep l).
Proof. unfold array_join. by rewrite join_texts_strings. Qed.
