(* ===== verification/Widgets.v ===== *)
(** * Widgets: the visualizer's controls
    (tools/visualizer/src/components/Dropdown.tsx, Modal.tsx, MenuBar.tsx, the part [Menu],
    and ui/Button.tsx)

    Each widget is its own state machine: what it keeps between renders, the user's events,
    and the calls of its callbacks, which its owner sees as outputs.  A listener on the
    document or the window runs whatever has the focus, while it is registered. *)

From S2P Require Import Prelude Collections JsNumber JsValue StableStringify Jsx.
Local Open Scope Z_scope.

(** ** Dropdown *)

Module Dropdown.

Record DropdownOption := { value : string; label : string }.
(** The properties that its owner gives it. *)
Record DropdownProps := { options : list DropdownOption; selected : string; placeholder : string }.

Record state := { isOpen : bool; hoveredIndex : option Z }.
Definition initial : state := {| isOpen := false; hoveredIndex := None |}.

Definition setIsOpen (b : bool) (s : state) : state := {| isOpen := b; hoveredIndex := hoveredIndex s |}.
Definition setHoveredIndex (f : option Z → option Z) (s : state) : state :=
  {| isOpen := isOpen s; hoveredIndex := f (hoveredIndex s) |}.

Inductive event :=
| TriggerClick
| MouseDown (inside : bool)         (* anywhere in the document *)
| KeyDown (key : string)
| OptionClick (i : nat)
| MouseEnter (i : nat)
| MouseLeave.

(** [options[i].value] *)
Definition value_at (p : DropdownProps) (i : Z) : result string :=
  if i <? 0 then Throw TypeError
  else match options p !! Z.to_nat i with Some o => Ok (value o) | None => Throw TypeError end.

Definition handleClickOutside (inside : bool) (s : state) : state :=
  if inside then s else setIsOpen false s.

(** The new state and the value given to [onChange], if it is called; an exception leaves
    the state. *)
Definition handleKeyDown (p : DropdownProps) (key : string) (s : state) : result (state * option string) :=
  let n := Z.of_nat (length (options p)) in
  if String.eqb key "Escape" then Ok (setIsOpen false s, None)
  else if String.eqb key "ArrowDown" then
    Ok (setHoveredIndex (λ prev, Some match prev with None => 0 | Some i => Z.min (i + 1) (n - 1) end) s, None)
  else if String.eqb key "ArrowUp" then
    Ok (setHoveredIndex (λ prev, Some match prev with None => n - 1 | Some i => Z.max (i - 1) 0 end) s, None)
  else
    match hoveredIndex s with
    | Some i =>
        if String.eqb key "Enter" then v ← value_at p i; Ok (setIsOpen false s, Some v) else Ok (s, None)
    | None => Ok (s, None)
    end.

Definition handleSelect (v : string) (s : state) : state * option string := (setIsOpen false s, Some v).

(** The listeners are there while it is open, and so are the options. *)
Definition step (p : DropdownProps) (e : event) (s : state) : result (state * option string) :=
  match e with
  | TriggerClick => Ok (setIsOpen (negb (isOpen s)) s, None)
  | MouseDown inside => Ok (if isOpen s then handleClickOutside inside s else s, None)
  | KeyDown key => if isOpen s then handleKeyDown p key s else Ok (s, None)
  | OptionClick i =>
      Ok (if isOpen s then match options p !! i with Some o => handleSelect (value o) s | None => (s, None) end
          else (s, None))
  | MouseEnter i =>
      Ok (if isOpen s && bool_decide (i < length (options p))%nat then setHoveredIndex (λ _, Some (Z.of_nat i)) s
          else s, None)
  | MouseLeave => Ok (if isOpen s then setHoveredIndex (λ _, None) s else s, None)
  end.

(** What is drawn: the trigger's text, and of each option its label, whether it is checked
    and whether it is lit as hovered. *)
Definition trigger_text (p : DropdownProps) : string :=
  match List.find (λ o, String.eqb (value o) (selected p)) (options p) with
  | Some o => label o
  | None => placeholder p
  end.
Definition menu (p : DropdownProps) (s : state) : option (list (string * bool * bool)) :=
  if isOpen s then
    Some (imap (λ i o,
      let isSelected := String.eqb (value o) (selected p) in
      let isHovered := bool_decide (hoveredIndex s = Some (Z.of_nat i)) in
      (label o, isSelected, isHovered && negb isSelected)) (options p))
  else None.

(** A run under properties that may change with each event, the values chosen, and the
    exceptions that listeners let out: the state stays then. *)
Record run_state := { now : state; chosen : list string; uncaught : nat }.
Definition run_step (r : run_state) (pe : DropdownProps * event) : run_state :=
  match step pe.1 pe.2 (now r) with
  | Ok (s, out) => {| now := s; chosen := chosen r ++ option_list out; uncaught := uncaught r |}
  | Throw _ => {| now := now r; chosen := chosen r; uncaught := S (uncaught r) |}
  end.
Definition run (l : list (DropdownProps * event)) : run_state :=
  foldl run_step {| now := initial; chosen := []; uncaught := 0 |} l.

(** The hovered option exists. *)
Definition in_range (n : nat) (s : state) : Prop :=
  match hoveredIndex s with None => True | Some i => 0 <= i < Z.of_nat n end.

Lemma in_range_more n m s : (n ≤ m)%nat → in_range n s → in_range m s.
Proof. unfold in_range. destruct (hoveredIndex s); [lia|done]. Qed.

Lemma value_at_in_range p i :
  0 <= i < Z.of_nat (length (options p)) → ∃ o, options p !! Z.to_nat i = Some o ∧ value_at p i = Ok (value o).
Proof.
  intros Hi. unfold value_at. replace (i <? 0) with false by (symmetry; apply Z.ltb_ge; lia).
  destruct (lookup_lt_is_Some_2 (options p) (Z.to_nat i)) as [o Ho]; [lia|]. rewrite Ho. eauto.
Qed.

(** One event: no exception, the hovered option exists again, and a value that is chosen is
    that of an option. *)
Lemma step_in_range p e s :
  options p ≠ [] → in_range (length (options p)) s →
  ∃ s' out, step p e s = Ok (s', out) ∧ in_range (length (options p)) s' ∧
    ∀ v, out = Some v → isOpen s = true ∧ isOpen s' = false ∧ ∃ o, o ∈ options p ∧ value o = v.
Proof.
  intros Hne Hr. assert (1 ≤ length (options p))%nat as H1 by (destruct (options p); [done|cbn; lia]).
  unfold in_range in Hr.
  destruct e as [|inside|key|i|i|]; cbn [step].
  - by eexists _, _.
  - eexists _, _. split; [done|]. split; [|done]. by destruct (isOpen s), inside.
  - destruct (isOpen s) eqn:Ho; [|by eexists _, _]. unfold handleKeyDown. cbv zeta.
    destruct (String.eqb key "Escape"); [by eexists _, _|].
    destruct (String.eqb key "ArrowDown").
    { eexists _, _. split; [done|]. split; [|done]. unfold in_range. cbn. destruct (hoveredIndex s); lia. }
    destruct (String.eqb key "ArrowUp").
    { eexists _, _. split; [done|]. split; [|done]. unfold in_range. cbn. destruct (hoveredIndex s); lia. }
    unfold in_range. destruct (hoveredIndex s) as [i|] eqn:Hi.
    + destruct (String.eqb key "Enter"); [|eexists _, _; split; [done|]; by rewrite Hi].
      destruct (value_at_in_range p i Hr) as (o & Hlook & ->). eexists _, _. split; [done|]. cbn. rewrite Hi.
      split; [done|]. intros v [= <-]. split_and!; [done..|]. exists o. split; [by eapply list_elem_of_lookup_2|done].
    + eexists _, _. split; [done|]. by rewrite Hi.
  - destruct (isOpen s) eqn:Ho; [|by eexists _, _]. destruct (options p !! i) as [o|] eqn:Hi; [|by eexists _, _].
    eexists _, _. split; [done|]. split; [done|]. cbn. intros v [= <-]. split_and!; [done..|].
    exists o. split; [by eapply list_elem_of_lookup_2|done].
  - eexists _, _. split; [done|]. split; [|done]. destruct (isOpen s); [|done]. case_bool_decide; [|done].
    unfold in_range. cbn. lia.
  - eexists _, _. split; [done|]. split; [|done]. by destruct (isOpen s).
Qed.

(** The menu is closed whenever a value is chosen, and nothing else is drawn lit than one
    option that is not the selected one. *)
Lemma menu_lit_once p s rows i j ri rj :
  menu p s = Some rows → rows !! i = Some ri → rows !! j = Some rj → ri.2 = true → rj.2 = true → i = j ∧ ri.1.2 = false.
Proof.
  unfold menu. destruct (isOpen s); [|done]. intros [= <-]. rewrite !list_lookup_imap.
  destruct (options p !! i), (options p !! j); cbn; try done. intros [= <-] [= <-]. cbn.
  rewrite !andb_true_iff, !bool_decide_eq_true, negb_true_iff. intros [-> Hn] [[= Hij] _]. split; [lia|done].
Qed.

Definition lengths (l : list (DropdownProps * event)) : list nat := (λ pe, length (options pe.1)) <$> l.
Definition offered (l : list (DropdownProps * event)) (v : string) : Prop :=
  ∃ pe o, pe ∈ l ∧ o ∈ options pe.1 ∧ value o = v.

Lemma run_step_in_range p e r :
  options p ≠ [] → in_range (length (options p)) (now r) →
  uncaught (run_step r (p, e)) = uncaught r ∧ in_range (length (options p)) (now (run_step r (p, e))) ∧
  ∀ v, v ∈ chosen (run_step r (p, e)) → v ∈ chosen r ∨ offered [(p, e)] v.
Proof.
  intros Hne Hr. destruct (step_in_range p e (now r) Hne Hr) as (s' & out & Hs & Hr' & Hout).
  unfold run_step. cbn. rewrite Hs. cbn. split_and!; [done..|]. intros v [Hv|Hv]%elem_of_app; [by left|].
  right. destruct out as [w|]; cbn in Hv; [|by apply elem_of_nil in Hv].
  apply list_elem_of_singleton in Hv as ->. destruct (Hout w eq_refl) as (_ & _ & o & Ho & <-).
  exists (p, e), o. split_and!; [by left|done..].
Qed.

Lemma run_from n r l :
  in_range n (now r) → Forall (λ pe, options pe.1 ≠ []) l → Forall (λ m, n ≤ m)%nat (lengths l) →
  StronglySorted Nat.le (lengths l) →
  uncaught (foldl run_step r l) = uncaught r ∧
  ∀ v, v ∈ chosen (foldl run_step r l) → v ∈ chosen r ∨ offered l v.
Proof.
  revert n r. induction l as [|[p e] l IH]; cbn [foldl]; intros n r Hr Hne Hn Hs; [by split; [|left]|].
  apply Forall_cons in Hne as [Hp Hne]. apply Forall_cons in Hn as [Hpn _].
  apply StronglySorted_inv in Hs as [Hs Hle]. cbn in Hp, Hpn, Hle.
  destruct (run_step_in_range p e r Hp (in_range_more _ _ _ Hpn Hr)) as (Hu & Hr' & Hc).
  destruct (IH _ _ Hr' Hne Hle Hs) as [Hu' Hc']. split; [by rewrite Hu'|]. intros v Hv.
  destruct (Hc' v Hv) as [Hv'|(pe & o & Hpe & Ho)]; [|right; exists pe, o; by split; [right|]].
  destruct (Hc v Hv') as [|(pe & o & Hpe & Ho)]; [by left|]. right. exists pe, o. split; [|done].
  apply list_elem_of_singleton in Hpe as ->. by left.
Qed.

(** C29: While a dropdown's options never become fewer, and there is one, no event (a click on
    the trigger, on an option or elsewhere, a key, the pointer over an option) makes a
    listener throw, and every value given to [onChange] is the value of an option that was
    shown. *)
Theorem dropdown_safe l :
  Forall (λ pe, options pe.1 ≠ []) l → StronglySorted Nat.le (lengths l) →
  uncaught (run l) = 0%nat ∧ ∀ v, v ∈ chosen (run l) → offered l v.
Proof.
  intros Hne Hs. destruct (run_from 0 {| now := initial; chosen := []; uncaught := 0 |} l) as [Hu Hc].
  - done.
  - done.
  - apply Forall_forall. lia.
  - done.
  - split; [done|]. intros v [Hv|Hv]%Hc; [by apply elem_of_nil in Hv|done].
Qed.

Definition opt (v : string) : DropdownOption := {| value := v; label := "Plan " +:+ v |}.
Definition sample_props (vs : list string) : DropdownProps :=
  {| options := map opt vs; selected := "__new__"; placeholder := "Select..." |}.
Definition sample_events : list (DropdownProps * event) :=
  [(sample_props ["__new__"; "a"], TriggerClick); (sample_props ["__new__"; "a"], KeyDown "ArrowUp");
   (sample_props ["__new__"; "a"; "b"], KeyDown "ArrowDown"); (sample_props ["__new__"; "a"; "b"], KeyDown "Enter")].

Lemma dropdown_safe_witness :
  chosen (run sample_events) = ["b"] ∧ uncaught (run sample_events) = 0%nat ∧
  ∀ v, v ∈ chosen (run sample_events) → offered sample_events v.
Proof.
  split; [vm_compute; reflexivity|].
  apply (dropdown_safe sample_events); [repeat constructor; done|repeat constructor; cbn; lia].
Defined.

(** When they become fewer, it can: the hovered index outlives the menu.  The second plan is
    chosen with a click, it is deleted, the menu is opened again and Enter is pressed. *)
Definition deleted_events : list (DropdownProps * event) :=
  [(sample_props ["__new__"; "a"], TriggerClick); (sample_props ["__new__"; "a"], MouseEnter 1);
   (sample_props ["__new__"; "a"], OptionClick 1);
   (sample_props ["__new__"], TriggerClick); (sample_props ["__new__"], KeyDown "Enter")].
Lemma dropdown_stale_index :
  run deleted_events = {| now := {| isOpen := true; hoveredIndex := Some 1 |}; chosen := ["a"]; uncaught := 1 |}.
Proof. reflexivity. Qed.

(** From a fresh dropdown, [k + 1] presses of ArrowDown and Enter choose option [k], or the
    last one if there are fewer. *)
Definition press (p : DropdownProps) (keys : list string) : list (DropdownProps * event) :=
  (p, TriggerClick) :: map (λ k, (p, KeyDown k)) keys.

Lemma run_down p (h : Z) k r :
  isOpen (now r) = true → hoveredIndex (now r) = Some h → 0 <= h < Z.of_nat (length (options p)) →
  foldl run_step r (map (λ k, (p, KeyDown k)) (replicate k "ArrowDown")) =
  {| now := {| isOpen := true; hoveredIndex := Some (Z.min (h + Z.of_nat k) (Z.of_nat (length (options p)) - 1)) |};
     chosen := chosen r; uncaught := uncaught r |}.
Proof.
  revert h r. induction k as [|k IH]; intros h [[o i] c u] Ho Hi Hh; cbn in Ho, Hi; subst o i.
  - cbn. do 3 f_equal. lia.
  - cbn [replicate map foldl]. unfold run_step at 2. cbn -[Z.min]. unfold setHoveredIndex. cbn -[Z.min].
    rewrite app_nil_r. rewrite (IH (Z.min (h + 1) (Z.of_nat (length (options p)) - 1))); [|done|done|lia].
    cbn -[Z.min]. do 3 f_equal. lia.
Qed.

Theorem dropdown_keyboard p k o :
  options p !! (k `min` (length (options p) - 1))%nat = Some o →
  run (press p (replicate (S k) "ArrowDown" ++ ["Enter"])) =
  {| now := {| isOpen := false; hoveredIndex := Some (Z.of_nat (k `min` (length (options p) - 1))) |};
     chosen := [value o]; uncaught := 0 |}.
Proof.
  intros Ho. pose proof (lookup_lt_Some _ _ _ Ho) as Hlt. unfold run, press. cbn [replicate app map foldl].
  rewrite map_app, foldl_app. unfold run_step at 3 4. cbn. rewrite (run_down p 0); [|done|done|lia]. cbn [map foldl chosen uncaught].
  unfold run_step. cbn -[Z.min]. unfold value_at.
  replace (Z.min (0 + Z.of_nat k) (Z.of_nat (length (options p)) - 1))
    with (Z.of_nat (k `min` (length (options p) - 1))) by lia.
  replace (Z.of_nat _ <? 0) with false by (symmetry; apply Z.ltb_ge; lia). by rewrite Nat2Z.id, Ho.
Qed.

End Dropdown.

(** ** Dialogs *)

(** What a dialog calls; both are its owner's. *)
Inductive call := Confirm (value : string) | Cancel.

Module PromptModal.

(** It keeps the text, which starts as the default given when it appears.  Clicks inside
    the dialog stop there, and a disabled button has none. *)
Inductive event :=
| Typed (v : string)
| KeyInInput (key : string)
| OverlayClick
| CancelClick
| SaveClick.

Definition mount (defaultValue : option string) : string := default EmptyString defaultValue.
Definition blank (value : string) : bool := String.eqb (trim value) EmptyString.
Definition save_disabled (value : string) : bool := blank value.

Definition handleKeyDown (key : string) (value : string) : option call :=
  if String.eqb key "Enter" && negb (blank value) then Some (Confirm (trim value))
  else if String.eqb key "Escape" then Some Cancel
  else None.

Definition step (e : event) (value : string) : string * option call :=
  match e with
  | Typed v => (v, None)
  | KeyInInput key => (value, handleKeyDown key value)
  | OverlayClick | CancelClick => (value, Some Cancel)
  | SaveClick => (value, if save_disabled value then None else Some (Confirm (trim value)))
  end.

(** A name is given exactly by Enter and by the button, it is the text shown without the
    space around it, and it is never empty. *)
Lemma confirms e value v :
  (step e value).2 = Some (Confirm v) ↔
  (e = KeyInInput "Enter" ∨ e = SaveClick) ∧ v = trim value ∧ v ≠ EmptyString.
Proof.
  destruct e as [w|key| | |]; cbn [step snd]; unfold handleKeyDown, save_disabled, blank;
    destruct (String.eqb_spec (trim value) EmptyString) as [E|E];
    try destruct (String.eqb_spec key "Enter") as [->|Hk]; try destruct (String.eqb_spec key "Escape") as [->|Hk'];
    cbn; naive_solver.
Qed.
Lemma blank_cancels_only e value c : blank value = true → (step e value).2 = Some c → c = Cancel.
Proof.
  intros Hb Hc. destruct c as [v|]; [|done]. apply confirms in Hc as (_ & -> & Hne).
  apply String.eqb_eq in Hb. by rewrite Hb in Hne.
Qed.

End PromptModal.

Module ConfirmModal.

Inductive focus := OnCancelButton | OnConfirmButton | Elsewhere.
Inductive event :=
| WindowKey (at_ : focus) (key : string)
| OverlayClick
| CancelClick
| ConfirmClick.

(** The listener is the window's: it does not ask where the key was pressed. *)
Definition handleKeyDown (at_ : focus) (key : string) : list call :=
  (if String.eqb key "Escape" then [Cancel] else []) ++
  (if String.eqb key "Enter" then [Confirm EmptyString] else []).
Definition step (e : event) : list call :=
  match e with
  | WindowKey at_ key => handleKeyDown at_ key
  | OverlayClick | CancelClick => [Cancel]
  | ConfirmClick => [Confirm EmptyString]
  end.

(** Pressing Enter on Cancel confirms. *)
Lemma enter_on_cancel : step (WindowKey OnCancelButton "Enter") = [Confirm EmptyString].
Proof. reflexivity. Qed.
Lemma at_most_one_call e : (length (step e) ≤ 1)%nat.
Proof.
  destruct e as [a key| | |]; cbn; try lia. unfold handleKeyDown.
  destruct (String.eqb_spec key "Escape") as [->|]; [done|]. destruct (String.eqb key "Enter"); cbn; lia.
Qed.

End ConfirmModal.

(** ** Menus *)

Module Menu.

(** Two menus stand next to each other, named by their labels; each keeps whether it is
    open, and listens to the document's presses while it is. *)
Local Abbreviation state := (gmap string bool).
Inductive target := TriggerOf (menu : string) | ItemOf (menu : string) (i : nat) | Outside.
Definition menu_of (t : target) : option string :=
  match t with TriggerOf m | ItemOf m _ => Some m | Outside => None end.

Definition is_open (m : string) (s : state) : bool := default false (s !! m).
Definition handleClickOutside (t : target) (s : state) : state :=
  map_imap (λ m o, Some (if bool_decide (menu_of t = Some m) then o else false)) s.

(** What a click does, with the item that is carried out; items that are disabled, or whose
    menu is closed, have none. *)
Definition click (disabled : string → nat → bool) (t : target) (s : state) : state * option (string * nat) :=
  match t with
  | TriggerOf m => (<[m := negb (is_open m s)]> s, None)
  | ItemOf m i => if is_open m s && negb (disabled m i) then (<[m := false]> s, Some (m, i)) else (s, None)
  | Outside => (s, None)
  end.

(** With the pointer a press comes first; with the keyboard there is none. *)
Definition pointer_click (disabled : string → nat → bool) (t : target) (s : state) : state * option (string * nat) :=
  click disabled t (handleClickOutside t s).

Definition one_open (s : state) : Prop := ∀ m m', is_open m s = true → is_open m' s = true → m = m'.

Lemma open_after_press t m s : is_open m (handleClickOutside t s) = true → menu_of t = Some m ∧ is_open m s = true.
Proof.
  unfold is_open, handleClickOutside. rewrite map_lookup_imap. destruct (s !! m) as [o|]; [|done]. cbn.
  case_bool_decide; [by destruct o|done].
Qed.
Lemma is_open_insert m m' b s : is_open m' (<[m := b]> s) = if bool_decide (m = m') then b else is_open m' s.
Proof.
  unfold is_open. case_bool_decide as H; [subst; by rewrite lookup_insert_eq|by rewrite lookup_insert_ne].
Qed.

(** Clicks with the pointer leave at most one menu open, and the item that is carried out
    is one that was shown and is not disabled: its menu is closed after it. *)
Theorem pointer_opens_one disabled t s :
  one_open (pointer_click disabled t s).1 ∧
  ∀ m i, (pointer_click disabled t s).2 = Some (m, i) →
    t = ItemOf m i ∧ is_open m s = true ∧ disabled m i = false ∧ is_open m (pointer_click disabled t s).1 = false.
Proof.
  unfold pointer_click. set (s' := handleClickOutside t s).
  assert (∀ m, is_open m s' = true → menu_of t = Some m ∧ is_open m s = true) as Hp by (intros m; apply open_after_press).
  split.
  - assert (∀ m, is_open m (click disabled t s').1 = true → menu_of t = Some m) as H.
    { intros m. destruct t as [k|k i|]; cbn [click].
      - cbn. rewrite is_open_insert. case_bool_decide as E; [by intros _; rewrite E|]. apply Hp.
      - destruct (_ && _); cbn; [|apply Hp]. rewrite is_open_insert. case_bool_decide; [done|apply Hp].
      - apply Hp. }
    intros m m' H1%H H2%H. rewrite H1 in H2. by injection H2.
  - intros m i. destruct t as [k|k j|]; cbn [click]; [done| |done].
    destruct (is_open k s') eqn:Ho; cbn; [|done]. destruct (disabled k j) eqn:Hd; cbn; [done|]. intros [= <- <-].
    split_and!; [done|by apply Hp|done|]. rewrite is_open_insert. by rewrite bool_decide_true.
Qed.

End Menu.

(** ** Buttons *)

Module Button.

Inductive ButtonVariant := primary | secondary | danger | ghost.
Inductive ButtonSize := sm | md | lg.
(** An object of style properties; numbers as the text they are written as. *)
Local Abbreviation style := (list (string * string)).
Record variant_style := { default_ : style; hover : style; disabled_ : style }.

Definition baseStyles : style :=
  [("display", "inline-flex"); ("alignItems", "center"); ("justifyContent", "center"); ("borderRadius", "8px");
   ("cursor", "pointer"); ("fontWeight", "500"); ("transition", "all 0.15s ease");
   ("fontFamily", "-apple-system, BlinkMacSystemFont, " +:+ quoted "Segoe UI" +:+ ", Roboto, sans-serif");
   ("border", "none"); ("outline", "none")].
Definition sizeStyles (s : ButtonSize) : style :=
  match s with
  | sm => [("padding", "6px 12px"); ("fontSize", "12px")]
  | md => [("padding", "10px 20px"); ("fontSize", "14px")]
  | lg => [("padding", "12px 24px"); ("fontSize", "16px")]
  end.
Definition variantStyles (v : ButtonVariant) : variant_style :=
  match v with
  | primary => {| default_ := [("background", "#0092ff"); ("color", "#fff")]; hover := [("background", "#0080e0")];
      disabled_ := [("background", "#ccc"); ("cursor", "not-allowed")] |}
  | secondary => {| default_ := [("background", "#f5f5f5"); ("color", "#333"); ("border", "1px solid #e0e0e0")];
      hover := [("background", "#eee")];
      disabled_ := [("background", "#f5f5f5"); ("color", "#999"); ("cursor", "not-allowed")] |}
  | danger => {| default_ := [("background", "#dc3545"); ("color", "#fff")]; hover := [("background", "#c82333")];
      disabled_ := [("background", "#e99"); ("cursor", "not-allowed")] |}
  | ghost => {| default_ := [("background", "transparent"); ("color", "#666")];
      hover := [("background", "#f5f5f5"); ("color", "#333")]; disabled_ := [("color", "#ccc"); ("cursor", "not-allowed")] |}
  end.

(** [Object.assign(target, source)], and an object literal of spreads *)
Definition assign (target : gmap string string) (source : style) : gmap string string :=
  foldl (λ m kv, <[kv.1 := kv.2]> m) target source.
Definition rendered (v : ButtonVariant) (size : ButtonSize) (disabled : bool) (custom : style) : gmap string string :=
  foldl assign ∅
    [baseStyles; sizeStyles size; default_ (variantStyles v);
     if disabled then disabled_ (variantStyles v) else []; custom].

Definition onMouseEnter (v : ButtonVariant) (disabled : bool) (element : gmap string string) : gmap string string :=
  if disabled then element else assign element (hover (variantStyles v)).
Definition onMouseLeave (v : ButtonVariant) (disabled : bool) (element : gmap string string) : gmap string string :=
  if disabled then element else assign element (default_ (variantStyles v)).

Definition keys_of (s : style) : list string := s.*1.

Lemma assign_other k s m : k ∉ keys_of s → assign m s !! k = m !! k.
Proof.
  unfold assign. revert m. induction s as [|[k' v] s IH]; intros m Hk; [done|]. cbn in Hk |- *.
  apply not_elem_of_cons in Hk as [Hne Hk]. rewrite (IH _ Hk). by rewrite lookup_insert_ne.
Qed.
Lemma assign_same k s m m' : k ∈ keys_of s → assign m s !! k = assign m' s !! k.
Proof.
  unfold assign. revert m m'. induction s as [|[k' v] s IH]; intros m m' Hk; [by apply elem_of_nil in Hk|].
  destruct (decide (k ∈ keys_of s)) as [Hin|Hout]; [by apply IH|]. apply elem_of_cons in Hk as [->|]; [|done].
  cbn [foldl]. change (assign (<[k' := v]> m) s !! k' = assign (<[k' := v]> m') s !! k').
  by rewrite !assign_other, !lookup_insert_eq by done.
Qed.
Lemma hover_within_default v k : k ∈ keys_of (hover (variantStyles v)) → k ∈ keys_of (default_ (variantStyles v)).
Proof. apply (elem_of_subseteq (C:=list string)). destruct v; vm_compute; set_solver. Qed.

(** Once the pointer has left, the button looks as it was drawn, unless its own style sets
    something that its variant sets too: that is then the variant's. *)
Theorem leave_restores v size disabled custom :
  (∀ k, k ∈ keys_of custom → k ∉ keys_of (default_ (variantStyles v))) →
  let drawn := rendered v size disabled custom in
  onMouseLeave v disabled (onMouseEnter v disabled drawn) = drawn.
Proof.
  intros Hc. cbv zeta. destruct disabled; [done|]. cbn [onMouseEnter onMouseLeave]. apply map_eq. intros k.
  destruct (decide (k ∈ keys_of (default_ (variantStyles v)))) as [Hk|Hk].
  - unfold rendered. cbn [foldl]. rewrite (assign_other k custom) by (intros Hin; by apply (Hc k)).
    cbn [assign foldl]. by apply assign_same.
  - rewrite assign_other by done. apply assign_other. intros Hin. by apply Hk, hover_within_default.
Qed.
Lemma leave_overwrites :
  let drawn := rendered primary md false [("background", "red")] in
  drawn !! "background" = Some "red" ∧
  onMouseLeave primary false (onMouseEnter primary false drawn) !! "background" = Some "#0092ff".
Proof. by vm_compute. Qed.

End Button.
