(* ===== verification/Hover.v ===== *)
(** * Hover: styles that handlers change
    (the inline styles of tools/visualizer/src/components and App.tsx, and theme.ts)

    An element is drawn with a style object.  React compares it with the one before and
    writes only what differs into the element's declarations, while handlers of the pointer
    (or of the focus) write there themselves.  Whether an element then looks as it was
    drawn, whenever the pointer is not over it, is decided for each element by exploring the
    states that it can reach; the checker is proved sound. *)

From S2P Require Import Prelude Collections.

(** ** Colours *)

Module Dracula.
Definition background : string := "#ffffff".
Definition currentLine : string := "#f4f4f4".
Definition foreground : string := "#000000".
Definition comment : string := "#666666".
Definition cyan : string := "#0092ff".
Definition green : string := "#00c986".
Definition purple : string := "#0092ff".
Definition red : string := "#ff0037".
Definition border : string := "#e0e0e0".
Definition hover : string := "#f4f4f4".
Definition selected : string := "#e8e8e8".
Definition buttonBg : string := "#f4f4f4".
Definition buttonHover : string := "#e0e0e0".
End Dracula.

(** ** Declarations *)

Local Abbreviation style := (list (string * string)).
Local Abbreviation declarations := (gmap string string).

(** [{ ...a, ...b }]: a property keeps its place and takes the later value. *)
Fixpoint put (k v : string) (o : style) : style :=
  match o with
  | [] => [(k, v)]
  | (k', v') :: o' => if String.eqb k k' then (k, v) :: o' else (k', v') :: put k v o'
  end.
Definition spread (a b : style) : style := foldl (λ o kv, put kv.1 kv.2 o) a b.

(** [border] is short for three properties; the others that are used stand for themselves. *)
Fixpoint words (w s : string) : list string :=
  match s with
  | EmptyString => [w]
  | String c s' => if Ascii.eqb c " " then w :: words EmptyString s' else words (w +:+ String c EmptyString) s'
  end.
Definition expand (k v : string) : style :=
  if String.eqb k "border" then
    match words EmptyString v with
    | [w; s; c] => [("borderWidth", w); ("borderStyle", s); ("borderColor", c)]
    | _ => [("borderWidth", EmptyString); ("borderStyle", v); ("borderColor", EmptyString)]
    end
  else [(k, v)].

(** [element.style[k] = v]; the empty text removes it. *)
Definition write1 (d : declarations) (kv : string * string) : declarations :=
  if String.eqb kv.2 EmptyString then delete kv.1 d else <[kv.1 := kv.2]> d.
Definition write (d : declarations) (kv : string * string) : declarations := foldl write1 d (expand kv.1 kv.2).
Definition write_all (d : declarations) (o : style) : declarations := foldl write d o.

(** What React writes: removed properties first, then those that are new or differ. *)
Definition value_in (o : style) (k : string) : option string := snd <$> List.find (λ kv, String.eqb kv.1 k) o.
Definition updates (prev next : style) : style :=
  map (λ kv, (kv.1, EmptyString)) (List.filter (λ kv, bool_decide (value_in next kv.1 = None)) prev) ++
  List.filter (λ kv, negb (bool_decide (value_in prev kv.1 = Some kv.2))) next.
Definition fresh (o : style) : declarations := write_all ∅ o.

(** A property that is not declared has its initial value. *)
Definition initial_value (k : string) : option string :=
  if String.eqb k "background" then Some "transparent"
  else if String.eqb k "opacity" then Some "1"
  else if String.eqb k "borderColor" then Some "currentcolor"
  else None.
Definition looks (d : declarations) : declarations := filter (λ kv, initial_value kv.1 ≠ Some kv.2) d.

(** ** Elements *)

(** How it is drawn, and what its handlers write, while it is active (selected, open) or
    not. *)
Record element := { drawn : bool → style; onEnter : bool → style; onLeave : bool → style }.

Inductive event := Enter | Leave | Render (active : bool).
Record state := { decl : declarations; active : bool; over : bool }.
#[export] Instance state_dec : EqDecision state.
Proof. solve_decision. Defined.

Definition first (h : element) (b : bool) : state := {| decl := fresh (drawn h b); active := b; over := false |}.
Definition step (h : element) (s : state) (e : event) : state :=
  match e with
  | Enter =>
      if over s then s
      else {| decl := write_all (decl s) (onEnter h (active s)); active := active s; over := true |}
  | Leave =>
      if over s then {| decl := write_all (decl s) (onLeave h (active s)); active := active s; over := false |}
      else s
  | Render b =>
      {| decl := write_all (decl s) (updates (drawn h (active s)) (drawn h b)); active := b; over := over s |}
  end.

(** It looks as it is drawn. *)
Definition as_drawn (h : element) (s : state) : bool :=
  over s || bool_decide (looks (decl s) = looks (fresh (drawn h (active s)))).

(** ** The checker *)

Definition all_events : list event := [Enter; Leave; Render true; Render false].
Fixpoint explore (h : element) (fuel : nat) (seen frontier : list state) : list state :=
  match fuel with
  | 0 => seen
  | S fuel =>
      let next := remove_dups (List.filter (λ s, bool_decide (s ∉ seen))
        (concat (map (λ s, map (step h s) all_events) frontier))) in
      match next with [] => seen | _ => explore h fuel (seen ++ next) next end
  end.
Definition states (h : element) : list state :=
  let start := remove_dups [first h true; first h false] in explore h 10 start start.
Definition closed (h : element) (l : list state) : bool :=
  forallb (λ s, forallb (λ e, bool_decide (step h s e ∈ l)) all_events) l &&
  forallb (λ b, bool_decide (first h b ∈ l)) [true; false].
Definition restored (h : element) : bool := closed h (states h) && forallb (as_drawn h) (states h).

Lemma all_events_all e : e ∈ all_events.
Proof. unfold all_events. destruct e as [| |[]]; set_solver. Qed.
Lemma forallb_elem {A} (f : A → bool) l x : forallb f l = true → x ∈ l → f x = true.
Proof. rewrite forallb_forall. intros H Hx. by apply H, list_elem_of_In. Qed.

Lemma closed_sound h l b es : closed h l = true → foldl (step h) (first h b) es ∈ l.
Proof.
  intros [Hc Hf]%andb_true_iff.
  assert (first h b ∈ l) as H0.
  { apply (forallb_elem _ _ b) in Hf; [by apply bool_decide_eq_true in Hf|]. destruct b; set_solver. }
  generalize dependent (first h b). induction es as [|e es IH]; [done|].
  intros s Hs. cbn [foldl]. apply IH. pose proof (forallb_elem _ _ s Hc Hs) as He. cbv beta in He.
  apply (forallb_elem _ _ e) in He; [by apply bool_decide_eq_true in He|apply all_events_all].
Qed.
Lemma restored_sound h b es :
  restored h = true → as_drawn h (foldl (step h) (first h b) es) = true.
Proof.
  unfold restored. generalize (states h). intros l [Hc Hd]%andb_true_iff.
  exact (forallb_elem _ _ _ Hd (closed_sound h l b es Hc)).
Qed.

(** ** The elements of the visualizer *)

Definition title : style :=
  [("fontSize", "16px"); ("fontWeight", "600"); ("color", Dracula.foreground); ("cursor", "pointer");
   ("transition", "color 0.2s")].
Definition navItem : style :=
  [("padding", "6px 14px"); ("fontSize", "12px"); ("fontWeight", "500"); ("color", Dracula.comment);
   ("background", "transparent"); ("border", "none"); ("borderRadius", "4px"); ("cursor", "pointer");
   ("transition", "all 0.15s")].
Definition navItemActive : style :=
  [("background", Dracula.background); ("color", Dracula.foreground);
   ("boxShadow", "0 1px 2px rgba(0,0,0,0.1)")].
Definition optionCard : style :=
  [("flex", "1"); ("display", "flex"); ("flexDirection", "column"); ("alignItems", "center");
   ("padding", "24px"); ("background", Dracula.currentLine); ("border", "1px solid " +:+ Dracula.border);
   ("borderRadius", "12px"); ("cursor", "pointer"); ("transition", "all 0.2s")].
Definition planButton : style :=
  [("display", "flex"); ("alignItems", "center"); ("justifyContent", "space-between");
   ("padding", "12px 16px"); ("background", Dracula.currentLine);
   ("border", "1px solid " +:+ Dracula.border); ("borderRadius", "8px"); ("color", Dracula.foreground);
   ("fontSize", "14px"); ("cursor", "pointer"); ("transition", "all 0.2s");
   ("fontFamily", "ui-monospace, monospace")].
Definition editButton : style :=
  [("padding", "4px 8px"); ("background", "transparent"); ("border", "1px solid " +:+ Dracula.border);
   ("borderRadius", "4px"); ("color", Dracula.comment); ("fontSize", "11px"); ("cursor", "pointer");
   ("transition", "all 0.15s")].
Definition toolbarButton : style :=
  [("padding", "8px 14px"); ("background", Dracula.buttonBg); ("border", "1px solid " +:+ Dracula.border);
   ("borderRadius", "6px"); ("color", Dracula.foreground); ("fontSize", "12px"); ("cursor", "pointer");
   ("transition", "all 0.2s")].
Definition sourceToggle : style :=
  [("width", "28px"); ("height", "28px"); ("display", "flex"); ("alignItems", "center");
   ("justifyContent", "center"); ("background", "transparent");
   ("border", "1px solid " +:+ Dracula.border); ("borderRadius", "4px"); ("cursor", "pointer");
   ("color", Dracula.comment); ("fontSize", "14px"); ("transition", "all 0.2s")].
Definition sourceClose : style :=
  [("width", "28px"); ("height", "28px"); ("display", "flex"); ("alignItems", "center");
   ("justifyContent", "center"); ("background", "transparent");
   ("border", "1px solid " +:+ Dracula.border); ("borderRadius", "4px"); ("cursor", "pointer");
   ("color", Dracula.comment); ("fontSize", "14px"); ("transition", "all 0.2s")].
Definition detailsToggle : style :=
  [("width", "28px"); ("height", "28px"); ("display", "flex"); ("alignItems", "center");
   ("justifyContent", "center"); ("background", "transparent");
   ("border", "1px solid " +:+ Dracula.border); ("borderRadius", "4px"); ("cursor", "pointer");
   ("color", Dracula.comment); ("fontSize", "14px"); ("transition", "all 0.2s")].
Definition secondaryButton : style :=
  [("background", "transparent"); ("color", Dracula.comment); ("border", "1px solid " +:+ Dracula.border);
   ("padding", "5px 12px"); ("borderRadius", "4px"); ("cursor", "pointer"); ("fontSize", "12px");
   ("marginLeft", "8px"); ("transition", "all 0.2s")].
Definition smallButton : style :=
  [("background", "transparent"); ("color", Dracula.comment); ("border", "1px solid " +:+ Dracula.border);
   ("padding", "3px 8px"); ("borderRadius", "4px"); ("cursor", "pointer"); ("fontSize", "11px");
   ("transition", "all 0.2s")].
Definition deleteButton : style :=
  [("background", "transparent"); ("color", Dracula.red);
   ("border", "1px solid " +:+ Dracula.red +:+ "44"); ("padding", "3px 8px"); ("borderRadius", "4px");
   ("cursor", "pointer"); ("fontSize", "11px"); ("transition", "all 0.2s")].
Definition modalInput : style :=
  [("width", "100%"); ("padding", "12px 14px"); ("fontSize", "14px"); ("background", "#f8f8f8");
   ("border", "1px solid #e0e0e0"); ("borderRadius", "8px"); ("color", "#1a1a1a");
   ("marginBottom", "20px"); ("outline", "none"); ("boxSizing", "border-box"); ("fontFamily", "inherit")].
Definition searchInput : style :=
  [("flex", "1"); ("maxWidth", "400px"); ("padding", "10px 14px");
   ("border", "1px solid " +:+ Dracula.border); ("borderRadius", "8px"); ("fontSize", "14px");
   ("fontFamily", "-apple-system, BlinkMacSystemFont, " +:+ quoted "Segoe UI" +:+ ", Roboto, sans-serif");
   ("background", Dracula.background); ("color", Dracula.foreground); ("outline", "none")].
Definition tab : style :=
  [("padding", "8px 16px"); ("border", "1px solid transparent"); ("borderRadius", "6px");
   ("background", Dracula.currentLine); ("color", Dracula.comment); ("fontSize", "13px");
   ("fontFamily", "ui-monospace, SFMono-Regular, Menlo, monospace"); ("fontWeight", "500");
   ("cursor", "pointer"); ("transition", "all 0.15s"); ("display", "flex"); ("alignItems", "center");
   ("gap", "8px")].
Definition tr : style :=
  [("cursor", "pointer"); ("transition", "background 0.1s")].
Definition trSelected : style :=
  [("background", Dracula.selected)].
Definition envButton : style :=
  [("padding", "4px 12px"); ("border", "1px solid " +:+ Dracula.border); ("borderRadius", "4px");
   ("background", Dracula.currentLine); ("color", Dracula.comment); ("fontSize", "12px");
   ("fontWeight", "500"); ("cursor", "pointer"); ("transition", "all 0.15s")].
Definition panelClose : style :=
  [("padding", "4px 8px"); ("border", "none"); ("background", "transparent"); ("color", Dracula.comment);
   ("cursor", "pointer"); ("fontSize", "16px")].
(** Elements that are always drawn the same, and those that are drawn otherwise while they
    are active: their handlers do nothing then. *)
Definition always (o enter leave : style) : element :=
  {| drawn := λ _, o; onEnter := λ _, enter; onLeave := λ _, leave |}.
Definition unless_active (o active_style enter leave : style) : element :=
  {| drawn := λ b, if b then spread o active_style else o;
     onEnter := λ b, if b then [] else enter; onLeave := λ b, if b then [] else leave |}.

Definition purple_border : style := [("borderColor", Dracula.purple); ("color", Dracula.foreground)].
Definition grey_border : style := [("borderColor", Dracula.border); ("color", Dracula.comment)].

Definition App_title : element := always title [("color", Dracula.purple)] [("color", Dracula.foreground)].
Definition nav_button : element :=
  unless_active navItem navItemActive [("color", Dracula.foreground)] [("color", Dracula.comment)].

Definition create_card : element := always optionCard
  [("borderColor", Dracula.green); ("background", Dracula.selected)]
  [("borderColor", Dracula.border); ("background", Dracula.currentLine)].
Definition registries_card : element := always optionCard
  [("borderColor", Dracula.cyan); ("background", Dracula.selected)]
  [("borderColor", Dracula.border); ("background", Dracula.currentLine)].
Definition plan_row : element := always planButton
  [("borderColor", Dracula.purple); ("background", Dracula.selected)]
  [("borderColor", Dracula.border); ("background", Dracula.currentLine)].
Definition plan_edit : element := always editButton
  [("borderColor", Dracula.green); ("color", Dracula.green)] grey_border.

Definition fit_button : element := always toolbarButton
  [("background", Dracula.buttonHover)] [("background", Dracula.buttonBg)].
Definition edit_button : element :=
  always (spread toolbarButton [("background", Dracula.green); ("color", Dracula.background)])
    [("opacity", "0.8")] [("opacity", "1")].
Definition source_show : element := always sourceToggle purple_border grey_border.
Definition source_hide : element := always sourceClose purple_border grey_border.
Definition details_toggle : element := always detailsToggle purple_border grey_border.

Definition plan_button : element := always smallButton purple_border grey_border.
Definition delete_button : element := always deleteButton
  [("background", Dracula.red +:+ "22")] [("background", "transparent")].
Definition tool_button : element := always secondaryButton purple_border grey_border.
(** Of the inputs it is the focus. *)
Definition PRIMARY_COLOR : string := "#0092ff".
Definition name_input : element := always modalInput
  [("borderColor", PRIMARY_COLOR); ("background", "#fff")] [("borderColor", "#e0e0e0"); ("background", "#f8f8f8")].
Definition search_input : element := always searchInput
  [("borderColor", Dracula.purple)] [("borderColor", Dracula.border)].

(** A menu's button and, enabled or disabled, an item of it. *)
Definition trigger_style (open : bool) : style :=
  [("padding", "4px 12px"); ("background", if open then Dracula.currentLine else "transparent"); ("border", "none");
   ("borderRadius", "4px"); ("color", Dracula.foreground); ("fontSize", "13px"); ("cursor", "pointer");
   ("transition", "background 0.15s")].
Definition menu_trigger : element :=
  {| drawn := trigger_style;
     onEnter := λ open, if open then [] else [("background", Dracula.currentLine)];
     onLeave := λ open, if open then [] else [("background", "transparent")] |}.
Definition item_style (disabled : bool) : style :=
  [("display", "block"); ("width", "100%"); ("padding", "8px 12px"); ("background", "transparent");
   ("border", "none"); ("textAlign", "left"); ("color", if disabled then Dracula.comment else Dracula.foreground); ("fontSize", "13px");
   ("cursor", if disabled then "default" else "pointer"); ("transition", "background 0.15s")].
Definition menu_item : element :=
  {| drawn := item_style;
     onEnter := λ disabled, if disabled then [] else [("background", Dracula.currentLine)];
     onLeave := λ _, [("background", "transparent")] |}.

(** A row of a registry's table, active while its panel is open, and a panel's button. *)
Definition table_row : element :=
  unless_active tr trSelected [("background", Dracula.hover)] [("background", "transparent")].
Definition close_button : element :=
  always panelClose [("color", Dracula.foreground)] [("color", Dracula.comment)].

(** The tabs and the environments: background, text and border. *)
Definition tabColors : list (string * (string * string * string)) :=
  [("keys", ("#e8f4fd", "#0066cc", "#0066cc")); ("params", ("#fff3e6", "#cc6600", "#cc6600"));
   ("features", ("#e8f8e8", "#228b22", "#228b22")); ("capabilities", ("#f3e8fd", "#7b2cbf", "#7b2cbf"));
   ("tasks", ("#ffe8ec", "#cc0033", "#cc0033")); ("endpoints", ("#e8f0f0", "#008080", "#008080"))].
Definition envColors : list (string * (string * string * string)) :=
  [("dev", ("#e8f4fd", "#0066cc", "#0066cc")); ("test", ("#fff3e6", "#cc6600", "#cc6600"));
   ("prod", ("#ffe8ec", "#cc0033", "#cc0033"))].
Definition coloured (c : string * string * string) : style :=
  [("background", c.1.1); ("color", c.1.2); ("borderColor", c.2)].
Definition tab_button (c : string * string * string) : element :=
  unless_active tab (coloured c) (coloured c) (coloured (Dracula.currentLine, Dracula.comment, "transparent")).
Definition env_button (c : string * string * string) : element :=
  unless_active envButton (coloured c) (coloured c) (coloured (Dracula.currentLine, Dracula.comment, Dracula.border)).

Definition elements : list element :=
  [App_title; nav_button; create_card; registries_card; plan_row; plan_edit; fit_button; edit_button; source_show;
   source_hide; details_toggle; plan_button; delete_button; tool_button; name_input; search_input; menu_trigger;
   menu_item; table_row; close_button].

(** Whatever the pointer does and however often it is drawn, active or not, each of these
    elements looks as it was drawn last whenever the pointer is not over it. *)
Theorem elements_restored : Forall (λ h, ∀ b es, as_drawn h (foldl (step h) (first h b) es) = true) elements.
Proof.
  assert (forallb restored elements = true) as H by by vm_compute.
  apply Forall_forall. intros h Hh b es. apply restored_sound. by apply (forallb_elem restored elements).
Qed.

(** Not so the tabs and the environments: [border] and [borderColor] are both in the style
    of the active one.  When another one is chosen React removes [borderColor], and with it
    the colour that [border] had set, which it does not write again. *)
Theorem tabs_lose_border :
  Forall (λ h,
    let left_ := foldl (step h) (first h true) [Render false] in
    as_drawn h left_ = false ∧ over left_ = false ∧ decl left_ !! "borderColor" = None ∧
    fresh (drawn h false) !! "borderColor" ≠ None)
  (map (λ c, tab_button c.2) tabColors ++ map (λ c, env_button c.2) envColors).
Proof. repeat (apply Forall_cons; split; [by vm_compute|]). apply Forall_nil. done. Qed.
