(* ===== verification/EditorPanel.v ===== *)
(** * EditorPanel: the live editor (tools/visualizer/src/components/EditorPanel.tsx)

    The panel keeps the text being edited, the plans saved in the browser and which of them
    is being edited, and compiles the text on the server.  Its handlers are functions on
    the panel; between two of them React renders, so that a handler sees the last state,
    and runs the effects ([commit]).  The store is VisStore's, the storage Preferences'. *)

From S2P Require Import Prelude StateMonad Collections JsNumber JsValue StableStringify Json.
From S2P Require Import Preferences VisGraph VisStore ShareLink.

(** ** State *)

Record SavedPlan := { id : string; name : string; plan_code : string; updatedAt : number }.
Record SavedPlansState := { plans : list SavedPlan; currentId : option string }.

Inductive Status := Ready | Compiling | Success | Failed.
Inductive Modal :=
| SaveAs (defaultName : string)
| Rename (currentName : string)
| Delete (planName : string).

(** What a component remembers. *)
Record editor := {
  code : string;
  compiling : bool;
  error : option string;
  status : Status;
  savedPlans : SavedPlansState;
  currentPlanId : option string;
  modal : option Modal;
  toast : option string;      (* [toastMessage] while [showToast] *)
}.

(** The editor with what it acts on: the timer that will save [code] and [currentPlanId]
    as they were when it was set, the requests under way, by plan name and source, the
    browser's storage and the visualizer's store. *)
Record panel := {
  ed : editor;
  timer : option (string * option string);
  requests : list (string * string);
  local : storage;
  vis : machine;
  on_screen : bool;           (* the component is mounted *)
}.

Definition with_editor (f : editor → editor) (p : panel) : panel :=
  {| ed := f (ed p); timer := timer p; requests := requests p; local := local p; vis := vis p; on_screen := on_screen p |}.
Definition with_local (s : storage) (p : panel) : panel :=
  {| ed := ed p; timer := timer p; requests := requests p; local := s; vis := vis p; on_screen := on_screen p |}.
Definition with_timer (t : option (string * option string)) (p : panel) : panel :=
  {| ed := ed p; timer := t; requests := requests p; local := local p; vis := vis p; on_screen := on_screen p |}.

Definition setCode (v : string) : panel → panel := with_editor (λ e,
  {| code := v; compiling := compiling e; error := error e; status := status e;
     savedPlans := savedPlans e; currentPlanId := currentPlanId e; modal := modal e; toast := toast e |}).
Definition setCompilation (c : bool) (err : option string) (s : Status) : panel → panel :=
  with_editor (λ e,
  {| code := code e; compiling := c; error := err; status := s;
     savedPlans := savedPlans e; currentPlanId := currentPlanId e; modal := modal e; toast := toast e |}).
Definition setSavedPlans_ (s : SavedPlansState) : panel → panel := with_editor (λ e,
  {| code := code e; compiling := compiling e; error := error e; status := status e;
     savedPlans := s; currentPlanId := currentPlanId e; modal := modal e; toast := toast e |}).
Definition setCurrentPlanId (i : option string) : panel → panel := with_editor (λ e,
  {| code := code e; compiling := compiling e; error := error e; status := status e;
     savedPlans := savedPlans e; currentPlanId := i; modal := modal e; toast := toast e |}).
Definition setModal (m : option Modal) : panel → panel := with_editor (λ e,
  {| code := code e; compiling := compiling e; error := error e; status := status e;
     savedPlans := savedPlans e; currentPlanId := currentPlanId e; modal := m; toast := toast e |}).
Definition setToast (m : option string) : panel → panel := with_editor (λ e,
  {| code := code e; compiling := compiling e; error := error e; status := status e;
     savedPlans := savedPlans e; currentPlanId := currentPlanId e; modal := modal e; toast := m |}).

(** ** Saved plans as JSON *)

Definition plan_value (p : SavedPlan) : value :=
  VObject [("id", VString (id p)); ("name", VString (name p)); ("code", VString (plan_code p));
           ("updatedAt", VNumber (updatedAt p))].
Definition state_value (s : SavedPlansState) : value :=
  VObject [("plans", VArray (map plan_value (plans s))); ("currentId", or_null (currentId s))].

(** A value of the types SavedPlan and SavedPlansState; storage written by other programs
    can hold more. *)
Definition plan_of (v : value) : option SavedPlan :=
  match v with
  | VObject o =>
      match map_get o "id", map_get o "name", map_get o "code", map_get o "updatedAt" with
      | Some (VString i), Some (VString n), Some (VString c), Some (VNumber t) =>
          Some {| id := i; name := n; plan_code := c; updatedAt := t |}
      | _, _, _, _ => None
      end
  | _ => None
  end.
Definition state_of (v : value) : option SavedPlansState :=
  match v with
  | VObject o =>
      match map_get o "plans", map_get o "currentId" with
      | Some (VArray l), Some c =>
          ps ← mapM plan_of l;
          match c with
          | VString i => Some {| plans := ps; currentId := Some i |}
          | VNull => Some {| plans := ps; currentId := None |}
          | _ => None
          end
      | _, _ => None
      end
  | _ => None
  end.

(** ** The plan's name in its source *)

Definition is_quote (c : ascii) : bool := (nat_of_ascii c =? 39) || (nat_of_ascii c =? 34).

(** The text before the next quote, which must be there. *)
Fixpoint to_quote (s : string) : option string :=
  match s with
  | EmptyString => None
  | String c s' => if is_quote c then Some EmptyString else String c <$> to_quote s'
  end.

(** The regular expression for [name:], space, a quote, text without quotes, a quote, at
    the start of the text: what the group matches. *)
Definition name_here (s : string) : option string :=
  match after "name:" s with
  | None => None
  | Some r =>
      match trim_left r with
      | String q r' =>
          if is_quote q then
            match to_quote r' with Some (String c n) => Some (String c n) | _ => None end
          else None
      | EmptyString => None
      end
  end.
(** The same at its first match, [code.match(...)?.[1]]. *)
Fixpoint name_match (s : string) : option string :=
  match name_here s with
  | Some n => Some n
  | None => match s with EmptyString => None | String _ s' => name_match s' end
  end.

(** ** The text that the editor starts with *)

Definition DEFAULT_PLAN : string := join newline
  ["import { definePlan, EP } from '@ranking-dsl/runtime';";
   "// Key, P, coalesce, regex are globals - no import needed";
   EmptyString;
   "export default definePlan({";
   "  name: 'my_plan',";
   "  build: (ctx) => {";
   "    // Source: viewer returns the request user's data, follow fans out to followees";
   "    const source = ctx.viewer({ endpoint: EP.redis.redis_default }).follow({ endpoint: EP.redis.redis_default, fanout: 100 });";
   EmptyString;
   "    // Score: compute final_score using natural expression syntax";
   "    // The compiler extracts Key.x * P.y expressions at compile-time";
   "    const scored = source.vm({";
   "      outKey: Key.final_score,";
   "      expr: Key.model_score_1 + Key.model_score_2 * coalesce(P.media_age_penalty_weight, 0.2),";
   "    });";
   EmptyString;
   "    // Filter: natural predicate syntax (extracted at compile-time)";
   "    // Supports: &&, ||, !, comparisons (==, !=, <, <=, >, >=), null checks, regex()";
   "    const filtered = scored.filter({";
   "      pred: Key.final_score >= 0.5 && Key.country != null,";
   "    });";
   EmptyString;
   "    // Alternative: regex pattern matching";
   "    // const filtered = scored.filter({";
   "    //   pred: regex(Key.title, " +:+ quoted "^trending" +:+ "),";
   "    // });";
   EmptyString;
   "    // Return top 10";
   "    return filtered.take({ count: 10 });";
   "  },";
   "});";
   EmptyString].

(** [if (s)] on what may be null *)
Definition nonempty (s : option string) : option string :=
  match s with Some EmptyString => None | _ => s end.

(** The plan of the link, if one was opened, then the browser's, then the template.
    [shared] is [ShareLink.code_in_hash]. *)
Definition getInitialCode (shared saved : option string) : string :=
  match shared with
  | Some c => c
  | None => match nonempty saved with Some c => c | None => DEFAULT_PLAN end
  end.

Section panel.
(** The storage, dagre and the host's message of a TypeError. *)
Context (enabled : bool) (fits : storage → bool).
Context (dagre : LayoutOptions → list (value * number * number) → list (value * value) →
  result (value → option (number * number))).
Context (host_message : string).

(** [setSavedPlans(updated); prefs.setSavedPlans(updated)] *)
Definition save_plans (s : SavedPlansState) (p : panel) : panel :=
  with_local (setSavedPlans enabled fits (local p) (state_value s)) (setSavedPlans_ s p).

(** ** Effects *)

(** [plans.map(p => p.id === i ? { ...p, code, updatedAt } : p)] and the renaming *)
Definition edit_plan (i : string) (f : SavedPlan → SavedPlan) (ps : list SavedPlan) : list SavedPlan :=
  map (λ q, if String.eqb (id q) i then f q else q) ps.
Definition put_code (c : string) (now : number) (q : SavedPlan) : SavedPlan :=
  {| id := id q; name := name q; plan_code := c; updatedAt := now |}.
Definition put_name (n : string) (q : SavedPlan) : SavedPlan :=
  {| id := id q; name := n; plan_code := plan_code q; updatedAt := updatedAt q |}.

(** The plan of another view is edited: its source comes through the store. *)
Definition take_source (p : panel) : panel :=
  match nonempty (editSourceCode (st_source (store (vis p)))) with
  | None => p
  | Some c =>
      let p := setCurrentPlanId None (setCode c p) in
      {| ed := ed p; timer := timer p; requests := requests p; local := local p;
         vis := (setEditSourceCode None (vis p)).2; on_screen := on_screen p |}
  end.

(** The timer of the last text is cleared and set anew when the text or the plan changed. *)
Definition commit (before after : panel) : panel :=
  let p := take_source after in
  if bool_decide (code (ed p) = code (ed before) ∧ currentPlanId (ed p) = currentPlanId (ed before))
  then p
  else with_timer (Some (code (ed p), currentPlanId (ed p))) p.

(** Half a second after the last change. *)
Definition timer_fires (now : number) (p : panel) : panel :=
  match timer p with
  | None => p
  | Some (c, i) =>
      let p := with_timer None (with_local (setEditorCode enabled fits (local p) c) p) in
      match nonempty i with
      | None => p
      | Some i =>
          let prev := savedPlans (ed p) in
          save_plans {| plans := edit_plan i (put_code c now) (plans prev); currentId := currentId prev |} p
      end
  end.

(** The component's first render, with the effects that follow it. *)
Definition mount (shared : option string) (s : storage) (m : machine) : option panel :=
  saved ← state_of (getSavedPlans enabled s);
  let c := getInitialCode shared (getEditorCode enabled s) in
  let p :=
    {| ed := {| code := c; compiling := false; error := None; status := Ready; savedPlans := saved;
                currentPlanId := currentId saved; modal := None; toast := None |};
       timer := Some (c, currentId saved); requests := []; local := s; vis := m; on_screen := true |} in
  Some (commit p p).

(** ** Compilation *)

Definition handleCompile (p : panel) : panel :=
  if compiling (ed p) then p
  else
    let planName := default "live_plan" (name_match (code (ed p))) in
    let p := setCompilation true None Compiling p in
    {| ed := ed p; timer := timer p; requests := requests p ++ [(planName, code (ed p))];
       local := local p; vis := vis p; on_screen := on_screen p |}.

(** What the server answers: nothing, no JSON, or a result. *)
Inductive answer := NoAnswer (message : string) | Answer (result : value).

(** The code after the request: the new status and error. *)
Definition compiled (planName : string) (r : answer) : M machine (Status * option string) :=
  try_catch
    (result ← lift (match r with NoAnswer m => Throw (Error m) | Answer v => Ok v end);
     success ← lift (get_prop result "success");
     artifact ← (if truthy success then lift (get_prop result "artifact") else mret success);
     if truthy artifact then
       loadPlan dagre artifact (VString (planName +:+ ".plan.ts (live)")) true ;;
       mret (Success, None)
     else
       phase ← lift (get_prop result "phase"); ph ← lift (template phase);
       err ← lift (get_prop result "error"); er ← lift (template err);
       mret (Failed, Some (ph +:+ ": " +:+ er)))
    (λ e, mret (Failed, Some (message_of host_message e))).

Definition response_arrives (i : nat) (r : answer) (p : panel) : panel :=
  match requests p !! i with
  | None => p
  | Some (planName, _) =>
      let '(outcome, m) := compiled planName r (vis p) in
      let '(s, e) := match outcome with Ok o => o | Throw _ => (Failed, None) end in
      let p := setCompilation false e s p in
      {| ed := ed p; timer := timer p; requests := list_delete i (requests p); local := local p;
         vis := m; on_screen := on_screen p |}
  end.

(** ** Handlers *)

(** The link that is copied, when there is one. *)
Definition handleShare (origin pathname : units) (p : panel) : option units :=
  h ← shared_hash (units_of (code (ed p))); Some (origin ++ pathname ++ h).

Definition deselect (p : panel) : SavedPlansState :=
  {| plans := plans (savedPlans (ed p)); currentId := None |}.

Definition handleReset (p : panel) : panel :=
  let updated := deselect p in
  let p := setCurrentPlanId None (setCode DEFAULT_PLAN p) in
  save_plans updated (with_local (removeEditorCode enabled (local p)) p).

Definition handleSaveAs (p : panel) : panel :=
  setModal (Some (SaveAs (default "my_plan" (name_match (code (ed p)))))) p.

(** [newId] is [generateId()] and [now] is [Date.now()]. *)
Definition confirmSaveAs (n newId : string) (now : number) (p : panel) : panel :=
  let newPlan := {| id := newId; name := n; plan_code := code (ed p); updatedAt := now |} in
  let updated := {| plans := plans (savedPlans (ed p)) ++ [newPlan]; currentId := Some newId |} in
  setToast (Some ("Saved " +:+ quoted n))
    (setModal None (save_plans updated (setCurrentPlanId (Some newId) p))).

Definition find_plan (i : string) (p : panel) : option SavedPlan :=
  List.find (λ q, String.eqb (id q) i) (plans (savedPlans (ed p))).

Definition handleSelectPlan (i : string) (p : panel) : panel :=
  if String.eqb i "__new__" then
    save_plans (deselect p) (setCurrentPlanId None (setCode DEFAULT_PLAN p))
  else
    match find_plan i p with
    | None => p
    | Some plan =>
        save_plans {| plans := plans (savedPlans (ed p)); currentId := Some (id plan) |}
          (setCurrentPlanId (Some (id plan)) (setCode (plan_code plan) p))
    end.

Definition handleDeletePlan (p : panel) : panel :=
  match i ← nonempty (currentPlanId (ed p)); find_plan i p with
  | None => p
  | Some plan => setModal (Some (Delete (name plan))) p
  end.

Definition confirmDelete (p : panel) : panel :=
  match nonempty (currentPlanId (ed p)) with
  | None => p
  | Some i =>
      let plan := find_plan i p in
      let updated :=
        {| plans := List.filter (λ q, negb (String.eqb (id q) i)) (plans (savedPlans (ed p)));
           currentId := None |} in
      let p := setModal None (save_plans updated (setCurrentPlanId None p)) in
      match plan with Some plan => setToast (Some ("Deleted " +:+ quoted (name plan))) p | None => p end
  end.

Definition handleRenamePlan (p : panel) : panel :=
  match i ← nonempty (currentPlanId (ed p)); find_plan i p with
  | None => p
  | Some plan => setModal (Some (Rename (name plan))) p
  end.

Definition confirmRename (newName : string) (p : panel) : panel :=
  match nonempty (currentPlanId (ed p)) with
  | None => p
  | Some i =>
      let prev := savedPlans (ed p) in
      setToast (Some ("Renamed to " +:+ quoted newName))
        (setModal None
          (save_plans {| plans := edit_plan i (put_name newName) (plans prev); currentId := currentId prev |} p))
  end.

Definition getStatusText (modKey : string) (s : Status) : string :=
  match s with
  | Compiling => "Compiling..."
  | Success => "Compiled successfully"
  | Failed => "Compilation failed"
  | Ready => "Ready (" +:+ modKey +:+ "Enter to compile)"
  end.

(** The choices of the selector, by value and label. *)
Definition plan_options (p : panel) : list (string * string) :=
  ("__new__", "New Plan") :: map (λ q, (id q, name q)) (plans (savedPlans (ed p))).

(** ** Events *)

Inductive event :=
| Typed (v : option string)
| StoreEvent (e : VisStore.event)
| TimerFires (now : number)
| CompileClicked
| Answered (i : nat) (r : answer)
| Copied                                        (* the link is in the clipboard *)
| ToastEnds
| ResetClicked
| SaveAsClicked
| Submitted (text newId : string) (now : number)   (* in the dialog that asks for a name *)
| Cancelled
| PlanSelected (i : string)
| DeleteClicked
| DeleteConfirmed
| RenameClicked
| Unmount.                                      (* the editor's page or mode is left *)

(** The dialog passes on the name without the space around it, and none that is empty. *)
Definition submit (text newId : string) (now : number) (p : panel) : panel :=
  if String.eqb (trim text) EmptyString then p
  else
    match modal (ed p) with
    | Some (SaveAs _) => confirmSaveAs (trim text) newId now p
    | Some (Rename _) => confirmRename (trim text) p
    | _ => p
    end.

Definition handle (e : event) (p : panel) : panel :=
  match e with
  | Typed v => setCode (default EmptyString v) p
  | StoreEvent ev =>
      {| ed := ed p; timer := timer p; requests := requests p; local := local p;
         vis := VisStore.step dagre host_message (vis p) ev; on_screen := on_screen p |}
  | TimerFires now => timer_fires now p
  | CompileClicked => handleCompile p
  | Answered i r => response_arrives i r p
  | Copied => setToast (Some "Link copied to clipboard!") p
  | ToastEnds => setToast None p
  | ResetClicked => handleReset p
  | SaveAsClicked => handleSaveAs p
  | Submitted text newId now => submit text newId now p
  | Cancelled => setModal None p
  | PlanSelected i => handleSelectPlan i p
  | DeleteClicked => handleDeletePlan p
  | DeleteConfirmed => match modal (ed p) with Some (Delete _) => confirmDelete p | _ => p end
  | RenameClicked => handleRenamePlan p
  | Unmount =>
      (* the effect's cleanup: the timer is cleared *)
      {| ed := ed p; timer := None; requests := requests p; local := local p; vis := vis p; on_screen := false |}
  end.

(** Once the component is gone there is nothing to press and React ignores its setters; the
    store lives on, and the answer to a request still shows its plan there. *)
Definition handle_away (e : event) (p : panel) : panel :=
  match e with
  | StoreEvent ev => handle (StoreEvent ev) p
  | Answered i r =>
      let q := response_arrives i r p in
      {| ed := ed p; timer := timer p; requests := requests q; local := local p; vis := vis q;
         on_screen := on_screen p |}
  | _ => p
  end.

Definition step (p : panel) (e : event) : panel :=
  if on_screen p then
    let p' := handle e p in if on_screen p' then commit p p' else p'
  else handle_away e p.
End panel.

Example template_name : name_match DEFAULT_PLAN = Some "my_plan".
Proof. by vm_compute. Qed.

(** ** Saved plans survive the storage *)

(** Ids that [generateId] makes are not empty; times are finite. *)
Definition plan_ok (q : SavedPlan) : Prop := id q ≠ EmptyString ∧ number_ok (updatedAt q).
Definition plans_ok (s : SavedPlansState) : Prop :=
  Forall plan_ok (plans s) ∧ NoDup (map id (plans s)).

Lemma plan_value_ok q : plan_ok q → json_ok (plan_value q) ∧ redefined (plan_value q) = plan_value q.
Proof.
  intros [_ Ht]. split; [cbn; tauto|reflexivity].
Qed.

Lemma state_value_ok s :
  Forall plan_ok (plans s) → json_ok (state_value s) ∧ redefined (state_value s) = state_value s.
Proof.
  intros H. assert (Forall json_ok (map plan_value (plans s)) ∧
    map redefined (map plan_value (plans s)) = map plan_value (plans s)) as [Hj Hr].
  { induction H as [|q ps Hq _ [IH1 IH2]]; [done|]. apply plan_value_ok in Hq as [??].
    cbn [map]. split; [by constructor|congruence]. }
  split.
  - unfold state_value. apply json_ok_object. repeat constructor; [by apply json_ok_array|].
    by destruct (currentId s).
  - unfold state_value. cbn [redefined map fst snd]. rewrite Hr.
    by destruct (currentId s).
Qed.

Lemma plan_of_value q : plan_of (plan_value q) = Some q.
Proof. by destruct q. Qed.
Lemma state_of_value s : state_of (state_value s) = Some s.
Proof.
  destruct s as [ps c]. unfold state_of, state_value. cbn -[mapM].
  assert (mapM plan_of (map plan_value ps) = Some ps) as ->.
  { apply mapM_Some, Forall2_fmap_l, Forall_Forall2_diag, Forall_forall.
    intros q _. apply plan_of_value. }
  by destruct c.
Qed.

Lemma saved_read s st :
  Forall plan_ok (plans st) →
  getSavedPlans true (setSavedPlans true roomy s (state_value st)) = state_value st.
Proof.
  intros [Hj Hr]%state_value_ok. destruct (stringify_ok 0 0 _ Hj) as [t Ht].
  assert (get true (setSavedPlans true roomy s (state_value st)) savedPlans_key = state_value st) as Hg.
  { rewrite <-Hr at 2. apply get_stored with t; [done..|].
    unfold setSavedPlans, Preferences.set, setItem. rewrite Ht. cbn [roomy or_else].
    by rewrite lookup_insert_eq. }
  unfold getSavedPlans. by rewrite Hg.
Qed.

Lemma saved_editor s v : getEditorCode true (setSavedPlans true roomy s v) = getEditorCode true s.
Proof.
  unfold getEditorCode, setSavedPlans, Preferences.set, setItem, getItem, or_else. cbn.
  by rewrite lookup_insert_ne.
Qed.
Lemma editor_saved s c : getSavedPlans true (setEditorCode true roomy s c) = getSavedPlans true s.
Proof.
  unfold getSavedPlans. erewrite (get_lookup true (setEditorCode true roomy s c) s); [done|].
  unfold setEditorCode, setItem, or_else. cbn. by rewrite lookup_insert_ne.
Qed.
Lemma removed_saved s : getSavedPlans true (removeEditorCode true s) = getSavedPlans true s.
Proof.
  unfold getSavedPlans. erewrite (get_lookup true (removeEditorCode true s) s); [done|].
  unfold removeEditorCode, Preferences.remove, removeItem, or_else. by rewrite lookup_delete_ne.
Qed.
Lemma editor_read s c : getEditorCode true (setEditorCode true roomy s c) = Some c.
Proof.
  unfold getEditorCode, setEditorCode, setItem, getItem, or_else. cbn. by rewrite lookup_insert_eq.
Qed.
Lemma removed_read s : getEditorCode true (removeEditorCode true s) = None.
Proof.
  unfold getEditorCode, removeEditorCode, Preferences.remove, removeItem, getItem, or_else.
  by rewrite lookup_delete_eq.
Qed.
#[export] Hint Rewrite saved_editor editor_saved removed_saved editor_read removed_read : js.

(** ** What a compilation does to the visualizer *)

Section compile.
Context (dagre : LayoutOptions → list (value * number * number) → list (value * value) →
  result (value → option (number * number))).
Context (host_message : string).

(** The plan shown, and what else a live plan leaves alone. *)
Definition shows (m : machine) (json file : value) : Prop :=
  planJson (st_plan (store m)) = json ∧ fileName (st_plan (store m)) = file ∧
  ∃ g, graph (st_plan (store m)) = Some g ∧
    (parsed ← parsePlan json; layoutGraph dagre default_options parsed) = Ok g.
Definition same_rest (m m' : machine) : Prop :=
  history m' = history m ∧ st_source (store m') = st_source (store m) ∧ pending m' = pending m ∧
  isHandlingPopState m' = isHandlingPopState m.

Lemma loadPlan_live json file m :
  (∃ e, loadPlan dagre json file true m = (Throw e, m) ∧
     ∀ g, (parsed ← parsePlan json; layoutGraph dagre default_options parsed) ≠ Ok g) ∨
  ∃ m', loadPlan dagre json file true m = (Ok tt, m') ∧ shows m' json file ∧ same_rest m m'.
Proof.
  unfold loadPlan, mbind, M_bind, lift. destruct (parsePlan json) as [parsed|e] eqn:Hp; [|by left; eexists].
  destruct (layoutGraph dagre default_options parsed) as [g|e] eqn:Hg;
    [|left; eexists; split; [done|]; intros g; cbn; by rewrite Hg].
  right. unfold set_plan, set_canvas, unless_popstate, modify, StateMonad.get, mbind, M_bind.
  eexists. split; [cbn; by destruct (isHandlingPopState m)|].
  split; [split; [done|split; [done|exists g; by rewrite Hp]]|done].
Qed.

(** The server's answer has an artifact that parses and lays out. *)
Definition displayable (r : answer) (artifact : value) : Prop :=
  ∃ v success g, r = Answer v ∧ get_prop v "success" = Ok success ∧ truthy success = true ∧
    get_prop v "artifact" = Ok artifact ∧ truthy artifact = true ∧
    (parsed ← parsePlan artifact; layoutGraph dagre default_options parsed) = Ok g.

Definition outcome_of (planName : string) (r : answer) (m m' : machine) (s : Status) (e : option string) : Prop :=
  (s = Success ∧ e = None ∧ same_rest m m' ∧
   ∃ artifact, displayable r artifact ∧ shows m' artifact (VString (planName +:+ ".plan.ts (live)"))) ∨
  (s = Failed ∧ is_Some e ∧ m' = m ∧ ∀ artifact, ¬ displayable r artifact).

Ltac fails :=
  eexists _, _, _; split; [done|]; right; split_and!; [done..|];
  let H := fresh in
  intros ? H; unfold displayable in H; destruct H as (? & ? & ? & ? & ? & ? & ? & ? & H);
  simplify_eq; congruence.

Lemma compiled_outcome planName r m :
  ∃ s e m', compiled dagre host_message planName r m = (Ok (s, e), m') ∧ outcome_of planName r m m' s e.
Proof.
  unfold compiled, try_catch, outcome_of. destruct r as [msg|v]; [fails|].
  unfold mbind, M_bind, lift. destruct (get_prop v "success") as [success|ex] eqn:Hs; [|fails].
  destruct (truthy success) eqn:Ht.
  - destruct (get_prop v "artifact") as [artifact|ex] eqn:Hg; [|fails].
    destruct (truthy artifact) eqn:Ha.
    + destruct (loadPlan_live artifact (VString (planName +:+ ".plan.ts (live)")) m)
        as [(ex & -> & Hno)|(m' & -> & Hsh & Hr)]; [fails|].
      eexists _, _, m'. split; [done|]. left. split_and!; [done..|]. exists artifact.
      split; [|done]. destruct Hsh as (_ & _ & g & _ & Hl). by exists v, success, g.
    + destruct (get_prop v "phase") as [ph|ex]; [|fails]. destruct (template ph); [|fails].
      destruct (get_prop v "error") as [er|ex]; [|fails]. destruct (template er); fails.
  - unfold mret, M_ret. rewrite Ht. destruct (get_prop v "phase") as [ph|ex]; [|fails].
    destruct (template ph); [|fails]. destruct (get_prop v "error") as [er|ex]; [|fails].
    destruct (template er); fails.
Qed.

(** a compilation sends the text under the name found in it.  It succeeds exactly when
    the server's answer has an artifact that parses and lays out; then that plan is on
    screen under that name, and neither the history nor anything else of the visualizer
    changes.  Otherwise, whatever the answer is, an error is reported and the visualizer
    stays as it was.  Text, saved plans and storage are untouched either way. *)
Theorem compilation_correct p r :
  compiling (ed p) = false → requests p = [] →
  let planName := default "live_plan" (name_match (code (ed p))) in
  let p1 := handleCompile p in
  let p2 := response_arrives dagre host_message 0 r p1 in
  requests p1 = [(planName, code (ed p))] ∧ handleCompile p1 = p1 ∧
  compiling (ed p2) = false ∧ requests p2 = [] ∧
  outcome_of planName r (vis p) (vis p2) (status (ed p2)) (error (ed p2)) ∧
  code (ed p2) = code (ed p) ∧ savedPlans (ed p2) = savedPlans (ed p) ∧
  currentPlanId (ed p2) = currentPlanId (ed p) ∧ local p2 = local p.
Proof.
  intros Hc Hr planName p1 p2.
  assert (requests p1 = [(planName, code (ed p))]) as Hr1.
  { unfold p1, handleCompile. rewrite Hc. cbn. by rewrite Hr. }
  assert (vis p1 = vis p ∧ local p1 = local p ∧ code (ed p1) = code (ed p) ∧
    savedPlans (ed p1) = savedPlans (ed p) ∧ currentPlanId (ed p1) = currentPlanId (ed p) ∧
    compiling (ed p1) = true) as (Hv & Hl & H1 & H2 & H3 & H4).
  { unfold p1, handleCompile. by rewrite Hc. }
  split; [done|]. split; [unfold handleCompile; by rewrite H4|].
  unfold p2, response_arrives. rewrite Hr1. cbn [lookup list_lookup].
  destruct (compiled_outcome planName r (vis p1)) as (st & er & m' & -> & Ho).
  cbn. split_and!; try done; [by rewrite Hr1|congruence].
Qed.
End compile.

(** ** Every run of the editor *)

Section runs.
Context (dagre : LayoutOptions → list (value * number * number) → list (value * value) →
  result (value → option (number * number))).
Context (host_message : string).
Local Abbreviation step := (step true roomy dagre host_message).
Local Abbreviation handle := (handle true roomy dagre host_message).

Definition ids (p : panel) : list string := map id (plans (savedPlans (ed p))).

(** The text is where a reload finds it, and in the plan being edited. *)
Definition settled (p : panel) : Prop :=
  getInitialCode None (getEditorCode true (local p)) = getInitialCode None (Some (code (ed p))) ∧
  ∀ q, q ∈ plans (savedPlans (ed p)) → currentPlanId (ed p) = Some (id q) → plan_code q = code (ed p).

Definition timer_inv (p : panel) : Prop :=
  match timer p with Some t => t = (code (ed p), currentPlanId (ed p)) | None => settled p end.

(** At most one compilation is under way, and the status says so. *)
Definition compile_inv (p : panel) : Prop :=
  if compiling (ed p) then length (requests p) = 1 ∧ status (ed p) = Compiling
  else (requests p = [] ∧ status (ed p) ≠ Compiling).

(** What does not depend on the effects. *)
Record handled (p : panel) : Prop := {
  h_plans : plans_ok (savedPlans (ed p));
  h_id : currentPlanId (ed p) = None ∨ currentPlanId (ed p) = currentId (savedPlans (ed p));
  h_stored : getSavedPlans true (local p) = state_value (savedPlans (ed p));
  h_compile : on_screen p = true → compile_inv p;
}.
Definition no_source (p : panel) : Prop :=
  nonempty (editSourceCode (st_source (store (vis p)))) = None.
Definition inv (p : panel) : Prop :=
  handled p ∧ if on_screen p then no_source p ∧ timer_inv p else timer p = None.

(** [Math.random] gives a new plan an id of its own; the clock gives finite times. *)
Definition event_ok (p : panel) (e : event) : Prop :=
  match e with
  | TimerFires now => number_ok now
  | Submitted _ newId now => newId ≠ EmptyString ∧ (newId ∉ ids p) ∧ number_ok now
  | _ => True
  end.

(** What becomes of the editor, which may be left and opened again on what the storage and
    the store then hold.  (An answer for the panel that was left, when it comes after the
    new one has been opened, acts on the store only: that is an event of the store.) *)
Inductive reachable (p0 : panel) : panel → Prop :=
| reachable_start : reachable p0 p0
| reachable_step p e : reachable p0 p → event_ok p e → reachable p0 (step p e)
| reachable_mount p p' shared :
    reachable p0 p → on_screen p = false → mount true shared (local p) (vis p) = Some p' → reachable p0 p'.

(** Handlers change the plans through [save_plans]. *)
Lemma save_handled st p :
  plans_ok st → (currentPlanId (ed p) = None ∨ currentPlanId (ed p) = currentId st) →
  (on_screen p = true → compile_inv p) →
  handled (save_plans true roomy st p).
Proof.
  intros Hst Hid Hc. split; cbn; [done..| |done]. by apply saved_read, Hst.
Qed.

Lemma handled_modal m p : handled p → handled (setModal m p).
Proof. by intros []. Qed.
Lemma handled_toast m p : handled p → handled (setToast m p).
Proof. by intros []. Qed.
#[local] Hint Resolve handled_modal handled_toast : core.

Lemma edit_plan_ids i f ps : (∀ q, id (f q) = id q) → map id (edit_plan i f ps) = map id ps.
Proof.
  intros Hf. unfold edit_plan. rewrite map_map. apply map_ext. intros q. by case_match.
Qed.
Lemma edit_plan_ok i f st :
  (∀ q, id (f q) = id q) → (∀ q, plan_ok q → plan_ok (f q)) →
  plans_ok st → plans_ok {| plans := edit_plan i f (plans st); currentId := currentId st |}.
Proof.
  intros Hi Hf [Hp Hn]. split; cbn.
  - unfold edit_plan. apply Forall_map. eapply Forall_impl; [exact Hp|]. intros q Hq.
    case_match; auto.
  - by rewrite edit_plan_ids.
Qed.
Lemma put_code_ok c now q : number_ok now → plan_ok q → plan_ok (put_code c now q).
Proof. intros Hn [Hi _]. by split. Qed.
Lemma put_name_ok n q : plan_ok q → plan_ok (put_name n q).
Proof. done. Qed.

Lemma filter_plans_ok f st c :
  plans_ok st → plans_ok {| plans := List.filter f (plans st); currentId := c |}.
Proof.
  intros [Hp Hd]. split; cbn.
  - rewrite Forall_forall in *. intros q Hq%list_elem_of_In%filter_In.
    apply Hp, list_elem_of_In. naive_solver.
  - revert Hd. clear. induction (plans st) as [|q ps IH]; [done|]. cbn [map List.filter].
    intros [Hq Hd]%NoDup_cons. destruct (f q); [|by apply IH]. cbn [map]. apply NoDup_cons.
    split; [|by apply IH]. intros Hin. apply Hq. apply list_elem_of_In, in_map_iff in Hin.
    apply list_elem_of_In, in_map_iff. destruct Hin as (r & Hr & [Hin _]%filter_In). eauto.
Qed.

Lemma deselect_ok p : plans_ok (savedPlans (ed p)) → plans_ok (deselect p).
Proof. done. Qed.

Lemma find_plan_Some i p q : find_plan i p = Some q → q ∈ plans (savedPlans (ed p)) ∧ id q = i.
Proof.
  unfold find_plan. intros [Hq Hi%String.eqb_eq]%find_some. by rewrite list_elem_of_In.
Qed.

Lemma handle_handled p e : on_screen p = true → event_ok p e → handled p → handled (handle e p).
Proof.
  intros Hon He H. pose proof H as [Hp Hi Hs Hc]. specialize (Hc Hon). destruct e as [v|ev|now| |i r| | | | |text newId now| |i| | | |]; cbn [handle].
  - by split.
  - by split.
  - unfold timer_fires. destruct (timer p) as [[c i]|]; [|by split].
    destruct (nonempty i) as [j|]; [|split; [done..| |done]; exact (eq_trans (editor_saved _ _) Hs)].
    apply save_handled; [|done..]. apply edit_plan_ok; [done| |done].
    intros q. by apply put_code_ok.
  - unfold handleCompile. destruct (compiling (ed p)) eqn:E; [done|].
    unfold compile_inv in Hc. rewrite E in Hc. destruct Hc as [Hr _]. split; cbn; [done..|]. intros _.
    unfold compile_inv. cbn. by rewrite Hr.
  - unfold response_arrives. destruct (requests p !! i) as [[n ?]|] eqn:E; [|by split].
    destruct (compiled_outcome dagre host_message n r (vis p)) as (st & er & m' & -> & Ho).
    split; cbn; [done..|].
    assert (st ≠ Compiling) by (destruct Ho as [(-> & _)|(-> & _)]; done).
    intros _. unfold compile_inv in *. cbn. destruct (compiling (ed p)); destruct Hc as [Hr _]; [|by rewrite Hr in E].
    destruct (requests p) as [|? [|]]; [done| |done]. destruct i as [|[|i]]; [|done..]. done.
  - by split.
  - by split.
  - unfold handleReset. apply save_handled; [done|by left|done].
  - by split.
  - unfold submit. destruct (String.eqb (trim text) EmptyString); [by split|].
    destruct (modal (ed p)) as [[]|]; [| |by split..].
    + destruct He as (Hn & Hf & Ht). destruct Hp as [Hp Hd].
      apply handled_toast, handled_modal, save_handled; [|by right|done]. split; cbn.
      * apply Forall_app. split; [done|by apply Forall_singleton].
      * rewrite map_app, NoDup_app. split_and!; [done| |by apply NoDup_singleton].
        intros x Hx ->%list_elem_of_singleton. by apply Hf.
    + unfold confirmRename. destruct (nonempty _) as [j|]; [|done].
      apply handled_toast, handled_modal, save_handled; [by apply edit_plan_ok|done..].
  - by split.
  - unfold handleSelectPlan. destruct (String.eqb i "__new__"); [apply save_handled; [done|by left|done]|].
    destruct (find_plan i p) as [q|] eqn:E; [|by split].
    apply save_handled; [done|by right|done].
  - unfold handleDeletePlan. destruct (_ ≫= _); auto.
  - destruct (modal (ed p)) as [[]|]; [by split..| |by split].
    unfold confirmDelete. destruct (nonempty _) as [j|]; [|by split].
    assert (handled (setModal None (save_plans true roomy
      {| plans := List.filter (λ q, negb (String.eqb (id q) j)) (plans (savedPlans (ed p)));
         currentId := None |} (setCurrentPlanId None p)))) as Hh.
    { apply handled_modal, save_handled; [|by left|done]. by apply filter_plans_ok. }
    destruct (find_plan j p); auto.
  - unfold handleRenamePlan. destruct (_ ≫= _); auto.
  - by split.
Qed.

Lemma timer_kept p p' :
  timer p' = timer p → code (ed p') = code (ed p) → currentPlanId (ed p') = currentPlanId (ed p) →
  (settled p → settled p') → timer_inv p → timer_inv p'.
Proof. unfold timer_inv. intros -> -> -> H. destruct (timer p); auto. Qed.

(** The editor's text in the storage is not what [save_plans] changes. *)
Lemma settled_saved p p' :
  getEditorCode true (local p') = getEditorCode true (local p) →
  code (ed p') = code (ed p) → currentPlanId (ed p') = currentPlanId (ed p) →
  (∀ q, q ∈ plans (savedPlans (ed p')) → currentPlanId (ed p) = Some (id q) →
    plan_code q = code (ed p) ∨ q ∈ plans (savedPlans (ed p)) ∨
    ∃ r, r ∈ plans (savedPlans (ed p)) ∧ id r = id q ∧ plan_code r = plan_code q) →
  settled p → settled p'.
Proof.
  intros Hl Hc Hi Hq [Hs1 Hs2]. unfold settled. rewrite Hl, Hc, Hi. split; [done|].
  intros q Hin Hid. destruct (Hq q Hin Hid) as [?|[?|(r & Hr & Hri & <-)]]; [done|by apply Hs2|].
  apply Hs2; congruence.
Qed.

Lemma edit_plan_elem i f ps q : q ∈ edit_plan i f ps → q ∈ ps ∨ ∃ r, r ∈ ps ∧ id r = i ∧ q = f r.
Proof.
  unfold edit_plan. intros Hq%list_elem_of_In%in_map_iff. destruct Hq as (r & Hr & Hin%list_elem_of_In).
  destruct (String.eqb_spec (id r) i); [|left; congruence]. right. by exists r.
Qed.

Lemma nonempty_Some s x : nonempty s = Some x → s = Some x ∧ x ≠ EmptyString.
Proof. destruct s as [[]|]; cbn; naive_solver. Qed.

Lemma timer_fires_settled now p :
  plans_ok (savedPlans (ed p)) → timer_inv p → timer_inv (timer_fires true roomy now p).
Proof.
  intros [Hp _] Ht. unfold timer_fires. destruct (timer p) as [[c i]|] eqn:E; [|done].
  unfold timer_inv in Ht. rewrite E in Ht. injection Ht as -> ->.
  destruct (nonempty _) as [j|] eqn:Hj; unfold timer_inv; cbn [timer with_timer save_plans with_local setSavedPlans_ with_editor].
  - apply nonempty_Some in Hj as [Hj _]. unfold settled. cbn [save_plans with_local local ed with_editor setSavedPlans_ with_timer code savedPlans plans currentPlanId].
    autorewrite with js. split; [done|]. intros q Hq Hid.
    rewrite Hj in Hid. injection Hid as ->.
    unfold edit_plan in Hq. apply list_elem_of_In, in_map_iff in Hq as (r & Hr & _).
    destruct (String.eqb_spec (id r) (id q)) as [?|Hne]; [by subst q|]. by subst r.
  - unfold settled. cbn [with_local local ed with_timer]. autorewrite with js. split; [done|].
    intros q Hq Hid. rewrite Forall_forall in Hp. destruct (Hp q Hq) as [Hne _].
    rewrite Hid in Hj. cbn in Hj. by destruct (id q).
Qed.

Lemma handle_timer p e :
  e ≠ Unmount → event_ok p e → handled p → timer_inv p →
  code (ed (handle e p)) = code (ed p) → currentPlanId (ed (handle e p)) = currentPlanId (ed p) →
  timer_inv (handle e p).
Proof.
  intros Hu He [Hp _ _ _] Ht Hc Hi.
  destruct e as [v|ev|now| |i r| | | | |text newId now| |i| | | |]; cbn [handle] in *;
    try (by apply (timer_kept p)).
  - apply (timer_kept p); [done..| |done]. apply settled_saved; [done..|]. auto.
  - by apply timer_fires_settled.
  - revert Hc Hi. unfold handleCompile. destruct (compiling (ed p)); [done|]. intros _ _.
    apply (timer_kept p); [done..| |done]. apply settled_saved; [done..|]. auto.
  - revert Hc Hi. unfold response_arrives. destruct (requests p !! i) as [[n ?]|]; [|done].
    destruct (compiled_outcome dagre host_message n r (vis p)) as (st & er & m' & -> & _). intros _ _.
    apply (timer_kept p); [done..| |done]. apply settled_saved; [done..|]. auto.
  - unfold handleReset in *. cbn [ed save_plans with_local with_editor setSavedPlans_ setCurrentPlanId setCode code currentPlanId] in Hc, Hi.
    apply (timer_kept p); [done..| |done]. intros _. unfold settled.
    cbn [local ed save_plans with_local with_editor setSavedPlans_ setCurrentPlanId setCode code currentPlanId].
    autorewrite with js. by split.
  - unfold submit in *. destruct (String.eqb (trim text) EmptyString); [done|].
    destruct (modal (ed p)) as [[]|]; [| |done..].
    + apply (timer_kept p); [done..| |done]. apply settled_saved; [apply saved_editor|done..|].
      cbn. intros q [Hq|Hq%list_elem_of_singleton]%elem_of_app _; subst; auto.
    + unfold confirmRename in *. destruct (nonempty _); [|done].
      apply (timer_kept p); [done..| |done]. apply settled_saved; [apply saved_editor|done..|].
      intros q [Hq|(r & Hr & _ & ->)]%edit_plan_elem _; [auto|]. right. right. by exists r.
  - unfold handleSelectPlan in *. destruct (String.eqb i "__new__").
    + apply (timer_kept p); [done..| |done]. apply settled_saved; [apply saved_editor|done..|]. auto.
    + destruct (find_plan i p); [|done].
      apply (timer_kept p); [done..| |done]. apply settled_saved; [apply saved_editor|done..|]. auto.
  - unfold handleDeletePlan in *. by destruct (_ ≫= _).
  - destruct (modal (ed p)) as [[]|]; [done..| |done]. unfold confirmDelete in *.
    destruct (nonempty (currentPlanId (ed p))) as [j|] eqn:Hj; [|done].
    apply nonempty_Some in Hj as [Hj _]. rewrite Hj in Hi. by destruct (find_plan j p).
  - unfold handleRenamePlan in *. by destruct (_ ≫= _).
Qed.

Lemma handle_source p e :
  (∀ ev, e ≠ StoreEvent ev) → st_source (store (vis (handle e p))) = st_source (store (vis p)).
Proof.
  intros He. destruct e as [v|ev|now| |i r| | | | |text newId now| |i| | | |]; cbn [handle]; try done.
  - by destruct (He ev).
  - unfold timer_fires. destruct (timer p) as [[c i]|]; [|done]. by destruct (nonempty i).
  - unfold handleCompile. by destruct (compiling (ed p)).
  - unfold response_arrives. destruct (requests p !! i) as [[n ?]|]; [|done].
    destruct (compiled_outcome dagre host_message n r (vis p)) as (st & er & m' & -> & Ho).
    cbn. by destruct Ho as [(_ & _ & (_ & -> & _) & _)|(_ & _ & -> & _)].
  - unfold submit. destruct (String.eqb (trim text) EmptyString); [done|].
    destruct (modal (ed p)) as [[]|]; try done. unfold confirmRename. by destruct (nonempty _).
  - unfold handleSelectPlan. destruct (String.eqb i "__new__"); [done|]. by destruct (find_plan i p).
  - unfold handleDeletePlan. by destruct (_ ≫= _).
  - destruct (modal (ed p)) as [[]|]; [done..| |done]. unfold confirmDelete.
    destruct (nonempty _) as [j|]; [|done]. by destruct (find_plan j p).
  - unfold handleRenamePlan. by destruct (_ ≫= _).
Qed.

Lemma take_source_handled p : handled p → handled (take_source p).
Proof.
  intros []. unfold take_source. destruct (nonempty _); [|done]. split; cbn; auto.
Qed.
Lemma take_source_none p : no_source (take_source p).
Proof.
  unfold take_source, no_source.
  destruct (nonempty (editSourceCode (st_source (store (vis p))))) eqn:E; [done|exact E].
Qed.
Lemma take_source_same p :
  local (take_source p) = local p ∧ timer (take_source p) = timer p ∧
  savedPlans (ed (take_source p)) = savedPlans (ed p) ∧
  (no_source p → take_source p = p) ∧
  (¬ no_source p → currentPlanId (ed (take_source p)) = None).
Proof. unfold take_source, no_source. destruct (nonempty _); naive_solver. Qed.

(** The effects establish what they are for. *)
Lemma commit_inv p p' :
  on_screen p' = true → handled p' →
  (code (ed (take_source p')) = code (ed p) →
   currentPlanId (ed (take_source p')) = currentPlanId (ed p) → timer_inv (take_source p')) →
  inv (commit p p').
Proof.
  intros Hon Hh Ht. unfold commit. apply take_source_handled in Hh.
  pose proof (take_source_none p') as Hn.
  assert (on_screen (take_source p') = true) as Hon' by (unfold take_source; by destruct (nonempty _)).
  case_bool_decide as Hb; unfold inv.
  - rewrite Hon'. destruct Hb. split_and!; [done..|]. by apply Ht.
  - cbn [on_screen with_timer]. rewrite Hon'. split_and!; [|done|done]. by destruct Hh.
Qed.

Lemma handle_on p e : e ≠ Unmount → on_screen (handle e p) = on_screen p.
Proof.
  intros He. destruct e as [v|ev|now| |i r| | | | |text newId now| |i| | | |]; cbn [handle]; try done.
  - unfold timer_fires. destruct (timer p) as [[c i]|]; [|done]. by destruct (nonempty i).
  - unfold handleCompile. by destruct (compiling (ed p)).
  - unfold response_arrives. destruct (requests p !! i) as [[n ?]|]; [|done].
    by destruct (compiled dagre host_message n r (vis p)) as [[[? ?]|] ?].
  - unfold submit. destruct (String.eqb (trim text) EmptyString); [done|].
    destruct (modal (ed p)) as [[]|]; try done. unfold confirmRename. by destruct (nonempty _).
  - unfold handleSelectPlan. destruct (String.eqb i "__new__"); [done|]. by destruct (find_plan i p).
  - unfold handleDeletePlan. by destruct (_ ≫= _).
  - destruct (modal (ed p)) as [[]|]; [done..| |done]. unfold confirmDelete.
    destruct (nonempty _) as [j|]; [|done]. by destruct (find_plan j p).
  - unfold handleRenamePlan. by destruct (_ ≫= _).
Qed.
#[export] Instance event_unmount_dec e : Decision (e = Unmount).
Proof. destruct e; (by left) || (by right). Defined.

(** An event of the mounted panel: the handler, the renders and effects. *)
Lemma step_on p e : on_screen p = true → e ≠ Unmount → step p e = commit p (handle e p).
Proof. intros Hon He. unfold EditorPanel.step. by rewrite Hon, handle_on, Hon. Qed.
Lemma step_unmount p : on_screen p = true → step p Unmount = handle Unmount p.
Proof. intros Hon. unfold EditorPanel.step. by rewrite Hon. Qed.
Lemma step_away p e :
  on_screen p = false → ed (step p e) = ed p ∧ timer (step p e) = timer p ∧ local (step p e) = local p ∧
  on_screen (step p e) = false.
Proof. intros Hon. unfold EditorPanel.step. rewrite Hon. by destruct e. Qed.

Lemma step_inv p e : event_ok p e → inv p → inv (step p e).
Proof.
  intros He [Hh Hrest]. destruct (on_screen p) eqn:Hon; [destruct Hrest as [Hn Ht]|].
  2: { destruct (step_away p e Hon) as (H1 & H2 & H3 & H4). unfold inv. rewrite H4, H2. split; [|done].
       destruct Hh as [Hp Hi Hs Hc]. split; rewrite ?H1, ?H3, ?H4; done. }
  destruct (decide (e = Unmount)) as [->|Hu].
  { rewrite step_unmount by done. split; [by apply handle_handled|done]. }
  rewrite step_on by done. apply commit_inv; [by rewrite handle_on|by apply handle_handled|].
  assert ((∃ ev, e = StoreEvent ev) ∨ ∀ ev, e ≠ StoreEvent ev) as [[ev ->]|Hev].
  { destruct e; first [by left; eauto|by right]. }
  - set (p' := handle (StoreEvent ev) p). intros Hc Hi.
    destruct (take_source_same p') as (Hl & Htm & Hs & Hkeep & Hnone).
    apply (timer_kept p); [done..| |done]. apply settled_saved; [by rewrite Hl|done..|].
    rewrite Hs. auto.
  - assert (no_source (handle e p)) as Hs by by (unfold no_source; rewrite handle_source).
    destruct (take_source_same (handle e p)) as (_ & _ & _ & Hk & _). rewrite (Hk Hs).
    by apply handle_timer.
Qed.

(** A storage that this panel, or nothing yet, has written. *)
Definition storage_ok (s : storage) (saved : SavedPlansState) : Prop :=
  getSavedPlans true s = state_value saved ∧ plans_ok saved.

Lemma handled_storage p : handled p → storage_ok (local p) (savedPlans (ed p)).
Proof. by intros []. Qed.

Lemma mount_ok shared s saved m :
  storage_ok s saved →
  ∃ p, mount true shared s m = Some p ∧ inv p ∧ local p = s ∧ savedPlans (ed p) = saved ∧
    (nonempty (editSourceCode (st_source (store m))) = None →
     code (ed p) = getInitialCode shared (getEditorCode true s) ∧ currentPlanId (ed p) = currentId saved).
Proof.
  intros [Hg Hp]. unfold mount. rewrite Hg, state_of_value. cbn [mbind option_bind].
  eexists. split; [done|]. set (p := {| ed := _; timer := _ |}).
  destruct (take_source_same p) as (Hl & Htm & Hs & Hk & Hn).
  split; [|split; [|split]].
  - apply commit_inv; [done|split; [done|by right|done|done]|].
    intros Hc Hi. unfold timer_inv. by rewrite Htm, Hc, Hi.
  - unfold commit. by case_bool_decide.
  - unfold commit. by case_bool_decide.
  - intros Hns. unfold commit. rewrite (Hk Hns). by case_bool_decide.
Qed.

(** Opening the editor again gives the plans that the storage has, whatever the link and
    the store add. *)
Lemma mount_again shared p p' m :
  handled p → mount true shared (local p) m = Some p' → inv p' ∧ savedPlans (ed p') = savedPlans (ed p).
Proof.
  intros Hh Hm. destruct (mount_ok shared (local p) _ m (handled_storage p Hh)) as (q & Hq & Hi & _ & Hs & _).
  rewrite Hm in Hq. by injection Hq as ->.
Qed.

Lemma reachable_inv p0 p : inv p0 → reachable p0 p → inv p.
Proof.
  intros H0. induction 1 as [|p e Hp IH He|p p' shared Hp IH Hon Hm]; [done|by apply step_inv|].
  by eapply mount_again; [apply IH|].
Qed.

(** What a reload finds of a text that was saved. *)
Lemma saved_text c : getInitialCode None (Some c) = if String.eqb c EmptyString then DEFAULT_PLAN else c.
Proof. by destruct c. Qed.

(** C26: whatever is done in the editor, leaving and opening it in between included, opening
    it again on the same storage finds the same saved plans and the text saved last.  While
    it is open, a pending save is of the current text, and completes when its timer fires;
    when none is pending, the text found again is the current one (the template in place of
    an empty one) and the plan being edited has it.  Leaving drops a pending save: the text
    found again is then the one saved before.  At most one compilation of the open panel is
    under way, and its status says when one is.  The storage works and has room, ids made
    for new plans are new, and the clock's times are finite ([event_ok]). *)
Theorem editor_reload shared s saved m p0 p m' :
  storage_ok s saved → mount true shared s m = Some p0 → reachable p0 p →
  nonempty (editSourceCode (st_source (store m'))) = None →
  (∃ p', mount true None (local p) m' = Some p' ∧ savedPlans (ed p') = savedPlans (ed p) ∧
    code (ed p') = getInitialCode None (getEditorCode true (local p)) ∧
    (on_screen p = true → timer p = None →
     code (ed p') = if String.eqb (code (ed p)) EmptyString then DEFAULT_PLAN else code (ed p))) ∧
  (on_screen p = true →
    compile_inv p ∧
    (timer p = None → ∀ q, q ∈ plans (savedPlans (ed p)) → currentPlanId (ed p) = Some (id q) →
      plan_code q = code (ed p)) ∧
    (∀ t now, timer p = Some t → t = (code (ed p), currentPlanId (ed p)) ∧
      timer (step p (TimerFires now)) = None ∧ code (ed (step p (TimerFires now))) = code (ed p)) ∧
    timer (step p Unmount) = None ∧ local (step p Unmount) = local p) ∧
  (on_screen p = false → timer p = None ∧ ∀ e, local (step p e) = local p).
Proof.
  intros Hs Hm Hr Hm'. destruct (mount_ok shared s saved m Hs) as (p1 & Hp1 & H0 & _).
  rewrite Hm in Hp1. injection Hp1 as <-. pose proof (reachable_inv _ _ H0 Hr) as [Hh Hrest].
  pose proof Hh as [Hp Hi Hst Hc]. split_and!.
  - destruct (mount_ok None (local p) (savedPlans (ed p)) m') as (p' & Hp' & _ & _ & Hsv & Hcode); [by split|].
    exists p'. destruct (Hcode Hm') as [Hcode' _]. split_and!; [done..|]. intros Hon E.
    rewrite Hon in Hrest. destruct Hrest as [_ Ht]. unfold timer_inv in Ht. rewrite E in Ht.
    rewrite Hcode', <-saved_text. apply Ht.
  - intros Hon. rewrite Hon in Hrest. destruct Hrest as [Hn Ht]. unfold timer_inv in Ht. split_and!; [auto| | | |].
    + intros E. rewrite E in Ht. apply Ht.
    + intros t now E. rewrite E in Ht. split; [done|].
      set (p' := timer_fires true roomy now p).
      assert (code (ed p') = code (ed p) ∧ currentPlanId (ed p') = currentPlanId (ed p) ∧
        timer p' = None ∧ no_source p') as (Hc1 & Hc2 & Hc3 & Hc4).
      { unfold p', timer_fires. rewrite E. destruct t as [c i]. by destruct (nonempty i). }
      rewrite step_on by done. unfold EditorPanel.handle. fold p'. unfold commit.
      destruct (take_source_same p') as (_ & _ & _ & Hk & _). rewrite (Hk Hc4).
      by rewrite bool_decide_true.
    + by rewrite step_unmount.
    + by rewrite step_unmount.
  - intros Hon. rewrite Hon in Hrest. split; [done|]. intros e. by apply step_away.
Qed.

Lemma commit_saved p p' : savedPlans (ed (commit p p')) = savedPlans (ed p').
Proof.
  unfold commit. destruct (take_source_same p') as (_ & _ & <- & _). by case_bool_decide.
Qed.

(** How an event changes the saved plans. *)
Inductive plans_change (p : panel) (e : event) : list SavedPlan → Prop :=
| plans_same : plans_change p e (plans (savedPlans (ed p)))
| plans_added q :
    q ∉ plans (savedPlans (ed p)) → id q ∉ ids p → plan_code q = code (ed p) →
    plans_change p e (plans (savedPlans (ed p)) ++ [q])
| plans_edited i f :
    currentPlanId (ed p) = Some i → (∀ q, id (f q) = id q) →
    (∀ q, plan_code (f q) = plan_code q ∨ plan_code (f q) = code (ed p) ∧ name (f q) = name q) →
    plans_change p e (edit_plan i f (plans (savedPlans (ed p))))
| plans_deleted i planName :
    e = DeleteConfirmed → currentPlanId (ed p) = Some i → modal (ed p) = Some (Delete planName) →
    plans_change p e (List.filter (λ q, negb (String.eqb (id q) i)) (plans (savedPlans (ed p)))).

Lemma handle_plans p e :
  event_ok p e → timer_inv p → plans_change p e (plans (savedPlans (ed (handle e p)))).
Proof.
  intros He Ht. destruct e as [v|ev|now| |i r| | | | |text newId now| |i| | | |]; cbn [handle]; try exact (plans_same p _).
  - unfold timer_fires. unfold timer_inv in Ht. destruct (timer p) as [[c i]|]; [|exact (plans_same p _)].
    injection Ht as -> ->. destruct (nonempty _) as [j|] eqn:Hj; [|exact (plans_same p _)].
    apply nonempty_Some in Hj as [Hj _]. apply (plans_edited p _ j); auto.
  - unfold handleCompile. destruct (compiling (ed p)); exact (plans_same p _).
  - unfold response_arrives. destruct (requests p !! i) as [[n ?]|]; [|exact (plans_same p _)].
    destruct (compiled dagre host_message n r (vis p)) as [o m']. destruct o as [[? ?]|]; exact (plans_same p _).
  - unfold submit. destruct (String.eqb (trim text) EmptyString); [exact (plans_same p _)|].
    destruct (modal (ed p)) as [[]|]; try exact (plans_same p _).
    + destruct He as (_ & Hf & _). apply plans_added; cbn; [|done..].
      intros Hin. apply Hf. by apply (list_elem_of_fmap_2 id) in Hin.
    + unfold confirmRename. destruct (nonempty _) as [j|] eqn:Hj; [|exact (plans_same p _)].
      apply nonempty_Some in Hj as [Hj _]. apply (plans_edited p _ j); auto.
  - unfold handleSelectPlan. destruct (String.eqb i "__new__"); [exact (plans_same p _)|].
    destruct (find_plan i p); exact (plans_same p _).
  - unfold handleDeletePlan. destruct (_ ≫= _); exact (plans_same p _).
  - destruct (modal (ed p)) as [[]|] eqn:Hm; try exact (plans_same p _). unfold confirmDelete.
    destruct (nonempty _) as [j|] eqn:Hj; [|exact (plans_same p _)].
    apply nonempty_Some in Hj as [Hj _]. destruct (find_plan j p); by eapply plans_deleted.
  - unfold handleRenamePlan. destruct (_ ≫= _); exact (plans_same p _).
Qed.

Lemma step_plans p e : event_ok p e → inv p → plans_change p e (plans (savedPlans (ed (step p e)))).
Proof.
  intros He [Hh Hrest]. destruct (on_screen p) eqn:Hon.
  - destruct Hrest as [_ Ht]. destruct (decide (e = Unmount)) as [->|Hu].
    + rewrite step_unmount by done. exact (plans_same p _).
    + rewrite step_on, commit_saved by done. by apply handle_plans.
  - destruct (step_away p e Hon) as (-> & _). exact (plans_same p _).
Qed.

Lemma edit_plan_others (other : SavedPlan → bool) i f ps :
  (∀ q, id q = i → other q = false) → (∀ q, id (f q) = id q) →
  List.filter other (edit_plan i f ps) = List.filter other ps.
Proof.
  intros Ho Hf. induction ps as [|q ps IH]; [done|]. cbn [edit_plan map List.filter].
  unfold edit_plan in IH. destruct (String.eqb_spec (id q) i) as [E|]; [|by rewrite IH].
  rewrite !Ho by (rewrite ?Hf; done). done.
Qed.
Lemma filter_keeps {A} (f other : A → bool) l :
  (∀ x, other x = true → f x = true) → List.filter other (List.filter f l) = List.filter other l.
Proof.
  intros H. induction l as [|x l IH]; [done|]. cbn. destruct (f x) eqn:E; cbn; rewrite IH; [done|].
  destruct (other x) eqn:Ho; [|done]. by rewrite H in E.
Qed.

(** C27: no event of the editor changes a saved plan other than the one being edited: each of
    the others is still there, at its place among them.  A plan that was not there is the
    editor's text under an id of its own, the plan being edited only ever gets the
    editor's text or another name, and a plan disappears only by the event that confirms a
    deletion, while the dialog asks for one, and then it is the one being edited at that
    moment.  (The dialog confirms also for Enter on its Cancel button, and may name another
    plan: [cancel_deletes] and [deletes_another] in EditorView.v.)  Ids made for new plans
    are new, and the storage works and has room. *)
Theorem only_current_plan_changes shared s saved m p0 p e :
  storage_ok s saved → mount true shared s m = Some p0 → reachable p0 p → event_ok p e →
  let ps := plans (savedPlans (ed p)) in
  let ps' := plans (savedPlans (ed (step p e))) in
  let other q := bool_decide (currentPlanId (ed p) ≠ Some (id q)) in
  (List.filter other ps `prefix_of` List.filter other ps') ∧
  (∀ q, q ∈ ps' → q ∈ ps ∨ plan_code q = code (ed p) ∨
    ∃ r, r ∈ ps ∧ currentPlanId (ed p) = Some (id r) ∧ id q = id r ∧ plan_code q = plan_code r) ∧
  (∀ q, q ∈ ps → (id q ∉ ids (step p e)) →
    e = DeleteConfirmed ∧ (∃ planName, modal (ed p) = Some (Delete planName)) ∧
    currentPlanId (ed p) = Some (id q)) ∧
  (e ≠ DeleteConfirmed → ids p `prefix_of` ids (step p e)) ∧
  NoDup (ids (step p e)).
Proof.
  intros Hs Hm Hr He ps ps' other. destruct (mount_ok shared s saved m Hs) as (p1 & Hp1 & H0 & _).
  rewrite Hm in Hp1. injection Hp1 as <-. pose proof (reachable_inv _ _ H0 Hr) as Hi.
  assert (NoDup (ids (step p e))) as Hnd by by apply step_inv.
  assert (plans_change p e ps') as Hc by by apply step_plans.
  assert (ids (step p e) = map id ps') as Hids by done.
  rewrite Hids in Hnd |- *. clear Hids.
  split_and!; [| | | |done].
  - destruct Hc as [|q Hq1 Hq2 Hq3|i f Hf1 Hf2 Hf3|i n Hd0 Hd1 Hd2]; fold ps.
    + done.
    + rewrite List.filter_app. by apply prefix_app_r.
    + rewrite edit_plan_others; [done| |done]. unfold other. intros q ->. by rewrite bool_decide_false by (rewrite Hf1; naive_solver).
    + rewrite filter_keeps; [done|]. unfold other. intros q Hq. rewrite Hd1 in Hq.
      apply bool_decide_eq_true in Hq. destruct (String.eqb_spec (id q) i); [naive_solver|done].
  - destruct Hc as [|q Hq1 Hq2 Hq3|i f Hf1 Hf2 Hf3|i n Hd0 Hd1 Hd2]; intros q'; fold ps.
    + auto.
    + intros [?|Hq%list_elem_of_singleton]%elem_of_app; subst; auto.
    + intros [?|(r & Hrin & <- & ->)]%edit_plan_elem; [auto|].
      destruct (Hf3 r) as [Hcode|[Hcode _]]; [right; right|by right; left].
      exists r. rewrite Hf2. auto.
    + intros Hq%list_elem_of_In%filter_In. left. apply list_elem_of_In. naive_solver.
  - intros q Hq Hgone. assert (∀ l, q ∈ l → id q ∈ map id l) as Hin by (intros l; apply (list_elem_of_fmap_2 id)).
    destruct Hc as [|q' Hq1 Hq2 Hq3|i f Hf1 Hf2 Hf3|i n Hd0 Hd1 Hd2]; fold ps in Hgone.
    + by destruct (Hgone (Hin _ Hq)).
    + destruct Hgone. rewrite map_app. apply elem_of_app. left. by apply Hin.
    + destruct Hgone. rewrite edit_plan_ids by done. by apply Hin.
    + split_and!; [done|by exists n|]. rewrite Hd1. f_equal. destruct (String.eqb_spec (id q) i); [done|].
      destruct Hgone. apply Hin, list_elem_of_In, filter_In. split; [by apply list_elem_of_In|].
      by apply negb_true_iff, String.eqb_neq.
  - intros Hne. destruct Hc as [|q Hq1 Hq2 Hq3|i f Hf1 Hf2 Hf3|i n Hd0 Hd1 Hd2]; unfold ids; fold ps.
    + done.
    + rewrite map_app. by apply prefix_app_r.
    + by rewrite edit_plan_ids.
    + done.
Qed.
End runs.

(** ** Concrete runs *)

Definition sample_mount (shared : option string) (s : storage) : option panel :=
  mount true shared s sample_initial.
Definition sample_step : panel → event → panel := step true roomy sample_dagre "TypeError".
Definition sample_run (p : panel) (es : list event) : panel := foldl sample_step p es.
Definition no_plans : SavedPlansState := {| plans := []; currentId := None |}.

(** The user names the text [1] and goes on editing. *)
Definition named : list event :=
  [Typed (Some "1"); SaveAsClicked; Submitted " mine " "id1" (num 5); TimerFires (num 6)].
Definition code_of_plans (p : panel) : list (string * string) :=
  map (λ q, (name q, plan_code q)) (plans (savedPlans (ed p))).

Example named_plan :
  (p ← sample_mount None ∅; Some (code_of_plans (sample_run p named))) = Some [("mine", "1")].
Proof. by vm_compute. Qed.

(** Opening a shared link while a saved plan is selected: half a second later the saved
    plan has the link's text, and its own is lost. *)
Example link_overwrites_plan :
  (p ← sample_mount None ∅;
   p' ← sample_mount (Some "shared") (local (sample_run p named));
   Some (code_of_plans (sample_run p' [TimerFires (num 7)]))) = Some [("mine", "shared")].
Proof. by vm_compute. Qed.

(** So does editing the source of a viewed plan and reloading the page. *)
Example viewed_source_overwrites_plan :
  (p ← sample_mount None ∅;
   let viewing := sample_run p
     (named ++ [StoreEvent (Call (SetEditSourceCode (Some "viewed"))); TimerFires (num 7)]) in
   p' ← sample_mount None (local viewing);
   Some (code_of_plans viewing, code_of_plans (sample_run p' [TimerFires (num 8)]))) =
  Some ([("mine", "1")], [("mine", "viewed")]).
Proof. by vm_compute. Qed.

(** What was typed in the last half second before another plan is selected is lost. *)
Example switching_loses_text :
  (p ← sample_mount None ∅;
   Some (code_of_plans (sample_run p
     (named ++ [Typed (Some "12"); PlanSelected "__new__"; TimerFires (num 7)])))) =
  Some [("mine", "1")].
Proof. by vm_compute. Qed.

(** So is what was typed in the last half second before the editor is left. *)
Example leaving_loses_text :
  (p ← sample_mount None ∅;
   let away := sample_run p (named ++ [Typed (Some "12"); Unmount; TimerFires (num 7)]) in
   p' ← sample_mount None (local away);
   Some (code_of_plans away, code (ed p'))) = Some ([("mine", "1")], "1").
Proof. by vm_compute. Qed.

Lemma empty_storage_ok : storage_ok ∅ no_plans.
Proof. split; [by vm_compute|]. split; [done|apply NoDup_nil_2]. Qed.

Definition start_panel : panel :=
  default {| ed := {| code := EmptyString; compiling := false; error := None; status := Ready;
                      savedPlans := no_plans; currentPlanId := None; modal := None; toast := None |};
             timer := None; requests := []; local := ∅; vis := sample_initial; on_screen := true |}
    (sample_mount None ∅).

Lemma named_reachable :
  reachable sample_dagre "TypeError" start_panel (sample_run start_panel named).
Proof.
  assert (∀ t : Z, t = 5%Z ∨ t = 6%Z → number_ok (num t)) as Hn.
  { intros t [-> | ->]; by repeat split. }
  unfold named. repeat (apply reachable_step); [apply reachable_start|done|done| |].
  - split_and!; [done| |by apply Hn; left]. vm_compute. by intros ?%not_elem_of_nil.
  - by apply Hn; right.
Qed.

Lemma editor_reload_witness :
  ∃ p', sample_mount None (local (sample_run start_panel named)) = Some p' ∧ code (ed p') = "1".
Proof.
  destruct (editor_reload sample_dagre "TypeError" None ∅ no_plans sample_initial start_panel
    (sample_run start_panel named) sample_initial) as ((p' & Hp' & _ & _ & Hc) & _).
  - apply empty_storage_ok.
  - by vm_compute.
  - apply named_reachable.
  - by vm_compute.
  - exists p'. split; [exact Hp'|]. rewrite Hc; by vm_compute.
Defined.

Lemma only_current_plan_changes_witness :
  NoDup (ids (sample_step (sample_run start_panel named) (PlanSelected "id1"))).
Proof.
  apply (only_current_plan_changes sample_dagre "TypeError" None ∅ no_plans sample_initial start_panel
    (sample_run start_panel named) (PlanSelected "id1")).
  - apply empty_storage_ok.
  - by vm_compute.
  - apply named_reachable.
  - done.
Defined.

Lemma compilation_correct_witness :
  status (ed (response_arrives sample_dagre "TypeError" 0
    (Answer (VObject [("success", VBool true); ("artifact", plan_json "a")])) (handleCompile start_panel)))
  = Success.
Proof.
  destruct (compilation_correct sample_dagre "TypeError" start_panel
    (Answer (VObject [("success", VBool true); ("artifact", plan_json "a")])))
    as (_ & _ & _ & _ & Ho & _); [by vm_compute..|].
  destruct Ho as [[? _]|(_ & _ & _ & Hno)]; [done|].
  exfalso. apply (Hno (plan_json "a")).
  eexists _, (VBool true), _. split_and!; [done..|]. by vm_compute.
Defined.
