(* ===== verification/EditorView.v ===== *)
(** * EditorView: the live editor as it is drawn and used
    (tools/visualizer/src/components/EditorPanel.tsx, what it returns)

    The panel of [EditorPanel] with its widgets: the selector of saved plans is a
    [Dropdown], a name is asked for by a [PromptModal], a deletion by a [ConfirmModal], each
    with its own state and listeners.  A gesture is what the user does: a press, a click on
    one of the controls that are drawn, a key.  A key reaches the dialog's input first (at
    React's root), then the selector's listener on the document, then the confirmation's on
    the window, each after the renders of those before it. *)

From S2P Require Import Prelude StateMonad Collections JsNumber JsValue StableStringify Json Jsx.
From S2P Require Import Preferences VisGraph VisStore Widgets ShareLink EditorPanel.

(** ** State *)

Inductive prompt_kind := Naming | Renaming.

(** The panel, the selector, the text of the dialog that asks for a name, the links on their
    way to the clipboard, and how many exceptions listeners have let out. *)
Record view := {
  panel_ : panel;
  selector : Dropdown.state;
  prompt : option (prompt_kind * string);
  writes : list units;
  thrown : nat;
}.

Definition selector_props (p : panel) : Dropdown.DropdownProps :=
  {| Dropdown.options := map (λ o, {| Dropdown.value := o.1; Dropdown.label := o.2 |}) (plan_options p);
     Dropdown.selected := default "__new__" (currentPlanId (ed p));
     Dropdown.placeholder := "Select..." |}.

(** A dialog keeps its text while it stays at its place; one that appears starts with its
    default. *)
Definition prompt_after (m : option Modal) (old : option (prompt_kind * string)) : option (prompt_kind * string) :=
  match m, old with
  | Some (SaveAs _), Some (Naming, v) => Some (Naming, v)
  | Some (SaveAs defaultName), _ => Some (Naming, PromptModal.mount (Some defaultName))
  | Some (Rename _), Some (Renaming, v) => Some (Renaming, v)
  | Some (Rename currentName), _ => Some (Renaming, PromptModal.mount (Some currentName))
  | _, _ => None
  end.

(** A handler of the panel runs, and the page is drawn again. *)
Definition perform (f : panel → panel) (w : view) : view :=
  let p := commit (panel_ w) (f (panel_ w)) in
  {| panel_ := p; selector := selector w; prompt := prompt_after (modal (ed p)) (prompt w); writes := writes w; thrown := thrown w |}.
Definition with_selector (s : Dropdown.state) (w : view) : view :=
  {| panel_ := panel_ w; selector := s; prompt := prompt w; writes := writes w; thrown := thrown w |}.
Definition with_text (k : prompt_kind) (v : string) (w : view) : view :=
  {| panel_ := panel_ w; selector := selector w; prompt := Some (k, v); writes := writes w; thrown := thrown w |}.
(** The page is left: nothing is drawn. *)
Definition away (p : panel) (w : view) : view :=
  {| panel_ := p; selector := Dropdown.initial; prompt := None; writes := writes w; thrown := thrown w |}.
Definition throws (w : view) : view :=
  {| panel_ := panel_ w; selector := selector w; prompt := prompt w; writes := writes w; thrown := S (thrown w) |}.

Definition with_writes (l : list units) (w : view) : view :=
  {| panel_ := panel_ w; selector := selector w; prompt := prompt w; writes := l; thrown := thrown w |}.

Inductive gesture :=
| Selector (e : Dropdown.event)               (* no key *)
| Prompt (e : PromptModal.event) (newId : string) (now : number)   (* no key *)
| Confirmation (e : ConfirmModal.event)       (* no key *)
| Key (inInput : bool) (at_ : ConfirmModal.focus) (key newId : string) (now : number)
| SaveAsButton                                (* or its shortcut *)
| RenameButton
| DeleteButton
| CompileButton
| CompileShortcut
| ShareButton
| FormatButton                                (* or its shortcut; the new text is typed by Monaco *)
| ResetButton
| Typing (v : option string)
| Store (e : VisStore.event)
| Timer (now : number)
| Response (i : nat) (r : answer)
| LinkCopied (i : nat)                        (* the clipboard has taken the link, or not *)
| LinkRefused (i : nat)
| ToastOver
| Leave.

Section view.
Context (enabled : bool) (fits : storage → bool).
Context (dagre : LayoutOptions → list (value * number * number) → list (value * value) →
  result (value → option (number * number))).
Context (host_message : string).
(** Whether [navigator.clipboard] is there: only on a secure origin.  The page's address. *)
Context (clipboard : bool) (origin pathname : units).
Local Abbreviation handle := (EditorPanel.handle enabled fits dagre host_message).

(** ** Widgets and their callbacks *)

Definition selector_does (e : Dropdown.event) (w : view) : view :=
  match Dropdown.step (selector_props (panel_ w)) e (selector w) with
  | Throw _ => throws w
  | Ok (s, out) =>
      let w := with_selector s w in
      match out with
      | Some v => perform (handleSelectPlan enabled fits v) w
      | None => w
      end
  end.

Definition prompt_calls (k : prompt_kind) (c : call) (newId : string) (now : number) : panel → panel :=
  match c with
  | Cancel => setModal None
  | Confirm v =>
      match k with
      | Naming => confirmSaveAs enabled fits v newId now
      | Renaming => confirmRename enabled fits v
      end
  end.
Definition prompt_does (e : PromptModal.event) (newId : string) (now : number) (w : view) : view :=
  match prompt w with
  | None => w
  | Some (k, text) =>
      let '(text', out) := PromptModal.step e text in
      let w := with_text k text' w in
      match out with
      | Some c => perform (prompt_calls k c newId now) w
      | None => w
      end
  end.

Definition confirmation_calls (c : call) : panel → panel :=
  match c with Cancel => setModal None | Confirm _ => confirmDelete enabled fits end.
Definition confirmation_does (e : ConfirmModal.event) (w : view) : view :=
  match modal (ed (panel_ w)) with
  | Some (Delete _) => foldl (λ w c, perform (confirmation_calls c) w) w (ConfirmModal.step e)
  | _ => w
  end.

(** ** Controls *)

Definition plan_buttons (p : panel) : bool := is_text (currentPlanId (ed p)).

(** [handleShare]: without a clipboard, reading [writeText] throws. *)
Definition share (w : view) : view :=
  match handleShare origin pathname (panel_ w) with
  | None => w
  | Some link => if clipboard then with_writes (writes w ++ [link]) w else throws w
  end.

(** A gesture on the page, while it is there. *)
Definition gesture_does (g : gesture) (w : view) : view :=
  match g with
  | Selector e => match e with Dropdown.KeyDown _ => w | _ => selector_does e w end
  | Prompt e newId now => match e with PromptModal.KeyInInput _ => w | _ => prompt_does e newId now w end
  | Confirmation e => match e with ConfirmModal.WindowKey _ _ => w | _ => confirmation_does e w end
  | Key inInput at_ key newId now =>
      let w := if inInput then prompt_does (PromptModal.KeyInInput key) newId now w else w in
      let w := selector_does (Dropdown.KeyDown key) w in
      confirmation_does (ConfirmModal.WindowKey at_ key) w
  | SaveAsButton => perform handleSaveAs w
  | RenameButton => if plan_buttons (panel_ w) then perform handleRenamePlan w else w
  | DeleteButton => if plan_buttons (panel_ w) then perform handleDeletePlan w else w
  | CompileButton => if compiling (ed (panel_ w)) then w else perform handleCompile w
  | CompileShortcut => perform handleCompile w
  | ShareButton => share w
  | FormatButton => w
  | ResetButton => perform (handleReset enabled fits) w
  | Typing v => perform (handle (EditorPanel.Typed v)) w
  | Store e => perform (handle (StoreEvent e)) w
  | Timer now => perform (handle (TimerFires now)) w
  | Response i r => perform (handle (Answered i r)) w
  | LinkCopied i =>
      match writes w !! i with
      | Some _ => perform (handle Copied) (with_writes (list_delete i (writes w)) w)
      | None => w
      end
  | LinkRefused i => with_writes (list_delete i (writes w)) w
  | ToastOver => perform (handle ToastEnds) w
  | Leave => away (handle Unmount (panel_ w)) w
  end.

(** Afterwards only responses arrive, to requests and from the clipboard, and the store goes on. *)
Definition arrives (g : gesture) (w : view) : view :=
  match g with
  | Store e => away (handle_away enabled fits dagre host_message (StoreEvent e) (panel_ w)) w
  | Response i r => away (handle_away enabled fits dagre host_message (Answered i r) (panel_ w)) w
  | LinkCopied i | LinkRefused i => with_writes (list_delete i (writes w)) w
  | _ => w
  end.

Definition step (w : view) (g : gesture) : view :=
  if on_screen (panel_ w) then gesture_does g w else arrives g w.

(** ** What is drawn *)

(** The buttons of the two rows: label, title, and whether it can be pressed. *)
Definition plan_row (modKey : string) (p : panel) : list (string * string * bool) :=
  ("Save As", "Save plan to library (" +:+ modKey +:+ "S)", true) ::
  (if plan_buttons p then [("Rename", EmptyString, true); ("Delete", EmptyString, true)] else []).
Definition toolbar (modKey : string) (p : panel) : list (string * string * bool) :=
  [(if compiling (ed p) then "Compiling..." else "Compile & Visualize",
    "Compile and visualize the plan (" +:+ modKey +:+ "Enter)", negb (compiling (ed p)));
   ("Share", "Copy shareable link to clipboard", true);
   ("Format", "Format code (" +:+ modKey +:+ "Shift+F)", true);
   ("Reset", "Reset to default plan template", true)].
Definition getStatusStyle (s : Status) : list string :=
  match s with Failed => ["status"; "statusError"] | Success => ["status"; "statusSuccess"] | _ => ["status"] end.
Definition banners (p : panel) : list string :=
  (if is_text (error (ed p)) then option_list (error (ed p)) else []) ++ option_list (toast (ed p)).

(** A dialog's title, message and button. *)
Definition dialog_text (m : Modal) : string * string * string :=
  match m with
  | SaveAs _ => ("Save Plan", "Enter a name for this plan:", "Save")
  | Rename _ => ("Rename Plan", "Enter a new name:", "Save")
  | Delete planName =>
      ("Delete Plan", "Are you sure you want to delete " +:+ quoted planName +:+ "? This cannot be undone.", "Delete")
  end.

Definition mounted (p : panel) : view :=
  {| panel_ := p; selector := Dropdown.initial; prompt := prompt_after (modal (ed p)) None; writes := []; thrown := 0 |}.
(** The page is opened again. *)
Definition returned (p : panel) (w : view) : view :=
  {| panel_ := p; selector := Dropdown.initial; prompt := prompt_after (modal (ed p)) None; writes := writes w;
     thrown := thrown w |}.

End view.

(** ** What the page keeps *)

(** The dialog that is drawn is the one the panel asks for. *)
Definition asks (m : option Modal) (drawn : option (prompt_kind * string)) : Prop :=
  match m, drawn with
  | Some (SaveAs _), Some (Naming, _) | Some (Rename _), Some (Renaming, _)
  | Some (Delete _), None | None, None => True
  | _, _ => False
  end.
Definition dialog_shown (w : view) : Prop := asks (modal (ed (panel_ w))) (prompt w).
Definition plan_count (w : view) : nat := length (plans (savedPlans (ed (panel_ w)))).
Definition hovered_exists (w : view) : Prop := Dropdown.in_range (S (plan_count w)) (selector w).

(** A change after which the hovered choice still exists, and in which no listener throws. *)
Definition safe (w w' : view) : Prop := hovered_exists w → hovered_exists w' ∧ thrown w' = thrown w.

Lemma safe_refl w : safe w w.
Proof. by intros H. Qed.
Lemma safe_trans w1 w2 w3 : safe w1 w2 → safe w2 w3 → safe w1 w3.
Proof. intros H1 H2 H. destruct (H1 H) as [H' <-]. by apply H2. Qed.

Lemma commit_modal p p' : modal (ed (commit p p')) = modal (ed p').
Proof.
  unfold commit, take_source. destruct (nonempty _); cbn; by case_bool_decide.
Qed.
Lemma prompt_after_shown m old : asks m (prompt_after m old).
Proof. by destruct m as [[]|], old as [[[] ?]|]. Qed.

Lemma selector_count p : length (Dropdown.options (selector_props p)) = S (length (plans (savedPlans (ed p)))).
Proof. cbn. by rewrite !length_map. Qed.

Section runs.
Context (dagre : LayoutOptions → list (value * number * number) → list (value * value) →
  result (value → option (number * number))).
Context (host_message : string) (clipboard : bool) (origin pathname : units).
Local Abbreviation handle := (EditorPanel.handle true roomy dagre host_message).
Local Abbreviation panel_step := (EditorPanel.step true roomy dagre host_message).
Local Abbreviation reachable := (EditorPanel.reachable dagre host_message).
Local Abbreviation gesture_does := (gesture_does true roomy dagre host_message clipboard origin pathname).
Local Abbreviation step := (step true roomy dagre host_message clipboard origin pathname).
Local Abbreviation selector_does := (selector_does true roomy).
Local Abbreviation prompt_does := (prompt_does true roomy).
Local Abbreviation confirmation_does := (confirmation_does true roomy).

(** [generateId] gives ids of their own, and the clock finite times. *)
Definition gesture_ok (w : view) (g : gesture) : Prop :=
  match g with
  | Prompt _ newId now | Key _ _ _ newId now => newId ≠ EmptyString ∧ (newId ∉ ids (panel_ w)) ∧ number_ok now
  | Timer now => number_ok now
  | _ => True
  end.

(** *** Handlers are the panel's events *)

(** The page is there, in a state that the panel's events reach. *)
Definition live (p0 : panel) (w : view) : Prop := reachable p0 (panel_ w) ∧ on_screen (panel_ w) = true.

Lemma perform_panel f w ev :
  on_screen (panel_ w) = true → ev ≠ Unmount → f (panel_ w) = handle ev (panel_ w) →
  panel_ (perform f w) = panel_step (panel_ w) ev.
Proof. intros Hon Hu H. rewrite step_on by done. unfold perform. cbn. by rewrite H. Qed.
Lemma commit_on p p' : on_screen (commit p p') = on_screen p'.
Proof. unfold commit, take_source. destruct (nonempty _); cbn; by case_bool_decide. Qed.
Lemma perform_shown f w : dialog_shown (perform f w).
Proof. apply prompt_after_shown. Qed.
Lemma perform_reachable p0 f w ev :
  live p0 w → ev ≠ Unmount → event_ok (panel_ w) ev → f (panel_ w) = handle ev (panel_ w) →
  live p0 (perform f w) ∧ dialog_shown (perform f w).
Proof.
  intros [Hr Hon] Hu He H. split; [|apply perform_shown]. split.
  - rewrite (perform_panel _ _ _ Hon Hu H). by constructor.
  - unfold perform. cbn [panel_]. by rewrite commit_on, H, handle_on.
Qed.

(** What the dialog calls is what the panel does with the text, and only while it asks. *)
Lemma prompt_handles k text e c newId now w :
  dialog_shown w → prompt w = Some (k, text) → (PromptModal.step e text).2 = Some c →
  ∃ ev, prompt_calls true roomy k c newId now (panel_ w) = handle ev (panel_ w) ∧
    (ev = Submitted text newId now ∨ ev = Cancelled).
Proof.
  unfold dialog_shown, asks. intros Hs Hp Hc. rewrite Hp in Hs. destruct c as [v|]; [|by exists Cancelled; split; [|right]].
  apply PromptModal.confirms in Hc as (_ & -> & Hne). exists (Submitted text newId now). split; [|by left].
  cbn. unfold submit. apply String.eqb_neq in Hne. rewrite Hne.
  by destruct (modal (ed (panel_ w))) as [[]|], k.
Qed.

Lemma selector_reachable p0 e w :
  live p0 w → dialog_shown w →
  live p0 (selector_does e w) ∧ dialog_shown (selector_does e w).
Proof.
  intros Hr Hs. unfold EditorView.selector_does.
  destruct (Dropdown.step _ e (selector w)) as [[s [v|]]|]; [|done|done].
  by apply (perform_reachable p0 _ (with_selector s w) (PlanSelected v)).
Qed.
Lemma with_text_shown k text text' w :
  prompt w = Some (k, text) → dialog_shown w → dialog_shown (with_text k text' w).
Proof. unfold dialog_shown, asks. intros ->. cbn. by destruct (modal _) as [[]|], k. Qed.
Lemma prompt_reachable p0 e newId now w :
  live p0 w → dialog_shown w →
  newId ≠ EmptyString ∧ (newId ∉ ids (panel_ w)) ∧ number_ok now →
  live p0 (prompt_does e newId now w) ∧ dialog_shown (prompt_does e newId now w).
Proof.
  intros Hr Hs Hok. unfold EditorView.prompt_does. destruct (prompt w) as [[k text]|] eqn:Hp; [|done].
  pose proof (prompt_handles k text e) as Hh. pose proof (with_text_shown k text) as Hw.
  destruct (PromptModal.step e text) as [text' [c|]] eqn:Hst; [|by split; [|apply (Hw _ w)]].
  destruct (Hh c newId now w Hs Hp eq_refl) as (ev & He & Hev).
  apply (perform_reachable p0 _ (with_text k text' w) ev); [done| | |done].
  all: by destruct Hev as [->| ->].
Qed.

Lemma confirmation_calls_step e w c :
  ConfirmModal.step e = [c] ∨ ConfirmModal.step e = [] →
  confirmation_does e w = w ∨
  ∃ planName ev, modal (ed (panel_ w)) = Some (Delete planName) ∧ ConfirmModal.step e = [c] ∧
    confirmation_does e w = perform (confirmation_calls true roomy c) w ∧
    confirmation_calls true roomy c (panel_ w) = handle ev (panel_ w) ∧ (ev = DeleteConfirmed ∨ ev = Cancelled).
Proof.
  unfold EditorView.confirmation_does. destruct (modal (ed (panel_ w))) as [[| |planName]|] eqn:Hm; try by left.
  intros [E|E]; rewrite E; cbn [foldl]; [|by left]. right.
  exists planName. destruct c as [v|].
  - exists DeleteConfirmed. split_and!; [done..| |by left]. cbn. by rewrite Hm.
  - exists Cancelled. split_and!; [done..|by right].
Qed.
Lemma confirmation_one e : ∃ c, ConfirmModal.step e = [c] ∨ ConfirmModal.step e = [].
Proof.
  pose proof (ConfirmModal.at_most_one_call e). destruct (ConfirmModal.step e) as [|c [|]]; [exists Cancel; by right| |].
  - exists c. by left.
  - cbn in *. lia.
Qed.
Lemma confirmation_reachable p0 e w :
  live p0 w → dialog_shown w →
  live p0 (confirmation_does e w) ∧ dialog_shown (confirmation_does e w).
Proof.
  intros Hr Hs. destruct (confirmation_one e) as [c Hc].
  destruct (confirmation_calls_step e w c Hc) as [->|(n & ev & Hm & _ & -> & Hf & Hev)]; [done|].
  apply (perform_reachable p0 _ w ev); [done| | |done]; by destruct Hev as [->| ->].
Qed.

(** *** Plans only disappear when their deletion is confirmed *)

Lemma commit_plans p p' : plans (savedPlans (ed (commit p p'))) = plans (savedPlans (ed p')).
Proof. by rewrite commit_saved. Qed.

Lemma handle_count p e :
  e ≠ DeleteConfirmed → (length (plans (savedPlans (ed p))) ≤ length (plans (savedPlans (ed (handle e p)))))%nat.
Proof.
  intros He. destruct e as [v|ev|now| |i r| | | | |text newId now| |i| | | |]; cbn [EditorPanel.handle]; try done.
  - unfold timer_fires. destruct (timer p) as [[c i]|]; [|done].
    destruct (nonempty i); [|done]. cbn. unfold edit_plan. by rewrite length_map.
  - unfold handleCompile. by destruct (compiling (ed p)).
  - unfold response_arrives. destruct (requests p !! i) as [[n ?]|]; [|done].
    destruct (compiled dagre host_message n r (vis p)) as [[[? ?]|] ?]; done.
  - unfold submit. destruct (String.eqb (trim text) EmptyString); [done|].
    destruct (modal (ed p)) as [[]|]; try done.
    + cbn. rewrite length_app. lia.
    + unfold confirmRename. destruct (nonempty _); [|done]. cbn. unfold edit_plan. by rewrite length_map.
  - unfold handleSelectPlan. destruct (String.eqb i "__new__"); [done|]. by destruct (find_plan i p).
  - unfold handleDeletePlan. by destruct (_ ≫= _).
  - unfold handleRenamePlan. by destruct (_ ≫= _).
Qed.

Lemma perform_count f w : plan_count (perform f w) = length (plans (savedPlans (ed (f (panel_ w))))).
Proof. unfold plan_count. cbn. by rewrite commit_plans. Qed.
Lemma perform_safe f w : (plan_count w ≤ plan_count (perform f w))%nat → safe w (perform f w).
Proof. intros Hc H. split; [|done]. eapply Dropdown.in_range_more; [|exact H]. lia. Qed.
Lemma perform_event_safe f w ev :
  f (panel_ w) = handle ev (panel_ w) → ev ≠ DeleteConfirmed → safe w (perform f w).
Proof.
  intros Hf He. apply perform_safe. rewrite perform_count, Hf. by apply handle_count.
Qed.

Lemma select_plans i p : plans (savedPlans (ed (handleSelectPlan true roomy i p))) = plans (savedPlans (ed p)).
Proof. unfold handleSelectPlan. destruct (String.eqb i "__new__"); [done|]. by destruct (find_plan i p). Qed.
Lemma select_modal i p : modal (ed (handleSelectPlan true roomy i p)) = modal (ed p).
Proof. unfold handleSelectPlan. destruct (String.eqb i "__new__"); [done|]. by destruct (find_plan i p). Qed.

Lemma selector_keeps e w :
  plan_count (selector_does e w) = plan_count w ∧ modal (ed (panel_ (selector_does e w))) = modal (ed (panel_ w)).
Proof.
  unfold EditorView.selector_does. destruct (Dropdown.step _ e (selector w)) as [[s [v|]]|]; [|done|done].
  rewrite perform_count. cbn. by rewrite select_plans, commit_modal, select_modal.
Qed.
Lemma selector_safe e w : safe w (selector_does e w).
Proof.
  intros Hr. unfold hovered_exists in Hr |- *. destruct (selector_keeps e w) as [-> _].
  unfold plan_count in *. rewrite <- selector_count in *.
  destruct (Dropdown.step_in_range (selector_props (panel_ w)) e (selector w)) as (s' & out & Hs & Hr' & _); [done..|].
  unfold EditorView.selector_does. rewrite Hs. by destruct out.
Qed.

Lemma prompt_safe e newId now w : dialog_shown w → safe w (prompt_does e newId now w).
Proof.
  intros Hs. unfold EditorView.prompt_does. destruct (prompt w) as [[k text]|] eqn:Hp; [|apply safe_refl].
  pose proof (prompt_handles k text e) as Hh.
  destruct (PromptModal.step e text) as [text' [c|]]; [|by intros H].
  destruct (Hh c newId now w Hs Hp eq_refl) as (ev & He & Hev).
  apply (perform_event_safe _ (with_text k text' w) ev); [done|]. by destruct Hev as [->| ->].
Qed.
(** While a deletion is asked for there is no other dialog. *)
Lemma prompt_no_deletion e newId now w :
  dialog_shown w →
  prompt_does e newId now w = w ∨ ∀ n, modal (ed (panel_ (prompt_does e newId now w))) ≠ Some (Delete n).
Proof.
  intros Hs. unfold EditorView.prompt_does. destruct (prompt w) as [[k text]|] eqn:Hp; [|by left].
  right. assert (∀ n, modal (ed (panel_ w)) ≠ Some (Delete n)) as Hm.
  { unfold dialog_shown, asks in Hs. rewrite Hp in Hs. by destruct (modal _) as [[]|]. }
  destruct (PromptModal.step e text) as [text' [[v|]|]]; cbn; [|by rewrite commit_modal|done].
  destruct k; cbn; rewrite commit_modal; [done|]. unfold confirmRename. by destruct (nonempty _).
Qed.
Lemma confirmation_safe e w : (plan_count w ≤ plan_count (confirmation_does e w))%nat → safe w (confirmation_does e w).
Proof.
  destruct (confirmation_one e) as [c Hc].
  destruct (confirmation_calls_step e w c Hc) as [->|(n & ev & Hm & _ & -> & Hf & Hev)]; [by intros _|].
  apply perform_safe.
Qed.

(** What the page keeps, while it is there. *)
Definition drawn (p0 : panel) (w : view) : Prop :=
  reachable p0 (panel_ w) ∧ (on_screen (panel_ w) = true → dialog_shown w).

Lemma live_drawn p0 w : live p0 w ∧ dialog_shown w → drawn p0 w.
Proof. by intros [[Hr _] Hs]. Qed.

(** The page is left, or something happens while it is not there. *)
Lemma away_drawn p0 w ev :
  (on_screen (panel_ w) = true → ev = Unmount) → reachable p0 (panel_ w) → event_ok (panel_ w) ev →
  drawn p0 (away (panel_step (panel_ w) ev) w).
Proof.
  intros Hon Hr He. split; [by constructor|]. cbn. intros H. exfalso. destruct (on_screen (panel_ w)) eqn:E.
  - by rewrite (Hon eq_refl), step_unmount in H.
  - destruct (step_away dagre host_message (panel_ w) ev E) as (_ & _ & _ & H'). congruence.
Qed.

Lemma gesture_reachable p0 w g :
  gesture_ok w g → live p0 w → dialog_shown w → drawn p0 (gesture_does g w).
Proof.
  intros Hg Hr Hs. pose proof Hr as [Hr' Hon].
  destruct g as [e|e newId now|e|inInput at_ key newId now| | | | | | | | |v|e|now|i r|i|i| |]; cbn [EditorView.gesture_does].
  - apply live_drawn. destruct e; first [done|by apply selector_reachable].
  - apply live_drawn. destruct e; first [done|by apply prompt_reachable].
  - apply live_drawn. destruct e; first [done|by apply confirmation_reachable].
  - apply live_drawn. set (w1 := if inInput then _ else w).
    assert (live p0 w1 ∧ dialog_shown w1) as [Hr1 Hs1].
    { unfold w1. destruct inInput; [by apply prompt_reachable|done]. }
    destruct (selector_reachable p0 (Dropdown.KeyDown key) w1 Hr1 Hs1) as [Hr2 Hs2]. by apply confirmation_reachable.
  - by apply live_drawn, (perform_reachable _ _ w SaveAsClicked).
  - apply live_drawn. destruct (plan_buttons (panel_ w)); [|done]. by apply (perform_reachable _ _ w RenameClicked).
  - apply live_drawn. destruct (plan_buttons (panel_ w)); [|done]. by apply (perform_reachable _ _ w DeleteClicked).
  - apply live_drawn. destruct (compiling (ed (panel_ w))); [done|]. by apply (perform_reachable _ _ w CompileClicked).
  - by apply live_drawn, (perform_reachable _ _ w CompileClicked).
  - unfold share. destruct (handleShare _ _ _); [|done]. by destruct clipboard.
  - done.
  - by apply live_drawn, (perform_reachable _ _ w ResetClicked).
  - by apply live_drawn, (perform_reachable _ _ w (EditorPanel.Typed v)).
  - by apply live_drawn, (perform_reachable _ _ w (StoreEvent e)).
  - by apply live_drawn, (perform_reachable _ _ w (TimerFires now)).
  - by apply live_drawn, (perform_reachable _ _ w (Answered i r)).
  - apply live_drawn. destruct (writes w !! i); [|done]. by eapply (perform_reachable _ _ (with_writes _ w) Copied).
  - done.
  - by apply live_drawn, (perform_reachable _ _ w ToastEnds).
  - rewrite <-step_unmount with (dagre := dagre) (host_message := host_message) by done. by apply away_drawn.
Qed.

Lemma step_reachable p0 w g : gesture_ok w g → drawn p0 w → drawn p0 (step w g).
Proof.
  intros Hg [Hr Hs]. unfold EditorView.step. destruct (on_screen (panel_ w)) eqn:Hon.
  - apply gesture_reachable; [done|by split|by apply Hs].
  - assert (drawn p0 w) as Hw by by split; [|congruence].
    assert (∀ ev, panel_step (panel_ w) ev = handle_away true roomy dagre host_message ev (panel_ w)) as Haway.
    { intros ev. unfold EditorPanel.step. by rewrite Hon. }
    destruct g; cbn [EditorView.arrives]; try exact Hw.
    all: rewrite <-Haway; apply away_drawn; [congruence|done|done].
Qed.

(** The one exception but for the selector's: a link to copy, and no clipboard. *)
Definition refused (w : view) (g : gesture) : nat :=
  match g with
  | ShareButton => if on_screen (panel_ w) && negb clipboard && bool_decide (is_Some (handleShare origin pathname (panel_ w))) then 1 else 0
  | _ => 0
  end.

Lemma gesture_safe w g :
  on_screen (panel_ w) = true → dialog_shown w → (plan_count w ≤ plan_count (gesture_does g w))%nat →
  hovered_exists w →
  hovered_exists (gesture_does g w) ∧ thrown (gesture_does g w) = (thrown w + refused w g)%nat.
Proof.
  intros Hon Hs Hc. assert (refused w g = 0%nat → safe w (gesture_does g w) → hovered_exists w →
    hovered_exists (gesture_does g w) ∧ thrown (gesture_does g w) = (thrown w + refused w g)%nat) as Hsafe.
  { intros -> H Hh. destruct (H Hh) as [H1 ->]. by rewrite Nat.add_0_r. }
  destruct g as [e|e newId now|e|inInput at_ key newId now| | | | | | | | |v|e|now|i r|i|i| |];
    try (apply Hsafe; [done|]); cbn [EditorView.gesture_does] in *;
    try by eapply perform_event_safe; [reflexivity|].
  - destruct e; first [apply safe_refl|apply selector_safe].
  - destruct e; first [apply safe_refl|by apply prompt_safe].
  - destruct e; first [apply safe_refl|by apply confirmation_safe].
  - set (w1 := if inInput then _ else w) in *. set (w2 := selector_does (Dropdown.KeyDown key) w1) in *.
    assert (safe w w1) as H1 by (unfold w1; destruct inInput; [by apply prompt_safe|apply safe_refl]).
    assert (safe w1 w2) as H2 by apply selector_safe.
    apply (safe_trans _ _ _ H1), (safe_trans _ _ _ H2). apply confirmation_safe.
    destruct (selector_keeps (Dropdown.KeyDown key) w1) as [Hn Hm]. fold w2 in Hn, Hm.
    assert (w1 = w ∨ ∀ n, modal (ed (panel_ w1)) ≠ Some (Delete n)) as [E|Hd].
    { unfold w1. destruct inInput; [by apply prompt_no_deletion|by left]. }
    + rewrite Hn, E. done.
    + rewrite <- Hm in Hd. unfold EditorView.confirmation_does at 1.
      by destruct (modal (ed (panel_ w2))) as [[]|]; try by edestruct Hd.
  - by apply (perform_event_safe _ w SaveAsClicked).
  - destruct (plan_buttons (panel_ w)); [|apply safe_refl]. by apply (perform_event_safe _ w RenameClicked).
  - destruct (plan_buttons (panel_ w)); [|apply safe_refl]. by apply (perform_event_safe _ w DeleteClicked).
  - destruct (compiling (ed (panel_ w))); [apply safe_refl|]. by apply (perform_event_safe _ w CompileClicked).
  - by apply (perform_event_safe _ w CompileClicked).
  - intros Hh. unfold share, refused. rewrite Hon. destruct (handleShare _ _ _), clipboard; cbn; (split; [exact Hh|lia]).
  - apply safe_refl.
  - by apply (perform_event_safe _ w ResetClicked).
  - destruct (writes w !! i); [|apply safe_refl].
    by apply (perform_event_safe _ (with_writes (list_delete i (writes w)) w) Copied).
  - by intros Hh.
  - by intros Hh.
Qed.

Lemma step_safe w g :
  (on_screen (panel_ w) = true → dialog_shown w) → (plan_count w ≤ plan_count (step w g))%nat → hovered_exists w →
  hovered_exists (step w g) ∧ thrown (step w g) = (thrown w + refused w g)%nat.
Proof.
  intros Hs. unfold EditorView.step. destruct (on_screen (panel_ w)) eqn:Hon; [by apply gesture_safe; auto|].
  intros _ Hh. assert (refused w g = 0%nat) as -> by by destruct g; try done; cbn; rewrite Hon.
  rewrite Nat.add_0_r. by destruct g.
Qed.

(** *** Names *)

(** Every name is one there was, or a text without the space around it that is not empty. *)
Definition named_from (old : list string) (p : panel) : Prop :=
  ∀ q, q ∈ plans (savedPlans (ed p)) → name q ∈ old ∨ (name q ≠ EmptyString ∧ ∃ text, name q = trim text).

Lemma edit_plan_named old i f p p' :
  named_from old p → (∀ q, name (f q) = name q ∨ name (f q) ≠ EmptyString ∧ ∃ text, name (f q) = trim text) →
  plans (savedPlans (ed p')) = edit_plan i f (plans (savedPlans (ed p))) → named_from old p'.
Proof.
  intros Hn Hf E q. rewrite E. intros [Hq|(r & Hr & _ & ->)]%edit_plan_elem; [by apply Hn|].
  destruct (Hf r) as [->|H]; [by apply Hn|by right].
Qed.
Lemma handle_named old p e : named_from old p → named_from old (handle e p).
Proof.
  intros Hn. destruct e as [v|ev|now| |i r| | | | |text newId now| |i| | | |]; cbn [EditorPanel.handle]; try done.
  - unfold timer_fires. destruct (timer p) as [[c i]|]; [|done]. destruct (nonempty i); [|done].
    eapply edit_plan_named; [exact Hn| |reflexivity]. by left.
  - unfold handleCompile. by destruct (compiling (ed p)).
  - unfold response_arrives. destruct (requests p !! i) as [[n ?]|]; [|done].
    destruct (compiled dagre host_message n r (vis p)) as [[[? ?]|] ?]; done.
  - unfold submit. destruct (String.eqb_spec (trim text) EmptyString) as [|Hne]; [done|].
    destruct (modal (ed p)) as [[]|]; try done.
    + intros q [Hq|Hq]%elem_of_app; [by apply Hn|]. apply list_elem_of_singleton in Hq as ->. right. cbn. eauto.
    + unfold confirmRename. destruct (nonempty _); [|done].
      eapply edit_plan_named; [exact Hn| |reflexivity]. right. cbn. eauto.
  - unfold handleSelectPlan. destruct (String.eqb i "__new__"); [done|]. by destruct (find_plan i p).
  - unfold handleDeletePlan. by destruct (_ ≫= _).
  - destruct (modal (ed p)) as [[]|]; try done. unfold confirmDelete. destruct (nonempty _) as [i|]; [|done].
    intros q Hq. apply Hn. apply list_elem_of_In, (proj1 (filter_In (λ r, negb (String.eqb (id r) i)) q _)).
    apply list_elem_of_In. by destruct (find_plan i p).
  - unfold handleRenamePlan. by destruct (_ ≫= _).
Qed.
Lemma step_named old p e : named_from old p → named_from old (panel_step p e).
Proof.
  intros Hn. destruct (on_screen p) eqn:Hon.
  - destruct (decide (e = Unmount)) as [->|Hu]; [by rewrite step_unmount|].
    rewrite step_on by done. unfold named_from. rewrite commit_plans. by apply (handle_named old).
  - unfold named_from. by destruct (step_away dagre host_message p e Hon) as (-> & _).
Qed.
Lemma reachable_named old p0 p : inv p0 → named_from old p0 → reachable p0 p → named_from old p.
Proof.
  intros Hi H0. induction 1 as [|p e _ IH _|p p' shared Hp IH Hon Hm]; [done|by apply step_named|].
  destruct (reachable_inv dagre host_message p0 p Hi Hp) as [Hh _].
  destruct (mount_again shared p p' (vis p) Hh Hm) as [_ Hs]. unfold named_from. by rewrite Hs.
Qed.

(** ** The page *)

(** What is reached by gestures, whether a saved plan has been deleted on the way, and how
    many links could not be copied for want of a clipboard.  The page may be left and opened
    again. *)
Inductive page_reachable (w0 : view) : bool → nat → view → Prop :=
| page_start : page_reachable w0 false 0 w0
| page_step deleted n w g :
    page_reachable w0 deleted n w → gesture_ok w g →
    page_reachable w0 (deleted || bool_decide (plan_count (step w g) < plan_count w)%nat) (n + refused w g) (step w g)
| page_return deleted n w p shared :
    page_reachable w0 deleted n w → on_screen (panel_ w) = false →
    EditorPanel.mount true shared (local (panel_ w)) (vis (panel_ w)) = Some p →
    page_reachable w0 deleted n (returned p w).

Lemma mount_modal shared s m p : EditorPanel.mount true shared s m = Some p → modal (ed p) = None.
Proof.
  unfold EditorPanel.mount. destruct (state_of _); [|done]. cbn. intros [= <-]. by rewrite commit_modal.
Qed.

Lemma page_panel p0 deleted n w :
  modal (ed p0) = None → page_reachable (mounted p0) deleted n w →
  drawn p0 w ∧ (deleted = false → hovered_exists w ∧ thrown w = n).
Proof.
  intros H0. induction 1 as [|d n w g Hw (Hd & Hsafe) Hg|d n w p shared Hw (Hd & Hsafe) Hon Hm].
  - split; [|done]. split; [constructor|]. intros _. unfold dialog_shown. cbn. by rewrite H0.
  - split; [by apply step_reachable|].
    intros [-> Hc%bool_decide_eq_false]%orb_false_iff. destruct (Hsafe eq_refl) as [Hh Ht].
    destruct (step_safe w g (proj2 Hd) ltac:(lia) Hh) as [Hh' Ht']. by rewrite Ht', Ht.
  - split; [|intros E; by destruct (Hsafe E)]. split; [by eapply EditorPanel.reachable_mount; [apply Hd|..]|].
    intros _. unfold dialog_shown. cbn. by rewrite (mount_modal _ _ _ _ Hm).
Qed.

End runs.

(** C28: Whatever the user does on the editor's page (presses, clicks on what is drawn, keys
    wherever the focus is, leaving it and coming back), the panel goes through states its own
    events reach, so that what holds of those holds of the page.  The dialog drawn is the one
    the panel asks for.  A saved plan's name is one there was, or what was typed without the
    space around it, and that is not empty.  Until a saved plan has been deleted, exactly one
    kind of gesture makes a listener throw: Share of a text that makes a link, when the page
    has no clipboard, that is on an origin that is not secure; [n] counts these.  The storage
    works and has room, ids made for new plans are new, and the clock's times are finite
    ([gesture_ok]). *)
Theorem editor_page_correct dagre host_message clipboard origin pathname shared s saved m p0 deleted n w :
  storage_ok s saved → EditorPanel.mount true shared s m = Some p0 →
  page_reachable dagre host_message clipboard origin pathname (mounted p0) deleted n w →
  EditorPanel.reachable dagre host_message p0 (panel_ w) ∧
  (on_screen (panel_ w) = true → dialog_shown w) ∧
  (∀ q, q ∈ plans (savedPlans (ed (panel_ w))) →
    name q ∈ map name (plans saved) ∨ (name q ≠ EmptyString ∧ ∃ text, name q = trim text)) ∧
  (deleted = false → thrown w = n) ∧ (clipboard = true → n = 0%nat).
Proof.
  intros Hs Hm Hw. destruct (mount_ok shared s saved m Hs) as (p1 & Hp1 & Hi & _ & Hsaved & _).
  rewrite Hm in Hp1. injection Hp1 as <-.
  destruct (page_panel dagre host_message clipboard origin pathname p0 deleted n w (mount_modal _ _ _ _ Hm) Hw)
    as ([Hr Hd] & Ht).
  split_and!; [done..| |by intros H; apply Ht|].
  - apply (reachable_named dagre host_message (map name (plans saved)) p0); [done| |done].
    intros q. rewrite Hsaved. intros Hq. left. by apply (list_elem_of_fmap_2 name).
  - intros ->. clear -Hw. induction Hw as [|d n w g _ -> _|]; [done| |done].
    destruct g; try done. cbn. by rewrite andb_false_r.
Qed.

(** ** Concrete runs *)

Definition view_step : view → gesture → view :=
  step true roomy sample_dagre "TypeError" true (units_of "https://host") (units_of "/").
Definition view_reachable : view → bool → nat → view → Prop :=
  page_reachable sample_dagre "TypeError" true (units_of "https://host") (units_of "/").
Definition use (gs : list gesture) : view := foldl view_step (mounted start_panel) gs.
Definition summary (w : view) : list string * option string * bool * nat :=
  (map name (plans (savedPlans (ed (panel_ w)))), currentPlanId (ed (panel_ w)),
   Dropdown.isOpen (selector w), thrown w).
Definition enter : gesture := Key true ConfirmModal.Elsewhere "Enter" "id1" (num 5).

(** A name is typed with space around it, and Enter saves. *)
Definition saving : list gesture := [SaveAsButton; Prompt (PromptModal.Typed " mine ") "id1" (num 5); enter].
Example saving_names : summary (use saving) = (["mine"], Some "id1", false, 0%nat).
Proof. by vm_compute. Qed.

(** The saved plan is chosen with the pointer and deleted: the tab key leads to Cancel, and
    Enter deletes all the same.  Then Enter in the opened selector throws. *)
Definition choosing : list gesture :=
  [Selector Dropdown.TriggerClick; Selector (Dropdown.MouseEnter 1); Selector (Dropdown.OptionClick 1)].
Definition deleting : list gesture :=
  [DeleteButton; Key false ConfirmModal.OnCancelButton "Enter" "id2" (num 6)].
Example cancel_deletes : summary (use (saving ++ choosing ++ deleting)) = ([], None, false, 0%nat).
Proof. by vm_compute. Qed.
Example selector_throws :
  summary (use (saving ++ choosing ++ deleting ++
    [Selector Dropdown.TriggerClick; Key false ConfirmModal.Elsewhere "Enter" "id3" (num 7)])) =
  ([], None, true, 1%nat).
Proof. by vm_compute. Qed.

(** With the keyboard the selector can stay open behind the dialog.  It asks whether to
    delete [other]; Enter then first chooses [mine] in the selector and deletes that. *)
Definition saving_other : list gesture :=
  [SaveAsButton; Prompt (PromptModal.Typed "other") "id2" (num 8); Key true ConfirmModal.Elsewhere "Enter" "id2" (num 8)].
Definition asking : list gesture :=
  [Selector Dropdown.TriggerClick; DeleteButton; Key false ConfirmModal.Elsewhere "ArrowDown" "id3" (num 9);
   Key false ConfirmModal.Elsewhere "ArrowDown" "id3" (num 9)].
Example deletes_another :
  (dialog_text <$> modal (ed (panel_ (use (saving ++ saving_other ++ asking))))) =
    Some ("Delete Plan", "Are you sure you want to delete " +:+ quoted "other" +:+ "? This cannot be undone.", "Delete") ∧
  summary (use (saving ++ saving_other ++ asking ++ [Key false ConfirmModal.Elsewhere "Enter" "id3" (num 9)])) =
    (["other"], None, false, 0%nat).
Proof. by vm_compute. Qed.

(** Share: the link on its way and copied; and on an origin without a clipboard. *)
Example sharing :
  (map (λ g, length (writes (use g))) [[ShareButton]; [ShareButton; LinkCopied 0]],
   toast (ed (panel_ (use [ShareButton; LinkCopied 0])))) = ([1%nat; 0%nat], Some "Link copied to clipboard!").
Proof. by vm_compute. Qed.
Example sharing_throws :
  thrown (step true roomy sample_dagre "TypeError" false (units_of "http://host") (units_of "/")
    (mounted start_panel) ShareButton) = 1%nat.
Proof. by vm_compute. Qed.

Fixpoint all_kept (gs : list gesture) (w : view) : bool :=
  match gs with
  | [] => true
  | g :: gs => (plan_count w <=? plan_count (view_step w g))%nat && all_kept gs (view_step w g)
  end.
Fixpoint all_ok (gs : list gesture) (w : view) : Prop :=
  match gs with [] => True | g :: gs => gesture_ok w g ∧ all_ok gs (view_step w g) end.
Lemma kept_reachable w0 gs w :
  view_reachable w0 false 0 w → all_ok gs w → all_kept gs w = true →
  view_reachable w0 false 0 (foldl view_step w gs).
Proof.
  revert w. induction gs as [|g gs IH]; intros w Hw Hok Hk; [done|]. destruct Hok as [Hg Hok].
  cbn [all_kept] in Hk. apply andb_true_iff in Hk as [Hc%Nat.leb_le Hk]. cbn [foldl]. apply IH; [|done..].
  pose proof (page_step _ _ _ _ _ _ false 0 w g Hw Hg) as H. rewrite bool_decide_eq_false_2 in H.
  - assert (refused true (units_of "https://host") (units_of "/") w g = 0%nat) as Hn.
    { destruct g; try done. cbn. by rewrite andb_false_r. }
    rewrite Hn in H. exact H.
  - unfold view_step in Hc. lia.
Qed.
Lemma saving_reachable : view_reachable (mounted start_panel) false 0 (use saving).
Proof.
  apply kept_reachable; [constructor| |by vm_compute]. assert (number_ok (num 5)) as Hn by by repeat split.
  assert ("id1" ∉ ([] : list string)) as Hi by apply not_elem_of_nil.
  repeat (split; [first [done|cbn; split_and!; [done| |done]; vm_compute; by intros ?%not_elem_of_nil]|]). done.
Qed.
Lemma editor_page_correct_witness :
  thrown (use saving) = 0%nat ∧ dialog_shown (use saving) ∧
  ∀ q, q ∈ plans (savedPlans (ed (panel_ (use saving)))) →
    name q ∈ ([] : list string) ∨ (name q ≠ EmptyString ∧ ∃ text, name q = trim text).
Proof.
  destruct (editor_page_correct sample_dagre "TypeError" true (units_of "https://host") (units_of "/") None ∅ no_plans
    sample_initial start_panel false 0 (use saving)) as (_ & Hd & Hn & Ht & _).
  - apply empty_storage_ok.
  - by vm_compute.
  - apply saving_reachable.
  - split_and!; [by apply Ht|by apply Hd; vm_compute|exact Hn].
Defined.
