(* ===== verification/EditorSetup.v ===== *)
(** * EditorSetup: Monaco in the live editor
    (tools/visualizer/src/components/EditorPanel.tsx, handleEditorMount and its refs)

    When Monaco's editor has mounted, the panel sets TypeScript's options, the diagnostics
    that are not shown, the DSL's declarations and three key commands.  The commands are
    registered once and outlive renders, while each render makes new handlers; refs, which
    effects keep up to date, lead from the one to the others. *)

From S2P Require Import Prelude Collections JsValue Lint.

(** ** Options *)

Inductive ScriptTarget := ES2020.
Inductive ModuleKind := ESNext.
Inductive ModuleResolutionKind := NodeJs.
Record CompilerOptions := {
  target : ScriptTarget; module_ : ModuleKind; moduleResolution : ModuleResolutionKind;
  allowNonTsExtensions : bool; strict : bool;
}.
Definition compilerOptions : CompilerOptions :=
  {| target := ES2020; module_ := ESNext; moduleResolution := NodeJs; allowNonTsExtensions := true; strict := true |}.
Definition diagnosticCodesToIgnore : list nat := [2304; 2362; 2363; 2322; 2365; 2367].
Definition extraLib (DSL_TYPES : string) : string * string := (DSL_TYPES, "file:///node_modules/@ranking-dsl/index.d.ts").

(** Monaco's diagnostics of the text, without those ignored. *)
Definition markers (l : list TsPlugin.Diagnostic) : list TsPlugin.Diagnostic :=
  List.filter (λ d, negb (existsb (Nat.eqb (TsPlugin.diag_code d)) diagnosticCodesToIgnore)) l.

(** ** Commands, refs and handlers *)

(** A key with the modifiers that it is pressed with. *)
Record keys := { CtrlCmd : bool; Shift : bool; key : string }.
#[global] Instance keys_eq_dec : EqDecision keys.
Proof. solve_decision. Defined.
Inductive ref := handleCompileRef | handleSaveAsRef | handleFormatRef.
#[global] Instance ref_eq_dec : EqDecision ref.
Proof. solve_decision. Defined.
Definition commands : list (keys * ref) :=
  [({| CtrlCmd := true; Shift := false; key := "Enter" |}, handleCompileRef);
   ({| CtrlCmd := true; Shift := false; key := "S" |}, handleSaveAsRef);
   ({| CtrlCmd := true; Shift := true; key := "F" |}, handleFormatRef)].

Section handlers.
(** What a handler is, and the one that does nothing. *)
Context {H : Type} (nothing : H).

(** A render's handlers, the memoized ones of before or new ones. *)
Record handlers := { handleCompile : H; handleSaveAs : H; handleFormat : H }.
Definition handler (r : ref) (h : handlers) : H :=
  match r with handleCompileRef => handleCompile h | handleSaveAsRef => handleSaveAs h | handleFormatRef => handleFormat h end.

(** What the refs hold, and whether Monaco has mounted. *)
Record setup := { current : ref → H; mounted : bool }.
Definition start : setup := {| current := λ _, nothing; mounted := false |}.

(** The three effects after a render; [new] says which handlers are not those of the
    render before.  After the first render all run. *)
Definition keep_refs (new : ref → bool) (h : handlers) (s : setup) : setup :=
  {| current := λ r, if new r then handler r h else current s r; mounted := mounted s |}.
Definition handleEditorMount (s : setup) : setup := {| current := current s; mounted := true |}.
(** A key in the editor: what runs. *)
Definition press (k : keys) (s : setup) : option H :=
  if mounted s then
    match List.find (λ c, bool_decide (c.1 = k)) commands with
    | Some (_, r) => Some (current s r)
    | None => None
    end
  else None.

Inductive event := Rendered (new : ref → bool) (h : handlers) | EditorMounted.
Definition step (s : setup) (e : event) : setup :=
  match e with Rendered new h => keep_refs new h s | EditorMounted => handleEditorMount s end.

(** The handlers of the last render. *)
Definition latest (l : list event) : option handlers :=
  foldl (λ o e, match e with Rendered _ h => Some h | EditorMounted => o end) None l.
(** A handler that is not new is the one before; the first ones are new. *)
Fixpoint memoized (before : option handlers) (l : list event) : Prop :=
  match l with
  | [] => True
  | Rendered new h :: l' =>
      (∀ r, new r = false → ∃ h0, before = Some h0 ∧ handler r h = handler r h0) ∧ memoized (Some h) l'
  | EditorMounted :: l' => memoized before l'
  end.

Lemma refs_current l : ∀ before s,
  memoized before l → (∀ h r, before = Some h → current s r = handler r h) →
  ∀ h r, foldl (λ o e, match e with Rendered _ h => Some h | EditorMounted => o end) before l = Some h →
    current (foldl step s l) r = handler r h.
Proof.
  induction l as [|e l IH]; intros before s Hm Hs h r Hl; [by apply Hs|]. cbn [foldl] in *.
  destruct e as [new h'|]; cbn in Hm.
  - destruct Hm as [Hnew Hm]. eapply IH; [exact Hm| |exact Hl]. intros h'' r' [= <-]. cbn.
    destruct (new r') eqn:E; [done|]. destruct (Hnew r' E) as (h0 & Hb & ->). by apply Hs.
  - by eapply IH.
Qed.
Lemma mounted_stays l : ∀ s, mounted s = true → mounted (foldl step s l) = true.
Proof. induction l as [|e l IH]; intros s Hs; [done|]. cbn. apply IH. by destruct e. Qed.
Lemma mounted_since l s : EditorMounted ∈ l → mounted (foldl step s l) = true.
Proof.
  revert s. induction l as [|e l IH]; intros s He; [by apply elem_of_nil in He|]. cbn.
  apply elem_of_cons in He as [<-|He]; [by apply mounted_stays|by apply IH].
Qed.

(** However often the panel is drawn before and after Monaco mounts, and whichever handlers
    stay the same meanwhile, each key command runs the handler of the last render, as its
    button would; other keys are Monaco's. *)
Theorem shortcuts_current l h k :
  memoized None l → latest l = Some h → EditorMounted ∈ l →
  press k (foldl step start l) = (λ r, handler r h) <$> (snd <$> List.find (λ c, bool_decide (c.1 = k)) commands).
Proof.
  intros Hm Hl He. unfold press. rewrite mounted_since by done.
  destruct (List.find _ commands) as [[k' r]|]; [|done]. cbn. f_equal.
  exact (refs_current l None start Hm ltac:(done) h r Hl).
Qed.
End handlers.

(** A second render with a new compile handler, after Monaco has mounted. *)
Definition first_handlers : handlers := {| handleCompile := 1; handleSaveAs := 10; handleFormat := 100 |}.
Definition second_handlers : handlers := {| handleCompile := 2; handleSaveAs := 10; handleFormat := 100 |}.
Definition two_renders : list (@event nat) :=
  [Rendered (λ _, true) first_handlers; EditorMounted;
   Rendered (λ r, bool_decide (r = handleCompileRef)) second_handlers].
Lemma shortcuts_current_witness :
  press {| CtrlCmd := true; Shift := false; key := "Enter" |} (foldl step (start 0) two_renders) = Some 2 ∧
  press {| CtrlCmd := true; Shift := false; key := "S" |} (foldl step (start 0) two_renders) = Some 10 ∧
  press {| CtrlCmd := false; Shift := false; key := "Enter" |} (foldl step (start 0) two_renders) = None.
Proof.
  assert (memoized None two_renders) as Hm.
  { split; [done|]. split; [|done]. intros [] Hr; [done|by eexists..]. }
  assert (EditorMounted ∈ two_renders) as He by (right; left).
  split_and!; apply (shortcuts_current 0 two_renders second_handlers); done.
Defined.

(** ** Formatting *)

(** [handleFormat]: the action of the editor that has mounted, if it has the action. *)
Definition format (mounted has_action : bool) : list string :=
  if mounted && has_action then ["editor.action.formatDocument"] else [].

(** ** The two editors *)

(** What the language service plugin keeps quiet about in a plan's file is not shown here
    either: the live editor shows no diagnostic of a plan that the other does not. *)
Theorem quieter_than_plugin original fileName d :
  endsWith fileName ".plan.ts" = true →
  d ∈ markers (original fileName) → d ∈ TsPlugin.getSemanticDiagnostics original fileName.
Proof.
  intros He. unfold markers, TsPlugin.getSemanticDiagnostics. rewrite He. cbn [negb].
  rewrite !list_elem_of_In, !filter_In. intros [Hd Hm]. split; [done|]. unfold TsPlugin.shown.
  apply negb_true_iff in Hm.
  assert (∀ c, c ∈ diagnosticCodesToIgnore → TsPlugin.diag_code d ≠ c) as Hc.
  { intros c Hin E. assert (existsb (Nat.eqb (TsPlugin.diag_code d)) diagnosticCodesToIgnore = true) as Hx; [|congruence].
    apply existsb_exists. exists c. split; [by apply list_elem_of_In|by apply Nat.eqb_eq]. }
  assert (∀ c, c ∈ diagnosticCodesToIgnore → (TsPlugin.diag_code d =? c) = false) as Hf.
  { intros c Hin. by apply Nat.eqb_neq, Hc. }
  cbn [existsb TsPlugin.ARITHMETIC_ERROR_CODES].
  rewrite (Hf 2362), (Hf 2363), (Hf 2322) by (apply (bool_decide_unpack _); reflexivity). done.
Qed.
Lemma quieter_than_plugin_witness :
  let d := {| TsPlugin.diag_code := 1005; TsPlugin.messageText := TsPlugin.Text "';' expected." |} in
  d ∈ TsPlugin.getSemanticDiagnostics (λ _, [d]) "a.plan.ts".
Proof. apply quieter_than_plugin; [reflexivity|]. by apply list_elem_of_singleton. Defined.
