(* ===== verification/RegistryViewer.v ===== *)
(** * RegistryViewer: the registries on screen
    (tools/visualizer/src/components/RegistryViewer.tsx)

    The store has the registries and what is selected; the component searches them, shows
    a table for the selected tab and opens panels with an entry's details.  What is drawn
    is modelled as text: a table's headings and cells, a panel's title and rows.  Entries
    are JSON values, so that reading them can throw.  A panel's z-index is a count. *)

From S2P Require Import Prelude StateMonad Collections JsNumber JsValue StableStringify VisGraph VisStore Jsx.

(** ** Search *)

(** [s.toLowerCase()], on Latin-1 *)
Definition lower_char (c : ascii) : ascii :=
  let n := nat_of_ascii c in
  if is_upper c || ((192 <=? n) && (n <=? 222) && negb (n =? 215)) then ascii_of_nat (n + 32) else c.
Fixpoint toLowerCase (s : string) : string :=
  match s with EmptyString => EmptyString | String c s' => String (lower_char c) (toLowerCase s') end.

(** [v.toLowerCase().includes(query)] *)
Definition value_includes (query : string) (v : value) : result bool :=
  match v with VString s => Ok (includes (toLowerCase s) query) | _ => Throw TypeError end.

Definition member_includes (query member : string) (item : value) : result bool :=
  v ← get_prop item member; value_includes query v.

(** [a || b], where [b] may not be reached *)
Definition or_test (a b : result bool) : result bool :=
  match a with Ok false => b | _ => a end.

(** [items.filter(f)]; what is no array has no such method. *)
Fixpoint filter_result (f : value → result bool) (l : list value) : result (list value) :=
  match l with
  | [] => Ok []
  | x :: l' =>
      match f x with
      | Ok b => r ← filter_result f l'; Ok (if (b : bool) then x :: r else r)
      | Throw e => Throw e
      end
  end.
Definition filter_array (f : value → result bool) (items : value) : result (list value) :=
  match items with VArray l => filter_result f l | _ => Throw TypeError end.

(** The function of that name: an entry by its name or its description, if it has one. *)
Definition filterFn (query : string) (items : value) : result (list value) :=
  if String.eqb query EmptyString then filter_array (λ _, Ok true) items
  else
    filter_array (λ item,
      or_test (member_includes query "name" item)
        (doc ← get_prop item "doc"; if truthy doc then value_includes query doc else Ok false)) items.

(** By any of these members. *)
Fixpoint any_includes (query : string) (members : list string) (item : value) : result bool :=
  match members with
  | [] => Ok false
  | [m] => member_includes query m item
  | m :: ms => or_test (member_includes query m item) (any_includes query ms item)
  end.
Definition filter_members (query : string) (members : list string) (items : value) : result (list value) :=
  filter_array (λ item, or_test (Ok (String.eqb query EmptyString)) (any_includes query members item)) items.

Definition endpoints_of (d : RegistryData) (env : string) : value :=
  if String.eqb env "dev" then endpoints_dev d
  else if String.eqb env "test" then endpoints_test d
  else endpoints_prod d.

(** The selected tab, from the address or [event.state], can be any value. *)
Definition filteredData (registries : option RegistryData) (selectedTab : value)
    (searchQuery env : string) : result (list value) :=
  match registries with
  | None => Ok []
  | Some d =>
      let query := toLowerCase searchQuery in
      let tab := string_case selectedTab in
      if String.eqb tab "keys" then filterFn query (keys_ d)
      else if String.eqb tab "params" then filterFn query (params_ d)
      else if String.eqb tab "features" then filterFn query (features_ d)
      else if String.eqb tab "capabilities" then filter_members query ["name"; "id"; "doc"] (capabilities_ d)
      else if String.eqb tab "tasks" then filter_members query ["op"; "output_pattern"] (tasks_ d)
      else if String.eqb tab "endpoints" then
        filter_members query ["name"; "endpoint_id"; "kind"] (endpoints_of d env)
      else Ok []
  end.

(** ** Tables *)

Fixpoint cells_of (fs : list (value → result string)) (e : value) : result (list string) :=
  match fs with [] => Ok [] | f :: fs' => t ← f e; ts ← cells_of fs' e; Ok (t :: ts) end.

(** [p.map(q => q.name).join(', ') || '-'] *)
Definition param_names (e : value) : result string :=
  ps ← get_prop e "params";
  match ps with
  | VArray l =>
      names ← collect (λ q, get_prop q "name") l; t ← array_join ", " names;
      Ok (if String.eqb t EmptyString then "-" else t)
  | _ => Throw TypeError
  end.
Definition host_port (e : value) : result string :=
  r ← get_prop e "resolver"; h ← shown_prop "host" r; p ← shown_prop "port" r; Ok (h +:+ ":" +:+ p).
Definition timeouts (e : value) : result string :=
  p ← get_prop e "policy";
  c ← shown_prop "connect_timeout_ms" p; r ← shown_prop "request_timeout_ms" p;
  Ok ("conn: " +:+ c +:+ "ms, req: " +:+ r +:+ "ms").

Definition headings (tab : string) : list string :=
  if String.eqb tab "keys" || String.eqb tab "params" then
    ["ID"; "Name"; "Type"; "Nullable"; "Status"; "Description"]
  else if String.eqb tab "features" then ["ID"; "Stage"; "Name"; "Type"; "Status"; "Description"]
  else if String.eqb tab "capabilities" then ["ID"; "RFC"; "Name"; "Status"; "Description"]
  else if String.eqb tab "tasks" then ["Op"; "Output Pattern"; "Params"; "Has writes_effect"]
  else if String.eqb tab "endpoints" then ["ID"; "Name"; "Kind"; "Host:Port"; "Timeouts"]
  else [].

Definition key_cells : value → result (list string) := cells_of
  [shown_prop "key_id"; shown_prop "name"; shown_prop "type"; bool_text "true" "false" "nullable";
   shown_prop "status"; shown_prop "doc"].
Definition param_cells : value → result (list string) := cells_of
  [shown_prop "param_id"; shown_prop "name"; shown_prop "type"; bool_text "true" "false" "nullable";
   shown_prop "status"; shown_prop "doc"].
Definition feature_cells : value → result (list string) := cells_of
  [shown_prop "feature_id"; shown_prop "stage"; shown_prop "name"; shown_prop "type";
   shown_prop "status"; shown_prop "doc"].
Definition capability_cells : value → result (list string) := cells_of
  [shown_prop "id"; shown_prop "rfc"; shown_prop "name"; shown_prop "status"; shown_prop "doc"].
Definition task_cells : value → result (list string) := cells_of
  [shown_prop "op"; shown_prop "output_pattern"; param_names; bool_text "yes" "no" "writes_effect"].
Definition endpoint_cells : value → result (list string) := cells_of
  [shown_prop "endpoint_id"; shown_prop "name"; shown_prop "kind"; host_port; timeouts].

Definition row_cells (tab : string) : value → result (list string) :=
  if String.eqb tab "keys" then key_cells
  else if String.eqb tab "params" then param_cells
  else if String.eqb tab "features" then feature_cells
  else if String.eqb tab "capabilities" then capability_cells
  else if String.eqb tab "tasks" then task_cells
  else endpoint_cells.

(** The member that names an entry: a row's key and what a click selects. *)
Definition id_member (tab : string) : string :=
  if String.eqb tab "keys" then "key_id"
  else if String.eqb tab "params" then "param_id"
  else if String.eqb tab "features" then "feature_id"
  else if String.eqb tab "capabilities" then "id"
  else if String.eqb tab "tasks" then "op"
  else "endpoint_id".

(** ** Tabs *)

Record TabInfo := { tab_id : string; tab_label : string; tab_count : value }.

Definition count_of (registries : option RegistryData) (f : RegistryData → value) : result value :=
  match registries with
  | None => Ok (VNumber (num 0))
  | Some d => n ← get_prop (f d) "length"; Ok (nullish n (VNumber (num 0)))
  end.
Definition tabs (registries : option RegistryData) (selectedEndpointEnv : string) : result (list TabInfo) :=
  collect (λ t : string * string * (RegistryData → value),
      n ← count_of registries t.2; Ok {| tab_id := t.1.1; tab_label := t.1.2; tab_count := n |})
    [("keys", "Keys", keys_); ("params", "Params", params_); ("features", "Features", features_);
     ("capabilities", "Capabilities", capabilities_); ("tasks", "Tasks", tasks_);
     ("endpoints", "Endpoints", λ d, endpoints_of d selectedEndpointEnv)].

(** ** An entry's details *)

Definition getStatusStyle (status : value) : string * string :=
  match string_case status with
  | "active" | "implemented" => ("statusActive", "statusActiveText")
  | "deprecated" => ("statusDeprecated", "statusDeprecatedText")
  | "draft" => ("statusDraft", "statusDraftText")
  | "blocked" => ("statusBlocked", "statusBlockedText")
  | _ => ("comment", "#ffffff")
  end.
Definition StatusBadge (label : string) (e : value) : result (list detail) :=
  s ← get_prop e "status"; t ← shown s;
  Ok [Badge label t (getStatusStyle s).1 (getStatusStyle s).2].

Definition row (label : string) (f : value → result string) (e : value) : result (list detail) :=
  t ← f e; Ok [Row label [t]].
(** [{e.k !== null && row}] *)
Definition unless_null (member : string) (r : value → result (list detail)) (e : value)
    : result (list detail) :=
  v ← get_prop e member; if is_null v then Ok [] else r e.
(** [{e.k && row}] with the value as indented JSON *)
Definition json_row (label member : string) (e : value) : result (list detail) :=
  v ← get_prop e member; if_truthy v (Ok [Row label [json_text 2 v]]).

Fixpoint details (fs : list (value → result (list detail))) (e : value) : result (list detail) :=
  match fs with [] => Ok [] | f :: fs' => r ← f e; rs ← details fs' e; Ok (r ++ rs) end.

Definition true_false : string → value → result string := bool_text "true" "false".

Definition renderKeyDetails : value → result (list detail) := details
  [row "Key ID" (shown_prop "key_id"); row "Name" (shown_prop "name"); row "Type" (shown_prop "type");
   StatusBadge "Status"; row "Nullable" (true_false "nullable");
   row "Allow Read" (true_false "allow_read"); row "Allow Write" (true_false "allow_write");
   unless_null "default" (row "Default" (λ e, v ← get_prop e "default"; Ok (json_text 0 v)));
   unless_null "replaced_by" (row "Replaced By" (shown_prop "replaced_by"));
   row "Description" (shown_prop "doc")].
Definition renderParamDetails : value → result (list detail) := details
  [row "Param ID" (shown_prop "param_id"); row "Name" (shown_prop "name"); row "Type" (shown_prop "type");
   StatusBadge "Status"; row "Nullable" (true_false "nullable");
   row "Allow Read" (true_false "allow_read"); row "Allow Write" (true_false "allow_write");
   unless_null "replaced_by" (row "Replaced By" (shown_prop "replaced_by"));
   row "Description" (shown_prop "doc")].
Definition renderFeatureDetails : value → result (list detail) := details
  [row "Feature ID" (shown_prop "feature_id"); row "Stage" (shown_prop "stage");
   row "Name" (shown_prop "name"); row "Type" (shown_prop "type"); StatusBadge "Status";
   row "Nullable" (true_false "nullable"); row "Description" (shown_prop "doc")].
Definition renderCapabilityDetails : value → result (list detail) := details
  [row "Capability ID" (shown_prop "id"); row "RFC" (shown_prop "rfc"); row "Name" (shown_prop "name");
   StatusBadge "Status"; row "Description" (shown_prop "doc"); json_row "Payload Schema" "payload_schema"].

(** A task's parameter: its name, and its type and flags. *)
Definition param_lines (p : value) : result (list string) :=
  n ← shown_prop "name" p; t ← shown_prop "type" p;
  r ← bool_text "yes" "no" "required" p; u ← bool_text "yes" "no" "nullable" p;
  Ok [n; "type: " +:+ t +:+ " | required: " +:+ r +:+ " | nullable: " +:+ u].
Definition params_row (e : value) : result (list detail) :=
  ps ← get_prop e "params";
  len ← get_prop ps "length"; n ← ToNumber len;
  if num_ltb (num 0) n then
    match ps with
    | VArray l => ls ← collect param_lines l; Ok [Row "Parameters" (concat ls)]
    | _ => Throw TypeError
    end
  else Ok [Row "Parameters" ["None"]].

Definition renderTaskDetails : value → result (list detail) := details
  [row "Op" (shown_prop "op"); row "Output Pattern" (shown_prop "output_pattern"); params_row;
   json_row "Writes Effect" "writes_effect"].

Definition resolver_row (e : value) : result (list detail) :=
  r ← get_prop e "resolver"; t ← shown_prop "type" r; h ← host_port e;
  Ok [Row "Resolver" ["type: " +:+ t; h]].
Definition policy_row (e : value) : result (list detail) :=
  p ← get_prop e "policy";
  m ← shown_prop "max_inflight" p; c ← shown_prop "connect_timeout_ms" p;
  r ← shown_prop "request_timeout_ms" p;
  Ok [Row "Policy" ["max_inflight: " +:+ m; "connect_timeout: " +:+ c +:+ "ms";
                    "request_timeout: " +:+ r +:+ "ms"]].
Definition renderEndpointDetails : value → result (list detail) := details
  [row "Endpoint ID" (shown_prop "endpoint_id"); row "Name" (shown_prop "name");
   row "Kind" (shown_prop "kind"); resolver_row; policy_row].

(** ** Open panels *)

Record OpenPanel := {
  panel_id : value; panel_tab : value;
  panel_x : Z; panel_y : Z;        (* pixels *)
  zIndex : nat;
}.

(** The component's state, and the store it shares. *)
Record viewer := { openPanels : list OpenPanel; nextZIndex : nat; vis : machine }.

Definition with_panels (f : list OpenPanel → list OpenPanel) (v : viewer) : viewer :=
  {| openPanels := f (openPanels v); nextZIndex := nextZIndex v; vis := vis v |}.
Definition selectedTab (v : viewer) : value := selectedRegistryTab (st_registry (store (vis v))).

(** [p.id === id && p.tab === tab] *)
Definition is_panel (id tab : value) (p : OpenPanel) : bool :=
  strict_equal (panel_id p) id && strict_equal (panel_tab p) tab.
Definition on_panel (id tab : value) (f : OpenPanel → OpenPanel) : list OpenPanel → list OpenPanel :=
  map (λ p, if is_panel id tab p then f p else p).

Definition raised_to (z : nat) (p : OpenPanel) : OpenPanel :=
  {| panel_id := panel_id p; panel_tab := panel_tab p; panel_x := panel_x p; panel_y := panel_y p;
     zIndex := z |}.
Definition moved (dx dy : Z) (p : OpenPanel) : OpenPanel :=
  {| panel_id := panel_id p; panel_tab := panel_tab p; panel_x := (panel_x p + dx)%Z;
     panel_y := (panel_y p + dy)%Z; zIndex := zIndex p |}.

Definition new_panel (innerWidth : Z) (id tab : value) (z : nat) (prev : list OpenPanel) : OpenPanel :=
  let offset := (Z.of_nat (length prev mod 5) * 30)%Z in
  {| panel_id := id; panel_tab := tab; panel_x := (innerWidth - 360 - offset)%Z;
     panel_y := (80 + offset)%Z; zIndex := z |}.

(** React calls the function given to [setOpenPanels] once, or more often (twice in strict
    mode): the [setNextZIndex] inside then adds that many. *)
Definition update_panels (runs : nat) (f : nat → list OpenPanel → list OpenPanel) (v : viewer) : viewer :=
  {| openPanels := f (nextZIndex v) (openPanels v); nextZIndex := nextZIndex v + S runs; vis := vis v |}.

Definition handleRowClick (innerWidth : Z) (runs : nat) (id : value) (v : viewer) : viewer :=
  match setSelectedRegistryEntry id (vis v) with
  | (Throw _, m) => {| openPanels := openPanels v; nextZIndex := nextZIndex v; vis := m |}
  | (Ok _, m) =>
      update_panels runs (λ z prev,
        if existsb (is_panel id (selectedTab v)) prev
        then on_panel id (selectedTab v) (raised_to z) prev
        else prev ++ [new_panel innerWidth id (selectedTab v) z prev])
        {| openPanels := openPanels v; nextZIndex := nextZIndex v; vis := m |}
  end.

Definition handleClosePanel (id tab : value) : viewer → viewer :=
  with_panels (List.filter (λ p, negb (is_panel id tab p))).
Definition handlePanelDragStart (runs : nat) (id tab : value) : viewer → viewer :=
  update_panels runs (λ z, on_panel id tab (raised_to z)).
Definition handlePanelDrag (id tab : value) (dx dy : Z) : viewer → viewer :=
  with_panels (on_panel id tab (moved dx dy)).

(** The effect that opens a panel for the selected entry, as the render [seen] has it. *)
Definition auto_open (innerWidth : Z) (seen v : viewer) : viewer :=
  let r := st_registry (store (vis seen)) in
  match registries r with
  | None => v
  | Some _ =>
      if is_null (selectedRegistryEntry r) then v
      else if existsb (is_panel (selectedRegistryEntry r) (selectedRegistryTab r)) (openPanels seen) then v
      else
        {| openPanels := openPanels v ++
             [new_panel innerWidth (selectedRegistryEntry r) (selectedRegistryTab r)
                (nextZIndex seen) (openPanels seen)];
           nextZIndex := nextZIndex v + 1; vis := vis v |}
  end.

(** The effect that loads the registries. *)
Definition load_missing (seen v : viewer) : viewer :=
  let r := st_registry (store (vis seen)) in
  match registries r with
  | None =>
      if registriesLoading r || is_text (registriesError r) then v
      else {| openPanels := openPanels v; nextZIndex := nextZIndex v; vis := (loadRegistries Nobody (vis v)).2 |}
  | Some _ => v
  end.

(** [Object.is], which compares an effect's dependencies *)
Definition object_is (a b : value) : bool :=
  match a, b with VNumber x, VNumber y => bool_decide (x = y) | _, _ => same_json a b end.

(** The effects after a render; [replaced] says that the registries are another object. *)
Definition commit (innerWidth : Z) (replaced : bool) (before after : viewer) : viewer :=
  let r := st_registry (store (vis before)) in
  let r' := st_registry (store (vis after)) in
  let v := load_missing after after in
  if object_is (selectedRegistryEntry r) (selectedRegistryEntry r') &&
     object_is (selectedRegistryTab r) (selectedRegistryTab r') && negb replaced
  then v
  else auto_open innerWidth after v.

(** The first render; in strict mode its effects run twice, on what the render saw. *)
Definition effects (innerWidth : Z) (seen v : viewer) : viewer :=
  auto_open innerWidth seen (load_missing seen v).
Definition mount (innerWidth : Z) (strict : bool) (m : machine) : viewer :=
  let seen := {| openPanels := []; nextZIndex := 100; vis := m |} in
  let v := effects innerWidth seen seen in
  if strict then effects innerWidth seen v else v.

(** ** What panels show *)

(** [registries.keys.find(k => k.key_id === id)] and the others *)
Fixpoint find_by (member : string) (l : list value) (id : value) : result value :=
  match l with
  | [] => Ok VUndefined
  | e :: l' => i ← get_prop e member; if strict_equal i id then Ok e else find_by member l' id
  end.
Definition find_in (member : string) (items id : value) : result value :=
  match items with VArray l => find_by member l id | _ => Throw TypeError end.

Definition getPanelDetails (registries : option RegistryData) (env : string) (panel : OpenPanel) : result value :=
  match registries with
  | None => Ok VNull
  | Some d =>
      let tab := string_case (panel_tab panel) in
      if String.eqb tab "keys" then find_in "key_id" (keys_ d) (panel_id panel)
      else if String.eqb tab "params" then find_in "param_id" (params_ d) (panel_id panel)
      else if String.eqb tab "features" then find_in "feature_id" (features_ d) (panel_id panel)
      else if String.eqb tab "capabilities" then find_in "id" (capabilities_ d) (panel_id panel)
      else if String.eqb tab "tasks" then find_in "op" (tasks_ d) (panel_id panel)
      else if String.eqb tab "endpoints" then find_in "endpoint_id" (endpoints_of d env) (panel_id panel)
      else Ok VNull
  end.

Definition getPanelTitle (registries : option RegistryData) (env : string) (panel : OpenPanel) : result string :=
  e ← getPanelDetails registries env panel;
  if negb (truthy e) then template (panel_id panel)
  else
    let tab := string_case (panel_tab panel) in
    if String.eqb tab "tasks" then shown_prop "op" e
    else if string_elem ["keys"; "params"; "features"; "capabilities"; "endpoints"] tab then shown_prop "name" e
    else template (panel_id panel).

Definition isPanelOpen (v : viewer) (id : value) : bool := existsb (is_panel id (selectedTab v)) (openPanels v).

Definition render_details (tab : string) : value → result (list detail) :=
  if String.eqb tab "keys" then renderKeyDetails
  else if String.eqb tab "params" then renderParamDetails
  else if String.eqb tab "features" then renderFeatureDetails
  else if String.eqb tab "capabilities" then renderCapabilityDetails
  else if String.eqb tab "tasks" then renderTaskDetails
  else if String.eqb tab "endpoints" then renderEndpointDetails
  else λ _, Ok [].

Record drawn_panel := {
  drawn_x : Z; drawn_y : Z; drawn_z : nat; drawn_title : string; drawn_details : list detail }.

Definition draw_panel (registries : option RegistryData) (env : string) (panel : OpenPanel)
    : result (list drawn_panel) :=
  e ← getPanelDetails registries env panel;
  if negb (truthy e) then Ok []
  else
    t ← getPanelTitle registries env panel;
    ds ← render_details (string_case (panel_tab panel)) e;
    Ok [{| drawn_x := panel_x panel; drawn_y := panel_y panel; drawn_z := zIndex panel;
           drawn_title := t; drawn_details := ds |}].

(** A table's row: whether it is marked, what a click selects and its cells. *)
Record drawn_row := { marked : bool; click_id : value; cells : list string }.
Inductive content :=
| EmptyState (text : string)
| Table (head : list string) (rows : list drawn_row).
Inductive screen :=
| Loading
| Failure (message : string)
| Screen (tabs : list TabInfo) (environments : bool) (body : content) (panels : list drawn_panel).

Definition draw_row (v : viewer) (tab : string) (e : value) : result drawn_row :=
  i ← get_prop e (id_member tab); cs ← row_cells tab e;
  Ok {| marked := isPanelOpen v i; click_id := i; cells := cs |}.
Definition table_content (v : viewer) (data : list value) : result content :=
  let tab := string_case (selectedTab v) in
  match data with
  | [] =>
      Ok (EmptyState (if String.eqb (registrySearchQuery (st_registry (store (vis v)))) EmptyString
                      then "No entries" else "No results found"))
  | _ => rows ← collect (draw_row v tab) data; Ok (Table (headings tab) rows)
  end.

Definition render (v : viewer) : result screen :=
  let r := st_registry (store (vis v)) in
  let env := selectedEndpointEnv r in
  ts ← tabs (registries r) env;
  data ← filteredData (registries r) (selectedRegistryTab r) (registrySearchQuery r) env;
  if registriesLoading r then Ok Loading
  else
    match registriesError r with
    | Some (String c s) => Ok (Failure (String c s))
    | _ =>
        body ← table_content v data;
        ps ← collect (draw_panel (registries r) env) (openPanels v);
        Ok (Screen ts (String.eqb (string_case (selectedTab v)) "endpoints") body (concat ps))
    end.

(** ** Dragging *)

(** The state of a [DraggableDetailsPanel], with how many pairs of listeners it has on the
    document: more than one if a release was lost. *)
Record dragging := { isDragging : bool; dragStart : option (Z * Z); listeners : nat }.
Definition idle : dragging := {| isDragging := false; dragStart := None; listeners := 0 |}.

Section drag.
Context (onDragStart : viewer → viewer) (onDrag : Z → Z → viewer → viewer).

Definition handleMouseDown (onButton : bool) (x y : Z) (s : dragging * viewer) : dragging * viewer :=
  if onButton then s
  else ({| isDragging := true; dragStart := Some (x, y); listeners := S (listeners s.1) |},
        onDragStart s.2).
Definition handleMouseMove (x y : Z) (s : dragging * viewer) : dragging * viewer :=
  match dragStart s.1 with
  | Some (sx, sy) =>
      ({| isDragging := isDragging s.1; dragStart := Some (x, y); listeners := listeners s.1 |},
       onDrag (x - sx)%Z (y - sy)%Z s.2)
  | None => s
  end.
(** Every listener is called. *)
Definition mouse_move (x y : Z) (s : dragging * viewer) : dragging * viewer :=
  Nat.iter (listeners s.1) (handleMouseMove x y) s.
Definition mouse_up (s : dragging * viewer) : dragging * viewer :=
  if listeners s.1 =? 0 then s else (idle, s.2).
End drag.

(** ** Events *)

Inductive ui_event :=
| RowClick (runs : nat) (id : value)
| ClosePanel (id tab : value)
| DragStart (runs : nat) (id tab : value)
| Drag (id tab : value) (dx dy : Z)
| StoreEvent (ev : event).

Section events.
Context (dagre : LayoutOptions → list (value * number * number) → list (value * value) →
  result (value → option (number * number))).
Context (host_message : string).

Definition handle (innerWidth : Z) (e : ui_event) (v : viewer) : viewer :=
  match e with
  | RowClick runs id => handleRowClick innerWidth runs id v
  | ClosePanel id tab => handleClosePanel id tab v
  | DragStart runs id tab => handlePanelDragStart runs id tab v
  | Drag id tab dx dy => handlePanelDrag id tab dx dy v
  | StoreEvent ev =>
      {| openPanels := openPanels v; nextZIndex := nextZIndex v;
         vis := VisStore.step dagre host_message (vis v) ev |}
  end.
Definition step (innerWidth : Z) (replaced : bool) (v : viewer) (e : ui_event) : viewer :=
  commit innerWidth replaced v (handle innerWidth e v).

Inductive reachable (strict : bool) (m : machine) : viewer → Prop :=
| reach_mount w : reachable strict m (mount w strict m)
| reach_step w replaced v e : reachable strict m v → reachable strict m (step w replaced v e).
End events.

(** ** Panels: one for an entry, in layers *)

Definition layered (v : viewer) : Prop :=
  100 ≤ nextZIndex v ∧ Forall (λ p, 100 ≤ zIndex p < nextZIndex v) (openPanels v).
Definition distinct (ps : list OpenPanel) : Prop :=
  ∀ i j p q, ps !! i = Some p → ps !! j = Some q →
    is_panel (panel_id q) (panel_tab q) p = true → i = j.

Lemma num_eqb_same a b : num_eqb a b = same_value_zero a b && negb (isNaN a && isNaN b).
Proof.
  unfold num_eqb, same_value_zero. destruct (isNaN a && isNaN b) eqn:H; [|by rewrite orb_false_r, andb_true_r].
  destruct a, b; done.
Qed.
Lemma strict_equal_sym a b : strict_equal a b = strict_equal b a.
Proof.
  destruct a, b; try done; cbn.
  - by destruct b, b0.
  - rewrite !num_eqb_same, same_value_zero_sym. f_equal. f_equal. apply andb_comm.
  - apply String.eqb_sym.
Qed.

Lemma is_panel_sym p q :
  is_panel (panel_id p) (panel_tab p) q = is_panel (panel_id q) (panel_tab q) p.
Proof. unfold is_panel. f_equal; apply strict_equal_sym. Qed.

(** Functions that change neither a panel's entry nor its tab. *)
Definition in_place (f : OpenPanel → OpenPanel) : Prop :=
  ∀ p, panel_id (f p) = panel_id p ∧ panel_tab (f p) = panel_tab p.
Lemma on_panel_lookup id tab f ps i :
  on_panel id tab f ps !! i = (λ p, if is_panel id tab p then f p else p) <$> ps !! i.
Proof. apply list_lookup_fmap. Qed.
Lemma on_panel_is id tab f p :
  in_place f → ∀ i t, is_panel i t (if is_panel id tab p then f p else p) = is_panel i t p.
Proof. intros Hf i t. case_match; [|done]. unfold is_panel. by destruct (Hf p) as [-> ->]. Qed.

Lemma on_panel_distinct id tab f ps : in_place f → distinct ps → distinct (on_panel id tab f ps).
Proof.
  intros Hf H i j p q. rewrite !on_panel_lookup.
  intros (p0 & Hp & ->)%fmap_Some (q0 & Hq & ->)%fmap_Some. rewrite on_panel_is by done.
  intros Hs. apply (H i j p0 q0 Hp Hq). revert Hs. case_match; [|done].
  by destruct (Hf q0) as [-> ->].
Qed.

Lemma filter_distinct (f : OpenPanel → bool) ps : distinct ps → distinct (List.filter f ps).
Proof.
  intros H. induction ps as [|p ps IH]; [done|].
  assert (distinct ps) as Hps. { intros i j a b Ha Hb Hs. by apply (H (S i) (S j) a b) in Hs; [lia|..]. }
  cbn. destruct (f p); [|auto]. specialize (IH Hps).
  assert (∀ k q, List.filter f ps !! k = Some q → is_panel (panel_id q) (panel_tab q) p = false) as Hp.
  { intros k q [Hq _]%list_elem_of_lookup_2%list_elem_of_In%filter_In.
    apply list_elem_of_In, list_elem_of_lookup in Hq as [k' Hq].
    apply not_true_is_false. intros Hs. by apply (H 0 (S k') p q) in Hs. }
  intros [|i] [|j] a b; cbn; intros Ha Hb Hs; simplify_eq; [done|..].
  - by rewrite (Hp _ _ Hb) in Hs.
  - rewrite is_panel_sym, (Hp _ _ Ha) in Hs. done.
  - f_equal. by apply (IH i j a b).
Qed.

Lemma snoc_distinct ps p :
  existsb (is_panel (panel_id p) (panel_tab p)) ps = false → distinct ps → distinct (ps ++ [p]).
Proof.
  intros He H. assert (∀ k q, ps !! k = Some q → is_panel (panel_id p) (panel_tab p) q = false) as Hn.
  { intros k q Hq. apply not_true_is_false. intros Hs. revert He. apply not_false_iff_true, existsb_exists.
    exists q. split; [|done]. by eapply list_elem_of_In, list_elem_of_lookup_2. }
  intros i j a b [Ha|[Hi Ha]]%lookup_app_Some [Hb|[Hj Hb]]%lookup_app_Some Hs.
  - by apply (H i j a b).
  - apply list_lookup_singleton_Some in Hb as [? <-]. by rewrite (Hn _ _ Ha) in Hs.
  - apply list_lookup_singleton_Some in Ha as [? <-]. by rewrite is_panel_sym, (Hn _ _ Hb) in Hs.
  - apply list_lookup_singleton_Some in Ha as [? <-], Hb as [? <-]. lia.
Qed.

(** Panels stay in their layers when the counter grows and some are raised to it. *)
Lemma layered_update runs f v :
  (∀ z ps, 100 ≤ z → Forall (λ p, 100 ≤ zIndex p < z) ps → Forall (λ p, 100 ≤ zIndex p ≤ z) (f z ps)) →
  layered v → layered (update_panels runs f v).
Proof.
  intros Hf [Hn H]. split; unfold update_panels; cbn [openPanels nextZIndex]; [lia|].
  eapply Forall_impl; [exact (Hf _ _ Hn H)|]. intros p Hp. cbv beta in *. lia.
Qed.
Lemma on_panel_raised id tab z ps :
  100 ≤ z → Forall (λ p, 100 ≤ zIndex p < z) ps →
  Forall (λ p, 100 ≤ zIndex p ≤ z) (on_panel id tab (raised_to z) ps).
Proof.
  intros Hz H. apply Forall_map. eapply Forall_impl; [exact H|]. intros p Hp. cbn in *.
  case_match; cbn; lia.
Qed.
Lemma snoc_raised p z ps :
  zIndex p = z → 100 ≤ z → Forall (λ p, 100 ≤ zIndex p < z) ps →
  Forall (λ p, 100 ≤ zIndex p ≤ z) (ps ++ [p]).
Proof.
  intros Hp Hz H. apply Forall_app. split; [|repeat constructor; lia].
  eapply Forall_impl; [exact H|]. intros q Hq. cbn in *. lia.
Qed.

Definition in_order (v : viewer) : Prop := distinct (openPanels v) ∧ layered v.

(** What is done to the store does not matter. *)
Lemma in_order_vis v v' :
  openPanels v' = openPanels v → nextZIndex v' = nextZIndex v → in_order v → in_order v'.
Proof. unfold in_order, layered. by intros -> ->. Qed.

Lemma in_place_raised z : in_place (raised_to z).
Proof. done. Qed.
Lemma in_place_moved dx dy : in_place (moved dx dy).
Proof. done. Qed.

Lemma auto_open_in_order w v v' :
  openPanels v' = openPanels v → nextZIndex v' = nextZIndex v → in_order v' → in_order (auto_open w v v').
Proof.
  unfold auto_open. intros Ep Ez [Hd [Hz Hl]].
  destruct (registries _); [|done]. case_match; [done|]. case_match eqn:Hx; [done|]. split; cbn.
  - apply snoc_distinct; [|done]. by rewrite Ep.
  - split; cbn [openPanels nextZIndex]; [lia|]. rewrite <-Ep, <-Ez. eapply Forall_impl;
      [apply (snoc_raised _ (nextZIndex v')); [done..|]; exact Hl|].
    intros p Hp. cbn in *. lia.
Qed.

Lemma load_missing_panels seen v :
  openPanels (load_missing seen v) = openPanels v ∧ nextZIndex (load_missing seen v) = nextZIndex v.
Proof. unfold load_missing. by repeat case_match. Qed.

Lemma commit_in_order w replaced v v' : in_order v' → in_order (commit w replaced v v').
Proof.
  intros H. destruct (load_missing_panels v' v') as [Ep Ez].
  assert (in_order (load_missing v' v')) by by eapply in_order_vis.
  unfold commit. case_match; [done|]. by apply auto_open_in_order.
Qed.

Lemma handle_in_order dagre host w e v : in_order v → in_order (handle dagre host w e v).
Proof.
  intros [Hd Hl]. destruct e as [runs id|id tab|runs id tab|id tab dx dy|ev]; cbn.
  - unfold handleRowClick. destruct (setSelectedRegistryEntry id (vis v)) as [[u|ex] m]; [|done].
    split; cbn.
    + case_match eqn:Hx; [by apply on_panel_distinct|by apply snoc_distinct].
    + apply layered_update; [|done]. intros z ps Hz Hp. case_match; [by apply on_panel_raised|by apply snoc_raised].
  - split; cbn; [by apply filter_distinct|]. split; [apply Hl|]. cbn. destruct Hl as [_ Hl].
    apply Forall_forall. intros p [Hp _]%list_elem_of_In%filter_In. apply list_elem_of_In in Hp.
    by eapply Forall_forall in Hl.
  - split; cbn; [by apply on_panel_distinct|]. apply layered_update; [|done]. intros. by apply on_panel_raised.
  - split; cbn; [by apply on_panel_distinct|]. split; [apply Hl|]. apply Forall_map.
    eapply Forall_impl; [apply Hl|]. intros p Hp. cbn in *. by case_match.
  - by eapply in_order_vis.
Qed.

(** The first render opens no panel twice: only strict mode, the registries loaded and an
    entry selected before the view is shown make it do so ([strict_mode_doubles_panel]). *)
Definition opens_once (strict : bool) (m : machine) : bool :=
  let r := st_registry (store m) in
  negb strict || match registries r with None => true | Some _ => is_null (selectedRegistryEntry r) end.

Lemma auto_open_nothing w seen v : opens_once true (vis seen) = true → auto_open w seen v = v.
Proof. unfold opens_once, auto_open. cbn [negb orb]. case_match; [by intros ->|done]. Qed.

Lemma mount_in_order w strict m : opens_once strict m = true → in_order (mount w strict m).
Proof.
  set (seen := {| openPanels := []; nextZIndex := 100; vis := m |}).
  assert (in_order seen) as Hseen.
  { split; [by intros i j p q Hp|]. split; [cbn; lia|constructor]. }
  destruct (load_missing_panels seen seen) as [Ep Ez].
  unfold mount, effects. fold seen. destruct strict; intros Ho.
  - rewrite !(auto_open_nothing w seen) by done.
    destruct (load_missing_panels seen (load_missing seen seen)) as [Ep' Ez'].
    apply (in_order_vis seen); [by rewrite Ep', Ep|by rewrite Ez', Ez|done].
  - apply auto_open_in_order; [done..|]. by apply (in_order_vis seen).
Qed.

Lemma reachable_in_order dagre host strict m v :
  opens_once strict m = true → reachable dagre host strict m v → in_order v.
Proof.
  intros Ho. induction 1 as [w|w replaced v e _ IH]; [by apply mount_in_order|].
  by apply commit_in_order, handle_in_order.
Qed.

(** ** A click opens the entry, on top *)

Lemma num_eqb_iff a b :
  num_eqb a b = true ↔ same_value_zero a b = true ∧ isNaN a = false ∧ isNaN b = false.
Proof.
  rewrite num_eqb_same, andb_true_iff, negb_true_iff, andb_false_iff. split; [|tauto].
  intros [H Hn]. split; [done|]. apply same_value_zero_iff in H as [->|[Ha Hb]]; [tauto|].
  by destruct a, b.
Qed.
Lemma strict_equal_trans a b c :
  strict_equal a b = true → strict_equal b c = true → strict_equal a c = true.
Proof.
  destruct a, b; try done; destruct c; try done; cbn.
  - by destruct b, b0.
  - rewrite !num_eqb_iff. intros (H & ? & ?) (H' & ? & ?).
    split; [by eapply same_value_zero_trans|done].
  - rewrite !String.eqb_eq. congruence.
Qed.

(** What names an entry: a string or a number. *)
Definition is_id (v : value) : bool :=
  match v with VString _ => true | VNumber n => negb (isNaN n) | _ => false end.
Lemma is_id_refl v : is_id v = true → strict_equal v v = true.
Proof.
  destruct v; try done; cbn; intros H; [|apply String.eqb_refl].
  apply negb_true_iff in H. apply num_eqb_iff. split; [|done]. apply same_value_zero_iff. by left.
Qed.

Lemma set_selected id tab m :
  is_id id = true → selectedRegistryTab (st_registry (store m)) = VString tab →
  ∃ m', setSelectedRegistryEntry id m = (Ok tt, m') ∧
    registries (st_registry (store m')) = registries (st_registry (store m)) ∧
    selectedRegistryTab (st_registry (store m')) = VString tab ∧
    selectedRegistryEntry (st_registry (store m')) = id ∧
    selectedEndpointEnv (st_registry (store m')) = selectedEndpointEnv (st_registry (store m)).
Proof.
  intros Hi Ht. assert (∃ s, template id = Ok s) as [s Hs] by (destruct id; try done; by eexists).
  destruct m as [[? ? ? ? []] flag ? ?]. cbn in Ht. subst.
  unfold setSelectedRegistryEntry, select_registry, set_registry, modify, mbind, M_bind.
  assert (is_null id = false) as -> by by destruct id.
  unfold unless_popstate, StateMonad.get, push_selected, pushState, modify, lift, mbind, M_bind. cbn -[template].
  destruct flag; [by eexists|]. rewrite Hs. by eexists.
Qed.

(** The panel of the entry is in the list and above the others. *)
Definition on_top (id tab : value) (ps : list OpenPanel) (p : OpenPanel) : Prop :=
  p ∈ ps ∧ is_panel id tab p = true ∧ ∀ q, q ∈ ps → q = p ∨ zIndex q < zIndex p.

Lemma same_panel id tab p q :
  is_panel id tab p = true → is_panel id tab q = true → is_panel (panel_id q) (panel_tab q) p = true.
Proof.
  unfold is_panel. rewrite !andb_true_iff. intros [Hi Ht] [Hi' Ht'].
  rewrite strict_equal_sym in Hi', Ht'. split; by eapply strict_equal_trans.
Qed.

Lemma raised_on_top id tab z ps :
  distinct ps → Forall (λ p, 100 ≤ zIndex p < z) ps → existsb (is_panel id tab) ps = true →
  ∃ p, on_top id tab (on_panel id tab (raised_to z) ps) p.
Proof.
  intros Hd Hl [p [Hp His]]%existsb_exists. apply list_elem_of_In in Hp.
  pose proof Hp as [i Hi]%list_elem_of_lookup.
  exists (raised_to z p). split; [|split; [done|]].
  - apply list_elem_of_fmap. exists p. by rewrite His.
  - intros q [q0 [-> Hq]]%list_elem_of_fmap. pose proof Hq as [j Hj]%list_elem_of_lookup.
    case_match eqn:Hs.
    + left. assert (i = j) as -> by by apply (Hd i j p q0 Hi Hj), same_panel with id tab. congruence.
    + right. eapply Forall_forall in Hl; [|exact Hq]. cbn in *. lia.
Qed.
Lemma new_on_top w id tab z ps :
  is_id id = true → Forall (λ p, 100 ≤ zIndex p < z) ps →
  on_top id (VString tab) (ps ++ [new_panel w id (VString tab) z ps]) (new_panel w id (VString tab) z ps).
Proof.
  intros Hi Hl. split; [set_solver|]. split.
  - unfold is_panel. cbn. by rewrite String.eqb_refl, is_id_refl.
  - intros q [Hq| ->%list_elem_of_singleton]%elem_of_app; [right|by left].
    eapply Forall_forall in Hl; [|exact Hq]. cbn in *. lia.
Qed.

Lemma row_click_on_top w replaced runs id tab v d dagre host :
  in_order v → is_id id = true → selectedTab v = VString tab →
  registries (st_registry (store (vis v))) = Some d →
  let v' := step dagre host w replaced v (RowClick runs id) in
  registries (st_registry (store (vis v'))) = Some d ∧
  selectedEndpointEnv (st_registry (store (vis v'))) = selectedEndpointEnv (st_registry (store (vis v))) ∧
  ∃ p, on_top id (VString tab) (openPanels v') p.
Proof.
  intros [Hd [Hz Hl]] Hi Ht Hr. unfold step, handle, handleRowClick.
  destruct (set_selected id tab (vis v) Hi Ht) as (m' & -> & Er & Et & Ee & Ev). rewrite Ht.
  set (u := update_panels _ _ _).
  assert (∃ p, on_top id (VString tab) (openPanels u) p) as [p Hp].
  { subst u. cbn [openPanels nextZIndex update_panels].
    destruct (existsb (is_panel id (VString tab)) (openPanels v)) eqn:Hx.
    - by apply raised_on_top.
    - eexists. by apply new_on_top. }
  assert (vis u = m') as Hu by done. clearbody u.
  assert (existsb (is_panel id (VString tab)) (openPanels u) = true) as Hx.
  { apply existsb_exists. exists p. destruct Hp as (Hp & His & _). split; [by apply list_elem_of_In|done]. }
  assert (∀ b, commit w b v u = u) as ->.
  { intros b. unfold commit, load_missing, auto_open. rewrite Hu, Er, Hr, Et, Ee, Hx.
    by repeat case_match. }
  rewrite Hu, Er, Ev. eauto.
Qed.

(** ** Search and tables *)

(** The entries of a tab, and the members that a search looks at. *)
Definition entries_of (d : RegistryData) (env tab : string) : option value :=
  if String.eqb tab "keys" then Some (keys_ d)
  else if String.eqb tab "params" then Some (params_ d)
  else if String.eqb tab "features" then Some (features_ d)
  else if String.eqb tab "capabilities" then Some (capabilities_ d)
  else if String.eqb tab "tasks" then Some (tasks_ d)
  else if String.eqb tab "endpoints" then Some (endpoints_of d env)
  else None.
Definition searched (tab : string) : list string :=
  if String.eqb tab "capabilities" then ["name"; "id"; "doc"]
  else if String.eqb tab "tasks" then ["op"; "output_pattern"]
  else if String.eqb tab "endpoints" then ["name"; "endpoint_id"; "kind"]
  else ["name"; "doc"].

(** The members are texts; a description may be missing where the type says so. *)
Definition searchable (tab : string) (e : value) : bool :=
  forallb (λ m, match get_prop e m with
                | Ok (VString _) => true
                | Ok v => String.eqb m "doc" && string_elem ["keys"; "params"; "features"] tab && negb (truthy v)
                | Throw _ => false
                end) (searched tab).

Definition member_matches (query : string) (e : value) (m : string) : bool :=
  match get_prop e m with Ok (VString s) => includes (toLowerCase s) query | _ => false end.
Definition matches (query tab : string) (e : value) : bool :=
  String.eqb query EmptyString || existsb (member_matches query e) (searched tab).

Lemma filter_result_spec f g l :
  (∀ e, e ∈ l → f e = Ok (g e)) → filter_result f l = Ok (List.filter g l).
Proof.
  induction l as [|e l IH]; intros H; [done|]. cbn. rewrite (H e) by set_solver.
  rewrite IH by set_solver. cbn. by destruct (g e).
Qed.

Lemma member_includes_spec query m e s :
  get_prop e m = Ok (VString s) → member_includes query m e = Ok (member_matches query e m).
Proof. intros H. unfold member_includes, member_matches. by rewrite H. Qed.

Lemma or_test_Ok a b x y : a = Ok x → b = Ok y → or_test a b = Ok (x || y).
Proof. intros -> ->. by destruct x. Qed.

Lemma any_includes_spec query ms e :
  forallb (λ m, match get_prop e m with Ok (VString _) => true | _ => false end) ms = true →
  any_includes query ms e = Ok (existsb (member_matches query e) ms).
Proof.
  induction ms as [|m ms IH]; [done|]. cbn [forallb existsb any_includes].
  intros [Hm Hms]%andb_true_iff. destruct (get_prop e m) as [[]|] eqn:Hg; try done.
  destruct ms as [|m' ms].
  - cbn. rewrite orb_false_r. by eapply member_includes_spec.
  - apply or_test_Ok; [by eapply member_includes_spec|]. by apply IH.
Qed.

Lemma filter_members_spec query ms l :
  Forall (λ e, forallb (λ m, match get_prop e m with Ok (VString _) => true | _ => false end) ms = true) l →
  filter_members query ms (VArray l) =
  Ok (List.filter (λ e, String.eqb query EmptyString || existsb (member_matches query e) ms) l).
Proof.
  intros H. apply filter_result_spec. intros e He. apply or_test_Ok; [done|].
  apply any_includes_spec. by eapply Forall_forall in H.
Qed.

Lemma filterFn_spec query tab l :
  tab ∈ ["keys"; "params"; "features"] → Forall (λ e, searchable tab e = true) l →
  filterFn query (VArray l) = Ok (List.filter (matches query tab) l).
Proof.
  intros Ht H. assert (searched tab = ["name"; "doc"]) as Hs by (set_unfold; naive_solver).
  unfold filterFn, filter_array, matches. rewrite Hs. destruct (String.eqb query EmptyString) eqn:Hq.
  { apply (filter_result_spec _ (λ _, true)). done. }
  apply filter_result_spec. intros e He. eapply Forall_forall in H; [|exact He].
  unfold searchable in H. rewrite Hs in H. cbn [forallb] in H. rewrite andb_true_r in H.
  apply andb_true_iff in H as [Hn Hd]. destruct (get_prop e "name") as [[]|] eqn:Hname; try done.
  cbn [existsb orb]. rewrite orb_false_r. apply or_test_Ok; [by eapply member_includes_spec|].
  unfold member_matches. destruct (get_prop e "doc") as [v|]; [|done]. cbn.
  destruct (truthy v) eqn:Htr.
  - destruct v; try done; by rewrite andb_false_r in Hd.
  - destruct v as [| | | |[|c r]| | | | | |]; try done. by destruct query.
Qed.

Lemma filteredData_spec d env tab q l :
  entries_of d env tab = Some (VArray l) → Forall (λ e, searchable tab e = true) l →
  filteredData (Some d) (VString tab) q env = Ok (List.filter (matches (toLowerCase q) tab) l).
Proof.
  unfold entries_of, filteredData, string_case. cbv zeta. intros He H.
  repeat (match type of He with (if String.eqb tab ?s then _ else _) = _ =>
    destruct (String.eqb_spec tab s) as [->|?] end;
    [injection He as He; rewrite ?He;
     first [apply filterFn_spec; [set_solver|done]
           |apply filter_members_spec; eapply Forall_impl; [exact H|]; intros e Hs;
            unfold searchable in Hs; cbn [searched String.eqb Ascii.eqb Bool.eqb] in Hs; cbn in Hs |- *;
            repeat (let x := fresh in destruct (get_prop e _) as [x|]; [destruct x|]); done]|]).
  done.
Qed.

Lemma includes_iff s p : includes s p = true ↔ ∃ a b, s = a +:+ p +:+ b.
Proof.
  split.
  - induction s as [|c s IH]; cbn [includes]; intros H.
    + rewrite orb_false_r in H. apply startsWith_iff in H as [b Hb]. by exists EmptyString, b.
    + apply orb_true_iff in H as [[b Hb]%startsWith_iff|(a & b & ->)%IH].
      * by exists EmptyString, b.
      * by exists (String c a), b.
  - intros (a & b & ->). induction a as [|c a IH].
    + change (EmptyString +:+ p +:+ b) with (p +:+ b).
      destruct (p +:+ b) eqn:E; cbn [includes]; rewrite <-E, startsWith_app; done.
    + change (String c a +:+ p +:+ b) with (String c (a +:+ p +:+ b)). cbn [includes].
      by rewrite IH, orb_true_r.
Qed.
Lemma toLowerCase_app s t : toLowerCase (s +:+ t) = toLowerCase s +:+ toLowerCase t.
Proof. induction s as [|c s IH]; [done|]. cbn. by rewrite IH. Qed.

Lemma matches_more a q b tab e :
  matches (toLowerCase (a +:+ q +:+ b)) tab e = true → matches (toLowerCase q) tab e = true.
Proof.
  unfold matches. rewrite !orb_true_iff, !toLowerCase_app.
  intros [Ha%String.eqb_eq|(m & Hm & Hs)%existsb_exists].
  - left. destruct (toLowerCase a), (toLowerCase q); done.
  - right. apply existsb_exists. exists m. split; [done|]. unfold member_matches in *.
    destruct (get_prop e m) as [[]|]; try done.
    apply includes_iff in Hs as (x & y & ->). apply includes_iff.
    exists (x +:+ toLowerCase a), (toLowerCase b +:+ y). autorewrite with js. done.
Qed.

(** Searching a registry does not fail when its entries have texts where the types say
    so.  It shows the tab's entries, in their order, that have the query in one of the
    members searched, letters' case aside; an empty query shows all; and typing more, on
    either side, only removes rows. *)
Theorem search_finds d env tab l a q b :
  entries_of d env tab = Some (VArray l) → Forall (λ e, searchable tab e = true) l →
  ∃ data more, filteredData (Some d) (VString tab) q env = Ok data ∧
    filteredData (Some d) (VString tab) (a +:+ q +:+ b) env = Ok more ∧
    more `sublist_of` data ∧ data `sublist_of` l ∧
    ∀ e, e ∈ data ↔ e ∈ l ∧ (q = EmptyString ∨
      ∃ m s pre post, m ∈ searched tab ∧ get_prop e m = Ok (VString s) ∧
        toLowerCase s = pre +:+ toLowerCase q +:+ post).
Proof.
  intros He Hs. eexists _, _. split_and!; try by apply filteredData_spec.
  - apply filter_weaker. apply matches_more.
  - apply filter_sublist.
  - intros e. rewrite list_elem_of_In, filter_In, <-list_elem_of_In. f_equiv.
    unfold matches. rewrite orb_true_iff, String.eqb_eq. f_equiv.
    { split; [by destruct q|]. by intros ->. }
    rewrite existsb_exists. unfold member_matches. split.
    + intros (m & Hm%list_elem_of_In & H). destruct (get_prop e m) as [[]|] eqn:Hg; try done.
      apply includes_iff in H as (x & y & H). eauto 10.
    + intros (m & s & x & y & Hm & Hg & H). exists m. rewrite <-list_elem_of_In, Hg. split; [done|].
      apply includes_iff. eauto.
Qed.

Definition sample_key (id name doc : string) : value :=
  VObject [("key_id", VString id); ("name", VString name); ("doc", VString doc)].
Definition sample_registries : RegistryData := {|
  keys_ := VArray [VObject [("key_id", VNumber (num 1)); ("name", VString "model_score"); ("type", VString "float");
                            ("nullable", VBool false); ("status", VString "active"); ("doc", VString "A Score.")];
                   VObject [("key_id", VNumber (num 2)); ("name", VString "country"); ("type", VString "string");
                            ("nullable", VBool true); ("status", VString "deprecated"); ("doc", VString EmptyString)]];
  params_ := VArray []; features_ := VArray []; capabilities_ := VArray []; tasks_ := VArray [];
  endpoints_dev := VArray []; endpoints_test := VArray []; endpoints_prod := VArray [] |}.

Lemma search_finds_witness :
  ∃ l data more, keys_ sample_registries = VArray l ∧
    filteredData (Some sample_registries) (VString "keys") "SCO" "dev" = Ok data ∧
    filteredData (Some sample_registries) (VString "keys") "a SCORE" "dev" = Ok more ∧
    more `sublist_of` data.
Proof.
  destruct (search_finds sample_registries "dev" "keys" _ "a " "SCO" "RE" eq_refl) as (data & more & Hd & Hm & Hs & _);
    [by repeat constructor|].
  exists (match keys_ sample_registries with VArray l => l | _ => [] end), data, more.
  split; [done|]. split; [exact Hd|]. split; [exact Hm|exact Hs].
Defined.

(** ** What a row opens *)

(** Every entry has a name of its own, as the registry parsers ensure. *)
Definition identified (member : string) (l : list value) : Prop :=
  Forall (λ e, ∃ i, get_prop e member = Ok i ∧ is_id i = true) l ∧
  ∀ i j a b x y, l !! i = Some a → l !! j = Some b →
    get_prop a member = Ok x → get_prop b member = Ok y → strict_equal x y = true → i = j.

Lemma find_by_identified member l e i i' :
  identified member l → e ∈ l → get_prop e member = Ok i → strict_equal i' i = true →
  find_by member l i' = Ok e.
Proof.
  intros [Hg Hu] He Hi Hs. induction l as [|a l IH]; [set_solver|].
  apply Forall_cons in Hg as [(x & Hx & _) Hg]. cbn. rewrite Hx. cbn.
  pose proof He as [j Hj]%list_elem_of_lookup. destruct (strict_equal x i') eqn:Ex.
  - specialize (Hu 0 j a e x i eq_refl Hj Hx Hi (strict_equal_trans _ _ _ Ex Hs)). subst j.
    by injection Hj as ->.
  - apply elem_of_cons in He as [->|He].
    + rewrite Hx in Hi. injection Hi as ->. by rewrite strict_equal_sym, Hs in Ex.
    + apply IH; [done| |done]. intros j1 j2 u v y z H1 H2 H3 H4 H5.
      by apply (Hu (S j1) (S j2) u v y z H1 H2 H3 H4) in H5 as [= ->].
Qed.

Lemma panel_details d env tab p l id :
  entries_of d env tab = Some (VArray l) → is_panel id (VString tab) p = true →
  getPanelDetails (Some d) env p = find_by (id_member tab) l (panel_id p).
Proof.
  unfold is_panel. intros He [_ Ht]%andb_true_iff.
  unfold getPanelDetails. destruct (panel_tab p) as [| | | |t| | | | | |]; try done.
  apply String.eqb_eq in Ht as ->. cbn [string_case]. cbv zeta. unfold entries_of, id_member in *.
  repeat (match type of He with (if ?c then _ else _) = _ => destruct c end;
    [injection He as ->; done|]). done.
Qed.

(** C34: However panels were opened, closed, dragged and raised and whatever the store did,
    there is one panel for an entry; a click on a row of the table leaves a panel for its
    entry, above every other panel, and the panel shows the row's entry.  The view may be
    in strict mode, unless it was first shown with the registries loaded and an entry
    selected ([opens_once]: that opens two panels for one entry); the tab's entries have
    each an id of its own ([identified]) and texts in the members that a search looks at
    ([searchable]). *)
Theorem row_opens_its_entry dagre host strict m v w replaced runs d tab l data e id :
  opens_once strict m = true → reachable dagre host strict m v →
  registries (st_registry (store (vis v))) = Some d → selectedTab v = VString tab →
  let env := selectedEndpointEnv (st_registry (store (vis v))) in
  entries_of d env tab = Some (VArray l) → identified (id_member tab) l →
  Forall (λ e, searchable tab e = true) l →
  filteredData (Some d) (VString tab) (registrySearchQuery (st_registry (store (vis v)))) env = Ok data →
  e ∈ data → get_prop e (id_member tab) = Ok id →
  let v' := step dagre host w replaced v (RowClick runs id) in
  distinct (openPanels v') ∧
  ∃ p, on_top id (VString tab) (openPanels v') p ∧
    getPanelDetails (registries (st_registry (store (vis v'))))
      (selectedEndpointEnv (st_registry (store (vis v')))) p = Ok e.
Proof.
  intros Ho Hr Hreg Ht env He Hid Hs Hdata Hin Hi v'. apply reachable_in_order in Hr; [|done].
  split; [by apply commit_in_order, handle_in_order|].
  rewrite (filteredData_spec _ _ _ _ _ He Hs) in Hdata. injection Hdata as <-.
  apply list_elem_of_In, filter_In in Hin as [Hin%list_elem_of_In _].
  assert (is_id id = true) as Hisid.
  { destruct Hid as [Hid _]. eapply Forall_forall in Hid as (i & Hi' & ?); [|exact Hin]. congruence. }
  destruct (row_click_on_top w replaced runs id tab v d dagre host Hr Hisid Ht Hreg)
    as (E1 & E2 & p & Hp).
  subst v' env. cbv zeta in E1, E2, Hp. rewrite E1, E2.
  exists p. split; [done|]. destruct Hp as (_ & His & _). rewrite (panel_details _ _ _ _ _ _ He His).
  apply andb_true_iff in His as [Hpid _]. by apply find_by_identified with id.
Qed.

(** ** A panel follows the mouse *)

Lemma moved_moved a b c d p : moved a b (moved c d p) = moved (c + a) (d + b) p.
Proof. unfold moved. cbn. f_equal; lia. Qed.
Lemma on_panel_comp id tab f g ps :
  in_place g → on_panel id tab f (on_panel id tab g ps) = on_panel id tab (λ p, f (g p)) ps.
Proof.
  intros Hg. unfold on_panel. rewrite map_map. apply map_ext. intros p.
  rewrite on_panel_is by done. by destruct (is_panel id tab p).
Qed.

(** Where the pointer is after the moves. *)
Definition end_of (p0 : Z * Z) (path : list (Z * Z)) : Z * Z := List.last path p0.

Lemma end_of_cons p q path : end_of p (q :: path) = end_of q path.
Proof.
  unfold end_of. revert p q. induction path as [|r path IH]; intros p q; [done|].
  change (List.last (r :: path) p = List.last (r :: path) q). by rewrite !IH.
Qed.

Lemma drag_path id tab path : ∀ x y n v,
  foldl (λ s p, mouse_move (handlePanelDrag id tab) p.1 p.2 s)
    ({| isDragging := true; dragStart := Some (x, y); listeners := S n |}, v) path =
  ({| isDragging := true; dragStart := Some (end_of (x, y) path); listeners := S n |},
   with_panels (on_panel id tab (moved ((end_of (x, y) path).1 - x) ((end_of (x, y) path).2 - y))) v).
Proof.
  assert (∀ x y v, with_panels (on_panel id tab (moved (x - x) (y - y))) v = v) as Hid.
  { intros x y [ps z m]. unfold with_panels. cbn. f_equal. unfold on_panel.
    rewrite <-(map_id ps) at 2. apply map_ext. intros [i t px py pz]. unfold moved. cbn.
    destruct (is_panel _ _ _); [|done]. f_equal; lia. }
  assert (∀ x' y' n k v, Nat.iter k (handleMouseMove (handlePanelDrag id tab) x' y')
      ({| isDragging := true; dragStart := Some (x', y'); listeners := n |}, v) =
      ({| isDragging := true; dragStart := Some (x', y'); listeners := n |}, v)) as Hagain.
  { intros x' y' n k v. induction k as [|k IH]; [done|]. rewrite Nat.iter_succ, IH.
    unfold handleMouseMove, handlePanelDrag. cbn. by rewrite Hid. }
  induction path as [|[x' y'] path IH]; intros x y n v; cbn [foldl].
  { unfold end_of. cbn [List.last fst snd]. by rewrite Hid. }
  assert (mouse_move (handlePanelDrag id tab) x' y'
      ({| isDragging := true; dragStart := Some (x, y); listeners := S n |}, v) =
    ({| isDragging := true; dragStart := Some (x', y'); listeners := S n |},
     handlePanelDrag id tab (x' - x) (y' - y) v)) as E.
  { unfold mouse_move. cbn [fst listeners]. rewrite Nat.iter_succ_r.
    unfold handleMouseMove at 2. cbn [fst snd dragStart isDragging listeners]. by rewrite Hagain. }
  cbn [fst snd]. rewrite E, IH.
  assert (end_of (x, y) ((x', y') :: path) = end_of (x', y') path) as ->.
  { apply end_of_cons. }
  f_equal. unfold handlePanelDrag, with_panels. cbn. f_equal. rewrite on_panel_comp by done.
  unfold on_panel. apply map_ext. intros p. destruct (is_panel id tab p); [|done].
  rewrite moved_moved. f_equal; lia.
Qed.

(** Dragging a panel by its header, through any movements, raises it above every other
    panel and moves it by what the pointer moved, lets go of the mouse when the button is
    released and leaves the other panels and the store alone; pressing the close button
    starts no drag. *)
Theorem panel_follows_mouse dagre host strict m v id tab runs x y path :
  opens_once strict m = true → reachable dagre host strict m v →
  let press b := handleMouseDown (handlePanelDragStart runs id tab) b x y (idle, v) in
  let '(s, v') := mouse_up (foldl (λ s p, mouse_move (handlePanelDrag id tab) p.1 p.2 s) (press false) path) in
  press true = (idle, v) ∧ s = idle ∧ vis v' = vis v ∧
  (∀ i p, openPanels v !! i = Some p → openPanels v' !! i = Some
     (if is_panel id tab p
      then {| panel_id := panel_id p; panel_tab := panel_tab p;
              panel_x := (panel_x p + ((end_of (x, y) path).1 - x))%Z;
              panel_y := (panel_y p + ((end_of (x, y) path).2 - y))%Z; zIndex := nextZIndex v |}
      else p)) ∧
  length (openPanels v') = length (openPanels v) ∧
  Forall (λ q, is_panel id tab q = false → zIndex q < nextZIndex v) (openPanels v').
Proof.
  intros Ho Hr. destruct (reachable_in_order _ _ _ _ _ Ho Hr) as [_ [_ Hl]]. cbv zeta. unfold handleMouseDown at 1. cbn [fst snd listeners].
  change (listeners idle) with 0. rewrite drag_path. cbn [mouse_up fst snd listeners Nat.eqb].
  assert (openPanels (with_panels (on_panel id tab (moved ((end_of (x, y) path).1 - x)
      ((end_of (x, y) path).2 - y))) (handlePanelDragStart runs id tab v)) =
    on_panel id tab (λ p, moved ((end_of (x, y) path).1 - x) ((end_of (x, y) path).2 - y)
      (raised_to (nextZIndex v) p)) (openPanels v)) as E by by apply on_panel_comp.
  unfold mouse_up. cbn [fst snd listeners Nat.eqb]. rewrite E.
  split_and!; [done..| | |].
  - intros i p Hp. by rewrite on_panel_lookup, Hp.
  - by apply length_map.
  - apply Forall_map. eapply Forall_impl; [exact Hl|]. intros p Hp. cbn in *.
    case_match eqn:Hx; [|lia]. unfold is_panel in *. cbn. congruence.
Qed.

(** ** On concrete registries *)

Definition no_dagre : LayoutOptions → list (value * number * number) → list (value * value) →
  result (value → option (number * number)) := λ _ _ _, Throw TypeError.
Definition shown_machine (tab entry : value) : machine := {|
  store := {| st_index := st_index initialStore; st_plan := st_plan initialStore;
    st_source := st_source initialStore; st_canvas := st_canvas initialStore;
    st_registry := {| registries := Some sample_registries; registriesLoading := false;
      registriesError := None; selectedRegistryTab := tab; registrySearchQuery := "C";
      selectedRegistryEntry := entry; selectedEndpointEnv := "dev" |} |};
  isHandlingPopState := false; history := []; pending := [] |}.
Definition sample_viewer : viewer :=
  step no_dagre "type error" 1000 false
    (step no_dagre "type error" 1000 false (mount 1000 true (shown_machine (VString "keys") VNull))
      (RowClick 1 (VNumber (num 1))))
    (DragStart 1 (VNumber (num 1)) (VString "keys")).

Lemma sample_reachable :
  reachable no_dagre "type error" true (shown_machine (VString "keys") VNull) sample_viewer.
Proof. apply reach_step, reach_step, reach_mount. Qed.

Definition sample_entry : value :=
  VObject [("key_id", VNumber (num 2)); ("name", VString "country"); ("type", VString "string");
           ("nullable", VBool true); ("status", VString "deprecated"); ("doc", VString EmptyString)].

Lemma row_opens_its_entry_witness :
  ∃ data v', filteredData (Some sample_registries) (VString "keys") "C" "dev" = Ok data ∧ sample_entry ∈ data ∧
    v' = step no_dagre "type error" 1000 false sample_viewer (RowClick 0 (VNumber (num 2))) ∧
    distinct (openPanels v') ∧ length (openPanels v') = 2.
Proof.
  assert (filteredData (Some sample_registries) (VString "keys") "C" "dev" =
    Ok (match keys_ sample_registries with VArray l => l | _ => [] end)) as Hd by by vm_compute.
  assert (sample_entry ∈ match keys_ sample_registries with VArray l => l | _ => [] end) as He
    by (apply elem_of_cons; right; apply list_elem_of_singleton; reflexivity).
  eexists _, _. split; [exact Hd|]. split; [exact He|]. split; [reflexivity|].
  split; [|by vm_compute].
  eapply (row_opens_its_entry no_dagre "type error" true (shown_machine (VString "keys") VNull) _ 1000 false 0 sample_registries "keys" _ _ sample_entry
    (VNumber (num 2)) eq_refl sample_reachable eq_refl eq_refl eq_refl);
    [|by repeat constructor|exact Hd|exact He|reflexivity].
  split; [by repeat (constructor; [eexists; split; reflexivity|])|].
  intros [|[|i]] [|[|j]] a b x y Ha Hb Hx Hy Hs; cbn in Ha, Hb; try done; simplify_eq;
    cbn in Hx, Hy; simplify_eq; try done; by vm_compute in Hs.
Defined.

Lemma panel_follows_mouse_witness :
  reachable no_dagre "type error" true (shown_machine (VString "keys") VNull) sample_viewer ∧
  (let '(s, v') := mouse_up (foldl
      (λ s p, mouse_move (handlePanelDrag (VNumber (num 1)) (VString "keys")) p.1 p.2 s)
      (handleMouseDown (handlePanelDragStart 0 (VNumber (num 1)) (VString "keys")) false 700 90 (idle, sample_viewer))
      [(650%Z, 100%Z); (600%Z, 130%Z)]) in
   s = idle ∧ vis v' = vis sample_viewer ∧
   map (λ p, (panel_x p, panel_y p, zIndex p)) (openPanels v') = [(540%Z, 120%Z, 104)]).
Proof.
  split; [exact sample_reachable|].
  pose proof (panel_follows_mouse no_dagre "type error" true (shown_machine (VString "keys") VNull) _ (VNumber (num 1)) (VString "keys") 0 700 90
    [(650%Z, 100%Z); (600%Z, 130%Z)] eq_refl sample_reachable) as H.
  cbv zeta in H. revert H. case_match. intros (_ & Hs & Hv & _). split; [exact Hs|]. split; [exact Hv|].
  by vm_compute in H; injection H as <- <-.
Defined.

(** The whole screen: the second key is marked after a click. *)
Example screen_after_click :
  render (step no_dagre "type error" 1000 false sample_viewer (RowClick 0 (VNumber (num 2)))) =
  Ok (Screen
    [{| tab_id := "keys"; tab_label := "Keys"; tab_count := VNumber (num 2) |};
     {| tab_id := "params"; tab_label := "Params"; tab_count := VNumber (num 0) |};
     {| tab_id := "features"; tab_label := "Features"; tab_count := VNumber (num 0) |};
     {| tab_id := "capabilities"; tab_label := "Capabilities"; tab_count := VNumber (num 0) |};
     {| tab_id := "tasks"; tab_label := "Tasks"; tab_count := VNumber (num 0) |};
     {| tab_id := "endpoints"; tab_label := "Endpoints"; tab_count := VNumber (num 0) |}] false
    (Table ["ID"; "Name"; "Type"; "Nullable"; "Status"; "Description"]
       [{| marked := true; click_id := VNumber (num 1);
           cells := ["1"; "model_score"; "float"; "false"; "active"; "A Score."] |};
        {| marked := true; click_id := VNumber (num 2);
           cells := ["2"; "country"; "string"; "true"; "deprecated"; EmptyString] |}])
    [{| drawn_x := 640; drawn_y := 80; drawn_z := 102; drawn_title := "model_score";
        drawn_details := [Row "Key ID" ["1"]; Row "Name" ["model_score"]; Row "Type" ["float"];
          Badge "Status" "active" "statusActive" "statusActiveText"; Row "Nullable" ["false"];
          Row "Allow Read" ["false"]; Row "Allow Write" ["false"]; Row "Default" [EmptyString];
          Row "Replaced By" [EmptyString]; Row "Description" ["A Score."]] |};
     {| drawn_x := 610; drawn_y := 110; drawn_z := 104; drawn_title := "country";
        drawn_details := [Row "Key ID" ["2"]; Row "Name" ["country"]; Row "Type" ["string"];
          Badge "Status" "deprecated" "statusDeprecated" "statusDeprecatedText"; Row "Nullable" ["true"];
          Row "Allow Read" ["false"]; Row "Allow Write" ["false"]; Row "Default" [EmptyString];
          Row "Replaced By" [EmptyString]; Row "Description" [EmptyString]] |}]).
Proof. by vm_compute. Qed.

(** In React's strict mode, which main.tsx uses during development, the effects of the
    first render run twice and both see no panel: a view opened with an entry selected
    opens two panels for it. *)
Example strict_mode_doubles_panel :
  map panel_id (openPanels (mount 1000 true (shown_machine (VString "keys") (VNumber (num 1))))) =
  [VNumber (num 1); VNumber (num 1)].
Proof. by vm_compute. Qed.
