(* ===== verification/RegistryTyping.v ===== *)
(** * RegistryTyping: the registries from the generator to the screen

    The registry viewer (RegistryViewer.v) reads its data by the interfaces of types.ts
    (VisTypes.v), unchecked.  Data of these types is always drawn, whatever is selected,
    searched or open, also when a limit of an endpoint's policy is missing: so it may be in
    the files that the generator writes (RegistryFiles.v). *)

From S2P Require Import Prelude StateMonad Collections JsNumber JsValue StableStringify Json.
From S2P Require Import VisGraph VisTypes VisStore Jsx RegistryViewer.

#[local] Abbreviation has_type := (inhabits recursive_types).

(** ** RegistryData *)

(** The type of a tab's entries.  [limit] declares the members of a policy. *)
Definition entry_type (limit : string → ts_type → string * bool * ts_type) (tab : string) : ts_type :=
  if String.eqb tab "keys" then KeyEntry
  else if String.eqb tab "params" then ParamEntry
  else if String.eqb tab "features" then FeatureEntry
  else if String.eqb tab "capabilities" then CapabilityEntry
  else if String.eqb tab "tasks" then TaskEntry
  else endpoint_type limit.

(** The interface [RegistryData]. *)
Definition registry_data (limit : string → ts_type → string * bool * ts_type) (d : RegistryData) : bool :=
  has_type (keys_ d) [SArray KeyEntry] && has_type (params_ d) [SArray ParamEntry] &&
  has_type (features_ d) [SArray FeatureEntry] && has_type (capabilities_ d) [SArray CapabilityEntry] &&
  has_type (tasks_ d) [SArray TaskEntry] &&
  forallb (λ env, has_type (endpoints_of d env) [SArray (endpoint_type limit)]) EndpointEnv.

(** ** Reading typed data does not throw *)

Definition is_ok {A} (r : result A) : bool := match r with Ok _ => true | Throw _ => false end.

Lemma is_ok_Ok {A} (r : result A) : is_ok r = true ↔ ∃ a, r = Ok a.
Proof. destruct r; cbn; naive_solver. Qed.
Lemma is_ok_bind {A B} (m : result A) (f : A → result B) :
  is_ok m = true → (∀ a, m = Ok a → is_ok (f a) = true) → is_ok (m ≫= f) = true.
Proof. destruct m; cbn; auto. Qed.

Lemma collect_ok {A B} (f : A → result B) l : Forall (λ x, is_ok (f x) = true) l → is_ok (collect f l) = true.
Proof.
  induction 1 as [|x l Hx _ IH]; [done|]. cbn. apply is_ok_bind; [done|]. intros y _.
  by apply is_ok_bind.
Qed.
Lemma cells_ok fs e : forallb (λ f, is_ok (f e)) fs = true → is_ok (cells_of fs e) = true.
Proof.
  induction fs as [|f fs IH]; [done|]. cbn. intros [Hf Hfs]%andb_true_iff.
  apply is_ok_bind; [done|]. intros t _. apply is_ok_bind; [auto|done].
Qed.
Lemma details_ok fs e : forallb (λ f, is_ok (f e)) fs = true → is_ok (details fs e) = true.
Proof.
  induction fs as [|f fs IH]; [done|]. cbn. intros [Hf Hfs]%andb_true_iff.
  apply is_ok_bind; [done|]. intros t _. apply is_ok_bind; [auto|done].
Qed.

(** The types whose values React shows. *)
Definition can_show (s : shape) : bool :=
  match s with SNumber | SString | SBoolean | SNull | SLiteral _ => true | _ => false end.
Lemma shown_ok v t : forallb can_show t = true → has_type v t = true → is_ok (shown v) = true.
Proof.
  intros Ht Hv. assert (alternatives recursive_types t = t) as Ha.
  { unfold alternatives. clear Hv. induction t as [|s t IH]; [done|]. cbn in *. apply andb_true_iff in Ht as [Hs Ht].
    rewrite (IH Ht). by destruct s. }
  destruct v; try done; cbn in Hv; rewrite Ha in Hv; exfalso.
  all: apply existsb_exists in Hv as (s & Hs & Hv); rewrite forallb_forall in Ht; apply Ht in Hs; by destruct s.
Qed.

Section typed.
Context (fields : list (string * bool * ts_type)) (e : value).
Context (He : has_type e [SInterface fields] = true).

Lemma prop_ok k p : field_type fields k = Some p → is_ok (get_prop e k) = true.
Proof using He. destruct p as [o t]. intros Hk. by destruct (inhabits_member _ _ _ _ _ _ He Hk) as (x & -> & _). Qed.

Lemma shown_prop_ok k p :
  field_type fields k = Some p → forallb can_show p.2 = true → inherited k = VUndefined →
  is_ok (shown_prop k e) = true.
Proof using He.
  destruct p as [o t]. cbn. intros Hk Ht Hi. unfold shown_prop.
  destruct (inhabits_member _ _ _ _ _ _ He Hk) as (x & Hx & Hm). subst e. cbn. unfold own_get.
  destruct (map_get x k) as [v|]; [|by rewrite Hi].
  destruct (is_undefined v) eqn:Hu; [by destruct v|]. rewrite andb_false_r in Hm. by eapply shown_ok.
Qed.
Lemma bool_text_ok yes no k p : field_type fields k = Some p → is_ok (bool_text yes no k e) = true.
Proof using He. intros Hk. apply is_ok_bind; [by eapply prop_ok|done]. Qed.
Lemma row_ok label f : is_ok (f e) = true → is_ok (row label f e) = true.
Proof using. intros H. by apply is_ok_bind. Qed.
Lemma badge_ok label p :
  field_type fields "status" = Some p → forallb can_show p.2 = true → is_ok (StatusBadge label e) = true.
Proof using He.
  intros Hk Ht. pose proof (shown_prop_ok "status" p Hk Ht eq_refl) as H. unfold shown_prop, StatusBadge in *.
  destruct (get_prop e "status") as [s|]; [|done]. cbn in *. apply is_ok_bind; [done|done].
Qed.
Lemma unless_null_ok k p r : field_type fields k = Some p → is_ok (r e) = true → is_ok (unless_null k r e) = true.
Proof using He. intros Hk Hr. apply is_ok_bind; [by eapply prop_ok|]. intros v _. by case_match. Qed.
End typed.

Lemma if_truthy_ok v rows : is_ok rows = true → is_ok (if_truthy v rows) = true.
Proof.
  intros H. unfold if_truthy. destruct (truthy v) eqn:Ht; [done|].
  assert (is_ok (shown v) = true) by by destruct v. by apply is_ok_bind.
Qed.
Lemma json_row_ok label k e : is_ok (get_prop e k) = true → is_ok (json_row label k e) = true.
Proof. intros H. apply is_ok_bind; [done|]. intros v _. by apply if_truthy_ok. Qed.

(** ** Entries *)

(** What the viewer computes of one entry of a tab. *)
Definition drawable (tab : string) (e : value) : Prop :=
  is_ok (get_prop e (id_member tab)) = true ∧ is_ok (row_cells tab e) = true ∧
  is_ok (render_details tab e) = true ∧ is_ok (shown_prop (if String.eqb tab "tasks" then "op" else "name") e) = true ∧
  searchable tab e = true.

(** One declared member after the other. *)
Ltac typed_members He :=
  first
  [ eapply (prop_ok _ _ He); reflexivity
  | eapply (shown_prop_ok _ _ He); reflexivity
  | eapply (bool_text_ok _ _ He); reflexivity
  | apply row_ok; typed_members He
  | eapply (badge_ok _ _ He); reflexivity
  | eapply (unless_null_ok _ _ He); [reflexivity|apply row_ok; typed_members He]
  | apply json_row_ok; typed_members He
  | cbv beta; apply is_ok_bind; [typed_members He|by intros]
  | reflexivity ].
Ltac typed_list He lem :=
  apply lem; cbn [forallb]; rewrite ?andb_true_iff; split_and?; typed_members He.

(** A text for the search. *)
Lemma search_text fields e k p :
  has_type e [SInterface fields] = true → field_type fields k = Some p → p = (false, [SString]) →
  ∃ s, get_prop e k = Ok (VString s).
Proof.
  intros He Hk ->. destruct (inhabits_required _ _ _ _ _ He Hk) as (x & Hx & Ht).
  destruct x; try done. by eexists.
Qed.
Ltac typed_search He :=
  unfold searchable; cbn [forallb searched String.eqb Ascii.eqb Bool.eqb];
  repeat match goal with
  | |- context [get_prop ?e ?k] =>
      let s := fresh in let H := fresh in
      destruct (search_text _ e k _ He eq_refl eq_refl) as [s H]; rewrite H; clear H
  end; reflexivity.

Lemma key_drawable e : has_type e KeyEntry = true → drawable "keys" e.
Proof.
  intros He. split_and!; [typed_members He|typed_list He cells_ok|typed_list He details_ok|typed_members He|typed_search He].
Qed.
Lemma param_drawable e : has_type e ParamEntry = true → drawable "params" e.
Proof.
  intros He. split_and!; [typed_members He|typed_list He cells_ok|typed_list He details_ok|typed_members He|typed_search He].
Qed.
Lemma feature_drawable e : has_type e FeatureEntry = true → drawable "features" e.
Proof.
  intros He. split_and!; [typed_members He|typed_list He cells_ok|typed_list He details_ok|typed_members He|typed_search He].
Qed.
Lemma capability_drawable e : has_type e CapabilityEntry = true → drawable "capabilities" e.
Proof.
  intros He. split_and!; [typed_members He|typed_list He cells_ok|typed_list He details_ok|typed_members He|typed_search He].
Qed.

(** The parameters of a task. *)
Lemma task_params e :
  has_type e TaskEntry = true →
  ∃ l, get_prop e "params" = Ok (VArray l) ∧ Forall (λ p, has_type p TaskParamEntry = true) l.
Proof.
  intros He. destruct (inhabits_required _ _ _ "params" _ He eq_refl) as (x & Hx & Ht).
  apply inhabits_array in Ht as (l & -> & Hl). eauto.
Qed.
Lemma param_names_ok e : has_type e TaskEntry = true → is_ok (param_names e) = true.
Proof.
  intros He. destruct (task_params e He) as (l & Hps & Hl). unfold param_names. rewrite Hps. cbn.
  assert (∃ ns, collect (λ q, get_prop q "name") l = Ok (map VString ns)) as [ns ->].
  { clear Hps. induction Hl as [|p l Hp _ [ns IH]]; [by exists []|].
    destruct (search_text _ p "name" _ Hp eq_refl eq_refl) as [s Hs]. exists (s :: ns). cbn. by rewrite Hs, IH. }
  cbn. by rewrite array_join_strings.
Qed.
Lemma params_row_ok e : has_type e TaskEntry = true → is_ok (params_row e) = true.
Proof.
  intros He. destruct (task_params e He) as (l & Hps & Hl). unfold params_row. rewrite Hps. cbn.
  case_match; [|done]. apply is_ok_bind; [|done]. apply collect_ok.
  eapply Forall_impl; [exact Hl|]. intros p Hp. cbv beta in *. unfold param_lines.
  repeat (apply is_ok_bind; [typed_members Hp|intros ? _]). done.
Qed.
Lemma task_drawable e : has_type e TaskEntry = true → drawable "tasks" e.
Proof.
  intros He. pose proof (param_names_ok e He). pose proof (params_row_ok e He).
  split_and!; [typed_members He| | |typed_members He|typed_search He].
  - apply cells_ok. cbn [forallb]. rewrite ?andb_true_iff. split_and?; first [done|typed_members He].
  - apply details_ok. cbn [forallb]. rewrite ?andb_true_iff. split_and?; first [done|typed_members He].
Qed.

(** The objects of an endpoint. *)
Section endpoint.
Context (limit : string → ts_type → string * bool * ts_type).
Context (Hlimit : ∀ k t, (limit k t).1.1 = k ∧ (limit k t).2 = t).
Context (e : value) (He : has_type e (endpoint_type limit) = true).

Lemma resolver_typed :
  ∃ r, get_prop e "resolver" = Ok r ∧
    has_type r [SInterface [req "type" [SString]; req "host" [SString]; req "port" [SNumber]]] = true.
Proof using He. exact (inhabits_required _ _ _ "resolver" _ He eq_refl). Qed.
Lemma host_port_ok : is_ok (host_port e) = true.
Proof using He.
  destruct resolver_typed as (r & Hr & Ht). unfold host_port. rewrite Hr. cbn.
  repeat (apply is_ok_bind; [typed_members Ht|intros ? _]). done.
Qed.
Lemma resolver_row_ok : is_ok (resolver_row e) = true.
Proof using He.
  pose proof host_port_ok as Hh. destruct resolver_typed as (r & Hr & Ht). unfold resolver_row. rewrite Hr. cbn.
  apply is_ok_bind; [typed_members Ht|intros ? _]. by apply is_ok_bind.
Qed.

(** Every limit can be shown, also where it is missing. *)
Lemma policy_limits_ok p k :
  get_prop e "policy" = Ok p → k ∈ ["max_inflight"; "connect_timeout_ms"; "request_timeout_ms"] →
  is_ok (shown_prop k p) = true.
Proof using He Hlimit.
  intros Hp Hk. destruct (inhabits_required _ _ _ "policy" _ He eq_refl) as (x & Hx & Ht).
  rewrite Hp in Hx. injection Hx as <-.
  assert (∃ o, field_type [limit "max_inflight" [SNumber]; limit "connect_timeout_ms" [SNumber];
    limit "request_timeout_ms" [SNumber]] k = Some (o, [SNumber])) as [o Ho].
  { unfold field_type. cbn. destruct (Hlimit "max_inflight" [SNumber]) as [-> Ht1],
      (Hlimit "connect_timeout_ms" [SNumber]) as [-> Ht2], (Hlimit "request_timeout_ms" [SNumber]) as [-> Ht3].
    set_unfold. destruct Hk as [->|[->|[->|[]]]]; cbn; eexists; by rewrite ?Ht1, ?Ht2, ?Ht3. }
  eapply (shown_prop_ok _ _ Ht); [done|done|]. set_unfold. by destruct Hk as [->|[->|[->|[]]]].
Qed.
Lemma policy_ok {A} (f : value → result A) :
  (∀ p, get_prop e "policy" = Ok p → is_ok (f p) = true) → is_ok (p ← get_prop e "policy"; f p) = true.
Proof using He. intros Hf. apply is_ok_bind; [typed_members He|done]. Qed.

Lemma endpoint_drawable : drawable "endpoints" e.
Proof using He Hlimit.
  pose proof host_port_ok. pose proof resolver_row_ok.
  assert (is_ok (timeouts e) = true).
  { apply policy_ok. intros p Hp. repeat (apply is_ok_bind; [by apply policy_limits_ok; [|set_solver]|intros ? _]). done. }
  assert (is_ok (policy_row e) = true).
  { apply policy_ok. intros p Hp. repeat (apply is_ok_bind; [by apply policy_limits_ok; [|set_solver]|intros ? _]). done. }
  split_and!; [typed_members He| | |typed_members He|typed_search He].
  - apply cells_ok. cbn [forallb]. rewrite ?andb_true_iff. split_and?; first [done|typed_members He].
  - apply details_ok. cbn [forallb]. rewrite ?andb_true_iff. split_and?; first [done|typed_members He].
Qed.
End endpoint.

(** ** The screen *)

Section screen.
Context (limit : string → ts_type → string * bool * ts_type).
Context (Hlimit : ∀ k t, (limit k t).1.1 = k ∧ (limit k t).2 = t).

Lemma endpoints_typed d env :
  registry_data limit d = true → has_type (endpoints_of d env) [SArray (endpoint_type limit)] = true.
Proof using.
  unfold registry_data. rewrite !andb_true_iff, forallb_forall. intros (_ & H).
  unfold endpoints_of. destruct (String.eqb env "dev"); [by apply (H "dev"); left|].
  destruct (String.eqb env "test"); [by apply (H "test"); right; left|]. by apply (H "prod"); do 2 right; left.
Qed.

(** The entries of a tab, typed and drawable. *)
Lemma entries_drawable d env tab v :
  registry_data limit d = true → entries_of d env tab = Some v →
  ∃ l, v = VArray l ∧ Forall (drawable tab) l.
Proof using Hlimit.
  intros Hd He. pose proof (endpoints_typed d env Hd) as Hep.
  unfold registry_data in Hd. rewrite !andb_true_iff in Hd. destruct Hd as [[[[[Hk Hp] Hf] Hc] Ht] _].
  pose proof (endpoint_drawable limit Hlimit).
  unfold entries_of in He.
  repeat match type of He with
  | (if String.eqb tab ?s then _ else _) = _ => destruct (String.eqb_spec tab s) as [->|?]
  end; [injection He as <-..|done];
    match goal with H : has_type ?w [SArray ?t] = true |- ∃ l, ?w = _ ∧ _ =>
      apply inhabits_array in H as (l & -> & Hl); exists l; (split; [done|]); eapply Forall_impl; [exact Hl|] end;
    auto using key_drawable, param_drawable, feature_drawable, capability_drawable, task_drawable.
Qed.

Lemma entries_of_tab d env tab : is_Some (entries_of d env tab) ↔ tab ∈ RegistryTab.
Proof using.
  clear limit Hlimit. unfold entries_of, RegistryTab. rewrite !elem_of_cons. split.
  - intros [v H]. repeat case_match; try discriminate;
      match goal with E : String.eqb _ _ = true |- _ => apply String.eqb_eq in E end; naive_solver.
  - intros H. repeat destruct H as [->|H]; try by eexists. by apply not_elem_of_nil in H.
Qed.

Lemma filtered_drawable d env tab q :
  registry_data limit d = true →
  ∃ l, filteredData (Some d) tab q env = Ok l ∧ Forall (drawable (string_case tab)) l.
Proof using Hlimit.
  intros Hd. assert (filteredData (Some d) tab q env = filteredData (Some d) (VString (string_case tab)) q env) as ->.
  { by destruct tab. }
  destruct (entries_of d env (string_case tab)) as [v|] eqn:He.
  - destruct (entries_drawable d env _ v Hd He) as (l & -> & Hl). eexists. split.
    + apply filteredData_spec; [exact He|]. eapply Forall_impl; [exact Hl|]. by intros e (_ & _ & _ & _ & ?).
    + apply Forall_forall. intros e [Hin _]%list_elem_of_In%filter_In. rewrite Forall_forall in Hl.
      by apply Hl, list_elem_of_In.
  - exists []. split; [|constructor]. unfold entries_of in He. unfold filteredData. cbv zeta. cbn [string_case].
    by repeat (case_match; try discriminate).
Qed.

Lemma find_by_ok member l i :
  Forall (λ e, is_ok (get_prop e member) = true) l →
  ∃ e, find_by member l i = Ok e ∧ (e = VUndefined ∨ e ∈ l).
Proof using.
  induction 1 as [|e l He _ (x & IH & Hx)]; [by exists VUndefined; split; [|left]|].
  apply is_ok_Ok in He as [j Hj]. cbn. rewrite Hj. cbn. destruct (strict_equal j i).
  - exists e. split; [done|]. right. left.
  - exists x. split; [done|]. destruct Hx as [Hx|Hx]; [by left|]. right. by right.
Qed.

Lemma panel_entry d env p :
  registry_data limit d = true →
  ∃ e, getPanelDetails (Some d) env p = Ok e ∧
    (truthy e = false ∨ drawable (string_case (panel_tab p)) e ∧ string_case (panel_tab p) ∈ RegistryTab).
Proof using Hlimit.
  intros Hd. set (tab := string_case (panel_tab p)).
  assert (getPanelDetails (Some d) env p =
    match entries_of d env tab with Some v => find_in (id_member tab) v (panel_id p) | None => Ok VNull end) as ->.
  { unfold getPanelDetails, entries_of, id_member. fold tab. by repeat case_match. }
  destruct (entries_of d env tab) as [v|] eqn:He; [|by exists VNull; split; [|left]].
  destruct (entries_drawable d env tab v Hd He) as (l & -> & Hl).
  destruct (find_by_ok (id_member tab) l (panel_id p)) as (e & Hf & Hin).
  { eapply Forall_impl; [exact Hl|]. by intros x (? & _). }
  exists e. split; [exact Hf|]. destruct Hin as [->|Hin]; [by left|]. right.
  rewrite Forall_forall in Hl. split; [by apply Hl|]. apply (entries_of_tab d env). by eexists.
Qed.

Lemma draw_panel_ok d env p : registry_data limit d = true → is_ok (draw_panel (Some d) env p) = true.
Proof using Hlimit.
  intros Hd. destruct (panel_entry d env p Hd) as (e & He & Hdr). unfold draw_panel, getPanelTitle.
  rewrite He. cbn [mbind result_bind]. destruct (truthy e) eqn:Ht; [|done]. cbn [negb].
  destruct Hdr as [?|[(_ & _ & Hds & Htitle & _) Htab]]; [done|].
  apply is_ok_bind; [|intros t _; by apply is_ok_bind].
  set (tab := string_case (panel_tab p)) in *. clearbody tab. cbv zeta.
  unfold RegistryTab in Htab. rewrite !elem_of_cons in Htab.
  repeat destruct Htab as [->|Htab]; try exact Htitle. by apply not_elem_of_nil in Htab.
Qed.

Lemma tabs_ok d env : registry_data limit d = true → is_ok (tabs (Some d) env) = true.
Proof using Hlimit.
  intros Hd. apply collect_ok.
  assert (∀ f tab, entries_of d env tab = Some (f d) → is_ok (count_of (Some d) f) = true) as H.
  { intros f tab He. destruct (entries_drawable d env tab _ Hd He) as (l & Hl & _).
    unfold count_of. by rewrite Hl. }
  repeat constructor; cbn [snd fst]; (apply is_ok_bind; [|done]).
  - by apply (H keys_ "keys").
  - by apply (H params_ "params").
  - by apply (H features_ "features").
  - by apply (H capabilities_ "capabilities").
  - by apply (H tasks_ "tasks").
  - by apply (H (λ d, endpoints_of d env) "endpoints").
Qed.

Lemma render_ok v :
  (∀ d, registries (st_registry (store (vis v))) = Some d → registry_data limit d = true) →
  is_ok (render v) = true.
Proof using Hlimit.
  intros Hd. unfold render. cbv zeta. set (r := st_registry (store (vis v))) in *.
  destruct (registries r) as [d|].
  - specialize (Hd d eq_refl). apply is_ok_bind; [by apply tabs_ok|]. intros ts _.
    destruct (filtered_drawable d (selectedEndpointEnv r) (selectedRegistryTab r) (registrySearchQuery r) Hd)
      as (l & -> & Hl). cbn [mbind result_bind].
    destruct (registriesLoading r); [done|].
    assert (is_ok (table_content v l) = true) as Hb.
    { unfold table_content. cbv zeta. destruct Hl as [|e l He Hl]; [done|].
      apply is_ok_bind; [|done]. apply collect_ok. constructor; [|eapply Forall_impl; [exact Hl|]];
        [destruct He as (Hi & Hc & _)|intros x (Hi & Hc & _)];
        (apply is_ok_bind; [done|intros i _]; by apply is_ok_bind). }
    assert (is_ok (collect (draw_panel (Some d) (selectedEndpointEnv r)) (openPanels v)) = true) as Hp.
    { apply collect_ok, Forall_forall. intros p _. by apply draw_panel_ok. }
    destruct (registriesError r) as [[|c s]|]; [|done|];
      (apply is_ok_bind; [done|intros b _]; by apply is_ok_bind).
  - apply is_ok_bind; [done|]. intros ts _. cbn [filteredData mbind result_bind].
    destruct (registriesLoading r); [done|].
    assert (is_ok (collect (draw_panel None (selectedEndpointEnv r)) (openPanels v)) = true) as Hp
      by by apply collect_ok, Forall_forall.
    destruct (registriesError r) as [[|c s]|]; [|done|];
      (apply is_ok_bind; [done|intros b _]; by apply is_ok_bind).
Qed.
End screen.
