(* ===== verification/RegistryFiles.v ===== *)
(** * RegistryFiles: the generated registries on screen

    The composition of the generator (Codegen.v), the store that fetches its files
    (VisStore.v) and the viewer (RegistryViewer.v): the texts of the artifacts parse to data
    of the viewer's types (VisTypes.v, RegistryTyping.v), the store takes them, and whatever
    the user then does, every screen can be drawn. *)

From S2P Require Import Prelude StateMonad Collections JsNumber JsValue StableStringify Json.
From S2P Require Import CodegenUtils Registry Endpoints TaskRegistry GenTs GenCpp GenMonaco Codegen.
From S2P Require Import VisGraph VisTypes VisStore Jsx RegistryViewer RegistryTyping.

#[local] Abbreviation has_type := (inhabits recursive_types).

(** ** The generated files parse *)

Lemma json_file_parses v : json_ok (defined v) → JSON_parse (json_file v) = Some (redefined (defined v)).
Proof.
  intros Hv. unfold json_file. rewrite <-stringify_defined.
  destruct (stringify_ok 2 0 (defined v) Hv) as [t Ht]. rewrite Ht.
  by apply (JSON_parse_stringify 2 (defined v) t EmptyString newline).
Qed.

(** ** Parsing keeps types *)

Lemma define_elem o k (v : value) kv : kv ∈ obj_define o k v → kv ∈ o ∨ kv = (k, v).
Proof.
  unfold obj_define. destruct (map_has o k).
  - induction o as [|[j w] o IH]; cbn; [intros H; right; by apply list_elem_of_singleton|].
    case_match eqn:E; rewrite !elem_of_cons; [apply String.eqb_eq in E as ->|]; naive_solver.
  - destruct (array_index k) as [i|]; [rewrite insert_index_Permutation|]; set_solver.
Qed.
Lemma define_keys o k (v : value) : k ∈ (obj_define o k v).*1 ∧ o.*1 ⊆ (obj_define o k v).*1.
Proof.
  unfold obj_define. destruct (map_has o k).
  - split; [apply map_set_keys; by right|]. intros j Hj. apply map_set_keys. by left.
  - destruct (array_index k) as [i|].
    + assert ((insert_index i k v o).*1 ≡ₚ k :: o.*1) as H by by rewrite insert_index_Permutation.
      split; [rewrite H; by left|]. intros j Hj. rewrite H. by right.
    + rewrite fmap_app. set_solver.
Qed.

Lemma from_entries_elem l kv : kv ∈ from_entries l → kv ∈ l.
Proof.
  unfold from_entries. assert (∀ acc, kv ∈ foldl (λ o kv, obj_define o kv.1 kv.2) acc l → kv ∈ acc ∨ kv ∈ l) as H.
  { induction l as [|[k v] l IH]; intros acc; cbn; [by left|].
    intros [[?| ->]%define_elem|?]%IH; [by left| |]; right; [by left|by right]. }
  intros [Hn|?]%H; [by apply not_elem_of_nil in Hn|done].
Qed.
Lemma from_entries_has l k : k ∈ l.*1 → k ∈ (from_entries l).*1.
Proof.
  unfold from_entries. assert (∀ acc, k ∈ acc.*1 ∨ k ∈ l.*1 → k ∈ (foldl (λ o kv, obj_define o kv.1 kv.2) acc l).*1) as H.
  { induction l as [|[j v] l IH]; intros acc; cbn; [by intros [?|?%not_elem_of_nil]|].
    intros Hk. apply IH. destruct (define_keys acc j v) as [Hj Ha].
    destruct Hk as [Hk|[->|Hk]%elem_of_cons]; auto. }
  intros Hk. apply H. by right.
Qed.

Lemma inhabits_redefined env v : ∀ t, inhabits env v t = true → inhabits env (redefined v) t = true.
Proof.
  induction v as [| | | | | | |l IH|o IH| |] using value_ind_nested; intros t; try done;
    cbn [redefined inhabits]; rewrite !existsb_exists; intros (s & Hs & Hv); exists s; (split; [done|]);
    destruct s as [| | | | |lit|t'|t'|fields|n]; try done; rewrite Forall_forall in IH.
  - rewrite forallb_forall in Hv |- *. intros y (x & <- & Hx)%in_map_iff. apply IH; [by apply list_elem_of_In|auto].
  - rewrite forallb_forall in Hv |- *.
    intros kv Hkv%list_elem_of_In%from_entries_elem%list_elem_of_In. apply in_map_iff in Hkv as (c & <- & Hc).
    cbn. apply IH; [by apply list_elem_of_In|auto].
  - apply andb_true_iff in Hv as [Hr Hv]. apply andb_true_iff. rewrite forallb_forall in Hr, Hv.
    split; apply forallb_forall.
    + intros f Hf. specialize (Hr f Hf). apply orb_true_iff in Hr as [->|Hr]; [done|]. apply orb_true_iff. right.
      apply map_has_elem_of, from_entries_has. rewrite map_fst_map. by apply map_has_elem_of.
    + intros kv Hkv%list_elem_of_In%from_entries_elem%list_elem_of_In. apply in_map_iff in Hkv as (c & <- & Hc).
      specialize (Hv c Hc). cbn. destruct (field_type fields c.1) as [[optional t']|]; [|done].
      apply orb_true_iff in Hv as [[-> Hu]%andb_true_iff|Hv].
      * apply orb_true_iff. left. by destruct c as [k []].
      * apply orb_true_iff. right. apply IH; [by apply list_elem_of_In|done].
Qed.

(** ** The generator's entries have the viewer's types *)

(** The type of the data of a generated endpoint: limits may be missing. *)
Lemma opt_limit k t : (opt k t).1.1 = k ∧ (opt k t).2 = t.
Proof. done. Qed.

Lemma status_cases s : s ∈ STATUSES → s = "active" ∨ s = "deprecated" ∨ s = "blocked".
Proof. unfold STATUSES. set_solver. Qed.

(** The default value of a key is a scalar. *)
Lemma default_value_scalar n r d :
  default_value n r = Ok d → match d with VNull | VNumber _ | VString _ | VBool _ => True | _ => False end.
Proof. unfold default_value. intros (v & _ & H)%bind_Ok. by destruct v; simplify_eq/=. Qed.
Lemma read_key_default r k :
  read_key r = Ok k → match key_default k with VNull | VNumber _ | VString _ | VBool _ => True | _ => False end.
Proof.
  unfold read_key. intros H. repeat (apply bind_Ok in H; destruct H as (? & ? & H)). injection H as <-.
  by eapply default_value_scalar.
Qed.

Lemma key_typed r k : read_key r = Ok k → key_rules k = Ok tt → has_type (defined (key_value k)) KeyEntry = true.
Proof.
  intros Hr Hk. pose proof (read_key_default r k Hr) as Hd. pose proof (read_key_ok r k Hr Hk) as [_ Hs _ _ _].
  destruct k as [i n t nu d s a w rb df]. apply status_cases in Hs. cbn in Hs, Hd.
  destruct Hs as [->|[->| ->]]; destruct rb, df; done.
Qed.
Lemma param_typed p : param_status p ∈ STATUSES → has_type (defined (param_value p)) ParamEntry = true.
Proof.
  destruct p as [i n t nu d s r w rb]. intros Hs%status_cases. cbn in Hs.
  destruct Hs as [->|[->| ->]]; by destruct rb.
Qed.
Lemma feature_typed f : feature_status f ∈ STATUSES → has_type (defined (feature_value f)) FeatureEntry = true.
Proof. destruct f as [i g n t nu s d]. intros Hs%status_cases. cbn in Hs. by destruct Hs as [->|[->| ->]]. Qed.

(** The name of an item is none of an object type's. *)
Lemma pretty_N_go_first n : ∀ s, (∃ c r, s = String c r ∧ is_digit c = true) →
  ∃ c r, pretty.pretty_N_go n s = String c r ∧ is_digit c = true.
Proof.
  induction (N.lt_wf_0 n) as [n _ IH]. intros s Hs. destruct (decide (0 < n)%N) as [Hn|Hn].
  - rewrite pretty.pretty_N_go_step by done. apply IH; [by apply N.div_lt|].
    eexists _, _. split; [done|]. unfold pretty.pretty_N_char. by repeat case_match.
  - assert (n = 0%N) as -> by lia. by rewrite pretty.pretty_N_go_0.
Qed.
Lemma index_key_digit i : ∃ c r, index_key i = String c r ∧ is_digit c = true.
Proof.
  unfold index_key, pretty, pretty.pretty_nat. unfold pretty, pretty.pretty_N.
  case_decide; [by eexists _, _|]. rewrite pretty.pretty_N_go_step by lia. apply pretty_N_go_first.
  eexists _, _. split; [done|]. unfold pretty.pretty_N_char. by repeat case_match.
Qed.
Lemma no_item {A} (f : A → value) (l : list A) c r :
  is_digit c = false → map_get (imap (λ i x, (index_key i, f x)) l) (String c r) = None.
Proof.
  intros Hc. apply map_get_None. intros (kv & Hk & (i & x & -> & _)%elem_of_lookup_imap)%list_elem_of_fmap.
  destruct (index_key_digit i) as (d & s & Hi & Hd). cbn in Hk. congruence.
Qed.

(** A schema is an object or null. *)
Lemma schema_object v : get_prop v "type" = Ok (VString "object") → ∃ o, v = VObject o.
Proof.
  destruct v as [| | | |s| | |l|o| |]; cbn; try done; [| |by eexists].
  - unfold own_get. by rewrite (no_item VString).
  - unfold own_get. pose proof (no_item (λ x, x) l "t"%char "ype" eq_refl) as H. cbv beta in H. by rewrite H.
Qed.
Lemma schema_typed r v :
  schema_reads r v → has_text v = true ∧ has_type (defined v) [SRecord [SUnknown]; SNull] = true.
Proof.
  intros [[_ ->]|(t & _ & _ & [o ->]%schema_object)]; [done|]. split; [done|]. cbn.
  rewrite orb_false_r. apply forallb_forall. by intros [k []].
Qed.
Lemma capability_typed r c : capability_reads r c → has_type (defined (capability_value c)) CapabilityEntry = true.
Proof.
  intros [_ _ _ _ _ Hs _ Hp]. destruct (schema_typed r _ Hp) as [Ht Hty]. destruct c as [i f n s d p]. cbn in Hs, Ht, Hty.
  assert (s = "implemented" ∨ s = "draft" ∨ s = "deprecated" ∨ s = "blocked") as Hst.
  { unfold CAPABILITY_STATUSES in Hs. set_solver. }
  unfold capability_value. cbn [defined flat_map has_text app snd fst payload_schema cap_status]. rewrite Ht.
  destruct Hst as [->|[->|[->| ->]]]; cbn; by rewrite Hty.
Qed.

Lemma task_param_typed p : has_type (defined (task_param_value p)) TaskParamEntry = true.
Proof. by destruct p as [n t r nu []]. Qed.
Lemma task_typed t : has_type (defined (task_value t)) TaskEntry = true.
Proof.
  destruct t as [o out ps w].
  assert (forallb (λ x, has_type x TaskParamEntry)
    (map (λ x, if has_text x then defined x else VNull) (map task_param_value ps)) = true) as Hps.
  { rewrite map_map. apply forallb_forall. intros x (p & <- & _)%in_map_iff. apply task_param_typed. }
  assert (has_type (defined w) [SUnknown] = true) as Hw by by destruct w.
  unfold task_value. cbn [defined flat_map has_text app snd fst TaskRegistry.op output_pattern params writes_effect].
  destruct (has_text w); cbn; by rewrite Hps, ?Hw, ?orb_true_r.
Qed.
Lemma endpoint_typed e : has_type (defined (endpoint_value e)) (endpoint_type opt) = true.
Proof. by destruct e as [i n k [h p] [[] [] []]]. Qed.

(** With the limits of types.ts, which declares them all, only if none is missing. *)
Lemma endpoint_strictly_typed e :
  has_type (defined (endpoint_value e)) EndpointEntry = true ↔
  is_Some (max_inflight (endpoint_policy e)) ∧ is_Some (connect_timeout_ms (endpoint_policy e)) ∧
  is_Some (request_timeout_ms (endpoint_policy e)).
Proof.
  destruct e as [i n k [h p] [[] [] []]]; cbn; split;
    try (intros ([? ?] & [? ?] & [? ?])); try discriminate; try done; by split_and!.
Qed.

(** ** The store keeps its registries *)

Definition typed_store (m : machine) : Prop :=
  ∀ d, registries (st_registry (store m)) = Some d → registry_data opt d = true.

Section store.
Context (dagre : LayoutOptions → list (value * number * number) → list (value * value) →
  result (value → option (number * number))).
Context (host_message : string).

Lemma loadPlanByName_typed n a : keeps typed_store (loadPlanByName host_message n a).
Proof. unfold loadPlanByName, set_plan_status, set_plan, resume, reject, start. keeps_all. Qed.
Lemma loadRegistries_typed a : keeps typed_store (loadRegistries a).
Proof. unfold loadRegistries, set_registry, start. keeps_all. Qed.
Lemma show_registry_typed t e : keeps typed_store (show_registry t e).
Proof. unfold show_registry, select_registry, set_registry. keeps_all. Qed.
Lemma loadPlan_typed j f s : keeps typed_store (loadPlan dagre j f s).
Proof. unfold loadPlan, unless_popstate, pushState, set_canvas, set_plan. keeps_all. Qed.
Lemma clearPlan_typed : keeps typed_store clearPlan.
Proof. unfold clearPlan, unless_popstate, pushState, set_canvas, set_plan, set_source. keeps_all. Qed.

Lemma call_typed a : keeps typed_store (call dagre host_message a).
Proof using.
  destruct a; cbn [call]; try apply loadPlan_typed; try apply clearPlan_typed;
    try apply loadPlanByName_typed; try apply loadRegistries_typed.
  all: unfold loadIndex, loadSource, toggleSource, toggleSourceCollapsed, toggleDetailsCollapsed,
    setEditSourceCode, setView, resetView, fitToView, with_view, selectNode, hoverNode,
    toggleFragment, setRegistryTab, setRegistrySearchQuery, setSelectedRegistryEntry,
    navigateToRegistryEntry, setSelectedEndpointEnv, push_selected, select_registry,
    unless_popstate, pushState, set_index, set_source, set_canvas, set_registry, start; keeps_all.
Qed.

(** Responses that bring typed registries, if they bring any. *)
Definition brings_typed (rs : list response) : Prop :=
  ∀ d, registries_of rs = Ok d → registry_data opt d = true.

Lemma registries_arrive_typed rs a : brings_typed rs → keeps typed_store (registries_arrive host_message rs a).
Proof.
  intros Hrs. unfold registries_arrive. apply keeps_bind; [|intros ?; unfold resume, start; keeps_all].
  apply keeps_try; [|intros e; unfold set_registry; keeps_all].
  apply keeps_lift. intros d Hd. unfold set_registry. apply keeps_modify. intros m _ d' [= <-]. by apply Hrs.
Qed.

Lemma complete_typed op rs :
  brings_typed rs → keeps typed_store (complete dagre host_message op rs).
Proof using.
  intros Hrs. assert (∀ a, keeps typed_store (continue host_message a)) as Hc.
  { intros a. destruct a; cbn [continue]; unfold set_flag; keeps_all;
      try apply show_registry_typed; try apply loadPlanByName_typed. }
  pose proof loadPlan_typed. assert (∀ op, keeps typed_store (start op)) by (intros ?; unfold start; keeps_all).
  destruct op; destruct rs as [|r [|? ?]]; cbn [complete]; try done;
    try (case_match; [by apply registries_arrive_typed|done]);
    unfold index_arrives, plan_arrives, source_arrives, loadSource,
      set_plan_status, set_index, set_plan, set_source, resume; keeps_all.
Qed.

Lemma step_typed m ev :
  (∀ i rs, ev = Arrive i rs → brings_typed rs) → typed_store m → typed_store (VisStore.step dagre host_message m ev).
Proof using.
  intros Hev. assert (keeps typed_store (run_event dagre host_message ev)) as H; [|apply H].
  pose proof call_typed. pose proof clearPlan_typed. pose proof loadRegistries_typed.
  pose proof show_registry_typed. pose proof loadPlanByName_typed.
  destruct ev as [a|i rs|e]; cbn [run_event]; [done| |].
  - pose proof (λ op, complete_typed op rs (Hev i rs eq_refl)). keeps_all.
  - unfold handle_popstate, set_flag; keeps_all.
Qed.
Lemma initial_typed params : typed_store (initial params).
Proof.
  assert (keeps typed_store (initHistory params)) as H; [|by apply H].
  pose proof loadRegistries_typed. unfold initHistory, set_flag, loadIndex, set_index, start. keeps_all.
Qed.
End store.

(** ** The viewer over it *)

Section viewer.
Context (dagre : LayoutOptions → list (value * number * number) → list (value * value) →
  result (value → option (number * number))).
Context (host_message : string).

Lemma load_missing_typed seen v : typed_store (vis v) → typed_store (vis (load_missing seen v)).
Proof. unfold load_missing. intros H. by repeat case_match. Qed.
Lemma auto_open_vis w seen v : vis (auto_open w seen v) = vis v.
Proof. unfold auto_open. by repeat case_match. Qed.
Lemma commit_typed w replaced v v' : typed_store (vis v') → typed_store (vis (commit w replaced v v')).
Proof. intros H. unfold commit. case_match; rewrite ?auto_open_vis; by apply load_missing_typed. Qed.

Lemma handle_typed w e v :
  (∀ i rs, e = StoreEvent (Arrive i rs) → brings_typed rs) → typed_store (vis v) →
  typed_store (vis (handle dagre host_message w e v)).
Proof.
  intros He Hv. destruct e as [runs i| | | |ev]; try exact Hv.
  - cbn. unfold handleRowClick. pose proof (call_typed dagre host_message (SetSelectedRegistryEntry i) (vis v) Hv) as H.
    cbn [call] in H. by destruct (setSelectedRegistryEntry i (vis v)) as [[u|ex] m].
  - cbn. apply step_typed; [|done]. intros i rs ->. by apply (He i).
Qed.
Lemma mount_typed w strict m : typed_store m → typed_store (vis (mount w strict m)).
Proof.
  intros H. unfold mount, effects.
  case_match; rewrite ?auto_open_vis; apply load_missing_typed; rewrite ?auto_open_vis; [|done].
  by apply load_missing_typed.
Qed.

(** A run of the viewer: the window's width and whether the registries were replaced go
    with each event. *)
Definition run_viewer (v : viewer) (evs : list (Z * bool * ui_event)) : viewer :=
  foldl (λ v e, step dagre host_message e.1.1 e.1.2 v e.2) v evs.

Lemma run_typed evs v :
  Forall (λ e, ∀ i rs, e.2 = StoreEvent (Arrive i rs) → brings_typed rs) evs → typed_store (vis v) →
  typed_store (vis (run_viewer v evs)).
Proof.
  intros He. revert v. induction He as [|e evs He _ IH]; intros v Hv; [done|].
  cbn. apply IH. by apply commit_typed, handle_typed.
Qed.
End viewer.

(** ** From the generator to the screen *)

Section generated.
Context (sha256 : string → string) (clang_format : string → result string).
Context (localeCompare : string → string → comparison) (syntaxError : string → string).
#[local] Abbreviation outputs := (outputs sha256 clang_format localeCompare syntaxError).

Definition artifact_path (f : string * string) : string := "artifacts/" +:+ f.1 +:+ ".json".

(** A list of entries in a file. *)
Definition entry_list (l : list value) : value := VArray (map (λ x, if has_text x then defined x else VNull) l).

Lemma canonical_entries name l :
  name ∈ ["entries"; "tasks"] →
  get_prop (redefined (defined (canonical name l))) name = Ok (redefined (entry_list l)).
Proof using. intros Hn. set_unfold. destruct Hn as [->|[->|[]]]; reflexivity. Qed.

Lemma buildEndpointJson_entries digest es env v :
  buildEndpointJson sha256 digest es env = Ok v →
  get_prop (redefined (defined v)) "endpoints" = Ok (redefined (entry_list (map endpoint_value es))).
Proof using. unfold buildEndpointJson. by intros (c & _ & [= <-])%bind_Ok. Qed.

Lemma entries_typed {E} (f : E → value) es t :
  (∀ e, has_text (f e) = true) → Forall (λ e, has_type (defined (f e)) t = true) es →
  has_type (redefined (entry_list (map f es))) [SArray t] = true.
Proof using.
  intros Hf H. apply inhabits_redefined, array_inhabits. rewrite map_map. apply Forall_map.
  eapply Forall_impl; [exact H|]. intros e He. by rewrite Hf.
Qed.

Lemma keys_typed v keys :
  parseKeys v = Ok keys → has_type (redefined (entry_list (map key_value keys))) [SArray KeyEntry] = true.
Proof using.
  intros (l & es & _ & _ & Hes & Hr & _ & _ & ->)%parseKeys_iff. apply entries_typed; [by intros []|].
  rewrite js_sort_Permutation. rewrite Forall_forall in Hr |- *. intros e He.
  pose proof He as [i Hi]%list_elem_of_lookup. destruct (Forall2_lookup_r _ _ _ _ _ Hes Hi) as (r & _ & Hk).
  by apply (key_typed r), Hr.
Qed.
Lemma params_typed v ps :
  parseParams v = Ok ps → has_type (redefined (entry_list (map param_value ps))) [SArray ParamEntry] = true.
Proof using.
  intros (l & es & _ & _ & Hes & _ & ->)%parseParams_iff. apply entries_typed; [by intros []|].
  rewrite js_sort_Permutation. eapply Forall2_read_Forall; [|exact Hes].
  intros r e [_ Hs]%read_param_ok. by apply param_typed.
Qed.
Lemma features_typed v fs :
  parseFeatures v = Ok fs → has_type (redefined (entry_list (map feature_value fs))) [SArray FeatureEntry] = true.
Proof using.
  intros (l & es & _ & _ & Hes & _ & ->)%parseFeatures_iff. apply entries_typed; [by intros []|].
  rewrite js_sort_Permutation. eapply Forall2_read_Forall; [|exact Hes].
  intros r e [_ Hs]%read_feature_ok. by apply feature_typed.
Qed.
Lemma capabilities_typed v cs :
  parseCapabilities localeCompare syntaxError v = Ok cs →
  has_type (redefined (entry_list (map capability_value cs))) [SArray CapabilityEntry] = true.
Proof using.
  intros (l & es & _ & _ & _ & Hes & _ & ->)%parseCapabilities_iff. apply entries_typed; [by intros []|].
  rewrite js_sort_Permutation. clear -Hes. induction Hes as [|r c l es Hr _ IH]; constructor; [|done].
  by apply (capability_typed r).
Qed.
Lemma tasks_typed ts : has_type (redefined (entry_list (map task_value ts))) [SArray TaskEntry] = true.
Proof using. apply entries_typed; [by intros []|]. apply Forall_forall. intros t _. apply task_typed. Qed.
Lemma endpoints_file_typed es :
  has_type (redefined (entry_list (map endpoint_value es))) [SArray (endpoint_type opt)] = true.
Proof using. apply entries_typed; [by intros []|]. apply Forall_forall. intros t _. apply endpoint_typed. Qed.

(** The values of the eight files, in the order of the store's requests. *)
Record generated (outs : list output) (files : list value) : Prop := {
  generated_outputs : Forall2 (λ f v, (artifact_path f, json_file v) ∈ outs) registry_files files;
  generated_types : ∃ k p f c t ed et ep,
    map (λ fv : string * string * value, get_prop (redefined (defined fv.2)) fv.1.2) (zip registry_files files)
      = map Ok [k; p; f; c; t; ed; et; ep] ∧
    registry_data opt {| keys_ := k; params_ := p; features_ := f; capabilities_ := c; tasks_ := t;
      endpoints_dev := ed; endpoints_test := et; endpoints_prod := ep |} = true;
}.

Ltac find_output := repeat first [apply list_elem_of_here | apply list_elem_of_further].

(** The entries that the registries' files give, as data. *)
Definition registry_entries (parseToml : string → result value) : result (list value) :=
  keys ← (v ← parseToml "registry/keys.toml"; parseKeys v);
  params ← (v ← parseToml "registry/params.toml"; parseParams v);
  features ← (v ← parseToml "registry/features.toml"; parseFeatures v);
  capabilities ← (v ← parseToml "registry/capabilities.toml";
                  parseCapabilities localeCompare syntaxError v);
  tasks ← (v ← parseToml "registry/tasks.toml"; parseTasks localeCompare syntaxError v);
  endpoints ← parseEndpoints localeCompare parseToml "registry";
  Ok (map key_value keys ++ map param_value params ++ map feature_value features ++
      map capability_value capabilities ++ map task_value (TaskRegistry.tasks tasks) ++
      map endpoint_value (dev endpoints ++ test endpoints ++ prod endpoints)).

Lemma entry_list_ok l : Forall (λ v, json_ok (defined v)) l → json_ok (entry_list l).
Proof using.
  intros H. apply json_ok_array, Forall_map. eapply Forall_impl; [exact H|]. intros v Hv. by case_match.
Qed.
Lemma canonical_ok name l :
  Forall (λ v, json_ok (defined v)) l → json_ok (defined (canonical name l)).
Proof using. intros H%entry_list_ok. cbn. split; [|split; [exact H|done]]. by repeat split; vm_compute. Qed.
Lemma endpoints_ok digest es env v :
  buildEndpointJson sha256 digest es env = Ok v →
  Forall (λ v, json_ok (defined v)) (map endpoint_value es) → json_ok (defined v).
Proof using.
  unfold buildEndpointJson. intros (c & _ & [= <-])%bind_Ok H%entry_list_ok. cbn. by split_and!.
Qed.

Lemma outputs_generated parseToml outs entries :
  outputs parseToml = Ok outs → registry_entries parseToml = Ok entries →
  Forall (λ v, json_ok (defined v)) entries →
  ∃ files, generated outs files ∧ Forall (λ v, json_ok (defined v)) files.
Proof using.
  unfold Codegen.outputs, registry_entries. intros H Hr.
  apply bind_Ok in H as (keys & Ek & H). rewrite Ek in Hr.
  apply bind_Ok in H as (params & Ep & H). rewrite Ep in Hr.
  apply bind_Ok in H as (features & Ef & H). rewrite Ef in Hr.
  apply bind_Ok in H as (validation & _ & H).
  apply bind_Ok in H as (capabilities & Ec & H). rewrite Ec in Hr.
  apply bind_Ok in H as (tasks & Et & H). rewrite Et in Hr.
  apply bind_Ok in H as (endpoints & Ee & H). rewrite Ee in Hr. injection Hr as <-.
  apply bind_Ok in Ek as (? & _ & Hk%keys_typed). apply bind_Ok in Ep as (? & _ & Hp%params_typed).
  apply bind_Ok in Ef as (? & _ & Hf%features_typed). apply bind_Ok in Ec as (? & _ & Hc%capabilities_typed).
  do 6 (apply bind_Ok in H as (? & _ & H)).
  apply bind_Ok in H as (ed & Hed & H). apply bind_Ok in H as (et & Het & H). apply bind_Ok in H as (ep & Hep & H).
  repeat (apply bind_Ok in H; destruct H as (? & _ & H)). injection H as <-.
  rewrite !map_app, !Forall_app. intros (Jk & Jp & Jf & Jc & Jt & Jed & Jet & Jep).
  exists [canonical "entries" (map key_value keys); canonical "entries" (map param_value params);
    canonical "entries" (map feature_value features); canonical "entries" (map capability_value capabilities);
    canonical "tasks" (map task_value (TaskRegistry.tasks tasks)); ed; et; ep].
  split; [|by repeat (constructor; [by eauto using canonical_ok, endpoints_ok|])].
  split.
  { repeat (apply Forall2_cons_2; [find_output|]). apply Forall2_nil_2. }
  eexists _, _, _, _, _, _, _, _. cbn [map zip registry_files fst snd zip_with].
  rewrite !canonical_entries by set_solver.
  rewrite (buildEndpointJson_entries _ _ _ _ Hed), (buildEndpointJson_entries _ _ _ _ Het),
    (buildEndpointJson_entries _ _ _ _ Hep). split; [reflexivity|].
  unfold registry_data. cbn [forallb EndpointEnv endpoints_of keys_ params_ features_ capabilities_ tasks_
    endpoints_dev endpoints_test endpoints_prod String.eqb Ascii.eqb Bool.eqb].
  by rewrite Hk, Hp, Hf, Hc, tasks_typed, !endpoints_file_typed.
Qed.

(** ** Fetching *)

Lemma collect_map {A B} (f : A → result B) l ys : map f l = map Ok ys → collect f l = Ok ys.
Proof using.
  revert ys. induction l as [|x l IH]; intros [|y ys]; try done. cbn. intros [= -> H]. by rewrite (IH ys).
Qed.
Lemma bodies_of (bodies : list value) : collect (response_json EmptyString) (map Body bodies) = Ok bodies.
Proof using. apply collect_map. by rewrite map_map. Qed.

Lemma fetched_registries outs files bodies :
  generated outs files → length files = 8 →
  bodies = map (λ v, redefined (defined v)) files →
  ∃ d, registries_of (map Body bodies) = Ok d ∧ registry_data opt d = true.
Proof using.
  intros [_ (k & p & f & c & t & ed & et & ep & Hf & Hd)] Hl ->. eexists. split; [|exact Hd].
  do 9 (destruct files as [|? files]; try done).
  unfold registries_of. cbn [map for_each no_rejection status_ok zip zip_with registry_files fst snd mbind result_bind].
  cbn [map zip zip_with registry_files fst snd] in Hf.
  match goal with |- context [collect (response_json EmptyString) ?l] =>
    change l with (map Body (map (λ v, redefined (defined v)) [v; v0; v1; v2; v3; v4; v5; v6])) end.
  rewrite bodies_of. cbn [mbind result_bind map zip zip_with].
  match goal with |- context [collect ?g ?l] => by rewrite (collect_map g l [k; p; f; c; t; ed; et; ep] Hf) end.
Qed.

(** The texts of the outputs are the only ones of their names. *)
Lemma output_text (outs : list output) name t t' :
  NoDup (outs.*1) → (name, t) ∈ outs → (name, t') ∈ outs → t = t'.
Proof using.
  intros Hnd H H'. pose proof (elem_of_map_get outs name t Hnd H) as E.
  rewrite (elem_of_map_get outs name t' Hnd H') in E. by injection E.
Qed.

(** C33: The registries that the generator writes can be browsed.  Take registries that
    generate, with numbers whose text denotes them, and let the store fetch the texts
    generated for keys, parameters, features, capabilities, tasks and endpoints.  They parse,
    and the store takes them as data of the viewer's types (a limit of an endpoint's policy
    may be missing); and in every run of the viewer from the application's start, whatever
    the user clicks, drags, searches or selects, and whatever requests fail or arrive when,
    as long as those that bring registries bring these, every screen can be drawn. *)
Theorem generated_registries_shown parseToml outs entries texts bodies dagre host_message
    params w strict events :
  outputs parseToml = Ok outs → registry_entries parseToml = Ok entries →
  Forall (λ v, json_ok (defined v)) entries →
  Forall2 (λ f t, (artifact_path f, t) ∈ outs) registry_files texts →
  (∀ i t, texts !! i = Some t → bodies !! i = JSON_parse t) → length bodies = length texts →
  (∀ e i rs d, e ∈ events → e.2 = StoreEvent (Arrive i rs) → registries_of rs = Ok d →
    rs = map Body bodies) →
  (∃ d, registries_of (map Body bodies) = Ok d ∧ registry_data opt d = true) ∧
  ∃ s, render (run_viewer dagre host_message (mount w strict (initial params)) events) = Ok s.
Proof using.
  intros Ho He Hj Ht Hb Hl Hev.
  destruct (outputs_generated parseToml outs entries Ho He Hj) as (files & Hg & Hfj).
  assert (length files = 8) as H8.
  { destruct Hg as [Hout _]. symmetry. exact (Forall2_length _ _ _ Hout). }
  assert (texts = map json_file files) as ->.
  { apply outputs_names in Ho. destruct Hg as [Hout _]. clear -Ht Ho Hout. revert files Hout.
    induction Ht as [|f t fs ts Hft _ IH]; intros files Hout; inversion Hout; subst; [done|].
    cbn. f_equal; [by eapply output_text|by apply IH]. }
  assert (bodies = map (λ v, redefined (defined v)) files) as Hbodies.
  { apply list_eq. intros i. rewrite list_lookup_fmap. destruct (files !! i) as [v|] eqn:Hi; cbn.
    - rewrite (Hb i (json_file v)) by (change map with (@fmap list _); by rewrite list_lookup_fmap, Hi).
      apply json_file_parses. rewrite Forall_forall in Hfj. by apply Hfj, (list_elem_of_lookup_2 _ i).
    - apply lookup_ge_None. apply lookup_ge_None in Hi. by rewrite Hl, length_map. }
  pose proof (fetched_registries outs files bodies Hg H8 Hbodies) as (d & Hd & Hty).
  split; [by exists d|]. apply is_ok_Ok, (render_ok opt opt_limit).
  apply run_typed; [|by apply mount_typed, initial_typed].
  apply Forall_forall. intros e Hin i rs Hers d' Hd'. rewrite (Hev e i rs d' Hin Hers Hd') in Hd'. congruence.
Qed.
End generated.

(** ** A sample *)

Definition sample_outputs : list output :=
  match outputs (λ s, s) Ok string_cmp (λ s, s) Codegen.sample_registries with Ok outs => outs | Throw _ => [] end.
Definition sample_texts : list string := omap (λ f, map_get sample_outputs (artifact_path f)) registry_files.
Definition sample_bodies : list value := omap JSON_parse sample_texts.
Definition sample_entries : list value :=
  match registry_entries string_cmp (λ s, s) Codegen.sample_registries with Ok l => l | Throw _ => [] end.
Definition sample_run : list (Z * bool * ui_event) :=
  [(800%Z, false, StoreEvent (Arrive 0 (map Body sample_bodies)));
   (800%Z, false, StoreEvent (Call (SetRegistryTab "tasks")));
   (800%Z, false, RowClick 1 (VString "core::vm"))].
Definition kind_of (s : screen) : nat * nat * nat :=
  match s with
  | Loading => (0, 0, 0) | Failure _ => (1, 0, 0)
  | Screen ts _ (EmptyState _) ps => (2, 0, length ps)
  | Screen ts _ (Table _ rows) ps => (3, length rows, length ps)
  end.

Lemma omap_total {A B} (f : A → option B) l :
  length (omap f l) = length l → ∀ i x, l !! i = Some x → omap f l !! i = f x.
Proof.
  assert (∀ l, length (omap f l) ≤ length l) as Hle.
  { intros l'. induction l' as [|x l' IH]; [done|]. cbn. destruct (f x); cbn; lia. }
  induction l as [|x l IH]; cbn; [by intros _ i x|]. specialize (Hle l). destruct (f x) as [y|] eqn:Hx; cbn.
  - intros [= Hl] [|i] z; cbn; [by intros [= <-]|by apply IH].
  - lia.
Qed.
Lemma texts_found (outs : list output) fs :
  length (omap (λ f, map_get outs (artifact_path f)) fs) = length fs →
  Forall2 (λ f t, (artifact_path f, t) ∈ outs) fs (omap (λ f, map_get outs (artifact_path f)) fs).
Proof.
  intros Hl. apply Forall2_same_length_lookup_2; [done|]. intros i f t Hf Ht.
  rewrite (omap_total _ fs Hl i f Hf) in Ht. by apply map_get_Some_elem_of.
Qed.
Lemma arrival_inj i j rs rs' : StoreEvent (Arrive i rs) = StoreEvent (Arrive j rs') → rs = rs'.
Proof. congruence. Qed.

(** The generated registries arrive, the user looks at the tasks and opens one of them. *)
Lemma generated_registries_shown_witness :
  let v := run_viewer sample_dagre "host" (mount 800 false (initial no_params)) sample_run in
  length sample_bodies = 8 ∧ kind_of <$> render v = Ok (3, 2, 1) ∧ ∃ s, render v = Ok s.
Proof.
  intros v. split; [by vm_compute|]. split; [by vm_compute|].
  destruct (generated_registries_shown (λ s, s) Ok string_cmp (λ s, s) Codegen.sample_registries
    sample_outputs sample_entries sample_texts sample_bodies sample_dagre "host" no_params 800 false sample_run)
    as [_ [s Hs]].
  - by vm_compute.
  - by vm_compute.
  - let l := eval vm_compute in sample_entries in assert (sample_entries = l) as -> by by vm_compute.
    repeat (apply Forall_cons_2; [by repeat split; vm_compute|]). apply Forall_nil_2.
  - apply texts_found. by vm_compute.
  - apply omap_total. by vm_compute.
  - by vm_compute.
  - intros e i rs d He Hers _. unfold sample_run in He. rewrite !elem_of_cons in He.
    destruct He as [->|[->|[->|He]]];
      [symmetry; exact (arrival_inj _ _ _ _ Hers)|discriminate Hers|discriminate Hers|by apply not_elem_of_nil in He].
  - by exists s.
Defined.
