(* ===== verification/DetailsPanel.v ===== *)
(** * DetailsPanel: the selected node
    (tools/visualizer/src/components/DetailsPanel.tsx)

    The panel shows a node of the graph: its operator, its neighbours, its parameters and
    the expression or predicate it uses, which it looks up in the plan's tables and writes
    as formulas.  The formulas are text; React's keys are left out.  Every formula shown
    for an expression is shown to determine it. *)

From Stdlib Require Import Floats.SpecFloat.
From S2P Require Import Prelude StateMonad Collections JsNumber JsValue Ir TaskImpl PlanCtx.
From S2P Require Import ArtifactValidation StableStringify Json VisGraph VisStore Jsx.

(** ** Formulas *)

Definition KeyRef (keyId : value) : result string := t ← shown keyId; Ok ("Key[" +:+ t +:+ "]").
Definition ParamRef (paramId : value) : result string := t ← shown paramId; Ok ("Param[" +:+ t +:+ "]").

(** The address that a click on a reference goes to. *)
Definition navigateToRegistry (tab : string) (id : value) : result url :=
  t ← template id;
  Ok (Changed [SetParam "view" "registries"; SetParam "tab" tab; SetParam "selected" t]).

(** A formula and its operands; an operand that is missing has no member [op]. *)
Definition in_parens (a op b : string) : string := "(" +:+ a +:+ " " +:+ op +:+ " " +:+ b +:+ ")".

Fixpoint formatExprJsx (expr : value) : result string :=
  match expr with
  | VUndefined | VNull => Throw TypeError
  | VObject o =>
      let operand (k : string) : result string :=
        (fix find (o : object) : result string :=
          match o with
          | [] => Throw TypeError
          | (k', w) :: o' => if String.eqb k k' then formatExprJsx w else find o'
          end) o in
      let op := string_case (own_get o "op") in
      if String.eqb op "const_number" then shown (own_get o "value")
      else if String.eqb op "const_null" then Ok "null"
      else if String.eqb op "key_ref" then KeyRef (own_get o "key_id")
      else if String.eqb op "param_ref" then ParamRef (own_get o "param_id")
      else if String.eqb op "add" || String.eqb op "sub" || String.eqb op "mul" then
        a ← operand "a"; b ← operand "b";
        Ok (in_parens a (if String.eqb op "add" then "+" else if String.eqb op "sub" then "-" else "*") b)
      else if String.eqb op "neg" then x ← operand "x"; Ok ("-" +:+ x)
      else if String.eqb op "coalesce" then
        a ← operand "a"; b ← operand "b"; Ok ("coalesce(" +:+ a +:+ ", " +:+ b +:+ ")")
      else Ok (json_text 0 expr)
  | _ => Ok (json_text 0 expr)
  end.

(** [pred.pattern?.k] *)
Definition optional_get (v : value) (k : string) : result value :=
  match v with VUndefined | VNull => Ok VUndefined | _ => get_prop v k end.

Definition format_pattern (pattern : value) : result string :=
  kind ← optional_get pattern "kind";
  if String.eqb (string_case kind) "literal" then
    v ← get_prop pattern "value"; t ← shown v; Ok (quoted t)
  else i ← optional_get pattern "param_id"; ParamRef i.

Fixpoint formatPredJsx (pred : value) : result string :=
  match pred with
  | VUndefined | VNull => Throw TypeError
  | VObject o =>
      let operand (k : string) : result string :=
        (fix find (o : object) : result string :=
          match o with
          | [] => Throw TypeError
          | (k', w) :: o' => if String.eqb k k' then formatPredJsx w else find o'
          end) o in
      let op := string_case (own_get o "op") in
      if String.eqb op "const_bool" then template (own_get o "value")
      else if String.eqb op "and" then a ← operand "a"; b ← operand "b"; Ok (in_parens a "AND" b)
      else if String.eqb op "or" then a ← operand "a"; b ← operand "b"; Ok (in_parens a "OR" b)
      else if String.eqb op "not" then x ← operand "x"; Ok ("NOT " +:+ x)
      else if String.eqb op "cmp" then
        a ← formatExprJsx (own_get o "a"); c ← shown (own_get o "cmp"); b ← formatExprJsx (own_get o "b");
        Ok (in_parens a c b)
      else if String.eqb op "in" then
        a ← formatExprJsx (own_get o "lhs");
        match own_get o "list" with
        | VArray l => t ← array_join ", " l; Ok (a +:+ " IN [" +:+ t +:+ "]")
        | _ => Throw TypeError
        end
      else if String.eqb op "is_null" then x ← formatExprJsx (own_get o "x"); Ok ("IS_NULL(" +:+ x +:+ ")")
      else if String.eqb op "not_null" then x ← formatExprJsx (own_get o "x"); Ok ("NOT_NULL(" +:+ x +:+ ")")
      else if String.eqb op "regex" then
        p ← format_pattern (own_get o "pattern"); k ← KeyRef (own_get o "key_id");
        Ok (k +:+ " REGEX " +:+ p)
      else Ok (json_text 0 pred)
  | _ => Ok (json_text 0 pred)
  end.

(** ** The panel *)

Inductive panel :=
| Collapsed
| Hint                          (* Click a node to see details *)
| Nothing
| Details (title : string) (rows : list detail).

Fixpoint node_get (nodes : list (value * VisNode)) (id : value) : option VisNode :=
  match nodes with
  | [] => None
  | (k, n) :: nodes' => if same_json k id then Some n else node_get nodes' id
  end.

Definition neighbours (label : string) (ids : list value) : result (list detail) :=
  t ← match ids with [] => Ok "None" | _ => array_join ", " ids end;
  Ok [Row (label +:+ " (" +:+ pretty (length ids) +:+ ")") [t]].

(** [id ? plan[table]?.[id] : undefined] *)
Definition table_entry (planJson : value) (table : string) (entryId : value) : result value :=
  if negb (truthy entryId) then Ok VUndefined
  else
    t ← get_prop planJson table;
    match t with
    | VUndefined | VNull => Ok VUndefined
    | _ => k ← template entryId; get_prop t k
    end.

Definition formula (label : string) (entryId entry : value) (format : value → result string)
    : result (list detail) :=
  if_truthy entry (i ← shown entryId; t ← format entry; Ok [Row (label +:+ " (" +:+ i +:+ ")") [t]]).

Definition details_rows (g : VisGraph) (planJson selectedNodeId : value) (node : VisNode)
    : result (list detail) :=
  let incomingEdges := List.filter (λ e, strict_equal (to e) selectedNodeId) (vis_edges g) in
  let outgoingEdges := List.filter (λ e, strict_equal (from e) selectedNodeId) (vis_edges g) in
  exprId ← get_prop (params node) "expr_id";
  predId ← get_prop (params node) "pred_id";
  expr ← table_entry planJson "expr_table" exprId;
  pred ← table_entry planJson "pred_table" predId;
  i ← shown (id node);
  o ← shown (op node);
  ins ← neighbours "Inputs" (map from incomingEdges);
  outs ← neighbours "Outputs" (map to outgoingEdges);
  e ← formula "Expression" exprId expr formatExprJsx;
  p ← formula "Predicate" predId pred formatPredJsx;
  Ok ([Row "Node ID" [i]; Row "Operation" [o];
       Row "Flags" ((if isSource node then ["Source"] else []) ++ (if isOutput node then ["Output"] else []))]
      ++ ins ++ outs ++ [Row "Params" [json_text 2 (params node)]] ++ e ++ p).

Definition DetailsPanel (s : Store) : result panel :=
  let selectedNodeId := selectedNodeId (st_canvas s) in
  if detailsCollapsed (st_source s) then Ok Collapsed
  else if negb (truthy selectedNodeId) || negb (truthy (planJson (st_plan s))) then Ok Hint
  else
    match graph (st_plan s) with
    | None => Ok Hint
    | Some g =>
        match node_get (vis_nodes g) selectedNodeId with
        | None => Ok Nothing
        | Some node =>
            title ← shown (label node);
            rows ← details_rows g (planJson (st_plan s)) selectedNodeId node;
            Ok (Details title rows)
        end
    end.

(** ** Numbers as text *)

Definition with_sign (b : bool) (n : number) : number :=
  match n with
  | S754_zero _ => S754_zero b
  | S754_infinity _ => S754_infinity b
  | S754_nan => S754_nan
  | S754_finite _ m e => S754_finite b m e
  end.

Lemma num_of_decimal_sign b m e : num_of_decimal b m e = with_sign b (num_of_decimal false m e).
Proof.
  assert (∀ q e' l, binary_round_aux prec emax b q e' l = with_sign b (binary_round_aux prec emax false q e' l)) as H.
  { intros q e' l. unfold binary_round_aux. destruct (shr_fexp _ _ q e' l) as [r k].
    destruct (shr_fexp _ _ _ k loc_Exact) as [r' k']. by repeat case_match. }
  unfold num_of_decimal, binary_round. by repeat case_match.
Qed.
Lemma read_decimal_sign b s : read_decimal b s = with_sign b (read_decimal false s).
Proof. unfold read_decimal. repeat case_match; try done; apply num_of_decimal_sign. Qed.

Definition starts_digit (s : string) : bool := match s with String c _ => is_digit c | _ => false end.

Lemma number_char_space c : is_number_char c = true → is_space c = false.
Proof. by destruct c as [[] [] [] [] [] [] [] []]. Qed.
Lemma trim_number t : string_forallb is_number_char t = true → trim t = t.
Proof.
  intros H. unfold trim. assert (trim_left t = t) as ->.
  { destruct t as [|c t]; [done|]. cbn in *. apply andb_true_iff in H as [Hc _]. by rewrite number_char_space. }
  induction t as [|c t IH]; [done|]. cbn [string_forallb trim_right] in *. apply andb_true_iff in H as [Hc H].
  rewrite IH by done. destruct t; [by rewrite number_char_space|done].
Qed.

Lemma Number_unsigned t :
  string_forallb is_number_char t = true → starts_digit t = true → Number t = read_decimal false t.
Proof.
  intros H Hd. unfold Number. rewrite trim_number by done. destruct t as [|c t]; [done|].
  cbn in H, Hd. apply andb_true_iff in H as [_ H].
  destruct c as [[] [] [] [] [] [] [] []]; try done.
  destruct t as [|c t]; [done|]. cbn in H. apply andb_true_iff in H as [H _].
  by destruct c as [[] [] [] [] [] [] [] []].
Qed.
Lemma Number_signed t :
  string_forallb is_number_char t = true → Number (String "-" t) = read_decimal true t.
Proof. intros H. unfold Number. by rewrite trim_number. Qed.

Lemma json_number_start t :
  json_number t = true → starts_digit t = true ∨ ∃ r, t = String "-" r ∧ starts_digit r = true.
Proof.
  intros H. destruct t as [|c t]; [done|]. destruct (Ascii.eqb_spec c "-") as [->|Hc].
  - right. exists t. split; [done|]. destruct t as [|d r]; [done|].
    by destruct d as [[] [] [] [] [] [] [] []].
  - left. by destruct c as [[] [] [] [] [] [] [] []].
Qed.

(** An unsigned number and its text. *)
Definition unsigned_ok (n : number) : Prop :=
  let t := num_to_string n in
  starts_digit t = true ∧ string_forallb is_number_char t = true ∧ read_decimal false t = n.

Lemma number_ok_unsigned n : number_ok n → n = with_sign false n → unsigned_ok n.
Proof.
  intros (Hf & Hj & Hc & Hn) Hs. destruct (json_number_start _ Hj) as [Hd|(r & Hr & Hd)].
  - split_and!; [done..|]. by rewrite <-Number_unsigned.
  - exfalso. rewrite Hr in Hc, Hn. cbn in Hc. rewrite Number_signed, read_decimal_sign in Hn by done.
    rewrite Hs in Hn. by destruct (read_decimal false r), n.
Qed.
Lemma number_ok_negative m e :
  number_ok (S754_finite true m e) → unsigned_ok (S754_finite false m e).
Proof.
  intros (Hf & Hj & Hc & Hn). unfold unsigned_ok.
  assert (num_to_string (S754_finite true m e) = String "-" (num_to_string (S754_finite false m e))) as Ht by done.
  rewrite Ht in Hj, Hc, Hn. cbn in Hc. rewrite Number_signed, read_decimal_sign in Hn by done.
  destruct (json_number_start _ Hj) as [Hd|(r & [= <-] & Hd)]; [done|].
  split_and!; [done..|]. pose proof (read_decimal_sign false (num_to_string (S754_finite false m e))) as Hs.
  destruct (read_decimal false _); try done. injection Hn as -> ->. exact Hs.
Qed.

Lemma numbers_apart t1 t2 r1 r2 :
  string_forallb is_number_char t1 = true → string_forallb is_number_char t2 = true →
  stops r1 → stops r2 → t1 +:+ r1 = t2 +:+ r2 → t1 = t2 ∧ r1 = r2.
Proof.
  intros H1 H2 Hr1 Hr2 H. pose proof (number_token_app t1 r1 H1 Hr1) as E1.
  pose proof (number_token_app t2 r2 H2 Hr2) as E2. rewrite H, E2 in E1. by injection E1.
Qed.

(** ** Formulas determine expressions *)

(** The formula of a typed expression. *)
Fixpoint expr_text (e : ExprNode) : string :=
  match e with
  | const_number n => num_to_string n
  | const_null => "null"
  | key_ref i => "Key[" +:+ num_to_string i +:+ "]"
  | param_ref i => "Param[" +:+ num_to_string i +:+ "]"
  | add a b => in_parens (expr_text a) "+" (expr_text b)
  | sub a b => in_parens (expr_text a) "-" (expr_text b)
  | mul a b => in_parens (expr_text a) "*" (expr_text b)
  | neg x => "-" +:+ expr_text x
  | coalesce a b => "coalesce(" +:+ expr_text a +:+ ", " +:+ expr_text b +:+ ")"
  end.

Lemma format_expr_text e : formatExprJsx (expr_value e) = Ok (expr_text e).
Proof.
  induction e; cbn; rewrite ?IHe, ?IHe1, ?IHe2; done.
Qed.

(** Negative constants as the minus of their absolute values, as the formula reads. *)
Definition unsigned_const (n : number) : ExprNode :=
  match n with S754_finite true m e => neg (const_number (S754_finite false m e)) | _ => const_number n end.
Fixpoint unsigned (e : ExprNode) : ExprNode :=
  match e with
  | const_number n => unsigned_const n
  | const_null | key_ref _ | param_ref _ => e
  | add a b => add (unsigned a) (unsigned b)
  | sub a b => sub (unsigned a) (unsigned b)
  | mul a b => mul (unsigned a) (unsigned b)
  | neg x => neg (unsigned x)
  | coalesce a b => coalesce (unsigned a) (unsigned b)
  end.

(** Numbers that JSON can carry. *)
Fixpoint numbers_ok (e : ExprNode) : Prop :=
  match e with
  | const_number n | key_ref n | param_ref n => number_ok n
  | const_null => True
  | add a b | sub a b | mul a b | coalesce a b => numbers_ok a ∧ numbers_ok b
  | neg x => numbers_ok x
  end.
Fixpoint plain_numbers (e : ExprNode) : Prop :=
  match e with
  | const_number n => unsigned_ok n
  | key_ref n | param_ref n => number_ok n
  | const_null => True
  | add a b | sub a b | mul a b | coalesce a b => plain_numbers a ∧ plain_numbers b
  | neg x => plain_numbers x
  end.

Lemma unsigned_plain e : numbers_ok e → plain_numbers (unsigned e).
Proof.
  induction e; cbn; try tauto. intros H.
  destruct value as [[]|s| |[] m k]; cbn; try (by destruct H).
  - by apply number_ok_negative.
  - by apply number_ok_unsigned.
Qed.

Lemma unsigned_text e : expr_text (unsigned e) = expr_text e.
Proof.
  induction e; cbn; rewrite ?IHe, ?IHe1, ?IHe2; try done. by destruct value as [| | |[]].
Qed.

Lemma ids_apart n m r1 r2 :
  number_ok n → number_ok m → num_to_string n +:+ String "]" r1 = num_to_string m +:+ String "]" r2 →
  n = m ∧ r1 = r2.
Proof.
  intros (_ & _ & Hn & Hn') (_ & _ & Hm & Hm') H.
  apply numbers_apart in H as [H [= ->]]; [|done..]. split; [congruence|done].
Qed.

(** A formula is read back from the left: what follows it is not part of it. *)
Lemma formulas_apart e1 : ∀ e2 r1 r2,
  plain_numbers e1 → plain_numbers e2 → stops r1 → stops r2 →
  expr_text e1 +:+ r1 = expr_text e2 +:+ r2 → e1 = e2 ∧ r1 = r2.
Proof.
  assert (∀ n t r s, unsigned_ok n → num_to_string n +:+ r = String t s → is_digit t = true) as Hdigit.
  { intros n t r s (Hd & _) H. destruct (num_to_string n); [done|]. by injection H as <- _. }
  assert (∀ n t r s, unsigned_ok n → String t s = num_to_string n +:+ r → is_digit t = true) as Hdigit'.
  { intros n t r s Hn H. by eapply Hdigit. }
  induction e1 as [n| |i|i|a IHa b IHb|a IHa b IHb|a IHa b IHb|x IHx|a IHa b IHb];
    intros e2 r1 r2 H1 H2 Hr1 Hr2; destruct e2 as [m| |j|j|c d|c d|c d|y|c d];
    cbn [expr_text plain_numbers] in *; unfold in_parens; rewrite ?string_app_assoc; cbn [String.append];
    intros H;
    try (by apply Hdigit in H); try (by apply Hdigit' in H); try discriminate H.
  all: try (injection H as H).
  all: repeat match goal with Hp : plain_numbers _ ∧ _ |- _ => destruct Hp end.
  all: try (apply IHa in H as [-> H]; [|done..];
    first [discriminate H | injection H as H; apply IHb in H as [-> H]; [|done..]; injection H as ->; done]).
  - destruct H1 as (_ & Hn & Hn'), H2 as (_ & Hm & Hm').
    apply numbers_apart in H as [H ->]; [|done..]. split; [congruence|done].
  - done.
  - apply ids_apart in H as [-> ->]; done.
  - apply ids_apart in H as [-> ->]; done.
  - apply IHx in H as [-> ->]; done.
Qed.

(** C37: The formula shown for an expression can be trusted: every expression has one, and
    two expressions shown alike are the same expression, up to whether the minus sign of a
    constant is an operator or part of the number. *)
Theorem formulas_readable e1 e2 :
  numbers_ok e1 → numbers_ok e2 →
  (∃ t, formatExprJsx (expr_value e1) = Ok t) ∧
  (formatExprJsx (expr_value e1) = formatExprJsx (expr_value e2) ↔ unsigned e1 = unsigned e2).
Proof.
  intros H1%unsigned_plain H2%unsigned_plain. rewrite !format_expr_text. split; [eauto|].
  rewrite <-(unsigned_text e1), <-(unsigned_text e2). split; [|by intros ->].
  intros [= H]. apply (formulas_apart _ _ EmptyString EmptyString H1 H2 I I). by rewrite H.
Qed.

Lemma formulas_readable_witness :
  let e1 := add (neg (const_number (num 5))) (mul (key_ref (num 3)) (coalesce (param_ref (num 2)) const_null)) in
  let e2 := add (const_number (num (-5))) (mul (key_ref (num 3)) (coalesce (param_ref (num 2)) const_null)) in
  formatExprJsx (expr_value e1) = Ok "(-5 + (Key[3] * coalesce(Param[2], null)))" ∧
  formatExprJsx (expr_value e1) = formatExprJsx (expr_value e2) ∧ e1 ≠ e2.
Proof.
  intros e1 e2. split; [by vm_compute|]. split; [|done].
  apply (formulas_readable e1 e2); [..|by vm_compute]; repeat split; by vm_compute.
Defined.

(** Predicates: two that differ are shown alike, as flags of regular expressions and the
    kinds of a list's members are not shown. *)
Example flags_not_shown :
  formatPredJsx (pred_value (regex (num 1) (pattern_literal "^a") "i")) =
  formatPredJsx (pred_value (regex (num 1) (pattern_literal "^a") EmptyString)).
Proof. by vm_compute. Qed.
Example members_shown_alike :
  formatPredJsx (pred_value (in_ (key_ref (num 1)) [LString "1, 2"])) = Ok "Key[1] IN [1, 2]" ∧
  formatPredJsx (pred_value (in_ (key_ref (num 1)) [LNumber (num 1); LNumber (num 2)])) = Ok "Key[1] IN [1, 2]".
Proof. by vm_compute. Qed.

(** ** The panel shows the plan's node *)

Lemma format_pred_total p : ∃ t, formatPredJsx (pred_value p) = Ok t.
Proof.
  induction p as [b|a [ta Ha] b [tb Hb]|a [ta Ha] b [tb Hb]|x [t Hx]|c a b|a l|x|x|i q f].
  - by eexists.
  - cbn. rewrite Ha, Hb. by eexists.
  - cbn. rewrite Ha, Hb. by eexists.
  - cbn. rewrite Hx. by eexists.
  - cbn -[formatExprJsx]. rewrite !format_expr_text. by eexists.
  - cbn -[formatExprJsx array_join]. rewrite format_expr_text. cbn -[array_join].
    assert (∃ t, array_join ", " (map literal_value l) = Ok t) as [t ->]; [|by eexists].
    unfold array_join. induction l as [|y l [t IH]]; [by eexists|].
    cbn [map join_texts]. destruct (join_texts (map literal_value l)); [|done]. destruct y; by eexists.
  - cbn -[formatExprJsx]. rewrite format_expr_text. by eexists.
  - cbn -[formatExprJsx]. rewrite format_expr_text. by eexists.
  - destruct q; by eexists.
Qed.

(** The nodes that [n] takes from, and the nodes that take from it, once for each use. *)
Definition refs (n : PlanNode) : list string := inputs n ++ rhs_refs n.
Definition users (ns : list PlanNode) (n : PlanNode) : list string :=
  flat_map (λ m, map (λ _, node_id m) (List.filter (String.eqb (node_id n)) (refs m))) ns.

Lemma edges_of_refs m : map from (edges_of m) = map VString (refs m) ∧ Forall (λ e, to e = VString (node_id m)) (edges_of m).
Proof.
  unfold edges_of, refs. split.
  - by rewrite !map_app, !map_map.
  - apply Forall_app. split; apply Forall_map, Forall_forall; done.
Qed.

Lemma incoming n ns :
  NoDup (map node_id ns) → n ∈ ns →
  map from (List.filter (λ e, strict_equal (to e) (VString (node_id n))) (flat_map edges_of ns)) =
  map VString (refs n).
Proof.
  assert (∀ m, List.filter (λ e, strict_equal (to e) (VString (node_id n))) (edges_of m) =
    if String.eqb (node_id m) (node_id n) then edges_of m else []) as Hf.
  { intros m. destruct (edges_of_refs m) as [_ H]. induction H as [|e es He _ IH]; [by case_match|].
    cbn [List.filter]. rewrite IH, He. cbn. by case_match. }
  induction ns as [|m ns IH]; intros Hnd Hn; [set_solver|].
  cbn [map] in Hnd. apply NoDup_cons in Hnd as [Hm Hnd].
  cbn [flat_map]. rewrite List.filter_app, map_app, Hf.
  destruct (String.eqb_spec (node_id m) (node_id n)) as [E|E].
  - assert (m = n) as ->.
    { apply elem_of_cons in Hn as [->|Hn]; [done|]. destruct Hm. rewrite E. by apply list_elem_of_fmap_2. }
    rewrite (proj1 (edges_of_refs n)).
    assert (List.filter (λ e, strict_equal (to e) (VString (node_id n))) (flat_map edges_of ns) = []) as ->.
    { clear -Hm Hf. induction ns as [|k ns IH]; [done|]. cbn [flat_map map] in *. rewrite List.filter_app, Hf.
      apply not_elem_of_cons in Hm as [Hk Hm]. destruct (String.eqb_spec (node_id k) (node_id n)); [congruence|].
      by apply IH. }
    by rewrite app_nil_r.
  - apply IH; [done|]. apply elem_of_cons in Hn as [->|Hn]; [done|done].
Qed.

Lemma outgoing n ns :
  map to (List.filter (λ e, strict_equal (from e) (VString (node_id n))) (flat_map edges_of ns)) =
  map VString (users ns n).
Proof.
  unfold users. induction ns as [|m ns IH]; [done|]. cbn [flat_map].
  rewrite List.filter_app, !map_app, IH. f_equal.
  destruct (edges_of_refs m) as [Hf Ht]. revert Hf. generalize (refs m) as rs.
  induction Ht as [|e es He _ IHe]; intros [|r rs] Hf; try done. injection Hf as Hr Hf.
  cbn [List.filter]. rewrite Hr. cbn. rewrite (String.eqb_sym (node_id n)).
  destruct (String.eqb r (node_id n)); cbn; [rewrite He; f_equal|]; by apply IHe.
Qed.

Lemma node_get_shown out f vs ns n :
  (∀ v, (f v).1 = v.1) → Forall2 (shows out) vs ns → NoDup (map node_id ns) → n ∈ ns →
  ∃ v, node_get (map f vs) (VString (node_id n)) = Some (f v).2 ∧ shows out v n.
Proof.
  intros Hf H. induction H as [|v m vs ns Hv _ IH]; intros Hnd Hn; [set_solver|].
  cbn [map] in *. apply NoDup_cons in Hnd as [Hm Hnd]. cbn [node_get].
  destruct (f v) as [k w] eqn:E. pose proof (Hf v) as Hk. rewrite E in Hk. cbn in Hk. subst k.
  rewrite (proj1 Hv). cbn [same_json]. destruct (String.eqb_spec (node_id m) (node_id n)) as [Ei|Ei].
  - exists v. rewrite E. split; [done|]. apply elem_of_cons in Hn as [->|Hn]; [done|].
    destruct Hm. rewrite Ei. by apply list_elem_of_fmap_2.
  - apply IH; [done|]. apply elem_of_cons in Hn as [->|Hn]; [done|done].
Qed.

Definition listed (label : string) (ids : list string) : detail :=
  Row (label +:+ " (" +:+ pretty (length ids) +:+ ")") [match ids with [] => "None" | _ => join ", " ids end].

Lemma neighbours_strings label ids : neighbours label (map VString ids) = Ok [listed label ids].
Proof.
  unfold neighbours, listed. rewrite length_map. destruct ids as [|i ids]; [done|].
  cbn [map]. change (VString i :: map VString ids) with (map VString (i :: ids)). by rewrite array_join_strings.
Qed.

(** The row for a parameter that names an entry of a table: none for no name. *)
Definition formula_row (label : string) (names : option string) (text : option string) : list detail :=
  match names, text with Some i, Some t => [Row (label +:+ " (" +:+ i +:+ ")") [t]] | _, _ => [] end.

(** A parameter that names no entry, or the entry [e] of the table. *)
Definition names_entry {A} (ps : object) (member : string) (table : object) (to_value : A → value)
    (found : option (string * A)) : Prop :=
  match found with
  | None => own_get ps member = VUndefined
  | Some (k, e) => k ≠ EmptyString ∧ own_get ps member = VString k ∧ map_get table k = Some (to_value e)
  end.

Lemma table_get (table : object) k v :
  NoDup table.*1 → map_get table k = Some v → own_get (from_entries table) k = v.
Proof.
  intros Hnd Hk. assert (map_get (from_entries table) k = Some v) as H.
  { apply elem_of_map_get; [by rewrite from_entries_perm|].
    rewrite from_entries_perm by done. by apply map_get_Some_elem_of. }
  unfold own_get. by rewrite H.
Qed.

Lemma formula_named {A} label (ps : object) member tname (a : value) (table : object) (to_value : A → value)
    format (text : A → string) found :
  NoDup table.*1 → names_entry ps member table to_value found →
  get_prop a tname = Ok (match table with [] => VUndefined | _ => VObject (from_entries table) end) →
  (∀ e, truthy (to_value e) = true) → (∀ k e, found = Some (k, e) → format (to_value e) = Ok (text e)) →
  ∃ entry, table_entry a tname (own_get ps member) = Ok entry ∧
    formula label (own_get ps member) entry format = Ok (formula_row label (fst <$> found) (text ∘ snd <$> found)).
Proof.
  intros Hnd Hn Ht Htr Hf. unfold table_entry, names_entry in *. destruct found as [[k e]|].
  - destruct Hn as (Hk & -> & Hg). assert (truthy (VString k) = true) as -> by by destruct k.
    rewrite Ht. cbn [negb mbind result_bind]. assert (table ≠ []) as Hne by by destruct table.
    exists (to_value e). split.
    + destruct table as [|kv table]; [done|]. cbn [template mbind result_bind get_prop].
      f_equal. by apply table_get.
    + unfold formula, if_truthy. rewrite Htr. cbn. by rewrite (Hf k e eq_refl).
  - rewrite Hn. by exists VUndefined.
Qed.

Lemma numbered_NoDup (f : nat → string) (ks : list string) k :
  (∀ i j, f i = f j → i = j) → ks = map f (seq 0 k) → NoDup ks.
Proof. intros Hf ->. assert (Inj (=) (=) f) by exact Hf. apply NoDup_fmap_2, NoDup_seq; done. Qed.
Lemma tables_NoDup s : plan_ok s → NoDup (exprTable s).*1 ∧ NoDup (predTable s).*1.
Proof.
  intros Hok. split; [eapply (numbered_NoDup expr_num); [|apply (ok_exprs s Hok)]
                     |eapply (numbered_NoDup pred_num); [|apply (ok_preds s Hok)]];
    intros i j [= H%(inj pretty)]; done.
Qed.

(** C36: The details of a selected node are the plan's.  For the artifact of any sequence of
    calls of the authoring API, laid out in any way, selecting a node shows its id, its
    operator, whether it is a source or the output, the nodes it takes from and the nodes
    that take from it, each once for every use and in the plan's order, its parameters,
    and the formula of the expression or predicate that its parameters name. *)
Theorem details_shown dagre i s out name n options g st e p pt :
  PlanCtx.reachable i s → n ∈ nodes s →
  let a := finalize s (VString out) (VString name) in
  (parsed ← parsePlan a; layoutGraph dagre options parsed) = Ok g →
  planJson (st_plan st) = a → graph (st_plan st) = Some g →
  selectedNodeId (st_canvas st) = VString (node_id n) → detailsCollapsed (st_source st) = false →
  names_entry (PlanCtx.params n) "expr_id" (exprTable s) expr_value e →
  names_entry (PlanCtx.params n) "pred_id" (predTable s) pred_value p →
  (∀ k q, p = Some (k, q) → formatPredJsx (pred_value q) = Ok pt) →
  DetailsPanel st = Ok (Details (PlanCtx.op n)
    ([Row "Node ID" [node_id n]; Row "Operation" [PlanCtx.op n];
      Row "Flags" ((match inputs n with [] => ["Source"] | _ => [] end) ++
                   (if String.eqb (node_id n) out then ["Output"] else []));
      listed "Inputs" (refs n); listed "Outputs" (users (nodes s) n);
      Row "Params" [json_text 2 (VObject (PlanCtx.params n))]] ++
     formula_row "Expression" (fst <$> e) (expr_text ∘ snd <$> e) ++
     formula_row "Predicate" (fst <$> p) ((λ _, pt) <$> p))).
Proof.
  intros Hr Hn a Hg Hplan Hgraph Hsel Hcol He Hp Hpt.
  destruct (parsePlan_value i s out name Hr) as (vs & Hparse & Hshown). apply reachable_ok in Hr as Hok.
  destruct (tables_NoDup s Hok) as [Hne Hnp]. pose proof (plan_ids_NoDup s Hok) as Hnd.
  subst a. rewrite Hparse in Hg. cbn [mbind result_bind] in Hg.
  unfold layoutGraph in Hg. destruct (dagre options _ _) as [center|]; [|done].
  cbn [mbind result_bind] in Hg. injection Hg as <-.
  match goal with H : graph _ = Some {| vis_nodes := map ?f vs; vis_edges := _ |} |- _ =>
    destruct (node_get_shown out f vs (nodes s) n) as (v & Hv & Hs); [done..|]; set (w := (f v).2) in * end.
  assert (id w = VString (node_id n) ∧ op w = VString (PlanCtx.op n) ∧ label w = VString (PlanCtx.op n) ∧
    params w = VObject (PlanCtx.params n) ∧ isSource w = isSource v.2 ∧ isOutput w = isOutput v.2)
    as (Ei & Eo & El & Ep & Es & Eout).
  { destruct Hs as (_ & Hi & Ho & Hl & Hps & _). subst w. cbn. by destruct (center v.1) as [[]|]. }
  assert (isSource w = match inputs n with [] => true | _ => false end ∧
    isOutput w = String.eqb (node_id n) out) as [Hsrc Hout].
  { rewrite Es, Eout. destruct Hs as (_ & _ & _ & _ & _ & H1 & H2). split; apply eq_true_iff_eq.
    - rewrite H1. by destruct (inputs n).
    - by rewrite H2, String.eqb_eq. }
  clearbody w. destruct (finalize_get s (VString out) (VString name)) as (_ & _ & _ & _ & _ & Het & Hpt' & _).
  destruct (formula_named "Expression" (PlanCtx.params n) "expr_id" "expr_table" _ (exprTable s) expr_value
    formatExprJsx expr_text e Hne He Het) as (xe & Hxe & Hfe); [by intros []|intros; apply format_expr_text|].
  destruct (formula_named "Predicate" (PlanCtx.params n) "pred_id" "pred_table" _ (predTable s) pred_value
    formatPredJsx (λ _, pt) p Hnp Hp Hpt') as (xp & Hxp & Hfp); [by intros []|done|].
  unfold DetailsPanel. rewrite Hcol, Hsel, Hplan, Hgraph. cbn [vis_nodes]. rewrite Hv.
  assert (truthy (VString (node_id n)) = true) as ->.
  { destruct (ok_ids s Hok) as (ks & Hks & _). assert (node_id n ∈ map node_num ks) as (k & -> & _)%list_elem_of_fmap.
    { rewrite <-Hks. by apply list_elem_of_fmap_2. }
    done. }
  cbn [negb orb truthy finalize]. rewrite El. cbn [shown mbind result_bind].
  unfold details_rows. cbn [vis_edges]. rewrite Ep. cbn [get_prop mbind result_bind].
  rewrite Hxe, Hxp. cbn [mbind result_bind]. rewrite Ei, Eo. cbn [shown mbind result_bind].
  rewrite incoming, outgoing, !neighbours_strings by done. cbn [mbind result_bind].
  rewrite Hfe, Hfp. cbn [mbind result_bind]. rewrite Hsrc, Hout. by destruct (inputs n).
Qed.

Definition sample_artifact : value := finalize sample_ctx' (VString "n4") (VString "p").
Definition sample_graph : VisGraph :=
  match (parsed ← parsePlan sample_artifact; layoutGraph sample_dagre default_options parsed) with
  | Ok g => g
  | Throw _ => {| vis_nodes := []; vis_edges := [] |}
  end.
(** The plan is shown and its third node selected. *)
Definition sample_store : Store := {|
  st_index := st_index initialStore;
  st_plan := {| planJson := sample_artifact; fileName := VString "p.plan.json"; graph := Some sample_graph;
                planLoading := false; planError := None |};
  st_source := st_source initialStore;
  st_canvas := {| view := initialView; selectedNodeId := VString "n3"; hoveredNodeId := VNull;
                  expandedFragments := []; autoCollapseThreshold := 200 |};
  st_registry := st_registry initialStore |}.
Definition sample_node : PlanNode :=
  default {| node_id := EmptyString; PlanCtx.op := EmptyString; inputs := []; PlanCtx.params := [];
             extensions := None |} (nodes sample_ctx' !! 2).

Lemma details_shown_witness :
  ∃ rows, DetailsPanel sample_store = Ok (Details "core::filter" rows) ∧
    Row "Inputs (1)" ["n1"] ∈ rows ∧ Row "Outputs (1)" ["n4"] ∈ rows ∧ Row "Predicate (p0)" ["true"] ∈ rows.
Proof.
  eexists. split.
  - apply (details_shown sample_dagre 7 sample_ctx' "n4" "p" sample_node default_options sample_graph
      sample_store None (Some ("p0", const_bool true)) "true").
    + exact sample_ctx'_reachable.
    + apply (list_elem_of_lookup_2 _ 2). by vm_compute.
    + by vm_compute.
    + reflexivity.
    + reflexivity.
    + by vm_compute.
    + reflexivity.
    + by vm_compute.
    + split_and!; by vm_compute.
    + intros k q [= <- <-]. by vm_compute.
  - split_and!.
    + apply (list_elem_of_lookup_2 _ 3). by vm_compute.
    + apply (list_elem_of_lookup_2 _ 4). by vm_compute.
    + apply (list_elem_of_lookup_2 _ 6). by vm_compute.
Defined.
