(* ===== verification/Canvas.v ===== *)
(** * Canvas: the drawing of the graph and what the pointer does to it
    (tools/visualizer/src/components/Canvas.tsx)

    The graph is drawn as a list of edges and nodes with places, colours and texts, from
    the store's graph and the nodes hovered and selected; PixiJS measures texts and the
    host computes the trigonometry of arrow heads.  The pointer selects nodes, pans and
    zooms through the store's view. *)

From Stdlib Require Import Floats.SpecFloat.
From S2P Require Import Prelude StateMonad Collections JsNumber JsValue PlanCtx ArtifactValidation.
From S2P Require Import VisGraph VisStore DetailsPanel.

Definition EDGE_COLOR : Z := 0xcccccc.
Definition EDGE_HOVER_COLOR : Z := 0x0092ff.
Definition ARROW_SIZE : number := num 8.

(** ** The drawing *)

Record drawn_edge := {
  start_ : number * number; end_ : number * number;
  edge_color : Z; faint : bool;              (* alpha 0.2 instead of 1 *)
  arrow : list (number * number);
}.
Record drawn_node := {
  at_ : number * number; size : number * number; fill : Z;
  dimmed : bool;                             (* alpha 0.3 and grey texts *)
  texts : list (string * (number * number)); (* texts with their places *)
  outlined : bool;                           (* the highlight of the selection *)
}.
Record scene := { edges_ : list drawn_edge; nodes_ : list drawn_node }.

Section drawing.
Context (text_size : Z → string → number * number).
Context (atan2 : number → number → number) (cos sin : number → number) (PI : number).

Definition half (x : number) : number := num_div x (num 2).

(** [hoveredNodeId] and the nodes joined to it *)
Definition connectedNodes (hovered : value) (g : VisGraph) : list value :=
  if truthy hovered then
    hovered :: flat_map (λ e, (if strict_equal (from e) hovered then [to e] else []) ++
                              (if strict_equal (to e) hovered then [from e] else [])) (vis_edges g)
  else [].

Definition arrow_head (x1 y1 x2 y2 : number) : list (number * number) :=
  let angle := atan2 (num_sub y2 y1) (num_sub x2 x1) in
  let arrowX := num_sub x2 (num_mul (cos angle) (num 2)) in
  let arrowY := num_sub y2 (num_mul (sin angle) (num 2)) in
  let side a := (num_sub arrowX (num_mul ARROW_SIZE (cos a)), num_sub arrowY (num_mul ARROW_SIZE (sin a))) in
  [(arrowX, arrowY); side (num_sub angle (num_div PI (num 6))); side (num_add angle (num_div PI (num 6)));
   (arrowX, arrowY)].

Definition isHighlighted (hovered : value) (e : VisEdge) : bool :=
  truthy hovered && (strict_equal (from e) hovered || strict_equal (to e) hovered).

(** An edge between nodes of the graph, from below the first to the top of the second. *)
Definition draw_edge (hovered : value) (g : VisGraph) (e : VisEdge) : option drawn_edge :=
  match node_get (vis_nodes g) (from e), node_get (vis_nodes g) (to e) with
  | Some fromNode, Some toNode =>
      let x1 := num_add (x fromNode) (half (width fromNode)) in
      let y1 := num_add (y fromNode) (height fromNode) in
      let x2 := num_add (x toNode) (half (width toNode)) in
      let y2 := y toNode in
      Some {| start_ := (x1, y1); end_ := (x2, y2);
              edge_color := if isHighlighted hovered e then EDGE_HOVER_COLOR else EDGE_COLOR;
              faint := truthy hovered && negb (isHighlighted hovered e);
              arrow := arrow_head x1 y1 x2 y2 |}
  | _, _ => None
  end.

(** [getNodeColor(node.op, node.isOutput)], which reads the operator unless it need not *)
Definition node_color (n : VisNode) : result Z :=
  if isOutput n then Ok nodeOutput
  else match op n with VString s => Ok (getNodeColor s false) | _ => Throw TypeError end.

Definition draw_node (hovered selected : value) (g : VisGraph) (kn : value * VisNode) : result drawn_node :=
  let n := kn.2 in
  let isDimmed := truthy hovered && negb (json_set_has (connectedNodes hovered g) kn.1) in
  fill ← node_color n;
  label ← template (label n);
  let '(labelWidth, labelHeight) := text_size 12 label in
  let centered w := half (num_sub (width n) w) in
  let texts :=
    match trace n with
    | Some (String c r) =>
        let traceText := "trace: " +:+ String c r in
        let '(traceWidth, traceHeight) := text_size 10 traceText in
        let totalHeight := num_add (num_add labelHeight traceHeight) (num 2) in
        let labelY := half (num_sub (height n) totalHeight) in
        [(label, (centered labelWidth, labelY));
         (traceText, (centered traceWidth, num_add (num_add labelY labelHeight) (num 2)))]
    | _ => [(label, (centered labelWidth, half (num_sub (height n) labelHeight)))]
    end in
  Ok {| at_ := (x n, y n); size := (width n, height n); fill := fill; dimmed := isDimmed; texts := texts;
        outlined := strict_equal kn.1 selected |}.

Definition draw (hovered selected : value) (g : VisGraph) : result scene :=
  let es := omap (draw_edge hovered g) (vis_edges g) in
  ns ← collect (draw_node hovered selected g) (vis_nodes g);
  Ok {| edges_ := es; nodes_ := ns |}.
End drawing.

(** ** The pointer *)

Record canvas := {
  isDragging : bool; lastPos : number * number;
  nodeClicked : bool;       (* a node took the press before the page's handler *)
  vis : machine }.

Definition with_canvas (d : bool) (pos : number * number) (clicked : bool) (c : M machine unit)
    (s : canvas) : canvas :=
  {| isDragging := d; lastPos := pos; nodeClicked := clicked; vis := (c (vis s)).2 |}.

(** What the listeners of a drawn node do. *)
Definition node_pointerdown (id : value) (s : canvas) : canvas :=
  with_canvas (isDragging s) (lastPos s) true (selectNode id) s.
Definition node_pointerenter (id : value) (s : canvas) : canvas :=
  with_canvas (isDragging s) (lastPos s) (nodeClicked s) (hoverNode id) s.
Definition node_pointerleave (s : canvas) : canvas :=
  with_canvas (isDragging s) (lastPos s) (nodeClicked s) (hoverNode VNull) s.

Definition handlePointerDown (onCanvas : bool) (pos : number * number) (s : canvas) : canvas :=
  if onCanvas then with_canvas true pos false (if nodeClicked s then mret tt else selectNode VNull) s
  else s.
Definition handlePointerMove (pos : number * number) (s : canvas) : canvas :=
  if isDragging s then
    let view := view (st_canvas (store (vis s))) in
    let dx := num_sub pos.1 (lastPos s).1 in
    let dy := num_sub pos.2 (lastPos s).2 in
    with_canvas true pos (nodeClicked s)
      (setView (Some (num_add (view_x view) dx)) (Some (num_add (view_y view) dy)) None) s
  else s.
Definition handlePointerUp (s : canvas) : canvas :=
  with_canvas false (lastPos s) (nodeClicked s) (mret tt) s.

Definition MIN_SCALE : number := Number "0.1".
Definition MAX_SCALE : number := num 4.

(** [mouse] is the pointer's place in the container. *)
Definition zoomed (deltaY : number) (mouse : number * number) (v : ViewState) : ViewState :=
  let zoomFactor := if num_ltb (num 0) deltaY then Number "0.9" else Number "1.1" in
  let newScale := num_max MIN_SCALE (num_min MAX_SCALE (num_mul (view_scale v) zoomFactor)) in
  let scaleRatio := num_div newScale (view_scale v) in
  {| view_x := num_sub mouse.1 (num_mul (num_sub mouse.1 (view_x v)) scaleRatio);
     view_y := num_sub mouse.2 (num_mul (num_sub mouse.2 (view_y v)) scaleRatio);
     view_scale := newScale |}.
Definition handleWheel (deltaY : number) (mouse : number * number) (s : canvas) : canvas :=
  let v := zoomed deltaY mouse (view (st_canvas (store (vis s)))) in
  with_canvas (isDragging s) (lastPos s) (nodeClicked s)
    (setView (Some (view_x v)) (Some (view_y v)) (Some (view_scale v))) s.

Inductive pointer_event :=
| NodeDown (id : value) | NodeEnter (id : value) | NodeLeave
| Down (onCanvas : bool) (pos : number * number) | Move (pos : number * number) | Up
| Wheel (deltaY : number) (mouse : number * number).

Definition step (s : canvas) (e : pointer_event) : canvas :=
  match e with
  | NodeDown id => node_pointerdown id s
  | NodeEnter id => node_pointerenter id s
  | NodeLeave => node_pointerleave s
  | Down onCanvas pos => handlePointerDown onCanvas pos s
  | Move pos => handlePointerMove pos s
  | Up => handlePointerUp s
  | Wheel deltaY mouse => handleWheel deltaY mouse s
  end.

(** ** The scale stays in its range *)

(** Rounding gives a number: mantissas stay nonnegative. *)
Lemma shr_1_nonneg r : (0 ≤ shr_m r)%Z → (0 ≤ shr_m (shr_1 r))%Z.
Proof. destruct r as [[|[q|q|]|] b1 b2]; cbn; lia. Qed.
Lemma shr_nonneg r e n : (0 ≤ shr_m r)%Z → (0 ≤ shr_m (shr r e n).1)%Z.
Proof.
  destruct n as [|p|p]; try done. cbn. revert r.
  induction p as [p IH|p IH|]; intros r H; cbn [iter_pos].
  - by apply IH, IH, shr_1_nonneg.
  - by apply IH, IH.
  - by apply shr_1_nonneg.
Qed.
Lemma shr_fexp_nonneg m e l : (0 ≤ m)%Z → (0 ≤ shr_m (shr_fexp prec emax m e l).1)%Z.
Proof. intros H. apply shr_nonneg. destruct l as [|[]]; done. Qed.
Lemma round_aux_number b m e l : (0 ≤ m)%Z → isNaN (binary_round_aux prec emax b m e l) = false.
Proof.
  intros H. unfold binary_round_aux. pose proof (shr_fexp_nonneg m e l H) as H1.
  destruct (shr_fexp prec emax m e l) as [r k]. cbn in H1.
  assert (0 ≤ round_nearest_even (shr_m r) (loc_of_shr_record r))%Z as H2.
  { unfold round_nearest_even. repeat case_match; lia. }
  pose proof (shr_fexp_nonneg _ k loc_Exact H2) as H3.
  destruct (shr_fexp prec emax _ k loc_Exact) as [r' k']. cbn in H3.
  destruct (shr_m r'); [done| |lia]. by case_match.
Qed.
Lemma mul_number x s m e : isNaN x = false → isNaN (num_mul x (S754_finite s m e)) = false.
Proof. destruct x; try done. intros _. cbn. by apply round_aux_number. Qed.

Lemma num_ltb_asym x y : num_ltb x y = true → num_ltb y x = false.
Proof.
  unfold num_ltb, SFltb. intros H. assert (SFcompare y x = option_map CompOpp (SFcompare x y)) as ->.
  { destruct x as [[]|[]| |[] m e], y as [[]|[]| |[] m' e']; try done; cbn;
      rewrite (Z.compare_antisym e e'); destruct (e ?= e')%Z; try done; cbn;
      rewrite (Pos.compare_cont_antisym m m'); cbn; by destruct (Pos.compare_cont Eq m m'). }
  by destruct (SFcompare x y) as [[]|].
Qed.

Definition in_range (s : number) : Prop :=
  isNaN s = false ∧ num_ltb s MIN_SCALE = false ∧ num_ltb MAX_SCALE s = false.

Lemma clamp_in_range p : isNaN p = false → in_range (num_max MIN_SCALE (num_min MAX_SCALE p)).
Proof.
  intros Hp. unfold num_min. rewrite Hp, orb_false_r.
  assert (isNaN MAX_SCALE = false) as -> by by vm_compute.
  assert (in_range MIN_SCALE) as Hmin by by vm_compute.
  assert (in_range (num_max MIN_SCALE MAX_SCALE)) as Hmax by by vm_compute.
  destruct (num_ltb p MAX_SCALE) eqn:Hlt; [|by destruct p].
  unfold num_max. rewrite Hp, orb_false_r. assert (isNaN MIN_SCALE = false) as -> by by vm_compute.
  destruct (num_ltb MIN_SCALE p) eqn:Hgt.
  - split_and!; [done|by apply num_ltb_asym..].
  - assert (MIN_SCALE = S754_finite false 7205759403792794 (-56)) as E by by vm_compute.
    rewrite E in *. exact Hmin.
Qed.

Definition scale_of (s : canvas) : number := view_scale (view (st_canvas (store (vis s)))).

(** ** What the pointer does *)

(** A press on a node reaches the node's listener first. *)
Inductive gesture :=
| PressNode (id : value) (pos : number * number)
| PressBackground (pos : number * number)
| MoveTo (pos : number * number) | Release | Scroll (deltaY : number) (mouse : number * number)
| Over (id : value) | Out.
Definition events_of (g : gesture) : list pointer_event :=
  match g with
  | PressNode id pos => [NodeDown id; Down true pos]
  | PressBackground pos => [Down true pos]
  | MoveTo pos => [Move pos]
  | Release => [Up]
  | Scroll deltaY mouse => [Wheel deltaY mouse]
  | Over id => [NodeEnter id]
  | Out => [NodeLeave]
  end.
Definition selects (g : gesture) (before : value) : value :=
  match g with PressNode id _ => id | PressBackground _ => VNull | _ => before end.
Definition hovers (g : gesture) (before : value) : value :=
  match g with Over id => id | Out => VNull | _ => before end.

Definition same_but_canvas (s s' : canvas) : Prop :=
  st_plan (store (vis s')) = st_plan (store (vis s)) ∧ st_index (store (vis s')) = st_index (store (vis s)) ∧
  st_source (store (vis s')) = st_source (store (vis s)) ∧
  st_registry (store (vis s')) = st_registry (store (vis s)) ∧
  history (vis s') = history (vis s) ∧ pending (vis s') = pending (vis s).

Lemma gesture_done g s :
  in_range (scale_of s) → nodeClicked s = false →
  let s' := foldl step s (events_of g) in
  in_range (scale_of s') ∧ nodeClicked s' = false ∧ same_but_canvas s s' ∧
  selectedNodeId (st_canvas (store (vis s'))) = selects g (selectedNodeId (st_canvas (store (vis s)))) ∧
  hoveredNodeId (st_canvas (store (vis s'))) = hovers g (hoveredNodeId (st_canvas (store (vis s)))).
Proof.
  destruct s as [d pos c [[si sp ss [v sel hov ex th] sr] flag h ops]]. intros Hr Hc. cbn in Hc. subst c.
  unfold same_but_canvas. destruct g as [id p|p|p| |dy mouse|id|]; try (cbn; done).
  - cbn. unfold handlePointerMove. cbn. by destruct d.
  - split_and!; try done. apply clamp_in_range. destruct Hr as [Hr _]. unfold scale_of in Hr. cbn in Hr.
    destruct (num_ltb (num 0) dy);
      [change (Number "0.9") with (S754_finite false 8106479329266893 (-53))
      |change (Number "1.1") with (S754_finite false 4953959590107546 (-52))]; by apply mul_number.
Qed.

(** C35: The pointer does to the view what it should and to nothing else.  Through any
    presses, movements and turns of the wheel the scale stays between 0.1 and 4 and never
    becomes NaN; the node selected is the one pressed last, or none after a press beside
    the nodes; the node hovered is the one the pointer is over; and the plan, the other
    parts of the store, the history and the requests under way are untouched. *)
Theorem pointer_effects gs s :
  in_range (scale_of s) → nodeClicked s = false →
  let s' := foldl step s (flat_map events_of gs) in
  in_range (scale_of s') ∧ same_but_canvas s s' ∧
  selectedNodeId (st_canvas (store (vis s'))) =
    foldl (λ v g, selects g v) (selectedNodeId (st_canvas (store (vis s)))) gs ∧
  hoveredNodeId (st_canvas (store (vis s'))) =
    foldl (λ v g, hovers g v) (hoveredNodeId (st_canvas (store (vis s)))) gs.
Proof.
  revert s. induction gs as [|g gs IH]; intros s Hr Hc; [done|]. cbn [flat_map foldl]. rewrite foldl_app.
  destruct (gesture_done g s Hr Hc) as (Hr' & Hc' & (H1 & H2 & H3 & H4 & H5 & H6) & Hs & Hh).
  destruct (IH _ Hr' Hc') as (Hr'' & (K1 & K2 & K3 & K4 & K5 & K6) & Ks & Kh).
  split; [done|]. unfold same_but_canvas. rewrite K1, K2, K3, K4, K5, K6, Ks, Kh, Hs, Hh. done.
Qed.

Definition sample_canvas : canvas :=
  {| isDragging := false; lastPos := (num 0, num 0); nodeClicked := false; vis := sample_initial |}.

Lemma pointer_effects_witness :
  let s' := foldl step sample_canvas (flat_map events_of
    [PressNode (VString "n0") (num 10, num 10); MoveTo (num 15, num 10); Release;
     Scroll (num (-1)) (num 0, num 0); Over (VString "n1")]) in
  in_range (scale_of s') ∧ selectedNodeId (st_canvas (store (vis s'))) = VString "n0" ∧
  num_to_string (scale_of s') = "1.1".
Proof.
  intros s'. destruct (pointer_effects
    [PressNode (VString "n0") (num 10, num 10); MoveTo (num 15, num 10); Release;
     Scroll (num (-1)) (num 0, num 0); Over (VString "n1")] sample_canvas) as (Hr & _ & Hs & _).
  - by vm_compute.
  - reflexivity.
  - split; [exact Hr|]. split; [exact Hs|]. by vm_compute.
Defined.

(** ** The drawing shows the plan *)

Lemma laid_out_shows dagre i s out name options g :
  PlanCtx.reachable i s →
  (parsed ← parsePlan (finalize s (VString out) (VString name)); layoutGraph dagre options parsed) = Ok g →
  vis_edges g = flat_map edges_of (nodes s) ∧ Forall2 (shows out) (vis_nodes g) (nodes s).
Proof.
  intros Hr Hg. destruct (parsePlan_value i s out name Hr) as (vs & Hp & Hs). rewrite Hp in Hg.
  cbn [mbind result_bind] in Hg. unfold layoutGraph in Hg.
  destruct (dagre options _ _) as [center|]; [|done]. cbn [mbind result_bind] in Hg. injection Hg as <-.
  split; [done|]. cbn [vis_nodes]. apply Forall2_fmap_l. eapply Forall2_impl; [exact Hs|].
  intros v n (H1 & H2 & H3 & H4 & H5 & H6 & H7). unfold shows. cbn [fst snd].
  cbv beta delta [compose]. cbn [fst snd]. by destruct (center v.1) as [[]|].
Qed.

Lemma shown_node_get out vs ns n :
  Forall2 (shows out) vs ns → NoDup (map node_id ns) → n ∈ ns →
  ∃ w, node_get vs (VString (node_id n)) = Some w.
Proof.
  intros H Hnd Hn. destruct (node_get_shown out (λ v, v) vs ns n) as (v & Hv & _); try done.
  rewrite map_id in Hv. eauto.
Qed.

(** The edges are the uses of nodes by nodes. *)
Lemma plan_edge ns a b :
  (∃ e, e ∈ flat_map edges_of ns ∧ from e = VString a ∧ to e = VString b) ↔
  ∃ m, m ∈ ns ∧ node_id m = b ∧ a ∈ refs m.
Proof.
  split.
  - intros (e & (m & Hm & He)%list_elem_of_In%in_flat_map & Hf & Ht). apply list_elem_of_In in Hm, He.
    destruct (edges_of_refs m) as [Hfs Hts]. eapply Forall_forall in Hts; [|exact He]. rewrite Ht in Hts.
    injection Hts as ->. exists m. split_and!; [done..|].
    assert (VString a ∈ map VString (refs m)) as (r & [= ->] & Hr)%list_elem_of_fmap; [|done].
    rewrite <-Hfs, <-Hf. by apply list_elem_of_fmap_2.
  - intros (m & Hm & <- & Ha). destruct (edges_of_refs m) as [Hfs Hts].
    assert (VString a ∈ map from (edges_of m)) as (e & He & Hin)%list_elem_of_fmap.
    { rewrite Hfs. by apply list_elem_of_fmap_2. }
    exists e. split_and!; [|done|by eapply Forall_forall in Hts].
    apply list_elem_of_In, in_flat_map. exists m. by split; apply list_elem_of_In.
Qed.

Lemma plan_edge_strings ns e :
  e ∈ flat_map edges_of ns → ∃ a m, m ∈ ns ∧ from e = VString a ∧ to e = VString (node_id m).
Proof.
  intros (m & Hm & He)%list_elem_of_In%in_flat_map. apply list_elem_of_In in Hm, He.
  destruct (edges_of_refs m) as [Hfs Hts]. eapply Forall_forall in Hts; [|exact He].
  assert (from e ∈ map VString (refs m)) as (a & Ha & _)%list_elem_of_fmap; [|eauto].
  rewrite <-Hfs. by apply list_elem_of_fmap_2.
Qed.

(** Two nodes of the plan joined by an edge, in either direction. *)
Definition joined (n h : PlanNode) : Prop := node_id n ∈ refs h ∨ node_id h ∈ refs n.

Lemma strict_string v t : strict_equal v (VString t) = true ↔ v = VString t.
Proof.
  split; [|intros ->; apply String.eqb_refl]. destruct v; try done. by intros ->%String.eqb_eq.
Qed.

Lemma same_string v t : same_json (VString t) v = true ↔ v = VString t.
Proof.
  split; [|intros ->; apply String.eqb_refl]. destruct v; try done. by intros ->%String.eqb_eq.
Qed.

Lemma connected_nodes g ns h n :
  vis_edges g = flat_map edges_of ns → NoDup (map node_id ns) → h ∈ ns → n ∈ ns → node_id h ≠ EmptyString →
  json_set_has (connectedNodes (VString (node_id h)) g) (VString (node_id n)) = true ↔ n = h ∨ joined n h.
Proof.
  intros Hg Hnd Hh Hn Hne. unfold json_set_has, connectedNodes. rewrite Hg.
  assert (truthy (VString (node_id h)) = true) as -> by by destruct (node_id h).
  assert (∀ m k, m ∈ ns → k ∈ ns → node_id m = node_id k → m = k) as Hinj.
  { intros m k Hm Hk E. apply list_elem_of_lookup in Hm as [i Hi], Hk as [j Hj].
    assert (i = j) as -> by (eapply NoDup_lookup; [exact Hnd|apply list_lookup_fmap_Some|apply list_lookup_fmap_Some]; eauto).
    congruence. }
  rewrite existsb_exists. setoid_rewrite same_string. setoid_rewrite <-list_elem_of_In. split.
  - intros (v & Hv & ->). apply elem_of_cons in Hv as [[= E]|Hv]; [left; by apply Hinj|right].
    apply list_elem_of_In, in_flat_map in Hv as (e & He & Hv). apply list_elem_of_In in He, Hv.
    apply elem_of_app in Hv as [Hv|Hv]; case_match eqn:Hs; try by apply not_elem_of_nil in Hv.
    + apply strict_string in Hs. apply list_elem_of_singleton in Hv. right.
      destruct (proj1 (plan_edge ns (node_id h) (node_id n))) as (m & Hm & E & Ha); [by exists e|].
      by apply Hinj in E as ->.
    + apply strict_string in Hs. apply list_elem_of_singleton in Hv. left.
      destruct (proj1 (plan_edge ns (node_id n) (node_id h))) as (m & Hm & E & Ha); [by exists e|].
      by apply Hinj in E as ->.
  - intros Hj. exists (VString (node_id n)). split; [|done]. destruct Hj as [->|[Hj|Hj]]; [left|right..].
    + destruct (proj2 (plan_edge ns (node_id n) (node_id h))) as (e & He & Hf & Ht); [by exists h|].
      apply list_elem_of_In, in_flat_map. exists e. split; [by apply list_elem_of_In|].
      apply list_elem_of_In, elem_of_app. right. rewrite Ht, Hf. cbn. rewrite String.eqb_refl. by left.
    + destruct (proj2 (plan_edge ns (node_id h) (node_id n))) as (e & He & Hf & Ht); [by exists n|].
      apply list_elem_of_In, in_flat_map. exists e. split; [by apply list_elem_of_In|].
      apply list_elem_of_In, elem_of_app. left. rewrite Ht, Hf. cbn. rewrite String.eqb_refl. by left.
Qed.

Section scene.
Context (text_size : Z → string → number * number).
Context (atan2 : number → number → number) (cos sin : number → number) (PI : number).

(** A line from the middle of the lower side of the first node to that of the upper side
    of the second. *)
Definition line_between (g : VisGraph) (e : VisEdge) (d : drawn_edge) : Prop :=
  ∃ a b, node_get (vis_nodes g) (from e) = Some a ∧ node_get (vis_nodes g) (to e) = Some b ∧
    start_ d = (num_add (x a) (half (width a)), num_add (y a) (height a)) ∧
    end_ d = (num_add (x b) (half (width b)), y b).

Lemma drawn_edges out hovered g ns :
  Forall2 (shows out) (vis_nodes g) ns → NoDup (map node_id ns) →
  Forall (forward ns) (vis_edges g) →
  Forall2 (λ d e, line_between g e d ∧
      edge_color d = (if isHighlighted hovered e then EDGE_HOVER_COLOR else EDGE_COLOR) ∧
      faint d = truthy hovered && negb (isHighlighted hovered e))
    (omap (draw_edge atan2 cos sin PI hovered g) (vis_edges g)) (vis_edges g).
Proof.
  intros Hs Hnd H. induction H as [|e es (i & j & n & m & _ & Hi & Hj & Hf & Ht) _ IH]; [constructor|].
  apply list_elem_of_lookup_2 in Hi, Hj.
  destruct (shown_node_get out _ ns n Hs Hnd Hi) as [a Ha], (shown_node_get out _ ns m Hs Hnd Hj) as [b Hb].
  cbn [omap list_omap]. unfold draw_edge at 1. rewrite Hf, Ht, Ha, Hb. constructor; [|exact IH].
  split; [|done]. exists a, b. by rewrite Hf, Ht.
Qed.

(** What the drawing says of a node of the plan. *)
Definition drawn_as (out : string) (hovered selected : value) (ns : list PlanNode) (d : drawn_node)
    (n : PlanNode) : Prop :=
  (∃ pos rest, texts d = (PlanCtx.op n, pos) :: rest) ∧
  fill d = getNodeColor (PlanCtx.op n) (String.eqb (node_id n) out) ∧
  (outlined d = true ↔ selected = VString (node_id n)) ∧
  (dimmed d = true ↔ ∃ h, h ∈ ns ∧ hovered = VString (node_id h) ∧ n ≠ h ∧ ¬ joined n h).

Lemma drawn_node_as out hovered selected g ns v n :
  vis_edges g = flat_map edges_of ns → NoDup (map node_id ns) → Forall (λ n, node_id n ≠ EmptyString) ns →
  hovered = VNull ∨ (∃ h, h ∈ ns ∧ hovered = VString (node_id h)) → n ∈ ns → shows out v n →
  ∃ d, draw_node text_size hovered selected g v = Ok d ∧ drawn_as out hovered selected ns d n.
Proof.
  intros Hg Hnd Hne Hh Hn (Hk & _ & Ho & Hl & _ & _ & Hout). unfold draw_node, node_color.
  assert ((if isOutput v.2 then Ok nodeOutput else match op v.2 with
    | VString s => Ok (getNodeColor s false) | _ => Throw TypeError end) =
    Ok (getNodeColor (PlanCtx.op n) (String.eqb (node_id n) out))) as ->.
  { rewrite Ho. assert (isOutput v.2 = String.eqb (node_id n) out) as ->.
    { apply eq_true_iff_eq. by rewrite Hout, String.eqb_eq. }
    by destruct (String.eqb (node_id n) out). }
  rewrite Hl. cbn [template mbind result_bind]. destruct (text_size 12 (PlanCtx.op n)) as [lw lh].
  eexists. split; [reflexivity|]. unfold drawn_as. cbn [texts fill outlined dimmed].
  split; [|split; [done|split]].
  - destruct (trace v.2) as [[|c r]|]; try (by eexists _, _).
    destruct (text_size 10 _) as [tw th]. by eexists _, _.
  - rewrite Hk. exact (same_string selected (node_id n)).
  - rewrite Hk. destruct Hh as [->|(h & Hh & ->)].
    { split; [done|]. by intros (h & _ & [=] & _). }
    pose proof Hne as Hne'. eapply Forall_forall in Hne'; [|exact Hh].
    assert (truthy (VString (node_id h)) = true) as -> by by destruct (node_id h).
    cbn [andb]. rewrite negb_true_iff, <-not_true_iff_false, (connected_nodes g ns h n) by done.
    split.
    + intros H. exists h. split_and!; [done..| |]; intros E; apply H; [by left|by right].
    + intros (h' & Hh' & [= E] & Hnh & Hj).
      assert (h = h') as <-; [|by intros [?|?]].
      apply list_elem_of_lookup in Hh as [i Hi], Hh' as [j Hj'].
      assert (i = j) as ->; [|congruence].
      eapply NoDup_lookup; [exact Hnd|apply list_lookup_fmap_Some|apply list_lookup_fmap_Some]; eauto.
Qed.

Lemma collect_related {A B C} (f : A → result B) (R : A → C → Prop) (Q : B → C → Prop) l cs :
  Forall2 R l cs → (∀ a c, c ∈ cs → R a c → ∃ b, f a = Ok b ∧ Q b c) →
  ∃ bs, collect f l = Ok bs ∧ Forall2 Q bs cs.
Proof.
  induction 1 as [|a c l cs Ha _ IH]; intros Hf; [by exists []|].
  destruct (Hf a c) as (b & Hb & HQ); [left|done|].
  destruct IH as (bs & Hbs & HQs); [intros a' c' Hc; apply Hf; by right|].
  exists (b :: bs). cbn. rewrite Hb, Hbs. split; [done|by constructor].
Qed.

(** C38: The canvas draws the plan.  The graph of the artifact of any sequence of calls is
    drawn completely, with nothing else: for every use of a node by another one a line from
    below the first to the top of the second, for every node a box with its operator's name
    and colour, outlined exactly when it is selected.  While a node is hovered, the lines
    that end at it are highlighted and the others faint, and a node is dimmed exactly when
    no line joins it to the hovered one; otherwise nothing is. *)
Theorem canvas_draws_plan dagre i s out name options g hovered selected :
  PlanCtx.reachable i s →
  (parsed ← parsePlan (finalize s (VString out) (VString name)); layoutGraph dagre options parsed) = Ok g →
  hovered = VNull ∨ (∃ h, h ∈ nodes s ∧ hovered = VString (node_id h)) →
  ∃ sc, draw text_size atan2 cos sin PI hovered selected g = Ok sc ∧
    Forall2 (λ d e, line_between g e d ∧
        edge_color d = (if isHighlighted hovered e then EDGE_HOVER_COLOR else EDGE_COLOR) ∧
        faint d = truthy hovered && negb (isHighlighted hovered e))
      (edges_ sc) (flat_map edges_of (nodes s)) ∧
    Forall2 (drawn_as out hovered selected (nodes s)) (nodes_ sc) (nodes s).
Proof.
  intros Hr Hg Hh. apply laid_out_shows with (1 := Hr) in Hg as [He Hs]. apply reachable_ok in Hr as Hok.
  pose proof (plan_ids_NoDup s Hok) as Hnd.
  assert (Forall (λ n, node_id n ≠ EmptyString) (nodes s)) as Hne.
  { apply Forall_forall. intros n Hn. destruct (ok_ids s Hok) as (ks & Hks & _).
    assert (node_id n ∈ map node_num ks) as (k & -> & _)%list_elem_of_fmap; [|done].
    rewrite <-Hks. by apply list_elem_of_fmap_2. }
  assert (∃ ds, collect (draw_node text_size hovered selected g) (vis_nodes g) = Ok ds ∧
    Forall2 (drawn_as out hovered selected (nodes s)) ds (nodes s)) as (ds & Hds & Hall).
  { apply collect_related with (shows out); [done|]. intros v n Hn Hv. by apply drawn_node_as. }
  unfold draw. rewrite Hds. eexists. split; [reflexivity|]. split; [|exact Hall].
  cbn [edges_]. rewrite <-He. apply (drawn_edges out hovered g (nodes s)); [done..|].
  rewrite He. by apply edges_forward.
Qed.
End scene.

(** The sample plan of DetailsPanel.v with its third node hovered: the fourth node is joined
    to it, the first is not. *)
Definition flat_text (size : Z) (s : string) : number * number := (num (Z.of_nat (String.length s)), num 10).

Lemma canvas_draws_plan_witness :
  ∃ sc, draw flat_text (λ _ _, num 0) (λ x, x) (λ x, x) (num 3) (VString "n3") VNull sample_graph = Ok sc ∧
    length (edges_ sc) = 4 ∧ map dimmed (nodes_ sc) = [true; false; false; false] ∧
    map faint (edges_ sc) = [true; false; true; false].
Proof.
  destruct (canvas_draws_plan flat_text (λ _ _, num 0) (λ x, x) (λ x, x) (num 3) sample_dagre 7 sample_ctx' "n4" "p"
    default_options sample_graph (VString "n3") VNull) as (sc & Hsc & _).
  - exact sample_ctx'_reachable.
  - by vm_compute.
  - right. exists sample_node. split; [apply (list_elem_of_lookup_2 _ 2); by vm_compute|by vm_compute].
  - exists sc. split; [exact Hsc|]. vm_compute in Hsc. injection Hsc as <-. by vm_compute.
Defined.
