(* ===== verification/DockLayout.v ===== *)
(** * DockLayout: the panels beside each other
    (tools/visualizer/src/components/DockLayout.tsx and MenuBar.tsx)

    The dockview library arranges the panels in groups of tabs; it is an interface, a class
    of the operations that the component calls, with what its documentation says of them
    as laws.  The component keeps one arrangement for viewing and one for editing in the
    browser's storage, with each panel's last place, so that a panel that was closed comes
    back where it was.  The menu of App adds panels. *)

From S2P Require Import Prelude StateMonad Collections JsNumber JsValue StableStringify Json.
From S2P Require Import Preferences VisGraph VisStore.

(** ** dockview *)

(** Where a panel is put: in a group of its own beside another panel, or in a group at an
    index, which comes from the storage. *)
Inductive position := RightOf (panel : string) | InGroup (group : string) (index : value).

Class Dockview (D : Type) := {
  groups : D → list (string * list string);      (* ids, with their panels in order *)
  width : D → number;
  clear : D → D;
  addPanel : string → string → option position → M D unit;    (* id and title *)
  setWidth : string → number → M D unit;         (* of the group with this panel *)
  fromJSON : value → M D unit;
  toJSON : D → value;
}.

Section dock.
Context {D : Type} `{Dockview D} (enabled : bool) (fits : storage → bool).

Definition panels (d : D) : list string := flat_map snd (groups d).
Definition getPanel (d : D) (id : string) : bool := existsb (String.eqb id) (panels d).

(** ** State *)

(** The component's state and refs, the mode it is given, the timers that will set sizes,
    the panels that App's menu knows of and the storage. *)
Record dock := {
  api : option D;
  mode_ : mode;
  modeRef : mode;
  initializedMode : option mode;
  existingPanels : list string;
  timers : list mode;
  menuPanels : list string;
  local : storage;
}.

Definition with_api (d : D) (p : dock) : dock :=
  {| api := Some d; mode_ := mode_ p; modeRef := modeRef p; initializedMode := initializedMode p;
     existingPanels := existingPanels p; timers := timers p; menuPanels := menuPanels p; local := local p |}.
Definition with_modes (m r : mode) (i : option mode) (p : dock) : dock :=
  {| api := api p; mode_ := m; modeRef := r; initializedMode := i;
     existingPanels := existingPanels p; timers := timers p; menuPanels := menuPanels p; local := local p |}.
Definition with_timers (l : list mode) (p : dock) : dock :=
  {| api := api p; mode_ := mode_ p; modeRef := modeRef p; initializedMode := initializedMode p;
     existingPanels := existingPanels p; timers := l; menuPanels := menuPanels p; local := local p |}.
Definition with_local (s : storage) (p : dock) : dock :=
  {| api := api p; mode_ := mode_ p; modeRef := modeRef p; initializedMode := initializedMode p;
     existingPanels := existingPanels p; timers := timers p; menuPanels := menuPanels p; local := s |}.

(** A call of the api. *)
Definition on_api (c : M D unit) : M dock unit := λ p,
  match api p with
  | Some d => let '(r, d') := c d in (r, with_api d' p)
  | None => (Throw TypeError, p)
  end.
(** Code that runs only when there is an api: [if (!api) return]. *)
Definition when_ready (f : D → M dock unit) : M dock unit :=
  p ← StateMonad.get; match api p with Some d => f d | None => mret tt end.
Definition store (f : dock → storage → storage) : M dock unit := modify (λ p, with_local (f p (local p)) p).

(** ** Places *)

Definition panelTitles : list (string * string) :=
  [("canvas", "Canvas"); ("details", "Details"); ("editor", "Editor"); ("source", "Source")].
Definition title (id : string) : string := default EmptyString (map_get panelTitles id).
(** What fills a panel; a canvas is CanvasLife.v's, which has a hint instead when there is no
    plan. *)
Inductive component := CanvasPanel | DetailsPanelWrapper | EditorPanelWrapper | SourcePanelWrapper.
Definition components : list (string * component) :=
  [("canvas", CanvasPanel); ("details", DetailsPanelWrapper); ("editor", EditorPanelWrapper);
   ("source", SourcePanelWrapper)].

(** [panel.group] and the panel's index in it. *)
Definition group_of (d : D) (id : string) : option (string * list string) :=
  List.find (λ g, existsb (String.eqb id) g.2) (groups d).
Fixpoint findIndex (id : string) (l : list string) : nat :=
  match l with [] => 0 | x :: l' => if String.eqb x id then 0 else S (findIndex id l') end.
Definition place (group : string) (index : nat) : value :=
  VObject [("groupId", VString group); ("index", VNumber (num (Z.of_nat index)))].

(** [{ ...positions }] of an object *)
Definition own_properties (v : value) : object := match v with VObject o => obj_spread [] o | _ => [] end.

Definition panel_position (d : D) (positions : object) (id : string) : object :=
  match group_of d id with
  | Some (group, members) => obj_assign positions id (place group (findIndex id members))
  | None => positions
  end.
Definition savePanelPositions (d : D) (m : mode) (s : storage) : storage :=
  let positions := own_properties (getPanelPositions enabled s m) in
  setPanelPositions enabled fits s m (VObject (foldl (panel_position d) positions (panels d))).

(** ** Layouts *)

Definition default_panels (m : mode) : M D unit :=
  modify clear ;;
  match m with
  | Edit =>
      addPanel "editor" "Editor" None ;;
      addPanel "canvas" "Canvas" (Some (RightOf "editor")) ;;
      addPanel "details" "Details" (Some (RightOf "canvas"))
  | View =>
      addPanel "canvas" "Canvas" None ;;
      addPanel "details" "Details" (Some (RightOf "canvas"))
  end.
Definition buildDefaultLayout (m : mode) : M dock unit :=
  on_api (default_panels m) ;; modify (λ p, with_timers (timers p ++ [m]) p).

(** What the timer does: initial sizes, errors ignored. *)
Definition initial_sizes (m : mode) : M D unit :=
  try_catch
    (d ← StateMonad.get;
     let editorGroup := match m with Edit => getPanel d "editor" | View => false end in
     let detailsGroup := getPanel d "details" in
     (if editorGroup then setWidth "editor" (num_mul (width d) (Number "0.4")) else mret tt) ;;
     d ← StateMonad.get;
     (if detailsGroup then setWidth "details" (num_mul (width d) (Number "0.25")) else mret tt))
    (λ _, mret tt).

(** The set of the panels shown goes to the component's state and to App's. *)
Definition updateExistingPanels : M dock unit := when_ready (λ d, modify (λ p,
  {| api := api p; mode_ := mode_ p; modeRef := modeRef p; initializedMode := initializedMode p;
     existingPanels := panels d; timers := timers p; menuPanels := panels d; local := local p |})).

(** [if (savedLayout) try fromJSON catch build default; else build default] *)
Definition load_layout : M dock unit :=
  p ← StateMonad.get;
  let savedLayout := getDockLayout enabled (local p) (mode_ p) in
  if truthy savedLayout
  then try_catch (on_api (fromJSON savedLayout)) (λ _, buildDefaultLayout (mode_ p))
  else buildDefaultLayout (mode_ p).

Definition set_initialized : M dock unit := modify (λ p, with_modes (mode_ p) (modeRef p) (Some (mode_ p)) p).

(** The component mounts and dockview, empty, calls [onReady]. *)
Definition handleReady (fresh : D) : M dock unit :=
  modify (with_api fresh) ;;
  load_layout ;;
  set_initialized ;;
  updateExistingPanels ;;
  when_ready (λ d, store (λ p, savePanelPositions d (mode_ p))).
Definition mount (m : mode) (fresh : D) : M dock unit :=
  modify (λ p, {| api := None; mode_ := m; modeRef := m; initializedMode := None; existingPanels := [];
                  timers := []; menuPanels := menuPanels p; local := local p |}) ;;
  handleReady fresh.

(** The listeners of dockview's events. *)
Definition onDidLayoutChange : M dock unit :=
  when_ready (λ d,
    store (λ p s, savePanelPositions d (modeRef p) (setDockLayout enabled fits s (modeRef p) (toJSON d)))) ;;
  updateExistingPanels.
Definition onDidRemovePanel : M dock unit := updateExistingPanels.

(** The effects when App gives another mode. *)
Definition mode_effect : M dock unit :=
  p ← StateMonad.get;
  match api p with
  | None => mret tt
  | Some d =>
      if bool_decide (initializedMode p = Some (mode_ p)) then mret tt
      else
        match initializedMode p with
        | Some m => store (λ _ s, setDockLayout enabled fits s m (toJSON d))
        | None => mret tt
        end ;;
        load_layout ;;
        set_initialized ;;
        updateExistingPanels
  end.
Definition mode_changes (m : mode) : M dock unit :=
  modify (λ p, with_modes m m (initializedMode p) p) ;; mode_effect.

(** ** The menu *)

(** [api.groups.find(g => g.id === savedPos.groupId)], whose member is read for each group *)
Definition saved_group (d : D) (savedPos : value) : result (option string) :=
  match groups d with
  | [] => Ok None
  | gs =>
      i ← get_prop savedPos "groupId";
      Ok (fst <$> List.find (λ g, strict_equal (VString g.1) i) gs)
  end.
Definition saved_position (d : D) (savedPos : value) : result (option position) :=
  if truthy savedPos then
    g ← saved_group d savedPos;
    match g with
    | Some group => index ← get_prop savedPos "index"; Ok (Some (InGroup group index))
    | None => Ok None
    end
  else Ok None.

Definition add_panel (panelId : string) : M dock unit :=
  when_ready (λ d,
    if getPanel d panelId then mret tt
    else
      p ← StateMonad.get;
      savedPos ← lift (get_prop (getPanelPositions enabled (local p) (mode_ p)) panelId);
      position ← lift (saved_position d savedPos);
      on_api (addPanel panelId (title panelId)
        (match position with Some at_ => Some at_ | None => RightOf <$> head (panels d) end)) ;;
      updateExistingPanels ;;
      when_ready (λ d, store (λ p s, setDockLayout enabled fits s (mode_ p) (toJSON d)))).

Definition resetLayout : M dock unit :=
  when_ready (λ _,
    store (λ p s, removePanelPositions enabled (removeDockLayout enabled s (mode_ p)) (mode_ p)) ;;
    p ← StateMonad.get; buildDefaultLayout (mode_ p) ;;
    updateExistingPanels).

(** MenuBar's items: label, panel, and whether it is disabled. *)
Definition addItems (existing : list string) (m : mode) : list (string * string * bool) :=
  let has id := existsb (String.eqb id) existing in
  [("Editor", "editor", has "editor" || bool_decide (m = View));
   ("Canvas", "canvas", has "canvas");
   ("Details", "details", has "details");
   ("Source", "source", has "source" || bool_decide (m = Edit))].

Definition menu_click (i : nat) : M dock unit :=
  p ← StateMonad.get;
  match addItems (menuPanels p) (mode_ p) !! i with
  | Some (_, panelId, false) => add_panel panelId
  | _ => mret tt
  end.

(** ** Events *)

Inductive event :=
| Mount (m : mode) (fresh : D)
| ModeChanged (m : mode)
| Arranged (d : D)               (* the user moved, resized or closed panels *)
| LayoutChanged
| PanelRemoved
| MenuClick (i : nat)
| ResetClick
| Sized.

Definition handle (e : event) : M dock unit :=
  match e with
  | Mount m fresh => mount m fresh
  | ModeChanged m => mode_changes m
  | Arranged d => when_ready (λ _, modify (with_api d))
  | LayoutChanged => onDidLayoutChange
  | PanelRemoved => onDidRemovePanel
  | MenuClick i => menu_click i
  | ResetClick => resetLayout
  | Sized =>
      p ← StateMonad.get;
      match timers p with
      | m :: ms => modify (with_timers ms) ;; on_api (initial_sizes m)
      | [] => mret tt
      end
  end.
Definition step (p : dock) (e : event) : dock := (handle e p).2.
Definition run (p : dock) (es : list event) : dock := foldl step p es.

(** Before App shows a plan for the first time. *)
Definition unmounted (s : storage) : dock :=
  {| api := None; mode_ := View; modeRef := View; initializedMode := None; existingPanels := [];
     timers := []; menuPanels := []; local := s |}.
End dock.
Arguments dock : clear implicits.
Arguments event : clear implicits.

(** ** What dockview promises *)

Definition position_ok (pos : option position) (gs : list (string * list string)) : Prop :=
  match pos with
  | None => gs = []
  | Some (RightOf p) => p ∈ flat_map snd gs
  | Some (InGroup g _) => g ∈ gs.*1
  end.

(** A panel was put in a group that is there, at the index if it has one, or in a group of
    its own.  There are four panels, so that only their indices are promised. *)
Definition placed (id : string) (pos : option position) (gs gs' : list (string * list string)) : Prop :=
  match pos with
  | Some (InGroup g index) => ∃ pre post l1 l2,
      gs = pre ++ (g, l1 ++ l2) :: post ∧ gs' = pre ++ (g, l1 ++ id :: l2) :: post ∧
      ∀ i, index = VNumber (num (Z.of_nat i)) → i < 4 → i ≤ length (l1 ++ l2) → length l1 = i
  | _ => ∃ g, gs' ≡ₚ (g, [id]) :: gs
  end.

Class DockviewLaws (D : Type) `{Dockview D} := {
  panels_distinct (d : D) : NoDup (panels d);
  group_ids_distinct (d : D) : NoDup (groups d).*1;
  groups_used (d : D) : Forall (λ g, g.2 ≠ []) (groups d);
  clear_law (d : D) : groups (clear d) = [];
  addPanel_law id t pos (d : D) : id ∉ panels d → position_ok pos (groups d) →
    ∃ d', addPanel id t pos d = (Ok tt, d') ∧ placed id pos (groups d) (groups d');
  setWidth_law id w (d : D) : groups (setWidth id w d).2 = groups d;
  toJSON_law (d : D) : (∃ o, toJSON d = VObject o) ∧ json_ok (toJSON d) ∧ distinct_names (toJSON d);
  fromJSON_law (d d0 : D) v : same (toJSON d) v →
    ∃ d', fromJSON v d0 = (Ok tt, d') ∧ groups d' ≡ₚ groups d;
}.

(** The panels that there are, and those shown at first. *)
Definition panel_ids : list string := panelTitles.*1.
Definition default_ids (m : mode) : list string :=
  match m with Edit => ["editor"; "canvas"; "details"] | View => ["canvas"; "details"] end.

Section proofs.
Context {D : Type} `{DockviewLaws D}.
Implicit Types (d : D) (p : dock D).

Abbreviation step := (step true roomy).
Abbreviation run := (run true roomy).
Abbreviation layout s m := (getDockLayout true s m).
Abbreviation positions s m := (getPanelPositions true s m).

(** ** Storage *)

Lemma layout_read s m d m' :
  layout (setDockLayout true roomy s m (toJSON d)) m' = if bool_decide (m = m') then redefined (toJSON d) else layout s m'.
Proof.
  destruct (toJSON_law d) as ([o Ho] & Hj & _).
  pose proof (pref_read s (DockLayout m) (DockLayout m') (toJSON d) Hj) as Hr. cbn [pref_get pref_set] in Hr.
  rewrite Hr by by rewrite Ho. by destruct m, m'.
Qed.
Lemma layout_positions s m d m' :
  positions (setDockLayout true roomy s m (toJSON d)) m' = positions s m'.
Proof.
  destruct (toJSON_law d) as ([o Ho] & Hj & _).
  pose proof (pref_read s (DockLayout m) (PanelPositions m') (toJSON d) Hj) as Hr. cbn [pref_get pref_set] in Hr.
  rewrite Hr by by rewrite Ho. done.
Qed.

Lemma redefined_layout d : same (toJSON d) (redefined (toJSON d)) ∧ truthy (redefined (toJSON d)) = true.
Proof.
  destruct (toJSON_law d) as ([o Ho] & _ & Hn). split; [by apply redefined_same|]. by rewrite Ho.
Qed.

(** *** Places as data *)

Definition good (o : object) : Prop :=
  NoDup o.*1 ∧ Forall (λ kv, kv.1 ∈ panel_ids ∧ ∃ g i, i < 4 ∧ kv.2 = place g i) o.

Lemma panel_id_name id : id ∈ panel_ids → array_index id = None ∧ String.eqb id "__proto__" = false.
Proof. intros Hid. unfold panel_ids in Hid. cbn in Hid. set_unfold. by destruct_or!; subst. Qed.

Lemma place_ok g i : i < 4 → json_ok (place g i) ∧ redefined (place g i) = place g i.
Proof.
  intros Hi. split; [|done]. cbn. split_and!; [done| |done].
  assert (i = 0 ∨ i = 1 ∨ i = 2 ∨ i = 3) as Hc by lia. by destruct Hc as [->|[->|[->| ->]]].
Qed.

Lemma good_names o : good o → Forall (λ kv, array_index kv.1 = None) o.
Proof. intros [_ Ho]. eapply Forall_impl; [exact Ho|]. intros kv [Hk _]. by apply panel_id_name. Qed.

Lemma good_value o : good o → json_ok (VObject o) ∧ redefined (VObject o) = VObject o ∧ obj_spread [] o = o.
Proof.
  intros Ho. pose proof (good_names o Ho) as Hn. destruct Ho as [Hnd Ho].
  assert (map (λ kv, (kv.1, redefined kv.2)) o = o) as Hm.
  { clear Hnd Hn. induction Ho as [|[k v] o (Hk & g & i & Hi & Hv) _ IH]; [done|]. cbn [map fst snd] in *.
    subst v. rewrite IH. by rewrite (proj2 (place_ok g i Hi)). }
  split_and!.
  - apply json_ok_object. eapply Forall_impl; [exact Ho|]. intros kv (_ & g & i & Hi & ->). by apply place_ok.
  - cbn [redefined]. rewrite Hm. by rewrite from_entries_names.
  - by apply from_entries_names.
Qed.

Lemma positions_read s m o m' :
  good o →
  positions (setPanelPositions true roomy s m (VObject o)) m' = if bool_decide (m = m') then VObject o else positions s m'.
Proof.
  intros (Hj & Hr & _)%good_value.
  pose proof (pref_read s (PanelPositions m) (PanelPositions m') (VObject o) Hj) as Hp.
  cbn [pref_get pref_set] in Hp. rewrite Hp by done. rewrite Hr. by destruct m, m'.
Qed.
Lemma positions_layout s m o m' :
  good o → layout (setPanelPositions true roomy s m (VObject o)) m' = layout s m'.
Proof.
  intros (Hj & _)%good_value.
  pose proof (pref_read s (PanelPositions m) (DockLayout m') (VObject o) Hj) as Hp.
  cbn [pref_get pref_set] in Hp. by rewrite Hp.
Qed.

Lemma good_set o id g i : good o → id ∈ panel_ids → i < 4 → good (map_set o id (place g i)).
Proof.
  intros [Hnd Ho] Hid Hi. split; [by apply map_set_NoDup|].
  apply Forall_forall. intros [k v] Hkv. rewrite Forall_forall in Ho. clear Hnd. cbn.
  induction o as [|[k' v'] o IH]; cbn in Hkv.
  - apply list_elem_of_singleton in Hkv as [= -> ->]. eauto.
  - destruct (String.eqb_spec id k') as [<-|]; apply elem_of_cons in Hkv as [[= -> ->]|Hkv].
    + eauto.
    + apply (Ho (k, v)). by right.
    + apply (Ho (k', v')). by left.
    + apply IH; [|done]. intros x Hx. apply Ho. by right.
Qed.

Lemma good_assign o id v : id ∈ panel_ids → obj_assign o id v = map_set o id v.
Proof.
  intros [Hi Hp]%panel_id_name. unfold obj_assign. rewrite Hp, andb_false_r. unfold obj_define.
  destruct (map_has o id) eqn:E; [done|]. rewrite Hi.
  symmetry. apply map_set_fresh, map_has_false, E.
Qed.

(** *** Saving places *)

Definition known d : Prop := panels d ⊆ panel_ids.

Lemma known_length d : known d → length (panels d) ≤ 4.
Proof. intros Hd. apply (submseteq_length _ panel_ids), NoDup_submseteq; [apply panels_distinct|done]. Qed.

Lemma group_of_split d id pre g l post :
  groups d = pre ++ (g, l) :: post → id ∈ l → group_of d id = Some (g, l).
Proof.
  intros Hg Hid. pose proof (panels_distinct d) as Hnd. unfold panels in Hnd. unfold group_of.
  rewrite Hg in Hnd |- *. clear Hg. rewrite flat_map_app in Hnd. apply NoDup_app in Hnd as (_ & Hd & _).
  induction pre as [|h pre IH]; cbn.
  - assert (existsb (String.eqb id) l = true) as E; [|by rewrite E].
    apply existsb_exists. exists id. rewrite String.eqb_refl. split; [by apply list_elem_of_In|done].
  - destruct (existsb (String.eqb id) h.2) eqn:E.
    + apply existsb_exists in E as (x & Hx%list_elem_of_In & <-%String.eqb_eq).
      destruct (Hd id); [cbn; apply elem_of_app; by left|]. cbn. apply elem_of_app. by left.
    + apply IH. intros x Hx. apply Hd. cbn. apply elem_of_app. by right.
Qed.

Lemma findIndex_split id l1 l2 : id ∉ l1 → findIndex id (l1 ++ id :: l2) = length l1.
Proof.
  induction l1 as [|x l1 IH]; cbn; [by rewrite String.eqb_refl|]. intros [Hx Hl]%not_elem_of_cons.
  destruct (String.eqb_spec x id); [congruence|]. by rewrite IH.
Qed.

Lemma panels_split d id : id ∈ panels d →
  ∃ pre g l1 l2 post, groups d = pre ++ (g, l1 ++ id :: l2) :: post ∧ (id ∉ l1) ∧ length (l1 ++ id :: l2) ≤ length (panels d).
Proof.
  unfold panels. intros Hid. assert (∃ g l, (g, l) ∈ groups d ∧ id ∈ l) as (g & l & Hg & Hl).
  { apply list_elem_of_In, in_flat_map in Hid as ([g l] & Hg%list_elem_of_In & Hl%list_elem_of_In). eauto. }
  apply list_elem_of_split in Hg as (pre & post & Hg).
  apply list_elem_of_split_l in Hl as (l1 & l2 & -> & Hl).
  exists pre, g, l1, l2, post. split_and!; [done..|]. rewrite Hg, flat_map_app. cbn. rewrite !length_app. cbn. lia.
Qed.

(** The place of a panel that is shown. *)
Lemma panel_position_shown d o id :
  known d → id ∈ panels d →
  ∃ pre g l1 l2 post, groups d = pre ++ (g, l1 ++ id :: l2) :: post ∧ length l1 < 4 ∧
    panel_position d o id = map_set o id (place g (length l1)).
Proof.
  intros Hk Hid. destruct (panels_split d id Hid) as (pre & g & l1 & l2 & post & Hg & Hn & Hl).
  exists pre, g, l1, l2, post. split_and!; [done| |].
  - pose proof (known_length d Hk). rewrite length_app in Hl. cbn in Hl. lia.
  - unfold panel_position. rewrite (group_of_split d id pre g (l1 ++ id :: l2) post Hg)
      by (apply elem_of_app; right; by left).
    rewrite findIndex_split by done. apply good_assign. by apply Hk.
Qed.

Definition saved d (o : object) : object := foldl (panel_position d) o (panels d).

Lemma saved_good d o : known d → good o → good (saved d o).
Proof.
  intros Hk. unfold saved. assert (∀ ids, ids ⊆ panels d → ∀ o, good o → good (foldl (panel_position d) o ids)) as Hall.
  { induction ids as [|id ids IH]; intros Hs o' Ho; [done|]. cbn. apply IH; [set_solver|].
    destruct (panel_position_shown d o' id Hk) as (? & ? & ? & ? & ? & _ & ? & ->); [set_solver|].
    apply good_set; [done| |done]. apply Hk. set_solver. }
  by apply Hall.
Qed.

Lemma saved_get d o id :
  known d →
  map_get (saved d o) id =
    if bool_decide (id ∈ panels d) then
      match group_of d id with Some (g, l) => Some (place g (findIndex id l)) | None => None end
    else map_get o id.
Proof.
  intros Hk. unfold saved.
  assert (∀ ids, NoDup ids → ids ⊆ panels d → ∀ o, map_get (foldl (panel_position d) o ids) id =
    if bool_decide (id ∈ ids) then
      match group_of d id with Some (g, l) => Some (place g (findIndex id l)) | None => None end
    else map_get o id) as Hall; [|by apply Hall; [apply panels_distinct|]].
  clear o. induction ids as [|x ids IH]; intros Hnd Hs o; [done|]. apply NoDup_cons in Hnd as [Hx Hnd].
  cbn [foldl]. rewrite IH by (done || set_solver).
  assert (x ∈ panels d) as Hxd by set_solver.
  destruct (panel_position_shown d o x Hk Hxd) as (pre & g & l1 & l2 & post & Hg & _ & E).
  assert (group_of d x = Some (g, l1 ++ x :: l2)) as Hgx.
  { eapply group_of_split; [exact Hg|]. apply elem_of_app. right. by left. }
  unfold panel_position in E |- *. rewrite Hgx in E |- *. rewrite (good_assign o x) by by apply Hk.
  destruct (decide (id = x)) as [->|Hne].
  - rewrite bool_decide_false by done. rewrite bool_decide_true by by left.
    rewrite map_get_set_eq. by rewrite Hgx.
  - rewrite map_get_set_ne by done.
    by rewrite (bool_decide_ext (id ∈ ids) (id ∈ x :: ids)) by set_solver.
Qed.

Lemma savePanelPositions_eq d m s o :
  positions s m = VObject o → good o →
  savePanelPositions true roomy d m s = setPanelPositions true roomy s m (VObject (saved d o)).
Proof.
  intros Hs Ho. unfold savePanelPositions. rewrite Hs. cbn [own_properties].
  by rewrite (proj2 (proj2 (good_value o Ho))).
Qed.

(** ** Loading a layout *)

Lemma placed_panels id pos gs gs' : placed id pos gs gs' → flat_map snd gs' ≡ₚ id :: flat_map snd gs.
Proof.
  assert (∀ g, gs' ≡ₚ (g, [id]) :: gs → flat_map snd gs' ≡ₚ id :: flat_map snd gs) as Hnew.
  { intros g Hg. change (id :: flat_map snd gs) with (flat_map snd ((g, [id]) :: gs)).
    by apply Permutation_flat_map. }
  destruct pos as [[q|g index]|]; cbn.
  - intros [g Hg]. by eapply Hnew.
  - intros (pre & post & l1 & l2 & -> & -> & _). rewrite !flat_map_app. cbn.
    rewrite !(Permutation_app_comm (flat_map snd pre)), <-!app_assoc. cbn. by rewrite <-Permutation_middle.
  - intros [g Hg]. by eapply Hnew.
Qed.

Lemma addPanel_spec id t pos d :
  id ∉ panels d → position_ok pos (groups d) →
  ∃ d', addPanel id t pos d = (Ok tt, d') ∧ placed id pos (groups d) (groups d') ∧ panels d' ≡ₚ id :: panels d.
Proof.
  intros Hid Hpos. destruct (addPanel_law id t pos d Hid Hpos) as (d' & E & Hp).
  exists d'. split_and!; [done..|]. by apply placed_panels in Hp.
Qed.

Lemma default_spec m d : ∃ d', default_panels m d = (Ok tt, d') ∧ panels d' ≡ₚ default_ids m.
Proof.
  assert (∀ (d0 d1 : D) a b t', panels d0 ≡ₚ a :: panels d1 → panels d1 = [] → b ≠ a →
    ∃ d', addPanel b t' (Some (RightOf a)) d0 = (Ok tt, d') ∧ panels d' ≡ₚ [b; a]) as Hsecond.
  { intros d0 d1 a b t' Hp Hn Hne. rewrite Hn in Hp.
    destruct (addPanel_spec b t' (Some (RightOf a)) d0) as (d' & E & _ & Hd').
    - rewrite Hp. by intros ->%list_elem_of_singleton.
    - cbn. change (a ∈ panels d0). rewrite Hp. by left.
    - exists d'. split; [done|]. by rewrite Hd', Hp. }
  pose proof (clear_law d) as Hc.
  assert (panels (clear d) = []) as Hn by by unfold panels; rewrite Hc.
  unfold default_panels. rewrite (bind_run (modify clear) _ d tt (clear d) eq_refl).
  unfold mbind, M_bind. destruct m.
  - destruct (addPanel_spec "canvas" "Canvas" None (clear d)) as (d1 & E1 & _ & H1);
      [rewrite Hn; apply not_elem_of_nil|done|]. rewrite E1.
    destruct (Hsecond d1 (clear d) "canvas" "details" "Details" H1 Hn) as (d2 & E2 & H2); [done|].
    rewrite E2. exists d2. split; [done|]. rewrite H2. apply Permutation_swap.
  - destruct (addPanel_spec "editor" "Editor" None (clear d)) as (d1 & E1 & _ & H1);
      [rewrite Hn; apply not_elem_of_nil|done|]. rewrite E1.
    destruct (Hsecond d1 (clear d) "editor" "canvas" "Canvas" H1 Hn) as (d2 & E2 & H2); [done|].
    rewrite E2.
    destruct (addPanel_spec "details" "Details" (Some (RightOf "canvas")) d2) as (d3 & E3 & _ & H3).
    + rewrite H2. set_solver.
    + cbn. change ("canvas" ∈ panels d2). rewrite H2. set_solver.
    + rewrite E3. exists d3. split; [done|]. rewrite H3, H2. apply (bool_decide_unpack _). by vm_compute.
Qed.

Definition loaded (m : mode) (s : storage) d : Prop :=
  match layout s m with
  | VNull => panels d ≡ₚ default_ids m
  | v => ∀ d1, same (toJSON d1) v → groups d ≡ₚ groups d1
  end.
(** The storage has no layout for the mode, or one that was shown. *)
Definition layout_known (s : storage) (m : mode) : Prop :=
  layout s m = VNull ∨ ∃ d, same (toJSON d) (layout s m) ∧ known d.

Lemma same_layout d v : same (toJSON d) v → ∃ o, v = VObject o.
Proof. destruct (toJSON_law d) as ([o ->] & _). inversion 1; subst; eauto. Qed.

Lemma load_spec p d :
  api p = Some d → layout_known (local p) (mode_ p) →
  ∃ d' ts, load_layout true p = (Ok tt, with_timers ts (with_api d' p)) ∧ loaded (mode_ p) (local p) d'.
Proof.
  intros Hd Hl. unfold load_layout. rewrite (bind_run StateMonad.get _ p p p eq_refl).
  unfold loaded. destruct Hl as [Hn|(d1 & Hs & _)].
  - rewrite Hn. cbn [truthy]. destruct (default_spec (mode_ p) d) as (d' & E & Hp).
    exists d', (timers p ++ [mode_ p]). split; [|done].
    unfold buildDefaultLayout, on_api, mbind, M_bind. by rewrite Hd, E.
  - destruct (same_layout d1 _ Hs) as [o Ho]. rewrite Ho in Hs |- *. cbn [truthy].
    destruct (fromJSON_law d1 d _ Hs) as (d' & E & Hg).
    exists d', (timers p). split.
    + unfold try_catch, on_api. rewrite Hd, E. by destruct p.
    + intros d2 Hs2. destruct (fromJSON_law d2 d _ Hs2) as (d'' & E2 & Hg2). congruence.
Qed.

(** ** What the handlers do *)

Definition storage_ok (s : storage) : Prop :=
  (∀ m, layout_known s m) ∧ ∀ m, ∃ o, positions s m = VObject o ∧ good o.

(** After a handler: mode and menu are those of what is shown. *)
Definition settled (m : mode) d (ts : list mode) (s : storage) : dock D :=
  {| api := Some d; mode_ := m; modeRef := m; initializedMode := Some m; existingPanels := panels d;
     timers := ts; menuPanels := panels d; local := s |}.

Definition inv p : Prop :=
  storage_ok (local p) ∧
  ∀ d, api p = Some d → modeRef p = mode_ p ∧ initializedMode p = Some (mode_ p) ∧ known d.

Lemma default_known m : default_ids m ⊆ panel_ids.
Proof. apply (bool_decide_unpack _). by destruct m. Qed.

Lemma loaded_known m s d : layout_known s m → loaded m s d → known d.
Proof.
  unfold loaded, known. intros [->|(d1 & Hs & Hk)] Hl.
  - intros x Hx. rewrite Hl in Hx. by apply (default_known m).
  - destruct (same_layout d1 _ Hs) as [o Ho]. rewrite Ho in Hs, Hl.
    intros x Hx. apply Hk. unfold panels in *. by rewrite (Hl d1 Hs) in Hx.
Qed.

Lemma store_layout_ok s m d : storage_ok s → known d → storage_ok (setDockLayout true roomy s m (toJSON d)).
Proof.
  intros [Hl Hp] Hk. split; intros m'.
  - unfold layout_known. rewrite layout_read. case_bool_decide; [|apply Hl].
    right. exists d. split; [apply redefined_layout|done].
  - rewrite layout_positions. apply Hp.
Qed.
Lemma store_positions_ok s m d : storage_ok s → known d → storage_ok (savePanelPositions true roomy d m s).
Proof.
  intros [Hl Hp] Hk. destruct (Hp m) as (o & Ho & Hg).
  rewrite (savePanelPositions_eq d m s o) by done. pose proof (saved_good d o Hk Hg) as Hs.
  split; intros m'.
  - unfold layout_known. rewrite positions_layout by done. apply Hl.
  - rewrite positions_read by done. case_bool_decide; eauto.
Qed.
Lemma store_positions_layout s m d m' :
  storage_ok s → known d → layout (savePanelPositions true roomy d m s) m' = layout s m'.
Proof.
  intros [_ Hp] Hk. destruct (Hp m) as (o & Ho & Hg). rewrite (savePanelPositions_eq d m s o) by done.
  apply positions_layout. by apply saved_good.
Qed.

Lemma cleared_read s m m' :
  let s' := removePanelPositions true (removeDockLayout true s m) m in
  layout s' m' = (if bool_decide (m = m') then VNull else layout s m') ∧
  positions s' m' = (if bool_decide (m = m') then VObject [] else positions s m').
Proof.
  cbv zeta. unfold removePanelPositions, removeDockLayout.
  change (dockLayout_key m) with (key_of (DockLayout m)).
  change (panelPositions_key m) with (key_of (PanelPositions m)).
  change (layout ?s m') with (pref_get true s (DockLayout m')).
  change (positions ?s m') with (pref_get true s (PanelPositions m')).
  rewrite !pref_removed. by destruct m, m'.
Qed.

Lemma mount_spec m fresh p :
  storage_ok (local p) →
  ∃ d ts, mount true roomy m fresh p = (Ok tt, settled m d ts (savePanelPositions true roomy d m (local p))) ∧
    loaded m (local p) d.
Proof.
  intros [Hl _]. unfold mount, handleReady.
  set (p0 := {| api := Some fresh; mode_ := m; modeRef := m; initializedMode := None; existingPanels := [];
                timers := []; menuPanels := menuPanels p; local := local p |}).
  destruct (load_spec p0 fresh eq_refl (Hl m)) as (d & ts & E & Hd). exists d, ts. split; [|done].
  rewrite (bind_run (modify _) _ p tt _ eq_refl). cbv beta.
  rewrite (bind_run (modify (with_api fresh)) _ _ tt _ eq_refl). cbv beta.
  change (with_api fresh _) with p0.
  by rewrite (bind_run _ _ _ _ _ E).
Qed.

Lemma mode_spec m p d :
  inv p → api p = Some d → m ≠ mode_ p →
  let s := setDockLayout true roomy (local p) (mode_ p) (toJSON d) in
  ∃ d' ts, mode_changes true roomy m p = (Ok tt, settled m d' ts s) ∧ loaded m s d'.
Proof.
  intros [Hs Hi] Hd Hm. cbv zeta. destruct (Hi d Hd) as (_ & Hinit & Hk).
  set (s := setDockLayout true roomy (local p) (mode_ p) (toJSON d)).
  set (p0 := with_local s (with_modes m m (initializedMode p) p)).
  destruct (load_spec p0 d Hd) as (d' & ts & E & Hl); [by apply store_layout_ok|].
  exists d', ts. split; [|done]. unfold mode_changes, mode_effect.
  rewrite (bind_run (modify _) _ _ tt _ eq_refl).
  set (p1 := with_modes m m (initializedMode p) p). rewrite (bind_run StateMonad.get _ p1 p1 p1 eq_refl).
  change (api p1) with (api p). change (initializedMode p1) with (initializedMode p). change (mode_ p1) with m.
  rewrite Hd, Hinit. rewrite bool_decide_false by congruence.
  rewrite (bind_run (store _) _ p1 tt p0 eq_refl). by rewrite (bind_run _ _ _ _ _ E).
Qed.

Lemma layout_change_spec p d :
  inv p → api p = Some d →
  onDidLayoutChange true roomy p = (Ok tt, settled (mode_ p) d (timers p)
    (savePanelPositions true roomy d (mode_ p) (setDockLayout true roomy (local p) (mode_ p) (toJSON d)))).
Proof.
  intros [_ Hi] Hd. destruct (Hi d Hd) as (Hr & Hinit & _). destruct p as [a m r i e ts mp s]. cbn in *. by subst.
Qed.

Lemma reset_spec p d :
  inv p → api p = Some d →
  ∃ d' ts, resetLayout true p = (Ok tt, settled (mode_ p) d' ts
      (removePanelPositions true (removeDockLayout true (local p) (mode_ p)) (mode_ p))) ∧
    panels d' ≡ₚ default_ids (mode_ p).
Proof.
  intros [_ Hi] Hd. destruct (Hi d Hd) as (Hr & Hinit & _).
  destruct (default_spec (mode_ p) d) as (d' & E & Hp). exists d', (timers p ++ [mode_ p]). split; [|done].
  destruct p as [a m r i e ts mp s]. cbn in *. subst.
  unfold resetLayout, when_ready, buildDefaultLayout, on_api, updateExistingPanels, mbind, M_bind. cbn. by rewrite E.
Qed.

(** ** The menu adds panels *)

Lemma saved_group_place d g i :
  saved_group d (place g i) = Ok (if bool_decide (g ∈ (groups d).*1) then Some g else None).
Proof.
  unfold saved_group. destruct (groups d) as [|h gs] eqn:E; [done|]. rewrite <-E. clear E h gs.
  cbn [get_prop place mbind result_bind]. change (own_get _ "groupId") with (VString g). cbv beta. f_equal.
  induction (groups d) as [|h gs IH]; [done|]. cbn [List.find fmap list_fmap].
  change (strict_equal (VString h.1) (VString g)) with (String.eqb h.1 g).
  destruct (String.eqb_spec h.1 g) as [E|E].
  - rewrite bool_decide_true by (rewrite <-E; by left). cbn. by rewrite E.
  - rewrite IH, (bool_decide_ext (g ∈ gs.*1) (g ∈ (h :: gs).*1)); [done|].
    cbn. rewrite elem_of_cons. naive_solver.
Qed.

(** The place that the storage has for a panel is taken when its group is still there. *)
Lemma saved_position_spec d o id :
  good o → id ∈ panel_ids →
  ∃ pos, saved_position d (own_get o id) = Ok pos ∧
    (∀ at_, pos = Some at_ → position_ok pos (groups d)) ∧
    (∀ g i, map_get o id = Some (place g i) → g ∈ (groups d).*1 →
      pos = Some (InGroup g (VNumber (num (Z.of_nat i))))).
Proof.
  intros [Hnd Ho] Hid. unfold own_get. destruct (map_get o id) as [v|] eqn:E.
  - pose proof (map_get_Some_elem_of _ _ _ E) as Hin. rewrite Forall_forall in Ho.
    destruct (Ho _ Hin) as (_ & g & i & _ & Hv). cbn in Hv. subst v.
    unfold saved_position. cbn [truthy place]. change (VObject _) with (place g i).
    rewrite saved_group_place. cbn [mbind result_bind]. case_bool_decide as Hg.
    + eexists. split; [reflexivity|]. split; [done|]. intros g' i' [= -> Hi]. by rewrite Hi.
    + exists None. split; [done|]. split; [done|]. intros g' i' [= -> _]. done.
  - exists None. split; [|by split]. unfold panel_ids in Hid. cbn in Hid. set_unfold. by destruct_or!; subst.
Qed.

Lemma getPanel_spec d id : getPanel d id = bool_decide (id ∈ panels d).
Proof.
  apply eq_bool_prop_intro. rewrite bool_decide_spec. unfold getPanel. split.
  - intros (x & Hx%list_elem_of_In & <-%String.eqb_eq)%Is_true_true%existsb_exists. done.
  - intros Hid. apply Is_true_true, existsb_exists. exists id. rewrite String.eqb_refl.
    split; [by apply list_elem_of_In|done].
Qed.

Lemma add_spec p d id :
  inv p → api p = Some d → id ∈ panel_ids → id ∉ panels d →
  ∃ d', add_panel true roomy id p =
      (Ok tt, settled (mode_ p) d' (timers p) (setDockLayout true roomy (local p) (mode_ p) (toJSON d'))) ∧
    panels d' ≡ₚ id :: panels d ∧
    ∀ o g i, positions (local p) (mode_ p) = VObject o → map_get o id = Some (place g i) → g ∈ (groups d).*1 →
      placed id (Some (InGroup g (VNumber (num (Z.of_nat i))))) (groups d) (groups d').
Proof.
  intros [[_ Hs] Hi] Hd Hid Hnew. destruct (Hi d Hd) as (Hr & Hinit & _).
  destruct (Hs (mode_ p)) as (o & Ho & Hg).
  destruct (saved_position_spec d o id Hg Hid) as (pos & Epos & Hok & Hpl).
  set (pos' := match pos with Some at_ => Some at_ | None => RightOf <$> head (panels d) end).
  assert (position_ok pos' (groups d)) as Hpos'.
  { destruct pos as [at_|]; [by eapply Hok|]. subst pos'. unfold panels. pose proof (groups_used d) as Hu.
    destruct (groups d) as [|[g l] gs]; [done|]. apply Forall_cons in Hu as [Hl _]. cbn in Hl |- *.
    destruct l as [|x l]; [done|]. cbn. by left. }
  destruct (addPanel_spec id (title id) pos' d Hnew Hpos') as (d' & E & Hp & Hpd). exists d'. split_and!; [|done|].
  - unfold add_panel, when_ready. rewrite (bind_run StateMonad.get _ p p p eq_refl). rewrite Hd.
    rewrite getPanel_spec, bool_decide_false by done.
    rewrite (bind_run StateMonad.get _ p p p eq_refl). rewrite Ho.
    rewrite (bind_run (lift (Ok (own_get o id))) _ p (own_get o id) p eq_refl).
    rewrite Epos. rewrite (bind_run (lift (Ok pos)) _ p pos p eq_refl). fold pos'.
    rewrite (bind_run (on_api _) _ p tt (with_api d' p)) by by (unfold on_api; rewrite Hd, E).
    destruct p as [a m r i e ts mp s]. cbn in *. by subst.
  - intros o' g i. rewrite Ho. intros [= <-] Hm Hin. unfold pos' in Hp. by rewrite (Hpl g i Hm Hin) in Hp.
Qed.

(** ** Invariants *)

Lemma initial_sizes_groups m d : groups (initial_sizes m d).2 = groups d.
Proof.
  assert (∀ id w gs, keeps (λ d, groups d = gs) (setWidth id w)) as Hw.
  { intros id w gs d' <-. apply setWidth_law. }
  enough (keeps (λ d', groups d' = groups d) (initial_sizes m)) as Hk by by apply Hk.
  unfold initial_sizes. repeat first [apply Hw|keeps_step].
Qed.

Lemma known_groups d d' : groups d' = groups d → known d → known d'.
Proof. unfold known, panels. by intros ->. Qed.

Lemma settled_inv m d ts s : storage_ok s → known d → inv (settled m d ts s).
Proof. intros Hs Hk. split; [done|]. by intros d' [= <-]. Qed.

(** What the user can do to the panels is move and close them. *)
Definition event_ok p (e : event D) : Prop :=
  match e, api p with Arranged d, Some d0 => panels d ⊆ panels d0 | _, _ => True end.

Lemma menu_item i ex m l id b : addItems ex m !! i = Some (l, id, b) → id ∈ panel_ids.
Proof.
  intros Hi%list_elem_of_lookup_2. assert (Forall (λ x, x.1.2 ∈ panel_ids) (addItems ex m)) as Hall.
  { repeat constructor; by apply (bool_decide_unpack _). }
  rewrite Forall_forall in Hall. apply (Hall _ Hi).
Qed.

(** A click adds the panel when the item is enabled and the panel is not shown. *)
Lemma menu_click_cases p d i :
  api p = Some d →
  (∃ l id, addItems (menuPanels p) (mode_ p) !! i = Some (l, id, false) ∧ (id ∉ panels d) ∧
    step p (MenuClick i) = (add_panel true roomy id p).2) ∨
  step p (MenuClick i) = p ∧
  ∀ l id, addItems (menuPanels p) (mode_ p) !! i = Some (l, id, false) → id ∈ panels d.
Proof.
  intros Hd. unfold DockLayout.step, handle, menu_click.
  rewrite (bind_run StateMonad.get _ p p p eq_refl).
  destruct (addItems _ _ !! i) as [[[l id] []]|]; [by right| |by right].
  destruct (decide (id ∈ panels d)) as [Hin|Hin]; [right|left; by eauto]. split; [|by intros ? ? [= <- <-]].
  unfold add_panel, when_ready. rewrite (bind_run StateMonad.get _ p p p eq_refl).
  by rewrite Hd, getPanel_spec, bool_decide_true.
Qed.

Lemma removed_ok s m :
  storage_ok s → storage_ok (removePanelPositions true (removeDockLayout true s m) m).
Proof.
  intros [Hl Hp]. split; intros m'; destruct (cleared_read s m m') as [Rl Rp].
  - unfold layout_known. rewrite Rl. case_bool_decide; [by left|apply Hl].
  - rewrite Rp. case_bool_decide; [|apply Hp]. exists []. repeat split; constructor.
Qed.

(** A handler that leaves a layout on screen and the other mode's layout alone. *)
Definition shown_after p p' : Prop :=
  ∃ d', api p' = Some d' ∧ known d' ∧ mode_ p' = mode_ p ∧ inv p' ∧
    ∀ m, m ≠ mode_ p → layout (local p') m = layout (local p) m.

Lemma shown_settled p d' ts s :
  known d' → storage_ok s → (∀ m, m ≠ mode_ p → layout s m = layout (local p) m) →
  shown_after p (settled (mode_ p) d' ts s).
Proof. intros Hk Hs Hl. exists d'. split_and!; [done..|by apply settled_inv|done]. Qed.
Lemma shown_with p d d' ts :
  inv p → api p = Some d → known d' → shown_after p (with_timers ts (with_api d' p)).
Proof.
  intros [Hs Hi] Hd Hk. destruct (Hi d Hd) as (Hr & Hm & _). exists d'. split_and!; [done..| |done].
  split; [done|]. intros d2 [= <-]. done.
Qed.
Lemma shown_same p d : inv p → api p = Some d → shown_after p p.
Proof. intros Hp Hd. exists d. destruct Hp as [Hs Hi]. split_and!; [done|by apply Hi|done..]. Qed.

Lemma click_shown p d i : inv p → api p = Some d → shown_after p (step p (MenuClick i)).
Proof.
  intros Hp Hd. destruct (menu_click_cases p d i Hd) as [(l & id & Hit & Hn & ->)|[-> _]]; [|by eapply shown_same].
  apply menu_item in Hit. destruct (add_spec p d id Hp Hd Hit Hn) as (d' & -> & Hpd & _).
  destruct Hp as [Hs Hi]. destruct (Hi d Hd) as (_ & _ & Hk).
  assert (known d') as Hk'.
  { intros x Hx. rewrite Hpd in Hx. apply elem_of_cons in Hx as [->|Hx]; auto. }
  apply shown_settled; [done|by apply store_layout_ok|]. intros m Hm. by rewrite layout_read, bool_decide_false.
Qed.

Lemma sized_shown p d : inv p → api p = Some d → shown_after p (step p Sized).
Proof.
  intros Hp Hd. unfold DockLayout.step, handle. rewrite (bind_run StateMonad.get _ p p p eq_refl).
  destruct (timers p) as [|m ms]; [by eapply shown_same|].
  rewrite (bind_run (modify _) _ p tt _ eq_refl). unfold on_api.
  change (api (with_timers ms p)) with (api p). rewrite Hd.
  pose proof (initial_sizes_groups m d) as Hg. destruct (initial_sizes m d) as [r d'] eqn:E.
  apply (shown_with p d d' ms Hp Hd), (known_groups d); [done|]. by apply Hp.
Qed.

(** The events while a layout is on screen, but for a change of mode. *)
Definition stays (m : mode) (e : event D) : Prop :=
  match e with ModeChanged _ => False | Mount m' _ => m' = m | _ => True end.

Lemma step_shown p d e :
  inv p → api p = Some d → event_ok p e → stays (mode_ p) e → shown_after p (step p e).
Proof.
  intros Hp Hd He Hm. pose proof Hp as [Hs Hi]. destruct (Hi d Hd) as (Hr & Hinit & Hk).
  destruct e as [m fresh|m|d2| | |i| |]; cbn in Hm; [|done|..].
  - subst m. destruct (mount_spec (mode_ p) fresh p Hs) as (d' & ts & E & Hl).
    assert (known d') as Hk' by by eapply loaded_known; [apply Hs|].
    unfold DockLayout.step, handle. rewrite E. apply shown_settled; [done|by apply store_positions_ok|].
    intros m' _. by apply store_positions_layout.
  - replace (step p (Arranged d2)) with (with_timers (timers p) (with_api d2 p)).
    + eapply shown_with; [done..|]. cbn in He. rewrite Hd in He. unfold known. by etrans.
    + unfold DockLayout.step, handle, when_ready. rewrite (bind_run StateMonad.get _ p p p eq_refl), Hd. done.
  - unfold DockLayout.step, handle. rewrite (layout_change_spec p d) by done.
    assert (storage_ok (setDockLayout true roomy (local p) (mode_ p) (toJSON d))) by by apply store_layout_ok.
    apply shown_settled; [done|by apply store_positions_ok|].
    intros m Hm'. by rewrite store_positions_layout, layout_read, bool_decide_false.
  - replace (step p PanelRemoved) with (settled (mode_ p) d (timers p) (local p)).
    + by apply shown_settled.
    + unfold DockLayout.step, handle, onDidRemovePanel, updateExistingPanels, when_ready.
      rewrite (bind_run StateMonad.get _ p p p eq_refl), Hd. destruct p. cbn in *. by subst.
  - by eapply click_shown.
  - unfold DockLayout.step, handle. destruct (reset_spec p d Hp Hd) as (d' & ts & -> & Hpd).
    apply shown_settled; [|by apply removed_ok|].
    + intros x Hx. rewrite Hpd in Hx. by apply (default_known (mode_ p)).
    + intros m Hm'. by rewrite (proj1 (cleared_read _ _ m)), bool_decide_false.
  - by eapply sized_shown.
Qed.

Lemma mode_changed_inv p m : inv p → inv (step p (ModeChanged m)).
Proof.
  intros Hp. destruct (api p) as [d|] eqn:Hd.
  - destruct (decide (m = mode_ p)) as [->|Hm].
    + destruct Hp as [Hs Hi]. destruct (Hi d Hd) as (Hr & Hinit & Hk).
      replace (step p (ModeChanged (mode_ p))) with p; [done|].
      unfold DockLayout.step, handle, mode_changes. rewrite (bind_run (modify _) _ p tt _ eq_refl).
      unfold mode_effect. destruct p as [a m r i ex ts mp s]. cbn in *. subst.
      unfold mbind, M_bind. cbn. by rewrite bool_decide_true.
    + destruct (mode_spec m p d Hp Hd Hm) as (d' & ts & E & Hl).
      unfold DockLayout.step, handle. rewrite E. destruct Hp as [Hs Hi]. destruct (Hi d Hd) as (_ & _ & Hk).
      assert (storage_ok (setDockLayout true roomy (local p) (mode_ p) (toJSON d))) as Hs' by by apply store_layout_ok.
      apply settled_inv; [done|]. eapply loaded_known; [apply Hs'|done].
  - unfold DockLayout.step, handle, mode_changes. rewrite (bind_run (modify _) _ p tt _ eq_refl).
    unfold mode_effect. rewrite (bind_run StateMonad.get _ _ _ _ eq_refl). cbn. rewrite Hd.
    destruct Hp as [Hs _]. split; [done|]. cbn. by rewrite Hd.
Qed.

Lemma step_dock p e : inv p → event_ok p e → inv (step p e).
Proof.
  intros Hp He. destruct e as [m fresh|m|d2| | |i| |]; [|by apply mode_changed_inv|..].
  { destruct (mount_spec m fresh p) as (d & ts & E & Hl); [apply Hp|].
    unfold DockLayout.step, handle. rewrite E. assert (known d) by (eapply loaded_known; [apply Hp|done]).
    apply settled_inv; [by apply store_positions_ok; [apply Hp|]|done]. }
  all: destruct (api p) as [d|] eqn:Hd;
    [by destruct (step_shown p d _ Hp Hd He) as (? & ? & ? & ? & ? & ?)|].
  all: destruct Hp as [Hs _]; destruct p as [a m r i' ex ts mp s]; cbn in Hd, Hs; subst a.
  all: unfold DockLayout.step, handle, menu_click, onDidLayoutChange, onDidRemovePanel, updateExistingPanels,
    add_panel, resetLayout, when_ready, mbind, M_bind; cbn.
  - by split.
  - by split.
  - by split.
  - by destruct (addItems mp m !! i) as [[[l id] []]|]; split.
  - by split.
  - destruct ts; by split.
Qed.

(** From a browser in which no layout is kept. *)
Inductive reachable : dock D → Prop :=
| reach_start s : (∀ m, layout s m = VNull ∧ positions s m = VObject []) → reachable (unmounted s)
| reach_step p e : reachable p → event_ok p e → reachable (step p e).

Lemma reachable_dock p : reachable p → inv p.
Proof.
  induction 1 as [s Hs|p e _ IH He]; [|by apply step_dock]. split; [|done]. split; intros m; destruct (Hs m) as [Hl Ho].
  - by left.
  - exists []. split; [done|]. split; constructor.
Qed.

(** Whatever was stored, moved, closed and added, every panel shown has a component and a
    title. *)
Lemma panels_filled p d id :
  reachable p → api p = Some d → id ∈ panels d →
  is_Some (map_get components id) ∧ is_Some (map_get panelTitles id).
Proof.
  intros Hr Hd Hid. apply reachable_dock in Hr as [_ Hk]. destruct (Hk d Hd) as (_ & _ & Hkn).
  apply Hkn in Hid. revert id Hid. apply Forall_forall. apply (bool_decide_unpack _). by vm_compute.
Qed.

(** ** Layouts survive *)

(** Events of the time in a mode. *)
Fixpoint allowed (m : mode) p (es : list (event D)) : Prop :=
  match es with [] => True | e :: es' => stays m e ∧ event_ok p e ∧ allowed m (step p e) es' end.

Lemma run_shown es : ∀ p d,
  inv p → api p = Some d → allowed (mode_ p) p es → shown_after p (run p es).
Proof.
  induction es as [|e es IH]; intros p d Hp Hd; [by intros; eapply shown_same|]. intros (Hm & He & Hes).
  destruct (step_shown p d e Hp Hd He Hm) as (d1 & Hd1 & Hk1 & Hm1 & Hp1 & Hl1). rewrite <-Hm1 in Hes.
  destruct (IH _ d1 Hp1 Hd1 Hes) as (d2 & Hd2 & Hk2 & Hm2 & Hp2 & Hl2). exists d2.
  split_and!; [done..|by rewrite <-Hm1|done|]. intros m Hm'. rewrite Hl2 by by rewrite Hm1. by apply Hl1.
Qed.

Lemma loaded_stored m s d d' :
  layout s m = redefined (toJSON d) → loaded m s d' → groups d' ≡ₚ groups d.
Proof.
  intros Hs. unfold loaded. rewrite Hs. destruct (redefined_layout d) as [Hsame _].
  destruct (same_layout d _ Hsame) as [o Ho]. rewrite Ho in Hsame |- *. intros Hl. by apply Hl.
Qed.

(** The groups [d], in the mode, with a menu that knows the panels shown. *)
Definition restored (m : mode) d p : Prop :=
  mode_ p = m ∧ ∃ d', api p = Some d' ∧ groups d' ≡ₚ groups d ∧ menuPanels p = panels d'.

Lemma loaded_restored m s d d' ts s' :
  layout s m = redefined (toJSON d) → loaded m s d' → restored m d (settled m d' ts s').
Proof. intros Hs Hl. split; [done|]. exists d'. split_and!; [done|by eapply loaded_stored|done]. Qed.

Lemma mode_back_restores p d m p1 p2 :
  inv p → api p = Some d → m ≠ mode_ p → step p (ModeChanged m) = p1 → shown_after p1 p2 →
  restored (mode_ p) d (step p2 (ModeChanged (mode_ p))).
Proof.
  intros Hp Hd Hm <- (d' & Hd' & _ & Hm2 & Hp2 & Hl2).
  destruct (mode_spec m p d Hp Hd Hm) as (d1 & ts & E & _).
  unfold DockLayout.step, handle in Hm2, Hl2. rewrite E in Hm2, Hl2.
  assert (mode_ p ≠ mode_ p2) as Hne by by rewrite Hm2.
  destruct (mode_spec (mode_ p) p2 d' Hp2 Hd' Hne) as (d3 & ts3 & E3 & Hl3).
  unfold DockLayout.step, handle. rewrite E3. eapply loaded_restored; [|exact Hl3].
  rewrite layout_read, bool_decide_false by done. rewrite Hl2 by done. cbn [snd].
  change (local (settled _ _ _ ?s)) with s. by rewrite layout_read, bool_decide_true.
Qed.

Lemma reopening_restores p d fresh :
  inv p → api p = Some d → restored (mode_ p) d (step (step p LayoutChanged) (Mount (mode_ p) fresh)).
Proof.
  intros Hp Hd. unfold DockLayout.step, handle. rewrite (layout_change_spec p d) by done.
  destruct Hp as [Hs Hi]. destruct (Hi d Hd) as (_ & _ & Hk).
  set (s := setDockLayout true roomy (local p) (mode_ p) (toJSON d)).
  assert (storage_ok s) as Hs1 by by apply store_layout_ok.
  assert (storage_ok (savePanelPositions true roomy d (mode_ p) s)) as Hs2 by by apply store_positions_ok.
  destruct (mount_spec (mode_ p) fresh _ (Hs2 : storage_ok (local (settled (mode_ p) d (timers p) _)))) as (d' & ts & E & Hl).
  cbn [snd]. rewrite E. eapply loaded_restored; [|exact Hl]. change (local (settled _ _ _ ?s)) with s.
  rewrite store_positions_layout by done. unfold s. by rewrite layout_read, bool_decide_true.
Qed.

(** C30: the panels stay where the user put them.  Switching between viewing and editing,
    whatever is done in the other mode, however often the page of the plan is left and
    opened again there and even if its layout is reset, brings the groups back as they
    were; so does opening the page again once dockview has reported the layout.  The menu
    then knows the panels shown. *)
Theorem layout_survives p d m es fresh :
  reachable p → api p = Some d → m ≠ mode_ p → allowed m (step p (ModeChanged m)) es →
  restored (mode_ p) d (step (run (step p (ModeChanged m)) es) (ModeChanged (mode_ p))) ∧
  restored (mode_ p) d (step (step p LayoutChanged) (Mount (mode_ p) fresh)).
Proof.
  intros Hp%reachable_dock Hd Hm Hes. split; [|by apply reopening_restores].
  eapply mode_back_restores; [done..|reflexivity|].
  pose proof (mode_changed_inv p m Hp) as Hp1. destruct (mode_spec m p d Hp Hd Hm) as (d1 & ts & E & _).
  set (s := setDockLayout _ _ _ _ _) in E.
  assert (step p (ModeChanged m) = settled m d1 ts s) as E1 by (unfold DockLayout.step, handle; by rewrite E).
  rewrite E1 in Hes, Hp1 |- *. by eapply run_shown.
Qed.

(** ** A closed panel comes back *)

Lemma item_state ex i m l id :
  addItems [] m !! i = Some (l, id, false) → addItems ex m !! i = Some (l, id, bool_decide (id ∈ ex)).
Proof.
  assert (∀ x, existsb (String.eqb x) ex = bool_decide (x ∈ ex)) as Hex.
  { intros x. apply eq_bool_prop_intro. rewrite bool_decide_spec, Is_true_true, existsb_exists. split.
    - by intros (y & Hy%list_elem_of_In & <-%String.eqb_eq).
    - intros Hx%list_elem_of_In. exists x. by rewrite String.eqb_refl. }
  unfold addItems. cbv zeta. rewrite !Hex.
  destruct i as [|[|[|[|i]]]]; [..|done]; destruct m; try done; intros [= <- <-]; cbn [lookup list_lookup];
    by rewrite ?(bool_decide_false (View = Edit)), ?(bool_decide_false (Edit = View)), ?orb_false_r.
Qed.

Lemma group_unique {A} (pre pre' post post' : list (string * A)) g l l' :
  NoDup (pre ++ (g, l) :: post).*1 → pre ++ (g, l) :: post = pre' ++ (g, l') :: post' →
  pre = pre' ∧ l = l' ∧ post = post'.
Proof.
  revert pre'. induction pre as [|h pre IH]; intros pre' Hnd E.
  - destruct pre' as [|h' pre']; cbn in E; [by simplify_eq|]. injection E as <- E. cbn in Hnd.
    apply NoDup_cons in Hnd as [Hg _]. destruct Hg. rewrite E, fmap_app. apply elem_of_app. right. by left.
  - destruct pre' as [|h' pre']; cbn in E.
    + injection E as -> E. cbn in Hnd. apply NoDup_cons in Hnd as [Hg _]. destruct Hg.
      rewrite fmap_app. apply elem_of_app. right. by left.
    + injection E as <- E. cbn in Hnd. apply NoDup_cons in Hnd as [_ Hnd].
      by destruct (IH pre' Hnd E) as (-> & -> & ->).
Qed.

(** Where the storage has a closed panel after the layout was reported twice. *)
Lemma closed_place p d d' id :
  inv p → api p = Some d → id ∉ panels d' → panels d' ⊆ panels d →
  ∃ ts s o, run p [LayoutChanged; Arranged d'; LayoutChanged] = settled (mode_ p) d' ts s ∧
    inv (settled (mode_ p) d' ts s) ∧
    positions s (mode_ p) = VObject o ∧
    ∀ pre g l1 l2 post, groups d = pre ++ (g, l1 ++ id :: l2) :: post → map_get o id = Some (place g (length l1)).
Proof.
  intros Hp Hd Hid Hsub. pose proof Hp as [Hs Hi]. destruct (Hi d Hd) as (_ & _ & Hk).
  assert (known d') as Hk' by by unfold known; etrans.
  destruct (proj2 Hs (mode_ p)) as (o & Ho & Hgood).
  set (s1 := savePanelPositions true roomy d (mode_ p) (setDockLayout true roomy (local p) (mode_ p) (toJSON d))).
  assert (step p LayoutChanged = settled (mode_ p) d (timers p) s1) as E1
    by (unfold DockLayout.step, handle; by rewrite (layout_change_spec p d)).
  assert (storage_ok s1) as Hs1 by by apply store_positions_ok; [apply store_layout_ok|].
  set (p2 := settled (mode_ p) d (timers p) s1) in *.
  assert (step p2 (Arranged d') = with_api d' p2) as E2 by done.
  assert (inv (with_api d' p2)) as Hp2 by (split; [done|]; by intros d2 [= <-]).
  set (s3 := savePanelPositions true roomy d' (mode_ p) (setDockLayout true roomy s1 (mode_ p) (toJSON d'))).
  assert (step (with_api d' p2) LayoutChanged = settled (mode_ p) d' (timers p) s3) as E3
    by (unfold DockLayout.step, handle; by rewrite (layout_change_spec _ d')).
  exists (timers p), s3, (saved d' (saved d o)).
  assert (positions s1 (mode_ p) = VObject (saved d o)) as Hpos1.
  { unfold s1. rewrite (savePanelPositions_eq d _ _ o) by (done || by rewrite layout_positions).
    rewrite positions_read by by apply saved_good. by rewrite bool_decide_true. }
  split_and!.
  - unfold DockLayout.run. cbn [foldl]. by rewrite E1, E2, E3.
  - apply settled_inv; [|done]. unfold s3. by apply store_positions_ok; [apply store_layout_ok|].
  - assert (good (saved d o)) by by apply saved_good.
    unfold s3. rewrite (savePanelPositions_eq d' _ _ (saved d o)) by (by rewrite ?layout_positions).
    rewrite positions_read by by apply saved_good. by rewrite bool_decide_true.
  - intros pre g l1 l2 post Hg. rewrite saved_get, bool_decide_false by done. pose proof (panels_distinct d) as Hnd.
    assert (id ∈ panels d) as Hin.
    { unfold panels. rewrite Hg, flat_map_app. apply elem_of_app. right. cbn. apply elem_of_app. left.
      apply elem_of_app. right. by left. }
    rewrite saved_get, bool_decide_true by done.
    rewrite (group_of_split d id pre g (l1 ++ id :: l2) post Hg) by (apply elem_of_app; right; by left).
    rewrite findIndex_split; [done|]. intros Hl1. unfold panels in Hnd. rewrite Hg, flat_map_app in Hnd.
    apply NoDup_app in Hnd as (_ & _ & Hnd). cbn in Hnd. rewrite <-app_assoc in Hnd.
    apply NoDup_app in Hnd as (_ & Hnd & _). apply (Hnd id Hl1). by left.
Qed.

(** C31: a panel that was closed comes back.  dockview reports the layout, the user closes
    one panel, and dockview reports the layout again, with nothing else in between.  Then the
    menu offers the panel, and choosing it there shows it again with all the others, and no
    longer offers it.  If its group has kept other tabs, every group is as it was before,
    with the panel at its index.  (A group is gone with its last tab: a panel that was alone
    in its group, as in the layouts that the page starts with, comes back beside the first
    panel, see [lone_panel_moves].) *)
Theorem closed_panel_returns p d d' id i label :
  reachable p → api p = Some d → panels d ≡ₚ id :: panels d' →
  addItems [] (mode_ p) !! i = Some (label, id, false) →
  let closed := run p [LayoutChanged; Arranged d'; LayoutChanged] in
  let back := step closed (MenuClick i) in
  api closed = Some d' ∧ addItems (menuPanels closed) (mode_ closed) !! i = Some (label, id, false) ∧
  (∃ d'', api back = Some d'' ∧ panels d'' ≡ₚ panels d ∧
    ∀ pre g l1 l2 post, groups d = pre ++ (g, l1 ++ id :: l2) :: post → groups d' = pre ++ (g, l1 ++ l2) :: post →
      groups d'' = groups d) ∧
  addItems (menuPanels back) (mode_ back) !! i = Some (label, id, true).
Proof.
  intros Hp%reachable_dock Hd Hpd Hit. cbv zeta.
  assert (id ∉ panels d') as Hid.
  { pose proof (panels_distinct d) as Hnd. rewrite Hpd in Hnd. by apply NoDup_cons in Hnd as []. }
  destruct (closed_place p d d' id Hp Hd Hid) as (ts & s & o & -> & Hp3 & Ho & Hm).
  { intros x Hx. rewrite Hpd. by right. }
  set (m := mode_ p) in *. set (p3 := settled m d' ts s) in *.
  pose proof (item_state (panels d') i m label id Hit) as Hi3. rewrite bool_decide_false in Hi3 by done.
  split; [done|]. split; [exact Hi3|].
  destruct (menu_click_cases p3 d' i eq_refl) as [(l & id' & Hi' & _ & E)|[_ E]];
    [|by destruct Hid; apply (E label)].
  assert (id' = id) as -> by (change (addItems (panels d') m !! i = Some (l, id', false)) in Hi'; congruence).
  destruct (add_spec p3 d' id Hp3 eq_refl (menu_item _ _ _ _ _ _ Hit) Hid) as (d2 & E2 & Hpd2 & Hpl).
  rewrite E, E2. split.
  - exists d2. split; [done|]. split; [by rewrite Hpd2, Hpd|]. intros pre g l1 l2 post Hg Hg'.
    assert (length l1 < 4) as H4.
    { pose proof (known_length d) as Hk. specialize (Hk (proj2 (proj2 (proj2 Hp d Hd)))). rewrite Hpd in Hk.
      unfold panels in Hk. rewrite Hg', flat_map_app in Hk. cbn in Hk. rewrite !length_app in Hk. lia. }
    specialize (Hpl o g (length l1) Ho (Hm _ _ _ _ _ Hg)).
    destruct Hpl as (pre' & post' & l1' & l2' & Hgs & Hgs' & Hlen).
    { rewrite Hg'. rewrite fmap_app. apply elem_of_app. right. by left. }
    pose proof (group_ids_distinct d') as Hnd. rewrite Hg' in Hnd, Hgs.
    destruct (group_unique _ _ _ _ _ _ _ Hnd Hgs) as (<- & Hl & <-).
    assert (length l1' = length l1) as Hl1 by (apply Hlen; [done|exact H4|]; rewrite <-Hl, length_app; lia).
    apply app_inj_1 in Hl as [-> ->]; [|done]. by rewrite Hgs', Hg.
  - cbn [snd]. change (addItems (panels d2) m !! i = Some (label, id, true)).
    rewrite (item_state _ _ _ _ _ Hit), bool_decide_true; [done|]. rewrite Hpd2. by left.
Qed.
End proofs.

(** ** A dockview of groups alone *)

Definition arrangement_ok (gs : list (string * list string)) : bool :=
  bool_decide (NoDup (flat_map snd gs) ∧ NoDup gs.*1 ∧ Forall (λ g, g.2 ≠ []) gs).
Definition arrangement : Type := { gs | arrangement_ok gs = true }.

(** An arrangement if it is one. *)
Definition arranged (gs : list (string * list string)) : M arrangement unit := λ d,
  match bool_dec (arrangement_ok gs) true with
  | left Hok => (Ok tt, exist _ gs Hok)
  | right _ => (Throw (Error "invalid layout"), d)
  end.

Definition new_group (gs : list (string * list string)) : string := "g" +:+ String.concat EmptyString gs.*1.

(** Where [splice] puts a panel, for the indices of four panels. *)
Definition small_index (index : value) (len : nat) : nat :=
  match index with
  | VNumber n =>
      match List.find (λ i, bool_decide (n = num (Z.of_nat i))) (seq 0 4) with
      | Some i => Nat.min i len
      | None => len
      end
  | _ => len
  end.
Definition put_panel (id : string) (pos : option position) (gs : list (string * list string)) :=
  match pos with
  | Some (InGroup g index) =>
      map (λ h, if String.eqb h.1 g
                then (h.1, take (small_index index (length h.2)) h.2 ++ id :: drop (small_index index (length h.2)) h.2)
                else h) gs
  | _ => (new_group gs, [id]) :: gs
  end.

Definition group_value (g : string * list string) : value := VArray (VString g.1 :: map VString g.2).
Definition string_of (v : value) : option string := match v with VString s => Some s | _ => None end.
Definition group_of_value (v : value) : option (string * list string) :=
  match v with
  | VArray l => ss ← mapM string_of l; match ss with g :: members => Some (g, members) | [] => None end
  | _ => None
  end.
Definition layout_groups (v : value) : option (list (string * list string)) :=
  match v with VObject [(_, VArray l)] => mapM group_of_value l | _ => None end.

#[export] Instance arrangement_dockview : Dockview arrangement := {|
  groups d := `d;
  width _ := num 1000;
  clear _ := exist _ [] eq_refl;
  addPanel id _ pos := d ← StateMonad.get; arranged (put_panel id pos (`d));
  setWidth _ _ := mret tt;
  fromJSON v := match layout_groups v with Some gs => arranged gs | None => lift (Throw TypeError) end;
  toJSON d := VObject [("groups", VArray (map group_value (`d)))];
|}.

Lemma arrangement_ok_spec gs :
  arrangement_ok gs = true ↔ NoDup (flat_map snd gs) ∧ NoDup gs.*1 ∧ Forall (λ g, g.2 ≠ []) gs.
Proof. apply bool_decide_eq_true. Qed.

Lemma arranged_spec gs d :
  arrangement_ok gs = true → ∃ d', arranged gs d = (Ok tt, d') ∧ `d' = gs.
Proof. intros Hok. unfold arranged. destruct (bool_dec _ _); [|done]. by eexists. Qed.

Lemma new_group_fresh gs : new_group gs ∉ gs.*1.
Proof.
  assert (∀ l x, x ∈ l → String.length x ≤ String.length (String.concat EmptyString l)) as Hlen.
  { induction l as [|y l IH]; intros x Hx; [by apply not_elem_of_nil in Hx|].
    assert (String.length (String.concat EmptyString (y :: l)) =
      String.length y + String.length (String.concat EmptyString l)) as E.
    { destruct l; cbn; [lia|]. by rewrite string_app_length. }
    rewrite E. apply elem_of_cons in Hx as [->|Hx]; [lia|]. apply IH in Hx. lia. }
  intros Hin%Hlen. unfold new_group in Hin. rewrite string_app_length in Hin. cbn in Hin. lia.
Qed.

Lemma small_index_spec i len : i < 4 → i ≤ len → small_index (VNumber (num (Z.of_nat i))) len = i.
Proof.
  intros Hi Hl. unfold small_index.
  replace (List.find _ _) with (Some i); [lia|].
  assert (i = 0 ∨ i = 1 ∨ i = 2 ∨ i = 3) as [-> |[-> |[-> | ->]]] by lia; by vm_compute.
Qed.
Lemma small_index_le index len : small_index index len ≤ len.
Proof. unfold small_index. repeat case_match; lia. Qed.

Lemma put_panel_placed id pos gs :
  NoDup gs.*1 → position_ok pos gs → placed id pos gs (put_panel id pos gs).
Proof.
  intros Hnd Hpos. destruct pos as [[q|g index]|]; cbn; [by eexists| |by eexists].
  cbn in Hpos. apply list_elem_of_fmap in Hpos as ([g' l] & -> & Hin).
  apply list_elem_of_split in Hin as (pre & post & ->). cbn in *.
  exists pre, post, (take (small_index index (length l)) l), (drop (small_index index (length l)) l).
  rewrite !take_drop. split_and!; [done| |].
  - rewrite fmap_app in Hnd. cbn in Hnd. apply NoDup_app in Hnd as (_ & Hd & Hnd).
    apply NoDup_cons in Hnd as [Hg _].
    assert (∀ hs : list (string * list string), g' ∉ hs.*1 → map (λ h, if String.eqb h.1 g'
      then (h.1, take (small_index index (length h.2)) h.2 ++ id :: drop (small_index index (length h.2)) h.2)
      else h) hs = hs) as Hid.
    { induction hs as [|h hs IH]; [done|]. cbn. intros [Hh Hhs]%not_elem_of_cons.
      destruct (String.eqb_spec h.1 g'); [congruence|]. by rewrite IH. }
    rewrite map_app. cbn. rewrite String.eqb_refl. rewrite !Hid; [done|done|].
    intros Hpre. apply (Hd g' Hpre). by left.
  - intros i -> Hi Hl. rewrite small_index_spec by done. rewrite length_take. lia.
Qed.

Lemma put_panel_ok id pos gs :
  arrangement_ok gs = true → id ∉ flat_map snd gs → position_ok pos gs → arrangement_ok (put_panel id pos gs) = true.
Proof.
  rewrite !arrangement_ok_spec. intros (Hp & Hg & Hu) Hid Hpos.
  pose proof (put_panel_placed id pos gs Hg Hpos) as Hpl. split; [|split].
  - rewrite (placed_panels _ _ _ _ Hpl). by apply NoDup_cons.
  - destruct pos as [[q|g index]|]; [cbn..|cbn].
    + apply NoDup_cons. split; [apply new_group_fresh|done].
    + replace (map _ gs).*1 with gs.*1; [done|]. clear. induction gs as [|h gs IH]; [done|]. cbn.
      rewrite IH. by destruct (String.eqb h.1 g).
    + apply NoDup_cons. split; [apply new_group_fresh|done].
  - destruct pos as [[q|g index]|]; cbn; [by constructor| |by constructor].
    apply Forall_map. eapply Forall_impl; [exact Hu|]. intros h Hh. cbn.
    destruct (String.eqb h.1 g); [|done]. cbn. by destruct (take _ _).
Qed.

(** The serialized layout determines the groups, whatever order its properties are in. *)
Lemma same_strings ss l : Forall2 same (map VString ss) l → l = map VString ss.
Proof.
  revert l. induction ss as [|s ss IH]; intros l Hl; [by apply Forall2_nil_inv_l in Hl|].
  apply Forall2_cons_inv_l in Hl as (v & l' & Hv & Hl & ->). rewrite (IH l' Hl). by inversion Hv.
Qed.
Lemma same_groups gs l : Forall2 same (map group_value gs) l → l = map group_value gs.
Proof.
  revert l. induction gs as [|[g ms] gs IH]; intros l Hl; [by apply Forall2_nil_inv_l in Hl|].
  apply Forall2_cons_inv_l in Hl as (v & l' & Hv & Hl & ->). rewrite (IH l' Hl). cbn. f_equal.
  inversion Hv as [|? ? Hs|]; subst; [done|].
  by apply (same_strings (g :: ms)) in Hs as ->.
Qed.
Lemma layout_groups_same gs v :
  same (VObject [("groups", VArray (map group_value gs))]) v → layout_groups v = Some gs.
Proof.
  intros Hs. assert (v = VObject [("groups", VArray (map group_value gs))]) as ->.
  { inversion Hs as [|?|? o1 o' Hp Hf]; subst; [done|]. apply Permutation_singleton_l in Hp as <-.
    apply Forall2_cons_inv_l in Hf as ([k w] & ? & [Hk Hw] & Hn & ->). apply Forall2_nil_inv_l in Hn as ->.
    cbn in Hk, Hw. subst k. do 3 f_equal. inversion Hw as [|? ? Hl|]; subst; [done|].
    by apply same_groups in Hl as ->. }
  cbn [layout_groups]. apply mapM_Some, Forall2_fmap_l, Forall_Forall2_diag, Forall_forall. intros [g ms] _.
  cbn -[mapM]. assert (mapM string_of (VString g :: map VString ms) = Some (g :: ms)) as ->; [|done].
  apply mapM_Some. constructor; [done|]. by apply Forall2_fmap_l, Forall_Forall2_diag, Forall_forall.
Qed.

#[export] Instance arrangement_laws : DockviewLaws arrangement.
Proof.
  assert (∀ d : arrangement, NoDup (flat_map snd (`d)) ∧ NoDup (`d).*1 ∧ Forall (λ g, g.2 ≠ []) (`d)) as Hd.
  { intros [gs Hgs]. by apply arrangement_ok_spec. }
  split.
  - intros d. apply Hd.
  - intros d. apply Hd.
  - intros d. apply Hd.
  - done.
  - intros id t pos d Hid Hpos. destruct (arranged_spec (put_panel id pos (`d)) d) as (d' & E & Hg).
    + apply put_panel_ok; [|done..]. by destruct d.
    + exists d'. split; [done|]. cbn [groups arrangement_dockview]. rewrite Hg.
      apply put_panel_placed; [apply Hd|done].
  - done.
  - intros d. split_and!; [by eexists|..].
    + apply json_ok_object. repeat constructor. apply json_ok_array, Forall_map, Forall_forall. intros g _.
      apply json_ok_array. constructor; [done|]. by apply Forall_map, Forall_forall.
    + apply distinct_names_object. split; [apply NoDup_singleton|]. repeat constructor.
      apply distinct_names_array, Forall_map, Forall_forall. intros g _.
      apply distinct_names_array. constructor; [done|]. by apply Forall_map, Forall_forall.
  - intros d d0 v Hs%layout_groups_same. destruct (arranged_spec (`d) d0) as (d' & E & Hg); [by destruct d|].
    exists d'. cbn. rewrite Hs. split; [done|]. by rewrite Hg.
Qed.

(** ** A session *)

Definition nothing_shown : arrangement := exist _ [] eq_refl.
Definition one_group : arrangement := exist _ [("a", ["canvas"; "details"])] eq_refl.
Definition canvas_closed : arrangement := exist _ [("a", ["details"])] eq_refl.

Definition first_view : dock arrangement :=
  run true roomy (unmounted ∅) [Mount View nothing_shown; Arranged one_group].

Lemma first_view_reachable : reachable first_view.
Proof.
  unfold first_view, run. cbn [foldl]. apply reach_step; [apply reach_step; [|done]|].
  - constructor. by intros [].
  - unfold event_ok. destruct (api _) as [d|] eqn:E; [|done].
    assert (panels d = ["canvas"; "details"] ∨ panels d = ["details"; "canvas"]) as Hd.
    { vm_compute in E. injection E as <-. by right. }
    change (["canvas"; "details"] ⊆ panels d). destruct Hd as [-> | ->]; set_solver.
Qed.
Lemma first_view_api : api first_view = Some one_group.
Proof. by vm_compute. Qed.
Lemma first_view_mode : mode_ first_view = View.
Proof. by vm_compute. Qed.

(** The layout for editing is reset meanwhile. *)
Lemma layout_survives_witness :
  restored View one_group
    (step true roomy (run true roomy (step true roomy first_view (ModeChanged Edit))
      [LayoutChanged; ResetClick; Sized]) (ModeChanged View)).
Proof.
  destruct (layout_survives first_view one_group Edit [LayoutChanged; ResetClick; Sized] nothing_shown) as [H _].
  - exact first_view_reachable.
  - exact first_view_api.
  - by rewrite first_view_mode.
  - repeat split.
  - rewrite first_view_mode in H. exact H.
Defined.

Lemma closed_panel_returns_witness :
  let closed := run true roomy first_view [LayoutChanged; Arranged canvas_closed; LayoutChanged] in
  addItems (menuPanels closed) (mode_ closed) !! 1 = Some ("Canvas", "canvas", false) ∧
  ∃ d, api (step true roomy closed (MenuClick 1)) = Some d ∧ groups d = [("a", ["canvas"; "details"])].
Proof.
  destruct (closed_panel_returns first_view one_group canvas_closed "canvas" 1 "Canvas")
    as (_ & H1 & (d & H2 & _ & H3) & _).
  - exact first_view_reachable.
  - exact first_view_api.
  - reflexivity.
  - rewrite first_view_mode. reflexivity.
  - split; [exact H1|]. exists d. split; [exact H2|].
    exact (H3 [] "a" [] ["details"] [] eq_refl eq_refl).
Defined.

(** The layout that the page starts with has each panel alone in its group: the canvas,
    closed and chosen again, is shown again, but in a new group. *)
Definition started : dock arrangement := run true roomy (unmounted ∅) [Mount View nothing_shown].
Example lone_panel_moves :
  option_map groups (api started) = Some [("gg", ["details"]); ("g", ["canvas"])] ∧
  option_map groups (api (run true roomy started
    [LayoutChanged; Arranged (exist _ [("gg", ["details"])] eq_refl); LayoutChanged; MenuClick 1])) =
    Some [("ggg", ["canvas"]); ("gg", ["details"])].
Proof. by vm_compute. Qed.
