(* ===== verification/App.v ===== *)
(** * App: the visualizer's pages
    (tools/visualizer/src/App.tsx and components/PlanSelector.tsx, SourcePanel.tsx, Toolbar.tsx)

    The application shows one of three pages: the plan selector, the registries or a plan,
    which is viewed or edited.  Which one follows from the component's own state and the
    store's plan.  Its handlers act on the store and on the browser's history; the plan
    selector also opens files.  The fetch of a plan to edit is a pending request whose
    answer arrives later. *)

From S2P Require Import Prelude StateMonad Collections JsNumber JsValue StableStringify Json.
From S2P Require Import Preferences VisGraph VisStore Jsx.

(** ** State *)

Inductive AppView := HomeView | PlanView | RegistriesView.

(** The component's state, the requests of [handleEditPlanByName] by plan name, the files
    being read, with whether the selector that asked is still there, what the selector
    keeps and the store. *)
Record app := {
  mode_ : mode;
  currentView : AppView;
  fetches : list string;
  reading : list (string * bool);
  isDraggingFile : bool;
  localError : option string;
  vis : machine;
}.

Definition show (md : mode) (v : AppView) (p : app) : app :=
  {| mode_ := md; currentView := v; fetches := fetches p; reading := reading p; isDraggingFile := isDraggingFile p;
     localError := localError p; vis := vis p |}.
Definition setCurrentView (v : AppView) (p : app) : app := show (mode_ p) v p.
Definition with_fetches (l : list string) (p : app) : app :=
  {| mode_ := mode_ p; currentView := currentView p; fetches := l; reading := reading p; isDraggingFile := isDraggingFile p;
     localError := localError p; vis := vis p |}.
Definition with_selector (dragging : bool) (e : option string) (p : app) : app :=
  {| mode_ := mode_ p; currentView := currentView p; fetches := fetches p; reading := reading p; isDraggingFile := dragging;
     localError := e; vis := vis p |}.
Definition with_reading (l : list (string * bool)) (p : app) : app :=
  {| mode_ := mode_ p; currentView := currentView p; fetches := fetches p; reading := l;
     isDraggingFile := isDraggingFile p; localError := localError p; vis := vis p |}.
Definition with_vis (m : machine) (p : app) : app :=
  {| mode_ := mode_ p; currentView := currentView p; fetches := fetches p; reading := reading p;
     isDraggingFile := isDraggingFile p; localError := localError p; vis := m |}.
(** A call of store actions that do not throw. *)
Definition on_store (c : M machine unit) (p : app) : app := with_vis (c (vis p)).2 p.

Definition plan_shown (p : app) : bool := truthy (planJson (st_plan (store (vis p)))).

(** ** Pages *)

Definition showHomePage (p : app) : bool :=
  match currentView p, mode_ p with HomeView, View => negb (plan_shown p) | _, _ => false end.
Definition showRegistries (p : app) : bool :=
  match currentView p with RegistriesView => true | _ => false end.
Definition showPlanView (p : app) : bool := negb (showHomePage p) && negb (showRegistries p).

(** ** Effects *)

Definition updateViewFromUrl (params : string → option string) (p : app) : app :=
  setCurrentView
    (if strict_equal (param params "view") (VString "registries") then RegistriesView
     else if truthy (param params "plan") then PlanView
     else HomeView) p.

(** The plan selector appears: it loads the index; or it is gone, with its state. *)
Definition mount_selector (p : app) : app := on_store (loadIndex Nobody) p.
Definition unmount_selector (p : app) : app :=
  with_reading (map (λ r, (r.1, false)) (reading p)) (with_selector false None p).

(** The effects after a render: the plan selector's, and the one on the plan; [replaced]
    says that the plan is another object. *)
Definition commit (replaced : bool) (before after : app) : app :=
  let p := if showHomePage after then (if showHomePage before then after else mount_selector after)
           else unmount_selector after in
  if plan_shown p && (replaced || negb (plan_shown before)) then setCurrentView PlanView p else p.

(** ** Handlers *)

Definition handleGoHome (p : app) : app :=
  on_store (pushState [] Pathname) (show View HomeView (on_store (clearPlan ;; setEditSourceCode None) p)).
Definition edit_source (code : option string) (p : app) : app :=
  show Edit PlanView (on_store (setEditSourceCode code) p).
Definition handleCreateNew : app → app := edit_source None.
Definition handleEditCurrent (p : app) : app :=
  match sourceCode (st_source (store (vis p))) with
  | Some (String c s) => edit_source (Some (String c s)) p
  | _ => p
  end.
(** The address is [/sources/<name>.plan.ts]. *)
Definition handleEditPlanByName (planName : string) (p : app) : app := with_fetches (fetches p ++ [planName]) p.
Definition edit_arrives (r : response) (p : app) : app :=
  edit_source (match r with Body v => string_or_none v | _ => None end) p.
Definition handleBrowseRegistries (p : app) : app :=
  let missing := match registries (st_registry (store (vis p))) with None => true | Some _ => false end in
  on_store
    ((if missing then loadRegistries Nobody else mret tt) ;;
     pushState [("view", VString "registries")] (Query "?view=registries&tab=keys"))
    (show View RegistriesView (on_store clearPlan p)).
Definition handleBrowsePlans (p : app) : app :=
  on_store (pushState [] Pathname) (show View HomeView (on_store clearPlan p)).

(** ** What is shown *)

Definition activeNav (p : app) : string :=
  if showRegistries p then "registries" else match mode_ p with Edit => "editor" | View => "plans" end.

(** The text beside the navigation bar. *)
Definition context_info (p : app) : result (list string) :=
  let fileName := fileName (st_plan (store (vis p))) in
  f ← shown fileName;
  Ok ((if truthy fileName || negb (String.eqb f EmptyString) then [f] else []) ++
      (match mode_ p with Edit => if truthy fileName then [] else ["New Plan"] | View => [] end)).

(** The source panel: its title and what is in it. *)
Inductive source_view :=
| SourceCollapsed
| SourceLoading (title : string)
| SourceText (title code : string)
| SourceMissing (title : string) (expected : list string).

Definition SourcePanel (s : Store) : result source_view :=
  let src := st_source s in
  n ← (match planJson (st_plan s) with VUndefined | VNull => Ok VUndefined | j => get_prop j "plan_name" end);
  planName ← shown (js_or n (VString "unknown"));
  Ok (if sourceCollapsed src then SourceCollapsed
      else if sourceLoading src then SourceLoading (planName +:+ ".plan.ts")
      else
        match sourceCode src with
        | Some (String c r) => SourceText (planName +:+ ".plan.ts") (String c r)
        | _ => SourceMissing (planName +:+ ".plan.ts")
                 ["plans/" +:+ planName +:+ ".plan.ts"; "examples/plans/" +:+ planName +:+ ".plan.ts"]
        end).

(** The toolbar: the badge, and whether the plan can be edited. *)
Definition Toolbar (editable : bool) (s : Store) : option (string * bool) :=
  if negb (truthy (planJson (st_plan s))) then None
  else
    let '(nodes, edges) := match graph (st_plan s) with
      | Some g => (length (vis_nodes g), length (vis_edges g)) | None => (0, 0) end in
    Some (pretty nodes +:+ " nodes, " +:+ pretty edges +:+ " edges",
          is_text (sourceCode (st_source s)) && editable).

(** ** Opening a file *)

(** [k in v], for an object: arrays have no member of these names. *)
Definition has_member (v : value) (k : string) : bool :=
  match v with VObject o => has_prop o k | _ => false end.
Definition required_fields : list string := ["schema_version"; "plan_name"; "nodes"].

Section events.
Context (dagre : LayoutOptions → list (value * number * number) → list (value * value) →
  result (value → option (number * number))).
Context (host_message : string) (syntax_error : string → string).

(** [handleFile] up to reading the file. *)
Definition handleFile (name : string) (p : app) : app :=
  if endsWith name ".json" then with_reading (reading p ++ [(name, true)]) (with_selector (isDraggingFile p) None p)
  else with_selector (isDraggingFile p) (Some "Please drop a .json file") p.

(** The rest, with the file's text or why it cannot be read: what to show as an error.
    What [loadPlan] throws is caught too. *)
Definition open_file (name : string) (contents : result string) : M machine (option string) :=
  try_catch
    (text ← lift contents;
     json ← lift (match JSON_parse text with Some v => Ok v | None => Throw (Error (syntax_error text)) end);
     if negb (is_object json) || negb (forallb (has_member json) required_fields) then
       mret (Some "Invalid plan JSON: missing required fields")
     else
       version ← lift (get_prop json "schema_version");
       if negb (strict_equal version (VNumber (num 1))) then
         t ← lift (template version); mret (Some ("Unsupported schema_version: " +:+ t))
       else
         loadPlan dagre json (VString name) false ;; mret None)
    (λ e, mret (Some ("Failed to parse JSON: " +:+ message_of host_message e))).
Definition file_read (name : string) (mounted : bool) (contents : result string) (p : app) : app :=
  match open_file name contents (vis p) with
  | (Ok (Some e), m) =>
      with_vis m (if mounted then with_selector (isDraggingFile p) (Some e) p else p)
  | (_, m) => with_vis m p
  end.

(** The first file dropped, if there is one. *)
Definition handleDrop (file : option string) (p : app) : app :=
  let p := with_selector false (localError p) p in
  match file with Some name => handleFile name p | None => p end.
Definition handleDragOver (p : app) : app := with_selector true (localError p) p.
Definition handleDragLeave (p : app) : app := with_selector false (localError p) p.
(** The file chosen in the dialog. *)
Definition handleBrowse (file : option string) (p : app) : app :=
  match file with Some name => handleFile name p | None => p end.

(** A click on a plan's name in the list. *)
Definition handlePlanClick (name : value) (p : app) : app :=
  if planLoading (st_plan (store (vis p))) then p else on_store (loadPlanByName host_message name Nobody) p.

Definition selector_error (p : app) : option string :=
  let first a b := if is_text a then a else b in
  first (localError p) (first (planError (st_plan (store (vis p)))) (indexError (st_index (store (vis p))))).

(** The list: nothing, or the plans with what built them. *)
Inductive plan_list := ListLoading | NoList | Plans (l : list (string * string)).
Definition plan_entry (plan : value) : result (string * string) :=
  n ← shown_prop "name" plan;
  b ← get_prop plan "built_by";
  k ← (match b with VUndefined | VNull => Ok VUndefined | _ => get_prop b "backend" end);
  t ← shown (js_or k (VString "unknown"));
  Ok (n, t).
Definition available_plans (s : Store) : result plan_list :=
  if indexLoading (st_index s) then Ok ListLoading
  else
    match planIndex (st_index s) with
    | VArray (e :: l) => ps ← collect plan_entry (e :: l); Ok (Plans ps)
    | _ => Ok NoList
    end.

(** ** Events *)

Inductive app_event :=
| GoHome | CreateNew | EditCurrent | EditPlanByName (name : string) | EditArrives (i : nat) (r : response)
| BrowseRegistries | BrowsePlans
| DropFile (file : option string) | DragOver | DragLeave | BrowseFile (file : option string)
| FileRead (i : nat) (contents : result string)
| PlanClick (name : value)
| StoreEvent (ev : event).

Definition handle (e : app_event) (p : app) : app :=
  match e with
  | GoHome => handleGoHome p
  | CreateNew => handleCreateNew p
  | EditCurrent => handleEditCurrent p
  | EditPlanByName name => handleEditPlanByName name p
  | EditArrives i r =>
      match fetches p !! i with
      | Some _ => edit_arrives r (with_fetches (list_delete i (fetches p)) p)
      | None => p
      end
  | BrowseRegistries => handleBrowseRegistries p
  | BrowsePlans => handleBrowsePlans p
  | DropFile file => handleDrop file p
  | BrowseFile file => handleBrowse file p
  | DragOver => handleDragOver p
  | DragLeave => handleDragLeave p
  | FileRead i contents =>
      match reading p !! i with
      | Some (name, mounted) => file_read name mounted contents (with_reading (list_delete i (reading p)) p)
      | None => p
      end
  | PlanClick name => handlePlanClick name p
  | StoreEvent (Pop e) => updateViewFromUrl (url_param e) (with_vis (VisStore.step dagre host_message (vis p) (Pop e)) p)
  | StoreEvent ev => with_vis (VisStore.step dagre host_message (vis p) ev) p
  end.
Definition step (replaced : bool) (p : app) (e : app_event) : app := commit replaced p (handle e p).

(** The first render, at an address. *)
Definition mount (params : string → option string) : app :=
  let p := {| mode_ := View; currentView := HomeView; fetches := []; reading := []; isDraggingFile := false;
              localError := None; vis := initial params |} in
  let p := updateViewFromUrl params p in
  commit true p (if showHomePage p then mount_selector p else p).
End events.

(** ** Files are opened or refused *)

Section files.
Context (dagre : LayoutOptions → list (value * number * number) → list (value * value) →
  result (value → option (number * number))).
Context (host_message : string) (syntax_error : string → string).

(** The file is a plan that can be drawn. *)
Definition is_plan_file (name text : string) (json : value) (g : VisGraph) : Prop :=
  endsWith name ".json" = true ∧ JSON_parse text = Some json ∧ is_object json = true ∧
  forallb (has_member json) required_fields = true ∧
  (∃ v, get_prop json "schema_version" = Ok v ∧ strict_equal v (VNumber (num 1)) = true) ∧
  (parsed ← parsePlan json; layoutGraph dagre default_options parsed) = Ok g.

(** The entry that [loadPlan] pushes: none while a [popstate] is being handled, and none when
    the plan's name cannot be written, as an object with a member [toString]. *)
Definition plan_entries (m : machine) (json : value) : list pushed :=
  if isHandlingPopState m then []
  else
    match n ← get_prop json "plan_name"; t ← template n; Ok (n, t) with
    | Ok (n, t) => [{| pushed_state := [("plan", n)]; pushed_url := Query ("?plan=" +:+ t) |}]
    | Throw _ => []
    end.

(** The plan is in the store before its name is written: that this can throw only costs the
    entry of the history. *)
Lemma loadPlan_outcome json file m :
  (∃ g m' r, (parsed ← parsePlan json; layoutGraph dagre default_options parsed) = Ok g ∧
     loadPlan dagre json file false m = (r, m') ∧
     st_plan (store m') = {| planJson := json; fileName := file; graph := Some g;
       planLoading := planLoading (st_plan (store m)); planError := None |} ∧
     history m' = history m ++ plan_entries m json) ∨
  (∃ e, loadPlan dagre json file false m = (Throw e, m) ∧
     ∀ g, (parsed ← parsePlan json; layoutGraph dagre default_options parsed) ≠ Ok g).
Proof.
  unfold loadPlan, mbind, M_bind, lift.
  destruct (parsePlan json) as [parsed|e] eqn:Hp; [|right; eexists; split; [done|]; intros g; done].
  destruct (layoutGraph dagre default_options parsed) as [g|e] eqn:Hg;
    [|right; eexists; split; [done|]; intros g; cbn; by rewrite Hg].
  left. exists g. destruct m as [st flag h ops]. unfold plan_entries.
  unfold set_plan, set_canvas, unless_popstate, pushState, modify, StateMonad.get.
  cbn -[template get_prop]. destruct flag; cbn -[template get_prop].
  { do 2 eexists. split; [by rewrite Hg|]. split; [reflexivity|]. cbn. by rewrite app_nil_r. }
  destruct (get_prop json "plan_name") as [n|e]; cbn -[template].
  2: { do 2 eexists. split; [by rewrite Hg|]. split; [reflexivity|]. cbn. by rewrite app_nil_r. }
  destruct (template n) as [t|e]; do 2 eexists; (split; [by rewrite Hg|]; split; [reflexivity|]; cbn);
    by rewrite ?app_nil_r.
Qed.

(** A file that is read leaves the store alone and an error, or is the plan shown. *)
Lemma open_file_outcome name text m :
  endsWith name ".json" = true →
  (∃ json g m' o, is_plan_file name text json g ∧
     open_file dagre host_message syntax_error name (Ok text) m = (Ok o, m') ∧
     st_plan (store m') = {| planJson := json; fileName := VString name; graph := Some g;
       planLoading := planLoading (st_plan (store m)); planError := None |} ∧
     history m' = history m ++ plan_entries m json) ∨
  (∃ e, (∀ json g, ¬ is_plan_file name text json g) ∧ e ≠ EmptyString ∧
     open_file dagre host_message syntax_error name (Ok text) m = (Ok (Some e), m)).
Proof.
  intros Hname. unfold open_file, try_catch, mbind, M_bind, lift.
  assert (∀ s t, String s t ≠ EmptyString) as Hne by done.
  destruct (JSON_parse text) as [json|] eqn:Hj;
    [|right; eexists; split; [intros json g (_ & H & _); congruence|split; [apply Hne|done]]].
  cbn -[get_prop required_fields loadPlan template num].
  destruct (negb (is_object json) || negb (forallb (has_member json) required_fields)) eqn:Hf.
  { right. eexists. split; [|split; [apply Hne|done]].
    intros j g (_ & H & Ho & Hr & _). rewrite H in Hj. injection Hj as <-. by rewrite Ho, Hr in Hf. }
  apply orb_false_iff in Hf as [Ho%negb_false_iff Hr%negb_false_iff].
  destruct (get_prop json "schema_version") as [v|e] eqn:Hv.
  2:{ right. eexists. split; [|split; [apply Hne|done]].
      intros j g (_ & H & _ & _ & (w & Hw & _) & _). rewrite H in Hj. injection Hj as <-. congruence. }
  destruct (strict_equal v (VNumber (num 1))) eqn:H1; cbn [negb].
  2:{ right. assert (∀ json g, ¬ is_plan_file name text json g) as Hno.
      { intros j g (_ & H & _ & _ & (w & Hw & Hw1) & _). rewrite H in Hj. injection Hj as <-.
        rewrite Hv in Hw. injection Hw as ->. congruence. }
      destruct (template v) as [t|e]; eexists; (split; [done|split; [apply Hne|done]]). }
  destruct (loadPlan_outcome json (VString name) m) as [(g & m' & r & Hg & Hl & Hs & Hh)|(e & Hl & Hno)]; rewrite Hl.
  - left. assert (is_plan_file name text json g) as Hf' by (split_and!; [done..| |done]; by exists v).
    destruct r as [[]|e]; do 4 eexists; by (split; [exact Hf'|]).
  - right. eexists. split; [|split; [apply Hne|done]].
    intros j g (_ & H & _ & _ & _ & Hg). rewrite H in Hj. injection Hj as <-. by eapply Hno.
Qed.

Lemma handleFile_store name p : vis (handleFile name p) = vis p ∧ mode_ (handleFile name p) = mode_ p ∧
  currentView (handleFile name p) = currentView p.
Proof. unfold handleFile. by case_match. Qed.

(** What one event leaves of a home page that stays. *)
Lemma commit_home replaced p q :
  showHomePage p = true → showHomePage q = true → commit replaced p q = q.
Proof.
  intros Hp Hq. unfold commit. rewrite Hp, Hq. unfold showHomePage in Hq.
  destruct (currentView q), (mode_ q); try done. by destruct (plan_shown q).
Qed.
Lemma home_inv p : showHomePage p = true → currentView p = HomeView ∧ mode_ p = View ∧ plan_shown p = false.
Proof.
  unfold showHomePage. destruct (currentView p), (mode_ p); try done. by destruct (plan_shown p).
Qed.
Lemma home_intro p : currentView p = HomeView → mode_ p = View → plan_shown p = false → showHomePage p = true.
Proof. unfold showHomePage. by intros -> -> ->. Qed.

(** The outcome of opening a file on the home page. *)
Lemma file_outcome name text p :
  showHomePage p = true → reading p = [] →
  let after := step dagre host_message syntax_error true
    (step dagre host_message syntax_error false p (DropFile (Some name))) (FileRead 0 (Ok text)) in
  (∃ json g, is_plan_file name text json g ∧ showPlanView after = true ∧ localError after = None ∧
     planJson (st_plan (store (vis after))) = json ∧
     fileName (st_plan (store (vis after))) = VString name ∧
     graph (st_plan (store (vis after))) = Some g ∧
     planError (st_plan (store (vis after))) = None ∧
     history (vis after) = history (vis p) ++ plan_entries (vis p) json) ∨
  ((∀ json g, ¬ is_plan_file name text json g) ∧ showHomePage after = true ∧ vis after = vis p ∧
     ∃ e, e ≠ EmptyString ∧ selector_error after = Some e).
Proof.
  intros Hhome Hread. cbv zeta. apply home_inv in Hhome as Hp. destruct Hp as (Hv & Hm & Hps).
  set (p1 := handleFile name (with_selector false (localError p) p)).
  assert (step dagre host_message syntax_error false p (DropFile (Some name)) = p1) as ->.
  { apply (commit_home false p p1); [done|].
    apply home_intro; unfold p1, handleFile; destruct (endsWith name ".json"); done. }
  destruct (endsWith name ".json") eqn:Hname.
  - assert (reading p1 = [(name, true)]) as Hr1.
    { unfold p1, handleFile. rewrite Hname. cbn. by rewrite Hread. }
    assert (showHomePage p1 = true) as Hhome1.
    { apply home_intro; unfold p1, handleFile; by rewrite Hname. }
    assert (localError p1 = None ∧ vis p1 = vis p) as [Hl1 Hvis1].
    { unfold p1, handleFile. by rewrite Hname. }
    clearbody p1. unfold step. cbn [handle]. rewrite Hr1. cbn [lookup list_lookup list_delete].
    apply home_inv in Hhome1 as Hp1. destruct Hp1 as (Hv1 & Hm1 & Hps1).
    unfold file_read. cbn [vis with_reading].
    destruct (open_file_outcome name text (vis p1) Hname) as
      [(json & g & m' & o & Hf & -> & Hs & Hh)|(e & Hno & He & ->)].
    + left. exists json, g. split; [done|]. set (q := match o with Some e => _ | None => _ end).
      assert (vis q = m') as Hvq by (unfold q; by destruct o).
      assert (plan_shown q = true) as Hq.
      { unfold plan_shown. rewrite Hvq, Hs. cbn. destruct Hf as (_ & _ & Ho & _). by destruct json. }
      assert (showHomePage q = false) as Hnh.
      { unfold showHomePage. rewrite Hq. by destruct (currentView q), (mode_ q). }
      unfold commit. rewrite Hnh. change (plan_shown (unmount_selector q)) with (plan_shown q). rewrite Hq.
      cbn [andb orb]. unfold showPlanView, showHomePage. cbn [currentView setCurrentView show].
      split; [done|]. split; [done|]. cbn [vis setCurrentView show unmount_selector with_selector with_reading].
      by rewrite Hvq, Hs, Hh, Hvis1.
    + right. split; [done|]. rewrite commit_home; [| |by apply home_intro]; [|done].
      split; [by apply home_intro|]. split; [by cbn; rewrite Hvis1|].
      exists e. split; [done|]. unfold selector_error. cbn. by destruct e.
  - right. split; [by intros json g (H & _); congruence|].
    assert (p1 = with_selector false (Some "Please drop a .json file") p) as Hp1.
    { unfold p1, handleFile. by rewrite Hname. }
    unfold step. cbn [handle]. rewrite Hp1. cbn [reading with_selector]. rewrite Hread. cbn [lookup list_lookup].
    rewrite commit_home by (by apply home_intro).
    split; [by apply home_intro|]. split; [done|].
    exists "Please drop a .json file". by split.
Qed.

(** C32: Opening a file on the home page has one of two outcomes.  A JSON file with the
    fields of a plan of version 1 that can be laid out is shown, under the file's name, on
    the plan's page, without an error, and gets an entry of the history (unless a [popstate]
    is being handled, or the plan's name is no text: [loadPlan] throws at that when the plan
    is already in the store, and the error goes with the page that would show it).  For any
    other file the home page stays, with an error, and nothing of the store has changed. *)
Theorem file_opened_or_refused name text p :
  showHomePage p = true → reading p = [] →
  let after := step dagre host_message syntax_error true
    (step dagre host_message syntax_error false p (DropFile (Some name))) (FileRead 0 (Ok text)) in
  (∃ json g, is_plan_file name text json g ∧ showPlanView after = true ∧ localError after = None ∧
     planJson (st_plan (store (vis after))) = json ∧
     fileName (st_plan (store (vis after))) = VString name ∧
     graph (st_plan (store (vis after))) = Some g ∧
     planError (st_plan (store (vis after))) = None ∧
     history (vis after) = history (vis p) ++ plan_entries (vis p) json) ∨
  ((∀ json g, ¬ is_plan_file name text json g) ∧ showHomePage after = true ∧ vis after = vis p ∧
     ∃ e, e ≠ EmptyString ∧ selector_error after = Some e).
Proof. apply file_outcome. Qed.
End files.

(** ** The home page stays *)

(** Operations that bring no plan and that nobody awaits. *)
Definition quiet (op : operation) : bool :=
  match op with IndexRequest Nobody | SourceRequest _ | RegistriesRequest Nobody => true | _ => false end.
Definition without_plan (m : machine) : Prop :=
  planJson (st_plan (store m)) = VNull ∧ forallb quiet (pending m) = true.

Lemma quiet_app l op : forallb quiet l = true → quiet op = true → forallb quiet (l ++ [op]) = true.
Proof. intros Hl Hop. by rewrite forallb_app, Hl; cbn; rewrite Hop. Qed.

Lemma arrive_without_plan dagre host i rs m :
  without_plan m → without_plan (VisStore.step dagre host m (Arrive i rs)).
Proof.
  intros [Hp Hq]. unfold VisStore.step, run_event, mbind, M_bind, StateMonad.get, modify.
  destruct (pending m !! i) as [op|] eqn:Hi; [|done].
  assert (quiet op = true) as Hop.
  { rewrite forallb_forall in Hq. apply Hq. by eapply list_elem_of_In, list_elem_of_lookup_2. }
  assert (without_plan (with_pending (list_delete i (pending m)) m)) as Hd.
  { split; [done|]. cbn. rewrite forallb_forall in Hq |- *. intros o Ho. apply Hq.
    apply list_elem_of_In in Ho. by eapply list_elem_of_In, (list_elem_of_delete_inv o i). }
  assert (∀ rs, keeps without_plan (complete dagre host op rs)) as H.
  { clear -Hop. intros rs. assert (keeps without_plan (start op)) as Hs.
    { intros m [Hm Hm']. split; [done|]. by apply quiet_app. }
    assert (keeps without_plan (resume Nobody)) as Hr by (apply keeps_ret).
    destruct op as [[]| |n|[]|]; try done; destruct rs as [|r [|r' rs]]; cbn [complete]; try done;
      unfold index_arrives, source_arrives, registries_arrive, set_index, set_source, set_registry; keeps_all. }
  exact (H rs _ Hd).
Qed.

Lemma loadIndex_without_plan m : without_plan m → without_plan (loadIndex Nobody m).2.
Proof. intros [Hp Hq]. split; [done|]. by apply quiet_app. Qed.

Definition at_home (p : app) : Prop :=
  showHomePage p = true ∧ currentView p = HomeView ∧ mode_ p = View ∧ reading p = [] ∧ fetches p = [] ∧
  without_plan (vis p).

Lemma clearPlan_pending m : pending (clearPlan m).2 = pending m ∧ planJson (st_plan (store (clearPlan m).2)) = VNull.
Proof.
  unfold clearPlan, unless_popstate, set_plan, set_canvas, set_source, pushState, modify, StateMonad.get, mbind, M_bind.
  cbn. by destruct (isHandlingPopState m).
Qed.

Lemma settle_home p q :
  currentView q = HomeView → mode_ q = View → reading q = [] → fetches q = [] →
  without_plan (vis q) → at_home (commit false p q).
Proof.
  intros Hv Hm Hr Hf Hw. assert (plan_shown q = false) as Hps by by (unfold plan_shown; rewrite (proj1 Hw)).
  assert (showHomePage q = true) as Hh by by apply home_intro.
  unfold commit. rewrite Hh. destruct (showHomePage p).
  - rewrite Hps. cbn [andb]. done.
  - pose proof (loadIndex_without_plan _ Hw) as Hw'.
    assert (plan_shown (mount_selector q) = false) as Hps'.
    { unfold plan_shown, mount_selector, on_store. cbn [vis with_vis]. by rewrite (proj1 Hw'). }
    rewrite Hps'. cbn [andb]. split; [by apply home_intro|]. done.
Qed.

(** Going home. *)
Definition goes_home (e : app_event) : bool := match e with GoHome | BrowsePlans => true | _ => false end.

Lemma goes_home_at_home dagre host syntax e p :
  goes_home e = true → reading p = [] → fetches p = [] → forallb quiet (pending (vis p)) = true →
  at_home (step dagre host syntax false p e).
Proof.
  intros He Hr Hf Hq. destruct (clearPlan_pending (vis p)) as [Hp1 Hp2].
  destruct e; try done; apply settle_home; try done; unfold without_plan; cbn [handle].
  - unfold handleGoHome, on_store. cbn [vis with_vis show]. unfold mbind, M_bind.
    destruct (clearPlan (vis p)) as [[u|ex] m] eqn:Hc; [|by rewrite <-Hp1 in Hq].
    by rewrite <-Hp1 in Hq.
  - unfold handleBrowsePlans, on_store. cbn [vis with_vis show].
    by rewrite <-Hp1 in Hq.
Qed.

(** A user who goes home stays there.  When neither a plan nor a file is being loaded,
    going to the plan list shows the home page, and no responses, in whatever order and
    whether they succeed or fail, lead away from it. *)
Theorem home_stays dagre host syntax e p arrivals :
  goes_home e = true → reading p = [] → fetches p = [] → forallb quiet (pending (vis p)) = true →
  let home := step dagre host syntax false p e in
  let after := foldl (λ q a, step dagre host syntax false q (StoreEvent (Arrive a.1 a.2))) home arrivals in
  showHomePage after = true ∧ activeNav after = "plans" ∧
  planJson (st_plan (store (vis after))) = VNull.
Proof.
  intros He Hr Hf Hq home after. assert (at_home after) as (Hh & Hv & Hm & _ & _ & [Hw _]).
  { subst after. assert (at_home home) as Hhome by by apply goes_home_at_home.
    generalize dependent home. induction arrivals as [|[i rs] arrivals IH]; intros home Hhome; [done|].
    cbn [foldl]. apply IH. destruct Hhome as (Hh & Hv & Hm & Hrd & Hft & Hw).
    apply settle_home; try done. by apply arrive_without_plan. }
  split; [done|]. split; [|done]. unfold activeNav, showRegistries. by rewrite Hv, Hm.
Qed.

(** ** Samples *)

Definition sample_plan (name : string) : value :=
  VObject [("schema_version", VNumber (num 1)); ("plan_name", VString name);
           ("nodes", VArray []); ("outputs", VArray [])].
Definition sample_step (replaced : bool) : app → app_event → app :=
  step sample_dagre "host" (λ _, "Unexpected token") replaced.
Definition first_page : app := mount no_params.

Lemma file_opened_or_refused_witness :
  let text := json_text 0 (sample_plan "a") in
  let after := sample_step true (sample_step false first_page (DropFile (Some "a.json"))) (FileRead 0 (Ok text)) in
  showHomePage first_page = true ∧ showPlanView after = true ∧
  planJson (st_plan (store (vis after))) = sample_plan "a".
Proof.
  intros text after.
  assert (JSON_parse text = Some (sample_plan "a")) as Hp by by vm_compute.
  assert (showHomePage first_page = true) as Hh by by vm_compute.
  split; [exact Hh|].
  destruct (file_opened_or_refused sample_dagre "host" (λ _, "Unexpected token") "a.json" text first_page)
    as [(json & g & (_ & Hj & _) & Hs & _ & Hpj & _)|(Hno & _)].
  - exact Hh.
  - by vm_compute.
  - split; [exact Hs|]. rewrite Hp in Hj. injection Hj as <-. exact Hpj.
  - exfalso. apply (Hno (sample_plan "a") {| vis_nodes := []; vis_edges := [] |}). clear Hno after.
    split_and!; [vm_compute; reflexivity|exact Hp|vm_compute; reflexivity|vm_compute; reflexivity| |vm_compute; reflexivity].
    exists (VNumber (num 1)). split; vm_compute; reflexivity.
Defined.

Lemma home_stays_witness :
  let home := sample_step false first_page GoHome in
  showHomePage (foldl (λ q a, sample_step false q (StoreEvent (Arrive a.1 a.2))) home
    [(0, [Rejected "offline"])]) = true.
Proof.
  destruct (home_stays sample_dagre "host" (λ _, "Unexpected token") GoHome first_page [(0, [Rejected "offline"])])
    as (H & _); [by vm_compute..|]. exact H.
Defined.

(** Without the condition it does not hold: a plan that was chosen before going home is
    shown when it arrives. *)
Definition index_of (name : string) : value :=
  VObject [("plans", VArray [VObject [("name", VString name); ("path", VString "a.json")]])].
Definition run_app (p : app) (evs : list app_event) : app := foldl (sample_step true) p evs.

Example plan_arrives_after_home :
  let p := run_app first_page
    [StoreEvent (Arrive 0 [Body (index_of "a")]); PlanClick (VString "a"); BrowsePlans] in
  let q := run_app p [StoreEvent (Arrive 0 [Body (sample_plan "a")])] in
  showHomePage p = true ∧ showPlanView q = true.
Proof. by vm_compute. Qed.

(** Going home pushes the same history entry twice, as [clearPlan] has pushed it already:
    one step back stays on the page. *)
Example home_pushes_twice :
  history (vis (sample_step false first_page GoHome)) =
  [{| pushed_state := []; pushed_url := Pathname |}; {| pushed_state := []; pushed_url := Pathname |}] ∧
  history (vis (sample_step false first_page BrowseRegistries)) =
  [{| pushed_state := []; pushed_url := Pathname |};
   {| pushed_state := [("view", VString "registries")]; pushed_url := Query "?view=registries&tab=keys" |}].
Proof. by vm_compute. Qed.

(** The registries' address names the first tab, whichever tab is shown. *)
Example registries_address_wrong_tab :
  let p := run_app first_page
    [BrowseRegistries; StoreEvent (Call (SetRegistryTab "tasks")); BrowsePlans; BrowseRegistries] in
  selectedRegistryTab (st_registry (store (vis p))) = VString "tasks" ∧
  last (history (vis p)) =
    Some {| pushed_state := [("view", VString "registries")]; pushed_url := Query "?view=registries&tab=keys" |}.
Proof. by vm_compute. Qed.

(** An address with the name of no plan: the plan's page is shown, and the message is one
    that only the home page shows. *)
Example unknown_plan_unseen :
  let p := foldl (sample_step false) (mount (λ k, if String.eqb k "plan" then Some "b" else None))
    [StoreEvent (Arrive 0 [Body (index_of "a")]); StoreEvent (Arrive 0 [Body (index_of "a")]);
     StoreEvent (Arrive 0 [])] in
  showPlanView p = true ∧ plan_shown p = false ∧
  planError (st_plan (store (vis p))) = Some "Plan not found: b".
Proof. by vm_compute. Qed.

(** Going back from the editor to the home page's address leaves the editor open. *)
Example back_stays_in_editor :
  let p := run_app first_page
    [CreateNew; StoreEvent (Pop {| state_view := VUndefined; state_tab := VUndefined;
       state_selected := VUndefined; state_plan := VUndefined; url_param := no_params |})] in
  currentView p = HomeView ∧ showPlanView p = true ∧ activeNav p = "editor".
Proof. by vm_compute. Qed.
