(* ===== verification/AppPage.v ===== *)
(** * AppPage: the application as it is drawn and clicked
    (tools/visualizer/src/App.tsx and components/PlanSelector.tsx, what they return)

    What is drawn follows from the state of [App]; each control that is drawn leads to one
    of its events.  The page of a plan is [DockLayout]'s, the registries' is
    [RegistryViewer]'s. *)

From S2P Require Import Prelude StateMonad Collections JsNumber JsValue StableStringify Json.
From S2P Require Import Preferences VisGraph VisStore Jsx App.

(** ** Drawn *)

(** A card of the home page: title, description, and whether it can be clicked. *)
Definition cards : list (string * list string * bool) :=
  [("Create New Plan", ["Write TypeScript code and see"; "the DAG update in real-time"], true);
   ("Browse Existing", ["Select a plan from below"; "or drop a JSON file"], false);
   ("Browse Registries", ["Explore Keys, Params, Features,"; "Capabilities, and Tasks"], true)].

(** The list of plans: of each its name, what built it, and whether Edit can be pressed. *)
Inductive plans_drawn := LoadingPlans | NoPlans | PlanRows (rows : list (string * string * bool)).
Definition rows_of (loading : bool) (l : plan_list) : plans_drawn :=
  match l with
  | ListLoading => LoadingPlans
  | NoList => NoPlans
  | Plans ps => PlanRows (map (λ e, (e, negb loading)) ps)
  end.

Inductive body :=
| Home (plans : plans_drawn) (dropZoneActive : bool) (error : option string)
| Registries
| Docked (m : mode) (editable : bool).

Record page := {
  navigation : list (string * bool);      (* the label, and whether it is the active one *)
  context : list string;
  menu_bar : bool;
  main : body;
}.

Definition nav_items : list (string * string) :=
  [("Editor", "editor"); ("Plans", "plans"); ("Registries", "registries")].

Definition PlanSelector (p : app) : result body :=
  l ← available_plans (store (vis p));
  Ok (Home (rows_of (planLoading (st_plan (store (vis p)))) l) (isDraggingFile p)
        (e ← selector_error p; if is_text (Some e) then Some e else None)).

Definition App (p : app) : result page :=
  texts ← context_info p;
  b ← (if showHomePage p then PlanSelector p
       else if showRegistries p then Ok Registries
       else Ok (Docked (mode_ p) (match mode_ p with View => true | Edit => false end)));
  Ok {| navigation := map (λ i, (i.1, String.eqb (activeNav p) i.2)) nav_items;
        context := texts; menu_bar := showPlanView p; main := b |}.

(** ** Clicked *)

Inductive control :=
| Title | Nav (label : string)
| Card (title : string) | PlanName (i : nat) | EditPlan (i : nat)
| ToolbarEdit.

Definition listed (p : app) (i : nat) : option value :=
  if indexLoading (st_index (store (vis p))) then None
  else match planIndex (st_index (store (vis p))) with VArray l => l !! i | _ => None end.

(** The event of a click, where the control is drawn and not disabled. *)
Definition click (c : control) (p : app) : option app_event :=
  let home := showHomePage p in
  match c with
  | Title => Some GoHome
  | Nav label =>
      if String.eqb label "Editor" then Some CreateNew
      else if String.eqb label "Plans" then Some BrowsePlans
      else if String.eqb label "Registries" then Some BrowseRegistries
      else None
  | Card title =>
      if negb home then None
      else if String.eqb title "Create New Plan" then Some CreateNew
      else if String.eqb title "Browse Registries" then Some BrowseRegistries
      else None
  | PlanName i =>
      if negb home then None
      else
        plan ← listed p i;
        match get_prop plan "name" with Ok n => Some (PlanClick n) | Throw _ => None end
  | EditPlan i =>
      if negb home || planLoading (st_plan (store (vis p))) then None
      else
        plan ← listed p i;
        match n ← get_prop plan "name"; template n with Ok t => Some (EditPlanByName t) | Throw _ => None end
  | ToolbarEdit =>
      match mode_ p, Toolbar true (store (vis p)) with
      | View, Some (_, true) => if showPlanView p then Some EditCurrent else None
      | _, _ => None
      end
  end.

(** ** Where clicks lead *)

(** One page at a time. *)
Lemma one_page p b : App p = Ok b →
  match main b with
  | Home _ _ _ => showHomePage p = true ∧ menu_bar b = false
  | Registries => showRegistries p = true ∧ showHomePage p = false ∧ menu_bar b = false
  | Docked m _ => showPlanView p = true ∧ m = mode_ p ∧ menu_bar b = true
  end.
Proof.
  unfold App, showPlanView. destruct (context_info p) as [texts|]; [|done]. cbn.
  destruct (showHomePage p) eqn:Hh; cbn.
  - unfold PlanSelector. destruct (available_plans _) as [l|]; [|done]. cbn. by intros [= <-].
  - destruct (showRegistries p) eqn:Hr; cbn; by intros [= <-].
Qed.

(** The one that is highlighted is the one whose page is shown. *)
Definition active_label (b : page) : list string := map fst (List.filter snd (navigation b)).
Lemma one_active p b : App p = Ok b → ∃ label, active_label b = [label] ∧ (label, activeNav p) ∈ nav_items.
Proof.
  unfold App, active_label. destruct (context_info p) as [texts|]; [|done]. cbn [mbind result_bind].
  destruct (if showHomePage p then _ else _); [|done]. cbn. intros [= <-]. cbn.
  unfold activeNav, nav_items. destruct (showRegistries p); [|destruct (mode_ p)]; cbn;
    eexists; (split; [done|]); set_solver.
Qed.

Section clicks.
Context (dagre : LayoutOptions → list (value * number * number) → list (value * value) →
  result (value → option (number * number))).
Context (host_message : string) (syntax_error : string → string).
Local Abbreviation step := (step dagre host_message syntax_error).

Definition clicked (p : app) (c : control) : app :=
  match click c p with Some e => step false p e | None => p end.

(** What a navigation click shows: the plan is gone, except from the editor. *)
Definition shows (label : string) (p : app) : Prop :=
  if String.eqb label "Editor" then showPlanView p = true ∧ mode_ p = Edit
  else
    planJson (st_plan (store (vis p))) = VNull ∧ mode_ p = View ∧
    if String.eqb label "Plans" then showHomePage p = true else showRegistries p = true.

Lemma commit_no_plan p q :
  planJson (st_plan (store (vis q))) = VNull →
  let r := commit false p q in
  mode_ r = mode_ q ∧ currentView r = currentView q ∧ planJson (st_plan (store (vis r))) = VNull.
Proof.
  intros Hn. unfold commit.
  assert (∀ x, planJson (st_plan (store (vis x))) = VNull → plan_shown x = false) as Hs by (unfold plan_shown; by intros ? ->).
  destruct (showHomePage q); [destruct (showHomePage p)|]; by rewrite Hs by done.
Qed.

Lemma nav_shows label id p :
  (label, id) ∈ nav_items → shows label (clicked p (Nav label)) ∧ activeNav (clicked p (Nav label)) = id.
Proof.
  intros Hin. destruct (clearPlan_pending (vis p)) as [_ Hc].
  unfold nav_items in Hin. rewrite !elem_of_cons, elem_of_nil in Hin.
  destruct Hin as [[= -> ->]|[[= -> ->]|[[= -> ->]|[]]]]; unfold clicked; cbn [click String.eqb Ascii.eqb Bool.eqb].
  - unfold App.step, shows, activeNav, commit. cbn. by destruct (_ && _).
  - unfold App.step. cbn [handle].
    destruct (commit_no_plan p (handleBrowsePlans p)) as (Hm & Hv & Hj); [done|].
    unfold shows, activeNav, showRegistries, showHomePage, plan_shown. rewrite Hm, Hv, Hj. done.
  - unfold App.step. cbn [handle].
    destruct (commit_no_plan p (handleBrowseRegistries p)) as (Hm & Hv & Hj).
    { unfold handleBrowseRegistries, on_store. cbn [vis with_vis show setCurrentView].
      destruct (registries _); exact Hc. }
    unfold shows, activeNav, showRegistries. rewrite Hm, Hv, Hj. done.
Qed.

(** A click in the navigation bar, whatever is shown before it, shows the page it names (the
    editor without a plan of its own, the home page or the registries, these two with no
    plan loaded), and if that page can be drawn it is the one that is highlighted. *)
Theorem navigation_shown label id p :
  (label, id) ∈ nav_items →
  shows label (clicked p (Nav label)) ∧
  ∀ b, App (clicked p (Nav label)) = Ok b → active_label b = [label].
Proof.
  intros Hin. destruct (nav_shows label id p Hin) as [Hs Ha]. split; [done|]. intros b Hb.
  destruct (one_active _ _ Hb) as (l & -> & Hl). rewrite Ha in Hl. f_equal.
  unfold nav_items in Hin, Hl. rewrite !elem_of_cons, elem_of_nil in Hin, Hl.
  by destruct Hin as [[= -> ->]|[[= -> ->]|[[= -> ->]|[]]]], Hl as [[= ->]|[[= ->]|[[= ->]|[]]]].
Qed.
End clicks.

(** *** The list of plans *)

Lemma collect_lookup {A B} (f : A → result B) l ys i y :
  collect f l = Ok ys → ys !! i = Some y → ∃ x, l !! i = Some x ∧ f x = Ok y.
Proof.
  revert ys i. induction l as [|x l IH]; intros ys i Hc Hi; cbn in Hc; [by injection Hc as <-|].
  destruct (f x) as [z|] eqn:Hx; [|done]. cbn in Hc. destruct (collect f l) as [zs|]; [|done]. injection Hc as <-.
  destruct i as [|i]; cbn in Hi; [injection Hi as <-; by exists x|by apply (IH zs)].
Qed.

(** A row's name can be clicked where it is drawn, and asks for the plan of that name; while
    a plan is being loaded Edit cannot be pressed. *)
Theorem rows_clickable p b rows active err i name by_ editable :
  App p = Ok b → main b = Home (PlanRows rows) active err → rows !! i = Some (name, by_, editable) →
  ∃ n, click (PlanName i) p = Some (PlanClick n) ∧ shown n = Ok name ∧
    (editable = false → click (EditPlan i) p = None) ∧
    (editable = true → ∀ t, template n = Ok t → click (EditPlan i) p = Some (EditPlanByName t)).
Proof.
  intros Hb Hm Hi. pose proof (one_page p b Hb) as Hone. rewrite Hm in Hone. destruct Hone as [Hh _].
  unfold App in Hb. destruct (context_info p) as [texts|]; [|done]. cbn [mbind result_bind] in Hb. rewrite Hh in Hb.
  unfold PlanSelector, available_plans in Hb. unfold click, listed. rewrite Hh. cbn [negb orb].
  destruct (indexLoading _); [by injection Hb as <-|].
  destruct (planIndex _) eqn:Hpi; try by injection Hb as <-.
  match goal with H : planIndex _ = VArray ?l |- _ => destruct l as [|e l]; [by injection Hb as <-|] end.
  destruct (collect plan_entry _) as [ps|] eqn:Hc; [|done]. cbn [mbind result_bind] in Hb.
  injection Hb as <-. cbn [main] in Hm. injection Hm as <- _ _.
  apply list_lookup_fmap_Some in Hi as ([nm bk] & [= -> -> ->] & Hps).
  destruct (collect_lookup _ _ _ _ _ Hc Hps) as (plan & Hplan & He). rewrite Hplan. cbn [mbind option_bind].
  unfold plan_entry, shown_prop in He. destruct (get_prop plan "name") as [n|]; [|done]. cbn [mbind result_bind] in He |- *.
  exists n. destruct (shown n) as [t|] eqn:Hn; [|done]. cbn in He.
  destruct (get_prop plan "built_by") as [bb|]; [|done]. cbn in He.
  destruct (match bb with VUndefined | VNull => _ | _ => _ end) as [k|]; [|done]. cbn in He.
  destruct (shown (js_or k _)) as [bt|]; [|done]. cbn in He. injection He as -> ->.
  split_and!; [done|done|by intros ->%negb_false_iff|].
  intros ->%negb_true_iff t' Ht. by rewrite Ht.
Qed.
