(* ===== verification/CanvasLife.v ===== *)
(** * CanvasLife: the canvas from mounting to its end
    (tools/visualizer/src/components/Canvas.tsx, its effects, in the panel that
    DockLayout.tsx puts it in)

    A canvas starts an application of PixiJS, which takes a while, draws the graph once
    that is ready, fits it into the container, follows the container's size and gives the
    application back at its end.  The panel shows it only while there is a plan.  In strict
    mode effects run, are cleaned up and run again at the start. *)

From S2P Require Import Prelude StateMonad Collections JsNumber JsValue VisGraph VisStore Canvas.

(** ** State *)

(** An application: its start is under way, is under way but no longer wanted, is over; it
    was given back; or its start failed. *)
Inductive app_status := Starting | Flagged | Running | Destroyed | Failed.
#[global] Instance app_status_eq_dec : EqDecision app_status.
Proof. solve_decision. Defined.

(** The container of the graph on the stage: its place and scale, and what is drawn in it. *)
Record stage := { placed : ViewState; drawn : option (result scene) }.
Definition new_stage : stage := {| placed := initialView; drawn := None |}.

(** A mounted canvas: the application that its effect made, its refs and state, whether it
    observes its element's size, and whether a timer is set. *)
Record mounted := {
  own : nat;
  appRef : option nat;
  graphContainer : option stage;
  isReady : bool;
  observing : bool;
  refit : bool;
}.

(** The panel with the canvas, if there is one; all applications ever made, those given back
    in order, and the size that the last one draws in. *)
Record life := {
  vis : machine;
  open : bool;
  size : number * number;
  apps : list app_status;
  destroys : list nat;
  surface : option (number * number);
  here : option mounted;
}.

Section life.
Context (text_size : Z → string → number * number).
Context (atan2 : number → number → number) (cos sin : number → number) (PI : number).
Context (strict : bool).
Local Abbreviation draw := (Canvas.draw text_size atan2 cos sin PI).

Definition graph_of (m : machine) : option VisGraph := graph (st_plan (store m)).
Definition view_of (m : machine) : ViewState := view (st_canvas (store m)).
Definition drawing (m : machine) (g : VisGraph) : result scene :=
  draw (hoveredNodeId (st_canvas (store m))) (selectedNodeId (st_canvas (store m))) g.

Definition with_here (c : option mounted) (p : life) : life :=
  {| vis := vis p; open := open p; size := size p; apps := apps p; destroys := destroys p;
     surface := surface p; here := c |}.
Definition with_vis (m : machine) (p : life) : life :=
  {| vis := m; open := open p; size := size p; apps := apps p; destroys := destroys p;
     surface := surface p; here := here p |}.
Definition with_app (i : nat) (s : app_status) (p : life) : life :=
  {| vis := vis p; open := open p; size := size p; apps := <[i := s]> (apps p); destroys := destroys p;
     surface := surface p; here := here p |}.
(** [app.destroy(true, { children: true })] *)
Definition destroy (i : nat) (p : life) : life :=
  {| vis := vis p; open := open p; size := size p; apps := <[i := Destroyed]> (apps p);
     destroys := destroys p ++ [i]; surface := surface p; here := here p |}.
Definition with_surface (p : life) : life :=
  {| vis := vis p; open := open p; size := size p; apps := apps p; destroys := destroys p;
     surface := Some (size p); here := here p |}.

(** ** Effects *)

Definition place (v : ViewState) (st : stage) : stage := {| placed := v; drawn := drawn st |}.
Definition redraw (m : machine) (st : stage) : stage :=
  match graph_of m with Some g => {| placed := placed st; drawn := Some (drawing m g) |} | None => st end.
Definition has_nodes (m : machine) : bool :=
  match graph_of m with Some g => negb (bool_decide (vis_nodes g = [])) | None => false end.

(** [fitToView] and, if it has set the view, the render that places it. *)
Definition fit (c : mounted) (p : life) : life :=
  let m := (fitToView (size p).1 (size p).2 (vis p)).2 in
  let c := if has_nodes (vis p)
           then {| own := own c; appRef := appRef c; graphContainer := place (view_of m) <$> graphContainer c;
                   isReady := isReady c; observing := observing c; refit := refit c |}
           else c in
  with_here (Some c) (with_vis m p).

(** The effects after a render, by what has changed since the one before: being ready, the
    graph, the view, whether the source is shown, what is hovered or selected. *)
Definition effects (ready_set graph_set view_set source_set marks_set : bool) (p : life) : life :=
  match here p with
  | None => p
  | Some c =>
      let shown := isReady c && bool_decide (is_Some (graph_of (vis p))) in
      let st := if view_set then place (view_of (vis p)) <$> graphContainer c else graphContainer c in
      let st := if (ready_set || graph_set || marks_set) && isReady c then redraw (vis p) <$> st else st in
      let c := {| own := own c; appRef := appRef c; graphContainer := st; isReady := isReady c;
                  observing := if ready_set then isReady c else observing c;
                  refit := if ready_set || graph_set || source_set then shown else refit c |} in
      if (ready_set || graph_set) && shown then fit c p else with_here (Some c) p
  end.

(** ** Start and end *)

(** The first effect: a new application starts. *)
Definition init (p : life) : life :=
  let i := length (apps p) in
  {| vis := vis p; open := open p; size := size p; apps := apps p ++ [Starting]; destroys := destroys p;
     surface := surface p;
     here := Some {| own := i; appRef := None; graphContainer := None; isReady := false; observing := false;
                     refit := false |} |}.
(** Its cleanup *)
Definition cleanup (p : life) : life :=
  match here p with
  | None => p
  | Some c =>
      let p := match apps p !! own c with Some Starting => with_app (own c) Flagged p | _ => p end in
      match appRef c with Some i => destroy i p | None => p end
  end.
Definition unmount (p : life) : life := with_here None (cleanup p).
Definition mount (p : life) : life := if strict then init (cleanup (init p)) else init p.

(** [app.init] is over. *)
Definition started (i : nat) (ok : bool) (p : life) : life :=
  match apps p !! i with
  | Some Flagged => if ok then destroy i p else with_app i Failed p
  | Some Starting =>
      match here p with
      | Some c =>
          if ok then
            effects (negb (isReady c)) false false false false
              (with_here (Some {| own := own c; appRef := Some i; graphContainer := Some new_stage; isReady := true;
                                  observing := observing c; refit := refit c |})
                (with_surface (with_app i Running p)))
          else with_app i Failed p
      | None => with_app i Failed p
      end
  | _ => p
  end.

(** ** The panel *)

(** [CanvasPanelContent]: the canvas with its toolbar, or a hint. *)
Definition shows_canvas (p : life) : bool := open p && truthy (planJson (st_plan (store (vis p)))).
Definition hint : string := "Compile a plan to see the DAG".

(** A render of the panel, with what the store's change has set. *)
Definition render (graph_set view_set source_set marks_set : bool) (p : life) : life :=
  if shows_canvas p then
    match here p with
    | Some _ => effects false graph_set view_set source_set marks_set p
    | None => mount p
    end
  else unmount p.

Definition with_open (b : bool) (p : life) : life :=
  {| vis := vis p; open := b; size := size p; apps := apps p; destroys := destroys p; surface := surface p; here := here p |}.
Definition with_size (s : number * number) (p : life) : life :=
  {| vis := vis p; open := open p; size := s; apps := apps p; destroys := destroys p; surface := surface p; here := here p |}.

(** The store changes by whatever calls, and sets its graph, its view and what is hovered or
    selected, or not; the layout opens or closes the panel or changes its size; a start is
    over, a timer fires. *)
Inductive event :=
| Changed (m : machine) (graph_set view_set marks_set : bool)
| Toggled (opened : bool)
| Resized (s : number * number)
| Started (i : nat) (ok : bool)
| TimerFires.

Definition step (p : life) (e : event) : life :=
  match e with
  | Changed m graph_set view_set marks_set =>
      let source_set := xorb (showSource (st_source (store m))) (showSource (st_source (store (vis p)))) in
      render graph_set view_set source_set marks_set (with_vis m p)
  | Toggled b => render false false false false (with_open b p)
  | Resized s =>
      let p := with_size s p in
      match here p with
      | Some c =>
          if observing c && negb (num_eqb s.1 (num 0) || num_eqb s.2 (num 0)) && bool_decide (is_Some (appRef c))
          then with_surface p else p
      | None => p
      end
  | Started i ok => started i ok p
  | TimerFires =>
      match here p with
      | Some c =>
          if refit c then
            fit {| own := own c; appRef := appRef c; graphContainer := graphContainer c; isReady := isReady c;
                   observing := observing c; refit := false |} p
          else p
      | None => p
      end
  end.
End life.

(** ** What the effects keep *)

Section kept.
Context (text_size : Z → string → number * number).
Context (atan2 : number → number → number) (cos sin : number → number) (PI : number).
Context (strict : bool).
Local Abbreviation drawing := (drawing text_size atan2 cos sin PI).
Local Abbreviation effects := (effects text_size atan2 cos sin PI).
Local Abbreviation step := (step text_size atan2 cos sin PI strict).

(** What is on the stage is the store's graph, at the store's view. *)
Definition shows_graph (m : machine) (c : mounted) : Prop :=
  ∃ st g, graphContainer c = Some st ∧ graph_of m = Some g ∧ drawn st = Some (drawing m g) ∧
    (vis_nodes g ≠ [] → placed st = view_of m).
Definition flat (s : number * number) : Prop := num_eqb s.1 (num 0) = true ∨ num_eqb s.2 (num 0) = true.

(** The application of the mounted canvas runs and is the one referred to, or it does not
    run and none is. *)
Definition own_ok (p : life) (c : mounted) : Prop :=
  (apps p !! own c = Some Running ∧ appRef c = Some (own c)) ∨
  ((apps p !! own c = Some Starting ∨ apps p !! own c = Some Failed) ∧ appRef c = None).
Record apps_ok (p : life) : Prop := {
  once : NoDup (destroys p);
  given_back : ∀ i, i ∈ destroys p ↔ apps p !! i = Some Destroyed;
  live : ∀ i s, apps p !! i = Some s → s = Starting ∨ s = Running → own <$> here p = Some i;
  owned : ∀ c, here p = Some c → own_ok p c;
}.
Definition canvas_ok (p : life) (c : mounted) : Prop :=
  (is_Some (appRef c) ↔ isReady c = true) ∧
  if isReady c
  then observing c = true ∧ shows_graph (vis p) c ∧ (surface p = Some (size p) ∨ flat (size p))
  else graphContainer c = None ∧ observing c = false ∧ refit c = false.
Record kept (p : life) : Prop := {
  kept_apps : apps_ok p;
  kept_canvas : ∀ c, here p = Some c → canvas_ok p c;
  kept_shown : bool_decide (is_Some (here p)) = shows_canvas p;
  kept_plan : graph_of (vis p) = None → planJson (st_plan (store (vis p))) = VNull;
}.

(** Fitting sets the view and nothing else. *)
Lemma fitToView_only w h m :
  let m' := (fitToView w h m).2 in
  graph_of m' = graph_of m ∧ st_plan (store m') = st_plan (store m) ∧ st_source (store m') = st_source (store m) ∧
  (∀ g, drawing m' g = drawing m g) ∧ (has_nodes m = false → m' = m).
Proof.
  destruct m as [[si sp ss sc sr] flag hist ops]. unfold fitToView, has_nodes, graph_of.
  unfold mbind, M_bind, StateMonad.get. cbn [st_plan store].
  destruct (graph sp) as [g|] eqn:Hg; [|by split_and!].
  destruct (vis_nodes g) as [|n ns] eqn:Hn; cbn [map]; [by split_and!|]. by rewrite bool_decide_false.
Qed.

Lemma fit_shows p c :
  isReady c = true →
  (∃ st g, graphContainer c = Some st ∧ graph_of (vis p) = Some g ∧ drawn st = Some (drawing (vis p) g)) →
  ∃ c', here (fit c p) = Some c' ∧ shows_graph (vis (fit c p)) c' ∧ isReady c' = true ∧ own c' = own c ∧ appRef c' = appRef c ∧
    observing c' = observing c ∧ refit c' = refit c.
Proof.
  intros Hr (st & g & Hst & Hg & Hd).
  destruct (fitToView_only (size p).1 (size p).2 (vis p)) as (Hgr & _ & _ & Hdr & Hn).
  unfold fit. cbv zeta. rewrite Hst. unfold has_nodes in *. rewrite Hg in *. case_bool_decide as E; cbn [negb].
  - eexists. split; [done|]. split_and!; try done. cbn. rewrite Hn by done. by exists st, g.
  - eexists. split; [done|]. split_and!; try done. cbn. eexists _, g. split; [done|]. cbn. by rewrite Hgr, Hdr.
Qed.

Lemma fit_rest p c :
  let p' := fit c p in
  apps p' = apps p ∧ destroys p' = destroys p ∧ surface p' = surface p ∧ size p' = size p ∧ open p' = open p ∧
  st_plan (store (vis p')) = st_plan (store (vis p)).
Proof.
  unfold fit. cbv zeta. cbn. destruct (fitToView_only (size p).1 (size p).2 (vis p)) as (_ & -> & _). done.
Qed.

Lemma effects_rest rs gs vs ss ms p :
  let p' := effects rs gs vs ss ms p in
  apps p' = apps p ∧ destroys p' = destroys p ∧ surface p' = surface p ∧ size p' = size p ∧ open p' = open p ∧
  st_plan (store (vis p')) = st_plan (store (vis p)).
Proof.
  unfold CanvasLife.effects. destruct (here p) as [c|]; [|done]. cbv zeta.
  destruct (_ && (isReady c && _)); [apply fit_rest|done].
Qed.

(** The effects of a canvas that is ready, with what they need of the stage before them. *)
Lemma effects_ready rs gs vs ss ms p c st g :
  here p = Some c → isReady c = true → graphContainer c = Some st → graph_of (vis p) = Some g →
  (rs = true ∨ observing c = true) →
  (rs || gs || ms = true ∨ drawn st = Some (drawing (vis p) g)) →
  (rs || gs = true ∨ vs = true ∨ (vis_nodes g ≠ [] → placed st = view_of (vis p))) →
  ∃ c', here (effects rs gs vs ss ms p) = Some c' ∧ shows_graph (vis (effects rs gs vs ss ms p)) c' ∧
    isReady c' = true ∧ own c' = own c ∧ appRef c' = appRef c ∧ observing c' = true.
Proof.
  intros Hh Hr Hst Hg Ho Hd Hv. unfold CanvasLife.effects. rewrite Hh. cbv zeta. rewrite Hr, Hst, Hg.
  rewrite (bool_decide_true (is_Some (Some g))) by done. rewrite !andb_true_r.
  set (st' := (if vs then place (view_of (vis p)) <$> Some st else Some st)).
  assert (∃ s, st' = Some s ∧ drawn s = drawn st ∧ (vs = true → placed s = view_of (vis p)) ∧ (vs = false → s = st))
    as (s & Hs & Hsd & Hsv & Hsn) by (unfold st'; destruct vs; eexists; split; done || by split_and!).
  rewrite Hs. clearbody st'.
  assert (∃ s', (if rs || gs || ms then redraw text_size atan2 cos sin PI (vis p) <$> Some s else Some s) = Some s' ∧
    drawn s' = Some (drawing (vis p) g) ∧ placed s' = placed s) as (s' & -> & Hsd' & Hsp).
  { destruct (rs || gs || ms).
    - eexists. split; [done|]. unfold redraw. by rewrite Hg.
    - exists s. split_and!; [done| |done]. destruct Hd as [Hd|Hd]; [done|by rewrite Hsd]. }
  destruct (rs || gs) eqn:Hrg.
  - match goal with |- context [fit ?k p] => destruct (fit_shows p k) as (c' & Hh' & Hsh & Hr' & Ho' & Ha & Hob & _) end.
    + done.
    + by exists s', g.
    + exists c'. split_and!; [done..|]. rewrite Hob. cbn. destruct rs; [done|]. by destruct Ho.
  - eexists. split; [done|]. split_and!; [|done..|].
    + exists s', g. split_and!; [done..|]. intros Hne. cbn. rewrite Hsp. destruct Hv as [Hv|[Hv|Hv]]; [done|by apply Hsv|].
      destruct vs; [by apply Hsv|]. rewrite Hsn by done. by apply Hv.
    + cbn. apply orb_false_iff in Hrg as [-> _]. by destruct Ho.
Qed.
(** What a change sets is what differs, and a plan is there with its graph. *)
Definition honest (p : life) (e : event) : Prop :=
  match e with
  | Changed m graph_set view_set marks_set =>
      (graph_set = false → graph_of m = graph_of (vis p)) ∧ (view_set = false → view_of m = view_of (vis p)) ∧
      (marks_set = false → ∀ g, drawing m g = drawing (vis p) g) ∧
      (graph_of m = None → planJson (st_plan (store m)) = VNull)
  | _ => True
  end.

Lemma plan_graph p : (graph_of (vis p) = None → planJson (st_plan (store (vis p))) = VNull) → shows_canvas p = true → ∃ g, graph_of (vis p) = Some g.
Proof.
  intros Hp Hs. destruct (graph_of (vis p)) as [g|] eqn:Hg; [by exists g|].
  unfold shows_canvas in Hs. rewrite Hp in Hs by done. by rewrite andb_false_r in Hs.
Qed.

(** The end of a canvas gives its application back, once. *)
Lemma unmount_apps p :
  apps_ok p →
  let p' := unmount p in
  apps_ok p' ∧ (∀ i s, apps p' !! i = Some s → s ≠ Starting ∧ s ≠ Running) ∧
  vis p' = vis p ∧ open p' = open p ∧ size p' = size p ∧ here p' = None.
Proof.
  intros Hp. cut (let p' := unmount p in NoDup (destroys p') ∧ (∀ i, i ∈ destroys p' ↔ apps p' !! i = Some Destroyed) ∧
    (∀ i s, apps p' !! i = Some s → s ≠ Starting ∧ s ≠ Running) ∧
    vis p' = vis p ∧ open p' = open p ∧ size p' = size p ∧ here p' = None).
  { cbv zeta. intros (H1 & H2 & H3 & Hr). split; [|by split]. split; [done|done| |].
    - intros i s Hi. destruct (H3 i s Hi). naive_solver.
    - intros c. destruct Hr as (_ & _ & _ & ->). done. }
  destruct Hp as [Hn Hd Ha Hh]. unfold unmount, cleanup. destruct (here p) as [c|] eqn:E; cbn.
  2: { split_and!; try done. intros i s Hi. split; intros ->; apply Ha in Hi; naive_solver. }
  destruct (Hh c eq_refl) as [(Hrun & Href)|(Hst & Href)]; rewrite Href.
  - rewrite Hrun. cbn. split_and!; try done.
    + apply NoDup_app. split_and!; [done| |apply NoDup_singleton]. intros i Hi ->%list_elem_of_singleton.
      apply Hd in Hi. congruence.
    + intros i. rewrite elem_of_app, list_elem_of_singleton, Hd. destruct (decide (i = own c)) as [->|Hne].
      * rewrite list_lookup_insert_eq by (by eapply lookup_lt_Some). naive_solver.
      * rewrite list_lookup_insert_ne by done. naive_solver.
    + intros i s. destruct (decide (i = own c)) as [->|Hne].
      * rewrite list_lookup_insert_eq by (by eapply lookup_lt_Some). naive_solver.
      * rewrite list_lookup_insert_ne by done. intros Hi. split; intros ->; apply Ha in Hi; naive_solver.
  - assert (∃ s, apps p !! own c = Some s ∧ s ≠ Destroyed) as (s0 & Hs0 & Hs0d) by (destruct Hst as [->| ->]; naive_solver).
    set (q := match apps p !! own c with Some Starting => with_app (own c) Flagged p | _ => p end).
    assert (destroys q = destroys p ∧ vis q = vis p ∧ open q = open p ∧ size q = size p ∧
      ∀ i, apps q !! i = if bool_decide (i = own c) then Some (if bool_decide (s0 = Starting) then Flagged else s0)
                         else apps p !! i) as (-> & -> & -> & -> & Hq).
    { unfold q. rewrite Hs0. destruct s0; cbn; split_and!; try done; intros i;
        case_bool_decide as Hi; subst; try done.
      - by rewrite list_lookup_insert_eq by (by eapply lookup_lt_Some).
      - by rewrite list_lookup_insert_ne. }
    clearbody q. cbn. split_and!; try done.
    + intros i. rewrite Hd, Hq. destruct (decide (i = own c)) as [->|Hne].
      * rewrite bool_decide_true, Hs0 by done. case_bool_decide; subst; naive_solver.
      * by rewrite bool_decide_false by done.
    + intros i s. rewrite Hq. destruct (decide (i = own c)) as [->|Hne].
      * rewrite bool_decide_true by done. intros [= <-]. case_bool_decide; [done|].
        destruct Hst as [H'|H']; rewrite H' in Hs0; naive_solver.
      * rewrite bool_decide_false by done.
        intros Hs. split; intros ->; apply Ha in Hs; naive_solver.
Qed.
Definition owner (c : mounted) : nat * option nat := (own c, appRef c).
Lemma apps_ok_same p p' :
  apps p' = apps p → destroys p' = destroys p → owner <$> here p' = owner <$> here p → apps_ok p → apps_ok p'.
Proof.
  intros Ha Hd Ho [Hn Hg Hl Hh].
  assert (own <$> here p' = own <$> here p) as Ho'.
  { destruct (here p'), (here p); try done. injection Ho as Ho _. cbn. by rewrite Ho. }
  split; rewrite ?Ha, ?Hd; [done..|by rewrite Ho'|].
  intros c' Hc'. unfold own_ok. rewrite Ha. rewrite Hc' in Ho. destruct (here p) as [c|]; [|done].
  injection Ho as -> ->. by apply Hh.
Qed.

Lemma init_apps p : apps_ok p → here p = None → apps_ok (init p).
Proof.
  intros [Hn Hd Ha Hh] E. rewrite E in *. split; cbn.
  - done.
  - intros i. rewrite Hd. split; intros Hi; [by apply lookup_app_l_Some|].
    apply lookup_app_Some in Hi as [Hi|[_ Hi]]; [done|]. by apply list_lookup_singleton_Some in Hi as [_ ?].
  - intros i s [Hi|[Hle Hi]]%lookup_app_Some Hs; [by specialize (Ha i s Hi Hs)|].
    apply list_lookup_singleton_Some in Hi as [Hi _]. f_equal. lia.
  - intros c [= <-]. right. cbn. split; [|done]. left. by rewrite lookup_app_r, Nat.sub_diag.
Qed.

Lemma init_canvas p q c : here (init p) = Some c → canvas_ok q c.
Proof. intros [= <-]. split; [|done]. split; [by intros []|done]. Qed.

Lemma mount_kept p :
  apps_ok p → here p = None → shows_canvas p = true →
  (graph_of (vis p) = None → planJson (st_plan (store (vis p))) = VNull) → kept (mount strict p).
Proof.
  intros Ha Hh Hs Hp. unfold mount. destruct strict.
  - change (kept (init (unmount (init p)))).
    destruct (unmount_apps (init p) (init_apps p Ha Hh)) as (Ha' & _ & Hv & Ho & _ & Hn).
    pose proof (init_apps _ Ha' Hn) as Hk. split; [done| | |].
    + intros c. apply init_canvas.
    + change (true = (open (unmount (init p)) && truthy (planJson (st_plan (store (vis (unmount (init p)))))))).
      rewrite Hv, Ho. by rewrite <- Hs.
    + change (graph_of (vis (unmount (init p))) = None → planJson (st_plan (store (vis (unmount (init p))))) = VNull).
      by rewrite Hv.
  - split; [by apply init_apps|intros c; apply init_canvas| |done]. cbn. by rewrite <- Hs.
Qed.

Lemma unmount_kept p :
  apps_ok p → shows_canvas p = false →
  (graph_of (vis p) = None → planJson (st_plan (store (vis p))) = VNull) → kept (unmount p).
Proof.
  intros Ha Hs Hp. destruct (unmount_apps p Ha) as (Ha' & _ & Hv & Ho & _ & Hn).
  split; [done| | |by rewrite Hv]; rewrite Hn; [done|]. cbn. unfold shows_canvas. by rewrite Hv, Ho.
Qed.

(** After the effects of a render of the mounted canvas. *)
Lemma effects_kept rs gs vs ss ms p c :
  apps_ok p → here p = Some c → shows_canvas p = true → (is_Some (appRef c) ↔ isReady c = true) →
  (graph_of (vis p) = None → planJson (st_plan (store (vis p))) = VNull) →
  (if isReady c
   then (rs = true ∨ observing c = true) ∧ (surface p = Some (size p) ∨ flat (size p)) ∧
     ∃ st g, graphContainer c = Some st ∧ graph_of (vis p) = Some g ∧
       (rs || gs || ms = true ∨ drawn st = Some (drawing (vis p) g)) ∧
       (rs || gs = true ∨ vs = true ∨ (vis_nodes g ≠ [] → placed st = view_of (vis p)))
   else graphContainer c = None ∧ observing c = false ∧ refit c = false) →
  kept (effects rs gs vs ss ms p).
Proof.
  intros Ha Hh Hs Hi Hp Hc. destruct (effects_rest rs gs vs ss ms p) as (Eap & Ede & Esu & Esi & Eop & Epl).
  destruct (isReady c) eqn:Hr.
  - destruct Hc as (Hob & Hsu & st & g & Hst & Hg & Hd & Hv).
    destruct (effects_ready rs gs vs ss ms p c st g) as (c' & Hh' & Hsh & Hr' & Ho' & Ha' & Hob'); [done..|].
    split.
    + apply (apps_ok_same p); [done..| |done]. rewrite Hh', Hh. cbn. unfold owner. by rewrite Ho', Ha'.
    + intros c'' Hc''. rewrite Hh' in Hc''. injection Hc'' as <-. split; [by rewrite Ha', Hr'|].
      rewrite Hr'. split_and!; [done..|]. by rewrite Esu, Esi.
    + rewrite Hh'. unfold shows_canvas. rewrite Eop, Epl. by rewrite (bool_decide_true (is_Some (Some c'))).
    + unfold graph_of. rewrite Epl. exact Hp.
  - destruct Hc as (Hst & Hob & Href).
    assert (∃ c', here (effects rs gs vs ss ms p) = Some c' ∧ own c' = own c ∧ appRef c' = appRef c ∧ isReady c' = false ∧
      graphContainer c' = None ∧ observing c' = false ∧ refit c' = false) as (c' & Hh' & Ho' & Ha' & Hr' & Hst' & Hob' & Href').
    { unfold CanvasLife.effects. rewrite Hh. cbv zeta. rewrite Hr, Hst, Hob, Href. cbn [andb fmap option_fmap option_map].
      rewrite !andb_false_r. eexists. split; [done|]. cbn. split_and!; try done; [by destruct vs|by destruct rs|].
      by destruct (_ || _). }
    split.
    + apply (apps_ok_same p); [done..| |done]. rewrite Hh', Hh. cbn. unfold owner. by rewrite Ho', Ha'.
    + intros c'' Hc''. rewrite Hh' in Hc''. injection Hc'' as <-. split; [by rewrite Ha', Hr', Hi|]. by rewrite Hr'.
    + rewrite Hh'. unfold shows_canvas. rewrite Eop, Epl. by rewrite (bool_decide_true (is_Some (Some c'))).
    + unfold graph_of. rewrite Epl. exact Hp.
Qed.

(** A render of the panel from a kept state, after a change that is honest. *)
Lemma render_kept gs vs ss ms p p' :
  kept p → apps p' = apps p → destroys p' = destroys p → here p' = here p → surface p' = surface p → size p' = size p →
  (gs = false → graph_of (vis p') = graph_of (vis p)) → (vs = false → view_of (vis p') = view_of (vis p)) →
  (ms = false → ∀ g, drawing (vis p') g = drawing (vis p) g) →
  (graph_of (vis p') = None → planJson (st_plan (store (vis p'))) = VNull) →
  kept (render text_size atan2 cos sin PI strict gs vs ss ms p').
Proof.
  intros [Ha Hc _ Hp] Eap Ede Ehe Esu Esi Hgs Hvs Hms Hpl.
  assert (apps_ok p') as Ha' by (apply (apps_ok_same p); [done..|by rewrite Ehe|done]).
  unfold render. destruct (shows_canvas p') eqn:Hs; [|by apply unmount_kept].
  destruct (here p') as [c|] eqn:Hh; [|by apply mount_kept]. symmetry in Ehe.
  destruct (Hc c Ehe) as [Hi Hr]. apply (effects_kept _ _ _ _ _ p' c); [done..|].
  destruct (isReady c); [|done]. destruct Hr as (Hob & (st & g & Hst & Hg & Hd & Hv) & Hsu).
  split_and!; [by right|by rewrite Esu, Esi|]. destruct (plan_graph p' Hpl Hs) as [g' Hg'].
  exists st, g'. split_and!; [done..| |].
  - destruct gs; [by left|]. destruct ms; [by left|]. right. rewrite Hgs in Hg' by done. rewrite Hg in Hg'. injection Hg' as <-.
    by rewrite Hms.
  - destruct gs; [by left|]. destruct vs; [by right; left|]. right; right. rewrite Hgs in Hg' by done.
    rewrite Hg in Hg'. injection Hg' as <-. rewrite Hvs by done. exact Hv.
Qed.
(** ** The end of a start *)

Lemma failed_apps p i s :
  apps_ok p → apps p !! i = Some s → s = Flagged ∨ s = Starting → apps_ok (with_app i Failed p).
Proof.
  intros [Hn Hd Ha Hh] Hi Hs. assert (i < length (apps p))%nat as Hlt by by eapply lookup_lt_Some.
  assert (∀ j, apps (with_app i Failed p) !! j = if decide (j = i) then Some Failed else apps p !! j) as E.
  { intros j. cbn. destruct (decide (j = i)) as [->|]; [by rewrite list_lookup_insert_eq|by rewrite list_lookup_insert_ne]. }
  split; [done|..].
  - intros j. rewrite E. cbn. rewrite Hd. destruct (decide (j = i)) as [->|]; [|done]. rewrite Hi. naive_solver.
  - intros j t. rewrite E. destruct (decide (j = i)) as [->|]; [naive_solver|]. apply Ha.
  - intros c Hc. unfold own_ok. rewrite E. destruct (decide (own c = i)) as [Ho|]; [|by apply Hh].
    right. split; [by right|]. destruct (Hh c Hc) as [[Hr _]|[_ Hr]]; [|done]. rewrite Ho, Hi in Hr. naive_solver.
Qed.
Lemma flagged_apps p i : apps_ok p → apps p !! i = Some Flagged → apps_ok (destroy i p).
Proof.
  intros [Hn Hd Ha Hh] Hi. assert (i < length (apps p))%nat as Hlt by by eapply lookup_lt_Some.
  assert (∀ j, apps (destroy i p) !! j = if decide (j = i) then Some Destroyed else apps p !! j) as E.
  { intros j. cbn. destruct (decide (j = i)) as [->|]; [by rewrite list_lookup_insert_eq|by rewrite list_lookup_insert_ne]. }
  split.
  - apply NoDup_app. split_and!; [done| |apply NoDup_singleton]. intros j Hj ->%list_elem_of_singleton.
    apply Hd in Hj. congruence.
  - intros j. rewrite E. cbn. rewrite elem_of_app, list_elem_of_singleton, Hd.
    destruct (decide (j = i)) as [->|]; naive_solver.
  - intros j t. rewrite E. destruct (decide (j = i)) as [->|]; [naive_solver|]. apply Ha.
  - intros c Hc. unfold own_ok. rewrite E. destruct (decide (own c = i)) as [Ho|]; [|by apply Hh].
    destruct (Hh c Hc) as [[Hr _]|[[Hr|Hr] _]]; rewrite Ho, Hi in Hr; naive_solver.
Qed.
Lemma running_apps p i c c' :
  apps_ok p → here p = Some c → apps p !! i = Some Starting → own c' = own c → appRef c' = Some i →
  apps_ok (with_here (Some c') (with_surface (with_app i Running p))).
Proof.
  intros [Hn Hd Ha Hh] Hc Hi Ho Hr. assert (i < length (apps p))%nat as Hlt by by eapply lookup_lt_Some.
  assert (∀ j, (<[i := Running]> (apps p)) !! j = if decide (j = i) then Some Running else apps p !! j) as E.
  { intros j. destruct (decide (j = i)) as [->|]; [by rewrite list_lookup_insert_eq|by rewrite list_lookup_insert_ne]. }
  assert (own c = i) as Hoc by (apply Ha in Hi; [|by left]; rewrite Hc in Hi; by injection Hi).
  split; cbn; [done|..].
  - intros j. rewrite E, Hd. destruct (decide (j = i)) as [->|]; [|done]. rewrite Hi. naive_solver.
  - intros j t. rewrite E, Ho, Hoc. destruct (decide (j = i)) as [->|]; [done|]. intros Hj Ht.
    apply Ha in Hj; [|done]. rewrite Hc in Hj. injection Hj as <-. done.
  - intros c'' [= <-]. left. cbn. rewrite E, Ho, Hoc, decide_True by done. by rewrite Hr.
Qed.

Lemma started_kept i ok p : kept p → kept (started text_size atan2 cos sin PI i ok p).
Proof.
  intros [Ha Hc Hs Hp]. unfold started.
  destruct (apps p !! i) as [[]|] eqn:Hi; [| |by split..].
  - assert (own <$> here p = Some i) as Ho by (eapply (live _ Ha); [done|by left]).
    destruct (here p) as [c|] eqn:Hh; [|done]. injection Ho as Ho. destruct (Hc c eq_refl) as [Hir Hco].
    assert (isReady c = false) as Hr.
    { destruct (owned _ Ha c Hh) as [[Hx _]|[_ Hx]]; [rewrite Ho, Hi in Hx; done|].
      destruct (isReady c); [|done]. destruct Hir as [_ Hir]. rewrite Hx in Hir. by destruct (Hir eq_refl). }
    assert (shows_canvas p = true) as Hsh by by rewrite <- Hs.
    rewrite Hr in *. destruct Hco as (Hst & Hob & Href). destruct ok.
    + eapply effects_kept; [eapply running_apps; [done|exact Hh|done|done|done]|done|exact Hsh|done|exact Hp|].
      cbn. split_and!; [by left|by left|]. destruct (plan_graph p Hp Hsh) as [g Hg].
      exists new_stage, g. split_and!; [done|exact Hg|by left|by left].
    + split; [by eapply failed_apps; [| |right]|intros c' Hc'; apply Hc; by rewrite <- Hc'| |done].
      cbn. by rewrite Hh.
  - destruct ok; (split; [first [by apply flagged_apps|by eapply failed_apps; [| |left]]|exact Hc|exact Hs|exact Hp]).
Qed.

(** ** Every event *)

Lemma step_kept p e : honest p e → kept p → kept (step p e).
Proof.
  intros He Hk. pose proof Hk as [Ha Hc Hs Hp]. destruct e as [m gs vs ms|b|s|i ok|]; cbn.
  - destruct He as (Hg & Hv & Hm & Hn). by apply (render_kept _ _ _ _ p).
  - by apply (render_kept _ _ _ _ p).
  - destruct (here p) as [c|] eqn:Hh.
    + destruct (Hc c eq_refl) as [Hir Hco].
      match goal with |- context [if ?b then _ else _] => destruct b eqn:Hb end.
      * split; [by apply (apps_ok_same p); cbn|intros c'; cbn; rewrite Hh; intros [= <-]|cbn; rewrite Hh; exact Hs|exact Hp].
        split; [done|]. destruct (isReady c); [|done]. destruct Hco as (? & ? & _). split_and!; [done..|by left].
      * split; [by apply (apps_ok_same p); cbn|intros c'; cbn; rewrite Hh; intros [= <-]|cbn; rewrite Hh; exact Hs|exact Hp].
        split; [done|]. destruct (isReady c); [|done]. destruct Hco as (Hob & ? & _). split_and!; [done..|]. right.
        rewrite Hob, bool_decide_true, andb_true_r in Hb by by apply Hir.
        apply negb_false_iff, orb_true_iff in Hb. exact Hb.
    + split; [by apply (apps_ok_same p); cbn|intros c; cbn; by rewrite Hh|cbn; rewrite Hh; exact Hs|exact Hp].
  - by apply started_kept.
  - destruct (here p) as [c|] eqn:Hh; [|done]. destruct (refit c) eqn:Href; [|done].
    destruct (Hc c eq_refl) as [Hir Hco]. destruct (isReady c) eqn:Hr; [|destruct Hco as (_ & _ & Hx); congruence].
    destruct Hco as (Hob & (st & g & Hst & Hg & Hd & _) & Hsu).
    match goal with |- kept (fit ?k p) => destruct (fit_shows p k) as (c' & Hh' & Hsh & Hr' & Ho' & Ha' & Hob' & _);
      [done|by exists st, g|]; destruct (fit_rest p k) as (Eap & Ede & Esu & Esi & Eop & Epl) end.
    split.
    + apply (apps_ok_same p); [done..| |done]. rewrite Hh', Hh. cbn. unfold owner. by rewrite Ho', Ha'.
    + intros c'' Hc''. rewrite Hh' in Hc''. injection Hc'' as <-. split; [by rewrite Ha', Hr'|]. rewrite Hr', Hob', Esu, Esi. done.
    + rewrite Hh'. unfold shows_canvas. rewrite Eop, Epl. exact Hs.
    + unfold graph_of. rewrite Epl. exact Hp.
Qed.

(** The runs of the panel, closed at first, with the store in any state. *)
Definition initial (m : machine) (s : number * number) : life :=
  {| vis := m; open := false; size := s; apps := []; destroys := []; surface := None; here := None |}.
Inductive reachable (m : machine) (s : number * number) : life → Prop :=
| reachable_initial : reachable m s (initial m s)
| reachable_step p e : reachable m s p → honest p e → reachable m s (step p e).

Lemma reachable_kept m s p :
  (graph_of m = None → planJson (st_plan (store m)) = VNull) → reachable m s p → kept p.
Proof.
  intros Hm. induction 1 as [|p e _ IH He]; [|by apply step_kept]. split; [|done|done|exact Hm].
  split; [apply NoDup_nil_2| |done|done]. intros i. split; intros Hi; [by apply elem_of_nil in Hi|done].
Qed.

(** C39: The canvas is on the screen exactly when its panel is open and there is a plan.
    Once it is ready, the stage holds the drawing of the store's graph, with its marks, at
    the store's view, and is as large as its element (unless that has no area), whatever
    changes, opens, closes or resizes in between and in whatever order starts end and timers
    fire, also in strict mode.  No application is given back twice; only the one referred to
    is running; and when there is no canvas, each application was given back, failed to
    start, or will be given back when its start ends. *)
Theorem canvas_follows_store m s p :
  (graph_of m = None → planJson (st_plan (store m)) = VNull) → reachable m s p →
  (is_Some (here p) ↔ shows_canvas p = true) ∧
  (∀ c, here p = Some c → isReady c = true →
    (∃ st g, graphContainer c = Some st ∧ graph_of (vis p) = Some g ∧ drawn st = Some (drawing (vis p) g) ∧
      (vis_nodes g ≠ [] → placed st = view_of (vis p))) ∧
    (surface p = Some (size p) ∨ flat (size p))) ∧
  NoDup (destroys p) ∧
  (∀ i, apps p !! i = Some Running → ∃ c, here p = Some c ∧ appRef c = Some i) ∧
  (here p = None → ∀ i st, apps p !! i = Some st → st = Destroyed ∧ i ∈ destroys p ∨ st = Failed ∨ st = Flagged) ∧
  ∀ i, apps p !! i = Some Flagged → i ∈ destroys (step p (Started i true)).
Proof.
  intros Hm Hp. destruct (reachable_kept m s p Hm Hp) as [Ha Hc Hs _]. split_and!.
  - rewrite <- Hs. by rewrite bool_decide_eq_true.
  - intros c Hh Hr. destruct (Hc c Hh) as [_ Hco]. rewrite Hr in Hco. by destruct Hco as (_ & ? & ?).
  - apply Ha.
  - intros i Hi. pose proof (live _ Ha i _ Hi (or_intror eq_refl)) as Ho. destruct (here p) as [c|] eqn:Hh; [|done].
    injection Ho as Ho. exists c. split; [done|]. destruct (owned _ Ha c Hh) as [[_ Hr]|[[Hr|Hr] _]]; rewrite <- Ho in *;
      [done|congruence|congruence].
  - intros Hh i st Hi. destruct st; [|right; by right| |  |right; by left].
    + pose proof (live _ Ha i _ Hi (or_introl eq_refl)) as Hl. by rewrite Hh in Hl.
    + pose proof (live _ Ha i _ Hi (or_intror eq_refl)) as Hl. by rewrite Hh in Hl.
    + left. split; [done|]. by apply (given_back _ Ha).
  - intros i Hi. cbn. unfold started. rewrite Hi. cbn. apply elem_of_app. right. by apply list_elem_of_singleton.
Qed.
End kept.

(** A machine of the store is one with a graph whenever it has a plan. *)
Lemma displayed_plan dagre m : displayed dagre m → graph_of m = None → planJson (st_plan (store m)) = VNull.
Proof. unfold displayed, graph_of. intros Hd Hg. rewrite Hg in Hd. apply Hd. Qed.

Section fitted.
Context (text_size : Z → string → number * number).
Context (atan2 : number → number → number) (cos sin : number → number) (PI : number).
Context (strict : bool).
Local Abbreviation step := (step text_size atan2 cos sin PI strict).

Lemma fit_vis k p g :
  graph_of (vis p) = Some g → vis_nodes g ≠ [] →
  view_of (vis (fit k p)) = fitted (map snd (vis_nodes g)) (size p).1 (size p).2 ∧
  graph_of (vis (fit k p)) = Some g ∧ size (fit k p) = size p ∧ refit <$> here (fit k p) = Some (refit k).
Proof.
  intros Hg Hn. destruct (fitToView_only text_size atan2 cos sin PI (size p).1 (size p).2 (vis p)) as (Hg' & _).
  unfold fit. cbv zeta. split_and!; [|by rewrite <- Hg|done|by destruct (has_nodes (vis p))].
  cbn [with_here with_vis vis]. unfold fitToView, mbind, M_bind, StateMonad.get. unfold graph_of in Hg. rewrite Hg.
  by destruct (vis_nodes g).
Qed.
Lemma effects_fit vs ss ms p c :
  here p = Some c → isReady c = true → is_Some (graph_of (vis p)) →
  ∃ k, effects text_size atan2 cos sin PI false true vs ss ms p = fit k p ∧ refit k = true.
Proof.
  intros Hh Hr Hg. unfold effects. rewrite Hh. cbv zeta. rewrite Hr, bool_decide_true by done. by eexists.
Qed.
Lemma timer_fit p : refit <$> here p = Some true → ∃ k, step p TimerFires = fit k p ∧ refit k = false.
Proof. intros H. cbn. destruct (here p) as [c|]; [|done]. injection H as ->. by eexists. Qed.
Lemma resized p s : let p' := step p (Resized s) in vis p' = vis p ∧ here p' = here p ∧ size p' = s.
Proof. cbn. destruct (here p) as [c|] eqn:Hh; [destruct (_ && _)|]; by rewrite <- Hh. Qed.

(** A new graph is fitted into the element at once, and again by a timer, into what the
    element measures then. *)
Theorem plan_fitted p c m view_set marks_set s g :
  here p = Some c → isReady c = true → open p = true → truthy (planJson (st_plan (store m))) = true →
  graph_of m = Some g → vis_nodes g ≠ [] →
  let fitted_into size p := view_of (vis p) = fitted (map snd (vis_nodes g)) size.1 size.2 in
  let p1 := step p (Changed m true view_set marks_set) in
  fitted_into (size p) p1 ∧ refit <$> here p1 = Some true ∧
  let p2 := step (step p1 (Resized s)) TimerFires in
  fitted_into s p2 ∧ refit <$> here p2 = Some false.
Proof.
  cbv zeta. intros Hh Hr Ho Ht Hg Hn. set (p1 := step p (Changed m true view_set marks_set)).
  assert (∃ k, p1 = fit k (with_vis m p) ∧ refit k = true) as (k & E & Hk).
  { unfold p1. cbn. unfold render, shows_canvas. cbn [with_vis open vis here]. rewrite Ho, Ht, Hh. cbn [andb].
    by eapply effects_fit. }
  rewrite E. destruct (fit_vis k (with_vis m p) g Hg Hn) as (Hv & Hg1 & _ & Href). rewrite Hk in Href.
  split; [exact Hv|]. split; [exact Href|].
  destruct (resized (fit k (with_vis m p)) s) as (Ev & Eh & Es).
  destruct (timer_fit (step (fit k (with_vis m p)) (Resized s))) as (k2 & E2 & Hk2); [by rewrite Eh|].
  rewrite E2. destruct (fit_vis k2 (step (fit k (with_vis m p)) (Resized s)) g) as (Hv2 & _ & _ & Href2);
    [by rewrite Ev|done|]. rewrite Es in Hv2. by rewrite Hk2 in Href2.
Qed.

(** The toolbar's Fit: the parent of the first canvas element in the document is measured.
    [canvases] are the parents' sizes, in the document's order. *)
Definition handleFit (canvases : list (number * number)) (p : life) : life :=
  match canvases with
  | [] => p
  | s :: _ => step p (Changed (fitToView s.1 s.2 (vis p)).2 false (has_nodes (vis p)) false)
  end.

(** Fit is a change like others, so that the stage shows it; and the graph is fitted into
    the first canvas's parent, whichever that is. *)
Lemma handleFit_fits s canvases p g :
  (graph_of (vis p) = None → planJson (st_plan (store (vis p))) = VNull) → kept text_size atan2 cos sin PI p →
  graph_of (vis p) = Some g → vis_nodes g ≠ [] → shows_canvas p = true →
  let p' := handleFit (s :: canvases) p in
  kept text_size atan2 cos sin PI p' ∧ view_of (vis p') = fitted (map snd (vis_nodes g)) s.1 s.2.
Proof.
  cbv zeta. intros Hp Hk Hg Hn Hs. cbn [handleFit].
  destruct (fitToView_only text_size atan2 cos sin PI s.1 s.2 (vis p)) as (Hg' & Hpl & _ & Hd & Hsame).
  assert (view_of (fitToView s.1 s.2 (vis p)).2 = fitted (map snd (vis_nodes g)) s.1 s.2) as Hv.
  { exact (proj1 (fit_vis {| own := 0; appRef := None; graphContainer := None; isReady := false; observing := false;
      refit := false |} (with_size s p) g Hg Hn)). }
  split.
  - apply step_kept; [|done]. split; [by intros _|]. split; [by intros Hh; rewrite Hsame|].
    split; [intros _; exact Hd|]. rewrite Hpl. unfold graph_of. rewrite Hpl. exact Hp.
  - set (m := (fitToView s.1 s.2 (vis p)).2) in *. rewrite <- Hv. cbn [CanvasLife.step]. unfold render.
    assert (shows_canvas (with_vis m p) = true) as ->.
    { unfold shows_canvas in *. cbn [with_vis open vis]. by rewrite Hpl. }
    pose proof (kept_shown _ _ _ _ _ _ Hk) as Hh. rewrite Hs in Hh.
    destruct (here p) as [c|] eqn:E; [|done]. cbn [with_vis here]. rewrite E.
    unfold effects. cbn [with_vis here]. rewrite E. done.
Qed.
End fitted.

(** ** A sample *)

Definition grid_dagre (o : LayoutOptions) (ns : list (value * number * number)) (es : list (value * value))
    : result (value → option (number * number)) := Ok (λ _, Some (num 100, num 50)).
Definition small_plan : value :=
  VObject [("plan_name", VString "a"); ("outputs", VArray [VString "n0"]);
           ("nodes", VArray [VObject [("node_id", VString "n0"); ("op", VString "core::viewer"); ("inputs", VArray []);
                                      ("params", VObject [])]])].
Definition with_plan : machine :=
  VisStore.step grid_dagre "host" sample_initial (Call (LoadPlan small_plan (VString "a.json") false)).
Definition without_plan : machine := VisStore.step grid_dagre "host" with_plan (Call ClearPlan).
Local Abbreviation life_step := (step flat_text (λ _ _, num 0) (λ x, x) (λ x, x) (num 3) true).
Definition opened : list event :=
  [Toggled true; Changed with_plan true false true; Started 0 true; Started 1 true; Resized (num 800, num 600); TimerFires].
Definition canvas_run (es : list event) : life := foldl life_step (initial sample_initial (num 400, num 300)) es.

(** In strict mode two applications start, and the first is given back when it has started. *)
Lemma canvas_follows_store_witness :
  let p := canvas_run opened in
  ∃ c st, here p = Some c ∧ isReady c = true ∧ graphContainer c = Some st ∧ placed st = view_of (vis p) ∧
    apps p = [Destroyed; Running] ∧ surface p = Some (num 800, num 600) ∧ NoDup (destroys p) ∧
    let p' := life_step p (Changed without_plan true true true) in here p' = None ∧ apps p' = [Destroyed; Destroyed].
Proof.
  cbv zeta.
  assert (∃ c st, here (canvas_run opened) = Some c ∧ isReady c = true ∧ graphContainer c = Some st)
    as (c & st & Hc & Hr & Hst) by (do 2 eexists; split_and!; vm_compute; reflexivity).
  destruct (canvas_follows_store flat_text (λ _ _, num 0) (λ x, x) (λ x, x) (num 3) true sample_initial (num 400, num 300)
    (canvas_run opened)) as (_ & Hready & Hn & _).
  - by vm_compute.
  - unfold canvas_run, opened. cbn [foldl]. do 4 (apply reachable_step; [|exact I]).
    apply reachable_step; [apply reachable_step; [apply reachable_initial|exact I]|].
    split; [discriminate|]. split; [intros _; vm_compute; reflexivity|]. split; [discriminate|].
    intros H. exfalso. revert H. vm_compute. discriminate.
  - destruct (Hready c Hc Hr) as [(st' & g & Hst' & Hg & _ & Hp) _]. rewrite Hst in Hst'. injection Hst' as <-.
    assert (has_nodes (vis (canvas_run opened)) = true) as Hne by (vm_compute; reflexivity).
    exists c, st. split; [exact Hc|]. split; [exact Hr|]. split; [exact Hst|]. split.
    { apply Hp. unfold has_nodes in Hne. rewrite Hg in Hne. intros E. by rewrite E in Hne. }
    split; [vm_compute; reflexivity|]. split; [vm_compute; reflexivity|]. split; [exact Hn|]. vm_compute. by split.
Defined.

(** In the editing layout Monaco's own canvas comes first in the document: Fit measures the
    editor's element, not the canvas's. *)
Example fit_measures_editor :
  let p := canvas_run opened in
  let fit_into sizes := view_of (vis (handleFit flat_text (λ _ _, num 0) (λ x, x) (λ x, x) (num 3) true sizes p)) in
  let scale v := num_to_string (view_scale v) in
  size p = (num 800, num 600) ∧
  fit_into [size p] = view_of (vis p) ∧ scale (fit_into [size p]) = "2" ∧
  scale (fit_into [(num 200, num 600); size p]) = "0.7751937984496124".
Proof. vm_compute. split_and!; reflexivity. Qed.
