(* ===== verification/Pipeline.v ===== *)
(** * Pipeline: a plan from its calls to the screen

    The composition of the parts: the artifact that a plan's calls make leaves the sandbox
    as its JSON copy ([json_ctx]), is completed and written by the compiler (CompilerCli.v),
    and its text is opened and parsed by the visualizer (App.v, VisGraph.v).  The visualizer
    reads an artifact by the names of its properties, so the order in which the compiler
    wrote them does not matter ([alike], Alike.v); the merge keeps the data writable; and
    the graph on the screen is the plan's. *)

From S2P Require Import Prelude StateMonad Collections JsNumber JsValue TsAst Ir AstExtractor AstRewriting.
From S2P Require Import ArtifactValidation StableStringify Json Alike TaskImpl PlanCtx CompilerCli.
From S2P Require Import VisGraph VisStore App.

(** ** The parser does not see the order of properties *)

Record node_alike (n m : VisNode) : Prop := {
  alike_id : alike (id n) (id m);
  alike_op : alike (op n) (op m);
  alike_label : alike (label n) (label m);
  alike_params : alike (VisGraph.params n) (VisGraph.params m);
  alike_flags : trace n = trace m ∧ isSource n = isSource m ∧ isOutput n = isOutput m;
  alike_box : x n = x m ∧ y n = y m ∧ width n = width m ∧ height n = height m;
}.
Definition entry_alike (v w : value * VisNode) : Prop := alike v.1 w.1 ∧ node_alike v.2 w.2.
Definition edge_alike (e e' : VisEdge) : Prop :=
  edge_id e = edge_id e' ∧ alike (from e) (from e') ∧ alike (to e) (to e') ∧ hidden e = hidden e'.
Definition graph_alike (g h : VisGraph) : Prop :=
  Forall2 entry_alike (vis_nodes g) (vis_nodes h) ∧ Forall2 edge_alike (vis_edges g) (vis_edges h).

#[export] Instance same_json_alike : Proper (alike ==> alike ==> eq) same_json.
Proof.
  intros v v' Hv w w' Hw.
  assert (∀ a b, alike a b → match a with VArray _ | VObject _ =>
    (∀ c, same_json a c = false) ∧ (∀ c, same_json b c = false) ∧
    (∀ c, same_json c a = false) ∧ (∀ c, same_json c b = false) | _ => b = a end) as H.
  { intros a b Hab. destruct a; try by apply alike_scalar in Hab.
    - apply alike_array in Hab as (? & -> & _). repeat split; by intros [].
    - apply alike_object in Hab as (? & -> & _). repeat split; by intros []. }
  apply H in Hv, Hw.
  destruct v; try (destruct Hv as (H1 & H2 & _); by rewrite H1, H2); subst v';
    (destruct w; try (destruct Hw as (_ & _ & H3 & H4); by rewrite H3, H4); by subst w').
Qed.

Lemma json_set_has_alike s s' v v' :
  Forall2 alike s s' → alike v v' → json_set_has s v = json_set_has s' v'.
Proof.
  intros Hs Hv. unfold json_set_has. induction Hs as [|a b s s' Hab _ IH]; [done|]. cbn.
  rewrite IH. f_equal. by apply same_json_alike.
Qed.

Lemma json_map_set_alike m m' k k' n n' :
  Forall2 entry_alike m m' → alike k k' → node_alike n n' →
  Forall2 entry_alike (json_map_set m k n) (json_map_set m' k' n').
Proof.
  intros Hm Hk Hn. induction Hm as [|[a x] [b y] m m' [Hab Hxy] Hm IH]; cbn.
  { constructor; [by split|constructor]. }
  rewrite (same_json_alike a b Hab k k' Hk). case_match; constructor; done.
Qed.

#[export] Instance no_length_alike : Proper (alike ==> result_rel eq) no_length.
Proof.
  intros v w H.
  assert (∀ a b, alike a b → result_rel eq
    (n ← get_prop a "length"; Ok (match n with VNumber k => is_zero k | _ => false end))
    (n ← get_prop b "length"; Ok (match n with VNumber k => is_zero k | _ => false end))) as Hl.
  { intros a b Hab. eapply result_rel_bind; [by apply get_prop_alike|]. intros p q Hpq. cbn.
    destruct p; try by rewrite (alike_scalar _ _ Hpq).
    - by apply alike_array in Hpq as (? & -> & _).
    - by apply alike_object in Hpq as (? & -> & _). }
  destruct v; try (rewrite (alike_scalar _ _ H); by apply (result_rel_eq eq)).
  - apply alike_array in H as (l' & -> & H). cbn. by destruct H.
  - apply alike_object in H as Ho. destruct Ho as (? & -> & _). exact (Hl _ _ H).
Qed.

#[export] Instance estimateTextWidth_alike k :
  Proper (alike ==> result_rel eq) (λ v, estimateTextWidth v k).
Proof.
  intros v w H. eapply result_rel_bind; [by apply get_prop_alike|]. intros p q Hpq.
  rewrite (ToNumber_alike p q Hpq). by apply (result_rel_eq eq).
Qed.

Lemma string_or_none_alike v w : alike v w → string_or_none v = string_or_none w.
Proof.
  intros H. destruct v; try by rewrite (alike_scalar _ _ H).
  - by apply alike_array in H as (? & -> & _).
  - by apply alike_object in H as (? & -> & _).
Qed.

Lemma parse_edge_alike suffix a a' b b' :
  alike a a' → alike b b' → result_rel edge_alike (parse_edge suffix a b) (parse_edge suffix a' b').
Proof.
  intros Ha Hb. unfold parse_edge. rewrite (template_alike a a' Ha), (template_alike b b' Hb).
  eapply (result_rel_bind eq); [by apply (result_rel_eq eq)|]. intros s ? <-.
  eapply (result_rel_bind eq); [by apply (result_rel_eq eq)|]. by intros t ? <-.
Qed.

Lemma parse_edges_alike a a' l l' :
  alike a a' → Forall2 alike l l' →
  result_rel (Forall2 edge_alike) (parse_edges a l) (parse_edges a' l').
Proof.
  intros Ha Hl. induction Hl as [|b b' l l' Hb _ IH]; [constructor|]. cbn.
  eapply result_rel_bind; [by apply parse_edge_alike|]. intros e e' He.
  eapply result_rel_bind; [done|]. intros es es' Hes. by constructor.
Qed.

Lemma parse_node_alike s s' g h v w :
  Forall2 alike s s' → graph_alike g h → alike v w →
  result_rel graph_alike (parse_node s g v) (parse_node s' h w).
Proof.
  intros Hs [Hgn Hge] Hv. unfold parse_node.
  eapply result_rel_bind; [by apply get_prop_alike|]. intros ps ps' Hps.
  eapply result_rel_bind; [by apply get_prop_alike|]. intros t t' Ht.
  eapply result_rel_bind; [by apply get_prop_alike|]. intros o o' Ho.
  eapply result_rel_bind; [by apply estimateTextWidth_alike|]. intros ow ? <-.
  rewrite <-(string_or_none_alike t t' Ht).
  eapply (result_rel_bind eq); [by apply (result_rel_eq eq)|]. intros tw ? <-.
  eapply result_rel_bind; [by apply get_prop_alike|]. intros i i' Hi.
  eapply result_rel_bind; [by apply get_prop_alike|]. intros ins ins' Hins.
  eapply result_rel_bind; [by apply no_length_alike|]. intros src ? <-.
  eapply result_rel_bind; [by apply iterate_alike|]. intros l l' Hl.
  eapply result_rel_bind; [by apply parse_edges_alike|]. intros es es' Hes.
  eapply result_rel_bind; [by apply get_prop_alike|]. intros r r' Hr.
  eapply (result_rel_bind (Forall2 edge_alike)).
  { destruct r; try (rewrite (alike_scalar _ _ Hr); apply Forall2_nil_2).
    - rewrite (alike_scalar _ _ Hr) in Hr |- *. eapply result_rel_bind; [by apply parse_edge_alike|]. intros e e' He. cbn. by apply Forall2_cons_2.
    - apply alike_array in Hr as (? & -> & _). apply Forall2_nil_2.
    - apply alike_object in Hr as (? & -> & _). apply Forall2_nil_2. }
  intros rs rs' Hrs. split; cbn [vis_nodes vis_edges].
  - apply json_map_set_alike; [done..|].
    split; try done. cbn. by rewrite (json_set_has_alike s s' i i').
  - by repeat apply Forall2_app.
Qed.

#[export] Instance parsePlan_alike : Proper (alike ==> result_rel graph_alike) parsePlan.
Proof.
  intros v w H. unfold parsePlan.
  eapply result_rel_bind; [by apply (get_prop_alike "outputs")|]. intros o o' Ho.
  eapply (result_rel_bind (Forall2 alike)).
  { destruct o; try (rewrite (alike_scalar _ _ Ho) in Ho |- *; first [apply Forall2_nil_2|by apply iterate_alike]).
    - pose proof (iterate_alike _ _ Ho) as Hi. by apply alike_array in Ho as (? & -> & _).
    - pose proof (iterate_alike _ _ Ho) as Hi. by apply alike_object in Ho as (? & -> & _). }
  intros s s' Hs.
  eapply result_rel_bind; [by apply (get_prop_alike "nodes")|]. intros n n' Hn.
  eapply result_rel_bind; [by apply iterate_alike|]. intros ns ns' Hns.
  eapply result_rel_fold; [|done|by split; constructor].
  intros. by apply parse_node_alike.
Qed.

(** ** The merge keeps the data writable *)

(** Data that has a text which reads back (Json.v). *)
Definition writable (v : value) : Prop := json_ok v ∧ names_ok v.

Lemma writable_array l : writable (VArray l) ↔ Forall writable l.
Proof. unfold writable. by rewrite json_ok_array, names_ok_array, <-Forall_and. Qed.

Lemma writable_object o :
  writable (VObject o) ↔ NoDup (o.*1) ∧ ("__proto__" ∉ o.*1) ∧ Forall (λ kv, writable kv.2) o.
Proof.
  unfold writable. rewrite json_ok_object, names_ok_object, Forall_and. tauto.
Qed.

Lemma writable_perm o o' : o ≡ₚ o' → writable (VObject o) → writable (VObject o').
Proof. intros Hp. rewrite !writable_object. by rewrite Hp. Qed.

Lemma map_set_Forall (P : value → Prop) (o : object) k v :
  Forall (λ kv, P kv.2) o → P v → Forall (λ kv, P kv.2) (map_set o k v).
Proof.
  intros Ho Hv. induction Ho as [|[j w] o Hw Ho IH]; cbn; [by repeat constructor|].
  case_match; by constructor.
Qed.

Lemma writable_define o k v :
  k ≠ "__proto__" → writable (VObject o) → writable v → writable (VObject (obj_define o k v)).
Proof.
  intros Hk Ho Hv. destruct (map_has o k) eqn:Hh.
  - unfold obj_define. rewrite Hh. rewrite writable_object in Ho |- *. destruct Ho as (Hnd & Hp & Ho).
    split_and!; [by apply map_set_NoDup| |by apply map_set_Forall].
    rewrite map_set_keys. intros [?|?]; congruence.
  - apply map_has_false in Hh. eapply writable_perm; [by rewrite obj_define_fresh|].
    rewrite writable_object in Ho |- *. destruct Ho as (Hnd & Hp & Ho). cbn.
    split_and!; [by constructor| |by constructor].
    rewrite not_elem_of_cons. by split.
Qed.

Lemma writable_assign o k v :
  writable (VObject o) → writable v → writable (VObject (obj_assign o k v)).
Proof.
  intros Ho Hv. unfold obj_assign. destruct (String.eqb_spec k "__proto__") as [->|Hk].
  - assert (map_has o "__proto__" = false) as ->; [|done].
    apply map_has_false. by apply writable_object in Ho as (_ & ? & _).
  - rewrite andb_false_r. by apply writable_define.
Qed.

Lemma writable_from_entries o : writable (VObject o) → writable (VObject (from_entries o)).
Proof.
  intros Ho. eapply writable_perm; [|exact Ho]. symmetry. apply from_entries_perm.
  by apply writable_object in Ho as (? & _).
Qed.

Lemma writable_get o k v : writable (VObject o) → map_get o k = Some v → writable v.
Proof.
  intros (_ & _ & Ho)%writable_object Hk%map_get_Some_elem_of.
  rewrite Forall_forall in Ho. by apply (Ho (k, v)).
Qed.

Lemma writable_own o k :
  writable (VObject o) → own_get o k = inherited k ∨ writable (own_get o k).
Proof.
  intros Ho. unfold own_get. destruct (map_get o k) eqn:Hk; [right|by left]. by eapply writable_get.
Qed.

Lemma writable_add_entries letter static l : ∀ n t remap,
  writable t → Forall (λ x, writable x.2) l → writable (add_entries letter static n t remap l).1.
Proof.
  induction l as [|[i v] l IH]; intros n t remap Ht Hl; [done|].
  apply Forall_cons in Hl as [Hv Hl]. cbn [add_entries]. apply IH; [|done].
  destruct t; try done. by apply writable_assign.
Qed.

Lemma writable_remap param static remap n : writable n → writable (remap_node param static remap n).
Proof.
  intros Hn. destruct n as [| | | | | | | |n| |]; try done. cbn.
  destruct (own_get n "params") as [| | | | | | | |ps| |] eqn:Hps; try done.
  destruct (own_get ps param) eqn:Hp; try done. case_match; [done|].
  apply writable_assign; [done|]. apply writable_assign; [|by split].
  destruct (writable_own _ "params" Hn) as [He|He]; by rewrite Hps in He.
Qed.

Lemma writable_empty : writable (VObject []).
Proof. apply writable_object. split_and!; [constructor|apply not_elem_of_nil|constructor]. Qed.

Lemma writable_nullish v : v = VUndefined ∨ writable v → writable (nullish v (VObject [])).
Proof. intros [->|H]; [apply writable_empty|]. destruct v; try done; apply writable_empty. Qed.

Lemma writable_merge table_name param letter static o l a :
  inherited table_name = VUndefined → table_name ≠ "__proto__" →
  writable (VObject o) → Forall (λ x, writable x.2) l →
  merge table_name param letter static (VObject o) l = Ok a → ∃ o', a = VObject o' ∧ writable a.
Proof.
  intros Hname Hne Ho Hl. unfold merge. intros (t & [= <-] & H)%bind_Ok.
  apply bind_Ok in H as (ks & _ & H).
  pose proof (writable_add_entries letter static l (length ks) (nullish (own_get o table_name) (VObject [])) []) as Ht.
  destruct (add_entries _ _ _ _ _ _) as [t' remap].
  apply bind_Ok in H as (ns & [= Hns] & H). apply bind_Ok in H as (es & [= <-] & H).
  destruct ns as [| | | | | | |ns| | |]; try done. injection H as <-. eexists. split; [done|].
  apply writable_define; [done|apply writable_define; [done|by apply writable_from_entries|]|].
  - apply Ht; [|done]. apply writable_nullish. rewrite <-Hname. by apply writable_own.
  - assert (writable (VArray ns)) as Hw.
    { rewrite <-Hns. destruct (writable_own o "nodes" Ho) as [He|He]; [by rewrite Hns in He|done]. }
    rewrite writable_array in Hw |- *. apply Forall_map. eapply Forall_impl; [done|].
    intros n. apply writable_remap.
Qed.

Lemma writable_finish s out name file exprs preds a :
  writable (finalize s out name) →
  Forall (λ x, writable (expr_value x.2)) exprs → Forall (λ x, writable (pred_value x.2)) preds →
  finish_artifact (finalize s out name) file exprs preds = Ok a → ∃ o, a = VObject o ∧ writable a.
Proof.
  intros Ha He Hp. unfold finish_artifact. intros [_ H]%bind_Ok_unit. apply bind_Ok in H as (a' & Ha' & H).
  assert (∃ o, a' = VObject o ∧ writable a') as (o & -> & Ho).
  { destruct exprs; [injection Ha' as <-; by eexists|].
    revert Ha'. by apply writable_merge; [..|apply Forall_map]. }
  destruct preds; [injection H as <-; eauto|].
  revert H. by apply writable_merge; [..|apply Forall_map].
Qed.

(** ** The artifact that leaves the sandbox

    [vm.dump] hands the host the JSON copy of the artifact that the plan emits: members
    that are undefined, as an option that the plan's author leaves out, are not in it.  It
    is the artifact of [json_ctx], the plan with its data as JSON keeps it. *)

Definition json_node (n : PlanNode) : PlanNode := {|
  node_id := node_id n; PlanCtx.op := PlanCtx.op n; inputs := inputs n;
  PlanCtx.params := json_object (PlanCtx.params n);
  extensions := match extensions n with Some e => if has_text e then Some (json_value e) else None | None => None end;
|}.
Definition json_ctx (s : PlanCtx) : PlanCtx := {|
  ctx_id := ctx_id s; nodeCounter := nodeCounter s; nodes := map json_node (nodes s);
  exprTable := map json_member (exprTable s); predTable := map json_member (predTable s);
  capabilitiesRequired := capabilitiesRequired s;
  planExtensions := map json_member (from_entries (planExtensions s));
|}.

(** The plan's own data: its names are not listed twice and none is [__proto__], its
    numbers are ones that JSON keeps (finite, not -0, and read back from their text), and
    the table entries and payloads are JSON data. *)
Record json_plan (s : PlanCtx) (out name : string) : Prop := {
  jp_names : names_ok (finalize s (VString out) (VString name));
  jp_numbers : json_ok (defined (finalize s (VString out) (VString name)));
  jp_entries : Forall (λ kv, has_text kv.2 = true) (exprTable s ++ predTable s ++ planExtensions s);
}.

Lemma json_strings l : json_value (VArray (map VString l)) = VArray (map VString l).
Proof.
  rewrite json_value_array by by apply Forall_map, Forall_forall. by rewrite map_map.
Qed.

Lemma json_node_value n : json_value (node_value n) = node_value (json_node n).
Proof.
  unfold node_value, json_node. destruct n as [i o ins ps e]. cbn [node_id PlanCtx.op inputs PlanCtx.params extensions].
  rewrite json_value_object. unfold json_object. rewrite flat_map_app. cbn [flat_map fst snd has_text Datatypes.app].
  rewrite json_strings, json_value_object.
  destruct e as [e|]; [|done]. cbn [flat_map fst snd Datatypes.app]. by destruct (has_text e).
Qed.

Lemma json_table (t : list (string * value)) :
  Forall (λ kv, has_text kv.2 = true) t → NoDup (t.*1) →
  json_value (VObject (from_entries t)) = VObject (from_entries (map json_member (from_entries t))).
Proof.
  intros Ht Hnd. rewrite json_value_object, json_object_members; [done|]. by rewrite from_entries_perm.
Qed.

Lemma map_optional {A B} (f : string * value → string * value) (l : list A) (g : A → B) k v w :
  f (k, v) = (k, w) → map f (optional_member l k v) = optional_member (map g l) k w.
Proof. intros H. destruct l; [done|]. cbn. by rewrite H. Qed.

Lemma table_names p (t : list (string * value)) n :
  (∀ i : nat, array_index (p +:+ pretty i) = None) → t.*1 = map (λ i : nat, p +:+ pretty i) (seq 0 n) → from_entries t = t.
Proof.
  intros Hp Ht. apply from_entries_names.
  - rewrite Ht. apply (NoDup_fmap_2 (λ i : nat, p +:+ pretty i)), NoDup_seq.
  - assert (Forall (λ k, array_index k = None) (t.*1)) as H; [|by apply Forall_map in H].
    rewrite Ht. apply Forall_map, Forall_forall. auto.
Qed.

Lemma json_finalize s out name :
  plan_ok s → json_plan s out name →
  json_value (finalize s (VString out) (VString name)) = finalize (json_ctx s) (VString out) (VString name).
Proof.
  intros Hok [Hn _ Hx]. apply Forall_app in Hx as [Hx [Hp He]%Forall_app].
  assert (from_entries (exprTable s) = exprTable s) as Ee.
  { by eapply (table_names "e"); [intros; by apply name_no_index|apply ok_exprs]. }
  assert (from_entries (predTable s) = predTable s) as Ep.
  { by eapply (table_names "p"); [intros; by apply name_no_index|apply ok_preds]. }
  assert (NoDup ((exprTable s).*1)) as He1.
  { rewrite (ok_exprs s Hok). apply (NoDup_fmap_2 expr_num), NoDup_seq. }
  assert (NoDup ((predTable s).*1)) as Hp1.
  { rewrite (ok_preds s Hok). apply (NoDup_fmap_2 pred_num), NoDup_seq. }
  destruct (ok_plan_extensions s Hok) as [Hx1 _].
  pose proof (json_table _ Hx He1) as Je. pose proof (json_table _ Hp Hp1) as Jp.
  pose proof (json_table _ He Hx1) as Jx. rewrite Ee in Je at 2. rewrite Ep in Jp at 2.
  assert (json_value (VArray (map node_value (nodes s))) = VArray (map node_value (map json_node (nodes s)))) as Jn.
  { rewrite json_value_array by by apply Forall_map, Forall_forall.
    rewrite !map_map. f_equal. apply map_ext, json_node_value. }
  unfold finalize. cbn [nodes exprTable predTable capabilitiesRequired planExtensions json_ctx].
  rewrite json_record.
  - f_equal. rewrite !map_app. cbn [map]. unfold json_member at 1 2 3 4. cbn [fst snd]. rewrite Jn.
    assert (∀ A B k v w (l : list A) (l' : list B), json_value v = w → (l = [] ↔ l' = []) →
      map json_member (optional_member l k v) = optional_member l' k w) as Hopt.
    { intros A B k v w l l' <- Hl. destruct l, l'; try done; naive_solver. }
    f_equal. f_equal; [|f_equal; [|f_equal]]; apply Hopt; try done.
    all: try apply json_strings.
    all: try (split; [by intros ->|by intros ?%map_eq_nil]).
    split; [by intros ->|]. intros Hnil%map_eq_nil. pose proof (from_entries_perm _ Hx1) as Hperm.
    rewrite Hnil in Hperm. by apply Permutation_nil_l in Hperm.
  - repeat (apply Forall_app_2 || apply Forall_cons_2 || apply Forall_nil_2); try done;
      unfold optional_member; case_match; by repeat constructor.
  - by destruct (exprTable s), (predTable s), (capabilitiesRequired s), (planExtensions s); apply (bool_decide_unpack _).
  - by destruct (exprTable s), (predTable s), (capabilitiesRequired s), (planExtensions s); repeat constructor.
Qed.

Lemma json_plan_writable s out name :
  plan_ok s → json_plan s out name → writable (finalize (json_ctx s) (VString out) (VString name)).
Proof. intros Hok Hj. rewrite <-json_finalize by done. destruct Hj. by apply json_value_ok. Qed.

(** It is the same graph. *)
Lemma json_tables s : plan_ok s → tables_numbered (json_ctx s).
Proof.
  intros [Hx Hp]%plan_tables. split; cbn [exprTable predTable json_ctx]; rewrite length_map.
  - rewrite <-Hx. apply map_fst_map.
  - rewrite <-Hp. apply map_fst_map.
Qed.

Lemma json_ids s : map node_id (nodes (json_ctx s)) = map node_id (nodes s).
Proof. cbn [nodes json_ctx]. by rewrite map_map. Qed.

Lemma params_names s out name n :
  names_ok (finalize s out name) → n ∈ nodes s → NoDup ((PlanCtx.params n).*1).
Proof.
  unfold finalize. intros (_ & _ & H)%names_ok_object Hn.
  rewrite Forall_forall in H. specialize (H ("nodes", VArray (map node_value (nodes s)))).
  cbn [snd] in H. rewrite names_ok_array, Forall_map, Forall_forall in H.
  assert (names_ok (node_value n)) as Hv.
  { apply H; [|done]. apply elem_of_app. left. do 2 (apply elem_of_cons; right). by left. }
  unfold node_value in Hv. apply names_ok_object in Hv as (_ & _ & Hv). rewrite Forall_forall in Hv.
  specialize (Hv ("params", VObject (PlanCtx.params n))). cbn [snd] in Hv.
  rewrite names_ok_object in Hv. apply Hv. apply elem_of_app. left. set_solver.
Qed.

Lemma json_edges s out name :
  names_ok (finalize s out name) → flat_map edges_of (nodes (json_ctx s)) = flat_map edges_of (nodes s).
Proof.
  intros Hn. cbn [nodes json_ctx]. rewrite !flat_map_concat_map, map_map. f_equal.
  apply map_ext_in. intros n Hin%list_elem_of_In. unfold edges_of.
  assert (rhs_refs (json_node n) = rhs_refs n) as E; [|by rewrite E].
  unfold rhs_refs. cbn [PlanCtx.params json_node].
  rewrite json_object_get by by eapply params_names.
  destruct (map_get _ _) as [v|]; [|done]. by destruct v.
Qed.

(** ** The compiled artifact *)

Section compiled.
Context (createSourceFile : string → string → TsAst.node) (SyntaxKind : string → string)
  (getLine : string → nat → nat * nat).
Context (s : PlanCtx) (out : string) (name : value).
Context (source file : string).

#[local] Abbreviation r := (extractExpressions createSourceFile SyntaxKind getLine source file).

(** What an expression or predicate reference of the plan stands for: an entry of the
    plan's own table or an extracted one. *)
Definition expr_meaning : string → option value :=
  meaning (exprTable s) "__static_e" (map (expr_value ∘ snd) (extractedExprs r)).
Definition pred_meaning : string → option value :=
  meaning (predTable s) "__static_p" (map (pred_value ∘ snd) (extractedPreds r)).

(** A reference of a node's parameters, resolved in a document. *)
Definition resolves (doc : value) (table param : string) (meaning : string → option value)
    (ps ps' : object) : Prop :=
  ∀ i, own_get ps param = VString i →
    ∃ j, own_get ps' param = VString j ∧
      match meaning i with
      | Some v => ∃ v', entry doc table j = Some v' ∧ StableStringify.same v v'
      | None => j = i
      end.

(** What the visualizer shows of a node, for the document [doc] it has read. *)
Record displayed (doc : value) (v : value * VisNode) (n : PlanNode) : Prop := {
  displayed_as : v.1 = VString (node_id n) ∧ id v.2 = VString (node_id n) ∧
    op v.2 = VString (PlanCtx.op n) ∧ label v.2 = VString (PlanCtx.op n);
  displayed_role : (isSource v.2 = true ↔ inputs n = []) ∧ (isOutput v.2 = true ↔ node_id n = out);
  displayed_params : ∃ ps, VisGraph.params v.2 = VObject ps ∧
    (∀ k, k ≠ "expr_id" → k ≠ "pred_id" →
      StableStringify.same (own_get (PlanCtx.params n) k) (own_get ps k)) ∧
    resolves doc "expr_table" "expr_id" expr_meaning (PlanCtx.params n) ps ∧
    resolves doc "pred_table" "pred_id" pred_meaning (PlanCtx.params n) ps;
}.

(** The document the compiler writes: the artifact with its provenance. *)
Definition document (a : object) (built : value) : value :=
  VObject (obj_define (from_entries a) "built_by" built).

Lemma document_get a built k :
  NoDup (a.*1) → k ≠ "built_by" → own_get (obj_define (from_entries a) "built_by" built) k = own_get a k.
Proof.
  intros Hnd Hk. unfold own_get. rewrite map_get_define by done.
  apply String.eqb_neq in Hk as ->. rewrite (map_get_perm a (from_entries a)); [done..|].
  symmetry. by apply from_entries_perm.
Qed.

Lemma document_writable a built :
  writable (VObject a) → writable built → writable (document a built).
Proof. intros Ha Hb. apply writable_define; [done|by apply writable_from_entries|done]. Qed.

Lemma same_edges ns ns' doc me mp :
  Forall2 (node_kept doc me mp) ns ns' →
  map node_id ns' = map node_id ns ∧ flat_map edges_of ns' = flat_map edges_of ns.
Proof.
  induction 1 as [|n n' ns ns' Hn _ [IH1 IH2]]; [done|].
  destruct Hn as [(Hid & _ & Hin & _) Hps _ _].
  assert (edges_of n' = edges_of n) as He.
  { unfold edges_of, rhs_refs, node_edge. rewrite Hps by done. by rewrite Hid, Hin. }
  cbn [map flat_map]. by rewrite IH1, IH2, Hid, He.
Qed.

(** The graph of a written document: that of the plan. *)
Lemma document_graph a ns built doc :
  NoDup (map node_id (nodes s)) →
  get_prop (VObject a) "nodes" = Ok (VArray (map node_value ns)) →
  get_prop (VObject a) "outputs" = Ok (VArray [VString out]) →
  map node_id ns = map node_id (nodes s) → NoDup (a.*1) →
  alike (document a built) doc →
  ∃ vs es, parsePlan doc = Ok {| vis_nodes := vs; vis_edges := es |} ∧
    Forall2 (λ v n, ∃ u, shows out u n ∧ entry_alike u v) vs ns ∧ es = flat_map edges_of ns.
Proof.
  intros Hok Hns Hout Hids Hnd Hdoc.
  destruct (parse_nodes_value out ns {| vis_nodes := []; vis_edges := [] |} []) as (us & Hus & Hs);
    [done|by rewrite Hids|].
  assert (parsePlan (document a built) = Ok {| vis_nodes := us; vis_edges := flat_map edges_of ns |}) as Hp.
  { unfold parsePlan, document. cbn [get_prop] in *. rewrite !document_get by done.
    injection Hns as ->. injection Hout as ->. exact Hus. }
  destruct (result_rel_Ok _ _ _ _ (parsePlan_alike _ _ Hdoc) Hp) as ([vs es] & Hg & Hn & He).
  exists vs, es. split; [done|]. cbn in Hn, He. split.
  - clear -Hn Hs. revert ns Hs. induction Hn as [|u v us vs Huv _ IH]; intros ns Hs.
    + inversion Hs. constructor.
    + inversion Hs; subst. constructor; [by exists u|by apply IH].
  - clear -He. assert (Forall (λ e, (∃ i, from e = VString i) ∧ (∃ i, to e = VString i) ∧ hidden e = hidden e)
      (flat_map edges_of ns)) as Hst.
    { apply Forall_flat_map, Forall_forall. intros n _. apply Forall_app.
      split; apply Forall_forall; intros e (x & -> & _)%list_elem_of_fmap; split_and!; eauto. }
    induction He as [|e e' l l' (H1 & H2 & H3 & H4) _ IH]; [done|].
    apply Forall_cons in Hst as [((i & Hi) & (j & Hj) & _) Hst]. rewrite (IH Hst). f_equal.
    rewrite Hi in H2. rewrite Hj in H3. apply alike_scalar in H2, H3.
    destruct e, e'. cbn in *. congruence.
Qed.

Lemma document_entry a built doc table i v :
  NoDup (a.*1) → table ≠ "built_by" → alike (document a built) doc →
  entry (VObject a) table i = Some v → ∃ v', entry doc table i = Some v' ∧ StableStringify.same v v'.
Proof.
  intros Hnd Hne Hdoc He. unfold entry in *. cbn [get_prop] in He.
  destruct (own_get a table) as [| | | | | | | |t| |] eqn:Ht; try done.
  destruct (result_rel_Ok _ _ _ (VObject t) (get_prop_alike table _ _ Hdoc)) as (u & Hu & Ha).
  { cbn. by rewrite document_get, Ht. }
  apply alike_object in Ha as (t' & -> & Hg). rewrite Hu. specialize (Hg i). rewrite He in Hg.
  inversion Hg as [? v' [_ Hv]|]; subst. by exists v'.
Qed.

Lemma resolves_kept a built doc table param (m : string → option value) n n' ps :
  NoDup (a.*1) → table ≠ "built_by" → alike (document a built) doc →
  (∀ k, alike (own_get (PlanCtx.params n') k) (own_get ps k)) →
  (∀ i, own_get (PlanCtx.params n) param = VString i →
    ∃ j, own_get (PlanCtx.params n') param = VString j ∧
      match m i with Some v => entry (VObject a) table j = Some v | None => j = i end) →
  resolves doc table param m (PlanCtx.params n) ps.
Proof.
  intros Hnd Hne Hdoc Hps H i Hi. destruct (H i Hi) as (j & Hj & Hm). exists j.
  specialize (Hps param). rewrite Hj in Hps. apply alike_scalar in Hps. split; [done|].
  destruct (m i); [|done]. by eapply document_entry.
Qed.

Lemma displayed_node a built doc n n' u v :
  NoDup (a.*1) → alike (document a built) doc →
  node_kept (VObject a) expr_meaning pred_meaning n n' → shows out u n' → entry_alike u v →
  displayed doc v n.
Proof.
  intros Hnd Hdoc [(Hid & Hop & Hin & _) Hps He Hp] (H1 & H2 & H3 & H4 & H5 & Hs & Ho) [Hk [Ai Ao Al Ap (_ & Fs & Fo) _]].
  rewrite H1 in Hk. rewrite H2 in Ai. rewrite H3 in Ao. rewrite H4 in Al. rewrite H5 in Ap.
  apply alike_scalar in Hk, Ai, Ao, Al. apply alike_object in Ap as (ps & Hv & Hg).
  pose proof (alike_own _ _ Hg) as Hown. split.
  - by rewrite <-Hid, <-Hop.
  - by rewrite <-Fs, <-Fo, <-Hid, <-Hin.
  - exists ps. split_and!; [done| |by eapply resolves_kept..].
    intros k Hke Hkp. unfold own_get at 1. rewrite <-Hps by done. apply Hown.
Qed.

(** The layout moves nodes. *)
Lemma displayed_place doc x y v n : displayed doc v n → displayed doc (v.1, place x y v.2) n.
Proof. by intros []. Qed.

Lemma layout_displayed dagre doc g h :
  layoutGraph dagre default_options g = Ok h → Forall2 (displayed doc) (vis_nodes g) (nodes s) →
  Forall2 (displayed doc) (vis_nodes h) (nodes s) ∧ vis_edges h = vis_edges g.
Proof.
  unfold layoutGraph. intros (center & _ & [= <-])%bind_Ok Hd. split; [|done]. cbn.
  apply Forall2_fmap_l. eapply Forall2_impl; [exact Hd|]. intros [k v] n Hv. cbn.
  destruct (center k) as [[cx cy]|]; [|exact Hv]. exact (displayed_place doc _ _ _ _ Hv).
Qed.
End compiled.

(** ** From the calls to the screen *)

Section pipeline.
Context (createSourceFile : string → string → TsAst.node) (SyntaxKind : string → string)
  (getLine : string → nat → nat * nat).
Context (bundle : option string → result string) (execute : string → result value)
  (sha256 : string → string) (version : string).
Context (dagre : LayoutOptions → list (value * number * number) → list (value * value) →
  result (value → option (number * number))).
Context (host_message : string) (syntax_error : string → string).

(** dagre lays out every graph. *)
Context (dagre_total : ∀ nodes edges, ∃ center, dagre default_options nodes edges = Ok center).

#[local] Abbreviation compile :=
  (compilePlan createSourceFile SyntaxKind getLine bundle execute sha256 version).

Lemma writable_built code : writable (built_by sha256 version code).
Proof using.
  clear -sha256 version.
  apply writable_object. split_and!; [by apply (bool_decide_unpack _); vm_compute|set_solver|].
  by repeat constructor.
Qed.

(** The sandbox run of the compiled source, when it emits an artifact, emits the one of
    [s], of which the host gets the JSON copy. *)
Definition emits (source file : string) (s : PlanCtx) (out name : string) : Prop :=
  let r := extractExpressions createSourceFile SyntaxKind getLine source file in
  ∀ code w,
    bundle (match extractedExprs r, extractedPreds r with [], [] => None | _, _ => Some (rewrittenSource r) end) = Ok code →
    execute code = Ok w → w = json_value (finalize s (VString out) (VString name)).

(** The text of a compilation, as a reader parses it. *)
Lemma compiled_document source file target text s out name :
  let r := extractExpressions createSourceFile SyntaxKind getLine source file in
  compile source file = Ok (target, text) → emits source file s out name → plan_ok s → json_plan s out name →
  Forall (λ x, writable (expr_value x.2)) (extractedExprs r) →
  Forall (λ x, writable (pred_value x.2)) (extractedPreds r) →
  ∃ a ns code doc, JSON_parse text = Some doc ∧
    alike (document a (built_by sha256 version code)) doc ∧ writable (VObject a) ∧
    get_prop (VObject a) "nodes" = Ok (VArray (map node_value ns)) ∧
    Forall2 (node_kept (VObject a)
      (expr_meaning createSourceFile SyntaxKind getLine (json_ctx s) source file)
      (pred_meaning createSourceFile SyntaxKind getLine (json_ctx s) source file)) (nodes (json_ctx s)) ns ∧
    (∀ k, k ∉ ["nodes"; "expr_table"; "pred_table"] →
      get_prop (VObject a) k = get_prop (finalize (json_ctx s) (VString out) (VString name)) k) ∧
    target = expected_name file +:+ ".plan.json" ∧ name = expected_name file.
Proof using.
  clear dagre dagre_total host_message syntax_error. intros r Hc Hx Hok Hw He Hp.
  destruct (compilePlan_steps _ _ _ _ _ _ _ _ _ _ _ Hc) as
    (_ & Ht & _ & code & artifact & b & es & json & Hbu & Hart & Hvalid & Hname & Hb & Hes & Hj & ->).
  apply (Hx code artifact Hbu) in Hart. rewrite json_finalize in Hart by done. subst artifact. fold r in Hb.
  destruct (writable_finish (json_ctx s) (VString out) (VString name) file _ _ _
    (json_plan_writable s out name Hok Hw) He Hp Hb) as (a & -> & Ha).
  injection Hes as <-.
  destruct (extractExpressions_dense createSourceFile SyntaxKind getLine source file) as [Hdx Hdp].
  destruct (finish_plan (json_ctx s) (VString out) (VString name) file (extractedExprs r) (extractedPreds r)) as
    (b & ns & Hb' & Hns & Hk & Hrest); [by apply json_tables|done..|by apply validateArtifact_iff|].
  rewrite Hb in Hb'. injection Hb' as <-.
  pose proof (document_writable a _ Ha (writable_built code)) as Hd.
  exists a, ns, code, (stored (document a (built_by sha256 version code))).
  destruct (finalize_get (json_ctx s) (VString out) (VString name)) as (_ & _ & Hn & _).
  rewrite Hn in Hname. injection Hname as Hname. split_and!; try done.
  - destruct Hd as [Hdj Hdn].
    by eapply (JSON_parse_stringify 2 _ json EmptyString newline); [apply stable_ok|..].
  - split; [by apply names_ok_distinct, Hd|by apply stored_same, Hd].
Qed.

Lemma required_alike o doc :
  alike (VObject o) doc → Forall (λ k, is_Some (map_get o k)) required_fields →
  is_object doc = true ∧ forallb (has_member doc) required_fields = true.
Proof using.
  intros (o' & -> & Hg)%alike_object Hk. split; [done|]. apply forallb_forall.
  intros k Hin%list_elem_of_In. rewrite Forall_forall in Hk. destruct (Hk k Hin) as [v Hv].
  specialize (Hg k). rewrite Hv in Hg. cbn. unfold has_prop, map_has.
  inversion Hg; subst. by rewrite bool_decide_eq_true_2.
Qed.

(** A member with JSON data is an own one. *)
Lemma own_Some a built k v :
  NoDup (a.*1) → k ≠ "built_by" → inherited k = VUndefined → get_prop (VObject a) k = Ok v → v ≠ VUndefined →
  is_Some (map_get (obj_define (from_entries a) "built_by" built) k).
Proof using.
  intros Hnd Hk Hi [= Hv] Hu. pose proof (document_get a built k Hnd Hk) as H. rewrite Hv in H.
  unfold own_get in H. destruct (map_get _ k); [by eexists|]. congruence.
Qed.

Lemma document_prop a built doc k v :
  NoDup (a.*1) → k ≠ "built_by" → alike (document a built) doc → get_prop (VObject a) k = Ok v →
  ∃ v', get_prop doc k = Ok v' ∧ alike v v'.
Proof using.
  intros Hnd Hk Hdoc [= Hv]. apply (result_rel_Ok _ _ _ _ (get_prop_alike k _ _ Hdoc)). cbn.
  by rewrite document_get, Hv.
Qed.

(** The document is a plan's file, and its graph, laid out, is the plan's. *)
Lemma document_file source file target text s out name :
  let r := extractExpressions createSourceFile SyntaxKind getLine source file in
  compile source file = Ok (target, text) → emits source file s out name → plan_ok s → json_plan s out name →
  Forall (λ x, writable (expr_value x.2)) (extractedExprs r) →
  Forall (λ x, writable (pred_value x.2)) (extractedPreds r) →
  ∃ doc g, is_plan_file dagre target text doc g ∧
    get_prop doc "plan_name" = Ok (VString name) ∧
    Forall2 (displayed createSourceFile SyntaxKind getLine (json_ctx s) out source file doc)
      (vis_nodes g) (nodes (json_ctx s)) ∧
    vis_edges g = flat_map edges_of (nodes s) ∧
    target = name +:+ ".plan.json".
Proof using dagre_total.
  clear host_message syntax_error. intros r Hc Hx Hok Hw He Hp.
  destruct (compiled_document source file target text s out name Hc Hx Hok Hw He Hp) as
    (a & ns & code & doc & Hparse & Hdoc & Ha & Hns & Hkept & Hrest & Htarget & Hname).
  assert (NoDup (a.*1)) as Hnd by by apply writable_object in Ha as (? & _).
  assert (NoDup (map node_id (nodes (json_ctx s)))) as Hidnd by (rewrite json_ids; by apply plan_ids_NoDup).
  destruct (finalize_get (json_ctx s) (VString out) (VString name)) as (_ & Hsv & Hpn & _ & Ho & _).
  rewrite <-!Hrest in Hsv, Hpn, Ho by set_solver.
  destruct (same_edges _ _ _ _ _ Hkept) as [Hids Hedges].
  rewrite (json_edges s _ _ (jp_names _ _ _ Hw)) in Hedges.
  destruct (document_graph (json_ctx s) out a ns _ doc Hidnd Hns Ho Hids Hnd Hdoc) as (vs & es & Hg & Hvs & ->).
  set (g := {| vis_nodes := vs; vis_edges := flat_map edges_of ns |}) in *.
  assert (Forall2 (displayed createSourceFile SyntaxKind getLine (json_ctx s) out source file doc)
    vs (nodes (json_ctx s))) as Hd.
  { clear -Hkept Hvs Hnd Hdoc. revert vs Hvs. induction Hkept as [|n n' l l' Hn _ IH]; intros vs Hvs.
    - inversion Hvs. constructor.
    - inversion Hvs as [|v ? vs' ? (u & Hu & Huv)]; subst. constructor; [|by apply IH].
      by eapply displayed_node. }
  assert (∃ h, layoutGraph dagre default_options g = Ok h) as [h Hh].
  { unfold layoutGraph. edestruct dagre_total as [c ->]. by eexists. }
  destruct (layout_displayed _ _ _ _ _ _ _ dagre doc g h Hh Hd) as [Hdh Heh].
  destruct (document_prop _ _ _ _ _ Hnd (ltac:(done) : "plan_name" ≠ "built_by") Hdoc Hpn) as (v & Hv & ->%alike_scalar).
  destruct (document_prop _ _ _ _ _ Hnd (ltac:(done) : "schema_version" ≠ "built_by") Hdoc Hsv) as (w & Hw' & ->%alike_scalar).
  destruct (required_alike _ _ Hdoc) as [Hobj Hreq].
  { repeat constructor; by eapply own_Some. }
  exists doc, h. rewrite Heh. split; [|split_and!; try done; by rewrite Htarget, <-Hname].
  split_and!; try done.
  - apply endsWith_iff. exists (expected_name file +:+ ".plan"). by rewrite Htarget, string_app_assoc.
  - by eexists.
  - by rewrite Hg.
Qed.

(** C2: From the calls of a plan to the screen.  Take any sequence of calls on a new
    context, and compile the plan, whose sandbox run emits the artifact they make.  When
    the compiler writes a file, and the user drops that file on the visualizer's home page,
    the plan is shown under that file's name without an error: its nodes in their order with
    their operators, roles and parameters, each expression and predicate reference leading,
    in the tables of the document shown, to the entry of the plan or of its source that it
    stood for; and its edges are the plan's inputs and operands, each from an earlier node to
    a later one.  The plan's data is shown as JSON keeps it ([json_ctx]: an option that the
    plan leaves out, undefined, is no parameter); its numbers, and those of the extracted
    entries, are ones that JSON keeps ([json_plan], [writable]). *)
Theorem compiled_plan_opens i source file target text s out name p :
  let r := extractExpressions createSourceFile SyntaxKind getLine source file in
  compile source file = Ok (target, text) →
  PlanCtx.reachable i s → emits source file s out name → json_plan s out name →
  Forall (λ x, writable (expr_value x.2)) (extractedExprs r) →
  Forall (λ x, writable (pred_value x.2)) (extractedPreds r) →
  showHomePage p = true → reading p = [] →
  let after := step dagre host_message syntax_error true
    (step dagre host_message syntax_error false p (DropFile (Some target))) (FileRead 0 (Ok text)) in
  ∃ doc g, showPlanView after = true ∧ localError after = None ∧
    planError (st_plan (store (vis after))) = None ∧
    fileName (st_plan (store (vis after))) = VString (name +:+ ".plan.json") ∧
    planJson (st_plan (store (vis after))) = doc ∧ get_prop doc "plan_name" = Ok (VString name) ∧
    graph (st_plan (store (vis after))) = Some g ∧
    Forall2 (displayed createSourceFile SyntaxKind getLine (json_ctx s) out source file doc)
      (vis_nodes g) (nodes (json_ctx s)) ∧
    vis_edges g = flat_map edges_of (nodes s) ∧ Forall (forward (nodes s)) (vis_edges g).
Proof using dagre_total.
  intros r Hc Hr%reachable_ok Hx Hw He Hp Hhome Hread after.
  destruct (document_file source file target text s out name Hc Hx Hr Hw He Hp) as
    (doc & g & Hfile & Hname & Hd & Hedges & Ht).
  destruct (file_outcome dagre host_message syntax_error target text p Hhome Hread) as
    [(json & h & Hf & Hview & Hle & Hj & Hfn & Hg & Hpe & _)|[Hno _]]; [|by destruct (Hno doc g)].
  assert (json = doc ∧ h = g) as [-> ->].
  { destruct Hf as (_ & Hj1 & _ & _ & _ & Hg1), Hfile as (_ & Hj2 & _ & _ & _ & Hg2).
    rewrite Hj1 in Hj2. injection Hj2 as ->. rewrite Hg1 in Hg2. by injection Hg2 as ->. }
  exists doc, g. rewrite <-Ht. split_and!; try done.
  rewrite Hedges. by apply edges_forward.
Qed.
End pipeline.

(** ** A sample *)

(** The sample plan with a sort whose order and a sleep whose failure flag are left out:
    both are undefined in the plan, and the compiler's file does not have them. *)
Definition ordinary_calls : list api_call :=
  natural_calls ++
  [ Method Sort "n2" (VObject [("by", VObject [("id", VNumber (num 2001))])]);
    Method Sleep "n3" (VObject [("durationMs", VNumber (num 10))]) ].
Definition ordinary_ctx : PlanCtx := run_all ordinary_calls (new_ctx 7).

Lemma ordinary_reachable : PlanCtx.reachable 7 ordinary_ctx.
Proof.
  apply run_all_reachable; [constructor|]. unfold ordinary_calls, natural_calls. cbn [calls_ok call_ok Datatypes.app].
  split_and!; try done.
  all: try (unfold plan_resolves, ref_resolves; apply (bool_decide_unpack _); by vm_compute).
  all: intros rhs [= <-]; by apply genuine_no_ctx.
Qed.

Definition ordinary_artifact : value := json_value (finalize ordinary_ctx (VString "n4") (VString "p")).
Definition ordinary_compilation : result (string * string) :=
  compilePlan sample_tree (λ k, k) (λ _ p, (0, p)) (λ _, Ok "code") (λ _, Ok ordinary_artifact)
    (λ s, s) "1" sample_source "p.plan.ts".
Definition ordinary_text : string :=
  match ordinary_compilation with Ok (_, text) => text | Throw _ => EmptyString end.

Example options_left_out :
  map (λ n, (PlanCtx.op n, (PlanCtx.params n).*1, (PlanCtx.params (json_node n)).*1)) (drop 3 (nodes ordinary_ctx)) =
  [("core::sort", ["by"; "order"; "trace"], ["by"; "trace"]);
   ("test::sleep", ["duration_ms"; "fail_after_sleep"; "trace"], ["duration_ms"; "trace"])].
Proof. by vm_compute. Qed.

Lemma ordinary_json : json_plan ordinary_ctx "n4" "p".
Proof.
  split.
  - apply names_okb_ok. by vm_compute.
  - apply json_okb_ok. by vm_compute.
  - vm_compute. by repeat constructor.
Qed.
Lemma sample_expr_writable :
  Forall (λ x : nat * ExprNode, writable (expr_value x.2)) (extractedExprs sample_result).
Proof.
  apply (Forall_singleton (λ x : nat * ExprNode, writable (expr_value x.2))). split; [apply json_okb_ok|apply names_okb_ok]; by vm_compute.
Qed.

(** That plan, compiled, is shown with its five nodes; the third one's reference leads to
    the expression that the source has there. *)
Lemma compiled_plan_opens_witness :
  let after := sample_step true (sample_step false first_page (DropFile (Some "p.plan.json")))
    (FileRead 0 (Ok ordinary_text)) in
  ∃ g n ps e v, graph (st_plan (store (vis after))) = Some g ∧ length (vis_nodes g) = 5 ∧
    vis_nodes g !! 2 = Some n ∧ VisGraph.params n.2 = VObject ps ∧ own_get ps "expr_id" = VString e ∧
    entry (planJson (st_plan (store (vis after)))) "expr_table" e = Some v ∧
    StableStringify.same (expr_value (key_ref (num 1))) v.
Proof.
  intros after.
  destruct (compiled_plan_opens sample_tree (λ k, k) (λ _ p, (0, p)) (λ _, Ok "code")
    (λ _, Ok ordinary_artifact) (λ s, s) "1" sample_dagre "host" (λ _, "Unexpected token")
    ltac:(by eexists) 7 sample_source "p.plan.ts" "p.plan.json" ordinary_text ordinary_ctx "n4" "p" first_page)
    as (doc & g & _ & _ & _ & _ & Hdoc & _ & Hg & Hd & _).
  - by vm_compute.
  - exact ordinary_reachable.
  - intros code w _ [= <-]. reflexivity.
  - exact ordinary_json.
  - exact sample_expr_writable.
  - constructor.
  - by vm_compute.
  - by vm_compute.
  - pose proof (Forall2_length _ _ _ Hd) as Hl.
    assert (∃ m, nodes (json_ctx ordinary_ctx) !! 2 = Some m ∧
      own_get (PlanCtx.params m) "expr_id" = VString "__static_e0") as (m & Hm & He)
      by by eexists; split; vm_compute.
    destruct (Forall2_lookup_r _ _ _ _ _ Hd Hm) as (n & Hn & [_ _ (ps & Hps & _ & Hr & _)]).
    destruct (Hr _ He) as (e & Hpe & v & Hv & Hs).
    exists g, n, ps, e, v. split; [exact Hg|]. split; [by rewrite Hl; vm_compute|].
    split; [exact Hn|]. split; [exact Hps|]. split; [exact Hpe|].
    split; [|exact Hs]. etransitivity; [|exact Hv]. f_equal. exact Hdoc.
Defined.
