(* ===== verification/BuildRun.v ===== *)
(** * BuildRun: building every plan, with the compiler's processes and the files
    (dsl/tools/build_all_plans.ts and dsl/packages/compiler/src/cli.ts together)

    [PlanBuild] takes the outcome of each compilation and the plans' files as given.  Here
    the build spawns the compiler [dslc] for each plan of the manifest, one after the other;
    the child process parses its arguments, compiles (CompilerCli.v) and writes into the
    output directory; and the index is made of the files that are there afterwards.  This
    run is shown to be [PlanBuild.build_all], and what it leaves in the directory is what
    the visualizer's home page lists (VisStore.v, AppPage.v). *)

From S2P Require Import Prelude StateMonad Collections JsNumber JsValue TsAst Ir AstExtractor AstRewriting.
From S2P Require Import ArtifactValidation StableStringify Json Alike PlanCtx CompilerCli CodegenUtils PlanBuild.
From S2P Require Import Preferences VisGraph VisStore Jsx App AppPage Pipeline.

(** The output directory, by file name. *)
Abbreviation disk := (gmap string string).

(** ** The repository's root *)

(** From the compiler's directory upwards, innermost name first; the file system's root is
    not looked at.  [has dir] says that [pnpm-workspace.yaml] is in [dir]. *)
Fixpoint findRepoRoot (has : list string → bool) (cwd dir : list string) : list string :=
  match dir with
  | [] => cwd
  | _ :: up => if has dir then dir else findRepoRoot has cwd up
  end.

(** It is the nearest directory around the compiler that has the file. *)
Lemma findRepoRoot_nearest has cwd dir :
  let root := findRepoRoot has cwd dir in
  (∃ below, dir = below ++ root ∧ root ≠ [] ∧ has root = true ∧
    ∀ b1 b2, below = b1 ++ b2 → b2 ≠ [] → has (b2 ++ root) = false) ∨
  (root = cwd ∧ ∀ b1 b2, dir = b1 ++ b2 → b2 ≠ [] → has b2 = false).
Proof.
  induction dir as [|name up IH]; cbn [findRepoRoot].
  { right. split; [done|]. by intros b1 b2 [_ ->]%eq_sym%List.app_eq_nil. }
  destruct (has (name :: up)) eqn:Hh.
  - left. exists []. split_and!; [done..|]. by intros b1 b2 [_ ->]%eq_sym%List.app_eq_nil.
  - destruct IH as [(below & Hup & Hne & Hhas & Hno)|[Heq Hno]].
    + left. exists (name :: below). split_and!; [by rewrite Hup at 1|done..|].
      intros b1 b2 Hb Hb2. destruct b1 as [|c b1]; cbn in Hb.
      * subst b2. cbn. by rewrite <- Hup.
      * injection Hb as _ Hb. by apply (Hno b1 b2).
    + right. split; [done|]. intros b1 b2 Hb Hb2. destruct b1 as [|c b1]; cbn in Hb; [by subst b2|].
      injection Hb as _ Hb. by apply (Hno b1 b2).
Qed.

Section build.
Context (createSourceFile : string → string → TsAst.node) (SyntaxKind : string → string)
  (getLine : string → nat → nat * nat).
Context (bundle : string → option string → result string) (execute : string → string → result value).
Context (sha256 : string → string) (version : string) (localeCompare : string → string → comparison).
(** The plans' sources, by path. *)
Context (sources : string → result string).
Context (syntax_error : string → string).

(** ** The compiler's process *)

Definition file_name (path : string) : string := last_segment EmptyString path.
Definition compile_file (path : string) : result (string * string) :=
  source ← sources path;
  CompilerCli.compilePlan createSourceFile SyntaxKind getLine (bundle path) (execute path) sha256 version source (file_name path).

(** Its plans one after the other; the first that fails ends the process. *)
Fixpoint compile_files (paths : list string) (d : disk) : nat * disk :=
  match paths with
  | [] => (0, d)
  | path :: paths' =>
      match compile_file path with
      | Ok (target, text) => compile_files paths' (<[target := text]> d)
      | Throw _ => (1, d)
      end
  end.
Definition dslc (args : list string) (d : disk) : nat * disk :=
  match CompilerCli.main args with
  | Exit code => (code, d)
  | Build planPaths _ => compile_files planPaths d
  end.

(** ** The build *)

(** What a child process reports; the promise settles with the first report. *)
Inductive child_event := SpawnError (message : string) | Close (code : option nat).
Definition runCommand (command : string) (args : list string) (events : list child_event) : option (result unit) :=
  match events with
  | [] => None
  | SpawnError message :: _ => Some (Throw (Error ("Failed to spawn " +:+ command +:+ ": " +:+ message)))
  | Close (Some 0) :: _ => Some (Ok tt)
  | Close code :: _ =>
      Some (Throw (Error (command +:+ " " +:+ join " " args +:+ " exited with code " +:+
        match code with Some c => pretty c | None => "null" end)))
  end.

Definition compiler_args (planPath absOutputDir : string) : list string :=
  ["dsl/packages/compiler/dist/cli.js"; "build"; planPath; "--out"; absOutputDir].

(** [node] runs the script that its first argument names, on the others. *)
Definition compilePlan (absOutputDir planPath : string) (d : disk) : result unit * disk :=
  let args := compiler_args planPath absOutputDir in
  let '(code, d') := dslc (drop 1 args) d in
  (default (Throw TypeError) (runCommand "node" args [Close (Some code)]), d').

Definition build_step (absOutputDir : string) (s : progress * disk) (planPath : string) : progress * disk :=
  let '(r, d) := compilePlan absOutputDir planPath s.2 in
  (build_plan (λ _, r) s.1 (VString planPath), d).
Definition build_loop (absOutputDir : string) (planPaths : list string) (d : disk) : progress * disk :=
  foldl (build_step absOutputDir) ({| successCount := 0; failureCount := 0; compiledPlanNames := [] |}, d) planPaths.

Definition read_json (d : disk) (file : string) : result value :=
  match d !! file with
  | None => Throw (Error ("ENOENT: no such file or directory, open " +:+ quoted file))
  | Some text => match JSON_parse text with Some v => Ok v | None => Throw (Error (syntax_error text)) end
  end.

(** index.json *)
Definition entry_value (e : IndexEntry) : value :=
  VObject [("name", PlanBuild.name e); ("path", VString (PlanBuild.path e)); ("digest", VString (digest e));
           ("capabilities_digest", VString (capabilities_digest e));
           ("built_by", VObject [("backend", VString "quickjs"); ("tool", VString "dslc");
                                 ("tool_version", tool_version e)])].
Definition index_value (index : list IndexEntry) : value :=
  VObject [("schema_version", VNumber (num 1)); ("plans", VArray (map entry_value index))].
Definition index_text (index : list IndexEntry) : string :=
  default EmptyString (stringify 2 0 (index_value index)) +:+ newline.

(** The exit code, the index if one is written, and the directory. *)
Definition run (absOutputDir : string) (planPaths : list string) (d : disk) : nat * option (list IndexEntry) * disk :=
  let '(p, d) := build_loop absOutputDir planPaths d in
  let code := if 0 <? failureCount p then 1 else 0 in
  match compiledPlanNames p with
  | [] => (code, None, d)
  | names =>
      match generateIndex sha256 localeCompare (read_json d) names with
      | Throw _ => (1, None, d)
      | Ok index => (code, Some index, <["index.json" := index_text index]> d)
      end
  end.

(** ** The run is the build of PlanBuild *)

(** A compilation's outcome and what it leaves. *)
Definition compile_result (v : value) : result unit :=
  match v with
  | VString planPath =>
      match compile_file planPath with
      | Ok _ => Ok tt
      | Throw _ => Throw (Error "node exited with code 1")
      end
  | _ => Throw TypeError
  end.
Definition write_plan (d : disk) (path : string) : disk :=
  match compile_file path with Ok (target, text) => <[target := text]> d | Throw _ => d end.
Definition written (paths : list string) (d : disk) : disk := foldl write_plan d paths.

(** A path that the compiler does not take for an option. *)
Definition plain (path : string) : Prop := startsWith path "-" = false.

Lemma compilePlan_one dir path d :
  plain path →
  compilePlan dir path d = (match compile_file path with Ok _ => Ok tt | Throw _ => (compilePlan dir path d).1 end, write_plan d path) ∧
  ((compilePlan dir path d).1 = Ok tt ↔ compile_result (VString path) = Ok tt).
Proof.
  intros Hp. unfold compilePlan, dslc, compiler_args. cbn [drop CompilerCli.main String.eqb Ascii.eqb Bool.eqb orb negb parse_args].
  assert (String.eqb path "--out" = false) as Ho.
  { destruct (String.eqb_spec path "--out") as [->|]; done. }
  rewrite Ho. unfold plain in Hp. rewrite Hp. cbn [Datatypes.app]. unfold write_plan, compile_result.
  cbn [compile_files]. destruct (compile_file path) as [[target text]|e]; cbn; [done|]. by split.
Qed.

Lemma build_step_spec dir p d path :
  plain path → build_step dir (p, d) path = (build_plan compile_result p (VString path), write_plan d path).
Proof.
  intros Hp. destruct (compilePlan_one dir path d Hp) as [H Hiff]. unfold build_step. cbn [fst snd].
  destruct (compilePlan dir path d) as [r d'] eqn:E. cbn [fst] in *. injection H as Hr ->.
  f_equal. unfold build_plan. destruct r as [[]|x], (compile_result (VString path)) as [[]|y]; try done; naive_solver.
Qed.
Lemma build_loop_spec dir paths d :
  Forall plain paths →
  build_loop dir paths d = (build_plans compile_result (map VString paths), written paths d).
Proof.
  unfold build_loop, build_plans, written. generalize {| successCount := 0; failureCount := 0; compiledPlanNames := [] |}.
  revert d. induction paths as [|path paths IH]; intros d p Hp; [done|]. apply Forall_cons in Hp as [Hp Hps].
  cbn [foldl map]. rewrite build_step_spec by done. by apply IH.
Qed.

Lemma run_spec dir paths d args options readManifest parsed :
  Forall plain paths → parseArgs args = Ok (Some options) → readManifest (manifest options) = Ok parsed →
  loadManifest parsed = Ok (map VString paths) →
  (run dir paths d).1 =
    build_all sha256 localeCompare (read_json (written paths d)) compile_result args readManifest.
Proof.
  intros Hp Ha Hm Hl. unfold run, build_all. rewrite build_loop_spec, Ha, Hm by done. cbn. rewrite Hl. cbn.
  destruct (compiledPlanNames _); [done|]. by destruct (generateIndex _ _ _ _).
Qed.

(** ** What is in the directory *)

Lemma written_target paths d target :
  (∀ path text, path ∈ paths → compile_file path ≠ Ok (target, text)) → written paths d !! target = d !! target.
Proof.
  unfold written. revert d. induction paths as [|path paths IH]; intros d Hp; [done|]. cbn [foldl].
  rewrite IH by (intros; apply Hp; by right). unfold write_plan.
  destruct (compile_file path) as [[t x]|] eqn:E; [|done]. rewrite lookup_insert_ne; [done|].
  intros ->. by apply (Hp path x); [left|].
Qed.

(** A file that one plan only is compiled to has that plan's text. *)
Lemma written_keeps paths d target text :
  (∀ path text', path ∈ paths → compile_file path = Ok (target, text') → text' = text) →
  d !! target = Some text → written paths d !! target = Some text.
Proof.
  unfold written. revert d. induction paths as [|p paths IH]; intros d Hu Hd; [done|]. cbn [foldl].
  apply IH; [intros; eapply Hu; [by right|done]|]. unfold write_plan.
  destruct (compile_file p) as [[t x]|] eqn:E; [|done]. destruct (decide (t = target)) as [->|Hne].
  - rewrite lookup_insert_eq. f_equal. by apply (Hu p); [left|].
  - by rewrite lookup_insert_ne.
Qed.
Lemma written_text paths d path target text :
  path ∈ paths → compile_file path = Ok (target, text) →
  (∀ path' text', path' ∈ paths → compile_file path' = Ok (target, text') → text' = text) →
  written paths d !! target = Some text.
Proof.
  intros (l1 & l2 & ->)%list_elem_of_split Hc Hu. unfold written. rewrite foldl_app. cbn [foldl].
  apply written_keeps; [intros p x Hp; apply (Hu p x); set_solver|].
  unfold write_plan at 1. rewrite Hc. apply lookup_insert_eq.
Qed.

(** The name that the build makes of the path leads to the file that the compiler wrote. *)
Lemma target_of path target text :
  compile_file path = Ok (target, text) →
  target = plan_basename path +:+ ".plan.json" ∧ plan_basename path ≠ EmptyString ∧
  plan_basename path = expected_name (file_name path).
Proof.
  unfold compile_file. intros (source & _ & (Hv & ->)%compilePlan_name)%bind_Ok.
  destruct (basename_expected _ Hv) as [Hb Hs].
  assert (plan_basename path = expected_name (file_name path)) as Hp.
  { rewrite <- Hb. unfold plan_basename. by rewrite Hs. }
  rewrite Hp. split_and!; [done| |done]. intros E. by rewrite E in Hv.
Qed.

(** ** Entries *)

(** What the plan's run emits, if anything, is an artifact made by calls; its numbers and
    those of the extracted entries are ones that JSON keeps. *)
Definition genuine (path : string) : Prop :=
  ∀ source, sources path = Ok source →
  let r := extractExpressions createSourceFile SyntaxKind getLine source (file_name path) in
  (∃ i s out nm, PlanCtx.reachable i s ∧ json_plan s out nm ∧
    emits createSourceFile SyntaxKind getLine (bundle path) (execute path) source (file_name path) s out nm) ∧
  Forall (λ x, writable (expr_value x.2)) (extractedExprs r) ∧
  Forall (λ x, writable (pred_value x.2)) (extractedPreds r).

Lemma digest_of_object o : ∃ t, stableStringifyForDigest (VObject o) = Some t.
Proof. by eexists. Qed.

(** Reading a document by name. *)
Lemma capabilities_digest_ok caps exts :
  (caps = VUndefined ∨ ∃ l, caps = VArray l) → (exts = VUndefined ∨ ∃ o, exts = VObject o) →
  ∃ d, computeCapabilitiesDigest sha256 caps exts = Ok d.
Proof.
  intros Hc He. unfold computeCapabilitiesDigest.
  assert (∃ n, get_prop (nullish caps (VArray [])) "length" = Ok (VNumber n)) as [n ->].
  { destruct Hc as [->|[l ->]]; cbn; eauto. }
  assert (∃ ks, keys (nullish exts (VObject [])) = Ok ks) as [ks Hk].
  { destruct He as [->|[o ->]]; cbn; eauto. }
  cbn [mbind result_bind]. destruct (is_zero n); [rewrite Hk|]; cbn [mbind result_bind andb]; [|by eexists].
  destruct (length ks =? 0); by eexists.
Qed.

Lemma genuine_entry path target text :
  compile_file path = Ok (target, text) → genuine path →
  ∃ doc t e, JSON_parse text = Some doc ∧ index_entry sha256 target doc = Ok e ∧
    PlanBuild.name e = VString (plan_basename path) ∧ PlanBuild.path e = target ∧
    stableStringifyForDigest doc = Some t ∧ digest e = "sha256:" +:+ sha256 t ∧ tool_version e = VString version.
Proof.
  intros Hc Hg. destruct (target_of _ _ _ Hc) as (Ht & _ & Hb).
  unfold compile_file in Hc. apply bind_Ok in Hc as (source & Hs & Hc).
  destruct (Hg source Hs) as ((i & s & out & nm & Hr%reachable_ok & Hw & Hx) & He & Hp).
  destruct (compiled_document createSourceFile SyntaxKind getLine (bundle path) (execute path) sha256 version
    source (file_name path) target text s out nm Hc Hx Hr Hw He Hp) as
    (a & ns & code & doc & Hparse & Hdoc & Ha & _ & _ & Hrest & _ & Hname).
  assert (NoDup (a.*1)) as Hnd by by apply writable_object in Ha as (? & _).
  destruct (finalize_get (json_ctx s) (VString out) (VString nm)) as (_ & _ & Hpn & _ & _ & _ & _ & Hcaps & Hexts).
  rewrite <-!Hrest in Hpn, Hcaps, Hexts by set_solver.
  destruct (document_prop _ _ _ _ _ Hnd (ltac:(done) : "plan_name" ≠ "built_by") Hdoc Hpn) as (v & Hv & ->%alike_scalar).
  destruct (document_prop _ _ _ _ _ Hnd (ltac:(done) : "capabilities_required" ≠ "built_by") Hdoc Hcaps) as (caps & Hcv & Hca).
  destruct (document_prop _ _ _ _ _ Hnd (ltac:(done) : "extensions" ≠ "built_by") Hdoc Hexts) as (exts & Hev & Hea).
  assert (∃ vv, get_prop doc "built_by" = Ok vv ∧ get_prop vv "tool_version" = Ok (VString version) ∧
    ∃ bo, vv = VObject bo) as (vv & Hbb & Hver & bo & ->).
  { destruct (result_rel_Ok _ _ _ (built_by sha256 version code) (get_prop_alike "built_by" _ _ Hdoc)) as (w & Hw' & Hal).
    { cbn. unfold own_get. rewrite map_get_define by done. by rewrite String.eqb_refl. }
    destruct (result_rel_Ok _ _ _ (VString version) (get_prop_alike "tool_version" _ _ Hal)) as (x & Hx' & ->%alike_scalar).
    { done. }
    exists w. split_and!; [done..|]. apply alike_object in Hal as (bo & -> & _). by exists bo. }
  apply alike_object in Hdoc as (o & -> & _). destruct (digest_of_object o) as [t Hd].
  assert (caps = VUndefined ∨ ∃ l, caps = VArray l) as Hcs.
  { destruct (capabilitiesRequired (json_ctx s)); [left; by apply alike_scalar in Hca|].
    right. apply alike_array in Hca as (l' & -> & _). by exists l'. }
  assert (exts = VUndefined ∨ ∃ l, exts = VObject l) as Hes.
  { destruct (planExtensions (json_ctx s)); [left; by apply alike_scalar in Hea|].
    right. apply alike_object in Hea as (l' & -> & _). by exists l'. }
  destruct (capabilities_digest_ok caps exts Hcs Hes) as [cd Hcd].
  exists (VObject o), t. eexists. split; [done|]. unfold index_entry. rewrite Hd. cbn [mbind result_bind].
  rewrite Hcv, Hev. cbn [mbind result_bind]. rewrite Hcd. cbn [mbind result_bind]. rewrite Hv. cbn [mbind result_bind].
  rewrite Hbb. cbn [mbind result_bind]. rewrite Hver. cbn [mbind result_bind].
  split; [done|]. cbn. split_and!; try done. by rewrite Hb, Hname.
Qed.

(** ** The index *)

Definition collision_free (paths : list string) : Prop :=
  ∀ p q target x y, p ∈ paths → q ∈ paths → compile_file p = Ok (target, x) → compile_file q = Ok (target, y) → x = y.
(** Plans whose names differ do not collide. *)
Lemma distinct_collision_free paths : NoDup (map plan_basename paths) → collision_free paths.
Proof.
  intros Hnd p q target x y Hp Hq Hx Hy.
  destruct (target_of _ _ _ Hx) as (Ex & _), (target_of _ _ _ Hy) as (Ey & _).
  assert (plan_basename p = plan_basename q) as E.
  { rewrite Ex in Ey. by apply string_app_inj_r in Ey. }
  apply list_elem_of_lookup in Hp as [i Hi], Hq as [j Hj].
  assert (i = j) as ->.
  { eapply (NoDup_lookup _ i j (plan_basename p) Hnd); rewrite list_lookup_fmap; [by rewrite Hi|by rewrite Hj, E]. }
  rewrite Hi in Hj. injection Hj as ->. rewrite Hx in Hy. by injection Hy.
Qed.

Definition compiled (paths : list string) (path target text : string) : Prop :=
  path ∈ paths ∧ compile_file path = Ok (target, text).

Lemma compiled_name paths n :
  n ∈ compiled_names compile_result (map VString paths) ↔
  ∃ path target text, compiled paths path target text ∧ n = plan_basename path.
Proof.
  unfold compiled_names, compiled. rewrite list_elem_of_filter. split.
  - intros (Hne & (v & -> & Hv)%list_elem_of_fmap). apply list_elem_of_filter in Hv as [Hc (path & -> & Hp)%list_elem_of_fmap].
    unfold compiles_text, compile_result in Hc. cbn in Hc. apply bool_decide_eq_true in Hc.
    destruct (compile_file path) as [[t x]|] eqn:E; [|done]. by exists path, t, x.
  - intros (path & target & text & (Hp & Hc) & ->). split; [by apply (target_of path target text)|].
    apply list_elem_of_fmap. exists (VString path). split; [done|]. apply list_elem_of_filter. split.
    + unfold compiles_text, compile_result. cbn. by rewrite Hc, bool_decide_true.
    + by apply (list_elem_of_fmap_2 VString).
Qed.

(** An entry is that of a compiled plan, made from the file that its compilation wrote. *)
Record entry_of (paths : list string) (d : disk) (e : IndexEntry) (path text : string) : Prop := {
  eo_compiled : compiled paths path (PlanBuild.path e) text;
  eo_file : d !! PlanBuild.path e = Some text;
  eo_name : PlanBuild.name e = VString (plan_basename path);
  eo_digest : ∃ doc t, JSON_parse text = Some doc ∧ stableStringifyForDigest doc = Some t ∧
    digest e = "sha256:" +:+ sha256 t;
  eo_version : tool_version e = VString version;
}.

Lemma index_entries_of paths d idx :
  Forall genuine paths → collision_free paths →
  PlanBuild.index_of sha256 localeCompare (read_json (written paths d)) (compiled_names compile_result (map VString paths)) idx →
  (∀ path target text, compiled paths path target text →
    ∃ e, e ∈ idx ∧ PlanBuild.path e = target ∧ entry_of paths (written paths d) e path text) ∧
  (∀ e, e ∈ idx → ∃ path text, entry_of paths (written paths d) e path text).
Proof.
  intros Hg Hf [Hidx _]. rewrite Forall_forall in Hg.
  assert (∀ path target text, compiled paths path target text →
    ∃ doc e, read_json (written paths d) target = Ok doc ∧ index_entry sha256 target doc = Ok e ∧
      PlanBuild.path e = target ∧ entry_of paths (written paths d) e path text) as Hentry.
  { intros path target text [Hp Hc]. destruct (genuine_entry _ _ _ Hc (Hg _ Hp)) as (doc & t & e & Hj & He & Hn & Hpa & Ht & Hd & Hv).
    assert (written paths d !! target = Some text) as Hw.
    { eapply written_text; [done..|]. intros q x Hq Hx. symmetry. by eapply (Hf path q). }
    exists doc, e. unfold read_json. rewrite Hw, Hj. split_and!; [done..|].
    split; rewrite ?Hpa; try done. by exists doc, t. }
  split.
  - intros path target text Hc. destruct (Hentry _ _ _ Hc) as (doc & e & Hr & He & Hpa & Ho). exists e. split; [|done].
    apply Hidx. exists (plan_basename path), doc. pose proof (target_of _ _ _ (proj2 Hc)) as (Ht & _ & _).
    rewrite <- Ht. split_and!; [|done..]. apply compiled_name. by exists path, target, text.
  - intros e (n & doc & (path & target & text & Hc & ->)%compiled_name & Hr & He)%Hidx.
    pose proof (target_of _ _ _ (proj2 Hc)) as (Ht & _ & _). rewrite <- Ht in Hr, He.
    destruct (Hentry _ _ _ Hc) as (doc' & e' & Hr' & He' & _ & Ho). rewrite Hr in Hr'. injection Hr' as <-.
    rewrite He in He'. injection He' as <-. by exists path, text.
Qed.

Lemma run_index dir paths d code idx d' :
  Forall plain paths → run dir paths d = (code, Some idx, d') →
  generateIndex sha256 localeCompare (read_json (written paths d)) (compiled_names compile_result (map VString paths)) = Ok idx ∧
  compiled_names compile_result (map VString paths) ≠ [] ∧
  d' = <["index.json" := index_text idx]> (written paths d) ∧
  (code = 0 ↔ ∀ path, path ∈ paths → ∃ target text, compile_file path = Ok (target, text)).
Proof.
  intros Hp. unfold run. rewrite build_loop_spec by done.
  destruct (build_plans_spec compile_result (map VString paths)) as [Hf Hn]. rewrite Hn.
  destruct (compiled_names _ _) as [|n ns] eqn:Hns; [done|].
  destruct (generateIndex _ _ _ (n :: ns)) as [idx'|] eqn:Hg; [|done]. intros [= <- <- <-]. split_and!; [done..|].
  rewrite Hf. pose proof (all_compile compile_result (map VString paths)) as Hall.
  assert ((if 0 <? length (filter (λ x, compiles_text compile_result x = false) (map VString paths)) then 1 else 0) = 0 ↔
    filter (λ x, compiles_text compile_result x = false) (map VString paths) = []) as ->.
  { destruct (filter _ (map VString paths)); cbn; naive_solver. }
  rewrite Hall, Forall_map, Forall_forall. unfold compiles_text, compile_result. cbn.
  split; intros H path Hin; specialize (H path Hin).
  - apply bool_decide_eq_true in H. destruct (compile_file path) as [[t x]|]; [by exists t, x|done].
  - destruct H as (t & x & ->). by rewrite bool_decide_true.
Qed.

(** ** The home page *)

Definition textual (e : IndexEntry) : Prop := ∃ n v, PlanBuild.name e = VString n ∧ tool_version e = VString v.

Lemma entry_json e : textual e → json_ok (entry_value e) ∧ redefined (entry_value e) = entry_value e.
Proof.
  intros (n & v & Hn & Hv). unfold entry_value. rewrite Hn, Hv. split; [|done].
  apply json_ok_object. repeat constructor.
Qed.
Lemma index_json idx : Forall textual idx → JSON_parse (index_text idx) = Some (index_value idx).
Proof.
  intros Hidx. assert (json_ok (index_value idx)) as Hok.
  { apply json_ok_object. constructor; [by repeat split|]. constructor; [|done]. apply json_ok_array, Forall_map.
    eapply Forall_impl; [exact Hidx|]. intros e He. by apply entry_json. }
  assert (redefined (index_value idx) = index_value idx) as Hr.
  { assert (map redefined (map entry_value idx) = map entry_value idx) as Hm.
    { rewrite map_map. apply list_fmap_ext. intros i e Hi. rewrite Forall_lookup in Hidx.
      apply (entry_json e). by eapply Hidx. }
    change (redefined (index_value idx)) with (VObject (from_entries [("schema_version", VNumber (num 1));
      ("plans", VArray (map redefined (map entry_value idx)))])). by rewrite Hm. }
  destruct (stringify_ok 2 0 _ Hok) as [t Ht]. unfold index_text. rewrite Ht. cbn [default].
  rewrite <- Hr. by apply (JSON_parse_stringify 2 (index_value idx) t EmptyString newline).
Qed.

Definition row_of (loading : bool) (e : IndexEntry) : string * string * bool :=
  (value_text (PlanBuild.name e), "quickjs", negb loading).

Lemma collect_entries idx :
  Forall textual idx →
  collect plan_entry (map entry_value idx) = Ok (map (λ e, (value_text (PlanBuild.name e), "quickjs")) idx).
Proof.
  induction 1 as [|e idx (n & v & Hn & Hv) _ IH]; [done|]. cbn [map collect].
  assert (plan_entry (entry_value e) = Ok (value_text (PlanBuild.name e), "quickjs")) as ->.
  { unfold entry_value. by rewrite Hn. }
  cbn [mbind result_bind]. by rewrite IH.
Qed.

(** The index arrives at the home page. *)
Lemma index_shown dagre host syntax p i idx :
  idx ≠ [] → Forall textual idx → showHomePage p = true → pending (vis p) !! i = Some (IndexRequest Nobody) →
  let after := App.step dagre host syntax false p (StoreEvent (Arrive i [Body (index_value idx)])) in
  showHomePage after = true ∧
  ∃ active err, PlanSelector after = Ok (Home (PlanRows (map (row_of (planLoading (st_plan (store (vis p))))) idx)) active err).
Proof.
  intros Hne Hidx Hh Hi. set (q := App.handle dagre host syntax (StoreEvent (Arrive i [Body (index_value idx)])) p).
  assert (q = with_vis (VisStore.step dagre host (vis p) (Arrive i [Body (index_value idx)])) p) as Hq by done.
  assert (st_plan (store (vis q)) = st_plan (store (vis p)) ∧
    st_index (store (vis q)) = {| planIndex := VArray (map entry_value idx); indexLoading := false;
      indexError := indexError (st_index (store (vis p))) |}) as [Hsp Hsi].
  { rewrite Hq. unfold VisStore.step, run_event, mbind, M_bind, StateMonad.get, modify. rewrite Hi. done. }
  assert (showHomePage q = true) as Hhq.
  { revert Hh. unfold showHomePage, plan_shown. by rewrite Hsp, Hq. }
  assert (plan_shown q = false) as Hps.
  { revert Hhq. unfold showHomePage. destruct (currentView q), (mode_ q); try done. by destruct (plan_shown q). }
  assert (App.step dagre host syntax false p (StoreEvent (Arrive i [Body (index_value idx)])) = q) as ->.
  { unfold App.step, App.commit. fold q. by rewrite Hhq, Hh, Hps. }
  split; [done|]. unfold PlanSelector, available_plans. rewrite Hsi. cbn [indexLoading planIndex].
  destruct idx as [|e idx]; [done|]. cbn [map].
  change (entry_value e :: map entry_value idx) with (map entry_value (e :: idx)).
  rewrite (collect_entries _ Hidx). cbn [mbind result_bind rows_of]. rewrite Hsp, map_map. by do 2 eexists.
Qed.

End build.

(** ** A sample *)

(** The sample plan, and one whose source is missing, into a directory with an old file. *)
Definition sample_sources (path : string) : result string :=
  if String.eqb path "plans/p.plan.ts" then Ok sample_source else Throw (Error "ENOENT").
Definition sample_paths : list string := ["plans/p.plan.ts"; "plans/q.plan.ts"].
Definition sample_disk : disk := {["old.plan.json" := "{}"]}.
Definition sample_run : nat * option (list IndexEntry) * disk :=
  run sample_tree (λ k, k) (λ _ p, (0, p)) (λ _ _, Ok "code") (λ _ _, Ok ordinary_artifact) (λ s, s) "1" string_cmp
    sample_sources (λ _, "Unexpected token") "/out" sample_paths sample_disk.
Definition sample_index : list IndexEntry := default [] sample_run.1.2.

Lemma sample_run_index : sample_run = (1, Some sample_index, sample_run.2).
Proof.
  assert ((sample_run.1.1 =? 1) && bool_decide (is_Some sample_run.1.2) = true) as H by (vm_compute; reflexivity).
  apply andb_true_iff in H as [Hc%Nat.eqb_eq [idx Hi]%bool_decide_eq_true]. unfold sample_index.
  destruct sample_run as [[c o] d]. cbn in *. by subst.
Qed.
Lemma sample_genuine :
  Forall (genuine sample_tree (λ k, k) (λ _ p, (0, p)) (λ _ _, Ok "code") (λ _ _, Ok ordinary_artifact) sample_sources)
    sample_paths.
Proof.
  assert (∀ path, path = "plans/p.plan.ts" ∨ path = "plans/q.plan.ts" →
    genuine sample_tree (λ k, k) (λ _ p, (0, p)) (λ _ _, Ok "code") (λ _ _, Ok ordinary_artifact) sample_sources path) as H.
  { intros path [->| ->] source Hs; [|done]. injection Hs as <-.
    split; [|split].
    - exists 7, ordinary_ctx, "n4", "p". split; [exact ordinary_reachable|]. split; [exact ordinary_json|].
      by intros code w _ [= <-].
    - exact sample_expr_writable.
    - constructor. }
  constructor; [apply H; by left|]. constructor; [apply H; by right|constructor].
Qed.

Lemma sample_collision_free :
  collision_free sample_tree (λ k, k) (λ _ p, (0, p)) (λ _ _, Ok "code") (λ _ _, Ok ordinary_artifact) (λ s, s) "1"
    sample_sources sample_paths.
Proof. apply distinct_collision_free. by apply (bool_decide_unpack _). Qed.

(** The plans of the repository's two manifests (plans and examples/plans). *)
Example repository_paths :
  Forall (λ paths, Forall plain paths ∧ NoDup (map plan_basename paths))
    [["plans/concat_plan.plan.ts"; "plans/parallel_sleep_plan.plan.ts"; "plans/reels_plan_a.plan.ts";
      "plans/regex_plan.plan.ts"];
     ["examples/plans/concat_plan.plan.ts"; "examples/plans/reels_plan_a.plan.ts";
      "examples/plans/redis_follow_media.plan.ts"; "examples/plans/regex_plan.plan.ts";
      "examples/plans/sort_demo.plan.ts"]].
Proof. unfold plain. apply (bool_decide_unpack _). by vm_compute. Qed.

Lemma sample_compiled : compiled sample_tree (λ k, k) (λ _ p, (0, p)) (λ _ _, Ok "code") (λ _ _, Ok ordinary_artifact)
  (λ s, s) "1" sample_sources sample_paths "plans/p.plan.ts" "p.plan.json" ordinary_text.
Proof. split; [apply elem_of_cons; left; reflexivity|vm_compute; reflexivity]. Qed.

